(* ===== verification/_CoqProject ===== *)
-Q . S2P
Prelude.v
PyVal.v
Documents.v
ThreeWay.v
WritePaths.v
Models.v
Identity.v
Operations.v
Schema.v
Legacy.v
Report.v
Ontology.v
Control.v
Authority.v
Dependencies.v
Materialize.v
SemanticDelta.v
Steps.v
Graph.v
Staging.v
NodeRules.v
Proposals.v
Approval.v
ExperimentLoop.v
OpRules.v
PatchRules.v
Soundness.v
Transitions.v
Closure.v
Guidance.v
Replay.v
Leniency.v
Bookkeeping.v
Commit.v
Manifest.v
Log.v
Attribution.v
BranchLog.v
History.v
Branches.v
BranchMerge.v
MergeLaws.v
MergeConformance.v
HealthyLog.v
Admission.v
Writers.v
Durability.v
BranchWriters.v
MergeCommit.v
Watchers.v
Transactions.v
WatcherStore.v
WatcherLaws.v
WatcherDelivery.v
Reconcile.v
ReconcileLaws.v
MainHistory.v
MergeOnce.v
BranchSnapshots.v
TaskModels.v
TaskTables.v
TaskLife.v
TaskAdmission.v
Episodes.v
Wrapup.v
TaskLaws.v
StoreLaws.v
EpisodeLife.v
EpisodeLaws.v
LedgerLaws.v
Lifecycle.v
WrapupLaws.v
Instances.v
Witnesses.v
WitnessFlows.v
WitnessHistory.v
WitnessMerge.v
WitnessBranches.v
WitnessWatchers.v
WitnessTasks.v
