(* ===== verification/Prelude.v ===== *)
(** Verification of Research Control Panel (root file of the development).

    Research Control Panel keeps the knowledge of a research project as a typed
    graph that agents and humans change through Patches, in a log that is the
    only truth; around it, tasks of agents run, wait on watchers, and work on
    branches that are merged back.  The development follows the Python package
    [src/src/rcp]; all paths below are relative to it.

    * Parts, and the files that model them

    - The graph kernel ([core/]).  [Models], [Identity], [Operations]: the
      records, with the validators that relate their fields.  [PyVal], [Schema],
      [Legacy]: Python values, node documents, adapters of old documents.
      [Authority]: who may do what.  [Ontology], [Control], [Dependencies]:
      project types, Experiment projections, Proposal dependencies.
      [Materialize]: what applying a Patch does.  [Report], [NodeRules],
      [Proposals], [Approval], [ExperimentLoop], [OpRules], [PatchRules]: the
      validation of a Patch.  [Transitions]: closing a group of Patches under the
      lifecycle rules and tracing it.  [Replay]: the log folded into the graph.
      A Python function is a function of the same name; an exception is a value
      of [res]; the state that Python copies and mutates is passed along.
    - The log on disk ([config.py], [history/]).  [Manifest]: the project
      manifest.  [Log], [Attribution], [History]: the history manager, reading and
      writing, as functions from the store it finds to the store it leaves.
      [BranchLog], [Branches]: reading the branches of episodes; creating, opening
      and appending to them, the receipts of their merges, and the snapshot that
      reads many of them from one replay of main.
    - The merge of a branch ([runs/branch_merge.py]).  [Documents],
      [SemanticDelta], [BranchMerge]: documents compared three ways, the delta of
      a branch, and the conformance, preparation and commit of a candidate.
    - Watchers ([watchers.py], [storage/watchers.py],
      [runs/transition_event_reconciliation.py]).  [Watchers]: records, conditions
      and schedules.  [WatcherStore]: every transaction on the watcher tables,
      from tables to tables or an error.  [Reconcile]: the wakes that consume the
      accepted history of a graph.  [MainHistory]: what the log hands to a wake.
    - Tasks and episodes ([storage/agent_tasks.py], [storage/experiments.py],
      [storage/episodes.py], [storage/models.py]).  [Transactions]: a transaction
      commits or changes nothing.  [TaskModels], [TaskTables]: the records, the
      tables ([TaskDb]), the events, receipts and notices every transaction
      leaves, and their retention.  [TaskLife]: the guarded transitions of a
      task, its checkpoints, the proof that a dispatch did not start, restart and
      history.  [TaskAdmission]: the checks of a new task against its
      conversation, parent, authority, graph and loop.  [Episodes]: every
      transaction on an episode, its invocations, ending, wrap-up, report
      attempts and report; the store as one machine ([StoreOp], [run_op]).
      [Wrapup] ([runs/episodes/wrapup.py]): the service that ends an episode, a
      program of reads and transactions ([svc]) over that machine.

    The parts call each other as the code does: [History] validates with
    [PatchRules] and prepares with [Transitions]; [BranchMerge] commits through
    [History]; [Reconcile] reads what [Replay] observed and what [Log] loads;
    [TaskAdmission] sees the watchers of [WatcherStore] and the authorities of
    [Authority], [Episodes] inserts its tasks through it, and [Wrapup] calls
    [Episodes].
    What belongs to libraries is an interface, with the documented behaviour the
    code relies on as laws: the node adapter of pydantic ([NodeAdapter],
    [NodeAdapterLaws]), adapters of nested records ([RecordAdapter]), the text
    functions of Python ([TextLib]), SHA-256 over JSON ([CanonicalHash],
    [ContextHash], [WatcherDigest]), and pydantic on a stored human
    ([HumanAdapter]); JSON text, its size, its digest and UUIDs ([JsonText]); the
    version of the packaged skill that writes reports ([ReportSkill]).
    [Instances] gives concrete instances that obey the laws, and a small project.

    * What the theorems show

    - Beliefs and authority ([Soundness], [Authority], [ExperimentLoop],
      [Approval]): an agent's Patch leaves the beliefs of the project as they
      were, a loop writes inside its bounds, approval replays what was proposed.
    - The graph ([Steps], [Graph], [Staging], [Soundness]): materialization is a
      sequence of atomic steps that keep the graph well formed and closed, the
      belief log is complete, staging one operation at a time and applying the
      batch agree.
    - Transitions ([Closure], [Guidance], [Commit], [Leniency], [Bookkeeping]):
      what is prepared for the Patches of one producer ([one_producer]) validates,
      replays to the same graph, stays replayable while the project grows, and
      leaves the guidance flags promised.
    - Durability ([HealthyLog], [Admission], [Writers], [Durability]): whatever
      fails on the way of a writer of main, a submission of the form that
      [submission] states leaves a log that replays; a commit that was not
      published is taken back; a preview shows what is committed.  The code
      accepts some submissions of other forms that stop the log from replaying.
    - Branches ([BranchWriters], [MergeOnce], [BranchSnapshots]): a new branch is
      main; whatever fails on the way of an append of the form
      [branch_submittable], the branch replays and main is as it was; no branch
      head is both merged and settled without a change, a receipt is final, and a
      snapshot says what the replay of each branch says.  The refresh of the
      working files from the shared repository is a parameter: it may bring in
      what others wrote, within the rely condition [refresh_sound].
    - Merges ([ThreeWay], [WritePaths], [MergeLaws], [MergeConformance],
      [MergeCommit]): on aligned graphs ([graphs_ok]) conflicts are exactly the
      changes that cannot live together, and a committed merge touches only what
      the branch changed.
    - Watchers ([WatcherLaws], [WatcherDelivery], [ReconcileLaws], [MainHistory]):
      every interleaving of the store's operations refines the life
      of a watcher, a watcher wakes one task, a condition that comes true is
      delivered, a pass interrupted by a crash can be repeated, and failed work
      comes due again.
    - Tasks ([TaskLaws], [StoreLaws]): every run of the operations of [StoreOp]
      refines the life of a task; a receipt of an admission or a dispatch goes
      only when traces age out, never from an active task; a continuation keeps
      the kind and the authority of the task it continues, for the kinds the code
      checks; a restart spares exactly the tasks it is told to spare whose trace
      shows that their dispatch has not begun; the invocations of a loop are
      sequential and within its ceiling.
    - Episodes ([EpisodeLife], [EpisodeLaws], [LedgerLaws], [Lifecycle]): every run
      refines the life of an episode ([stage_step]) and keeps the ledger
      ([ledger_ok]): budgets, attempts, reports, one live episode per owner; an
      ended episode and a ready report never change; a report that keeps failing
      closes with its third attempt.  Two operations trust their caller, and the
      theorems say with what ([disciplined]).
    - Endings ([WrapupLaws]): the service never breaks that discipline, reaches
      the ending it is asked for, changes nothing when it is repeated, and fails
      for good on a fenced episode whose continuation is lost.

    The files [Witness*] apply every theorem with hypotheses to that project.

    * Bounds and fuel

    [operations_at] recurses with depth two: a Proposal is validated by replaying
    it, and a replay contains no Proposal ([operations_depth_irrelevant]).
    [transition_closure] refuses more than 128 generated operations, as the code
    does; the only rule reads what the initiating Patches did, so it runs once.
    Every other recursion is structural.  Revisions and times are integers
    without a bound, as in Python; a time is an instant in microseconds.  A
    failed project is retried within twelve polls ([RETRY_MAX_PASSES]); a report is
    attempted at most three times ([_REPORT_ATTEMPT_LIMIT]); 200 events and 64, 32
    and 16 receipts of the three tiers are kept for a task; outputs age out after 7
    days, and traces after 90.

    * What is not modelled

    Prose: of messages only the code, level and related ids are kept, and the
    rendering of the research document and of prompts is left out.  Bytes: JSON,
    TOML and SQL text, files, archives and the network are seen as the values
    they hold; so the web API, transport, project transfer, and installation,
    backup and restore of servers are left out.  Processes: agents, providers,
    threads and locks; a transaction and a turn under a lock are one step.  The
    derived files of main and of branches beyond the head a branch records, the
    revision summaries of the history, and the scope of a wake beyond its graph,
    are left out.  Of the database, so are the tables
    of spaces, members, settings, provisioning, usage, contracts, artifacts and
    chat sessions, the ledger of Auto-research beyond what tasks and episodes read
    of it, the claims of graph repairs, the expiry of result views and writing
    sessions, the deletion and transfer of projects, migrations, and the other
    services in [runs/] that call the store between turns of an agent. *)

From stdpp Require Export base tactics numbers list option strings gmap fin_maps sorting.
From stdpp Require Import pretty.

#[export] Set Default Goal Selector "!".

(** ** Exceptions and results

    The kernel signals failure by raising.  Handlers catch
    [(AttributeError, KeyError, TypeError, ValueError)]; a pydantic
    [ValidationError] is a [ValueError].  Prose is not kept, except for the
    key of a failed dictionary lookup. *)

Inductive exn :=
  | KeyError (key : string)
  | ValueError
  | TypeErr
  | ValidationError
  | TransitionConflict.

#[export] Instance exn_eq_dec : EqDecision exn.
Proof. solve_decision. Defined.

Inductive res (A : Type) :=
  | Ok (a : A)
  | Raise (e : exn).
Arguments Ok {_} _.
Arguments Raise {_} _.

#[export] Instance res_eq_dec {A} `{EqDecision A} : EqDecision (res A).
Proof. solve_decision. Defined.

#[export] Instance res_ret : MRet res := @Ok.
#[export] Instance res_bind : MBind res := λ A B f m,
  match m with Ok a => f a | Raise e => Raise e end.
#[export] Instance res_fmap : FMap res := λ A B f m,
  match m with Ok a => Ok (f a) | Raise e => Raise e end.

(** [d[k]] on a Python dict. *)
Definition get_item {V} (d : gmap string V) (k : string) : res V :=
  match d !! k with Some v => Ok v | None => Raise (KeyError k) end.

(** [if not c: raise ValueError(..)]. *)
Definition require (c : bool) : res unit :=
  if c then Ok tt else Raise ValueError.

Definition is_ok {A} (r : res A) : bool :=
  match r with Ok _ => true | Raise _ => false end.

(** A [for] loop whose body may raise. *)
Fixpoint res_fold {S A} (f : S → A → res S) (s : S) (l : list A) : res S :=
  match l with
  | [] => Ok s
  | x :: l => f s x ≫= λ s', res_fold f s' l
  end.

Section res_lemmas.
Context {S A : Type}.
Implicit Types (s : S) (l : list A).

Lemma res_bind_ok {B C} (m : res B) (k : B → res C) c :
  m ≫= k = Ok c → ∃ b, m = Ok b ∧ k b = Ok c.
Proof. destruct m; simpl; [eauto|done]. Qed.

Lemma res_fold_app (f : S → A → res S) s l1 l2 :
  res_fold f s (l1 ++ l2) = res_fold f s l1 ≫= λ s', res_fold f s' l2.
Proof.
  revert s. induction l1 as [|x l1 IH]; intros s; simpl; [done|].
  destruct (f s x); simpl; [apply IH|done].
Qed.

(** Loop invariant rule. *)
Lemma res_fold_inv (P : S → Prop) (f : S → A → res S) l s s' :
  (∀ s x s', x ∈ l → P s → f s x = Ok s' → P s') →
  P s → res_fold f s l = Ok s' → P s'.
Proof.
  revert s. induction l as [|x l IH]; intros s Hstep Hs Hf; simpl in Hf.
  - by simplify_eq.
  - apply res_bind_ok in Hf as (s1 & H1 & Hf).
    eapply IH; [|eapply Hstep; [|exact Hs|exact H1]|exact Hf].
    + intros ??? Hin. apply Hstep. set_solver.
    + set_solver.
Qed.

(** Relational rule: a reflexive, transitive relation respected by the body
    relates the first and the last state. *)
Lemma res_fold_rel (R : relation S) `{!PreOrder R} (f : S → A → res S) l s s' :
  (∀ s x s', x ∈ l → f s x = Ok s' → R s s') →
  res_fold f s l = Ok s' → R s s'.
Proof.
  intros Hstep. apply (res_fold_inv (R s)); [|done].
  intros s1 x s2 Hx Hs H. etrans; [exact Hs|]. by eapply Hstep.
Qed.

(** A body that cannot raise on states satisfying [P] lets the loop finish. *)
Lemma res_fold_total (P : S → Prop) (f : S → A → res S) l s :
  (∀ s x, x ∈ l → P s → ∃ s', f s x = Ok s' ∧ P s') →
  P s → ∃ s', res_fold f s l = Ok s' ∧ P s'.
Proof.
  revert s. induction l as [|x l IH]; intros s Hstep Hs; simpl; [eauto|].
  destruct (Hstep s x) as (s1 & -> & H1); [set_solver|done|]. simpl.
  apply IH; [|done]. intros ???. apply Hstep. set_solver.
Qed.

Lemma res_fold_ext (f g : S → A → res S) l s :
  (∀ s x, x ∈ l → f s x = g s x) → res_fold f s l = res_fold g s l.
Proof.
  revert s. induction l as [|x l IH]; intros s H; simpl; [done|].
  rewrite H by set_solver. destruct (g s x); simpl; [|done].
  apply IH. intros. apply H. set_solver.
Qed.
End res_lemmas.

Lemma Ok_inj {A} (a b : A) : Ok a = Ok b → a = b.
Proof. by intros [=]. Qed.

(** [simplify_res] inverts successful monadic computations in the context. *)
Ltac simplify_res_step :=
  match goal with
  | H : Ok _ = Ok _ |- _ => injection H; clear H; intros; subst
  | H : Raise _ = Ok _ |- _ => discriminate H
  | H : Ok _ = Raise _ |- _ => discriminate H
  | H : mret _ = Ok _ |- _ => unfold mret, res_ret in H
  | H : ?m ≫= _ = Ok _ |- _ =>
      let a := fresh "a" in let E := fresh "E" in
      apply res_bind_ok in H; destruct H as (a & E & H); simpl in H
  | H : _ <$> ?m = Ok _ |- _ =>
      let E := fresh "E" in
      destruct m eqn:E; unfold fmap, res_fmap in H; simpl in H; try discriminate H
  end.
Ltac simplify_res := repeat (simplify_res_step; simplify_eq/=).

Lemma get_item_ok {V} (d : gmap string V) k v : get_item d k = Ok v ↔ d !! k = Some v.
Proof. unfold get_item. destruct (d !! k); naive_solver. Qed.

Lemma require_ok (c : bool) u : require c = Ok u ↔ c = true.
Proof. destruct c, u; simpl; naive_solver. Qed.

(** ** Sorted collections of strings: Python's [sorted(...)] *)

Definition py_sorted (l : list string) : list string := merge_sort String.le l.

Definition sorted_set (s : gset string) : list string := py_sorted (elements s).

(** [", ".join(items)]. *)
Fixpoint join (sep : string) (items : list string) : string :=
  match items with
  | [] => ""
  | [x] => x
  | x :: items => x +:+ sep +:+ join sep items
  end.

Lemma py_sorted_Permutation l : py_sorted l ≡ₚ l.
Proof. apply merge_sort_Permutation. Qed.

Lemma elem_of_py_sorted x l : x ∈ py_sorted l ↔ x ∈ l.
Proof. by rewrite py_sorted_Permutation. Qed.

Lemma elem_of_sorted_set x s : x ∈ sorted_set s ↔ x ∈ s.
Proof. unfold sorted_set. by rewrite elem_of_py_sorted, elem_of_elements. Qed.

Lemma py_sorted_sorted l : StronglySorted String.le (py_sorted l).
Proof. apply (StronglySorted_merge_sort _). Qed.

Lemma NoDup_sorted_set s : NoDup (sorted_set s).
Proof. unfold sorted_set. rewrite py_sorted_Permutation. apply NoDup_elements. Qed.

(** Sorting forgets everything but the multiset of its input. *)
Lemma py_sorted_proper l1 l2 : l1 ≡ₚ l2 → py_sorted l1 = py_sorted l2.
Proof.
  intros H. apply (StronglySorted_unique String.le); [apply py_sorted_sorted..|].
  by rewrite !py_sorted_Permutation.
Qed.

#[export] Instance py_sorted_Proper : Proper (Permutation ==> (=)) py_sorted.
Proof. intros ???. by apply py_sorted_proper. Qed.

Lemma sorted_set_nil s : sorted_set s = [] ↔ s = ∅.
Proof.
  unfold sorted_set. split.
  - intros H. apply leibniz_equiv, elements_empty_iff, Permutation_nil_r.
    rewrite <-H. symmetry. apply py_sorted_Permutation.
  - intros ->. by rewrite elements_empty.
Qed.

(** ** Booleans and strings *)

Definition str_eqb (a b : string) : bool := bool_decide (a = b).
Definition mem (x : string) (l : list string) : bool := bool_decide (x ∈ l).

Lemma mem_true x l : mem x l = true ↔ x ∈ l.
Proof. apply bool_decide_eq_true. Qed.

(** Truthiness of a string and of an optional string. *)
Definition truthy (s : string) : bool := negb (str_eqb s "").
Definition truthy_opt (s : option string) : bool :=
  match s with Some s => truthy s | None => false end.

(** [a or b] on optional strings. *)
Definition or_else (a : option string) (b : string) : string :=
  match a with Some s => if truthy s then s else b | None => b end.

Lemma negb_orb_impl (a b : bool) : negb a || b = true ↔ (a = true → b = true).
Proof. destruct a, b; simpl; intuition congruence. Qed.

(** [[x for x in xs if f(x)]]. *)
Definition bfilter {A} (f : A → bool) (l : list A) : list A := List.filter f l.

Lemma elem_of_bfilter {A} (f : A → bool) l x : x ∈ bfilter f l ↔ f x = true ∧ x ∈ l.
Proof. unfold bfilter. rewrite !list_elem_of_In, filter_In. tauto. Qed.

Lemma bfilter_nil {A} (f : A → bool) l : bfilter f l = [] ↔ ∀ x, x ∈ l → f x = false.
Proof.
  induction l as [|x l IH]; simpl.
  { split; [|done]. by intros _ x ?%elem_of_nil. }
  destruct (f x) eqn:E.
  - split; [done|]. intros H. rewrite (H x) in E; [done|]. apply elem_of_cons. by left.
  - rewrite IH. split.
    + intros H y [->|Hy]%elem_of_cons; auto.
    + intros H y Hy. apply H. apply elem_of_cons. by right.
Qed.

Lemma list_filter_all {A} (P : A → Prop) `{!∀ x, Decision (P x)} (l : list A) :
  Forall P l → filter P l = l.
Proof. induction 1; [done|]. rewrite filter_cons_True by done. by f_equal. Qed.

Lemma list_filter_none {A} (P : A → Prop) `{!∀ x, Decision (P x)} (l : list A) :
  Forall (λ x, ¬ P x) l → filter P l = [].
Proof. induction 1; [done|]. by rewrite filter_cons_False. Qed.

Lemma bind_nil {A B} (f : A → list B) (l : list A) : l ≫= f = [] ↔ ∀ x, x ∈ l → f x = [].
Proof.
  induction l as [|x l IH]; [split; [by intros _ x ?%elem_of_nil|done]|].
  rewrite bind_cons. setoid_rewrite elem_of_cons. split.
  - intros [H1 H2]%app_nil y [->|Hy]; [done|]. by apply IH.
  - intros H. rewrite (H x) by auto. apply IH. auto.
Qed.

Lemma bind_same {A B} (f g : A → list B) (l : list A) : (∀ x, f x = g x) → l ≫= f = l ≫= g.
Proof. intros Hfg. induction l as [|x l IH]; [done|]. rewrite !bind_cons. by rewrite Hfg, IH. Qed.

(** [len(xs) == len(set(xs))]. *)
Definition no_dup (l : list string) : bool := bool_decide (NoDup l).

(** Insertion with [dict.setdefault]. *)
Definition setdefault {V} (k : string) (v : V) (d : gmap string V) : gmap string V :=
  match d !! k with Some _ => d | None => <[k:=v]> d end.

(** First-occurrence deduplication, used for [_stable_union]. *)
Fixpoint stable_dedup (seen : gset string) (l : list string) : list string :=
  match l with
  | [] => []
  | x :: l => if decide (x ∈ seen) then stable_dedup seen l
              else x :: stable_dedup ({[x]} ∪ seen) l
  end.

Lemma elem_of_stable_dedup seen l x :
  x ∈ stable_dedup seen l ↔ x ∈ l ∧ x ∉ seen.
Proof.
  revert seen. induction l as [|y l IH]; intros seen; simpl; [set_solver|].
  case_decide as Hy; rewrite ?elem_of_cons, IH, ?not_elem_of_union, ?not_elem_of_singleton.
  - naive_solver.
  - destruct (decide (x = y)) as [->|]; naive_solver.
Qed.

Lemma stable_dedup_NoDup seen l : NoDup (stable_dedup seen l).
Proof.
  revert seen. induction l as [|y l IH]; intros seen; simpl; [constructor|].
  case_decide; [apply IH|]. constructor; [|apply IH].
  rewrite elem_of_stable_dedup. set_solver.
Qed.

Lemma stable_dedup_id seen l :
  NoDup l → (∀ x, x ∈ l → x ∉ seen) → stable_dedup seen l = l.
Proof.
  revert seen. induction l as [|y l IH]; intros seen Hnd Hs; simpl; [done|].
  apply NoDup_cons in Hnd as [Hy Hnd].
  rewrite decide_False by (apply Hs; set_solver). f_equal.
  apply IH; [done|]. intros x Hx. specialize (Hs x). set_solver.
Qed.

(** ** Automation *)

(** Proves a decidable closed proposition by evaluating it. *)
Ltac by_decide := apply (bool_decide_unpack _); vm_compute; exact I.

Create HintDb rcp discriminated.
#[export] Hint Resolve py_sorted_sorted NoDup_sorted_set : rcp.
#[export] Hint Rewrite @elem_of_sorted_set @elem_of_py_sorted @get_item_ok require_ok : rcp.
