(* ===== verification/PyVal.v ===== *)
(** Python values of the type [Any]: the payloads of node updates, the raw
    documents pydantic validates, and the results of [model_dump].

    A dictionary is kept as an association list in insertion order.  A float is
    the dyadic rational [m * 2^e]; infinities and NaN have no JSON form and are
    left out.  A datetime is its number of microseconds.  [PModel] is a model
    instance, which Python never finds equal to a plain dictionary. *)

From S2P Require Export Prelude.

Inductive pyval :=
  | PNone
  | PBool (b : bool)
  | PInt (z : Z)
  | PFloat (m e : Z)
  | PStr (s : string)
  | PTime (t : Z)
  | PList (l : list pyval)
  | PDict (d : list (string * pyval))
  | PModel (cls : string) (d : list (string * pyval)).

Notation pydict := (list (string * pyval)).

(** Induction with the hypotheses for the elements of lists and dicts. *)
Section pyval_ind.
Context (P : pyval → Prop).
Hypotheses (HNone : P PNone) (HBool : ∀ b, P (PBool b)) (HInt : ∀ z, P (PInt z))
  (HFloat : ∀ m e, P (PFloat m e)) (HStr : ∀ s, P (PStr s)) (HTime : ∀ t, P (PTime t))
  (HList : ∀ l, Forall P l → P (PList l))
  (HDict : ∀ d, Forall (λ kv, P (snd kv)) d → P (PDict d))
  (HModel : ∀ c d, Forall (λ kv, P (snd kv)) d → P (PModel c d)).

Fixpoint pyval_rect' (v : pyval) : P v :=
  let fix go_list l : Forall P l :=
    match l with [] => Forall_nil_2 _ | x :: l => Forall_cons_2 _ _ _ (pyval_rect' x) (go_list l) end in
  let fix go_dict (d : pydict) : Forall (λ kv, P (snd kv)) d :=
    match d with
    | [] => Forall_nil_2 _
    | (k, x) :: d => Forall_cons_2 _ (k, x) _ (pyval_rect' x) (go_dict d)
    end in
  match v with
  | PNone => HNone | PBool b => HBool b | PInt z => HInt z | PFloat m e => HFloat m e
  | PStr s => HStr s | PTime t => HTime t
  | PList l => HList l (go_list l)
  | PDict d => HDict d (go_dict d)
  | PModel c d => HModel c d (go_dict d)
  end.
End pyval_ind.

#[export] Instance pyval_eq_dec : EqDecision pyval.
Proof.
  refine (fix go (x y : pyval) : Decision (x = y) :=
    let _ : EqDecision pyval := go in
    match x, y with
    | PNone, PNone => left eq_refl
    | PBool a, PBool b => cast_if (decide (a = b))
    | PInt a, PInt b => cast_if (decide (a = b))
    | PFloat m e, PFloat m' e' => cast_if_and (decide (m = m')) (decide (e = e'))
    | PStr a, PStr b => cast_if (decide (a = b))
    | PTime a, PTime b => cast_if (decide (a = b))
    | PList a, PList b => cast_if (decide (a = b))
    | PDict a, PDict b => cast_if (decide (a = b))
    | PModel c a, PModel c' b => cast_if_and (decide (c = c')) (decide (a = b))
    | _, _ => right _
    end); solve [clear go r; abstract congruence | clear r go; abstract intuition congruence | abstract intuition congruence].
Defined.

(** ** Dictionaries *)

(** [d.get(k)], [k in d]. *)
Fixpoint dget (d : pydict) (k : string) : option pyval :=
  match d with
  | [] => None
  | (k', v) :: d => if decide (k = k') then Some v else dget d k
  end.

Definition dmem (d : pydict) (k : string) : bool :=
  match dget d k with Some _ => true | None => false end.

(** [d[k] = v]: an existing key keeps its position, a new one is appended. *)
Fixpoint dset (d : pydict) (k : string) (v : pyval) : pydict :=
  match d with
  | [] => [(k, v)]
  | (k', v') :: d => if decide (k = k') then (k', v) :: d else (k', v') :: dset d k v
  end.

(** [d.pop(k, None)]. *)
Fixpoint ddel (d : pydict) (k : string) : pydict :=
  match d with
  | [] => []
  | (k', v') :: d => if decide (k = k') then ddel d k else (k', v') :: ddel d k
  end.

Definition dkeys (d : pydict) : list string := d.*1.

(** [d.update(changes)]. *)
Definition dupdate (d : pydict) (changes : gmap string pyval) : pydict :=
  map_fold (λ k v d, dset d k v) d changes.

Lemma dget_dset_eq d k v : dget (dset d k v) k = Some v.
Proof.
  induction d as [|[k' v'] d IH]; simpl; [by rewrite decide_True|].
  case_decide; simpl; [by rewrite decide_True|by rewrite decide_False].
Qed.

Lemma dget_dset_ne d k k' v : k ≠ k' → dget (dset d k v) k' = dget d k'.
Proof.
  intros Hne. induction d as [|[k2 v2] d IH]; simpl; [by rewrite decide_False|].
  case_decide; simpl; subst; [by rewrite !decide_False by done|].
  case_decide; [done|apply IH].
Qed.

Lemma dget_ddel_eq d k : dget (ddel d k) k = None.
Proof. induction d as [|[k' v'] d IH]; simpl; [done|]. case_decide; simpl; [done|by rewrite decide_False]. Qed.

Lemma dget_ddel_ne d k k' : k ≠ k' → dget (ddel d k) k' = dget d k'.
Proof.
  intros Hne. induction d as [|[k2 v2] d IH]; simpl; [done|].
  case_decide; simpl; subst; [rewrite decide_False by done; apply IH|].
  case_decide; [done|apply IH].
Qed.

Lemma ddel_id d k : dget d k = None → ddel d k = d.
Proof.
  induction d as [|[k' v'] d IH]; simpl; [done|].
  case_decide; [done|]. intros Hd. by rewrite IH.
Qed.

Lemma dset_id d k v : dget d k = Some v → dset d k v = d.
Proof.
  induction d as [|[k' v'] d IH]; simpl; [done|].
  case_decide; intros Hd; simplify_eq; [done|]. by rewrite IH.
Qed.

Lemma dget_dupdate d changes k :
  dget (dupdate d changes) k = match changes !! k with Some v => Some v | None => dget d k end.
Proof.
  unfold dupdate.
  apply (map_fold_weak_ind (λ (r : pydict) (m : gmap string pyval),
    dget r k = match m !! k with Some v => Some v | None => dget d k end)); [done|].
  intros k' v m r Hk IH. destruct (decide (k' = k)) as [->|Hne].
  - by rewrite dget_dset_eq, lookup_insert_eq.
  - by rewrite dget_dset_ne, lookup_insert_ne.
Qed.

Lemma dmem_dset d k k' v : dmem (dset d k v) k' = bool_decide (k = k') || dmem d k'.
Proof.
  unfold dmem. case_bool_decide; subst; simpl.
  - by rewrite dget_dset_eq.
  - by rewrite dget_dset_ne.
Qed.

(** ** Equality, truthiness and [isinstance] *)

(** The numeric value of a bool, an int or a float, as [m * 2^e]. *)
Definition num_view (v : pyval) : option (Z * Z) :=
  match v with
  | PBool b => Some (if b then 1 else 0, 0)%Z
  | PInt z => Some (z, 0)%Z
  | PFloat m e => Some (m, e)
  | _ => None
  end.

Definition num_eqb (x y : Z * Z) : bool :=
  let '(m1, e1) := x in let '(m2, e2) := y in
  (if e1 <=? e2 then m1 =? m2 * 2 ^ (e2 - e1) else m1 * 2 ^ (e1 - e2) =? m2)%Z.

(** Python's [==]: [True == 1 == 1.0], and dictionaries compare without order. *)
Fixpoint py_eqb (x y : pyval) {struct x} : bool :=
  match x, y with
  | PNone, PNone => true
  | PStr a, PStr b => str_eqb a b
  | PTime a, PTime b => (a =? b)%Z
  | PList a, PList b =>
      (fix go (a b : list pyval) : bool :=
         match a, b with
         | [], [] => true
         | x :: a, y :: b => py_eqb x y && go a b
         | _, _ => false
         end) a b
  | PDict a, PDict b =>
      Nat.eqb (length a) (length b) &&
      (fix go (a : pydict) : bool :=
         match a with
         | [] => true
         | (k, x) :: a => match dget b k with Some y => py_eqb x y | None => false end && go a
         end) a
  | PModel c a, PModel c' b =>
      str_eqb c c' && Nat.eqb (length a) (length b) &&
      (fix go (a : pydict) : bool :=
         match a with
         | [] => true
         | (k, x) :: a => match dget b k with Some y => py_eqb x y | None => false end && go a
         end) a
  | _, _ =>
      match num_view x, num_view y with Some a, Some b => num_eqb a b | _, _ => false end
  end.

(** [bool(v)]; every model instance is true. *)
Definition py_truthy (v : pyval) : bool :=
  match v with
  | PNone => false
  | PBool b => b
  | PInt z => negb (z =? 0)%Z
  | PFloat m _ => negb (m =? 0)%Z
  | PStr s => truthy s
  | PTime _ | PModel _ _ => true
  | PList l => match l with [] => false | _ => true end
  | PDict d => match d with [] => false | _ => true end
  end.

Definition is_str (v : pyval) : bool := match v with PStr _ => true | _ => false end.
Definition is_dict (v : pyval) : bool := match v with PDict _ => true | _ => false end.
Definition is_list (v : pyval) : bool := match v with PList _ => true | _ => false end.

(** [d.get(k) == s] for a string [s]. *)
Definition get_is (v : option pyval) (s : string) : bool :=
  match v with Some (PStr s') => str_eqb s' s | _ => false end.

(** [d.get(k) in {s1, .., sn}]. *)
Definition get_in (v : option pyval) (ss : list string) : bool :=
  match v with Some (PStr s') => mem s' ss | _ => false end.

(** [d.get(k) is not None]. *)
Definition get_not_none (v : option pyval) : bool :=
  match v with Some PNone | None => false | Some _ => true end.

Definition py_opt_str (s : option string) : pyval :=
  match s with Some s => PStr s | None => PNone end.
Definition py_opt_time (t : option Z) : pyval :=
  match t with Some t => PTime t | None => PNone end.
Definition py_strs (l : list string) : pyval := PList (PStr <$> l).

Lemma get_is_true v s : get_is v s = true ↔ v = Some (PStr s).
Proof.
  destruct v as [[]|]; simpl; unfold str_eqb; try naive_solver.
  rewrite bool_decide_eq_true. naive_solver.
Qed.
#[export] Hint Rewrite get_is_true @dget_dset_eq @dget_ddel_eq : rcp.
