(* ===== verification/Documents.v ===== *)
(** Semantic documents: the JSON form of graph objects that the branch merge
    compares ([runs/branch_merge.py]), the paths of what changed between two
    documents, and the three-way comparison of a base, a branch and main.

    A document is a Python value; a missing key ([_MISSING]) is [None] of
    [option].  [==] is [py_eqb], which forgets the order of keys.  A set of paths
    is a list, of which only membership is used. *)

From Stdlib Require Import QArith.
From S2P Require Export PyVal.

#[local] Close Scope Q_scope.
#[local] Open Scope Z_scope.

(** A path into a document; a last ["$"] stands for the whole subtree. *)
Notation path := (list string).

(** [a == b] where either may be missing. *)
Definition opt_eqb (a b : option pyval) : bool :=
  match a, b with
  | Some a, Some b => py_eqb a b
  | None, None => true
  | _, _ => false
  end.

(** [d.get(key)]: a missing key reads as [None]. *)
Definition dget_null (d : pydict) (k : string) : pyval := default PNone (dget d k).

(** The keys of dictionaries, sorted and without repetition. *)
Definition sorted_keys (ds : list pydict) : list string :=
  sorted_set (list_to_set (ds ≫= dkeys)).

(** ** What changed *)

(** [_document_write_paths]. *)
Fixpoint _document_write_paths (before after : pyval) (prefix : path) {struct before} : list path :=
  if py_eqb before after then []
  else match before, after with
  | PDict b, PDict a =>
      (fix go (d : pydict) : list path :=
         match d with
         | [] => []
         | (k, v) :: d =>
             match dget a k with
             | Some w => _document_write_paths v w (prefix ++ [k])
             | None => [prefix ++ [k] ++ (if is_dict v then ["$"] else [])]
             end ++ go d
         end) b ++
      (a ≫= λ kv, if dmem b kv.1 then []
                  else [prefix ++ [kv.1] ++ (if is_dict kv.2 then ["$"] else [])])
  | _, _ => [prefix]
  end.

(** The parts of a path that name keys. *)
Definition path_parts (p : path) : path :=
  match last p with Some s => if str_eqb s "$" then removelast p else p | None => p end.
Definition is_subtree (p : path) : bool :=
  match last p with Some s => str_eqb s "$" | None => false end.

(** [_semantic_path_value]; [None] is [_MISSING]. *)
Fixpoint value_at (value : pyval) (parts : path) : option pyval :=
  match parts with
  | [] => Some value
  | k :: parts =>
      match value with
      | PDict d => match dget d k with Some v => value_at v parts | None => None end
      | _ => None
      end
  end.
Definition _semantic_path_value (document : pydict) (p : path) : option pyval :=
  value_at (PDict document) (path_parts p).

(** [path[: len(rule)] == rule]. *)
Definition starts_with (p rule : path) : bool := bool_decide (take (length rule) p = rule).

(** [_semantic_path_covers]. *)
Definition _semantic_path_covers (rule p : path) : bool :=
  if is_subtree rule then starts_with p (removelast rule) else bool_decide (rule = p).

(** [_semantic_path_authorizes_declared_write]. *)
Definition _semantic_path_authorizes_declared_write (allowed declared : path) : bool :=
  _semantic_path_covers allowed declared || starts_with (path_parts allowed) declared.

(** ** Three-way comparison *)

(** [_branch_changes_are_present] for a base that is not missing; a key that is
    missing in the base counts as changed when the branch has it. *)
Fixpoint changes_present (base : pyval) (branch main : option pyval) {struct base} : bool :=
  if opt_eqb (Some base) branch then true
  else if opt_eqb branch main then true
  else match base, branch, main with
  | PDict b, Some (PDict br), Some (PDict m) =>
      (fix go (d : pydict) : bool :=
         match d with
         | [] => true
         | (k, v) :: d => changes_present v (dget br k) (dget m k) && go d
         end) b &&
      forallb (λ k, dmem b k || opt_eqb (dget br k) (dget m k)) (dkeys br)
  | _, _, _ => false
  end.
Definition _branch_changes_are_present (base branch main : option pyval) : bool :=
  match base with
  | Some b => changes_present b branch main
  | None => opt_eqb base branch || opt_eqb branch main
  end.

(** [_semantic_change_is_subsumed], on the optional documents of the three. *)
Definition _semantic_change_is_subsumed (change : string) (before after main : option pyval) : bool :=
  if str_eqb change "created" then opt_eqb main after
  else if str_eqb change "removed" then opt_eqb main None
  else _branch_changes_are_present before after main.

(** A field both sides changed differently: its path and its three values. *)
Definition FieldConflict := (string * (pyval * pyval * pyval))%type.

Definition or_root (prefix : string) : string := if truthy prefix then prefix else "$".
Definition dotted (prefix k : string) : string := if truthy prefix then prefix +:+ "." +:+ k else k.

(** [base in (branch, main) or branch == main]. *)
Definition agree (base branch main : pyval) : bool :=
  py_eqb base branch || py_eqb base main || py_eqb branch main.

(** [_conflicting_fields]. *)
Fixpoint _conflicting_fields (base branch main : pyval) (prefix : string) {struct base} :
    list FieldConflict :=
  if agree base branch main then []
  else match base, branch, main with
  | PDict b, PDict br, PDict m =>
      let table :=
        (fix go (d : pydict) : list (string * list FieldConflict) :=
           match d with
           | [] => []
           | (k, v) :: d =>
               (k, _conflicting_fields v (dget_null br k) (dget_null m k) (dotted prefix k)) :: go d
           end) b in
      sorted_keys [b; br; m] ≫= λ k,
        match List.find (λ kc, str_eqb kc.1 k) table with
        | Some (_, conflicts) => conflicts
        | None =>
            (* the base reads as [None], which is no dictionary *)
            if agree PNone (dget_null br k) (dget_null m k) then []
            else [(or_root (dotted prefix k), (PNone, dget_null br k, dget_null m k))]
        end
  | _, _, _ => [(or_root prefix, (base, branch, main))]
  end.
