(* ===== verification/ThreeWay.v ===== *)
(** Equality of documents: [py_eqb] is equality of a canonical form in which a
    dictionary is a finite map and a number is a reduced fraction.  And laws of
    the three-way comparison and of write paths: the conflicts of a base, a branch
    and main are exactly what keeps a merge from holding the changes of both, and
    the write paths of two documents miss no difference. *)

From Stdlib Require Import QArith Qreduction.
From S2P Require Export Documents.

#[local] Close Scope Q_scope.
#[local] Open Scope Z_scope.

(** ** Canonical forms *)

Inductive cdoc :=
  | CNull
  | CNum (q : Q)
  | CStr (s : string)
  | CTime (t : Z)
  | CList (l : list cdoc)
  | CDict (m : gmap string cdoc)
  | CModel (cls : string) (m : gmap string cdoc).

(** The fraction [m * 2^e]. *)
Definition dyadic (m e : Z) : Q :=
  if 0 <=? e then inject_Z (m * 2 ^ e) else Qmake m (Z.to_pos (2 ^ (- e))).

Fixpoint canon (v : pyval) : cdoc :=
  match v with
  | PNone => CNull
  | PBool b => CNum (Qred (dyadic (if b then 1 else 0) 0))
  | PInt z => CNum (Qred (dyadic z 0))
  | PFloat m e => CNum (Qred (dyadic m e))
  | PStr s => CStr s
  | PTime t => CTime t
  | PList l => CList (canon <$> l)
  | PDict d => CDict (list_to_map ((λ kv, (kv.1, canon kv.2)) <$> d))
  | PModel c d => CModel c (list_to_map ((λ kv, (kv.1, canon kv.2)) <$> d))
  end.
Definition canon_dict (d : pydict) : gmap string cdoc := list_to_map ((λ kv, (kv.1, canon kv.2)) <$> d).

(** No dictionary holds a key twice: what every Python dictionary satisfies. *)
Fixpoint wf_doc (v : pyval) : bool :=
  match v with
  | PList l => forallb wf_doc l
  | PDict d | PModel _ d => no_dup (dkeys d) && forallb (λ kv, wf_doc kv.2) d
  | _ => true
  end.
Definition wf_dict (d : pydict) : bool := wf_doc (PDict d).
Definition wf_opt (o : option pyval) : bool := match o with Some v => wf_doc v | None => true end.

(** ** Lookups *)

Lemma canon_lookup d k : canon_dict d !! k = canon <$> dget d k.
Proof.
  unfold canon_dict. induction d as [|[k' v] d IH]; [done|]. cbn. case_decide; subst.
  - by rewrite lookup_insert_eq.
  - by rewrite lookup_insert_ne.
Qed.

Lemma dget_elem d k v : dget d k = Some v → (k, v) ∈ d.
Proof.
  induction d as [|[k' v'] d IH]; cbn; [done|]. case_decide; subst.
  - intros [= ->]. by left.
  - intros Hv. right. by apply IH.
Qed.

Lemma dget_unique d k v : no_dup (dkeys d) = true → (k, v) ∈ d → dget d k = Some v.
Proof.
  unfold no_dup. rewrite bool_decide_eq_true. induction d as [|[k' v'] d IH]; cbn; [by intros _ ?%elem_of_nil|].
  intros [Hn Hd]%NoDup_cons [Heq|Hin]%elem_of_cons; [injection Heq as -> ->; by rewrite decide_True|].
  rewrite decide_False; [by apply IH|]. intros ->. apply Hn. apply list_elem_of_fmap. by exists (k', v).
Qed.

Lemma dget_keys d k : is_Some (dget d k) ↔ k ∈ dkeys d.
Proof.
  induction d as [|[k' v'] d IH]; cbn; [split; [by intros [??]|by intros ?%elem_of_nil]|].
  rewrite elem_of_cons. case_decide; [naive_solver|]. rewrite IH. naive_solver.
Qed.

Lemma dget_none_keys d k : dget d k = None ↔ k ∉ dkeys d.
Proof. rewrite <-dget_keys. destruct (dget d k); split; [done|intros Hn; destruct Hn; by eexists|by intros _ []|done]. Qed.

Lemma wf_dict_iff d : wf_dict d = true ↔ no_dup (dkeys d) = true ∧ ∀ k v, dget d k = Some v → wf_doc v = true.
Proof.
  unfold wf_dict. cbn. rewrite andb_true_iff.
  split; intros [Hn Hall]; (split; [done|]).
  - intros k v Hv%dget_elem. by apply (proj1 (forallb_forall _ _) Hall (k, v)), list_elem_of_In.
  - apply forallb_forall. intros [k v] Hin%list_elem_of_In. by apply (Hall k), dget_unique.
Qed.

Lemma wf_dict_get d k v : wf_dict d = true → dget d k = Some v → wf_doc v = true.
Proof. intros [_ Hall]%wf_dict_iff. apply Hall. Qed.

Lemma wf_dict_get_opt d k : wf_dict d = true → wf_opt (dget d k) = true.
Proof. intros Hd. destruct (dget d k) eqn:He; [|done]. by eapply wf_dict_get. Qed.

(** ** Numbers *)

Lemma pow2_pos e : 0 <= e → 0 < 2 ^ e.
Proof. intros. by apply Z.pow_pos_nonneg. Qed.

Lemma pow2_split a b c : 0 <= b → 0 <= c → a = b + c → 2 ^ a = 2 ^ b * 2 ^ c.
Proof. intros Hb Hc ->. by apply Z.pow_add_r. Qed.

Lemma mul_cancel x y c : 0 < c → x = y ↔ x * c = y * c.
Proof. intros Hc. split; [by intros ->|]. intros He. apply (Z.mul_reg_r _ _ c); lia. Qed.

Lemma num_eqb_dyadic m1 e1 m2 e2 :
  num_eqb (m1, e1) (m2, e2) = true ↔ Qeq (dyadic m1 e1) (dyadic m2 e2).
Proof.
  unfold num_eqb, dyadic.
  destruct (Z.leb_spec e1 e2), (Z.leb_spec 0 e1), (Z.leb_spec 0 e2); try lia;
    rewrite Z.eqb_eq; unfold Qeq, inject_Z; cbn [Qnum Qden]; rewrite ?Z2Pos.id by (apply pow2_pos; lia);
    rewrite ?Z.mul_1_r.
  - rewrite (pow2_split e2 (e2 - e1) e1) by lia.
    rewrite (mul_cancel _ _ (2 ^ e1)) by (apply pow2_pos; lia). by rewrite Z.mul_assoc.
  - rewrite (pow2_split (e2 - e1) e2 (- e1)) by lia. by rewrite Z.mul_assoc.
  - rewrite (pow2_split (- e1) (e2 - e1) (- e2)) by lia.
    rewrite (mul_cancel _ _ (2 ^ (- e2))) by (apply pow2_pos; lia). by rewrite Z.mul_assoc.
  - rewrite (pow2_split e1 (e1 - e2) e2) by lia.
    rewrite (mul_cancel _ _ (2 ^ e2)) by (apply pow2_pos; lia). by rewrite Z.mul_assoc.
  - rewrite (pow2_split (e1 - e2) e1 (- e2)) by lia. by rewrite Z.mul_assoc.
  - rewrite (pow2_split (- e2) (e1 - e2) (- e1)) by lia.
    rewrite (mul_cancel _ _ (2 ^ (- e1))) by (apply pow2_pos; lia). by rewrite Z.mul_assoc.
Qed.

(** ** Equality *)

Definition num_doc (n : Z * Z) : cdoc := CNum (Qred (dyadic n.1 n.2)).

Lemma canon_num v n : num_view v = Some n → canon v = num_doc n.
Proof. by destruct v; cbn; intros [= <-]. Qed.

Lemma num_doc_inj a b : num_eqb a b = true ↔ num_doc a = num_doc b.
Proof.
  destruct a as [m1 e1], b as [m2 e2]. rewrite num_eqb_dyadic. unfold num_doc. cbn [fst snd].
  split; [by intros ->%Qred_complete|]. intros [= He].
  by rewrite <-(Qred_correct (dyadic m1 e1)), <-(Qred_correct (dyadic m2 e2)), He.
Qed.

(** The two loops of [py_eqb]. *)
Fixpoint list_eqb (a b : list pyval) : bool :=
  match a, b with
  | [], [] => true
  | x :: a, y :: b => py_eqb x y && list_eqb a b
  | _, _ => false
  end.
Definition included (b : pydict) : pydict → bool :=
  fix go a :=
    match a with
    | [] => true
    | (k, x) :: a => match dget b k with Some y => py_eqb x y | None => false end && go a
    end.
Definition dict_eqb (a b : pydict) : bool := Nat.eqb (length a) (length b) && included b a.

Lemma py_eqb_list a b : py_eqb (PList a) (PList b) = list_eqb a b.
Proof. done. Qed.
Lemma py_eqb_dict a b : py_eqb (PDict a) (PDict b) = dict_eqb a b.
Proof. done. Qed.
Lemma py_eqb_model c c' a b : py_eqb (PModel c a) (PModel c' b) = str_eqb c c' && dict_eqb a b.
Proof. unfold dict_eqb. rewrite andb_assoc. reflexivity. Qed.

(** A dictionary is included in another of its size that agrees on its keys,
    exactly when the two are the same map. *)
Lemma included_iff a b :
  included b a = true ↔ ∀ k x, (k, x) ∈ a → ∃ y, dget b k = Some y ∧ py_eqb x y = true.
Proof.
  induction a as [|[k x] a IH]; cbn.
  { split; [by intros _ k x ?%elem_of_nil|done]. }
  rewrite andb_true_iff, IH. split.
  - intros [Hx Hall] k' x' [[= -> ->]|Hin]%elem_of_cons; [|by apply Hall]. destruct (dget b k); [by eexists|done].
  - intros Hall. split.
    + destruct (Hall k x) as (y & -> & Hy); [by left|done].
    + intros k' x' Hin. apply Hall. by right.
Qed.

Lemma same_size_keys (a b : pydict) :
  no_dup (dkeys a) = true → no_dup (dkeys b) = true → length a = length b →
  (∀ k, k ∈ dkeys a → k ∈ dkeys b) → ∀ k, k ∈ dkeys b → k ∈ dkeys a.
Proof.
  unfold no_dup. rewrite !bool_decide_eq_true. intros Ha Hb Hlen Hsub k Hk.
  assert (dkeys a ≡ₚ dkeys b) as Hp.
  { apply submseteq_length_Permutation; [by apply NoDup_submseteq|]. unfold dkeys. by rewrite !length_fmap, Hlen. }
  by rewrite Hp.
Qed.

Lemma dict_eqb_canon a b :
  (∀ k x, (k, x) ∈ a → ∀ y, wf_doc x = true → wf_doc y = true → py_eqb x y = true ↔ canon x = canon y) →
  wf_dict a = true → wf_dict b = true → dict_eqb a b = true ↔ canon_dict a = canon_dict b.
Proof.
  intros Heq [Ha Hwa]%wf_dict_iff [Hb Hwb]%wf_dict_iff. unfold dict_eqb. rewrite andb_true_iff, Nat.eqb_eq, included_iff.
  split.
  - intros [Hlen Hin]. apply map_eq. intros k. rewrite !canon_lookup.
    destruct (dget a k) as [x|] eqn:Hx; cbn.
    + destruct (Hin k x) as (y & Hy & He); [by apply dget_elem|]. rewrite Hy. cbn. f_equal.
      apply (Heq k); [by apply dget_elem|by eapply Hwa|by eapply Hwb|done].
    + apply dget_none_keys in Hx. destruct (dget b k) eqn:Hy; [|done]. exfalso. apply Hx.
      apply (same_size_keys a b Ha Hb Hlen); [|apply dget_keys; by eexists].
      intros k' [[k2 x] [-> Hk2]]%list_elem_of_fmap. destruct (Hin k2 x Hk2) as (y & Hy' & _).
      apply dget_keys. by eexists.
  - intros Hmap. assert (∀ k, canon <$> dget a k = canon <$> dget b k) as Hget.
    { intros k. by rewrite <-!canon_lookup, Hmap. }
    split.
    + assert (dkeys a ≡ₚ dkeys b) as Hp.
      { apply NoDup_Permutation; [by apply bool_decide_eq_true in Ha|by apply bool_decide_eq_true in Hb|].
        intros k. rewrite <-!dget_keys, <-!(fmap_is_Some canon), Hget. done. }
      apply Permutation_length in Hp. unfold dkeys in Hp. by rewrite !length_fmap in Hp.
    + intros k x Hin. pose proof (dget_unique _ _ _ Ha Hin) as Hx. specialize (Hget k). rewrite Hx in Hget.
      destruct (dget b k) as [y|] eqn:Hy; [|done]. injection Hget as Hc. exists y. split; [done|].
      apply (Heq k x Hin); [by eapply Hwa|by eapply Hwb|done].
Qed.

(** [==] is equality of canonical forms. *)
Lemma py_eqb_canon x y : wf_doc x = true → wf_doc y = true → py_eqb x y = true ↔ canon x = canon y.
Proof.
  revert y. induction x as [|b|z|m e|s|t|l IH|d IH|c d IH] using pyval_rect'; intros y Hx Hy.
  - by destruct y.
  - destruct y; try done; cbn [py_eqb num_view canon]; apply num_doc_inj.
  - destruct y; try done; cbn [py_eqb num_view canon]; apply num_doc_inj.
  - destruct y; try done; cbn [py_eqb num_view canon]; apply num_doc_inj.
  - destruct y; try done. cbn. unfold str_eqb. rewrite bool_decide_eq_true. naive_solver.
  - destruct y; try done. cbn. rewrite Z.eqb_eq. naive_solver.
  - destruct y as [| | | | | |l'| |]; try done. rewrite py_eqb_list. cbn in Hx, Hy |- *.
    transitivity (canon <$> l = canon <$> l'); [|split; [by intros ->|by intros H; injection H]].
    revert l' Hy. induction IH as [|x l Hx1 _ IHl]; intros [|y l'] Hy; try done. cbn in Hx, Hy |- *.
    apply andb_true_iff in Hx as [Hwx Hx], Hy as [Hwy Hy]. rewrite andb_true_iff, Hx1, IHl by done.
    split; [by intros [-> ->]|by intros H; injection H].
  - destruct y as [| | | | | | |d'|]; try done. rewrite py_eqb_dict.
    rewrite dict_eqb_canon; [|intros k x Hin; by apply (proj1 (Forall_forall _ _) IH (k, x))|done|done].
    cbn. unfold canon_dict. split; [by intros ->|by intros H; injection H].
  - destruct y as [| | | | | | | |c' d']; try done. rewrite py_eqb_model, andb_true_iff. unfold str_eqb.
    rewrite bool_decide_eq_true.
    rewrite dict_eqb_canon; [|intros k x Hin; by apply (proj1 (Forall_forall _ _) IH (k, x))|done|done].
    cbn. unfold canon_dict. split; [by intros [-> ->]|by intros H; injection H].
Qed.

Lemma opt_eqb_canon a b : wf_opt a = true → wf_opt b = true → opt_eqb a b = true ↔ canon <$> a = canon <$> b.
Proof. destruct a as [a|], b as [b|]; try done. intros Ha Hb. cbn. rewrite py_eqb_canon by done. split; [by intros ->|by intros H; injection H]. Qed.

(** ** The three-way comparison *)

(** A document where a missing key of one side is never an explicit null of the
    other, which [dict.get] could not tell apart. *)
Fixpoint aligned (x y : pyval) : bool :=
  match x, y with
  | PDict a, PDict b =>
      (fix go (d : pydict) : bool :=
         match d with
         | [] => true
         | (k, v) :: d =>
             match dget b k with
             | Some w => aligned v w
             | None => negb (bool_decide (v = PNone))
             end && go d
         end) a &&
      forallb (λ kv, dmem a kv.1 || negb (bool_decide (kv.2 = PNone))) b
  | _, _ => true
  end.
Definition aligned_opt (a b : option pyval) : bool :=
  match a, b with
  | Some a, Some b => aligned a b
  | Some v, None | None, Some v => negb (bool_decide (v = PNone))
  | None, None => true
  end.

(** The three-way comparison finds no conflict. *)
Definition conflict_free (base branch main : option pyval) : Prop :=
  _conflicting_fields (default PNone base) (default PNone branch) (default PNone main) "" = [].

(** ** Equality *)

Lemma opt_eqb_refl a : wf_opt a = true → opt_eqb a a = true.
Proof. intros Ha. by apply opt_eqb_canon. Qed.
Lemma opt_eqb_sym a b : wf_opt a = true → wf_opt b = true → opt_eqb a b = true → opt_eqb b a = true.
Proof. intros Ha Hb. rewrite !opt_eqb_canon by done. congruence. Qed.
Lemma opt_eqb_trans a b c :
  wf_opt a = true → wf_opt b = true → wf_opt c = true →
  opt_eqb a b = true → opt_eqb b c = true → opt_eqb a c = true.
Proof. intros Ha Hb Hc. rewrite !opt_eqb_canon by done. congruence. Qed.

Lemma opt_eqb_dict_r a d : wf_opt a = true → wf_dict d = true → opt_eqb a (Some (PDict d)) = true →
  ∃ d', a = Some (PDict d') ∧ wf_dict d' = true.
Proof. destruct a as [[]|]; try done. intros Ha _ _. by eexists. Qed.

Lemma dict_eqb_get a b k : wf_dict a = true → wf_dict b = true →
  opt_eqb (Some (PDict a)) (Some (PDict b)) = true → opt_eqb (dget a k) (dget b k) = true.
Proof.
  intros Ha Hb He. apply opt_eqb_canon; [by apply wf_dict_get_opt..|].
  apply opt_eqb_canon in He; [|done..]. injection He as He. rewrite <-!canon_lookup. unfold canon_dict. by rewrite He.
Qed.

(** ** Changes that are present *)

Lemma present_some b branch main : changes_present b branch main =
  opt_eqb (Some b) branch || opt_eqb branch main ||
  match b, branch, main with
  | PDict b, Some (PDict br), Some (PDict m) =>
      forallb (λ kv, changes_present kv.2 (dget br kv.1) (dget m kv.1)) b &&
      forallb (λ k, dmem b k || opt_eqb (dget br k) (dget m k)) (dkeys br)
  | _, _, _ => false
  end.
Proof.
  destruct b; cbn [changes_present]; destruct (opt_eqb _ branch); try done; destruct (opt_eqb branch main); try done.
  destruct branch as [[]|]; try done. destruct main as [[]|]; try done. cbn [orb]. f_equal.
  induction d as [|[k v] d IH]; [done|]. cbn [forallb]. by rewrite IH.
Qed.

Lemma present_iff base branch main :
  wf_opt base = true → wf_opt branch = true → wf_opt main = true →
  _branch_changes_are_present base branch main = true ↔
  opt_eqb base branch = true ∨ opt_eqb branch main = true ∨
  ∃ b br m, base = Some (PDict b) ∧ branch = Some (PDict br) ∧ main = Some (PDict m) ∧
    ∀ k, _branch_changes_are_present (dget b k) (dget br k) (dget m k) = true.
Proof.
  intros Hb Hbr Hm. destruct base as [base|]; cbn [_branch_changes_are_present].
  2: { rewrite orb_true_iff. split; [naive_solver|]. by intros [?|[?|(? & ? & ? & ? & _)]]; [left|right|]. }
  rewrite present_some, !orb_true_iff. rewrite Logic.or_assoc. apply or_iff_compat_l, or_iff_compat_l.
  destruct base as [| | | | | | |b|]; try (split; [done|by intros (? & ? & ? & ? & _)]).
  destruct branch as [[| | | | | | |br|]|]; try (split; [done|by intros (? & ? & ? & _ & ? & _)]).
  destruct main as [[| | | | | | |m|]|]; try (split; [done|by intros (? & ? & ? & _ & _ & ? & _)]).
  rewrite andb_true_iff, !forallb_forall. split.
  - intros [Hall Hrest]. exists b, br, m. split_and!; try done. intros k.
    destruct (dget b k) as [v|] eqn:Hk; cbn [_branch_changes_are_present].
    + apply dget_elem, list_elem_of_In in Hk. by apply (Hall _ Hk).
    + destruct (dget br k) as [w|] eqn:Hr; [|done]. apply orb_true_iff. right.
      assert (In k (dkeys br)) as Hin by (apply list_elem_of_In, dget_keys; by eexists).
      specialize (Hrest k Hin). unfold dmem in Hrest. by rewrite Hk, Hr in Hrest.
  - intros (b' & br' & m' & [= <-] & [= <-] & [= <-] & Hall).
    apply wf_dict_iff in Hb as [Hb _]. split.
    + intros [k v] Hin%list_elem_of_In. specialize (Hall k). by rewrite (dget_unique _ _ _ Hb Hin) in Hall.
    + intros k Hk. specialize (Hall k). unfold dmem. destruct (dget b k) eqn:He; [done|]. cbn in Hall |- *.
      apply list_elem_of_In, dget_keys in Hk as [w Hw]. by rewrite Hw in Hall |- *.
Qed.

(** ** Conflicts *)

(** The fields of three dictionaries, key by key. *)
Lemma conflicts_dict b br m prefix :
  _conflicting_fields (PDict b) (PDict br) (PDict m) prefix =
  if agree (PDict b) (PDict br) (PDict m) then []
  else sorted_keys [b; br; m] ≫= λ k,
         _conflicting_fields (dget_null b k) (dget_null br k) (dget_null m k) (dotted prefix k).
Proof.
  cbn [_conflicting_fields]. destruct (agree _ _ _); [done|]. apply bind_same. intros k.
  induction b as [|[k' v] b IH]; [done|]. cbn [List.find fst]. unfold str_eqb at 1. case_bool_decide as Hk.
  - subst. by assert (dget_null ((k, v) :: b) k = v) as -> by (unfold dget_null; cbn; by rewrite decide_True).
  - assert (dget_null ((k', v) :: b) k = dget_null b k) as ->; [|exact IH].
    unfold dget_null. cbn. by rewrite decide_False by congruence.
Qed.

Lemma conflicts_nil_iff base branch main prefix :
  _conflicting_fields base branch main prefix = [] ↔
  agree base branch main = true ∨
  ∃ b br m, base = PDict b ∧ branch = PDict br ∧ main = PDict m ∧
    ∀ k, k ∈ sorted_keys [b; br; m] →
      _conflicting_fields (dget_null b k) (dget_null br k) (dget_null m k) (dotted prefix k) = [].
Proof.
  destruct (agree base branch main) eqn:Ha.
  { split; [by left|]. intros _. destruct base; cbn [_conflicting_fields]; by rewrite Ha. }
  destruct base as [| | | | | | |b|]; try (cbn [_conflicting_fields]; rewrite Ha; by (split; [|intros [?|(? & ? & ? & ? & _)]])).
  destruct branch as [| | | | | | |br|]; try (cbn [_conflicting_fields]; rewrite Ha; by (split; [|intros [?|(? & ? & ? & _ & ? & _)]])).
  destruct main as [| | | | | | |m|]; try (cbn [_conflicting_fields]; rewrite Ha; by (split; [|intros [?|(? & ? & ? & _ & _ & ? & _)]])).
  rewrite conflicts_dict, Ha, bind_nil. split.
  - intros Hall. right. by exists b, br, m.
  - intros [?|(b' & br' & m' & [= <-] & [= <-] & [= <-] & Hall)]; done.
Qed.

(** Where the conflicts are does not decide whether there are any. *)
Lemma conflicts_prefix base branch main p q :
  _conflicting_fields base branch main p = [] → _conflicting_fields base branch main q = [].
Proof.
  revert branch main p q. induction base as [| | | | | |l _|b IH|] using pyval_rect'; intros branch main p q;
    rewrite !conflicts_nil_iff; (intros [Ha|(b' & br & mn & Hb & -> & -> & Hall)]; [by left|]); try done.
  injection Hb as <-. right. exists b, br, mn. split_and!; try done. intros k Hk. specialize (Hall k Hk).
  destruct (dget b k) as [v|] eqn:Hv.
  - assert (dget_null b k = v) as Hn by (unfold dget_null; by rewrite Hv). rewrite Hn in Hall |- *.
    apply dget_elem in Hv. by eapply (proj1 (Forall_forall _ _) IH (k, v) Hv).
  - assert (dget_null b k = PNone) as Hn by (unfold dget_null; by rewrite Hv). rewrite Hn in Hall |- *.
    cbn [_conflicting_fields] in Hall |- *. by destruct (agree _ _ _).
Qed.

Lemma conflict_free_iff base branch main :
  conflict_free base branch main ↔
  agree (default PNone base) (default PNone branch) (default PNone main) = true ∨
  ∃ b br m, base = Some (PDict b) ∧ branch = Some (PDict br) ∧ main = Some (PDict m) ∧
    ∀ k, conflict_free (dget b k) (dget br k) (dget m k).
Proof.
  unfold conflict_free. rewrite conflicts_nil_iff. apply or_iff_compat_l. split.
  - intros (b & br & m & Hb & Hbr & Hm & Hall). exists b, br, m.
    assert (∀ o d, default PNone o = PDict d → o = Some (PDict d)) as Hsome by (intros [?|] d; cbn; congruence).
    split_and!; [by apply Hsome..|]. intros k.
    destruct (decide (k ∈ sorted_keys [b; br; m])) as [Hk|Hk].
    { by apply (conflicts_prefix _ _ _ (dotted "" k)), Hall. }
    unfold sorted_keys in Hk. rewrite elem_of_sorted_set, elem_of_list_to_set in Hk. cbn in Hk.
    rewrite app_nil_r, !elem_of_app in Hk.
    assert (∀ d, k ∉ dkeys d → dget d k = None) as Hnone by (intros; by apply dget_none_keys).
    rewrite !Hnone by naive_solver. done.
  - intros (b & br & m & -> & -> & -> & Hall). exists b, br, m. split_and!; try done. intros k _.
    apply (conflicts_prefix _ _ _ ""), Hall.
Qed.

(** ** Missing keys and nulls *)

Lemma py_eqb_null v : py_eqb PNone v = bool_decide (v = PNone) ∧ py_eqb v PNone = bool_decide (v = PNone).
Proof. by destruct v. Qed.

Lemma aligned_eqb a b : aligned_opt a b = true → py_eqb (default PNone a) (default PNone b) = opt_eqb a b.
Proof.
  destruct a as [a|], b as [b|]; try done; cbn [aligned_opt]; rewrite ?negb_true_iff; intros Ha.
  - exact (eq_trans (proj2 (py_eqb_null a)) Ha).
  - exact (eq_trans (proj1 (py_eqb_null b)) Ha).
Qed.

Lemma aligned_get a b k : wf_dict a = true → wf_dict b = true →
  aligned (PDict a) (PDict b) = true → aligned_opt (dget a k) (dget b k) = true.
Proof.
  intros [Ha _]%wf_dict_iff [Hb _]%wf_dict_iff. cbn [aligned]. rewrite andb_true_iff, forallb_forall.
  intros [Hl Hr]. destruct (dget a k) as [v|] eqn:Hv.
  - clear Hr Ha. induction a as [|[k' v'] a IH]; [done|]. cbn in Hv. apply andb_true_iff in Hl as [Hl Hrest].
    case_decide; [|by apply IH]. injection Hv as ->. subst. by destruct (dget b k').
  - destruct (dget b k) as [w|] eqn:Hw; [|done]. apply dget_elem, list_elem_of_In in Hw.
    specialize (Hr _ Hw). unfold dmem in Hr. cbn in Hr. by rewrite Hv in Hr.
Qed.

Lemma aligned_agree base branch main :
  aligned_opt base branch = true → aligned_opt base main = true → aligned_opt branch main = true →
  agree (default PNone base) (default PNone branch) (default PNone main) = true ↔
  opt_eqb base branch = true ∨ opt_eqb base main = true ∨ opt_eqb branch main = true.
Proof. intros. unfold agree. rewrite !aligned_eqb, !orb_true_iff by done. tauto. Qed.

(** ** Merging *)

(** A dictionary chosen key by key. *)
Lemma choose_dict (P : string → option pyval → Prop) (ks : list string) :
  NoDup ks → (∀ k, k ∈ ks → ∃ o, wf_opt o = true ∧ P k o) →
  ∃ d, wf_dict d = true ∧ (∀ k, k ∈ ks → P k (dget d k)) ∧ ∀ k, k ∉ ks → dget d k = None.
Proof.
  induction 1 as [|k ks Hk _ IH]; intros Hall.
  { exists []. split_and!; [done|by intros k ?%elem_of_nil|done]. }
  destruct IH as (d & Hd & Hin & Hout); [intros k' Hk'; apply Hall; by right|].
  destruct (Hall k) as (o & Ho & HP); [by left|]. destruct o as [v|].
  - exists ((k, v) :: d). split_and!.
    + unfold wf_dict in Hd |- *. cbn in Hd, Ho |- *. apply andb_true_iff in Hd as [Hn Hd]. rewrite Ho, Hd, andb_true_r.
      apply bool_decide_eq_true. apply bool_decide_eq_true in Hn. apply NoDup_cons. split; [|done].
      by apply dget_none_keys, Hout.
    + intros k' [->|Hk']%elem_of_cons; cbn; [by rewrite decide_True|]. rewrite decide_False by congruence. by apply Hin.
    + intros k' [Hne Hk']%not_elem_of_cons. cbn. rewrite decide_False by done. by apply Hout.
  - exists d. split_and!; [done| |].
    + intros k' [->|Hk']%elem_of_cons; [by rewrite Hout|by apply Hin].
    + intros k' [_ Hk']%not_elem_of_cons. by apply Hout.
Qed.

(** Both sides' changes are present in one document. *)
Definition mergeable (base branch main : option pyval) : Prop :=
  ∃ merged, wf_opt merged = true ∧ _branch_changes_are_present base branch merged = true ∧
    _branch_changes_are_present base main merged = true.

Lemma present_refl base branch : wf_opt branch = true → _branch_changes_are_present base branch branch = true.
Proof.
  intros Hb. pose proof (opt_eqb_refl _ Hb) as He. destruct base as [base|]; cbn [_branch_changes_are_present].
  - rewrite present_some, He. by rewrite orb_true_r.
  - by rewrite He, orb_true_r.
Qed.

Lemma present_same base branch main : opt_eqb base branch = true → _branch_changes_are_present base branch main = true.
Proof. intros He. destruct base; cbn [_branch_changes_are_present]; [by rewrite present_some, He|by rewrite He]. Qed.

Lemma agree_mergeable base branch main :
  wf_opt base = true → wf_opt branch = true → wf_opt main = true →
  opt_eqb base branch = true ∨ opt_eqb base main = true ∨ opt_eqb branch main = true → mergeable base branch main.
Proof.
  intros Hb Hbr Hm [He|[He|He]].
  - exists main. split_and!; [done|by apply present_same|by apply present_refl].
  - exists branch. split_and!; [done|by apply present_refl|by apply present_same].
  - exists branch. split_and!; [done|by apply present_refl|]. apply present_iff; [done..|]. right. left. by apply opt_eqb_sym.
Qed.

(** The changes between two dictionaries are present key by key. *)
Lemma present_keys b br m k :
  wf_dict b = true → wf_dict br = true → wf_dict m = true →
  _branch_changes_are_present (Some (PDict b)) (Some (PDict br)) (Some (PDict m)) = true →
  _branch_changes_are_present (dget b k) (dget br k) (dget m k) = true.
Proof.
  intros Hb Hbr Hm [He|[He|(b' & br' & m' & [= <-] & [= <-] & [= <-] & Hall)]]%present_iff; try done.
  - by apply present_same, dict_eqb_get.
  - apply present_iff; [by apply wf_dict_get_opt..|]. right. left. by apply dict_eqb_get.
Qed.

Lemma conflict_free_missing branch main :
  wf_opt branch = true → wf_opt main = true →
  aligned_opt None branch = true → aligned_opt None main = true → aligned_opt branch main = true →
  conflict_free None branch main ↔ mergeable None branch main.
Proof.
  intros Hbr Hm A1 A2 A3. rewrite conflict_free_iff, aligned_agree by done. split.
  - intros [Ha|(b & br & m & ? & _)]; [by apply agree_mergeable|done].
  - intros (merged & Hw & H1%present_iff & H2%present_iff); [|done..]. left.
    destruct H1 as [?|[He1|(? & ? & ? & ? & _)]]; [by left| |done].
    destruct H2 as [?|[He2|(? & ? & ? & ? & _)]]; [by right; left| |done].
    right. right. apply (opt_eqb_trans _ merged); [done..|]. by apply opt_eqb_sym.
Qed.

Lemma outside_keys b br m k : k ∉ sorted_keys [b; br; m] → dget b k = None ∧ dget br k = None ∧ dget m k = None.
Proof.
  unfold sorted_keys. rewrite elem_of_sorted_set, elem_of_list_to_set. cbn. rewrite app_nil_r, !elem_of_app.
  intros Hk. rewrite !dget_none_keys. naive_solver.
Qed.

(** Mergeable dictionaries are mergeable key by key, and conversely. *)
Lemma mergeable_keys b br m :
  wf_dict b = true → wf_dict br = true → wf_dict m = true →
  (∀ k, mergeable (dget b k) (dget br k) (dget m k)) → mergeable (Some (PDict b)) (Some (PDict br)) (Some (PDict m)).
Proof.
  intros Hb Hbr Hm Hall.
  destruct (choose_dict (λ k o, _branch_changes_are_present (dget b k) (dget br k) o = true ∧
    _branch_changes_are_present (dget b k) (dget m k) o = true) (sorted_keys [b; br; m])) as (d & Hd & Hin & Hout).
  { apply NoDup_sorted_set. }
  { intros k _. destruct (Hall k) as (o & ? & ? & ?). by exists o. }
  assert (∀ k, _branch_changes_are_present (dget b k) (dget br k) (dget d k) = true ∧
    _branch_changes_are_present (dget b k) (dget m k) (dget d k) = true) as Hk.
  { intros k. destruct (decide (k ∈ sorted_keys [b; br; m])) as [Hk|Hk]; [by apply Hin|].
    rewrite (Hout _ Hk). by destruct (outside_keys _ _ _ _ Hk) as (-> & -> & ->). }
  exists (Some (PDict d)). split_and!; [done| |]; apply present_iff; try done; right; right.
  - exists b, br, d. split_and!; try done. apply Hk.
  - exists b, m, d. split_and!; try done. apply Hk.
Qed.

Lemma dict_of_eqb d o : wf_dict d = true → opt_eqb o (Some (PDict d)) = true → ∃ d', o = Some (PDict d').
Proof. destruct o as [[]|]; try done. intros. by eexists. Qed.

Lemma mergeable_inv base branch main :
  wf_opt base = true → wf_opt branch = true → wf_opt main = true → mergeable base branch main →
  (opt_eqb base branch = true ∨ opt_eqb base main = true ∨ opt_eqb branch main = true) ∨
  ∃ b br m, base = Some (PDict b) ∧ branch = Some (PDict br) ∧ main = Some (PDict m) ∧
    ∀ k, mergeable (dget b k) (dget br k) (dget m k).
Proof.
  intros Hb Hbr Hm (merged & Hw & H1 & H2). pose proof H1 as H1'. pose proof H2 as H2'.
  apply present_iff in H1'; [|done..]. apply present_iff in H2'; [|done..].
  destruct H1' as [?|[He1|(b & br & mg & -> & -> & -> & _)]]; [by left; left| |].
  - destruct H2' as [?|[He2|(b & m & mg & -> & -> & -> & _)]]; [by left; right; left| |].
    + left. right. right. apply (opt_eqb_trans _ merged); [done..|]. by apply opt_eqb_sym.
    + destruct (dict_of_eqb mg branch) as [br ->]; [done..|]. right. exists b, br, m. split_and!; try done.
      intros k. exists (dget mg k). split_and!; [by apply wf_dict_get_opt|by apply present_keys..].
  - right. assert (∃ m, main = Some (PDict m)) as [m ->].
    { destruct H2' as [He|[He|(? & ? & ? & ? & -> & _)]]; [|by eapply dict_of_eqb|by eexists].
      apply opt_eqb_sym in He; [|done..]. by apply (dict_of_eqb b). }
    exists b, br, m. split_and!; try done. intros k. exists (dget mg k).
    split_and!; [by apply wf_dict_get_opt|by apply present_keys..].
Qed.

(** No conflict is missed and none is invented: the code finds no conflict between
    a branch and main exactly when one document holds the changes of both. *)
Lemma conflict_free_mergeable base branch main :
  wf_opt base = true → wf_opt branch = true → wf_opt main = true →
  aligned_opt base branch = true → aligned_opt base main = true → aligned_opt branch main = true →
  conflict_free base branch main ↔ mergeable base branch main.
Proof.
  destruct base as [base|]; [|intros _; apply conflict_free_missing].
  assert (∀ b br m, wf_dict b = true → wf_dict br = true → wf_dict m = true →
    aligned (PDict b) (PDict br) = true → aligned (PDict b) (PDict m) = true → aligned (PDict br) (PDict m) = true →
    Forall (λ kv, ∀ branch main, wf_opt (Some kv.2) = true → wf_opt branch = true → wf_opt main = true →
      aligned_opt (Some kv.2) branch = true → aligned_opt (Some kv.2) main = true → aligned_opt branch main = true →
      conflict_free (Some kv.2) branch main ↔ mergeable (Some kv.2) branch main) b →
    ∀ k, conflict_free (dget b k) (dget br k) (dget m k) ↔ mergeable (dget b k) (dget br k) (dget m k)) as Hkeys.
  { intros b br m Hb Hbr Hm A1 A2 A3 IH k.
    pose proof (aligned_get b br k Hb Hbr A1) as B1. pose proof (aligned_get b m k Hb Hm A2) as B2.
    pose proof (aligned_get br m k Hbr Hm A3) as B3. pose proof (wf_dict_get_opt b k Hb) as Hw.
    destruct (dget b k) as [v|] eqn:Hv.
    - apply (proj1 (Forall_forall _ _) IH (k, v)); try done; [by apply dget_elem|by apply wf_dict_get_opt..].
    - apply conflict_free_missing; try done; by apply wf_dict_get_opt. }
  revert branch main. induction base as [| | | | | |l _|b IH|c d _] using pyval_rect'; intros branch main Hb Hbr Hm A1 A2 A3;
    rewrite conflict_free_iff, aligned_agree by done; split;
    try (intros [Ha|(? & ? & ? & [=] & _)]; by apply agree_mergeable);
    try (intros Hg; destruct (mergeable_inv _ _ _ Hb Hbr Hm Hg) as [?|(? & ? & ? & [=] & _)]; by left).
  - intros [Ha|(b' & br & m & [= <-] & -> & -> & Hall)]; [by apply agree_mergeable|].
    apply mergeable_keys; try done. intros k. by apply Hkeys.
  - intros Hg. destruct (mergeable_inv _ _ _ Hb Hbr Hm Hg) as [?|(b' & br & m & [= <-] & -> & -> & Hall)]; [by left|]. right.
    exists b, br, m. split_and!; try done. intros k. by apply Hkeys.
Qed.
