(* ===== verification/WritePaths.v ===== *)
(** Laws of write paths: they miss no difference between two documents, and what
    an allowed set of paths does not cover is left alone by a sequence of changes
    that stay inside it. *)

From S2P Require Export ThreeWay.

(** One path lies on the way to the other. *)
Definition related (p q : path) : Prop := path_parts p `prefix_of` q ∨ q `prefix_of` path_parts p.

(** The path of a key that only one side has. *)
Definition whole_key (prefix : path) (k : string) (v : pyval) : path :=
  prefix ++ [k] ++ (if is_dict v then ["$"] else []).

(** ** Parts *)

Lemma path_parts_snoc p s : path_parts (p ++ [s]) = if str_eqb s "$" then p else p ++ [s].
Proof. unfold path_parts. rewrite last_snoc. destruct (str_eqb s "$"); [|done]. apply removelast_last. Qed.

Lemma path_parts_prefix p : path_parts p `prefix_of` p.
Proof.
  induction p as [|s p _] using rev_ind; [done|]. rewrite path_parts_snoc.
  destruct (str_eqb s "$"); [by apply prefix_app_r|done].
Qed.

Lemma whole_key_parts prefix k v : path_parts (whole_key prefix k v) `prefix_of` prefix ++ [k].
Proof.
  unfold whole_key. destruct (is_dict v).
  - rewrite app_assoc, path_parts_snoc. done.
  - rewrite app_nil_r. apply path_parts_prefix.
Qed.

(** ** The paths of two dictionaries *)

Definition key_paths (o o' : option pyval) (prefix : path) (k : string) : list path :=
  match o, o' with
  | Some v, Some w => _document_write_paths v w (prefix ++ [k])
  | Some v, None | None, Some v => [whole_key prefix k v]
  | None, None => []
  end.

Lemma write_paths_dict b a prefix :
  _document_write_paths (PDict b) (PDict a) prefix =
  if py_eqb (PDict b) (PDict a) then []
  else (b ≫= λ kv, match dget a kv.1 with
                   | Some w => _document_write_paths kv.2 w (prefix ++ [kv.1])
                   | None => [whole_key prefix kv.1 kv.2] end) ++
       (a ≫= λ kv, if dmem b kv.1 then [] else [whole_key prefix kv.1 kv.2]).
Proof.
  cbn [_document_write_paths]. destruct (py_eqb _ _); [done|]. f_equal.
  induction b as [|[k v] b IH]; [done|]. rewrite bind_cons. cbn [fst snd]. by f_equal.
Qed.

Lemma elem_of_write_paths b a prefix p :
  wf_dict b = true → wf_dict a = true → py_eqb (PDict b) (PDict a) = false →
  p ∈ _document_write_paths (PDict b) (PDict a) prefix ↔ ∃ k, p ∈ key_paths (dget b k) (dget a k) prefix k.
Proof.
  intros [Hb _]%wf_dict_iff [Ha _]%wf_dict_iff Hne. rewrite write_paths_dict, Hne, elem_of_app, !list_elem_of_bind.
  unfold key_paths. split.
  - intros [([k v] & Hp & Hin)|([k v] & Hp & Hin)]; exists k; cbn [fst snd] in Hp.
    + rewrite (dget_unique _ _ _ Hb Hin). by destruct (dget a k).
    + unfold dmem in Hp. rewrite (dget_unique _ _ _ Ha Hin). by destruct (dget b k); [apply elem_of_nil in Hp|].
  - intros [k Hp]. destruct (dget b k) as [v|] eqn:Hv.
    + left. exists (k, v). split; [|by apply dget_elem]. cbn [fst snd]. by destruct (dget a k).
    + destruct (dget a k) as [w|] eqn:Hw; [|by apply elem_of_nil in Hp]. right. exists (k, w).
      split; [|by apply dget_elem]. cbn [fst snd]. unfold dmem. by rewrite Hv.
Qed.

Lemma write_paths_leaf b a prefix :
  py_eqb b a = false → (∀ d d', b = PDict d → a ≠ PDict d') → _document_write_paths b a prefix = [prefix].
Proof. intros He Hne. destruct b; cbn [_document_write_paths]; rewrite He; try done. destruct a; try done. by destruct (Hne d d0). Qed.

(** ** Nothing is missed *)

Lemma value_at_eqb x y q : wf_doc x = true → wf_doc y = true → py_eqb x y = true →
  opt_eqb (value_at x q) (value_at y q) = true.
Proof.
  revert x y. induction q as [|k q IH]; intros x y Hx Hy He; [exact He|]. cbn [value_at].
  destruct x as [| | | | | | |a|]; try (by destruct y). destruct y as [| | | | | | |b|]; try done.
  pose proof (dict_eqb_get a b k Hx Hy He) as Hk.
  destruct (dget a k) as [v|] eqn:Hv, (dget b k) as [w|] eqn:Hw; try done.
  apply IH; [exact (wf_dict_get a k v Hx Hv)|exact (wf_dict_get b k w Hy Hw)|exact Hk].
Qed.

Lemma related_shorter p q r : related p (q ++ r) → related p q.
Proof.
  intros [Hp|Hp]; [|right; etrans; [|exact Hp]; by apply prefix_app_r].
  by apply (prefix_weak_total _ q (q ++ r)); [|apply prefix_app_r].
Qed.

Lemma dict_difference b a : wf_dict b = true → wf_dict a = true → py_eqb (PDict b) (PDict a) = false →
  ∃ k, opt_eqb (dget b k) (dget a k) = false.
Proof.
  intros Hb Ha Hne. destruct (forallb (λ k, opt_eqb (dget b k) (dget a k)) (sorted_keys [b; a])) eqn:Hall.
  - exfalso. rewrite forallb_forall in Hall.
    assert (py_eqb (PDict b) (PDict a) = true) as He; [|by rewrite He in Hne].
    apply py_eqb_canon; [done..|]. cbn. f_equal. apply map_eq. intros k.
    change (canon_dict b !! k = canon_dict a !! k). rewrite !canon_lookup.
    apply opt_eqb_canon; [by apply wf_dict_get_opt..|].
    destruct (decide (k ∈ sorted_keys [b; a])) as [Hk|Hk]; [by apply Hall, list_elem_of_In|].
    unfold sorted_keys in Hk. rewrite elem_of_sorted_set, elem_of_list_to_set in Hk. cbn in Hk.
    rewrite app_nil_r, elem_of_app in Hk.
    by rewrite !(proj2 (dget_none_keys _ _)) by naive_solver.
  - apply not_true_iff_false in Hall. rewrite forallb_forall in Hall.
    destruct (List.find (λ k, negb (opt_eqb (dget b k) (dget a k))) (sorted_keys [b; a])) as [k|] eqn:Hf.
    + apply find_some in Hf as [_ Hk%negb_true_iff]. by exists k.
    + exfalso. apply Hall. intros k Hk. by apply negb_false_iff, (find_none _ _ Hf).
Qed.

(** Two different documents have a write path on the way to every difference. *)
Lemma write_paths_complete before after prefix q :
  wf_doc before = true → wf_doc after = true →
  opt_eqb (value_at before q) (value_at after q) = false →
  ∃ p, p ∈ _document_write_paths before after prefix ∧ related p (prefix ++ q).
Proof.
  revert after prefix q.
  assert (∀ b a prefix q, py_eqb b a = false → (∀ d d', b = PDict d → a ≠ PDict d') →
    ∃ p, p ∈ _document_write_paths b a prefix ∧ related p (prefix ++ q)) as Hleaf.
  { intros b a prefix q He Hne. exists prefix. rewrite write_paths_leaf by done. split; [by apply list_elem_of_singleton|].
    left. etrans; [apply path_parts_prefix|by apply prefix_app_r]. }
  induction before as [| | | | | |l _|b IH|c d _] using pyval_rect'; intros after prefix q Hb Ha Hv;
    (match goal with |- ∃ p, p ∈ _document_write_paths ?x after _ ∧ _ => destruct (py_eqb x after) eqn:He end;
     [by rewrite (value_at_eqb _ _ q Hb Ha He) in Hv|]);
    try (by apply Hleaf).
  destruct after as [| | | | | | |a|]; try (by apply Hleaf).
  assert (∀ k p, p ∈ key_paths (dget b k) (dget a k) prefix k →
    p ∈ _document_write_paths (PDict b) (PDict a) prefix) as Hin.
  { intros k p Hp. apply elem_of_write_paths; [done..|]. by exists k. }
  assert (∀ k q, opt_eqb (dget b k ≫= λ v, value_at v q) (dget a k ≫= λ v, value_at v q) = false →
    ∃ p, p ∈ _document_write_paths (PDict b) (PDict a) prefix ∧ related p (prefix ++ k :: q)) as Hkey.
  { intros k q' Hk. specialize (Hin k). unfold key_paths in Hin.
    destruct (dget b k) as [v|] eqn:Hbk, (dget a k) as [w|] eqn:Hak; cbn in Hk; [| | |done].
    - apply dget_elem in Hbk as Hbe. destruct (proj1 (Forall_forall _ _) IH (k, v) Hbe w (prefix ++ [k]) q'
        (wf_dict_get b k v Hb Hbk) (wf_dict_get a k w Ha Hak) Hk) as (p & Hp & Hr). exists p. split; [by apply Hin|]. by rewrite <-app_assoc in Hr.
    - eexists. split; [apply Hin; by apply list_elem_of_singleton|]. left.
      etrans; [apply whole_key_parts|]. exists q'. by rewrite <-app_assoc.
    - eexists. split; [apply Hin; by apply list_elem_of_singleton|]. left.
      etrans; [apply whole_key_parts|]. exists q'. by rewrite <-app_assoc. }
  destruct q as [|k q]; [|apply (Hkey k q)].
  - destruct (dict_difference b a) as [k Hk]; [done..|].
    destruct (Hkey k []) as (p & Hp & Hr); [by destruct (dget b k), (dget a k)|].
    exists p. split; [done|]. rewrite app_nil_r. by apply (related_shorter _ _ [k]).
  - cbn [value_at] in Hv. by destruct (dget b k), (dget a k).
Qed.
