(* ===== verification/Models.v ===== *)
(** The domain model: nodes, ontology, edges, heads, attribution
    ([core/models.py], [core/transition_models.py]).

    A Python [Literal] whose value the code only compares and stores is kept as
    its string, next to the list of its legal values; a [Literal] the code
    dispatches on is an inductive type.  A pydantic [model_validator] is a
    boolean over the record. *)

From S2P Require Export PyVal.

(** ** Standing and node types *)

Inductive Standing := Asserted | Accepted | Contested.
#[export] Instance Standing_eq_dec : EqDecision Standing.
Proof. solve_decision. Defined.

Definition standing_str (s : Standing) : string :=
  match s with Asserted => "asserted" | Accepted => "accepted" | Contested => "contested" end.

(** [Standing(value)]. *)
Definition standing_of (s : string) : option Standing :=
  if decide (s = "asserted") then Some Asserted
  else if decide (s = "accepted") then Some Accepted
  else if decide (s = "contested") then Some Contested else None.

Inductive NodeType :=
  | TResearchQuestion | THypothesis | TDecision | TExperiment | TEvidence | TBlocker.
#[export] Instance NodeType_eq_dec : EqDecision NodeType.
Proof. solve_decision. Defined.

Definition node_type_str (t : NodeType) : string :=
  match t with
  | TResearchQuestion => "research_question" | THypothesis => "hypothesis"
  | TDecision => "decision" | TExperiment => "experiment"
  | TEvidence => "evidence" | TBlocker => "blocker"
  end.

Definition all_node_types : list NodeType :=
  [TResearchQuestion; THypothesis; TDecision; TExperiment; TEvidence; TBlocker].
Definition ALL_NODE_TYPES : list string := node_type_str <$> all_node_types.

(** ** Nodes *)

Record SourceRef := {
  sr_machine : string; sr_truth_repository : string; sr_source : string;
  sr_session_id : string; sr_record_uuid : string; sr_timestamp : Z; sr_excerpt : string }.
#[export] Instance SourceRef_eq_dec : EqDecision SourceRef.
Proof. solve_decision. Defined.

Record ExperimentDecisionPin := {
  pin_decision_id : string; pin_decision_revision : Z; pin_selected_option : string }.
#[export] Instance ExperimentDecisionPin_eq_dec : EqDecision ExperimentDecisionPin.
Proof. solve_decision. Defined.

Record ExperimentAttemptDebug := {
  dbg_mechanical_fault : string; dbg_change : string; dbg_predicted_effect : string }.
#[export] Instance ExperimentAttemptDebug_eq_dec : EqDecision ExperimentAttemptDebug.
Proof. solve_decision. Defined.

Definition ACTIVE_EXPERIMENT_ATTEMPT_STATUSES : list string :=
  ["planned"; "submitted"; "running"].

Record ExperimentAttempt := {
  att_id : string; att_sequence : Z; att_purpose : string; att_kind : string;
  att_decision_bundle : list ExperimentDecisionPin;
  att_debug : option ExperimentAttemptDebug; att_configuration : string;
  att_status : string; att_job_refs : list string; att_source_refs : list SourceRef;
  att_outcome : option string; att_failure_reason : option string;
  att_started_at : option Z; att_finished_at : option Z }.
#[export] Instance ExperimentAttempt_eq_dec : EqDecision ExperimentAttempt.
Proof. solve_decision. Defined.

(** [bn_fields_set] is pydantic's [model_fields_set]: the fields supplied when
    the node was built, which [model_dump(exclude_unset=True)] keeps. *)
Record BaseNode := {
  bn_id : string; bn_title : string; bn_extension_type : option string;
  bn_extension_fields : gmap string pyval; bn_standing : Standing;
  bn_created_rev : Z; bn_updated_rev : Z; bn_source_refs : list SourceRef;
  bn_fields_set : gset string }.
#[export] Instance BaseNode_eq_dec : EqDecision BaseNode.
Proof. solve_decision. Defined.

Record ResearchQuestionNode := {
  rq_question : string; rq_motivation : string; rq_scope : string; rq_status : string }.
Record HypothesisNode := {
  hyp_statement : string; hyp_rationale : string; hyp_predictions : list string;
  hyp_scope : string; hyp_status : string }.
Record DecisionNode := {
  dec_question : string; dec_options : list string; dec_selected_option : option string;
  dec_rationale : option string; dec_consequences : list string; dec_status : string }.
Record ExperimentNode := {
  exp_objective : string; exp_design : string; exp_expected_outcomes : list string;
  exp_interpretation_rules : list string; exp_completion_criteria : list string;
  exp_invocation_ceiling : Z; exp_status : string; exp_attempts : list ExperimentAttempt;
  exp_current_summary : string; exp_next_action : option string;
  exp_current_summary_stale : bool; exp_next_action_stale : bool }.
Record EvidenceNode := {
  ev_observation : string; ev_interpretation : string; ev_role : string;
  ev_legacy_strength : option string; ev_validity : string; ev_origin : string;
  ev_artifact_refs : list string }.
Record BlockerNode := {
  blk_description : string; blk_blocker_type : string; blk_status : string;
  blk_resolution_condition : string; blk_recommended_action : option string }.

#[export] Instance ResearchQuestionNode_eq_dec : EqDecision ResearchQuestionNode.
Proof. solve_decision. Defined.
#[export] Instance HypothesisNode_eq_dec : EqDecision HypothesisNode.
Proof. solve_decision. Defined.
#[export] Instance DecisionNode_eq_dec : EqDecision DecisionNode.
Proof. solve_decision. Defined.
#[export] Instance ExperimentNode_eq_dec : EqDecision ExperimentNode.
Proof. solve_decision. Defined.
#[export] Instance EvidenceNode_eq_dec : EqDecision EvidenceNode.
Proof. solve_decision. Defined.
#[export] Instance BlockerNode_eq_dec : EqDecision BlockerNode.
Proof. solve_decision. Defined.

Inductive NodePayload :=
  | NResearchQuestion (q : ResearchQuestionNode)
  | NHypothesis (h : HypothesisNode)
  | NDecision (d : DecisionNode)
  | NExperiment (e : ExperimentNode)
  | NEvidence (e : EvidenceNode)
  | NBlocker (b : BlockerNode).
#[export] Instance NodePayload_eq_dec : EqDecision NodePayload.
Proof. solve_decision. Defined.

Record ProjectNode := { node_base : BaseNode; node_payload : NodePayload }.
#[export] Instance ProjectNode_eq_dec : EqDecision ProjectNode.
Proof. solve_decision. Defined.

Definition node_id (n : ProjectNode) : string := bn_id (node_base n).
Definition node_standing (n : ProjectNode) : Standing := bn_standing (node_base n).
Definition node_created_rev (n : ProjectNode) : Z := bn_created_rev (node_base n).
Definition node_updated_rev (n : ProjectNode) : Z := bn_updated_rev (node_base n).
Definition node_extension_type (n : ProjectNode) : option string := bn_extension_type (node_base n).
Definition node_extension_fields (n : ProjectNode) : gmap string pyval :=
  bn_extension_fields (node_base n).

Definition node_type (n : ProjectNode) : NodeType :=
  match node_payload n with
  | NResearchQuestion _ => TResearchQuestion | NHypothesis _ => THypothesis
  | NDecision _ => TDecision | NExperiment _ => TExperiment
  | NEvidence _ => TEvidence | NBlocker _ => TBlocker
  end.

(** [getattr(node, "status", None)]: Evidence is the one type with no status. *)
Definition node_status (n : ProjectNode) : option string :=
  match node_payload n with
  | NResearchQuestion q => Some (rq_status q) | NHypothesis h => Some (hyp_status h)
  | NDecision d => Some (dec_status d) | NExperiment e => Some (exp_status e)
  | NEvidence _ => None | NBlocker b => Some (blk_status b)
  end.

(** [isinstance(node, C)], returning the payload. *)
Definition as_hypothesis (n : ProjectNode) : option HypothesisNode :=
  match node_payload n with NHypothesis h => Some h | _ => None end.
Definition as_decision (n : ProjectNode) : option DecisionNode :=
  match node_payload n with NDecision d => Some d | _ => None end.
Definition as_experiment (n : ProjectNode) : option ExperimentNode :=
  match node_payload n with NExperiment e => Some e | _ => None end.
Definition as_evidence (n : ProjectNode) : option EvidenceNode :=
  match node_payload n with NEvidence e => Some e | _ => None end.
Definition as_blocker (n : ProjectNode) : option BlockerNode :=
  match node_payload n with NBlocker b => Some b | _ => None end.

(** [isinstance(node, (ResearchQuestion, Hypothesis))]. *)
Definition is_belief (n : ProjectNode) : bool :=
  match node_payload n with NResearchQuestion _ | NHypothesis _ => true | _ => false end.

Definition CLOSED_EXPERIMENT_STATUSES : list string := ["completed"; "abandoned"; "superseded"].

Definition HUMAN_EDITABLE_NODE_FIELDS (t : NodeType) : list string :=
  match t with
  | TResearchQuestion => ["title"; "question"; "motivation"; "scope"]
  | THypothesis => ["title"; "statement"; "rationale"; "predictions"; "scope"]
  | TDecision => ["title"; "question"; "options"; "rationale"; "consequences"; "status"]
  | TExperiment =>
      ["title"; "objective"; "design"; "expected_outcomes"; "interpretation_rules";
       "completion_criteria"; "attempt_ceiling"; "invocation_ceiling"; "current_summary";
       "next_action"]
  | TEvidence => ["title"; "observation"; "interpretation"]
  | TBlocker => ["title"; "description"; "status"; "resolution_condition"; "recommended_action"]
  end.

(** ** Ontology *)

Inductive RelationLayer := Epistemic | Action | Seam | Meta.
#[export] Instance RelationLayer_eq_dec : EqDecision RelationLayer.
Proof. solve_decision. Defined.

Record OntologyTypeDefinition := {
  otd_name : string; otd_definition : string; otd_base_type : NodeType;
  otd_layer : RelationLayer; otd_deprecated : bool }.
#[export] Instance OntologyTypeDefinition_eq_dec : EqDecision OntologyTypeDefinition.
Proof. solve_decision. Defined.

Inductive FieldKind := KText | KNumber | KBoolean | KTextList.
#[export] Instance FieldKind_eq_dec : EqDecision FieldKind.
Proof. solve_decision. Defined.

Record OntologyFieldDefinition := {
  ofd_owner_type : string; ofd_name : string; ofd_definition : string; ofd_kind : FieldKind;
  ofd_required : bool; ofd_agent_writable : bool; ofd_deprecated : bool }.
#[export] Instance OntologyFieldDefinition_eq_dec : EqDecision OntologyFieldDefinition.
Proof. solve_decision. Defined.

Record OntologyRelationDefinition := {
  ord_name : string; ord_definition : string; ord_source_types : list string;
  ord_target_types : list string; ord_layer : RelationLayer; ord_deprecated : bool }.
#[export] Instance OntologyRelationDefinition_eq_dec : EqDecision OntologyRelationDefinition.
Proof. solve_decision. Defined.

Record OntologyState := {
  ont_types : list OntologyTypeDefinition;
  ont_fields : list OntologyFieldDefinition;
  ont_relations : list OntologyRelationDefinition }.
#[export] Instance OntologyState_eq_dec : EqDecision OntologyState.
Proof. solve_decision. Defined.

(** [OntologyState.require_unique_names]. *)
Definition require_unique_names (o : OntologyState) : bool :=
  no_dup (otd_name <$> ont_types o) &&
  no_dup ((λ f, ofd_owner_type f +:+ "." +:+ ofd_name f) <$> ont_fields o) &&
  no_dup (ord_name <$> ont_relations o).

Record RelationSpec := {
  rs_source_types : list string; rs_target_types : list string;
  rs_layer : RelationLayer; rs_same_type : bool }.

(** The base relation vocabulary; [None] is "not a base relation". *)
Definition RELATION_SPEC_table : list (string * RelationSpec) :=
  let spec s t l := {| rs_source_types := s; rs_target_types := t; rs_layer := l; rs_same_type := false |} in
  let meta := {| rs_source_types := ALL_NODE_TYPES; rs_target_types := ALL_NODE_TYPES;
                 rs_layer := Meta; rs_same_type := true |} in
  [("has_subquestion", spec ["research_question"] ["research_question"] Epistemic);
   ("has_hypothesis", spec ["research_question"] ["hypothesis"] Epistemic);
   ("supports", spec ["evidence"] ["hypothesis"] Epistemic);
   ("weakens", spec ["evidence"] ["hypothesis"] Epistemic);
   ("refutes", spec ["evidence"] ["hypothesis"] Epistemic);
   ("inconclusive", spec ["evidence"] ["hypothesis"] Epistemic);
   ("contradicts", spec ["evidence"; "hypothesis"] ["hypothesis"] Epistemic);
   ("tests", spec ["experiment"] ["hypothesis"] Seam);
   ("produces", spec ["experiment"] ["evidence"] Seam);
   ("informs", spec ["evidence"] ["decision"] Action);
   ("addresses", spec ["evidence"] ["blocker"] Action);
   ("has_decision", spec ["research_question"] ["decision"] Action);
   ("governed_by", spec ["experiment"] ["decision"] Action);
   ("blocked_by", spec ["experiment"; "decision"; "research_question"] ["blocker"] Action);
   ("requires_decision", spec ["blocker"] ["decision"] Action);
   ("supersedes", meta);
   ("duplicate_of", meta)].

Fixpoint assoc {V} (k : string) (l : list (string * V)) : option V :=
  match l with
  | [] => None
  | (k', v) :: l => if decide (k = k') then Some v else assoc k l
  end.

Definition RELATION_SPEC (relation : string) : option RelationSpec :=
  assoc relation RELATION_SPEC_table.

(** ** Edges *)

Record EvidenceAssessment := {
  ea_relevance : string; ea_weight : string; ea_scope : option string;
  ea_qualifications : list string }.
#[export] Instance EvidenceAssessment_eq_dec : EqDecision EvidenceAssessment.
Proof. solve_decision. Defined.

Record Edge := {
  edge_id : string; edge_source : string; edge_target : string; edge_relation : string;
  edge_layer_ : RelationLayer; edge_explanation : string;
  edge_assessment : option EvidenceAssessment; edge_created_rev : Z }.
#[export] Instance Edge_eq_dec : EqDecision Edge.
Proof. solve_decision. Defined.

(** [Edge.derive_base_relation_layer]: a base relation's own layer replaces
    whatever layer the document supplies; with neither, validation fails. *)
Definition derive_base_relation_layer (relation : string) (supplied : option RelationLayer) :
    option RelationLayer :=
  match RELATION_SPEC relation with Some spec => Some (rs_layer spec) | None => supplied end.

(** ** Small graph objects *)

Record GatedCard := {
  gc_situation_cold : string; gc_why_human_now : string;
  gc_consequences : string; gc_decision_needed : string }.
#[export] Instance GatedCard_eq_dec : EqDecision GatedCard.
Proof. solve_decision. Defined.

Record Ambiguity := {
  amb_id : string; amb_question : string; amb_why_it_matters : string;
  amb_candidates : list string; amb_related_node_ids : list string;
  amb_artifact_refs : list string; amb_status : string; amb_raised_rev : Z }.
#[export] Instance Ambiguity_eq_dec : EqDecision Ambiguity.
Proof. solve_decision. Defined.

Record GlossaryTerm := {
  gt_term : string; gt_plain_definition : string; gt_where_defined : option string;
  gt_updated_rev : Z }.
#[export] Instance GlossaryTerm_eq_dec : EqDecision GlossaryTerm.
Proof. solve_decision. Defined.

Record CoverageBoundary := {
  cov_repositories_seen : list string; cov_repositories_never_seen : list string;
  cov_sessions_read : list string; cov_sessions_skipped : list string;
  cov_earliest_timestamp : option Z; cov_note : string }.
#[export] Instance CoverageBoundary_eq_dec : EqDecision CoverageBoundary.
Proof. solve_decision. Defined.

Definition empty_coverage : CoverageBoundary :=
  {| cov_repositories_seen := []; cov_repositories_never_seen := [];
     cov_sessions_read := []; cov_sessions_skipped := [];
     cov_earliest_timestamp := None; cov_note := "No seed has completed." |}.

Inductive Level := Flag | Reject.
#[export] Instance Level_eq_dec : EqDecision Level.
Proof. solve_decision. Defined.

(** A report entry; its prose is not modelled (nothing reads it). *)
Record ValidationMessage := {
  vm_level : Level; vm_code : string; vm_patch_revision : option Z;
  vm_related_node_ids : list string; vm_related_edge_ids : list string }.
#[export] Instance ValidationMessage_eq_dec : EqDecision ValidationMessage.
Proof. solve_decision. Defined.

Record ReplayFailure := { rf_revision : Z; rf_created_at : Z; rf_code : string }.
#[export] Instance ReplayFailure_eq_dec : EqDecision ReplayFailure.
Proof. solve_decision. Defined.

(** ** Graph heads and transition provenance *)

Inductive TargetKind := TargetMain | TargetBranch.
#[export] Instance TargetKind_eq_dec : EqDecision TargetKind.
Proof. solve_decision. Defined.

Record GraphTargetRef := { tgt_kind : TargetKind; tgt_branch_id : option string }.
#[export] Instance GraphTargetRef_eq_dec : EqDecision GraphTargetRef.
Proof. solve_decision. Defined.

(** [GraphTargetRef.require_matching_branch_id], with the field's [min_length=1]. *)
Definition require_matching_branch_id (t : GraphTargetRef) : bool :=
  match tgt_kind t, tgt_branch_id t with
  | TargetMain, None => true
  | TargetBranch, Some b => truthy b
  | _, _ => false
  end.

(** [GraphTargetRef.key]. *)
Definition target_key (t : GraphTargetRef) : string :=
  match tgt_kind t with
  | TargetMain => "main"
  | TargetBranch => "branch:" +:+ match tgt_branch_id t with Some b => b | None => "None" end
  end.

Definition main_target : GraphTargetRef := {| tgt_kind := TargetMain; tgt_branch_id := None |}.

Record GraphHeadRef := {
  head_target : GraphTargetRef; head_revision : Z; head_transition_id : option string }.
#[export] Instance GraphHeadRef_eq_dec : EqDecision GraphHeadRef.
Proof. solve_decision. Defined.

Inductive CauseKind := CauseAction | CauseEvent.
#[export] Instance CauseKind_eq_dec : EqDecision CauseKind.
Proof. solve_decision. Defined.

Record TransitionCauseRef := {
  tc_kind : CauseKind; tc_action_index : option nat; tc_event_id : option string }.
#[export] Instance TransitionCauseRef_eq_dec : EqDecision TransitionCauseRef.
Proof. solve_decision. Defined.

(** [TransitionCauseRef.require_exact_reference]. *)
Definition require_exact_reference (c : TransitionCauseRef) : bool :=
  match tc_kind c, tc_action_index c, tc_event_id c with
  | CauseAction, Some _, None => true
  | CauseEvent, None, Some _ => true
  | _, _, _ => false
  end.

Definition action_cause (i : nat) : TransitionCauseRef :=
  {| tc_kind := CauseAction; tc_action_index := Some i; tc_event_id := None |}.

(** The one declared authority action, [Literal["decision_choice"]]. *)
Inductive AuthorityAction := DecisionChoice.
#[export] Instance AuthorityAction_eq_dec : EqDecision AuthorityAction.
Proof. solve_decision. Defined.

Record TransitionInitiatingGroup := {
  tig_group_id : string; tig_operation_indexes : list nat; tig_summary : string;
  tig_change_summary : list string; tig_human_action : option AuthorityAction;
  tig_agent_action : option AuthorityAction }.
#[export] Instance TransitionInitiatingGroup_eq_dec : EqDecision TransitionInitiatingGroup.
Proof. solve_decision. Defined.

Record TransitionGeneratedAction := {
  tga_operation_index : nat; tga_rule_id : string; tga_cause : TransitionCauseRef }.
#[export] Instance TransitionGeneratedAction_eq_dec : EqDecision TransitionGeneratedAction.
Proof. solve_decision. Defined.

Inductive EventType := NodeStatusChanged | GuidanceInvalidated | GuidanceRefreshed.
#[export] Instance EventType_eq_dec : EqDecision EventType.
Proof. solve_decision. Defined.

(** [str | bool | None]. *)
Inductive EventValue := EVNone | EVBool (b : bool) | EVStr (s : string).
#[export] Instance EventValue_eq_dec : EqDecision EventValue.
Proof. solve_decision. Defined.

Record TransitionEvent := {
  te_event_id : string; te_event_type : EventType; te_cause : TransitionCauseRef;
  te_node_id : string; te_field : string; te_before : EventValue; te_after : EventValue }.
#[export] Instance TransitionEvent_eq_dec : EqDecision TransitionEvent.
Proof. solve_decision. Defined.

Record TransitionTrace := {
  tt_transition_id : string; tt_pre_head : GraphHeadRef; tt_ruleset_tag : string;
  tt_initiating_groups : list TransitionInitiatingGroup;
  tt_generated_actions : list TransitionGeneratedAction;
  tt_lifecycle_events : list TransitionEvent;
  tt_expanded_ops_sha256 : string }.
#[export] Instance TransitionTrace_eq_dec : EqDecision TransitionTrace.
Proof. solve_decision. Defined.

Record GraphAttentionProjection := {
  gap_pending_proposal_ids : list string;
  gap_decisions_awaiting_choice_ids : list string;
  gap_open_blocker_ids : list string }.

Inductive GuidanceStatus := GuidanceEmpty | GuidanceCurrent | GuidanceStale.
#[export] Instance GuidanceStatus_eq_dec : EqDecision GuidanceStatus.
Proof. solve_decision. Defined.

Record GuidanceFieldValidity := {
  gfv_status : GuidanceStatus; gfv_invalidated_by_event_id : option string }.

Record ExperimentGuidanceValidity := {
  egv_current_summary : GuidanceFieldValidity; egv_next_action : GuidanceFieldValidity }.
