(* ===== verification/Identity.v ===== *)
(** Attribution, project identity and graph-branch records
    ([core/models.py]): the payloads that bind a Patch to humans, spaces,
    episodes and branch heads, with their coherence validators. *)

From Stdlib Require Import Ascii.
From S2P Require Export Models.

(** ** Canonical UUIDv4: [_canonical_uuid4]

    [str(uuid.UUID(value)) == value and parsed.version == 4] holds exactly of
    the 36-character lower-case hyphenated form with version nibble [4] and an
    RFC 4122 variant nibble. *)

Definition is_hex (c : Ascii.ascii) : bool :=
  let n := Ascii.N_of_ascii c in
  ((48 <=? n) && (n <=? 57) || (97 <=? n) && (n <=? 102))%N.

(** What each position of a canonical UUIDv4 accepts. *)
Inductive UuidSlot := SlotHex | SlotDash | SlotVersion | SlotVariant.

Definition uuid_slots : list UuidSlot :=
  replicate 8 SlotHex ++ [SlotDash] ++ replicate 4 SlotHex ++ [SlotDash] ++
  SlotVersion :: replicate 3 SlotHex ++ [SlotDash] ++
  SlotVariant :: replicate 3 SlotHex ++ [SlotDash] ++ replicate 12 SlotHex.

Definition slot_accepts (s : UuidSlot) (c : Ascii.ascii) : bool :=
  match s with
  | SlotHex => is_hex c
  | SlotDash => bool_decide (c = "-"%char)
  | SlotVersion => bool_decide (c = "4"%char)
  | SlotVariant => bool_decide (c ∈ ["8"; "9"; "a"; "b"]%char)
  end.

Fixpoint matches_slots (slots : list UuidSlot) (s : string) : bool :=
  match slots, s with
  | [], EmptyString => true
  | slot :: slots, String c s => slot_accepts slot c && matches_slots slots s
  | _, _ => false
  end.

Definition _canonical_uuid4 (value : string) : bool := matches_slots uuid_slots value.

(** [re.fullmatch(r"[0-9a-f]{64}", value)]. *)
Definition is_sha256 (value : string) : bool := matches_slots (replicate 64 SlotHex) value.

(** ** Humans and project identity *)

Record ProjectIdentity := {
  pi_project_id : string; pi_home_space_id : string; pi_action : string }.
#[export] Instance ProjectIdentity_eq_dec : EqDecision ProjectIdentity.
Proof. solve_decision. Defined.

Record AuthorizedHuman := {
  ah_space_id : string; ah_user_id : string; ah_display_name : string }.
#[export] Instance AuthorizedHuman_eq_dec : EqDecision AuthorizedHuman.
Proof. solve_decision. Defined.

Record ProjectHomeTransfer := {
  pht_project_id : string; pht_previous_home_space_id : string;
  pht_new_home_space_id : string; pht_source_released_by : AuthorizedHuman;
  pht_target_admitted_by : AuthorizedHuman }.
#[export] Instance ProjectHomeTransfer_eq_dec : EqDecision ProjectHomeTransfer.
Proof. solve_decision. Defined.

(** [ProjectHomeTransfer.authority_matches_both_space_scoped_boundaries]. *)
Definition authority_matches_both_space_scoped_boundaries (t : ProjectHomeTransfer) : bool :=
  if decide (pht_previous_home_space_id t = pht_new_home_space_id t) then false
  else if decide (ah_space_id (pht_source_released_by t) ≠ pht_previous_home_space_id t) then false
  else if decide (ah_space_id (pht_target_admitted_by t) ≠ pht_new_home_space_id t) then false
  else true.

(** ** Graph branches *)

Record GraphBranchMetadata := {
  gbm_branch_id : string; gbm_episode_id : string; gbm_project_id : string;
  gbm_base_head : GraphHeadRef; gbm_head : GraphHeadRef; gbm_created_at : Z;
  gbm_authorized_by : AuthorizedHuman }.

Definition is_main (h : GraphHeadRef) : bool := bool_decide (tgt_kind (head_target h) = TargetMain).
(** [head.target.kind == "branch" and head.target.branch_id == branch_id]. *)
Definition names_branch (h : GraphHeadRef) (branch_id : string) : bool :=
  bool_decide (tgt_kind (head_target h) = TargetBranch) &&
  bool_decide (tgt_branch_id (head_target h) = Some branch_id).

(** [GraphBranchMetadata.identity_and_heads_are_coherent]. *)
Definition identity_and_heads_are_coherent (b : GraphBranchMetadata) : bool :=
  if decide (gbm_branch_id b ≠ gbm_episode_id b) then false
  else if negb (is_main (gbm_base_head b)) then false
  else if negb (names_branch (gbm_head b) (gbm_branch_id b)) then false
  else if (head_revision (gbm_head b) <? head_revision (gbm_base_head b))%Z then false
  else if (head_revision (gbm_head b) =? head_revision (gbm_base_head b))%Z
       && bool_decide (head_transition_id (gbm_head b) ≠ head_transition_id (gbm_base_head b))
  then false else true.

Record BranchMergeProvenance := {
  bmp_merge_id : string; bmp_branch_id : string; bmp_episode_id : string;
  bmp_branch_base_head : GraphHeadRef; bmp_branch_head : GraphHeadRef;
  bmp_rebased_main_head : GraphHeadRef; bmp_merge_task_id : string }.
#[export] Instance BranchMergeProvenance_eq_dec : EqDecision BranchMergeProvenance.
Proof. solve_decision. Defined.

(** [BranchMergeProvenance.source_and_rebase_heads_are_coherent]. *)
Definition source_and_rebase_heads_are_coherent (p : BranchMergeProvenance) : bool :=
  if decide (bmp_branch_id p ≠ bmp_episode_id p) then false
  else if negb (is_main (bmp_branch_base_head p)) then false
  else if negb (names_branch (bmp_branch_head p) (bmp_branch_id p)) then false
  else if (head_revision (bmp_branch_head p) <? head_revision (bmp_branch_base_head p))%Z then false
  else if negb (is_main (bmp_rebased_main_head p)) then false
  else if (head_revision (bmp_rebased_main_head p) <? head_revision (bmp_branch_base_head p))%Z
  then false else true.

Inductive MergeOutcome := Committed | NoChange.
#[export] Instance MergeOutcome_eq_dec : EqDecision MergeOutcome.
Proof. solve_decision. Defined.

Record BranchMergeReceipt := {
  bmr_outcome : MergeOutcome; bmr_provenance : BranchMergeProvenance;
  bmr_result_main_head : GraphHeadRef; bmr_authorized_by : AuthorizedHuman;
  bmr_created_at : Z }.

(** [BranchMergeReceipt.committed_head_is_coherent]. *)
Definition committed_head_is_coherent (r : BranchMergeReceipt) : bool :=
  if negb (is_main (bmr_result_main_head r)) then false
  else match bmr_outcome r with
  | Committed =>
      if decide (head_transition_id (bmr_result_main_head r) = None) then false
      else if decide (head_revision (bmr_result_main_head r) ≠
                      head_revision (bmp_rebased_main_head (bmr_provenance r)) + 1)%Z
      then false else true
  | NoChange =>
      bool_decide (bmr_result_main_head r = bmp_rebased_main_head (bmr_provenance r))
  end.

Inductive MergeState := Unmerged | MergeRunning | Merged | NeedsAction | MergeFailed.
#[export] Instance MergeState_eq_dec : EqDecision MergeState.
Proof. solve_decision. Defined.

Record GraphBranchSummary := {
  gbs_branch_id : string; gbs_episode_id : string; gbs_base_head : GraphHeadRef;
  gbs_head : GraphHeadRef; gbs_merge_eligible : bool; gbs_merge_state : MergeState;
  gbs_latest_successful_merge : option BranchMergeReceipt;
  gbs_active_merge_task_id : option string; gbs_merge_diagnostic : option string }.

Definition is_some {A} (o : option A) : bool := match o with Some _ => true | None => false end.

(** [GraphBranchSummary.merge_projection_is_coherent]. *)
Definition merge_projection_is_coherent (s : GraphBranchSummary) : bool :=
  if decide (gbs_branch_id s ≠ gbs_episode_id s) then false
  else if negb (is_main (gbs_base_head s)) then false
  else if negb (names_branch (gbs_head s) (gbs_branch_id s)) then false
  else if xorb (bool_decide (gbs_merge_state s = MergeRunning)) (is_some (gbs_active_merge_task_id s))
  then false
  else if bool_decide (gbs_merge_state s = Merged) && negb (is_some (gbs_latest_successful_merge s))
  then false
  else if gbs_merge_eligible s && bool_decide (gbs_merge_state s = MergeRunning) then false
  else true.

(** ** Lemmas *)

Lemma matches_slots_length slots s :
  matches_slots slots s = true → String.length s = length slots.
Proof.
  revert s. induction slots as [|x slots IH]; intros [|c s]; simpl; try done.
  intros [_ H]%andb_true_iff. by rewrite (IH s H).
Qed.

(** The characters a slot pattern admits at a position. *)
Lemma matches_slots_get slots s i slot :
  matches_slots slots s = true → slots !! i = Some slot →
  ∃ c, String.get i s = Some c ∧ slot_accepts slot c = true.
Proof.
  revert s i. induction slots as [|x slots IH]; intros [|c s] [|i]; simpl; try done.
  - intros [H _]%andb_true_iff ?. simplify_eq. eauto.
  - intros [_ H]%andb_true_iff Hi. by apply IH.
Qed.

(** Destructs the tower of early returns of a validator. *)
Ltac case_guards H :=
  repeat match type of H with
  | context [if decide ?P then _ else _] => destruct (decide P); [try discriminate H|try discriminate H]
  | context [if negb ?b then _ else _] =>
      let E := fresh "G" in destruct b eqn:E; simpl in H; try discriminate H
  | context [if ?b then _ else _] =>
      let E := fresh "G" in destruct b eqn:E; try discriminate H
  end.

(** The head of an episode branch never precedes its immutable base. *)
Lemma branch_head_never_behind b :
  identity_and_heads_are_coherent b = true →
  (head_revision (gbm_base_head b) ≤ head_revision (gbm_head b))%Z ∧
  (head_revision (gbm_head b) = head_revision (gbm_base_head b) →
   head_transition_id (gbm_head b) = head_transition_id (gbm_base_head b)).
Proof.
  unfold identity_and_heads_are_coherent. intros H. case_guards H.
  split; [lia|]. intros Heq. apply andb_false_iff in G2 as [G2|G2]; [lia|].
  apply bool_decide_eq_false in G2. by apply dec_stable in G2.
Qed.
