(* ===== verification/Operations.v ===== *)
(** The graph operation vocabulary ([core/operations.py]) and the records that
    carry operations: Proposals, the graph state and Patches ([core/models.py]). *)

From S2P Require Export Identity.

(** ** Operation payloads *)

Inductive BeliefCause :=
  | EvidenceEdgeCause (ref_id : string)
  | DecisionCause (ref_id : string)
  | ProposalResolutionCause (ref_id : string)
  | HumanEditCause.
#[export] Instance BeliefCause_eq_dec : EqDecision BeliefCause.
Proof. solve_decision. Defined.

Record NodeUpdate := {
  nu_id : string; nu_changes : gmap string pyval; nu_cause : option BeliefCause;
  nu_base_updated_rev : option Z }.
#[export] Instance NodeUpdate_eq_dec : EqDecision NodeUpdate.
Proof. solve_decision. Defined.

Record SupersedeNode := {
  sn_id : string; sn_superseded_by : option string; sn_explanation : string;
  sn_cause : option BeliefCause }.
#[export] Instance SupersedeNode_eq_dec : EqDecision SupersedeNode.
Proof. solve_decision. Defined.

Record NodeMerge := {
  nm_duplicate : string; nm_canonical : string; nm_explanation : string;
  nm_cause : option BeliefCause }.
#[export] Instance NodeMerge_eq_dec : EqDecision NodeMerge.
Proof. solve_decision. Defined.

(** [ne_id] is [None] when the field is unset, [Some None] when it is an
    explicit null: [exclude_unset] tells the two apart. *)
Record NewEdge := {
  ne_id : option (option string); ne_source : string; ne_target : string;
  ne_relation : string; ne_explanation : string;
  ne_assessment : option EvidenceAssessment }.
#[export] Instance NewEdge_eq_dec : EqDecision NewEdge.
Proof. solve_decision. Defined.

(** The generated id [f"{source}::{relation}::{target}"]. *)
Definition generated_edge_id (source relation target : string) : string :=
  source +:+ "::" +:+ relation +:+ "::" +:+ target.

(** [edge.id or f"{source}::{relation}::{target}"]. *)
Definition new_edge_id (e : NewEdge) : string :=
  or_else (mjoin (ne_id e)) (generated_edge_id (ne_source e) (ne_relation e) (ne_target e)).

Record NewAmbiguity := {
  na_id : string; na_question : string; na_why_it_matters : string;
  na_candidates : list string; na_related_node_ids : list string;
  na_artifact_refs : list string; na_status : string }.
#[export] Instance NewAmbiguity_eq_dec : EqDecision NewAmbiguity.
Proof. solve_decision. Defined.

Record AmbiguityResolution := { ar_id : string; ar_status : string }.
#[export] Instance AmbiguityResolution_eq_dec : EqDecision AmbiguityResolution.
Proof. solve_decision. Defined.

Inductive ResolutionStatus := Approved | Rejected | Withdrawn.
#[export] Instance ResolutionStatus_eq_dec : EqDecision ResolutionStatus.
Proof. solve_decision. Defined.

Record ProposalResolution := {
  pr_id : string; pr_status : ResolutionStatus; pr_reason : option string }.
#[export] Instance ProposalResolution_eq_dec : EqDecision ProposalResolution.
Proof. solve_decision. Defined.

Record ProposalWithdrawal := { pw_id : string; pw_reason : string }.
#[export] Instance ProposalWithdrawal_eq_dec : EqDecision ProposalWithdrawal.
Proof. solve_decision. Defined.

Record NewGlossaryTerm := {
  ngt_term : string; ngt_plain_definition : string; ngt_where_defined : option string }.
#[export] Instance NewGlossaryTerm_eq_dec : EqDecision NewGlossaryTerm.
Proof. solve_decision. Defined.

(** Each field of a coverage update is [None] when it is unset. *)
Record CoverageUpdate := {
  cu_repositories_seen : option (list string);
  cu_repositories_never_seen : option (list string);
  cu_sessions_read : option (list string); cu_sessions_skipped : option (list string);
  cu_earliest_timestamp : option (option Z); cu_note : option string }.
#[export] Instance CoverageUpdate_eq_dec : EqDecision CoverageUpdate.
Proof. solve_decision. Defined.

Record RepositoryDescriptor := { rd_alias : string; rd_machine : string; rd_path : string }.
#[export] Instance RepositoryDescriptor_eq_dec : EqDecision RepositoryDescriptor.
Proof. solve_decision. Defined.

(** ** Proposal operations

    Each [Legacy...] class inherits from its current counterpart, so
    [isinstance] accepts both; the flag [legacy] tells them apart.  The payload
    of a protected relation change distinguishes unset from an explicit null. *)

Inductive RelationOp := RelCreateEdges | RelRemoveEdges.
#[export] Instance RelationOp_eq_dec : EqDecision RelationOp.
Proof. solve_decision. Defined.

Inductive ProposalOperation :=
  | ProposalContentChange (legacy : bool) (nodes : list NodeUpdate)
  | ProposalStatusChange (legacy : bool) (nodes : list NodeUpdate)
  | ProposalRemoval (legacy : bool) (node_ids : list string)
  | ProposalSupersede (legacy : bool) (nodes : list SupersedeNode)
  | ProposalMerge (legacy : bool) (merges : list NodeMerge)
  | ProposalProtectedRelation (legacy : bool) (op : RelationOp)
      (edges : option (option (list NewEdge))) (edge_ids : option (option (list string)))
  | LegacyProposalSetProjectTruthScope (truth_scope : list string)
      (repository : option RepositoryDescriptor)
  | LegacyProposalSetOntology (ontology : OntologyState)
  | LegacyProposalCreateNodes (nodes : list ProjectNode)
  | LegacyProposalCreateAmbiguities (ambiguities : list NewAmbiguity)
  | LegacyProposalResolveAmbiguities (resolutions : list AmbiguityResolution)
  | LegacyProposalUpsertGlossary (terms : list NewGlossaryTerm)
  | LegacyProposalSetCoverage (coverage : CoverageUpdate).
#[export] Instance ProposalOperation_eq_dec : EqDecision ProposalOperation.
Proof. solve_decision. Defined.

(** [ProposalProtectedRelationOperation.require_matching_payload]. *)
Definition require_matching_payload (op : RelationOp) (edges : option (list NewEdge))
    (edge_ids : option (list string)) : bool :=
  match op, edges, edge_ids with
  | RelCreateEdges, Some _, None => true
  | RelRemoveEdges, None, Some _ => true
  | _, _, _ => false
  end.

(** [operation.intent.startswith("legacy_")]. *)
Definition intent_is_legacy (op : ProposalOperation) : bool :=
  match op with
  | ProposalContentChange l _ | ProposalStatusChange l _ | ProposalRemoval l _
  | ProposalSupersede l _ | ProposalMerge l _ | ProposalProtectedRelation l _ _ _ => l
  | _ => true
  end.

(** ** Proposals *)

Inductive ProposalStatus := PPending | PApproved | PRejected | PWithdrawn.
#[export] Instance ProposalStatus_eq_dec : EqDecision ProposalStatus.
Proof. solve_decision. Defined.

Inductive Role := RAgent | RHuman.
#[export] Instance Role_eq_dec : EqDecision Role.
Proof. solve_decision. Defined.

Record Proposal := {
  prop_id : string; prop_title : string; prop_card : GatedCard;
  prop_ops : list ProposalOperation;
  prop_related_node_ids : list string; prop_related_edge_ids : list string;
  prop_related_config_keys : list string; prop_base_rev : Z;
  prop_status : ProposalStatus; prop_created_by : Role;
  prop_created_by_operation_id : option string; prop_raised_rev : Z;
  prop_resolved_rev : option Z; prop_resolved_by : option Role;
  prop_resolved_by_operation_id : option string;
  prop_resolution_reason : option string; prop_rejection_reason : option string;
  prop_fields_set : gset string }.
#[export] Instance Proposal_eq_dec : EqDecision Proposal.
Proof. solve_decision. Defined.

(** ** Graph operations *)

Inductive GraphOperation :=
  | CreateNodes (nodes : list ProjectNode)
  | UpdateNodes (nodes : list NodeUpdate)
  | CreateEdges (edges : list NewEdge)
  | RemoveEdges (edge_ids : list string)
  | RemoveNodes (node_ids : list string)
  | SupersedeNodes (nodes : list SupersedeNode)
  | MergeNodes (merges : list NodeMerge)
  | CreateAmbiguities (ambiguities : list NewAmbiguity)
  | ResolveAmbiguities (resolutions : list AmbiguityResolution)
  | CreateProposals (proposals : list Proposal)
  | ResolveProposals (resolutions : list ProposalResolution)
  | WithdrawProposals (proposals : list ProposalWithdrawal)
  | UpsertGlossary (terms : list NewGlossaryTerm)
  | SetCoverage (coverage : CoverageUpdate)
  | SetStanding (node_id : string) (standing : Standing)
  | SetProjectTruthScope (truth_scope : list string) (repository : option RepositoryDescriptor)
  | SetOntology (ontology : OntologyState).
#[export] Instance GraphOperation_eq_dec : EqDecision GraphOperation.
Proof. solve_decision. Defined.

(** The discriminator [operation.op]. *)
Definition op_name (op : GraphOperation) : string :=
  match op with
  | CreateNodes _ => "create_nodes" | UpdateNodes _ => "update_nodes"
  | CreateEdges _ => "create_edges" | RemoveEdges _ => "remove_edges"
  | RemoveNodes _ => "remove_nodes" | SupersedeNodes _ => "supersede_nodes"
  | MergeNodes _ => "merge_nodes" | CreateAmbiguities _ => "create_ambiguities"
  | ResolveAmbiguities _ => "resolve_ambiguities" | CreateProposals _ => "create_proposals"
  | ResolveProposals _ => "resolve_proposals" | WithdrawProposals _ => "withdraw_proposals"
  | UpsertGlossary _ => "upsert_glossary" | SetCoverage _ => "set_coverage"
  | SetStanding _ _ => "set_standing"
  | SetProjectTruthScope _ _ => "set_project_truth_scope" | SetOntology _ => "set_ontology"
  end.

(** Drop the Proposal-only intent.  The dumped document of a protected relation
    change keeps an explicit null of the other payload, which the strict graph
    operation refuses as an extra field. *)
Definition graph_operation_from_proposal (op : ProposalOperation) : res GraphOperation :=
  match op with
  | ProposalContentChange _ nodes | ProposalStatusChange _ nodes => Ok (UpdateNodes nodes)
  | ProposalRemoval _ ids => Ok (RemoveNodes ids)
  | ProposalSupersede _ nodes => Ok (SupersedeNodes nodes)
  | ProposalMerge _ merges => Ok (MergeNodes merges)
  | ProposalProtectedRelation _ RelCreateEdges (Some (Some edges)) None => Ok (CreateEdges edges)
  | ProposalProtectedRelation _ RelRemoveEdges None (Some (Some ids)) => Ok (RemoveEdges ids)
  | ProposalProtectedRelation _ _ _ _ => Raise ValidationError
  | LegacyProposalSetProjectTruthScope scope repo => Ok (SetProjectTruthScope scope repo)
  | LegacyProposalSetOntology o => Ok (SetOntology o)
  | LegacyProposalCreateNodes nodes => Ok (CreateNodes nodes)
  | LegacyProposalCreateAmbiguities l => Ok (CreateAmbiguities l)
  | LegacyProposalResolveAmbiguities l => Ok (ResolveAmbiguities l)
  | LegacyProposalUpsertGlossary l => Ok (UpsertGlossary l)
  | LegacyProposalSetCoverage c => Ok (SetCoverage c)
  end.

Fixpoint graph_operations_from_proposal (ops : list ProposalOperation) : res (list GraphOperation) :=
  match ops with
  | [] => Ok []
  | op :: ops =>
      g ← graph_operation_from_proposal op;
      gs ← graph_operations_from_proposal ops;
      Ok (g :: gs)
  end.

(** ** Graph state *)

Record BeliefTransition := {
  bt_hypothesis_id : string; bt_from_status : string; bt_to_status : string;
  bt_revision : Z; bt_cause : BeliefCause }.
#[export] Instance BeliefTransition_eq_dec : EqDecision BeliefTransition.
Proof. solve_decision. Defined.

Inductive ReplayStatus := ReplayComplete | ReplayDegraded.
#[export] Instance ReplayStatus_eq_dec : EqDecision ReplayStatus.
Proof. solve_decision. Defined.

Record GraphState := {
  gs_revision : Z; gs_project_truth_scope : list string;
  gs_config_revisions : gmap string Z;
  gs_nodes : gmap string ProjectNode; gs_edges : gmap string Edge;
  gs_proposals : gmap string Proposal; gs_ambiguities : gmap string Ambiguity;
  gs_glossary : gmap string GlossaryTerm; gs_ontology : OntologyState;
  gs_coverage : CoverageBoundary; gs_validation_messages : list ValidationMessage;
  gs_belief_transitions : list BeliefTransition; gs_replay_status : ReplayStatus;
  gs_replay_failure : option ReplayFailure; gs_last_refresh_at : option Z }.
#[export] Instance GraphState_eq_dec : EqDecision GraphState.
Proof. solve_decision. Defined.

Definition empty_ontology : OntologyState :=
  {| ont_types := []; ont_fields := []; ont_relations := [] |}.

(** [GraphState(project_truth_scope=...)]. *)
Definition initial_state (truth_scope : list string) : GraphState :=
  {| gs_revision := 0; gs_project_truth_scope := truth_scope; gs_config_revisions := ∅;
     gs_nodes := ∅; gs_edges := ∅; gs_proposals := ∅; gs_ambiguities := ∅;
     gs_glossary := ∅; gs_ontology := empty_ontology; gs_coverage := empty_coverage;
     gs_validation_messages := []; gs_belief_transitions := [];
     gs_replay_status := ReplayComplete; gs_replay_failure := None;
     gs_last_refresh_at := None |}.

(** ** Patches *)

Inductive PatchKind :=
  | KSeed | KRefresh | KChat | KWork | KExperimentLoop | KApproval | KIdentity.
#[export] Instance PatchKind_eq_dec : EqDecision PatchKind.
Proof. solve_decision. Defined.

Inductive Producer := PAgent | PHuman | PSystem.
#[export] Instance Producer_eq_dec : EqDecision Producer.
Proof. solve_decision. Defined.

Inductive AgentProfile := Ordinary | Orchestrator.
#[export] Instance AgentProfile_eq_dec : EqDecision AgentProfile.
Proof. solve_decision. Defined.

Inductive Admission := AdmissionAccepted | AdmissionRejected.
#[export] Instance Admission_eq_dec : EqDecision Admission.
Proof. solve_decision. Defined.

Record Patch := {
  p_schema_generation : Z; p_revision : Z; p_kind : PatchKind; p_author : option Role;
  p_producer : Producer; p_created_at : Z; p_summary : string; p_ops : list GraphOperation;
  p_run_truth_scope : list string; p_repositories_read : list string;
  p_processed_cursors : gmap string string; p_change_summary : list string;
  p_source_operation_id : option string; p_source_effect_id : option string;
  p_source_effect_sha256 : option string; p_human_action : option AuthorityAction;
  p_agent_action : option AuthorityAction; p_admission : Admission;
  p_admission_messages : list ValidationMessage;
  p_experiment_control_node_id : option string;
  p_experiment_decision_bundle : list ExperimentDecisionPin;
  p_project_identity : option ProjectIdentity;
  p_project_home_transfer : option ProjectHomeTransfer;
  p_authorized_by : option AuthorizedHuman; p_profile : option AgentProfile;
  p_task_id : option string; p_episode_id : option string;
  p_branch_merge : option BranchMergeProvenance; p_transition : option TransitionTrace }.
#[export] Instance Patch_eq_dec : EqDecision Patch.
Proof. solve_decision. Defined.

(** [Patch.reject_legacy_proposal_intents_in_current_generation]. *)
Definition reject_legacy_proposal_intents_in_current_generation (p : Patch) : bool :=
  if (p_schema_generation p =? 1)%Z then true
  else forallb (λ op, match op with
                      | CreateProposals ps =>
                          forallb (λ q, negb (existsb intent_is_legacy (prop_ops q))) ps
                      | _ => true
                      end) (p_ops p).

(** [Patch.branch_merge_attribution_is_complete]. *)
Definition branch_merge_attribution_is_complete (p : Patch) : bool :=
  match p_branch_merge p with
  | None => true
  | Some prov =>
      if negb (bool_decide (p_kind p = KWork)) || negb (bool_decide (p_author p = Some RAgent))
         || negb (bool_decide (p_producer p = PAgent))
         || negb (bool_decide (p_profile p = Some Orchestrator))
         || bool_decide (p_authorized_by p = None)
      then false
      else if decide (p_task_id p ≠ Some (bmp_merge_task_id prov)) then false
      else if decide (p_episode_id p ≠ Some (bmp_episode_id prov)) then false
      else match p_transition p with
           | Some tr => bool_decide (tt_pre_head tr = bmp_rebased_main_head prov)
           | None => true
           end
  end.

(** [patch.revision or None]. *)
Definition report_revision (p : Patch) : option Z :=
  if (p_revision p =? 0)%Z then None else Some (p_revision p).

(** ** Lemmas *)

(** No proposal operation replays as an operation that itself creates,
    resolves or withdraws Proposals, or reviews a node. *)
Definition semantic_replay_op (op : GraphOperation) : bool :=
  match op with
  | CreateProposals _ | ResolveProposals _ | WithdrawProposals _ | SetStanding _ _ => false
  | _ => true
  end.

Lemma graph_operation_from_proposal_semantic op g :
  graph_operation_from_proposal op = Ok g → semantic_replay_op g = true.
Proof.
  destruct op as [| | | | |? [] [[|]|] [[|]|]| | | | | | |]; simpl; intros; by simplify_eq/=.
Qed.

Lemma graph_operations_from_proposal_semantic ops gs :
  graph_operations_from_proposal ops = Ok gs → forallb semantic_replay_op gs = true.
Proof.
  revert gs. induction ops as [|op ops IH]; simpl; intros gs H; simplify_res; [done|].
  erewrite graph_operation_from_proposal_semantic by done. simpl. auto.
Qed.

Lemma graph_operations_from_proposal_length ops gs :
  graph_operations_from_proposal ops = Ok gs → length gs = length ops.
Proof.
  revert gs. induction ops as [|op ops IH]; simpl; intros gs H; simplify_res; [done|].
  simpl. f_equal. by apply IH.
Qed.
