(* ===== verification/Schema.v ===== *)
(** Node documents and the pydantic node adapter.

    [node_dump] is [model_dump(mode="python")], [node_getattr] is [getattr].
    The validator [TypeAdapter(ProjectNode).validate_python], strict or lax, and
    the datetime parser belong to pydantic and are the operations of the class
    [NodeAdapter]; [NodeAdapterLaws] states the documented behaviour the kernel
    relies on. *)

From Stdlib Require Import Ascii.
From S2P Require Export Operations.

(** ** Field tables: the declared fields of each node class *)

Definition base_node_fields : list string :=
  ["id"; "title"; "extension_type"; "extension_fields"; "standing"; "created_rev";
   "updated_rev"; "source_refs"].

Definition payload_fields (t : NodeType) : list string :=
  match t with
  | TResearchQuestion => ["type"; "question"; "motivation"; "scope"; "status"]
  | THypothesis => ["type"; "statement"; "rationale"; "predictions"; "scope"; "status"]
  | TDecision =>
      ["type"; "question"; "options"; "selected_option"; "rationale"; "consequences"; "status"]
  | TExperiment =>
      ["type"; "objective"; "design"; "expected_outcomes"; "interpretation_rules";
       "completion_criteria"; "invocation_ceiling"; "status"; "attempts"; "current_summary";
       "next_action"; "current_summary_stale"; "next_action_stale"]
  | TEvidence =>
      ["type"; "observation"; "interpretation"; "role"; "legacy_strength"; "validity"; "origin";
       "artifact_refs"]
  | TBlocker =>
      ["type"; "description"; "blocker_type"; "status"; "resolution_condition";
       "recommended_action"]
  end.

Definition node_fields (t : NodeType) : list string := base_node_fields ++ payload_fields t.

(** ** Dumps *)

Definition source_ref_dict (r : SourceRef) : pydict :=
  [("machine", PStr (sr_machine r)); ("truth_repository", PStr (sr_truth_repository r));
   ("source", PStr (sr_source r)); ("session_id", PStr (sr_session_id r));
   ("record_uuid", PStr (sr_record_uuid r)); ("timestamp", PTime (sr_timestamp r));
   ("excerpt", PStr (sr_excerpt r))].

Definition pin_dict (p : ExperimentDecisionPin) : pydict :=
  [("decision_id", PStr (pin_decision_id p)); ("decision_revision", PInt (pin_decision_revision p));
   ("selected_option", PStr (pin_selected_option p))].

Definition debug_dict (d : ExperimentAttemptDebug) : pydict :=
  [("mechanical_fault", PStr (dbg_mechanical_fault d)); ("change", PStr (dbg_change d));
   ("predicted_effect", PStr (dbg_predicted_effect d))].

(** Nested models dump to dictionaries; as attributes they are instances. *)
Inductive NestedForm := Dumped | Live.
Definition nested (f : NestedForm) (cls : string) (d : pydict) : pyval :=
  match f with Dumped => PDict d | Live => PModel cls d end.

Definition attempt_dict (f : NestedForm) (a : ExperimentAttempt) : pydict :=
  [("id", PStr (att_id a)); ("sequence", PInt (att_sequence a)); ("purpose", PStr (att_purpose a));
   ("attempt_kind", PStr (att_kind a));
   ("decision_bundle",
      PList ((λ p, nested f "ExperimentDecisionPin" (pin_dict p)) <$> att_decision_bundle a));
   ("debug", match att_debug a with
             | Some d => nested f "ExperimentAttemptDebug" (debug_dict d) | None => PNone end);
   ("configuration", PStr (att_configuration a)); ("status", PStr (att_status a));
   ("job_refs", py_strs (att_job_refs a));
   ("source_refs", PList ((λ r, nested f "SourceRef" (source_ref_dict r)) <$> att_source_refs a));
   ("outcome", py_opt_str (att_outcome a)); ("failure_reason", py_opt_str (att_failure_reason a));
   ("started_at", py_opt_time (att_started_at a)); ("finished_at", py_opt_time (att_finished_at a))].

Definition base_dict (f : NestedForm) (b : BaseNode) : pydict :=
  [("id", PStr (bn_id b)); ("title", PStr (bn_title b));
   ("extension_type", py_opt_str (bn_extension_type b));
   ("extension_fields", PDict (map_to_list (bn_extension_fields b)));
   ("standing", PStr (standing_str (bn_standing b)));
   ("created_rev", PInt (bn_created_rev b)); ("updated_rev", PInt (bn_updated_rev b));
   ("source_refs", PList ((λ r, nested f "SourceRef" (source_ref_dict r)) <$> bn_source_refs b))].

Definition payload_dict (f : NestedForm) (p : NodePayload) : pydict :=
  match p with
  | NResearchQuestion q =>
      [("type", PStr "research_question"); ("question", PStr (rq_question q));
       ("motivation", PStr (rq_motivation q)); ("scope", PStr (rq_scope q));
       ("status", PStr (rq_status q))]
  | NHypothesis h =>
      [("type", PStr "hypothesis"); ("statement", PStr (hyp_statement h));
       ("rationale", PStr (hyp_rationale h)); ("predictions", py_strs (hyp_predictions h));
       ("scope", PStr (hyp_scope h)); ("status", PStr (hyp_status h))]
  | NDecision d =>
      [("type", PStr "decision"); ("question", PStr (dec_question d));
       ("options", py_strs (dec_options d));
       ("selected_option", py_opt_str (dec_selected_option d));
       ("rationale", py_opt_str (dec_rationale d));
       ("consequences", py_strs (dec_consequences d)); ("status", PStr (dec_status d))]
  | NExperiment e =>
      [("type", PStr "experiment"); ("objective", PStr (exp_objective e));
       ("design", PStr (exp_design e)); ("expected_outcomes", py_strs (exp_expected_outcomes e));
       ("interpretation_rules", py_strs (exp_interpretation_rules e));
       ("completion_criteria", py_strs (exp_completion_criteria e));
       ("invocation_ceiling", PInt (exp_invocation_ceiling e)); ("status", PStr (exp_status e));
       ("attempts", PList ((λ a, nested f "ExperimentAttempt" (attempt_dict f a)) <$> exp_attempts e));
       ("current_summary", PStr (exp_current_summary e));
       ("next_action", py_opt_str (exp_next_action e));
       ("current_summary_stale", PBool (exp_current_summary_stale e));
       ("next_action_stale", PBool (exp_next_action_stale e))]
  | NEvidence e =>
      [("type", PStr "evidence"); ("observation", PStr (ev_observation e));
       ("interpretation", PStr (ev_interpretation e)); ("role", PStr (ev_role e));
       ("legacy_strength", py_opt_str (ev_legacy_strength e)); ("validity", PStr (ev_validity e));
       ("origin", PStr (ev_origin e)); ("artifact_refs", py_strs (ev_artifact_refs e))]
  | NBlocker b =>
      [("type", PStr "blocker"); ("description", PStr (blk_description b));
       ("blocker_type", PStr (blk_blocker_type b)); ("status", PStr (blk_status b));
       ("resolution_condition", PStr (blk_resolution_condition b));
       ("recommended_action", py_opt_str (blk_recommended_action b))]
  end.

(** [node.model_dump(mode="python")]. *)
Definition node_dump (n : ProjectNode) : pydict :=
  base_dict Dumped (node_base n) ++ payload_dict Dumped (node_payload n).

(** [node.model_dump(mode="python", exclude_unset=True)]. *)
Definition node_dump_set (n : ProjectNode) : pydict :=
  filter (λ kv, kv.1 ∈ bn_fields_set (node_base n)) (node_dump n).

(** [getattr(node, field)], [None] when there is no such attribute. *)
Definition node_getattr (n : ProjectNode) (field : string) : option pyval :=
  dget (base_dict Live (node_base n) ++ payload_dict Live (node_payload n)) field.

(** ** The adapter *)

Class NodeAdapter := {
  (** [NODE_ADAPTER.validate_python(data)] *)
  validate_python : pydict → res ProjectNode;
  (** [_PROJECT_NODE_ADAPTER.validate_python(data, strict=True)] *)
  validate_python_strict : pydict → res ProjectNode;
  (** [_DATETIME_ADAPTER.validate_python(text)] *)
  parse_datetime : string → res Z }.

Section strict.
Context `{NodeAdapter}.

(** [_wire_datetime]: a string shaped like an ISO date is parsed. *)
Definition _wire_datetime (value : pyval) : res pyval :=
  match value with
  | PStr s =>
      if (10 <=? String.length s)%nat
         && bool_decide (String.get 4 s = Some "-"%char)
         && bool_decide (String.get 7 s = Some "-"%char)
      then PTime <$> parse_datetime s else Ok value
  | _ => Ok value
  end.

(** Maps a fallible function over the elements of a list in order. *)
Fixpoint res_map {A B} (f : A → res B) (l : list A) : res (list B) :=
  match l with [] => Ok [] | x :: l => y ← f x; ys ← res_map f l; Ok (y :: ys) end.

(** [if key in d: d[key] = f(d[key])]. *)
Definition adapt_key (key : string) (f : pyval → res pyval) (d : pydict) : res pydict :=
  match dget d key with Some v => w ← f v; Ok (dset d key w) | None => Ok d end.

Definition _adapt_source_ref_datetimes (value : pyval) : res pyval :=
  match value with
  | PList l =>
      PList <$> res_map (λ r, match r with
                              | PDict d => PDict <$> adapt_key "timestamp" _wire_datetime d
                              | _ => Ok r
                              end) l
  | _ => Ok value
  end.

Definition adapt_attempt_datetimes (value : pyval) : res pyval :=
  match value with
  | PDict d =>
      d1 ← adapt_key "started_at" _wire_datetime d;
      d2 ← adapt_key "finished_at" _wire_datetime d1;
      PDict <$> adapt_key "source_refs" _adapt_source_ref_datetimes d2
  | _ => Ok value
  end.

(** [strict_project_node] on a dictionary.  A standing string is converted
    with [Standing(..)], which raises on an unknown value. *)
Definition strict_project_node (value : pydict) : res ProjectNode :=
  _ ← match dget value "standing" with
      | Some (PStr s) => require (is_some (standing_of s))
      | _ => Ok tt
      end;
  d1 ← adapt_key "source_refs" _adapt_source_ref_datetimes value;
  d2 ← (if get_is (dget d1 "type") "experiment"
        then adapt_key "attempts" (λ v, match v with
               | PList l => PList <$> res_map adapt_attempt_datetimes l
               | _ => Ok v
               end) d1
        else Ok d1);
  validate_python_strict d2.
End strict.

Lemma res_map_Forall2 {A B} (f : A → res B) l l' :
  res_map f l = Ok l' → Forall2 (λ x y, f x = Ok y) l l'.
Proof.
  revert l'. induction l as [|x l IH]; intros l' Hl; simpl in Hl; simplify_res; constructor; auto.
Qed.

(** What the kernel relies on: [extra="forbid"], the discriminator [type],
    verbatim [str] and [Literal] fields, and integers, booleans and the
    standing enum kept when supplied with their own type. *)
Record accepts (d : pydict) (n : ProjectNode) : Prop := {
  acc_type : dget d "type" = Some (PStr (node_type_str (node_type n)));
  acc_id : dget d "id" = Some (PStr (node_id n));
  acc_extra : ∀ k, dmem d k = true →
    k ∈ node_fields (node_type n) ∨ (k = "attempt_ceiling" ∧ node_type n = TExperiment);
  acc_status : ∀ v, dget d "status" = Some v → ∃ s, v = PStr s ∧ node_status n = Some s;
  acc_extension_type : ∀ v, dget d "extension_type" = Some v →
    v = py_opt_str (node_extension_type n);
  acc_created : ∀ z, dget d "created_rev" = Some (PInt z) → node_created_rev n = z;
  acc_updated : ∀ z, dget d "updated_rev" = Some (PInt z) → node_updated_rev n = z;
  acc_standing : ∀ s, dget d "standing" = Some (PStr (standing_str s)) → node_standing n = s;
  acc_summary_stale : ∀ b e, dget d "current_summary_stale" = Some (PBool b) →
    as_experiment n = Some e → exp_current_summary_stale e = b;
  acc_action_stale : ∀ b e, dget d "next_action_stale" = Some (PBool b) →
    as_experiment n = Some e → exp_next_action_stale e = b }.

Class NodeAdapterLaws `{NodeAdapter} : Prop := {
  validate_python_accepts d n : validate_python d = Ok n → accepts d n;
  validate_strict_accepts d n : validate_python_strict d = Ok n → accepts d n }.

(** ** Lemmas *)

Lemma node_type_str_inj t1 t2 : node_type_str t1 = node_type_str t2 → t1 = t2.
Proof. by destruct t1, t2. Qed.

Lemma standing_of_str s : standing_of (standing_str s) = Some s.
Proof. by destruct s. Qed.

Lemma standing_str_of s t : standing_of s = Some t → standing_str t = s.
Proof. unfold standing_of. intros. repeat case_decide; by simplify_eq/=. Qed.

Lemma node_dump_id n : dget (node_dump n) "id" = Some (PStr (node_id n)).
Proof. done. Qed.

Lemma node_dump_type n : dget (node_dump n) "type" = Some (PStr (node_type_str (node_type n))).
Proof. by destruct n as [? []]. Qed.

Lemma node_dump_created n : dget (node_dump n) "created_rev" = Some (PInt (node_created_rev n)).
Proof. done. Qed.

Lemma node_dump_extension_type n :
  dget (node_dump n) "extension_type" = Some (py_opt_str (node_extension_type n)).
Proof. done. Qed.

Lemma py_opt_str_inj a b : py_opt_str a = py_opt_str b → a = b.
Proof. destruct a, b; simpl; congruence. Qed.

(** The dumped keys are exactly the declared fields. *)
Lemma node_dump_keys n : dkeys (node_dump n) = node_fields (node_type n).
Proof. by destruct n as [? []]. Qed.

Section strict_lemmas.
Context `{NodeAdapter}.

Lemma adapt_key_other key f d d' k :
  adapt_key key f d = Ok d' → k ≠ key → dget d' k = dget d k.
Proof.
  unfold adapt_key. destruct (dget d key); intros H1 Hne; simplify_res; [|done].
  by rewrite dget_dset_ne.
Qed.

Lemma adapt_key_dmem key f d d' k :
  adapt_key key f d = Ok d' → dmem d' k = dmem d k.
Proof.
  unfold adapt_key. destruct (dget d key) eqn:Hk; intros; simplify_res; [|done].
  rewrite dmem_dset. case_bool_decide; subst; [|done]. unfold dmem. by rewrite Hk.
Qed.

(** [strict_project_node] accepts what the strict validator accepts: only the
    date fields of [source_refs] and [attempts] are rewritten first. *)
Lemma strict_project_node_accepts `{!NodeAdapterLaws} d n :
  strict_project_node d = Ok n → accepts d n.
Proof.
  unfold strict_project_node. intros Hs. simplify_res.
  assert (∀ k, k ≠ "source_refs" → k ≠ "attempts" → dget a1 k = dget d k) as Hget.
  { intros k H1 H2. transitivity (dget a0 k); [|by eapply adapt_key_other].
    case_match; [by eapply adapt_key_other|by simplify_eq]. }
  assert (∀ k, dmem a1 k = dmem d k) as Hmem.
  { intros k. transitivity (dmem a0 k); [|by eapply adapt_key_dmem].
    case_match; [by eapply adapt_key_dmem|by simplify_eq]. }
  apply validate_strict_accepts in Hs as [].
  constructor; intros *; rewrite <-?Hget, <-?Hmem by done; eauto.
Qed.
End strict_lemmas.

#[export] Hint Resolve node_dump_id node_dump_type node_dump_created
  node_dump_extension_type node_type_str_inj : rcp.
