(* ===== verification/Legacy.v ===== *)
(** Adapters of persisted documents ([core/operations.py]): historical Patches
    and snapshots are rewritten, in memory, into the current vocabulary before
    they are decoded.  A document is the tree JSON decodes to; Python copies it
    and edits the copy in place, here each adapter returns the edited tree. *)

From S2P Require Export Schema.

(** [for x in v: f(x)] when [v] is a list, and [f(v)] when [v] is a dict. *)
Definition each_item (f : pyval → res pyval) (v : pyval) : res pyval :=
  match v with PList l => PList <$> res_map f l | _ => Ok v end.

Definition on_dict (f : pydict → res pydict) (v : pyval) : res pyval :=
  match v with PDict d => PDict <$> f d | _ => Ok v end.

(** A value Python can hash: a key of a set or a dict. *)
Definition hashable (v : option pyval) : bool :=
  match v with Some (PList _ | PDict _ | PModel _ _) => false | _ => true end.

(** ** Records *)

Definition _adapt_legacy_evidence_record (assume_default_strength : bool) (record : pydict) : pydict :=
  let strength := dget record "strength" in
  let record := ddel record "strength" in
  let strength :=
    if negb (get_not_none strength) && assume_default_strength && negb (dmem record "role")
    then Some (PStr "preliminary") else strength in
  match strength with
  | None | Some PNone => record
  | Some s =>
      dset (dset record "role" (PStr (if get_is strength "diagnostic" then "diagnostic" else "result")))
        "legacy_strength" s
  end.

(** [if record.get(field): record[stale] = True]. *)
Definition mark_stale (field stale : string) (record : pydict) : pydict :=
  match dget record field with
  | Some v => if py_truthy v then dset record stale (PBool true) else record
  | None => record
  end.

Definition _adapt_legacy_experiment_record (record : pydict) : pydict :=
  if get_is (dget record "status") "blocked"
  then mark_stale "next_action" "next_action_stale"
         (mark_stale "current_summary" "current_summary_stale"
            (dset record "status" (PStr "unspecified")))
  else record.

(** ** Operations *)

(** One created node, and one update, of a legacy operation. *)
Definition adapt_created_node (legacy : bool) (node : pydict) : pydict :=
  if negb legacy then node
  else if get_is (dget node "type") "evidence" then _adapt_legacy_evidence_record true node
  else if get_is (dget node "type") "experiment" then _adapt_legacy_experiment_record node else node.

Definition adapt_changes (legacy : bool) (changes : pydict) : pydict :=
  if negb legacy then changes
  else _adapt_legacy_experiment_record
         (if dmem changes "strength" then _adapt_legacy_evidence_record false changes else changes).

Definition adapt_update (legacy : bool) (update : pydict) : res pydict :=
  adapt_key "changes" (on_dict (λ d, Ok (adapt_changes legacy d))) update.

Definition _adapt_legacy_node_operation (legacy : bool) : pyval → res pyval :=
  on_dict (λ op,
    if get_is (dget op "op") "create_nodes"
    then adapt_key "nodes" (each_item (on_dict (λ d, Ok (adapt_created_node legacy d)))) op
    else if get_is (dget op "op") "update_nodes"
    then adapt_key "nodes" (each_item (on_dict (adapt_update legacy))) op
    else Ok op).

(** The semantic operations an old approval wrote with their Proposal intent. *)
Definition recognized_intent (op : option pyval) : option string :=
  if get_is op "update_nodes" then Some "change"
  else if get_is op "remove_nodes" then Some "removal"
  else if get_is op "supersede_nodes" then Some "supersede"
  else if get_is op "merge_nodes" then Some "merge"
  else if get_in op ["create_edges"; "remove_edges"] then Some "protected_relation_change" else None.

Definition recognized (op intent : option pyval) : bool :=
  match recognized_intent op with
  | Some "change" => get_in intent ["content_change"; "status_change"]
  | Some name => get_is intent name
  | None => false
  end.

Definition _adapt_legacy_approval_operation : pyval → res pyval :=
  on_dict (λ op,
    if negb (hashable (dget op "op") && hashable (dget op "intent")) then Raise TypeErr
    else Ok (if recognized (dget op "op") (dget op "intent") then ddel op "intent" else op)).

Definition _adapt_legacy_ambiguity_operation : pyval → res pyval :=
  on_dict (λ op,
    if get_is (dget op "op") "create_ambiguities"
    then adapt_key "ambiguities" (each_item (on_dict (λ a, Ok (ddel a "raised_rev")))) op
    else Ok op).

(** ** Proposals *)

(** [set(changes) == {"status"}]. *)
Definition only_status (changes : pydict) : bool :=
  dmem changes "status" && forallb (λ k, str_eqb k "status") (dkeys changes).

(** A single update of a status, caused by an evidence edge. *)
Definition is_status_change (updates : option pyval) : bool :=
  match updates with
  | Some (PList [PDict u]) =>
      match dget u "changes", dget u "cause" with
      | Some (PDict changes), Some (PDict cause) =>
          only_status changes && get_is (dget cause "kind") "evidence_edge"
      | _, _ => false
      end
  | _ => false
  end.

Definition legacy_intent_table : list (string * string) :=
  [("create_nodes", "legacy_create_nodes"); ("create_ambiguities", "legacy_create_ambiguities");
   ("resolve_ambiguities", "legacy_resolve_ambiguities");
   ("upsert_glossary", "legacy_upsert_glossary"); ("set_coverage", "legacy_set_coverage");
   ("remove_nodes", "legacy_removal"); ("supersede_nodes", "legacy_supersede");
   ("merge_nodes", "legacy_merge"); ("create_edges", "legacy_protected_relation_change");
   ("remove_edges", "legacy_protected_relation_change");
   ("set_project_truth_scope", "legacy_project_truth_scope_change");
   ("set_ontology", "legacy_ontology_change")].

Definition _legacy_proposal_intent (op : pydict) : res (option string) :=
  let name := dget op "op" in
  if get_is name "update_nodes"
  then Ok (Some (if is_status_change (dget op "nodes") then "legacy_status_change"
                 else "legacy_content_change"))
  else if negb (hashable name) then Raise TypeErr
  else Ok (match name with Some (PStr s) => assoc s legacy_intent_table | _ => None end).

(** Give a nested operation of an old Proposal its intent. *)
Definition add_intent (legacy : bool) (op : pydict) : res pydict :=
  if negb legacy || dmem op "intent" then Ok op
  else intent ← _legacy_proposal_intent op;
       Ok (match intent with Some i => dset op "intent" (PStr i) | None => op end).

Definition adapt_proposal_operation (legacy : bool) (v : pyval) : res pyval :=
  w ← _adapt_legacy_node_operation legacy v;
  on_dict (add_intent legacy) w.

Definition _adapt_legacy_proposal_document (legacy : bool) : pyval → res pyval :=
  on_dict (adapt_key "ops" (each_item (adapt_proposal_operation legacy))).

(** ** Documents *)

(** The whole body of the loop over the operations of a Patch. *)
Definition adapt_proposals (legacy : bool) : pyval → res pyval :=
  on_dict (λ op,
    if get_is (dget op "op") "create_proposals"
    then adapt_key "proposals" (each_item (_adapt_legacy_proposal_document legacy)) op
    else Ok op).

Definition adapt_operation (legacy approval : bool) (v : pyval) : res pyval :=
  a ← (if legacy && approval then _adapt_legacy_approval_operation v else Ok v);
  b ← _adapt_legacy_node_operation legacy a;
  c ← (if legacy then _adapt_legacy_ambiguity_operation b else Ok b);
  adapt_proposals legacy c.

(** A current creation of Evidence with compatibility metadata. *)
Definition legacy_evidence (node : pyval) : bool :=
  match node with
  | PDict d => get_is (dget d "type") "evidence" && dmem d "legacy_strength"
  | _ => false
  end.

Definition creates_legacy_evidence (op : pyval) : bool :=
  match op with
  | PDict d =>
      get_is (dget d "op") "create_nodes" &&
      match dget d "nodes" with Some (PList nodes) => existsb legacy_evidence nodes | _ => false end
  | _ => false
  end.

Definition rename_campaign (d : pydict) : pydict :=
  match dget d "campaign_id" with
  | Some v => dset (ddel d "campaign_id") "episode_id" v
  | None => d
  end.

(** No marker, or the marker of the first generation. *)
Definition legacy_generation (d : pydict) : bool :=
  match dget d "schema_generation" with Some v => py_eqb v (PInt 1) | None => true end.

Definition with_marker (d : pydict) : pydict :=
  if dmem d "schema_generation" then d else dset d "schema_generation" (PInt 1).

Definition adapt_persisted_patch_document (document : pydict) : res pydict :=
  _ ← require (negb (dmem document "campaign_id" && dmem document "episode_id"));
  let renamed := rename_campaign document in
  let legacy := legacy_generation renamed in
  let adapted := with_marker renamed in
  if get_is (dget adapted "admission") "rejected" then Ok (dset adapted "ops" (PList []))
  else match dget adapted "ops" with
  | Some (PList ops) =>
      _ ← require (legacy || negb (existsb creates_legacy_evidence ops));
      ops' ← res_map (adapt_operation legacy (get_is (dget adapted "kind") "approval")) ops;
      Ok (dset adapted "ops" (PList ops'))
  | _ => Ok adapted
  end.

(** [for x in v.values(): f(x)] when [v] is a dict. *)
Definition each_value (f : pyval → res pyval) (v : pyval) : res pyval :=
  match v with
  | PDict d => PDict <$> res_map (λ kv, w ← f kv.2; Ok (kv.1, w)) d
  | _ => Ok v
  end.

Definition adapt_snapshot_node (node : pydict) : pydict :=
  if get_is (dget node "type") "evidence" then _adapt_legacy_evidence_record true node
  else if get_is (dget node "type") "experiment" then _adapt_legacy_experiment_record node else node.

Definition adapt_persisted_graph_state_document (document : pydict) : res pydict :=
  a ← adapt_key "nodes" (each_value (on_dict (λ d, Ok (adapt_snapshot_node d)))) document;
  adapt_key "proposals" (each_value (_adapt_legacy_proposal_document true)) a.

(** ** Idempotence *)

(** What [f] returns, [f] leaves alone. *)
Definition idempotent {A} (f : A → res A) : Prop := ∀ x y, f x = Ok y → f y = Ok y.

Section idempotence.
Implicit Types (d : pydict) (f g : pyval → res pyval).

Lemma adapt_key_fixed k f d :
  adapt_key k f d = Ok d ↔ ∀ v, dget d k = Some v → f v = Ok v.
Proof.
  unfold adapt_key. destruct (dget d k) as [v|] eqn:Hd; [|by split].
  split.
  - intros Hf w [= <-]. apply res_bind_ok in Hf as (w & Hw & Hs). apply Ok_inj in Hs.
    assert (dget (dset d k w) k = Some w) as Hg by apply dget_dset_eq.
    rewrite Hs, Hd in Hg. by simplify_eq.
  - intros Hv. rewrite (Hv v eq_refl). simpl. by rewrite dset_id.
Qed.

Lemma adapt_key_get k f d d' :
  adapt_key k f d = Ok d' →
  (∀ k', k' ≠ k → dget d' k' = dget d k') ∧
  dget d' k = match dget d k with
              | Some v => match f v with Ok w => Some w | Raise _ => None end | None => None end.
Proof.
  unfold adapt_key. destruct (dget d k) as [v|] eqn:Hd; [|by intros [= <-]].
  intros Hf. apply res_bind_ok in Hf as (w & Hw & Hs). apply Ok_inj in Hs as <-. rewrite Hw.
  split; [|apply dget_dset_eq]. intros. by rewrite dget_dset_ne.
Qed.

Lemma adapt_key_idempotent k f : idempotent f → idempotent (adapt_key k f).
Proof.
  intros Hf d d' Ha. apply adapt_key_fixed. intros v Hv.
  destruct (adapt_key_get _ _ _ _ Ha) as [_ Hg]. rewrite Hv in Hg.
  destruct (dget d k) as [u|]; [|done]. destruct (f u) as [w|] eqn:Hu; [|done].
  simplify_eq. by eapply Hf.
Qed.

Lemma res_map_idempotent {A} (f : A → res A) : idempotent f → idempotent (res_map f).
Proof.
  intros Hf l. induction l as [|x l IH]; intros l' Hl; simpl in Hl; [by simplify_eq|].
  apply res_bind_ok in Hl as (y & Hy & Hl). apply res_bind_ok in Hl as (ys & Hys & Hl).
  apply Ok_inj in Hl as <-. simpl. rewrite (Hf x y Hy). simpl. by rewrite (IH ys Hys).
Qed.

Lemma each_item_idempotent f : idempotent f → idempotent (each_item f).
Proof.
  intros Hf v w. destruct v as [| | | | | |l| |]; simpl; try (intros [= <-]; done).
  destruct (res_map f l) as [l'|] eqn:Hl; [|done]. intros [= <-]. simpl.
  by rewrite (res_map_idempotent f Hf l l' Hl).
Qed.

Lemma each_value_idempotent f : idempotent f → idempotent (each_value f).
Proof.
  intros Hf v w. destruct v as [| | | | | | |d|]; simpl; try (intros [= <-]; done).
  assert (idempotent (λ kv : string * pyval, w ← f kv.2; Ok (kv.1, w))) as Hi.
  { intros [k x] [k' y]. simpl. destruct (f x) as [z|] eqn:Hx; [|done]. intros [= <- <-].
    simpl. by rewrite (Hf x z Hx). }
  destruct (res_map _ d) as [d'|] eqn:Hl; [|done]. intros [= <-]. simpl.
  by rewrite (res_map_idempotent _ Hi _ _ Hl).
Qed.

Lemma on_dict_idempotent (h : pydict → res pydict) : idempotent h → idempotent (on_dict h).
Proof.
  intros Hh v w. destruct v as [| | | | | | |d|]; simpl; try (intros [= <-]; done).
  destruct (h d) as [d'|] eqn:Hd; [|done]. intros [= <-]. simpl. by rewrite (Hh d d' Hd).
Qed.

Lemma total_idempotent {A} (h : A → A) : (∀ x, h (h x) = h x) → idempotent (λ x, Ok (h x)).
Proof. intros Hh x y [= <-]. by rewrite Hh. Qed.

(** ** Records *)

Lemma evidence_record_idempotent b d :
  _adapt_legacy_evidence_record b (_adapt_legacy_evidence_record b d) =
  _adapt_legacy_evidence_record b d.
Proof.
  unfold _adapt_legacy_evidence_record at 2 3.
  set (s := if negb (get_not_none (dget d "strength")) && b && negb (dmem (ddel d "strength") "role")
            then Some (PStr "preliminary") else dget d "strength").
  assert (∀ r, dget r "strength" = None → b = false ∨ dmem r "role" = true →
    _adapt_legacy_evidence_record b r = r) as Hfix.
  { intros r Hr Hb. unfold _adapt_legacy_evidence_record. rewrite Hr, ddel_id by done. simpl.
    destruct Hb as [->| ->]; [done|]. by rewrite andb_false_r. }
  assert (∀ v, _adapt_legacy_evidence_record b
    (dset (dset (ddel d "strength") "role" v) "legacy_strength" (default PNone s)) =
    dset (dset (ddel d "strength") "role" v) "legacy_strength" (default PNone s)) as Hset.
  { intros v. apply Hfix; [by rewrite !dget_dset_ne, dget_ddel_eq|right]. by rewrite !dmem_dset. }
  assert (get_not_none s = false → _adapt_legacy_evidence_record b (ddel d "strength") = ddel d "strength") as Hnone.
  { intros Hs. apply Hfix; [by rewrite dget_ddel_eq|]. subst s.
    destruct (dmem (ddel d "strength") "role"); [by right|left]. simpl in Hs.
    destruct b; [|done]. by destruct (get_not_none (dget d "strength")) eqn:Hg; simpl in Hs; [congruence|]. }
  destruct s as [[]|] eqn:Hs; simpl in Hset; first [apply Hset|by apply Hnone].
Qed.

Lemma mark_stale_get field stale d k : k ≠ stale → dget (mark_stale field stale d) k = dget d k.
Proof.
  unfold mark_stale. intros Hk. destruct (dget d field) as [v|]; [|done].
  destruct (py_truthy v); [|done]. by rewrite dget_dset_ne.
Qed.

Lemma experiment_record_idempotent d :
  _adapt_legacy_experiment_record (_adapt_legacy_experiment_record d) =
  _adapt_legacy_experiment_record d.
Proof.
  unfold _adapt_legacy_experiment_record at 2 3. destruct (get_is _ _) eqn:Hs.
  - unfold _adapt_legacy_experiment_record. rewrite !mark_stale_get by done. by rewrite dget_dset_eq.
  - unfold _adapt_legacy_experiment_record. by rewrite Hs.
Qed.

(** The type of a record survives its adaptation. *)
Lemma evidence_record_get b d k :
  k ∉ ["strength"; "role"; "legacy_strength"] → dget (_adapt_legacy_evidence_record b d) k = dget d k.
Proof.
  intros Hk. unfold _adapt_legacy_evidence_record.
  destruct (if (_ : bool) then _ else _ : option pyval) as [[]|]; rewrite ?dget_dset_ne by set_solver;
    by rewrite dget_ddel_ne by set_solver.
Qed.

Lemma experiment_record_get d k :
  k ∉ ["status"; "current_summary_stale"; "next_action_stale"] →
  dget (_adapt_legacy_experiment_record d) k = dget d k.
Proof.
  intros Hk. unfold _adapt_legacy_experiment_record. destruct (get_is _ _); [|done].
  rewrite !mark_stale_get by set_solver. by rewrite dget_dset_ne by set_solver.
Qed.

Lemma created_node_idempotent legacy d :
  adapt_created_node legacy (adapt_created_node legacy d) = adapt_created_node legacy d.
Proof.
  unfold adapt_created_node. destruct legacy; [|done]. cbn [negb].
  destruct (get_is (dget d "type") "evidence") eqn:He.
  - rewrite evidence_record_get, He by by_decide. apply evidence_record_idempotent.
  - destruct (get_is (dget d "type") "experiment") eqn:Hx.
    + rewrite experiment_record_get, He, Hx by by_decide. apply experiment_record_idempotent.
    + by rewrite He, Hx.
Qed.

Lemma changes_idempotent legacy d : adapt_changes legacy (adapt_changes legacy d) = adapt_changes legacy d.
Proof.
  unfold adapt_changes. destruct legacy; [|done]. cbn [negb].
  set (e := if dmem d "strength" then _ else d).
  assert (dmem (_adapt_legacy_experiment_record e) "strength" = false) as ->.
  { unfold dmem. rewrite experiment_record_get by by_decide. subst e.
    destruct (dmem d "strength") eqn:Hs; [|exact Hs]. unfold _adapt_legacy_evidence_record.
    destruct (if (_ : bool) then _ else _ : option pyval) as [[]|]; by rewrite ?dget_dset_ne, dget_ddel_eq. }
  apply experiment_record_idempotent.
Qed.

(** ** Operations *)

(** A branch on the operation's name that edits another key. *)
Lemma branch_idempotent name k f (rest : pydict → res pydict) :
  k ≠ "op" → idempotent f →
  (∀ d d', rest d = Ok d' → dget d' "op" = dget d "op") → idempotent rest →
  idempotent (λ d, if get_is (dget d "op") name then adapt_key k f d else rest d).
Proof.
  intros Hk Hf Hrest Hi d d'. destruct (get_is (dget d "op") name) eqn:Hn; intros Ha.
  - destruct (adapt_key_get _ _ _ _ Ha) as [Hg _]. rewrite Hg, Hn by done.
    by eapply adapt_key_idempotent.
  - rewrite (Hrest _ _ Ha), Hn. by eapply Hi.
Qed.

Lemma branch_get name k f d d' k' :
  (if get_is (dget d "op") name then adapt_key k f d else Ok d) = Ok d' → k' ≠ k →
  dget d' k' = dget d k'.
Proof.
  destruct (get_is _ _); [|by intros [= <-]]. intros Ha Hk. destruct (adapt_key_get _ _ _ _ Ha) as [Hg _]. by apply Hg.
Qed.

Lemma ok_idempotent {A} : idempotent (@Ok A).
Proof. by intros x y _. Qed.

Lemma node_operation_idempotent legacy : idempotent (_adapt_legacy_node_operation legacy).
Proof.
  apply on_dict_idempotent, branch_idempotent; [done| | |].
  - apply each_item_idempotent, on_dict_idempotent, total_idempotent, created_node_idempotent.
  - intros d d' Hd. eapply branch_get; [exact Hd|done].
  - apply branch_idempotent; [done| | |apply ok_idempotent].
    + apply each_item_idempotent, on_dict_idempotent, adapt_key_idempotent, on_dict_idempotent,
        total_idempotent, changes_idempotent.
    + by intros d d' [= <-].
Qed.

(** What adapting an operation may touch: the listed keys. *)
Definition touches_only (keys : list string) (h : pyval → res pyval) : Prop :=
  ∀ v w, h v = Ok w → match v, w with
    | PDict d, PDict d' => ∀ k, k ∉ keys → dget d' k = dget d k
    | PDict _, _ => False
    | _, _ => w = v
    end.

Lemma on_dict_touches keys (h : pydict → res pydict) :
  (∀ d d' k, h d = Ok d' → k ∉ keys → dget d' k = dget d k) → touches_only keys (on_dict h).
Proof.
  intros Hh v w. destruct v as [| | | | | | |d|]; simpl; try (intros [= <-]; done).
  destruct (h d) as [d'|] eqn:Hd; [|done]. intros [= <-] k Hk. by eapply Hh.
Qed.

Lemma node_operation_touches legacy : touches_only ["nodes"] (_adapt_legacy_node_operation legacy).
Proof.
  apply on_dict_touches. intros d d' k Hd Hk. apply not_elem_of_cons in Hk as [Hk _].
  destruct (get_is _ _); [by apply (proj1 (adapt_key_get _ _ _ _ Hd))|]. eapply branch_get; [exact Hd|done].
Qed.

Lemma ambiguity_operation_touches : touches_only ["ambiguities"] _adapt_legacy_ambiguity_operation.
Proof.
  apply on_dict_touches. intros d d' k Hd Hk. apply not_elem_of_cons in Hk as [Hk _]. eapply branch_get; [exact Hd|done].
Qed.

Lemma proposals_touches legacy : touches_only ["proposals"] (adapt_proposals legacy).
Proof.
  apply on_dict_touches. intros d d' k Hd Hk. apply not_elem_of_cons in Hk as [Hk _]. eapply branch_get; [exact Hd|done].
Qed.

(** A fixed point of an adapter stays one when other keys are edited. *)
Definition reads_only (keys : list string) (h : pydict → res pydict) : Prop :=
  ∀ d d', (∀ k, k ∈ keys → dget d' k = dget d k) → h d = Ok d → h d' = Ok d'.

Lemma fixed_after keys others (h : pydict → res pydict) g v w :
  reads_only keys h → touches_only others g → (∀ k, k ∈ keys → k ∉ others) →
  on_dict h v = Ok v → g v = Ok w → on_dict h w = Ok w.
Proof.
  intros Hr Ht Hdis Hv Hg. specialize (Ht v w Hg).
  destruct v as [| | | | | | |d|]; try (by subst w). destruct w as [| | | | | | |d'|]; try done.
  simpl in *. destruct (h d) as [d2|] eqn:Hd; [|done]. injection Hv as ->.
  rewrite (Hr d d'); [done| |done]. intros k Hk. by apply Ht, Hdis.
Qed.

Lemma branch_reads name k f (rest : pydict → res pydict) :
  reads_only ["op"; k] rest →
  reads_only ["op"; k] (λ d, if get_is (dget d "op") name then adapt_key k f d else rest d).
Proof.
  intros Hrest d d' Hg. rewrite (Hg "op") by by left. destruct (get_is _ _); [|by apply Hrest].
  rewrite !adapt_key_fixed. rewrite (Hg k) by by right; left. done.
Qed.

Lemma ok_reads keys : reads_only keys Ok.
Proof. by intros d d' _ _. Qed.

Lemma approval_reads : reads_only ["op"; "intent"] (λ op,
  if negb (hashable (dget op "op") && hashable (dget op "intent")) then Raise TypeErr
  else Ok (if recognized (dget op "op") (dget op "intent") then ddel op "intent" else op)).
Proof.
  intros d d' Hg. rewrite (Hg "op") by by left. rewrite (Hg "intent") by by right; left.
  destruct (negb _); [done|]. destruct (recognized _ _) eqn:Hr; [|done]. intros [= Hd].
  assert (dget d "intent" = None) as Hn by (rewrite <-Hd; apply dget_ddel_eq).
  rewrite ddel_id; [done|]. by rewrite (Hg "intent") by by right; left.
Qed.

Lemma recognized_none op : recognized op None = false.
Proof. unfold recognized. by repeat case_match. Qed.

Lemma approval_idempotent : idempotent _adapt_legacy_approval_operation.
Proof.
  apply on_dict_idempotent. intros d d'. destruct (negb _) eqn:Hh; [done|].
  intros [= <-]. destruct (recognized (dget d "op") (dget d "intent")) eqn:Hr.
  - rewrite dget_ddel_ne, dget_ddel_eq by done. rewrite recognized_none.
    apply negb_false_iff, andb_true_iff in Hh as [-> _]. done.
  - by rewrite Hh, Hr.
Qed.

Lemma ambiguity_idempotent : idempotent _adapt_legacy_ambiguity_operation.
Proof.
  apply on_dict_idempotent, branch_idempotent; [done| |by intros d d' [= <-]|apply ok_idempotent].
  apply each_item_idempotent, on_dict_idempotent, total_idempotent. intros d.
  apply ddel_id, dget_ddel_eq.
Qed.

Lemma add_intent_idempotent legacy : idempotent (add_intent legacy).
Proof.
  intros d d'. unfold add_intent. destruct (negb legacy || dmem d "intent") eqn:Hc.
  { intros [= <-]. by rewrite Hc. }
  intros Ha. apply res_bind_ok in Ha as ([i|] & Hi & Ha); apply Ok_inj in Ha as <-.
  - rewrite dmem_dset. simpl. by rewrite orb_true_r.
  - by rewrite Hc, Hi.
Qed.

Lemma add_intent_touches legacy : touches_only ["intent"] (on_dict (add_intent legacy)).
Proof.
  apply on_dict_touches. intros d d' k Hd Hk. apply not_elem_of_cons in Hk as [Hk _].
  unfold add_intent in Hd. destruct (_ || _); [by injection Hd as <-|].
  apply res_bind_ok in Hd as ([i|] & _ & Ha); apply Ok_inj in Ha as <-; [|done].
  by rewrite dget_dset_ne.
Qed.

Lemma node_operation_reads legacy : reads_only ["op"; "nodes"] (λ op,
  if get_is (dget op "op") "create_nodes"
  then adapt_key "nodes" (each_item (on_dict (λ d, Ok (adapt_created_node legacy d)))) op
  else if get_is (dget op "op") "update_nodes"
  then adapt_key "nodes" (each_item (on_dict (adapt_update legacy))) op
  else Ok op).
Proof. apply branch_reads, branch_reads, ok_reads. Qed.

Lemma proposal_operation_idempotent legacy : idempotent (adapt_proposal_operation legacy).
Proof.
  intros v w Ha. unfold adapt_proposal_operation in *. apply res_bind_ok in Ha as (a & Ha & Hw).
  assert (_adapt_legacy_node_operation legacy w = Ok w) as ->.
  { apply (fixed_after ["op"; "nodes"] ["intent"] _ (on_dict (add_intent legacy)) a);
      [apply node_operation_reads|apply add_intent_touches|set_solver| |done].
    exact (node_operation_idempotent legacy v a Ha). }
  cbn [mbind res_bind]. eapply on_dict_idempotent; [apply add_intent_idempotent|done].
Qed.

Lemma proposals_idempotent legacy : idempotent (adapt_proposals legacy).
Proof.
  apply on_dict_idempotent, branch_idempotent; [done| |by intros d d' [= <-]|apply ok_idempotent].
  apply each_item_idempotent, on_dict_idempotent, adapt_key_idempotent, each_item_idempotent.
  apply proposal_operation_idempotent.
Qed.

Lemma operation_idempotent legacy approval : idempotent (adapt_operation legacy approval).
Proof.
  intros v w Hv. unfold adapt_operation in *.
  apply res_bind_ok in Hv as (a & Ha & Hv). apply res_bind_ok in Hv as (b & Hb & Hv).
  apply res_bind_ok in Hv as (c & Hc & Hw).
  assert (∀ keys h, reads_only keys h → (∀ k, k ∈ keys → k ∉ ["ambiguities"]) →
    (∀ k, k ∈ keys → k ∉ ["proposals"]) → on_dict h b = Ok b → on_dict h w = Ok w) as Hlate.
  { intros keys h Hr Hk1 Hk2 Hh. eapply fixed_after; [exact Hr|apply proposals_touches|exact Hk2| |exact Hw].
    destruct legacy; [|by simplify_eq]. by eapply fixed_after; [exact Hr|apply ambiguity_operation_touches| |exact Hh|]. }
  assert ((if legacy && approval then _adapt_legacy_approval_operation w else Ok w) = Ok w) as ->.
  { destruct (legacy && approval); [|done]. eapply Hlate; [apply approval_reads|set_solver..|].
    eapply fixed_after; [apply approval_reads|apply (node_operation_touches legacy)|set_solver| |exact Hb].
    by eapply approval_idempotent. }
  assert (_adapt_legacy_node_operation legacy w = Ok w) as Hn.
  { apply (Hlate _ _ (node_operation_reads legacy)); [set_solver..|].
    exact (node_operation_idempotent legacy a b Hb). }
  cbn [mbind res_bind]. rewrite Hn. cbn [mbind res_bind].
  assert ((if legacy then _adapt_legacy_ambiguity_operation w else Ok w) = Ok w) as ->.
  { destruct legacy; [|done]. eapply fixed_after; [|apply proposals_touches| | |exact Hw].
    - apply (branch_reads "create_ambiguities" "ambiguities"), ok_reads.
    - set_solver.
    - by eapply ambiguity_idempotent. }
  cbn [mbind res_bind]. by eapply proposals_idempotent.
Qed.

(** ** Current operations *)

Lemma each_item_current f : (∀ v, f v = Ok v) → ∀ v, each_item f v = Ok v.
Proof.
  intros Hf [| | | | | |l| |]; try done. simpl.
  assert (res_map f l = Ok l) as ->; [|done]. induction l as [|x l IH]; [done|]. simpl.
  rewrite Hf. simpl. by rewrite IH.
Qed.

Lemma adapt_key_current k f : (∀ v, f v = Ok v) → ∀ d, adapt_key k f d = Ok d.
Proof. intros Hf d. by apply adapt_key_fixed. Qed.

Lemma on_dict_current (h : pydict → res pydict) : (∀ d, h d = Ok d) → ∀ v, on_dict h v = Ok v.
Proof. intros Hh [| | | | | | |d|]; try done. simpl. by rewrite Hh. Qed.

Lemma node_operation_current v : _adapt_legacy_node_operation false v = Ok v.
Proof.
  apply on_dict_current. intros d. repeat destruct (get_is _ _); [..|done].
  - by apply adapt_key_current, each_item_current, on_dict_current.
  - by apply adapt_key_current, each_item_current, on_dict_current, adapt_key_current, on_dict_current.
Qed.

Lemma adapt_operation_current approval v : adapt_operation false approval v = Ok v.
Proof.
  unfold adapt_operation. simpl. rewrite node_operation_current. simpl.
  apply on_dict_current. intros d. destruct (get_is _ _); [|done].
  apply adapt_key_current, each_item_current, on_dict_current, adapt_key_current, each_item_current.
  intros w. unfold adapt_proposal_operation. rewrite node_operation_current. simpl.
  by apply on_dict_current.
Qed.

Lemma res_map_current {A} (f : A → res A) l : (∀ x, f x = Ok x) → res_map f l = Ok l.
Proof. intros Hf. induction l as [|x l IH]; [done|]. simpl. rewrite Hf. simpl. by rewrite IH. Qed.

(** ** Documents *)

(** The document before its operations are adapted. *)
Lemma marked_document d :
  let r := with_marker (rename_campaign d) in
  dmem d "campaign_id" && dmem d "episode_id" = false →
  dget r "campaign_id" = None ∧ dmem r "schema_generation" = true ∧
  legacy_generation r = legacy_generation (rename_campaign d).
Proof.
  intros r _. subst r. unfold with_marker.
  assert (dget (rename_campaign d) "campaign_id" = None) as Hc.
  { unfold rename_campaign. destruct (dget d "campaign_id") eqn:He; [|done].
    by rewrite dget_dset_ne, dget_ddel_eq. }
  destruct (dmem (rename_campaign d) "schema_generation") eqn:Hm; [done|].
  rewrite dget_dset_ne, dmem_dset by done. split; [done|]. split; [done|].
  unfold legacy_generation. rewrite dget_dset_eq. unfold dmem in Hm.
  by destruct (dget (rename_campaign d) "schema_generation").
Qed.

(** A document with the marker, and no campaign, goes straight to its operations. *)
Lemma adapt_marked r :
  dget r "campaign_id" = None → dmem r "schema_generation" = true →
  rename_campaign r = r ∧ with_marker r = r ∧ dmem r "campaign_id" && dmem r "episode_id" = false.
Proof.
  intros Hc Hm. unfold rename_campaign, with_marker. rewrite Hc, Hm. split; [done|]. split; [done|].
  unfold dmem. by rewrite Hc.
Qed.

(** C40: adaptation settles at once.  A persisted Patch document that was
    adapted to the current vocabulary is left exactly as it is by a second
    adaptation, whatever legacy fields, intents, campaigns, blocked
    Experiments or Evidence strengths it carried; so a Patch may be adapted at
    every boundary it crosses. *)
Theorem adapt_patch_document_idempotent : idempotent adapt_persisted_patch_document.
Proof.
  intros d d'. unfold adapt_persisted_patch_document at 1. intros Ha.
  apply res_bind_ok in Ha as (u & Hu%require_ok%negb_true_iff & Ha).
  destruct (marked_document d Hu) as (Hc & Hm & Hl). set (r := with_marker (rename_campaign d)) in *.
  set (legacy := legacy_generation (rename_campaign d)) in *.
  assert (∀ w, adapt_persisted_patch_document (dset r "ops" w) =
    if get_is (dget r "admission") "rejected" then Ok (dset (dset r "ops" w) "ops" (PList []))
    else match w with
    | PList ops =>
        _ ← require (legacy || negb (existsb creates_legacy_evidence ops));
        ops' ← res_map (adapt_operation legacy (get_is (dget r "kind") "approval")) ops;
        Ok (dset (dset r "ops" w) "ops" (PList ops'))
    | _ => Ok (dset r "ops" w)
    end) as Hagain.
  { intros w. destruct (adapt_marked (dset r "ops" w)) as (H1 & H2 & H3).
    { by rewrite dget_dset_ne. } { by rewrite dmem_dset. }
    unfold adapt_persisted_patch_document. rewrite H1, H2, H3. cbn [negb require mbind res_bind].
    assert (legacy_generation (dset r "ops" w) = legacy) as ->
      by (rewrite <-Hl; unfold legacy_generation; by rewrite dget_dset_ne).
    by rewrite dget_dset_eq, !dget_dset_ne by done. }
  assert (∀ w, dset (dset r "ops" w) "ops" w = dset r "ops" w) as Hss
    by (intros w; apply dset_id, dget_dset_eq).
  destruct (get_is (dget r "admission") "rejected") eqn:Hr.
  { apply Ok_inj in Ha as <-. rewrite Hagain. by rewrite Hss. }
  assert (∀ v, dget r "ops" = Some v → r = dset r "ops" v) as Hrw by (intros v Hv; by rewrite dset_id).
  destruct (dget r "ops") as [v|] eqn:Hops.
  - destruct v as [| | | | | |ops| |]; try (apply Ok_inj in Ha as <-; rewrite (Hrw _ eq_refl) at 1;
      rewrite Hagain; by rewrite <-Hrw).
    apply res_bind_ok in Ha as (u' & Hq%require_ok & Ha). apply res_bind_ok in Ha as (ops' & Ho & Ha).
    apply Ok_inj in Ha as <-. rewrite Hagain.
    rewrite (res_map_idempotent _ (operation_idempotent _ _) _ _ Ho).
    assert (require (legacy || negb (existsb creates_legacy_evidence ops')) = Ok tt) as ->.
    { destruct legacy eqn:Hleg; [done|]. rewrite res_map_current in Ho by apply adapt_operation_current.
      apply Ok_inj in Ho as <-. by rewrite Hq. }
    cbn [mbind res_bind]. by rewrite Hss.
  - apply Ok_inj in Ha as <-. destruct (adapt_marked r Hc Hm) as (H1 & H2 & H3).
    unfold adapt_persisted_patch_document. rewrite H1, H2, H3. cbn [negb require mbind res_bind].
    by rewrite Hr, Hops.
Qed.
End idempotence.
