(* ===== verification/Report.v ===== *)
(** Validation reports ([core/validation/report.py]): the ordered messages a
    validator produced.  A validator is a function returning the messages it
    appends. *)

From S2P Require Export Schema.

Notation ValidationReport := (list ValidationMessage).

Definition message_at (l : Level) (code : string) (revision : option Z)
    (nodes edges : list string) : ValidationReport :=
  [{| vm_level := l; vm_code := code; vm_patch_revision := revision;
      vm_related_node_ids := nodes; vm_related_edge_ids := edges |}].

(** [report.reject(code, _, revision, related_node_ids=.., related_edge_ids=..)]. *)
Definition reject (code : string) (revision : option Z) (nodes edges : list string) :
    ValidationReport := message_at Reject code revision nodes edges.

(** [report.flag(...)]. *)
Definition flag (code : string) (revision : option Z) (nodes edges : list string) :
    ValidationReport := message_at Flag code revision nodes edges.

Definition is_reject (m : ValidationMessage) : bool := bool_decide (vm_level m = Reject).

Definition rejected (r : ValidationReport) : bool := existsb is_reject r.

Definition flags (r : ValidationReport) : ValidationReport :=
  filter (λ m, vm_level m = Flag) r.

(** [sum(message.level == "reject" for message in report.messages)]. *)
Definition reject_count (r : ValidationReport) : nat :=
  length (filter (λ m, vm_level m = Reject) r).

(** Emit a report only when a condition holds. *)
Definition when (c : bool) (r : ValidationReport) : ValidationReport := if c then r else [].

(** ** Lemmas *)

Lemma rejected_app r1 r2 : rejected (r1 ++ r2) = rejected r1 || rejected r2.
Proof. apply existsb_app. Qed.

Lemma rejected_nil : rejected [] = false.
Proof. done. Qed.

Lemma rejected_reject code rev ns es : rejected (reject code rev ns es) = true.
Proof. done. Qed.

Lemma rejected_flag code rev ns es : rejected (flag code rev ns es) = false.
Proof. done. Qed.

Lemma rejected_when c r : rejected (when c r) = c && rejected r.
Proof. by destruct c. Qed.

Lemma rejected_concat (rs : list ValidationReport) :
  rejected (mjoin rs) = existsb rejected rs.
Proof. induction rs as [|r rs IH]; simpl; [done|]. by rewrite rejected_app, IH. Qed.

Lemma rejected_bind {A} (f : A → ValidationReport) (l : list A) :
  rejected (l ≫= f) = existsb (λ x, rejected (f x)) l.
Proof.
  induction l as [|x l IH]; [done|].
  rewrite bind_cons, rejected_app, IH. done.
Qed.

Lemma existsb_false {A} (f : A → bool) (l : list A) :
  existsb f l = false ↔ ∀ x, x ∈ l → f x = false.
Proof.
  induction l as [|x l IH]; simpl; [set_solver|].
  rewrite orb_false_iff, IH. setoid_rewrite elem_of_cons. naive_solver.
Qed.

Lemma existsb_true {A} (f : A → bool) (l : list A) :
  existsb f l = true ↔ ∃ x, x ∈ l ∧ f x = true.
Proof.
  rewrite existsb_exists. setoid_rewrite <-list_elem_of_In. done.
Qed.

Lemma rejected_bind_false {A} (f : A → ValidationReport) (l : list A) :
  rejected (l ≫= f) = false ↔ ∀ x, x ∈ l → rejected (f x) = false.
Proof. rewrite rejected_bind. apply existsb_false. Qed.

Lemma reject_count_zero r : reject_count r = 0 ↔ rejected r = false.
Proof.
  unfold reject_count, rejected. induction r as [|m r IH]; [done|].
  rewrite filter_cons. cbn [existsb]. unfold is_reject at 1. case_decide as E.
  - rewrite bool_decide_eq_true_2 by done. done.
  - rewrite bool_decide_eq_false_2 by done. apply IH.
Qed.

Lemma reject_count_app r1 r2 : reject_count (r1 ++ r2) = reject_count r1 + reject_count r2.
Proof. unfold reject_count. by rewrite filter_app, length_app. Qed.

(** Splits [rejected report = false] into one fact per contribution. *)
Ltac split_rejected H :=
  rewrite ?rejected_app, ?rejected_when, ?rejected_reject, ?rejected_flag, ?orb_false_iff,
    ?andb_true_r, ?andb_false_r in H; destruct_and? H.

#[export] Hint Rewrite rejected_app rejected_nil rejected_reject rejected_flag rejected_when
  andb_true_r andb_false_r orb_false_r : rcp.
