(* ===== verification/Ontology.v ===== *)
(** The project ontology ([core/ontology.py]): custom types, fields and
    relations, their structural and evolution rules, the extension fields of
    nodes, and the layer of an edge. *)

From S2P Require Export Report.

Definition BASE_TYPE_LAYERS (t : NodeType) : RelationLayer :=
  match t with
  | TResearchQuestion | THypothesis | TEvidence => Epistemic
  | TDecision | TExperiment | TBlocker => Action
  end.

Definition BASE_FIELD_NAMES : list string := base_node_fields ++ (all_node_types ≫= payload_fields).

(** [{key(item): item for item in items}]. *)
Definition dict_by {V} (key : V → string) (items : list V) : gmap string V :=
  foldl (λ m v, <[key v := v]> m) ∅ items.

(** ** Lookups *)

Definition custom_relation (o : OntologyState) (name : string) : option OntologyRelationDefinition :=
  find (λ r, str_eqb (ord_name r) name) (ont_relations o).

Definition ontology_type (o : OntologyState) (name : option pyval) : option OntologyTypeDefinition :=
  match name with
  | Some (PStr name) => find (λ t, str_eqb (otd_name t) name) (ont_types o)
  | _ => None
  end.

(** The layer of one edge, derived from the nodes it connects. *)
Definition edge_layer (nodes : gmap string ProjectNode) (source_id target_id : string)
    (declared : RelationLayer) : RelationLayer :=
  if decide (declared = Meta) then declared
  else match nodes !! source_id, nodes !! target_id with
  | Some s, Some t =>
      let ls := BASE_TYPE_LAYERS (node_type s) in
      let lt := BASE_TYPE_LAYERS (node_type t) in
      if decide (ls = lt) then ls else Seam
  | _, _ => declared
  end.

Definition semantic_type (n : ProjectNode) : string :=
  match node_extension_type n with Some e => e | None => node_type_str (node_type n) end.

(** [semantic_type] of a raw node dictionary. *)
Definition semantic_type_raw (d : pydict) : option string :=
  match dget d "extension_type", dget d "type" with
  | Some (PStr e), _ => Some e
  | _, Some (PStr b) => Some b
  | _, _ => None
  end.

(** The last created document with an id, [{raw.get("id"): raw for raw in ..}]. *)
Definition created_doc (created : list pydict) (id : string) : option pydict :=
  find (λ d, get_is (dget d "id") id) (reverse created).

Definition endpoint_semantic_type (nodes : gmap string ProjectNode) (created : list pydict)
    (id : string) : option (option string) :=
  match nodes !! id with
  | Some n => Some (Some (semantic_type n))
  | None => semantic_type_raw <$> created_doc created id
  end.

Definition opt_mem (x : option string) (l : list string) : bool :=
  match x with Some s => mem s l | None => false end.

Definition edge_matches_relation (nodes : gmap string ProjectNode) (source_id target_id : string)
    (relation : OntologyRelationDefinition) (created : list pydict) : bool :=
  match endpoint_semantic_type nodes created source_id,
        endpoint_semantic_type nodes created target_id with
  | Some s, Some t => opt_mem s (ord_source_types relation) && opt_mem t (ord_target_types relation)
  | _, _ => false
  end.

Definition applicable_field_definitions (o : OntologyState) (base_type extension_type : option pyval) :
    list OntologyFieldDefinition :=
  bfilter (λ f, get_is base_type (ofd_owner_type f) || get_is extension_type (ofd_owner_type f))
    (ont_fields o).

Definition field_applies (n : ProjectNode) (f : OntologyFieldDefinition) : bool :=
  str_eqb (ofd_owner_type f) (node_type_str (node_type n)) ||
  bool_decide (node_extension_type n = Some (ofd_owner_type f)).

Definition field_value_matches (f : OntologyFieldDefinition) (value : pyval) : bool :=
  match ofd_kind f, value with
  | KText, PStr _ => true
  | KNumber, (PInt _ | PFloat _ _) => true
  | KBoolean, PBool _ => true
  | KTextList, PList l => forallb is_str l
  | _, _ => false
  end.

(** ** Structure of an ontology *)

Definition validate_ontology_structure (o : OntologyState) (revision : option Z) : ValidationReport :=
  let known_types := ALL_NODE_TYPES ++ (otd_name <$> ont_types o) in
  (ont_types o ≫= λ t,
     when (mem (otd_name t) ALL_NODE_TYPES) (reject "base-ontology-collision" revision [] []) ++
     when (negb (bool_decide (otd_layer t = BASE_TYPE_LAYERS (otd_base_type t))))
       (reject "invalid-base-mapping" revision [] [])) ++
  (ont_fields o ≫= λ f,
     when (negb (mem (ofd_owner_type f) known_types))
       (reject "unknown-ontology-owner" revision [] []) ++
     when (mem (ofd_name f) BASE_FIELD_NAMES) (reject "base-ontology-collision" revision [] [])) ++
  (ont_types o ≫= λ t,
     let fields_of owner := ofd_name <$> filter (λ f, ofd_owner_type f = owner) (ont_fields o) in
     when (existsb (λ n, mem n (fields_of (node_type_str (otd_base_type t)))) (fields_of (otd_name t)))
       (reject "ontology-field-collision" revision [] [])) ++
  (ont_relations o ≫= λ r,
     when (is_some (RELATION_SPEC (ord_name r))) (reject "base-ontology-collision" revision [] []) ++
     when (negb (no_dup (ord_source_types r)) || negb (no_dup (ord_target_types r)))
       (reject "duplicate-relation-endpoint-type" revision [] []) ++
     when (existsb (λ n, negb (mem n known_types)) (ord_source_types r ++ ord_target_types r))
       (reject "unknown-relation-type" revision [] [])).

(** [parse_ontology_operation]. *)
Definition parse_ontology_operation (o : OntologyState) (revision : option Z) :
    OntologyState * ValidationReport := (o, validate_ontology_structure o revision).

(** ** Evolution of an ontology *)

Definition _require_deprecation_before_removal {V} (deprecated : V → bool)
    (previous desired : gmap string V) (revision : option Z) : ValidationReport :=
  sorted_set (dom previous ∖ dom desired) ≫= λ key,
    when (match previous !! key with Some v => negb (deprecated v) | None => false end)
      (reject "ontology-removal-without-deprecation" revision [] []).

(** The string of the key [(owner_type, name)]. *)
Definition field_key (f : OntologyFieldDefinition) : string :=
  "('" +:+ ofd_owner_type f +:+ "', '" +:+ ofd_name f +:+ "')".

Definition values {V} (m : gmap string V) : list V := (map_to_list m).*2.

(** [sorted({node for edge in edges for node in (edge.source, edge.target)})]. *)
Definition edge_endpoints (es : list Edge) : list string :=
  sorted_set (list_to_set (es ≫= λ e, [edge_source e; edge_target e])).

Definition validate_ontology_change (nodes : gmap string ProjectNode) (edges : gmap string Edge)
    (current desired : OntologyState) (revision : option Z) : ValidationReport :=
  let new_types := dict_by otd_name (ont_types desired) in
  let old_fields := dict_by field_key (ont_fields current) in
  let new_fields := dict_by field_key (ont_fields desired) in
  let new_relations := dict_by ord_name (ont_relations desired) in
  _require_deprecation_before_removal otd_deprecated
    (dict_by otd_name (ont_types current)) new_types revision ++
  _require_deprecation_before_removal ofd_deprecated old_fields new_fields revision ++
  _require_deprecation_before_removal ord_deprecated
    (dict_by ord_name (ont_relations current)) new_relations revision ++
  (ont_types current ≫= λ previous,
     match new_types !! otd_name previous with
     | Some cur =>
         when (negb (bool_decide (otd_base_type cur = otd_base_type previous)) ||
               negb (bool_decide (otd_layer cur = otd_layer previous)))
           (reject "ontology-type-remap" revision
              (py_sorted (node_id <$> filter (λ n, node_extension_type n = Some (otd_name previous))
                                        (values nodes))) [])
     | None => []
     end) ++
  (ont_fields desired ≫= λ cur,
     let previous := old_fields !! field_key cur in
     let applicable := bfilter (λ n, field_applies n cur) (values nodes) in
     let missing := py_sorted (node_id <$>
       filter (λ n, node_extension_fields n !! ofd_name cur = None) applicable) in
     let mismatched := py_sorted (node_id <$>
       bfilter (λ n, match node_extension_fields n !! ofd_name cur with
                     | Some v => negb (field_value_matches cur v) | None => false end) applicable) in
     when (ofd_required cur && match previous with Some p => negb (ofd_required p) | None => true end
           && negb (bool_decide (missing = [])))
       (reject "required-field-breaks-existing-nodes" revision missing []) ++
     when (match previous with Some p => negb (bool_decide (ofd_kind p = ofd_kind cur)) | None => false end
           && negb (bool_decide (mismatched = [])))
       (reject "field-kind-breaks-existing-nodes" revision mismatched [])) ++
  (ont_relations current ≫= λ previous,
     match new_relations !! ord_name previous with
     | None => []
     | Some cur =>
         let used := filter (λ e, edge_relation e = ord_name previous) (values edges) in
         let excluded := bfilter (λ e,
           negb (edge_matches_relation nodes (edge_source e) (edge_target e) cur [])) used in
         when (negb (bool_decide (ord_layer previous = ord_layer cur)) && negb (bool_decide (used = [])))
           (reject "relation-layer-breaks-existing-edges" revision (edge_endpoints used)
              (py_sorted (edge_id <$> used))) ++
         when (negb (bool_decide (excluded = [])))
           (reject "relation-narrowing-breaks-existing-edges" revision (edge_endpoints excluded)
              (py_sorted (edge_id <$> excluded)))
     end).

(** ** Extension fields of nodes *)

Definition id_list (node_id : option pyval) : list string :=
  match node_id with Some (PStr s) => [s] | _ => [] end.

Definition _validate_one_field (node_id : option pyval) (f : OntologyFieldDefinition) (value : pyval)
    (revision : option Z) (authoring agent_authored check_kind : bool) : ValidationReport :=
  when (check_kind && negb (field_value_matches f value))
    (reject "invalid-extension-field-kind" revision (id_list node_id) []) ++
  when (authoring && ofd_deprecated f)
    (reject "deprecated-extension-field" revision (id_list node_id) []) ++
  when (authoring && agent_authored && negb (ofd_agent_writable f))
    (reject "extension-field-human-only" revision (id_list node_id) []).

Definition missing_required (definitions : list OntologyFieldDefinition) (fields : pydict) : bool :=
  existsb (λ f, ofd_required f && negb (dmem fields (ofd_name f))) definitions.

Definition _validate_extension_fields (node_id : option pyval) (fields : pydict)
    (definitions : list OntologyFieldDefinition) (revision : option Z)
    (authoring agent_authored structural : bool) : ValidationReport :=
  let known := dict_by ofd_name definitions in
  when (structural && existsb (λ k, negb (is_some (known !! k))) (dkeys fields))
    (reject "unknown-extension-field" revision (id_list node_id) []) ++
  (fields ≫= λ '(name, value),
     match known !! name with
     | Some f => _validate_one_field node_id f value revision authoring agent_authored structural
     | None => []
     end) ++
  when (structural && missing_required definitions fields)
    (reject "missing-required-extension-field" revision (id_list node_id) []).

Definition validate_new_node_extensions (o : OntologyState) (raw : pydict) (revision : option Z)
    (authoring agent_authored : bool) : ValidationReport :=
  let base_type := dget raw "type" in
  let extension_type := dget raw "extension_type" in
  let fields := match dget raw "extension_fields" with Some v => v | None => PDict [] end in
  let definition := ontology_type o extension_type in
  when (get_not_none extension_type)
    match definition with
    | None => when (negb authoring) (reject "unknown-extension-type" revision [] [])
    | Some t =>
        if negb authoring && negb (get_is base_type (node_type_str (otd_base_type t)))
        then reject "invalid-extension-base" revision [] []
        else when (authoring && otd_deprecated t) (reject "deprecated-extension-type" revision [] [])
    end ++
  match fields with
  | PDict fields =>
      _validate_extension_fields (dget raw "id") fields
        (applicable_field_definitions o base_type extension_type) revision
        authoring agent_authored (negb authoring)
  | _ => []
  end.

(** The names on which the old and the new extension fields differ. *)
Definition changed_field_names (old : gmap string pyval) (fields : pydict) : list string :=
  bfilter (λ name,
    match old !! name, dget fields name with
    | Some a, Some b => negb (py_eqb a b)
    | None, None => false
    | _, _ => true
    end) (sorted_set (dom old ∪ list_to_set (dkeys fields))).

Definition validate_updated_extension_fields (o : OntologyState) (n : ProjectNode)
    (changes : gmap string pyval) (revision : option Z) (authoring agent_authored : bool) :
    ValidationReport :=
  match changes !! "extension_fields" with
  | Some (PDict fields) =>
      let definitions := applicable_field_definitions o (Some (PStr (node_type_str (node_type n))))
                           (Some (py_opt_str (node_extension_type n))) in
      let known := dict_by ofd_name definitions in
      (changed_field_names (node_extension_fields n) fields ≫= λ name,
         match known !! name with
         | None => when (negb authoring) (reject "unknown-extension-field" revision [node_id n] [])
         | Some f =>
             match dget fields name with
             | Some value =>
                 _validate_one_field (Some (PStr (node_id n))) f value revision
                   authoring agent_authored (negb authoring)
             | None => []
             end
         end) ++
      when (negb authoring && missing_required definitions fields)
        (reject "missing-required-extension-field" revision [node_id n] [])
  | _ => []
  end.

(** ** Properties of edge layers and lookups *)

Lemma edge_layer_meta nodes s t : edge_layer nodes s t Meta = Meta.
Proof. unfold edge_layer. by rewrite decide_True. Qed.

(** With both endpoints present the layer is a function of their types alone. *)
Lemma edge_layer_resolved nodes s t n m l :
  l ≠ Meta → nodes !! s = Some n → nodes !! t = Some m →
  edge_layer nodes s t l =
    if decide (BASE_TYPE_LAYERS (node_type n) = BASE_TYPE_LAYERS (node_type m))
    then BASE_TYPE_LAYERS (node_type n) else Seam.
Proof. intros Hl Hs Ht. unfold edge_layer. rewrite decide_False, Hs, Ht by done. done. Qed.

(** The derived layer only reads the endpoint types. *)
Lemma edge_layer_types nodes nodes' s t l :
  node_type <$> nodes !! s = node_type <$> nodes' !! s →
  node_type <$> nodes !! t = node_type <$> nodes' !! t →
  edge_layer nodes s t l = edge_layer nodes' s t l.
Proof.
  unfold edge_layer. intros Hs Ht. case_decide; [done|].
  destruct (nodes !! s), (nodes' !! s); simplify_eq/=; [|done].
  destruct (nodes !! t), (nodes' !! t); simplify_eq/=; [|done].
  by rewrite Hs, Ht.
Qed.

(** Deriving twice is deriving once: the layer of a resolved edge is stable. *)
Lemma edge_layer_idem nodes s t l :
  edge_layer nodes s t (edge_layer nodes s t l) = edge_layer nodes s t l.
Proof.
  unfold edge_layer. destruct (nodes !! s) as [n|], (nodes !! t) as [m|];
    try (repeat case_decide; done).
Qed.

Lemma custom_relation_name o name r : custom_relation o name = Some r → ord_name r = name ∧ r ∈ ont_relations o.
Proof.
  unfold custom_relation. intros [Hin Hn]%find_some. split; [|by apply list_elem_of_In].
  unfold str_eqb in Hn. by apply bool_decide_eq_true in Hn.
Qed.
