(* ===== verification/Control.v ===== *)
(** Experiment control and attention projections ([control.py],
    [core/attention.py]): what gates an Experiment loop, which pinned decisions
    drifted, when a watcher may wake the loop, and which graph objects await a
    human. *)

From S2P Require Export Ontology.

(** ** Data *)

Record DecisionDrift := {
  dd_decision_id : string; dd_pinned_option : string; dd_pinned_revision : Z;
  dd_current_option : option string; dd_current_status : option string }.

Record ExperimentSessionBinding := {
  esb_provider : option string; esb_model : option string; esb_reasoning : option string;
  esb_run_on : option string; esb_execution_host : option string;
  esb_run_truth_scope : option (list string); esb_native_session_bound : bool;
  esb_diagnostic : option string }.

Record ExperimentOperationalState := {
  eos_task_active : bool; eos_detached_work_active : bool; eos_watcher_degraded : bool;
  eos_watcher_completion_pending : bool; eos_episode_exited : bool; eos_episode_live : bool;
  eos_stop_requested : bool; eos_stop_settled : bool; eos_chat_id : option string;
  eos_current_operation_id : option string; eos_current_status : option string;
  eos_current_queued : bool; eos_current_active : bool; eos_current_awaiting_human : bool;
  eos_current_phase : option string; eos_current_status_message : option string;
  eos_current_last_activity_at : option string; eos_current_invocation : option Z;
  eos_session : ExperimentSessionBinding }.

(** [ExperimentOperationalState.stopping]. *)
Definition stopping (s : ExperimentOperationalState) : bool :=
  eos_stop_requested s && negb (eos_stop_settled s).

Definition default_session : ExperimentSessionBinding :=
  {| esb_provider := None; esb_model := None; esb_reasoning := None; esb_run_on := None;
     esb_execution_host := None; esb_run_truth_scope := None;
     esb_native_session_bound := false; esb_diagnostic := None |}.

Definition default_operational : ExperimentOperationalState :=
  {| eos_task_active := false; eos_detached_work_active := false; eos_watcher_degraded := false;
     eos_watcher_completion_pending := false; eos_episode_exited := false;
     eos_episode_live := false; eos_stop_requested := false; eos_stop_settled := false;
     eos_chat_id := None; eos_current_operation_id := None; eos_current_status := None;
     eos_current_queued := false; eos_current_active := false;
     eos_current_awaiting_human := false; eos_current_phase := None;
     eos_current_status_message := None; eos_current_last_activity_at := None;
     eos_current_invocation := None; eos_session := default_session |}.

Record ExperimentControlState := {
  ecs_ready : bool; ecs_reasons : list string; ecs_graph_reasons : list string;
  ecs_invocations_used : Z; ecs_invocation_ceiling : Z; ecs_invocations_remaining : Z;
  ecs_episode_id : option string; ecs_paused : bool; ecs_active : bool;
  ecs_governing_decisions : list ExperimentDecisionPin;
  ecs_decision_drift : list DecisionDrift; ecs_operational : ExperimentOperationalState }.

Record ExperimentGraphControl := { egc_ready : bool; egc_reasons : list string }.

Record GoverningDecisionDependency := {
  gdd_decision_id : string; gdd_status : option string;
  gdd_selected_option : option string; gdd_pending_proposal : bool }.
#[export] Instance GoverningDecisionDependency_eq_dec : EqDecision GoverningDecisionDependency.
Proof. solve_decision. Defined.

Record BlockerDependency := { bd_blocker_id : string; bd_status : option string }.
#[export] Instance BlockerDependency_eq_dec : EqDecision BlockerDependency.
Proof. solve_decision. Defined.

Record ExperimentControlDependencies := {
  ecd_gate_reasons : list string;
  ecd_governing_decisions : list GoverningDecisionDependency;
  ecd_blockers : list BlockerDependency }.
#[export] Instance ExperimentControlDependencies_eq_dec : EqDecision ExperimentControlDependencies.
Proof. solve_decision. Defined.

Record ActiveFlowProjection := {
  afp_revision : Z; afp_node_ids : list string; afp_edge_ids : list string }.

Record ExperimentInvocationAdmission := {
  eia_episode_id : string; eia_invocation : Z; eia_invocation_ceiling : Z;
  eia_decision_bundle : list ExperimentDecisionPin }.

(** ** Reading the graph *)

Definition _related_targets (st : GraphState) (source_id relation : string) : list string :=
  sorted_set (list_to_set (edge_target <$>
    bfilter (λ e, str_eqb (edge_source e) source_id && str_eqb (edge_relation e) relation)
      (values (gs_edges st)))).

Definition _op_target_ids (op : ProposalOperation) : list string :=
  match op with
  | ProposalContentChange _ nodes | ProposalStatusChange _ nodes => nu_id <$> nodes
  | ProposalSupersede _ nodes =>
      nodes ≫= λ i, sn_id i :: match sn_superseded_by i with Some t => [t] | None => [] end
  | ProposalMerge _ merges => merges ≫= λ i, [nm_duplicate i; nm_canonical i]
  | _ => []
  end.

Definition _proposal_changes (p : Proposal) (decision_id : string) : bool :=
  existsb (λ op, mem decision_id (_op_target_ids op)) (prop_ops p).

Definition _has_pending_proposal (st : GraphState) (decision_id : string) : bool :=
  existsb (λ p, bool_decide (prop_status p = PPending) && _proposal_changes p decision_id)
    (values (gs_proposals st)).

(** [node if isinstance(node, Decision) else None] and the like. *)
Definition get_decision (st : GraphState) (id : string) : option DecisionNode :=
  gs_nodes st !! id ≫= as_decision.
Definition get_blocker (st : GraphState) (id : string) : option BlockerNode :=
  gs_nodes st !! id ≫= as_blocker.
Definition get_experiment (st : GraphState) (id : string) : option ExperimentNode :=
  gs_nodes st !! id ≫= as_experiment.

(** [decision.status == "decided" and decision.selected_option]. *)
Definition is_decided (d : DecisionNode) : bool :=
  str_eqb (dec_status d) "decided" && truthy_opt (dec_selected_option d).

(** ** Drift and governing decisions *)

Definition pin_moved (st : GraphState) (pin : ExperimentDecisionPin) : bool :=
  match gs_nodes st !! pin_decision_id pin with
  | Some n =>
      match as_decision n with
      | Some d =>
          negb (str_eqb (dec_status d) "decided") ||
          negb (bool_decide (dec_selected_option d = Some (pin_selected_option pin))) ||
          negb (node_updated_rev n =? pin_decision_revision pin)%Z
      | None => true
      end
  | None => true
  end.

Definition decision_drift (st : GraphState) (pins : list ExperimentDecisionPin) : list DecisionDrift :=
  (λ pin,
     let d := get_decision st (pin_decision_id pin) in
     {| dd_decision_id := pin_decision_id pin; dd_pinned_option := pin_selected_option pin;
        dd_pinned_revision := pin_decision_revision pin;
        dd_current_option := d ≫= dec_selected_option;
        dd_current_status := dec_status <$> d |}) <$> bfilter (pin_moved st) pins.

Definition governing_decision_bundle (st : GraphState) (experiment_id : string) :
    list ExperimentDecisionPin :=
  _related_targets st experiment_id "governed_by" ≫= λ decision_id,
    match gs_nodes st !! decision_id with
    | Some n =>
        match as_decision n with
        | Some d =>
            match dec_selected_option d with
            | Some o =>
                if is_decided d
                then [{| pin_decision_id := node_id n; pin_decision_revision := node_updated_rev n;
                         pin_selected_option := o |}]
                else []
            | None => []
            end
        | None => []
        end
    | None => []
    end.

(** ** Graph gates *)

Definition decision_reasons (st : GraphState) (decision_id : string) : list string :=
  match get_decision st decision_id with
  | None => ["Governing decision " +:+ decision_id +:+ " is missing."]
  | Some d =>
      if is_decided d then []
      else ["Decision " +:+ decision_id +:+ " is not decided with a selected option."]
  end ++
  (if _has_pending_proposal st decision_id
   then ["Decision " +:+ decision_id +:+ " has a pending proposal."] else []).

Definition blocker_reasons (st : GraphState) (blocker_id : string) : list string :=
  match get_blocker st blocker_id with
  | None => ["Blocker " +:+ blocker_id +:+ " is missing."]
  | Some b =>
      if str_eqb (blk_status b) "open" then ["Blocker " +:+ blocker_id +:+ " is open."] else []
  end.

Definition graph_reasons (st : GraphState) (experiment_id : string) : list string :=
  (_related_targets st experiment_id "governed_by" ≫= decision_reasons st) ++
  (_related_targets st experiment_id "blocked_by" ≫= blocker_reasons st).

Definition experiment_graph_precondition_reasons (st : GraphState) (experiment_id : string) :
    res (list string) :=
  match get_experiment st experiment_id with
  | None => Raise ValueError
  | Some _ => Ok (graph_reasons st experiment_id)
  end.

Definition is_nil {A} (l : list A) : bool := match l with [] => true | _ => false end.

Definition experiment_graph_control (st : GraphState) (experiment_id : string) :
    res ExperimentGraphControl :=
  reasons ← experiment_graph_precondition_reasons st experiment_id;
  Ok {| egc_ready := is_nil reasons; egc_reasons := reasons |}.

Definition experiment_control_dependencies (st : GraphState) (experiment_id : string) :
    res ExperimentControlDependencies :=
  reasons ← experiment_graph_precondition_reasons st experiment_id;
  Ok {| ecd_gate_reasons := reasons;
        ecd_governing_decisions :=
          (λ id, let d := get_decision st id in
             {| gdd_decision_id := id; gdd_status := dec_status <$> d;
                gdd_selected_option := d ≫= dec_selected_option;
                gdd_pending_proposal := _has_pending_proposal st id |})
          <$> _related_targets st experiment_id "governed_by";
        ecd_blockers :=
          (λ id, {| bd_blocker_id := id; bd_status := blk_status <$> get_blocker st id |})
          <$> _related_targets st experiment_id "blocked_by" |}.

(** ** Control state *)

(** The pinned ceiling and decisions: of the episode, or of the node alone. *)
Definition runtime_binding (ceiling : Z) (episode_id : option string) (invocations_used : Z)
    (invocation_ceiling : option Z) (bundle : option (list ExperimentDecisionPin)) :
    res (Z * list ExperimentDecisionPin) :=
  match episode_id with
  | None =>
      if is_some invocation_ceiling || negb (invocations_used =? 0)%Z || is_some bundle
      then Raise ValueError else Ok (ceiling, [])
  | Some _ =>
      match invocation_ceiling with
      | None => Raise ValueError
      | Some c =>
          if (invocations_used <? 1)%Z then Raise ValueError
          else match bundle with None => Raise ValueError | Some pins => Ok (c, pins) end
      end
  end.

Definition operational_reasons (active detached : bool) (invocations_used ceiling : Z)
    (operational : option ExperimentOperationalState) : list string :=
  let r1 := if active then ["An experiment loop is already active."] else [] in
  let r2 := match operational with
            | Some o => if stopping o
                        then ["A graceful stop is finishing the current loop turn."] else []
            | None => []
            end in
  let r3 := if detached && (ceiling <=? invocations_used)%Z
            then ["Detached Experiment work is still running."] else [] in
  let r := r1 ++ r2 ++ r3 in
  match operational with
  | Some o => if eos_episode_live o && is_nil r
              then ["A previous episode is still open on this Experiment."] else r
  | None => r
  end.

Definition fresh_start_reasons (e : ExperimentNode) : list string :=
  if mem (exp_status e) CLOSED_EXPERIMENT_STATUSES
  then ["This Experiment is " +:+ exp_status e +:+
        ". Edit its status before starting a new episode."] else [].

Definition derive_experiment_control_state (st : GraphState) (experiment_id : string)
    (active_control_node_ids : list string) (episode_id : option string) (invocations_used : Z)
    (invocation_ceiling : option Z) (paused detached_work_active : bool)
    (episode_decision_bundle : option (list ExperimentDecisionPin))
    (operational : option ExperimentOperationalState) : res ExperimentControlState :=
  match get_experiment st experiment_id with
  | None => Raise ValueError
  | Some e =>
      control ← experiment_graph_control st experiment_id;
      let active := mem experiment_id active_control_node_ids in
      binding ← runtime_binding (exp_invocation_ceiling e) episode_id invocations_used
                  invocation_ceiling episode_decision_bundle;
      let '(ceiling, pins) := binding in
      if (ceiling <? 1)%Z then Raise ValidationError else
      let reasons := egc_reasons control ++ fresh_start_reasons e ++
        operational_reasons active detached_work_active invocations_used ceiling operational in
      Ok {| ecs_ready := is_nil reasons; ecs_reasons := reasons;
            ecs_graph_reasons := egc_reasons control;
            ecs_invocations_used := invocations_used; ecs_invocation_ceiling := ceiling;
            ecs_invocations_remaining := Z.max (ceiling - invocations_used) 0;
            ecs_episode_id := episode_id; ecs_paused := paused; ecs_active := active;
            ecs_governing_decisions := governing_decision_bundle st experiment_id;
            ecs_decision_drift := decision_drift st pins;
            ecs_operational := default default_operational operational |}
  end.

(** ** Watcher admission *)

Definition admit_experiment_watcher_invocation (st : GraphState) (experiment_id : string)
    (episode_id : option string) (invocations_used : Z) (invocation_ceiling : option Z)
    (decision_bundle : option (list ExperimentDecisionPin))
    (task_active episode_exited stop_requested : bool) :
    res (option ExperimentInvocationAdmission) :=
  match episode_id, invocation_ceiling with
  | None, _ | _, None => Raise ValueError
  | Some episode_id, Some ceiling =>
      if (invocations_used <? 1)%Z then Raise ValueError
      else match decision_bundle with
      | None => Raise ValueError
      | Some bundle =>
          if task_active || episode_exited || stop_requested then Ok None
          else if (ceiling <=? invocations_used)%Z then Ok None
          else
            reasons ← experiment_graph_precondition_reasons st experiment_id;
            if negb (is_nil reasons) then Ok None
            else Ok (Some {| eia_episode_id := episode_id; eia_invocation := invocations_used + 1;
                             eia_invocation_ceiling := ceiling; eia_decision_bundle := bundle |})
      end
  end.

(** ** Active flow *)

Definition is_active_flow_node (include_resolved_blockers : bool) (n : ProjectNode) : bool :=
  negb (match as_blocker n with Some b => str_eqb (blk_status b) "resolved" | None => false end
        && negb include_resolved_blockers).

Definition active_flow_projection (st : GraphState) (include_resolved_blockers : bool) :
    ActiveFlowProjection :=
  let node_ids := py_sorted (fst <$>
    bfilter (λ kn, is_active_flow_node include_resolved_blockers kn.2) (map_to_list (gs_nodes st))) in
  {| afp_revision := gs_revision st; afp_node_ids := node_ids;
     afp_edge_ids := py_sorted (fst <$>
       bfilter (λ ke, mem (edge_source ke.2) node_ids && mem (edge_target ke.2) node_ids)
         (map_to_list (gs_edges st))) |}.

(** ** Attention *)

Definition decision_awaits_choice (n : ProjectNode) : bool :=
  match as_decision n with
  | Some d => mem (dec_status d) ["ready"; "revisit"]
  | None => false
  end.

Definition open_asserted_blocker (n : ProjectNode) : bool :=
  match as_blocker n with
  | Some b => str_eqb (blk_status b) "open" && bool_decide (node_standing n = Asserted)
  | None => false
  end.

Definition project_graph_attention (st : GraphState) : res GraphAttentionProjection :=
  _ ← require (forallb (λ kn, str_eqb kn.1 (node_id kn.2)) (map_to_list (gs_nodes st)));
  _ ← require (forallb (λ kp, str_eqb kp.1 (prop_id kp.2)) (map_to_list (gs_proposals st)));
  Ok {| gap_pending_proposal_ids := py_sorted (fst <$>
          bfilter (λ kp, bool_decide (prop_status kp.2 = PPending)) (map_to_list (gs_proposals st)));
        gap_decisions_awaiting_choice_ids := py_sorted (node_id <$>
          bfilter decision_awaits_choice (values (gs_nodes st)));
        gap_open_blocker_ids := py_sorted (node_id <$>
          bfilter open_asserted_blocker (values (gs_nodes st))) |}.

(** ** Properties *)

Section properties.
Implicit Types (st : GraphState) (e d b : string).

Lemma elem_of_values {V} (m : gmap string V) v : v ∈ values m ↔ ∃ k, m !! k = Some v.
Proof.
  unfold values. rewrite list_elem_of_fmap. split.
  - intros ([k w] & -> & H). exists k. by apply elem_of_map_to_list.
  - intros [k H]. exists (k, v). split; [done|]. by apply elem_of_map_to_list.
Qed.

Lemma elem_of_related_targets st e rel t :
  t ∈ _related_targets st e rel ↔
  ∃ k ed, gs_edges st !! k = Some ed ∧ edge_source ed = e ∧ edge_relation ed = rel ∧
          edge_target ed = t.
Proof.
  unfold _related_targets. rewrite elem_of_sorted_set, elem_of_list_to_set, list_elem_of_fmap.
  setoid_rewrite elem_of_bfilter. setoid_rewrite elem_of_values.
  unfold str_eqb. setoid_rewrite andb_true_iff. setoid_rewrite bool_decide_eq_true.
  naive_solver.
Qed.

Lemma and_iff_compat (A A' B B' : Prop) : (A ↔ A') → (B ↔ B') → A ∧ B ↔ A' ∧ B'.
Proof. tauto. Qed.

Lemma is_nil_true {A} (l : list A) : is_nil l = true ↔ l = [].
Proof. by destruct l. Qed.

(** A gating decision or blocker contributes no reason exactly when it is settled. *)
Definition decision_settled st d : Prop :=
  (∃ dn, get_decision st d = Some dn ∧ dec_status dn = "decided" ∧
         truthy_opt (dec_selected_option dn) = true) ∧
  _has_pending_proposal st d = false.
Definition blocker_settled st b : Prop :=
  ∃ bn, get_blocker st b = Some bn ∧ blk_status bn ≠ "open".

Lemma decision_reasons_nil st d : decision_reasons st d = [] ↔ decision_settled st d.
Proof.
  unfold decision_reasons, decision_settled, is_decided, str_eqb. rewrite app_nil.
  apply and_iff_compat.
  - destruct (get_decision st d) as [dn|]; [|split; [done|by intros (? & ? & _)]].
    destruct (bool_decide (dec_status dn = "decided") && truthy_opt (dec_selected_option dn)) eqn:E.
    + apply andb_true_iff in E as [E1%bool_decide_eq_true E2]. split; [eauto|done].
    + split; [done|]. intros (dn' & [= <-] & H1 & H2).
      by rewrite H2, bool_decide_eq_true_2 in E.
  - by destruct (_has_pending_proposal st d).
Qed.

Lemma blocker_reasons_nil st b : blocker_reasons st b = [] ↔ blocker_settled st b.
Proof.
  unfold blocker_reasons, blocker_settled, str_eqb.
  destruct (get_blocker st b) as [bn|]; [|naive_solver]. case_bool_decide; naive_solver.
Qed.

Lemma graph_reasons_nil st e :
  graph_reasons st e = [] ↔
  (∀ d, d ∈ _related_targets st e "governed_by" → decision_settled st d) ∧
  (∀ b, b ∈ _related_targets st e "blocked_by" → blocker_settled st b).
Proof.
  unfold graph_reasons. split.
  - intros [H1 H2]%app_nil. rewrite bind_nil in H1. rewrite bind_nil in H2.
    setoid_rewrite decision_reasons_nil in H1. setoid_rewrite blocker_reasons_nil in H2. done.
  - intros [H1 H2]. apply app_nil. rewrite !bind_nil.
    setoid_rewrite decision_reasons_nil. setoid_rewrite blocker_reasons_nil. done.
Qed.

(** Graph readiness is exact.  An Experiment is graph-ready exactly when
    every decision it is governed by is decided with a selected option and has
    no pending Proposal that would change it, and every blocker it is blocked
    by exists and is not open. *)
Theorem experiment_graph_control_ready_iff st e c :
  experiment_graph_control st e = Ok c →
  egc_ready c = true ↔
  (∀ k ed, gs_edges st !! k = Some ed → edge_source ed = e →
     edge_relation ed = "governed_by" → decision_settled st (edge_target ed)) ∧
  (∀ k ed, gs_edges st !! k = Some ed → edge_source ed = e →
     edge_relation ed = "blocked_by" → blocker_settled st (edge_target ed)).
Proof.
  unfold experiment_graph_control, experiment_graph_precondition_reasons.
  destruct (get_experiment st e); simpl; intros Hc; simplify_eq/=.
  rewrite is_nil_true, graph_reasons_nil. setoid_rewrite elem_of_related_targets.
  split; intros [H1 H2]; split; naive_solver.
Qed.

(** Watcher admission is exact.  A watcher wakes the loop exactly when no
    task is running, the episode has neither exited nor been asked to stop,
    the pinned ceiling is not spent and the graph gates are open; the admitted
    invocation is the next one and never exceeds the ceiling. *)
Theorem watcher_admission_iff st e ep used ceiling bundle task exited stop a :
  admit_experiment_watcher_invocation st e (Some ep) used (Some ceiling) (Some bundle)
    task exited stop = Ok (Some a) ↔
  (1 ≤ used < ceiling)%Z ∧ task = false ∧ exited = false ∧ stop = false ∧
  (∃ n, get_experiment st e = Some n) ∧ graph_reasons st e = [] ∧
  a = {| eia_episode_id := ep; eia_invocation := used + 1;
         eia_invocation_ceiling := ceiling; eia_decision_bundle := bundle |} ∧
  (eia_invocation a ≤ eia_invocation_ceiling a)%Z.
Proof.
  unfold admit_experiment_watcher_invocation, experiment_graph_precondition_reasons.
  destruct (Z.ltb_spec used 1); [naive_solver lia|].
  destruct task, exited, stop; simpl; try naive_solver.
  destruct (Z.leb_spec ceiling used); [naive_solver lia|].
  destruct (get_experiment st e) as [n|]; simpl; [|naive_solver].
  destruct (graph_reasons st e) eqn:Er; simpl; [|naive_solver].
  split.
  - intros Ha. simplify_eq/=. repeat (split; [done || lia|]).
    split; [eauto|]. repeat (split; [done|]). lia.
  - intros (_ & _ & _ & _ & _ & _ & -> & _). done.
Qed.

(** Every node is stored under its own id. *)
Definition nodes_keyed st : Prop := ∀ k n, gs_nodes st !! k = Some n → node_id n = k.

Lemma elem_of_governing_bundle st e pin :
  pin ∈ governing_decision_bundle st e ↔
  ∃ d n dn, d ∈ _related_targets st e "governed_by" ∧ gs_nodes st !! d = Some n ∧
    as_decision n = Some dn ∧ is_decided dn = true ∧
    dec_selected_option dn = Some (pin_selected_option pin) ∧
    pin_decision_id pin = node_id n ∧ pin_decision_revision pin = node_updated_rev n.
Proof.
  unfold governing_decision_bundle. rewrite list_elem_of_bind. split.
  - intros (d & Hpin & Hd). destruct (gs_nodes st !! d) as [n|] eqn:Hn; [|by apply elem_of_nil in Hpin].
    destruct (as_decision n) as [dn|] eqn:Hdn; [|by apply elem_of_nil in Hpin].
    destruct (dec_selected_option dn) as [o|] eqn:Ho; [|by apply elem_of_nil in Hpin].
    destruct (is_decided dn) eqn:Hdec; [|by apply elem_of_nil in Hpin].
    apply list_elem_of_singleton in Hpin as ->. eexists d, n, dn. eauto 10.
  - intros (d & n & dn & Hd & Hn & Hdn & Hdec & Ho & Hid & Hrev). exists d.
    rewrite Hn, Hdn, Ho, Hdec. split; [|done]. apply list_elem_of_singleton.
    destruct pin; simpl in *; congruence.
Qed.

(** A bundle pinned from the current graph shows no drift. *)
Theorem fresh_bundle_has_no_drift st e :
  nodes_keyed st → decision_drift st (governing_decision_bundle st e) = [].
Proof.
  intros Hkeyed. unfold decision_drift.
  enough (bfilter (pin_moved st) (governing_decision_bundle st e) = []) as -> by done.
  apply bfilter_nil. intros pin (d & n & dn & _ & Hn & Hdn & Hdec & Ho & Hid & Hrev)%elem_of_governing_bundle.
  unfold pin_moved. rewrite Hid, (Hkeyed _ _ Hn), Hn, Hdn, Ho, Hrev.
  unfold is_decided in Hdec. apply andb_true_iff in Hdec as [-> _].
  rewrite bool_decide_eq_true_2, Z.eqb_refl by done. done.
Qed.

(** What stands against a new invocation, apart from the graph. *)
Lemma operational_reasons_nil active detached used ceiling op :
  operational_reasons active detached used ceiling op = [] ↔
  active = false ∧ ¬ (detached = true ∧ (ceiling ≤ used)%Z) ∧
  ∀ o, op = Some o → stopping o = false ∧ eos_episode_live o = false.
Proof.
  unfold operational_reasons. cbv zeta.
  assert (detached && (ceiling <=? used)%Z = false ↔ ¬ (detached = true ∧ (ceiling ≤ used)%Z)) as <-.
  { destruct detached; cbn; [|by split; [intros _ [? _]|]]. destruct (Z.leb_spec ceiling used); split; try done; [|lia].
    intros Hno. by destruct Hno. }
  destruct active; [by destruct op as [o|]; cbn; rewrite ?andb_false_r; (split; [|intros [? _]])|].
  destruct (detached && _); [by destruct op as [o|]; cbn; [destruct (stopping o)|]; cbn; rewrite ?andb_false_r; (split; [|intros (_ & ? & _)])|].
  destruct op as [o|]; [|by split; [intros _; split_and!|]].
  assert ((∀ o', Some o = Some o' → stopping o' = false ∧ eos_episode_live o' = false) ↔
    stopping o = false ∧ eos_episode_live o = false) as -> by (split; [by intros Ho; apply Ho|by intros ? o' [= <-]]).
  cbn. destruct (stopping o), (eos_episode_live o); cbn; split; try done; naive_solver.
Qed.

Lemma fresh_start_reasons_nil n : fresh_start_reasons n = [] ↔ exp_status n ∉ CLOSED_EXPERIMENT_STATUSES.
Proof.
  unfold fresh_start_reasons. rewrite <-mem_true. by destruct (mem _ _).
Qed.

(** C38: the control state of a loop says whether it may start, and why not.  It is
    ready exactly when it lists no reason, and that is exactly when the decisions
    that govern the Experiment are settled and its blockers are not open, its
    status is not closed, no loop is active on it, no detached work runs at a spent
    ceiling, and no turn is stopping and no episode is live.  The graph reasons are
    those of the graph alone and come first among all reasons.  The ceiling is the
    one the episode pinned, or the one of the node where there is no episode; the
    remaining invocations are the difference, or none where the ceiling is passed. *)
Theorem control_state_coherent st e act ep used ceil paused det bundle op c n :
  derive_experiment_control_state st e act ep used ceil paused det bundle op = Ok c →
  get_experiment st e = Some n →
  (ecs_ready c = true ↔ ecs_reasons c = []) ∧
  (ecs_ready c = true ↔
     (∀ d, d ∈ _related_targets st e "governed_by" → decision_settled st d) ∧
     (∀ b, b ∈ _related_targets st e "blocked_by" → blocker_settled st b) ∧
     exp_status n ∉ CLOSED_EXPERIMENT_STATUSES ∧ e ∉ act ∧
     ¬ (det = true ∧ (ecs_invocation_ceiling c ≤ used)%Z) ∧
     ∀ o, op = Some o → stopping o = false ∧ eos_episode_live o = false) ∧
  experiment_graph_precondition_reasons st e = Ok (ecs_graph_reasons c) ∧
  (∃ rest, ecs_reasons c = ecs_graph_reasons c ++ rest) ∧
  Some (ecs_invocation_ceiling c) = (if ep then ceil else Some (exp_invocation_ceiling n)) ∧
  (1 ≤ ecs_invocation_ceiling c)%Z ∧ ecs_invocations_used c = used ∧
  (ecs_invocations_remaining c =
     if decide (used ≤ ecs_invocation_ceiling c) then ecs_invocation_ceiling c - used else 0)%Z.
Proof.
  unfold derive_experiment_control_state, experiment_graph_control, experiment_graph_precondition_reasons.
  intros Hc Hn. rewrite Hn in *. cbn [mbind res_bind] in Hc. destruct (runtime_binding _ _ _ _ _) as [[ceiling pins]|] eqn:Hb; [|done].
  cbn [mbind res_bind egc_reasons] in Hc. destruct (Z.ltb_spec ceiling 1) as [|Hpos]; [done|]. apply Ok_inj in Hc. subst c. cbn.
  split; [apply is_nil_true|]. split; [|split_and!; eauto].
  - rewrite is_nil_true, !app_nil, graph_reasons_nil, fresh_start_reasons_nil, operational_reasons_nil, <-not_true_iff_false, mem_true. tauto.
  - unfold runtime_binding in Hb. destruct ep; repeat case_match; simplify_eq; done.
  - case_decide; lia.
Qed.

(** The active flow hides only resolved blockers and the edges touching
    them: with [include_resolved_blockers] nothing whose endpoints exist is
    hidden, and every visible edge joins two visible nodes. *)
Theorem active_flow_exact st incl k ed :
  gs_edges st !! (k : string) = Some ed →
  k ∈ afp_edge_ids (active_flow_projection st incl) ↔
  (∀ x, x = edge_source ed ∨ x = edge_target ed →
     ∃ n, gs_nodes st !! x = Some n ∧
          (incl = false → ∀ bn, as_blocker n = Some bn → blk_status bn ≠ "resolved")).
Proof.
  intros Hk. simpl.
  assert (∀ x, x ∈ afp_node_ids (active_flow_projection st incl) ↔
    ∃ n, gs_nodes st !! x = Some n ∧
         (incl = false → ∀ bn, as_blocker n = Some bn → blk_status bn ≠ "resolved")) as Hvis.
  { intros x. simpl. rewrite elem_of_py_sorted, list_elem_of_fmap.
    setoid_rewrite elem_of_bfilter. unfold is_active_flow_node, str_eqb. split.
    - intros ([k' n] & -> & Hf & Hin%elem_of_map_to_list). exists n. split; [done|].
      intros -> bn Hb. simpl in Hf. rewrite Hb in Hf. by case_bool_decide.
    - intros (n & Hn & Hf). exists (x, n). split; [done|]. split; [|by apply elem_of_map_to_list].
      simpl. destruct incl; simpl; [by rewrite andb_false_r|].
      destruct (as_blocker n) as [bn|] eqn:Hb; [|done]. rewrite bool_decide_eq_false_2; [done|]. by apply Hf. }
  rewrite elem_of_py_sorted, list_elem_of_fmap. setoid_rewrite elem_of_bfilter.
  setoid_rewrite andb_true_iff. setoid_rewrite mem_true. simpl in Hvis. split.
  - intros ([k' ed'] & -> & [Hs Ht] & Hin%elem_of_map_to_list). simpl in *. simplify_eq.
    intros x [->| ->]; by apply Hvis.
  - intros H. exists (k, ed). split; [done|]. split; [|by apply elem_of_map_to_list].
    split; apply Hvis; auto.
Qed.

(** Deciding attention: exactly the ready or revisited Decisions. *)
Lemma decision_awaits_choice_iff n :
  decision_awaits_choice n = true ↔
  ∃ dn, as_decision n = Some dn ∧ (dec_status dn = "ready" ∨ dec_status dn = "revisit").
Proof.
  unfold decision_awaits_choice. destruct (as_decision n) as [dn|]; [|naive_solver].
  rewrite mem_true. set_solver.
Qed.

(** The attention projection succeeds on a state whose nodes and
    Proposals are stored under their own ids, and lists exactly the pending
    Proposals, the Decisions awaiting a choice and the open asserted Blockers. *)
Theorem attention_exact st :
  nodes_keyed st → (∀ k p, gs_proposals st !! k = Some p → prop_id p = k) →
  ∃ a, project_graph_attention st = Ok a ∧
    (∀ k, k ∈ gap_pending_proposal_ids a ↔
       ∃ p, gs_proposals st !! k = Some p ∧ prop_status p = PPending) ∧
    (∀ k, k ∈ gap_decisions_awaiting_choice_ids a ↔
       ∃ n, gs_nodes st !! k = Some n ∧ decision_awaits_choice n = true) ∧
    (∀ k, k ∈ gap_open_blocker_ids a ↔
       ∃ n, gs_nodes st !! k = Some n ∧ open_asserted_blocker n = true).
Proof.
  intros Hn Hp. unfold project_graph_attention.
  assert (∀ f k, k ∈ py_sorted (node_id <$> bfilter f (values (gs_nodes st))) ↔
            ∃ n, gs_nodes st !! k = Some n ∧ f n = true) as Hids.
  { intros f k. rewrite elem_of_py_sorted, list_elem_of_fmap. setoid_rewrite elem_of_bfilter.
    setoid_rewrite elem_of_values. split.
    - intros (n & -> & Hf & k' & Hk'). rewrite (Hn _ _ Hk'). eauto.
    - intros (n & Hk & Hf). exists n. rewrite (Hn _ _ Hk). eauto. }
  assert (forallb (λ kn, str_eqb kn.1 (node_id kn.2)) (map_to_list (gs_nodes st)) = true) as ->.
  { apply forallb_forall. intros [k n] Hin%list_elem_of_In%elem_of_map_to_list. simpl.
    apply bool_decide_eq_true. symmetry. by apply Hn. }
  assert (forallb (λ kp, str_eqb kp.1 (prop_id kp.2)) (map_to_list (gs_proposals st)) = true) as ->.
  { apply forallb_forall. intros [k p] Hin%list_elem_of_In%elem_of_map_to_list. simpl.
    apply bool_decide_eq_true. symmetry. by apply Hp. }
  simpl. eexists. split; [done|]. simpl. split; [|split; apply Hids].
  intros k. rewrite elem_of_py_sorted, list_elem_of_fmap. setoid_rewrite elem_of_bfilter.
  setoid_rewrite bool_decide_eq_true. split.
  - intros ([k' p] & -> & ? & ?%elem_of_map_to_list). eauto.
  - intros (p & ? & ?). exists (k, p). split; [done|]. split; [done|]. by apply elem_of_map_to_list.
Qed.
End properties.
