(* ===== verification/Authority.v ===== *)
(** Graph authority ([core/authority.py]): the closed action vocabulary, the
    actions an operation needs, who may perform them, and the dispatch and apply
    bindings of agent tasks. *)

From S2P Require Export Control.

(** ** Actions *)

Inductive GraphAction :=
  | CREATE_NODE | UPDATE_NODE | UPDATE_PROTECTED_EPISTEMIC | DECIDE_DECISION | QUEUE_DECISION
  | REMOVE_NODE | REMOVE_PROTECTED_EPISTEMIC | SUPERSEDE_NODE | SUPERSEDE_PROTECTED_EPISTEMIC
  | MERGE_NODE | MERGE_PROTECTED_EPISTEMIC | CREATE_EDGE | REMOVE_EDGE
  | RESTRUCTURE_PROTECTED_EPISTEMIC | SET_STANDING | CREATE_PROPOSAL | RESOLVE_PROPOSAL
  | WITHDRAW_PROPOSAL | UPSERT_GLOSSARY | SET_COVERAGE | SET_PROJECT_TRUTH_SCOPE | SET_ONTOLOGY
  | CREATE_AMBIGUITY | RESOLVE_AMBIGUITY.
#[export] Instance GraphAction_eq_dec : EqDecision GraphAction.
Proof. solve_decision. Defined.

(** [sorted(GRAPH_ACTIONS)]: alphabetical order of the action names. *)
Definition sorted_graph_actions : list GraphAction :=
  [CREATE_AMBIGUITY; CREATE_EDGE; CREATE_NODE; CREATE_PROPOSAL; DECIDE_DECISION;
   MERGE_NODE; MERGE_PROTECTED_EPISTEMIC; QUEUE_DECISION; REMOVE_EDGE; REMOVE_NODE;
   REMOVE_PROTECTED_EPISTEMIC; RESOLVE_AMBIGUITY; RESOLVE_PROPOSAL;
   RESTRUCTURE_PROTECTED_EPISTEMIC; SET_COVERAGE; SET_ONTOLOGY; SET_PROJECT_TRUTH_SCOPE;
   SET_STANDING; SUPERSEDE_NODE; SUPERSEDE_PROTECTED_EPISTEMIC; UPDATE_NODE;
   UPDATE_PROTECTED_EPISTEMIC; UPSERT_GLOSSARY; WITHDRAW_PROPOSAL].

Definition ORDINARY_AGENT_GRAPH_ACTIONS : list GraphAction :=
  [CREATE_NODE; UPDATE_NODE; QUEUE_DECISION; REMOVE_NODE; SUPERSEDE_NODE; MERGE_NODE;
   CREATE_EDGE; REMOVE_EDGE; CREATE_PROPOSAL; WITHDRAW_PROPOSAL].

Definition ORCHESTRATOR_AGENT_GRAPH_ACTIONS : list GraphAction :=
  ORDINARY_AGENT_GRAPH_ACTIONS ++ [DECIDE_DECISION; SET_STANDING].

(** [HUMAN_GRAPH_ACTIONS] is everything but these five. *)
Definition human_excluded_actions : list GraphAction :=
  [CREATE_PROPOSAL; UPSERT_GLOSSARY; SET_COVERAGE; CREATE_AMBIGUITY; RESOLVE_AMBIGUITY].

Definition permits (p : Patch) (a : GraphAction) : bool :=
  match p_author p with
  | Some RHuman => negb (bool_decide (a ∈ human_excluded_actions))
  | None => false
  | Some RAgent =>
      if decide (a = SET_COVERAGE) then bool_decide (p_kind p = KSeed ∨ p_kind p = KRefresh)
      else match p_profile p with
           | Some Orchestrator => bool_decide (a ∈ ORCHESTRATOR_AGENT_GRAPH_ACTIONS)
           | _ => bool_decide (a ∈ ORDINARY_AGENT_GRAPH_ACTIONS)
           end
  end.

Definition EVIDENCE_RELATIONS : list string :=
  ["supports"; "weakens"; "refutes"; "inconclusive"; "contradicts"].
Definition PROTECTED_EPISTEMIC_RELATIONS : list string :=
  ["has_subquestion"; "has_hypothesis"; "supersedes"; "duplicate_of"].

(** ** Deriving the actions of an operation *)

Definition created_nodes (ops : list GraphOperation) : list ProjectNode :=
  ops ≫= λ op, match op with CreateNodes ns => ns | _ => [] end.

Definition created_node_ids (p : Patch) : list string := node_id <$> created_nodes (p_ops p).

Definition created_edge_ids (p : Patch) : list string :=
  p_ops p ≫= λ op, match op with CreateEdges es => new_edge_id <$> es | _ => [] end.

Definition is_existing_protected_node (st : GraphState) (node_id : string) : bool :=
  match gs_nodes st !! node_id with Some n => is_belief n | None => false end.

Definition _created_node_type (p : Patch) (id : string) : option NodeType :=
  node_type <$> find (λ n, str_eqb (node_id n) id) (created_nodes (p_ops p)).

(** [created_node_ids(patch) - set(state.nodes)]. *)
Definition new_node_ids (st : GraphState) (p : Patch) : list string :=
  bfilter (λ id, negb (is_some (gs_nodes st !! id))) (created_node_ids p).

(** [frozenset(actions or {base})]. *)
Definition or_base (base : GraphAction) (actions : list GraphAction) : list GraphAction :=
  match actions with [] => [base] | _ => actions end.

Definition is_decision_choice (p : Patch) : bool :=
  bool_decide (p_human_action p = Some DecisionChoice) ||
  bool_decide (p_agent_action p = Some DecisionChoice).

Definition update_action (st : GraphState) (p : Patch) (u : NodeUpdate) : GraphAction :=
  if is_existing_protected_node st (nu_id u) then UPDATE_PROTECTED_EPISTEMIC
  else
    let existing := is_some (get_decision st (nu_id u)) in
    let is_decision := existing || bool_decide (_created_node_type p (nu_id u) = Some TDecision) in
    if is_decision && is_decision_choice p then DECIDE_DECISION
    else if existing && get_in (nu_changes u !! "status") ["open"; "ready"; "revisit"]
    then QUEUE_DECISION else UPDATE_NODE.

Definition _update_actions (st : GraphState) (p : Patch) (us : list NodeUpdate) : list GraphAction :=
  or_base UPDATE_NODE (update_action st p <$> us).

Definition _restructures_protected_relation (st : GraphState) (relation source target : string)
    (new_ids : list string) : bool :=
  mem relation PROTECTED_EPISTEMIC_RELATIONS &&
  negb (mem source new_ids || mem target new_ids) &&
  (is_existing_protected_node st source || is_existing_protected_node st target).

Definition _create_edge_actions (st : GraphState) (p : Patch) (es : list NewEdge) : list GraphAction :=
  or_base CREATE_EDGE ((λ e,
    if _restructures_protected_relation st (ne_relation e) (ne_source e) (ne_target e)
         (new_node_ids st p)
    then RESTRUCTURE_PROTECTED_EPISTEMIC else CREATE_EDGE) <$> es).

Definition _remove_edge_actions (st : GraphState) (p : Patch) (ids : list string) : list GraphAction :=
  let new_edge_ids := bfilter (λ id, negb (is_some (gs_edges st !! id))) (created_edge_ids p) in
  or_base REMOVE_EDGE ((λ id,
    match gs_edges st !! id with
    | Some e =>
        if negb (mem id new_edge_ids) && mem (edge_relation e) PROTECTED_EPISTEMIC_RELATIONS &&
           (is_existing_protected_node st (edge_source e) ||
            is_existing_protected_node st (edge_target e))
        then RESTRUCTURE_PROTECTED_EPISTEMIC else REMOVE_EDGE
    | None => REMOVE_EDGE
    end) <$> ids).

Definition _node_target_actions (st : GraphState) (ids : list string) (base protected : GraphAction) :
    list GraphAction :=
  or_base base ((λ id, if is_existing_protected_node st id then protected else base) <$> ids).

Definition _node_lifecycle_actions (st : GraphState) (p : Patch) (ids : list string)
    (endpoints : list (string * string)) (relation : string) (base protected : GraphAction) :
    list GraphAction :=
  _node_target_actions st ids base protected ++
  (endpoints ≫= λ '(s, t),
     if _restructures_protected_relation st relation s t (new_node_ids st p)
     then [RESTRUCTURE_PROTECTED_EPISTEMIC] else []).

Definition operation_actions (st : GraphState) (p : Patch) (op : GraphOperation) : list GraphAction :=
  match op with
  | CreateNodes _ => [CREATE_NODE]
  | UpdateNodes us => _update_actions st p us
  | CreateEdges es => _create_edge_actions st p es
  | RemoveEdges ids => _remove_edge_actions st p ids
  | RemoveNodes ids => _node_target_actions st ids REMOVE_NODE REMOVE_PROTECTED_EPISTEMIC
  | SupersedeNodes items =>
      _node_lifecycle_actions st p (sn_id <$> items)
        (items ≫= λ i, match sn_superseded_by i with Some t => [(sn_id i, t)] | None => [] end)
        "supersedes" SUPERSEDE_NODE SUPERSEDE_PROTECTED_EPISTEMIC
  | MergeNodes items =>
      _node_lifecycle_actions st p (nm_duplicate <$> items)
        ((λ i, (nm_duplicate i, nm_canonical i)) <$> items)
        "duplicate_of" MERGE_NODE MERGE_PROTECTED_EPISTEMIC
  | SetStanding id _ =>
      if is_existing_protected_node st id ||
         bool_decide (_created_node_type p id = Some TResearchQuestion) ||
         bool_decide (_created_node_type p id = Some THypothesis)
      then [UPDATE_PROTECTED_EPISTEMIC] else [SET_STANDING]
  | CreateAmbiguities _ => [CREATE_AMBIGUITY]
  | ResolveAmbiguities _ => [RESOLVE_AMBIGUITY]
  | CreateProposals _ => [CREATE_PROPOSAL]
  | ResolveProposals _ => [RESOLVE_PROPOSAL]
  | WithdrawProposals _ => [WITHDRAW_PROPOSAL]
  | UpsertGlossary _ => [UPSERT_GLOSSARY]
  | SetCoverage _ => [SET_COVERAGE]
  | SetProjectTruthScope _ _ => [SET_PROJECT_TRUTH_SCOPE]
  | SetOntology _ => [SET_ONTOLOGY]
  end.

(** The membership test of [update_action] raises on an unhashable status. *)
Definition update_unhashable (st : GraphState) (p : Patch) (u : NodeUpdate) : bool :=
  negb (is_existing_protected_node st (nu_id u)) && is_some (get_decision st (nu_id u)) &&
  negb (is_decision_choice p) &&
  match nu_changes u !! "status" with Some (PList _ | PDict _ | PModel _ _) => true | _ => false end.

Definition operation_actions_raises (st : GraphState) (p : Patch) (op : GraphOperation) : bool :=
  match op with UpdateNodes us => existsb (update_unhashable st p) us | _ => false end.

(** ** Dispatch and apply bindings *)

Inductive AgentCapability := Discuss | WorkAuto | ScratchPatch | PaperReadonly | Orchestrate.
#[export] Instance AgentCapability_eq_dec : EqDecision AgentCapability.
Proof. solve_decision. Defined.

Inductive ChatScope := ScopeNode | ScopeProject.
#[export] Instance ChatScope_eq_dec : EqDecision ChatScope.
Proof. solve_decision. Defined.

(** [DispatchPatchKind] is the sub-vocabulary seed, refresh, work, experiment_loop. *)
Record AgentDispatchScope := {
  ads_run_truth_scope : list string; ads_episode_id : option string;
  ads_chat_scope : option ChatScope; ads_chat_id : option string; ads_node_id : option string;
  ads_patch_kind : option PatchKind; ads_control_node_id : option string;
  ads_control_episode_id : option string }.

(** [AgentDispatchScope.require_normalized_scope]. *)
Definition require_normalized_scope (s : AgentDispatchScope) : bool :=
  if existsb (λ x, negb (truthy x)) (ads_run_truth_scope s) then false
  else if negb (bool_decide (ads_run_truth_scope s = sorted_set (list_to_set (ads_run_truth_scope s))))
  then false
  else if bool_decide (ads_chat_scope s = None) && (is_some (ads_chat_id s) || is_some (ads_node_id s))
  then false
  else if bool_decide (ads_chat_scope s = Some ScopeProject) && is_some (ads_node_id s) then false
  else if bool_decide (ads_patch_kind s = Some KExperimentLoop)
  then is_some (ads_control_node_id s) && is_some (ads_control_episode_id s)
  else negb (is_some (ads_control_node_id s) || is_some (ads_control_episode_id s)).

Record AgentDispatchAuthority := {
  ada_profile : AgentProfile; ada_task_contract : AgentCapability; ada_scope : AgentDispatchScope }.

Record AgentTaskAuthority := {
  ata_operation_id : string; ata_project_id : string; ata_apply_target : GraphTargetRef;
  ata_authorized_by : option AuthorizedHuman;
  ata_dispatch_authority : option AgentDispatchAuthority; ata_episode_id : option string }.

Definition ORDINARY_AGENT_TASK_CONTRACTS : list AgentCapability :=
  [Discuss; WorkAuto; ScratchPatch; PaperReadonly].
Definition ORCHESTRATOR_AGENT_TASK_CONTRACTS : list AgentCapability := [Orchestrate].
Definition APPLY_CAPABLE_TASK_CONTRACTS : list AgentCapability := [WorkAuto; ScratchPatch; Orchestrate].

(** Chat and control identity of a scope are all absent. *)
Definition no_chat_or_control (s : AgentDispatchScope) : bool :=
  negb (is_some (ads_chat_scope s) || is_some (ads_chat_id s) || is_some (ads_node_id s) ||
        is_some (ads_control_node_id s) || is_some (ads_control_episode_id s)).

(** An exact episode with a project-wide Work scope. *)
Definition episode_scope_ok (s : AgentDispatchScope) : bool :=
  is_some (ads_episode_id s) && negb (is_nil (ads_run_truth_scope s)) &&
  bool_decide (ads_patch_kind s = Some KWork) && no_chat_or_control s.

Definition _require_scope_shape (a : AgentDispatchAuthority) : res unit :=
  let s := ada_scope a in
  let c := ada_task_contract a in
  match c with
  | Orchestrate => require (episode_scope_ok s)
  | Discuss | WorkAuto =>
      if bool_decide (c = WorkAuto) && is_some (ads_episode_id s) then require (episode_scope_ok s)
      else
        _ ← require (negb (is_some (ads_episode_id s)));
        _ ← require (is_some (ads_chat_scope s) && is_some (ads_chat_id s));
        _ ← require (negb (bool_decide (ads_chat_scope s = Some ScopeNode)) || is_some (ads_node_id s));
        _ ← require (negb (bool_decide (c = Discuss)) || negb (is_some (ads_patch_kind s)));
        require (negb (bool_decide (c = WorkAuto)) ||
                 bool_decide (ads_patch_kind s = Some KWork ∨ ads_patch_kind s = Some KExperimentLoop))
  | ScratchPatch =>
      _ ← require (bool_decide (ads_patch_kind s = Some KSeed ∨ ads_patch_kind s = Some KRefresh));
      require (negb (is_some (ads_episode_id s) || is_some (ads_chat_scope s) ||
                     is_some (ads_chat_id s) || is_some (ads_node_id s)))
  | PaperReadonly =>
      require (negb (is_some (ads_episode_id s) || is_some (ads_patch_kind s)) && no_chat_or_control s)
  end.

Definition compatible_contract (a : AgentDispatchAuthority) : bool :=
  match ada_profile a with
  | Ordinary => bool_decide (ada_task_contract a ∈ ORDINARY_AGENT_TASK_CONTRACTS)
  | Orchestrator => bool_decide (ada_task_contract a ∈ ORCHESTRATOR_AGENT_TASK_CONTRACTS)
  end.

Definition require_dispatch (a : AgentDispatchAuthority) : res AgentDispatchAuthority :=
  _ ← require (compatible_contract a);
  _ ← _require_scope_shape a;
  Ok a.

(** [is_project_member] is the live membership check, a callable argument. *)
Definition require_apply (is_project_member : string → string → bool) (authority : AgentTaskAuthority)
    (p : Patch) : res AgentDispatchAuthority :=
  match ata_dispatch_authority authority with
  | None => Raise ValueError
  | Some dispatch =>
      match ata_authorized_by authority with
      | None => Raise ValueError
      | Some human =>
          let scope := ada_scope dispatch in
          let c := ada_task_contract dispatch in
          _ ← require (is_project_member (ata_project_id authority) (ah_user_id human));
          _ ← require (compatible_contract dispatch);
          _ ← require (negb (is_some (p_profile p)) ||
                       bool_decide (p_profile p = Some (ada_profile dispatch)));
          _ ← require (negb (is_some (p_agent_action p)) ||
                       bool_decide (ada_profile dispatch = Orchestrator));
          _ ← _require_scope_shape dispatch;
          _ ← require (bool_decide (c ∈ APPLY_CAPABLE_TASK_CONTRACTS));
          _ ← require (
            bool_decide (c = ScratchPatch ∧
              (ads_patch_kind scope = Some KSeed ∨ ads_patch_kind scope = Some KRefresh)) ||
            bool_decide (c = WorkAuto ∧
              (ads_patch_kind scope = Some KWork ∨ ads_patch_kind scope = Some KExperimentLoop)) ||
            bool_decide (c = Orchestrate ∧ ads_patch_kind scope = Some KWork));
          _ ← require (bool_decide (Some (p_kind p) = ads_patch_kind scope));
          _ ← require (bool_decide
                 (sorted_set (list_to_set (p_run_truth_scope p)) = ads_run_truth_scope scope));
          _ ← require (negb (bool_decide (p_kind p = KExperimentLoop)) ||
                 bool_decide (p_experiment_control_node_id p = ads_control_node_id scope));
          Ok dispatch
      end
  end.

(** ** Properties *)

(** The actions that change an existing belief. *)
Definition protected_actions : list GraphAction :=
  [UPDATE_PROTECTED_EPISTEMIC; REMOVE_PROTECTED_EPISTEMIC; SUPERSEDE_PROTECTED_EPISTEMIC;
   MERGE_PROTECTED_EPISTEMIC; RESTRUCTURE_PROTECTED_EPISTEMIC].

(** The operations that change an existing ResearchQuestion or Hypothesis in
    place: edit it, remove it, retire it, fold it or set its standing. *)
Definition changes_belief (st : GraphState) (op : GraphOperation) : bool :=
  existsb (is_existing_protected_node st)
    match op with
    | UpdateNodes us => nu_id <$> us
    | RemoveNodes ids => ids
    | SupersedeNodes items => sn_id <$> items
    | MergeNodes items => nm_duplicate <$> items
    | SetStanding id _ => [id]
    | _ => []
    end.

Section properties.
Implicit Types (st : GraphState) (p : Patch) (op : GraphOperation) (a : GraphAction).

Lemma sorted_graph_actions_all a : a ∈ sorted_graph_actions.
Proof. destruct a; by_decide. Qed.

Lemma or_base_not_nil base l : or_base base l ≠ [].
Proof. by destruct l. Qed.

Lemma elem_of_or_base base a l : a ∈ l → a ∈ or_base base l.
Proof. destruct l; [by intros ?%elem_of_nil|done]. Qed.

Lemma elem_of_or_base_inv base a l : a ∈ or_base base l → a ∈ l ∨ a = base.
Proof. destruct l; [|by left]. intros ->%list_elem_of_singleton. by right. Qed.

(** Every operation needs at least one action: none escapes the check. *)
Lemma operation_actions_not_nil st p op : operation_actions st p op ≠ [].
Proof.
  destruct op; simpl; try apply or_base_not_nil; try done.
  - unfold _node_lifecycle_actions. intros [H _]%app_nil. by eapply or_base_not_nil.
  - unfold _node_lifecycle_actions. intros [H _]%app_nil. by eapply or_base_not_nil.
  - by case_match.
Qed.

(** No agent profile permits an action on an existing belief. *)
Lemma agent_never_permits_protected p a :
  p_author p = Some RAgent → a ∈ protected_actions → permits p a = false.
Proof.
  unfold permits. intros ->. unfold protected_actions. rewrite !elem_of_cons, elem_of_nil.
  intros Ha. destruct_or? Ha; subst; rewrite decide_False by done;
    by destruct (p_profile p) as [[]|].
Qed.

Lemma node_target_protected st ids base protected id :
  id ∈ ids → is_existing_protected_node st id = true →
  protected ∈ _node_target_actions st ids base protected.
Proof.
  intros Hin Hp. apply elem_of_or_base, list_elem_of_fmap. exists id. by rewrite Hp.
Qed.

(** A change of an existing belief always needs a protected action. *)
Lemma changes_belief_protected st p op :
  changes_belief st op = true →
  ∃ a, a ∈ operation_actions st p op ∧ a ∈ protected_actions.
Proof.
  unfold changes_belief. rewrite existsb_true. intros (id & Hin & Hp).
  destruct op as [|us| | |ids|items|items| | | | | | | |i ?| |]; simpl in *;
    try by apply elem_of_nil in Hin.
  - exists UPDATE_PROTECTED_EPISTEMIC. split; [|by_decide].
    apply list_elem_of_fmap in Hin as (u & -> & Hu).
    apply elem_of_or_base, list_elem_of_fmap. exists u. split; [|done].
    unfold update_action. by rewrite Hp.
  - exists REMOVE_PROTECTED_EPISTEMIC. split; [|by_decide].
    by eapply node_target_protected.
  - exists SUPERSEDE_PROTECTED_EPISTEMIC. split; [|by_decide].
    apply elem_of_app. left. by eapply node_target_protected.
  - exists MERGE_PROTECTED_EPISTEMIC. split; [|by_decide].
    apply elem_of_app. left. by eapply node_target_protected.
  - apply list_elem_of_singleton in Hin as ->. rewrite Hp. simpl.
    exists UPDATE_PROTECTED_EPISTEMIC. split; [by_decide|by_decide].
Qed.

Lemma agent_refused_change st p op :
  p_author p = Some RAgent → changes_belief st op = true →
  ∃ a, a ∈ operation_actions st p op ∧ permits p a = false.
Proof.
  intros Hp (a & Ha & Hprot)%(changes_belief_protected _ p).
  exists a. split; [done|]. by apply agent_never_permits_protected.
Qed.

(** Belief protection.  An agent Patch, whatever its profile and declared
    action, lacks the authority for at least one action of any operation that
    edits, removes, retires, folds or reviews an existing ResearchQuestion or
    Hypothesis. *)
Theorem agent_cannot_change_belief st p op :
  p_author p = Some RAgent → changes_belief st op = true →
  ∃ a, a ∈ operation_actions st p op ∧ permits p a = false.
Proof. apply agent_refused_change. Qed.

(** The three authority profiles are exact.  A human may do everything
    except raise a Proposal, write glossary or coverage and touch
    ambiguities; an ordinary agent may do the ten ordinary actions; the
    orchestrator may also decide a Decision and set standing; coverage belongs
    to seed and refresh; a Patch without an author may do nothing. *)
Theorem permits_exact p a :
  permits p a = true ↔
  match p_author p with
  | None => False
  | Some RHuman => a ∉ human_excluded_actions
  | Some RAgent =>
      (a = SET_COVERAGE ∧ (p_kind p = KSeed ∨ p_kind p = KRefresh)) ∨
      a ∈ ORDINARY_AGENT_GRAPH_ACTIONS ∨
      (p_profile p = Some Orchestrator ∧ (a = DECIDE_DECISION ∨ a = SET_STANDING))
  end.
Proof.
  unfold permits. destruct (p_author p) as [[]|]; [|by case_bool_decide|done].
  assert (SET_COVERAGE ∉ ORDINARY_AGENT_GRAPH_ACTIONS) as Hcov by by_decide.
  case_decide as Hc.
  - rewrite bool_decide_eq_true. subst. split; [auto|].
    intros [[_ H]|[H|[_ [H|H]]]]; done.
  - destruct (p_profile p) as [[]|]; rewrite bool_decide_eq_true.
    + split; [auto|]. intros [[? _]|[H|[? _]]]; done.
    + unfold ORCHESTRATOR_AGENT_GRAPH_ACTIONS. rewrite elem_of_app, !elem_of_cons, elem_of_nil.
      split; [intros [?|[?|[?|[]]]]; auto|]. intros [[? _]|[?|[_ [?|?]]]]; auto; done.
    + split; [auto|]. intros [[? _]|[H|[? _]]]; done.
Qed.

(** C37: apply refines dispatch.  A task authority that may apply a Patch was
    dispatchable, its authorizer is a project member now, it exposes a Patch
    channel, and the Patch matches the bound kind, repository scope, profile
    and control node. *)
Theorem require_apply_sound member auth p d :
  require_apply member auth p = Ok d →
  require_dispatch d = Ok d ∧ ata_dispatch_authority auth = Some d ∧
  (∃ h, ata_authorized_by auth = Some h ∧ member (ata_project_id auth) (ah_user_id h) = true) ∧
  ada_task_contract d ∈ APPLY_CAPABLE_TASK_CONTRACTS ∧
  ads_patch_kind (ada_scope d) = Some (p_kind p) ∧
  sorted_set (list_to_set (p_run_truth_scope p)) = ads_run_truth_scope (ada_scope d) ∧
  (∀ pr, p_profile p = Some pr → pr = ada_profile d) ∧
  (p_agent_action p ≠ None → ada_profile d = Orchestrator) ∧
  (p_kind p = KExperimentLoop →
   p_experiment_control_node_id p = ads_control_node_id (ada_scope d)).
Proof.
  unfold require_apply, require_dispatch. intros H.
  destruct (ata_dispatch_authority auth) as [dispatch|]; [|done].
  destruct (ata_authorized_by auth) as [h|]; [|done]. simplify_res.
  repeat match goal with E : require _ = Ok _ |- _ => apply require_ok in E end.
  repeat match goal with E : bool_decide _ = true |- _ => apply bool_decide_eq_true in E end.
  match goal with E : compatible_contract _ = true |- _ => rewrite E end.
  match goal with E : _require_scope_shape _ = _ |- _ => simpl; rewrite E end. simpl.
  split; [done|]. split; [done|]. split; [eauto|]. split; [done|]. split; [done|].
  split; [done|].
  repeat match goal with E : _ |- _ => rewrite negb_orb_impl in E; move E at bottom end.
  split; [|split].
  - intros pr Hpr. rewrite Hpr in *.
    apply Some_inj. eapply bool_decide_eq_true_1; eauto.
  - intros Hne. eapply bool_decide_eq_true_1.
    destruct (p_agent_action p); [eauto|done].
  - intros Hk. eapply bool_decide_eq_true_1.
    assert (bool_decide (p_kind p = KExperimentLoop) = true) as Hb by by apply bool_decide_eq_true.
    eauto.
Qed.

(** A normalized scope agrees with itself: sorting and deduplicating the
    repository list of an applicable Patch recovers the bound list, so the
    order and repetition in the Patch never matter. *)
Theorem require_apply_scope_order member auth p p' :
  list_to_set (C:=gset string) (p_run_truth_scope p) = list_to_set (p_run_truth_scope p') →
  p_kind p = p_kind p' → p_profile p = p_profile p' → p_agent_action p = p_agent_action p' →
  p_experiment_control_node_id p = p_experiment_control_node_id p' →
  require_apply member auth p = require_apply member auth p'.
Proof. unfold require_apply. intros -> -> -> -> ->. done. Qed.
End properties.
