(* ===== verification/Dependencies.v ===== *)
(** Proposal dependencies ([core/validation/ops.py], [depends_*], and
    [core/validation/registry.py], [proposal_dependencies]): the graph objects
    and configuration whose exact state a Proposal depends on. *)

From S2P Require Export Authority.

(** ** Per operation: candidate node ids and config keys *)

Definition depends_update_nodes (updates : list NodeUpdate) : list string * list string :=
  (nu_id <$> updates,
   updates ≫= λ u, if is_some (nu_changes u !! "extension_fields") then ["ontology"] else []).

Definition depends_create_edges (edges : option (option (list NewEdge))) :
    list string * list string :=
  (default [] (mjoin edges) ≫= λ e, [ne_source e; ne_target e], []).

Definition depends_remove_edges (edge_ids : option (option (list string))) (st : GraphState) :
    list string * list string :=
  (default [] (mjoin edge_ids) ≫= λ id,
     match gs_edges st !! id with Some e => [edge_source e; edge_target e] | None => [] end, []).

Definition depends_remove_nodes (node_ids : list string) : list string * list string :=
  (node_ids, []).

(** A missing replacement contributes [None], which the caller skips. *)
Definition depends_supersede_nodes (items : list SupersedeNode) : list string * list string :=
  (items ≫= λ i, sn_id i :: match sn_superseded_by i with Some t => [t] | None => [] end, []).

Definition depends_merge_nodes (merges : list NodeMerge) : list string * list string :=
  (merges ≫= λ i, [nm_duplicate i; nm_canonical i], []).

Definition depends_create_ambiguities (l : list NewAmbiguity) : list string * list string :=
  (l ≫= na_related_node_ids, []).

Definition depends_resolve_ambiguities (l : list AmbiguityResolution) (st : GraphState) :
    list string * list string :=
  (l ≫= λ r, match gs_ambiguities st !! ar_id r with
             | Some a => amb_related_node_ids a | None => [] end, []).

Definition depends_set_project_truth_scope : list string * list string :=
  ([], ["project_truth_scope"]).
Definition depends_set_ontology : list string * list string := ([], ["ontology"]).

(** [OP_RULES[op.op].dependencies(op, state)]; [([], [])] where there is none. *)
Definition rule_dependencies (op : ProposalOperation) (st : GraphState) :
    list string * list string :=
  match op with
  | ProposalContentChange _ nodes | ProposalStatusChange _ nodes => depends_update_nodes nodes
  | ProposalRemoval _ ids => depends_remove_nodes ids
  | ProposalSupersede _ nodes => depends_supersede_nodes nodes
  | ProposalMerge _ merges => depends_merge_nodes merges
  | ProposalProtectedRelation _ RelCreateEdges edges _ => depends_create_edges edges
  | ProposalProtectedRelation _ RelRemoveEdges _ ids => depends_remove_edges ids st
  | LegacyProposalSetProjectTruthScope _ _ => depends_set_project_truth_scope
  | LegacyProposalSetOntology _ => depends_set_ontology
  | LegacyProposalCreateAmbiguities l => depends_create_ambiguities l
  | LegacyProposalResolveAmbiguities l => depends_resolve_ambiguities l st
  | LegacyProposalCreateNodes _ | LegacyProposalUpsertGlossary _
  | LegacyProposalSetCoverage _ => ([], [])
  end.

(** ** The walk over a Proposal's operations *)

Definition incident (ids : list string) (e : Edge) : bool :=
  mem (edge_source e) ids || mem (edge_target e) ids.

(** The edge ids one operation adds. *)
Definition dependency_edges (st : GraphState) (op : ProposalOperation) : list string :=
  match op with
  | ProposalProtectedRelation _ RelRemoveEdges _ ids => default [] (mjoin ids)
  | ProposalRemoval _ ids => edge_id <$> bfilter (incident ids) (values (gs_edges st))
  | ProposalContentChange _ nodes | ProposalStatusChange _ nodes =>
      nodes ≫= λ u, match nu_cause u with Some (EvidenceEdgeCause r) => [r] | _ => [] end
  | _ => []
  end.

(** The node ids one operation adds. *)
Definition dependency_nodes (st : GraphState) (op : ProposalOperation) : list string :=
  (rule_dependencies op st).1 ++
  match op with
  | ProposalContentChange _ nodes | ProposalStatusChange _ nodes =>
      nodes ≫= λ u, match nu_cause u with Some (DecisionCause r) => [r] | _ => [] end
  | _ => []
  end.

Definition proposal_dependencies (st : GraphState) (ops : list ProposalOperation) :
    list string * list string * list string :=
  (sorted_set (list_to_set (ops ≫= dependency_nodes st)),
   sorted_set (list_to_set (ops ≫= dependency_edges st)),
   sorted_set (list_to_set (ops ≫= λ op, (rule_dependencies op st).2))).

(** ** Properties *)

(** The nodes and edges that replaying a semantic operation writes or removes. *)
Definition replay_node_targets (op : ProposalOperation) : list string :=
  match op with
  | ProposalContentChange _ nodes | ProposalStatusChange _ nodes => nu_id <$> nodes
  | ProposalRemoval _ ids => ids
  | ProposalSupersede _ nodes => sn_id <$> nodes
  | ProposalMerge _ merges => nm_duplicate <$> merges
  | _ => []
  end.

Definition replay_removed_edges (st : GraphState) (op : ProposalOperation) : list string :=
  match op with
  | ProposalRemoval _ ids => edge_id <$> bfilter (incident ids) (values (gs_edges st))
  | ProposalProtectedRelation _ RelRemoveEdges _ ids => default [] (mjoin ids)
  | _ => []
  end.

Section properties.
Implicit Types (st : GraphState) (ops : list ProposalOperation).

(** Dependency coverage.  Every node whose content a Proposal's replay
    writes or removes, and every edge it removes (named, or incident to a
    removed node), is in the snapshot its staleness is judged by. *)
Theorem proposal_dependencies_cover st ops ns es cs op :
  proposal_dependencies st ops = (ns, es, cs) → op ∈ ops →
  (∀ id, id ∈ replay_node_targets op → id ∈ ns) ∧
  (∀ id, id ∈ replay_removed_edges st op → id ∈ es) ∧
  (∀ o, op = LegacyProposalSetOntology o → "ontology" ∈ cs).
Proof.
  unfold proposal_dependencies. intros [= <- <- <-] Hop.
  setoid_rewrite elem_of_sorted_set. setoid_rewrite elem_of_list_to_set.
  setoid_rewrite list_elem_of_bind. split_and!.
  - intros id Hid. exists op. split; [|done]. unfold dependency_nodes. apply elem_of_app. left.
    destruct op as [? nodes|? nodes|? ids|? nodes|? merges| | | | | | | |]; simpl in *; try done;
      try (by apply elem_of_nil in Hid).
    + apply list_elem_of_bind. apply list_elem_of_fmap in Hid as (i & -> & Hi).
      exists i. split; [|done]. by left.
    + apply list_elem_of_bind. apply list_elem_of_fmap in Hid as (i & -> & Hi).
      exists i. split; [|done]. by left.
  - intros id Hid. exists op. split; [|done].
    by destruct op as [| | | | |? [] ? ?| | | | | | |]; simpl in *; try (by apply elem_of_nil in Hid).
  - intros o ->. eexists. split; [|exact Hop]. by left.
Qed.

(** The snapshot is canonical: the order of the operations is irrelevant. *)
Lemma proposal_dependencies_Permutation st ops ops' :
  ops ≡ₚ ops' → proposal_dependencies st ops = proposal_dependencies st ops'.
Proof. unfold proposal_dependencies. intros H. by rewrite H. Qed.
End properties.
