(* ===== verification/Materialize.v ===== *)
(** Materialization ([core/materialize.py]): applying a Patch to a graph state.

    Python forks the state's containers, mutates the fork and drops it when an
    exception escapes; here each operation maps a state to a result.  An edge
    created by the Patch is laid out again at its end, once every node exists. *)

From S2P Require Export Dependencies.

(** ** Attribute assignment on the graph state *)

Definition set_nodes (f : gmap string ProjectNode → gmap string ProjectNode) (s : GraphState) :=
  {| gs_revision := gs_revision s; gs_project_truth_scope := gs_project_truth_scope s;
     gs_config_revisions := gs_config_revisions s; gs_nodes := f (gs_nodes s);
     gs_edges := gs_edges s; gs_proposals := gs_proposals s; gs_ambiguities := gs_ambiguities s;
     gs_glossary := gs_glossary s; gs_ontology := gs_ontology s; gs_coverage := gs_coverage s;
     gs_validation_messages := gs_validation_messages s;
     gs_belief_transitions := gs_belief_transitions s; gs_replay_status := gs_replay_status s;
     gs_replay_failure := gs_replay_failure s; gs_last_refresh_at := gs_last_refresh_at s |}.

Definition set_edges (f : gmap string Edge → gmap string Edge) (s : GraphState) :=
  {| gs_revision := gs_revision s; gs_project_truth_scope := gs_project_truth_scope s;
     gs_config_revisions := gs_config_revisions s; gs_nodes := gs_nodes s;
     gs_edges := f (gs_edges s); gs_proposals := gs_proposals s;
     gs_ambiguities := gs_ambiguities s; gs_glossary := gs_glossary s;
     gs_ontology := gs_ontology s; gs_coverage := gs_coverage s;
     gs_validation_messages := gs_validation_messages s;
     gs_belief_transitions := gs_belief_transitions s; gs_replay_status := gs_replay_status s;
     gs_replay_failure := gs_replay_failure s; gs_last_refresh_at := gs_last_refresh_at s |}.

Definition set_proposals (f : gmap string Proposal → gmap string Proposal) (s : GraphState) :=
  {| gs_revision := gs_revision s; gs_project_truth_scope := gs_project_truth_scope s;
     gs_config_revisions := gs_config_revisions s; gs_nodes := gs_nodes s;
     gs_edges := gs_edges s; gs_proposals := f (gs_proposals s);
     gs_ambiguities := gs_ambiguities s; gs_glossary := gs_glossary s;
     gs_ontology := gs_ontology s; gs_coverage := gs_coverage s;
     gs_validation_messages := gs_validation_messages s;
     gs_belief_transitions := gs_belief_transitions s; gs_replay_status := gs_replay_status s;
     gs_replay_failure := gs_replay_failure s; gs_last_refresh_at := gs_last_refresh_at s |}.

Definition set_ambiguities (f : gmap string Ambiguity → gmap string Ambiguity) (s : GraphState) :=
  {| gs_revision := gs_revision s; gs_project_truth_scope := gs_project_truth_scope s;
     gs_config_revisions := gs_config_revisions s; gs_nodes := gs_nodes s;
     gs_edges := gs_edges s; gs_proposals := gs_proposals s;
     gs_ambiguities := f (gs_ambiguities s); gs_glossary := gs_glossary s;
     gs_ontology := gs_ontology s; gs_coverage := gs_coverage s;
     gs_validation_messages := gs_validation_messages s;
     gs_belief_transitions := gs_belief_transitions s; gs_replay_status := gs_replay_status s;
     gs_replay_failure := gs_replay_failure s; gs_last_refresh_at := gs_last_refresh_at s |}.

(** The knowledge boundary: glossary, ontology, coverage, scope and config. *)
Definition set_config (scope : list string) (config : gmap string Z)
    (glossary : gmap string GlossaryTerm) (ontology : OntologyState)
    (coverage : CoverageBoundary) (s : GraphState) :=
  {| gs_revision := gs_revision s; gs_project_truth_scope := scope;
     gs_config_revisions := config; gs_nodes := gs_nodes s; gs_edges := gs_edges s;
     gs_proposals := gs_proposals s; gs_ambiguities := gs_ambiguities s;
     gs_glossary := glossary; gs_ontology := ontology; gs_coverage := coverage;
     gs_validation_messages := gs_validation_messages s;
     gs_belief_transitions := gs_belief_transitions s; gs_replay_status := gs_replay_status s;
     gs_replay_failure := gs_replay_failure s; gs_last_refresh_at := gs_last_refresh_at s |}.

(** The log: revision, messages, belief transitions, replay status, refresh. *)
Definition set_log (revision : Z) (messages : list ValidationMessage)
    (transitions : list BeliefTransition) (status : ReplayStatus)
    (failure : option ReplayFailure) (refreshed : option Z) (s : GraphState) :=
  {| gs_revision := revision; gs_project_truth_scope := gs_project_truth_scope s;
     gs_config_revisions := gs_config_revisions s; gs_nodes := gs_nodes s; gs_edges := gs_edges s;
     gs_proposals := gs_proposals s; gs_ambiguities := gs_ambiguities s;
     gs_glossary := gs_glossary s; gs_ontology := gs_ontology s; gs_coverage := gs_coverage s;
     gs_validation_messages := messages; gs_belief_transitions := transitions;
     gs_replay_status := status; gs_replay_failure := failure;
     gs_last_refresh_at := refreshed |}.

Definition set_revision (revision : Z) (s : GraphState) :=
  set_log revision (gs_validation_messages s) (gs_belief_transitions s)
    (gs_replay_status s) (gs_replay_failure s) (gs_last_refresh_at s) s.

Definition add_messages (l : list ValidationMessage) (s : GraphState) :=
  set_log (gs_revision s) (gs_validation_messages s ++ l) (gs_belief_transitions s)
    (gs_replay_status s) (gs_replay_failure s) (gs_last_refresh_at s) s.

Definition add_belief_transition (t : BeliefTransition) (s : GraphState) :=
  set_log (gs_revision s) (gs_validation_messages s) (gs_belief_transitions s ++ [t])
    (gs_replay_status s) (gs_replay_failure s) (gs_last_refresh_at s) s.

Definition put_node (n : ProjectNode) : GraphState → GraphState := set_nodes <[node_id n := n]>.
Definition put_edge (e : Edge) : GraphState → GraphState := set_edges <[edge_id e := e]>.

(** ** System fields of node updates *)

Definition IMMUTABLE_NODE_UPDATE_FIELDS : list string :=
  ["id"; "type"; "extension_type"; "standing"; "created_rev"; "updated_rev"; "legacy_strength";
   "current_summary_stale"; "next_action_stale"].

Definition LEGACY_COMPATIBILITY_UPDATE_FIELDS : list string :=
  ["legacy_strength"; "current_summary_stale"; "next_action_stale"].

(** The system fields an update at one operation index may not change. *)
Definition immutable_fields (p : Patch) (generated : bool) : list string :=
  if (p_schema_generation p =? 1)%Z
  then bfilter (λ f, negb (mem f LEGACY_COMPATIBILITY_UPDATE_FIELDS)) IMMUTABLE_NODE_UPDATE_FIELDS
  else if generated
  then bfilter (λ f, negb (mem f ["current_summary_stale"; "next_action_stale"]))
         IMMUTABLE_NODE_UPDATE_FIELDS
  else IMMUTABLE_NODE_UPDATE_FIELDS.

(** [set(changes) & fields] is not empty. *)
Definition touches (changes : gmap string pyval) (fields : list string) : bool :=
  existsb (λ f, is_some (changes !! f)) fields.

(** ** Operations *)

(** The standing written by an update: kept on approval, else back to asserted. *)
Definition next_standing (p : Patch) (n : ProjectNode) : pyval :=
  PStr (standing_str (if decide (p_kind p = KApproval) then node_standing n else Asserted)).

Definition _record_belief_transition (previous updated : ProjectNode) (revision : Z)
    (cause : option BeliefCause) (st : GraphState) : GraphState :=
  match as_hypothesis previous, as_hypothesis updated, cause with
  | Some h, Some h', Some c =>
      if decide (hyp_status h = hyp_status h') then st
      else add_belief_transition
             {| bt_hypothesis_id := node_id previous; bt_from_status := hyp_status h;
                bt_to_status := hyp_status h'; bt_revision := revision; bt_cause := c |} st
  | _, _, _ => st
  end.

(** [Edge.model_validate]: the id must be a string, and a layer must result
    from the relation or be supplied. *)
Definition edge_validate (id : option string) (source target relation explanation : string)
    (supplied : option RelationLayer) (assessment : option EvidenceAssessment) (revision : Z) :
    res Edge :=
  match id, derive_base_relation_layer relation supplied with
  | Some id, Some layer =>
      Ok {| edge_id := id; edge_source := source; edge_target := target;
            edge_relation := relation; edge_layer_ := layer; edge_explanation := explanation;
            edge_assessment := assessment; edge_created_rev := revision |}
  | _, _ => Raise ValidationError
  end.

(** [edge.model_copy(update={"layer": layer})]. *)
Definition edge_with_layer (layer : RelationLayer) (e : Edge) : Edge :=
  {| edge_id := edge_id e; edge_source := edge_source e; edge_target := edge_target e;
     edge_relation := edge_relation e; edge_layer_ := layer;
     edge_explanation := edge_explanation e; edge_assessment := edge_assessment e;
     edge_created_rev := edge_created_rev e |}.

Definition relayer (st : GraphState) (e : Edge) : Edge :=
  edge_with_layer (edge_layer (gs_nodes st) (edge_source e) (edge_target e) (edge_layer_ e)) e.

(** The validated edge of a creation, with its declared layer: an absent id is
    generated, an explicit null stays. *)
Definition new_edge_validate (o : OntologyState) (e : NewEdge) (revision : Z) : res Edge :=
  edge_validate
    (default (Some (generated_edge_id (ne_source e) (ne_relation e) (ne_target e))) (ne_id e))
    (ne_source e) (ne_target e) (ne_relation e) (ne_explanation e)
    (ord_layer <$> custom_relation o (ne_relation e)) (ne_assessment e) revision.

(** The edge a supersession or a merge writes; its relation is a base relation. *)
Definition generated_edge (source target relation explanation : string) (revision : Z) : Edge :=
  {| edge_id := generated_edge_id source relation target; edge_source := source;
     edge_target := target; edge_relation := relation; edge_layer_ := Meta;
     edge_explanation := explanation; edge_assessment := None; edge_created_rev := revision |}.

Section apply.
Context `{NodeAdapter}.

Definition created_node_data (n : ProjectNode) (revision : Z) : pydict :=
  let d := node_dump_set n in
  let d := dset d "created_rev" (PInt revision) in
  let d := dset d "updated_rev" (PInt revision) in
  dset d "standing" (default (PStr "asserted") (dget d "standing")).

Definition apply_create_node (revision : Z) (st : GraphState) (raw : ProjectNode) : res GraphState :=
  n ← validate_python (created_node_data raw revision);
  Ok (put_node n st).

Definition updated_node_data (p : Patch) (n : ProjectNode) (changes : gmap string pyval) : pydict :=
  let d := dupdate (node_dump n) changes in
  let d := dset d "updated_rev" (PInt (p_revision p)) in
  dset d "standing" (next_standing p n).

Definition apply_update_node (p : Patch) (generated : bool) (st : GraphState) (u : NodeUpdate) :
    res GraphState :=
  n ← get_item (gs_nodes st) (nu_id u);
  _ ← require (negb (touches (nu_changes u) (immutable_fields p generated)));
  let data := updated_node_data p n (nu_changes u) in
  n' ← (if (p_schema_generation p =? 1)%Z then validate_python data else strict_project_node data);
  Ok (set_nodes <[node_id n := n']>
        (_record_belief_transition n n' (p_revision p) (nu_cause u) st)).

(** The accumulator also carries the ids of the edges created so far. *)
Definition apply_create_edge (revision : Z) (acc : GraphState * list string) (raw : NewEdge) :
    res (GraphState * list string) :=
  let '(st, ids) := acc in
  e ← new_edge_validate (gs_ontology st) raw revision;
  let e' := relayer st e in
  Ok (put_edge e' st, ids ++ [edge_id e']).

Definition apply_remove_edges (ids : list string) (st : GraphState) : GraphState :=
  set_edges (λ m, foldl (λ m id, delete id m) m ids) st.

Definition apply_remove_nodes (ids : list string) (st : GraphState) : GraphState :=
  set_edges (filter (λ ke, edge_source ke.2 ∉ ids ∧ edge_target ke.2 ∉ ids))
    (set_nodes (filter (λ kn, kn.1 ∉ ids)) st).

Definition status_node_data (p : Patch) (n : ProjectNode) (status : string) : pydict :=
  let d := node_dump n in
  let d := dset d "status" (PStr status) in
  let d := dset d "updated_rev" (PInt (p_revision p)) in
  dset d "standing" (next_standing p n).

Definition _set_node_status (p : Patch) (st : GraphState) (id status : string) : res GraphState :=
  n ← get_item (gs_nodes st) id;
  n' ← validate_python (status_node_data p n status);
  Ok (set_nodes <[id := n']> st).

(** Retire one node as superseded and log the belief change it makes. *)
Definition retire_node (p : Patch) (st : GraphState) (id : string) (cause : option BeliefCause) :
    res GraphState :=
  previous ← get_item (gs_nodes st) id;
  st1 ← _set_node_status p st id "superseded";
  updated ← get_item (gs_nodes st1) id;
  Ok (_record_belief_transition previous updated (p_revision p) cause st1).

Definition apply_supersede_node (p : Patch) (st : GraphState) (i : SupersedeNode) : res GraphState :=
  st1 ← retire_node p st (sn_id i) (sn_cause i);
  Ok match sn_superseded_by i with
     | Some target =>
         if truthy target
         then put_edge (generated_edge (sn_id i) target "supersedes" (sn_explanation i)
                          (p_revision p)) st1
         else st1
     | None => st1
     end.

Definition apply_merge_node (p : Patch) (st : GraphState) (i : NodeMerge) : res GraphState :=
  st1 ← retire_node p st (nm_duplicate i) (nm_cause i);
  Ok (put_edge (generated_edge (nm_duplicate i) (nm_canonical i) "duplicate_of"
                  (nm_explanation i) (p_revision p)) st1).
End apply.

(** ** Operations on the other collections *)

Definition apply_create_ambiguity (revision : Z) (raw : NewAmbiguity) (st : GraphState) : GraphState :=
  set_ambiguities
    <[na_id raw := {| amb_id := na_id raw; amb_question := na_question raw;
                      amb_why_it_matters := na_why_it_matters raw;
                      amb_candidates := na_candidates raw;
                      amb_related_node_ids := na_related_node_ids raw;
                      amb_artifact_refs := na_artifact_refs raw;
                      amb_status := na_status raw; amb_raised_rev := revision |}]> st.

Definition apply_resolve_ambiguity (st : GraphState) (r : AmbiguityResolution) : res GraphState :=
  a ← get_item (gs_ambiguities st) (ar_id r);
  Ok (set_ambiguities
        <[amb_id a := {| amb_id := amb_id a; amb_question := amb_question a;
                         amb_why_it_matters := amb_why_it_matters a;
                         amb_candidates := amb_candidates a;
                         amb_related_node_ids := amb_related_node_ids a;
                         amb_artifact_refs := amb_artifact_refs a;
                         amb_status := ar_status r; amb_raised_rev := amb_raised_rev a |}]> st).

(** ["human" if patch.author == "human" else "agent"]. *)
Definition author_role (p : Patch) : Role :=
  match p_author p with Some RHuman => RHuman | _ => RAgent end.

(** The Proposal [raw] with the bookkeeping RCP owns; [model_copy] adds the
    updated names to [model_fields_set]. *)
Definition proposal_raised (p : Patch) (st : GraphState) (raw : Proposal) : Proposal :=
  let '(ns, es, cs) := proposal_dependencies st (prop_ops raw) in
  {| prop_id := prop_id raw; prop_title := prop_title raw; prop_card := prop_card raw;
     prop_ops := prop_ops raw; prop_related_node_ids := ns; prop_related_edge_ids := es;
     prop_related_config_keys := cs; prop_base_rev := gs_revision st;
     prop_status := prop_status raw;
     prop_created_by := if decide ("created_by" ∈ prop_fields_set raw)
                        then prop_created_by raw else author_role p;
     prop_created_by_operation_id :=
       if decide ("created_by_operation_id" ∈ prop_fields_set raw)
       then prop_created_by_operation_id raw else p_source_operation_id p;
     prop_raised_rev := p_revision p; prop_resolved_rev := prop_resolved_rev raw;
     prop_resolved_by := prop_resolved_by raw;
     prop_resolved_by_operation_id := prop_resolved_by_operation_id raw;
     prop_resolution_reason := prop_resolution_reason raw;
     prop_rejection_reason := prop_rejection_reason raw;
     prop_fields_set := prop_fields_set raw ∪
       {["base_rev"; "related_node_ids"; "related_edge_ids"; "related_config_keys"; "created_by";
         "created_by_operation_id"; "raised_rev"]} |}.

Definition apply_create_proposal (p : Patch) (st : GraphState) (raw : Proposal) : GraphState :=
  set_proposals <[prop_id raw := proposal_raised p st raw]> st.

(** A resolved or withdrawn Proposal; a withdrawal leaves [rejection_reason]. *)
Definition proposal_closed (q : Proposal) (status : ProposalStatus) (revision : Z) (by_ : Role)
    (operation_id reason rejection_reason : option string) (fields : gset string) : Proposal :=
  {| prop_id := prop_id q; prop_title := prop_title q; prop_card := prop_card q;
     prop_ops := prop_ops q; prop_related_node_ids := prop_related_node_ids q;
     prop_related_edge_ids := prop_related_edge_ids q;
     prop_related_config_keys := prop_related_config_keys q; prop_base_rev := prop_base_rev q;
     prop_status := status; prop_created_by := prop_created_by q;
     prop_created_by_operation_id := prop_created_by_operation_id q;
     prop_raised_rev := prop_raised_rev q; prop_resolved_rev := Some revision;
     prop_resolved_by := Some by_; prop_resolved_by_operation_id := operation_id;
     prop_resolution_reason := reason; prop_rejection_reason := rejection_reason;
     prop_fields_set := prop_fields_set q ∪ fields |}.

Definition resolution_status (s : ResolutionStatus) : ProposalStatus :=
  match s with Approved => PApproved | Rejected => PRejected | Withdrawn => PWithdrawn end.

Definition closing_fields : gset string :=
  {["status"; "resolved_rev"; "resolved_by"; "resolved_by_operation_id"; "resolution_reason"]}.

Definition apply_resolve_proposal (p : Patch) (st : GraphState) (r : ProposalResolution) :
    res GraphState :=
  q ← get_item (gs_proposals st) (pr_id r);
  Ok (set_proposals
        <[prop_id q := proposal_closed q (resolution_status (pr_status r)) (p_revision p)
                         (author_role p) (p_source_operation_id p) (pr_reason r) (pr_reason r)
                         (closing_fields ∪ {["rejection_reason"]})]> st).

Definition apply_withdraw_proposal (p : Patch) (st : GraphState) (w : ProposalWithdrawal) :
    res GraphState :=
  q ← get_item (gs_proposals st) (pw_id w);
  Ok (set_proposals
        <[prop_id q := proposal_closed q PWithdrawn (p_revision p) RAgent
                         (p_source_operation_id p) (Some (pw_reason w)) (prop_rejection_reason q)
                         closing_fields]> st).

Definition apply_upsert_term (revision : Z) (raw : NewGlossaryTerm) (st : GraphState) : GraphState :=
  set_config (gs_project_truth_scope st) (gs_config_revisions st)
    (<[ngt_term raw := {| gt_term := ngt_term raw; gt_plain_definition := ngt_plain_definition raw;
                          gt_where_defined := ngt_where_defined raw;
                          gt_updated_rev := revision |}]> (gs_glossary st))
    (gs_ontology st) (gs_coverage st) st.

Definition updated_coverage (c : CoverageBoundary) (u : CoverageUpdate) : CoverageBoundary :=
  let norm l := sorted_set (list_to_set l) in
  {| cov_repositories_seen := norm (default (cov_repositories_seen c) (cu_repositories_seen u));
     cov_repositories_never_seen :=
       norm (default (cov_repositories_never_seen c) (cu_repositories_never_seen u));
     cov_sessions_read := norm (default (cov_sessions_read c) (cu_sessions_read u));
     cov_sessions_skipped := norm (default (cov_sessions_skipped c) (cu_sessions_skipped u));
     cov_earliest_timestamp := default (cov_earliest_timestamp c) (cu_earliest_timestamp u);
     cov_note := default (cov_note c) (cu_note u) |}.

Definition apply_set_coverage (u : CoverageUpdate) (st : GraphState) : GraphState :=
  set_config (gs_project_truth_scope st) (gs_config_revisions st) (gs_glossary st)
    (gs_ontology st) (updated_coverage (gs_coverage st) u) st.

(** [node.model_copy(update={"standing": .., "updated_rev": ..})]. *)
Definition node_reviewed (standing : Standing) (revision : Z) (n : ProjectNode) : ProjectNode :=
  let b := node_base n in
  {| node_base :=
       {| bn_id := bn_id b; bn_title := bn_title b; bn_extension_type := bn_extension_type b;
          bn_extension_fields := bn_extension_fields b; bn_standing := standing;
          bn_created_rev := bn_created_rev b; bn_updated_rev := revision;
          bn_source_refs := bn_source_refs b;
          bn_fields_set := bn_fields_set b ∪ {["standing"; "updated_rev"]} |};
     node_payload := node_payload n |}.

Definition apply_set_standing (revision : Z) (id : string) (standing : Standing) (st : GraphState) :
    res GraphState :=
  n ← get_item (gs_nodes st) id;
  Ok (set_nodes <[node_id n := node_reviewed standing revision n]> st).

Definition never_seen_after (c : CoverageBoundary) (scope : gset string) : gset string :=
  (list_to_set (cov_repositories_never_seen c) ∪ (scope ∖ list_to_set (cov_repositories_seen c)))
  ∩ scope.

Definition apply_set_project_truth_scope (revision : Z) (scope : list string) (st : GraphState) :
    GraphState :=
  let new_scope : gset string := list_to_set scope in
  let c := gs_coverage st in
  set_config (sorted_set new_scope) (<["project_truth_scope" := revision]> (gs_config_revisions st))
    (gs_glossary st) (gs_ontology st)
    {| cov_repositories_seen := cov_repositories_seen c;
       cov_repositories_never_seen := sorted_set (never_seen_after c new_scope);
       cov_sessions_read := cov_sessions_read c; cov_sessions_skipped := cov_sessions_skipped c;
       cov_earliest_timestamp := cov_earliest_timestamp c; cov_note := cov_note c |} st.

Definition apply_set_ontology (revision : Z) (o : OntologyState) (st : GraphState) : GraphState :=
  set_config (gs_project_truth_scope st) (<["ontology" := revision]> (gs_config_revisions st))
    (gs_glossary st) o (gs_coverage st) st.

(** ** Patches *)

(** The loop variables of [_apply_patch]: the forked state, the ids of the edges
    created so far, and the repository descriptors to register. *)
Record Staged := {
  stg_state : GraphState; stg_created : list string; stg_descriptors : list RepositoryDescriptor }.

Definition with_state (s : Staged) (st : GraphState) : Staged :=
  {| stg_state := st; stg_created := stg_created s; stg_descriptors := stg_descriptors s |}.

Section patch.
Context `{NodeAdapter}.

Definition apply_op (p : Patch) (generated : list nat) (s : Staged) (io : nat * GraphOperation) :
    res Staged :=
  let '(index, op) := io in
  let rev := p_revision p in
  let st := stg_state s in
  match op with
  | CreateNodes nodes => with_state s <$> res_fold (apply_create_node rev) st nodes
  | UpdateNodes updates =>
      with_state s <$>
        res_fold (apply_update_node p (bool_decide (index ∈ generated))) st updates
  | CreateEdges edges =>
      r ← res_fold (apply_create_edge rev) (st, stg_created s) edges;
      Ok {| stg_state := r.1; stg_created := r.2; stg_descriptors := stg_descriptors s |}
  | RemoveEdges ids => Ok (with_state s (apply_remove_edges ids st))
  | RemoveNodes ids => Ok (with_state s (apply_remove_nodes ids st))
  | SupersedeNodes items => with_state s <$> res_fold (apply_supersede_node p) st items
  | MergeNodes items => with_state s <$> res_fold (apply_merge_node p) st items
  | CreateAmbiguities l =>
      Ok (with_state s (foldl (λ st raw, apply_create_ambiguity rev raw st) st l))
  | ResolveAmbiguities l => with_state s <$> res_fold apply_resolve_ambiguity st l
  | CreateProposals l => Ok (with_state s (foldl (apply_create_proposal p) st l))
  | ResolveProposals l => with_state s <$> res_fold (apply_resolve_proposal p) st l
  | WithdrawProposals l => with_state s <$> res_fold (apply_withdraw_proposal p) st l
  | UpsertGlossary l => Ok (with_state s (foldl (λ st raw, apply_upsert_term rev raw st) st l))
  | SetCoverage u => Ok (with_state s (apply_set_coverage u st))
  | SetStanding id standing => with_state s <$> apply_set_standing rev id standing st
  | SetProjectTruthScope scope repository =>
      Ok {| stg_state := apply_set_project_truth_scope rev scope st;
            stg_created := stg_created s;
            stg_descriptors := stg_descriptors s ++
              match repository with Some r => [r] | None => [] end |}
  | SetOntology o => Ok (with_state s (apply_set_ontology rev o st))
  end.

(** Derive the layers of the created edges again from the completed graph. *)
Definition relayer_created (ids : list string) (st : GraphState) : GraphState :=
  foldl (λ st id, match gs_edges st !! id with
                  | Some e => set_edges <[id := relayer st e]> st
                  | None => st
                  end) st (stable_dedup ∅ ids).

(** The indexes whose updates may write system fields. *)
Definition generated_indexes (p : Patch) (system : list nat) : list nat :=
  system ++ match p_transition p with
            | Some tr => tga_operation_index <$> tt_generated_actions tr
            | None => []
            end.

(** The revision never decreases; a seed or a refresh dates the graph. *)
Definition close_patch (p : Patch) (st : GraphState) : GraphState :=
  set_log (Z.max (gs_revision st) (p_revision p)) (gs_validation_messages st)
    (gs_belief_transitions st) (gs_replay_status st) (gs_replay_failure st)
    (if decide (p_kind p = KSeed ∨ p_kind p = KRefresh) then Some (p_created_at p)
     else gs_last_refresh_at st) st.

Definition _apply_patch (st : GraphState) (p : Patch) (descriptors : list RepositoryDescriptor)
    (system : list nat) : res (GraphState * list RepositoryDescriptor) :=
  s ← res_fold (apply_op p (generated_indexes p system))
        {| stg_state := st; stg_created := []; stg_descriptors := descriptors |}
        (imap pair (p_ops p));
  Ok (close_patch p (relayer_created (stg_created s) (stg_state s)), stg_descriptors s).

Definition apply_valid_patch (st : GraphState) (p : Patch) : res GraphState :=
  fst <$> _apply_patch st p [] [].

(** [patch.model_copy(update={"ops": ops})]. *)
Definition with_ops (p : Patch) (ops : list GraphOperation) : Patch :=
  {| p_schema_generation := p_schema_generation p; p_revision := p_revision p;
     p_kind := p_kind p; p_author := p_author p; p_producer := p_producer p;
     p_created_at := p_created_at p; p_summary := p_summary p; p_ops := ops;
     p_run_truth_scope := p_run_truth_scope p; p_repositories_read := p_repositories_read p;
     p_processed_cursors := p_processed_cursors p; p_change_summary := p_change_summary p;
     p_source_operation_id := p_source_operation_id p;
     p_source_effect_id := p_source_effect_id p;
     p_source_effect_sha256 := p_source_effect_sha256 p;
     p_human_action := p_human_action p; p_agent_action := p_agent_action p;
     p_admission := p_admission p; p_admission_messages := p_admission_messages p;
     p_experiment_control_node_id := p_experiment_control_node_id p;
     p_experiment_decision_bundle := p_experiment_decision_bundle p;
     p_project_identity := p_project_identity p;
     p_project_home_transfer := p_project_home_transfer p;
     p_authorized_by := p_authorized_by p; p_profile := p_profile p; p_task_id := p_task_id p;
     p_episode_id := p_episode_id p; p_branch_merge := p_branch_merge p;
     p_transition := p_transition p |}.

Definition apply_valid_operation (st : GraphState) (p : Patch) (op : GraphOperation) :
    res GraphState :=
  r ← _apply_patch st (with_ops p [op]) [] [];
  Ok (set_revision (gs_revision st) r.1).

Definition apply_transition_generated_operation (st : GraphState) (p : Patch)
    (op : GraphOperation) : res GraphState :=
  r ← _apply_patch st (with_ops p [op]) [] [0];
  Ok (set_revision (gs_revision st) r.1).
End patch.

(** ** Proposal bookkeeping *)

(** Rewrite the Proposals a Patch creates, other operations kept. *)
Definition map_proposals (f : Proposal → Proposal) (p : Patch) : Patch :=
  with_ops p ((λ op, match op with
                     | CreateProposals ps => CreateProposals (f <$> ps)
                     | _ => op
                     end) <$> p_ops p).

Definition prepared_proposal (st : GraphState) (p : Patch) (q : Proposal) : Proposal :=
  let '(ns, es, cs) := proposal_dependencies st (prop_ops q) in
  {| prop_id := prop_id q; prop_title := prop_title q; prop_card := prop_card q;
     prop_ops := prop_ops q; prop_related_node_ids := ns; prop_related_edge_ids := es;
     prop_related_config_keys := cs; prop_base_rev := gs_revision st; prop_status := PPending;
     prop_created_by := author_role p; prop_created_by_operation_id := p_source_operation_id p;
     prop_raised_rev := 0; prop_resolved_rev := None; prop_resolved_by := None;
     prop_resolved_by_operation_id := None; prop_resolution_reason := None;
     prop_rejection_reason := None;
     prop_fields_set := prop_fields_set q ∪
       {["related_node_ids"; "related_edge_ids"; "related_config_keys"; "base_rev"; "status";
         "created_by"; "created_by_operation_id"; "raised_rev"; "resolved_rev"; "resolved_by";
         "resolved_by_operation_id"; "resolution_reason"; "rejection_reason"]} |}.

Definition prepare_patch_bookkeeping (st : GraphState) (p : Patch) : Patch :=
  map_proposals (prepared_proposal st p) p.

Definition finalized_proposal (staged : GraphState) (q : Proposal) : Proposal :=
  match gs_proposals staged !! prop_id q with
  | None => q
  | Some s =>
      {| prop_id := prop_id q; prop_title := prop_title q; prop_card := prop_card q;
         prop_ops := prop_ops q; prop_related_node_ids := prop_related_node_ids s;
         prop_related_edge_ids := prop_related_edge_ids s;
         prop_related_config_keys := prop_related_config_keys s; prop_base_rev := prop_base_rev q;
         prop_status := prop_status q; prop_created_by := prop_created_by q;
         prop_created_by_operation_id := prop_created_by_operation_id q;
         prop_raised_rev := prop_raised_rev q; prop_resolved_rev := prop_resolved_rev q;
         prop_resolved_by := prop_resolved_by q;
         prop_resolved_by_operation_id := prop_resolved_by_operation_id q;
         prop_resolution_reason := prop_resolution_reason q;
         prop_rejection_reason := prop_rejection_reason q;
         prop_fields_set := prop_fields_set q ∪
           {["related_node_ids"; "related_edge_ids"; "related_config_keys"]} |}
  end.

Definition finalize_patch_bookkeeping (p : Patch) (staged : GraphState) : Patch :=
  map_proposals (finalized_proposal staged) p.
