(* ===== verification/SemanticDelta.v ===== *)
(** The semantic difference of two graphs and its conflicts with main
    ([runs/branch_merge.py]): the typed delta of a branch, the conflicts with
    what main did meanwhile, and whether main already holds the delta.

    Objects are compared by their JSON documents without the fields that only
    record revisions.  A document holds every declared field, except a field the
    model keeps as unset; the text of a time is kept as the instant, and that of
    an enumeration as its name. *)

From S2P Require Export ThreeWay Materialize.

(** ** Documents of graph objects ([model_dump(mode="json")]) *)

Definition layer_str (l : RelationLayer) : string :=
  match l with Epistemic => "epistemic" | Action => "action" | Seam => "seam" | Meta => "meta" end.
Definition field_kind_str (k : FieldKind) : string :=
  match k with KText => "text" | KNumber => "number" | KBoolean => "boolean" | KTextList => "text_list" end.
Definition role_str (r : Role) : string := match r with RAgent => "agent" | RHuman => "human" end.
Definition proposal_status_str (s : ProposalStatus) : string :=
  match s with PPending => "pending" | PApproved => "approved" | PRejected => "rejected" | PWithdrawn => "withdrawn" end.

Definition py_opt {A} (f : A → pyval) (o : option A) : pyval :=
  match o with Some a => f a | None => PNone end.
Definition py_list {A} (f : A → pydict) (l : list A) : pyval := PList ((λ a, PDict (f a)) <$> l).

Definition assessment_dict (a : EvidenceAssessment) : pydict :=
  [("relevance", PStr (ea_relevance a)); ("weight", PStr (ea_weight a));
   ("scope", py_opt_str (ea_scope a)); ("qualifications", py_strs (ea_qualifications a))].

Definition edge_dict (e : Edge) : pydict :=
  [("id", PStr (edge_id e)); ("source", PStr (edge_source e)); ("target", PStr (edge_target e));
   ("relation", PStr (edge_relation e)); ("layer", PStr (layer_str (edge_layer_ e)));
   ("explanation", PStr (edge_explanation e));
   ("assessment", py_opt (PDict ∘ assessment_dict) (edge_assessment e));
   ("created_rev", PInt (edge_created_rev e))].

Definition ambiguity_dict (a : Ambiguity) : pydict :=
  [("id", PStr (amb_id a)); ("question", PStr (amb_question a));
   ("why_it_matters", PStr (amb_why_it_matters a)); ("candidates", py_strs (amb_candidates a));
   ("related_node_ids", py_strs (amb_related_node_ids a));
   ("artifact_refs", py_strs (amb_artifact_refs a)); ("status", PStr (amb_status a));
   ("raised_rev", PInt (amb_raised_rev a))].

Definition glossary_dict (t : GlossaryTerm) : pydict :=
  [("term", PStr (gt_term t)); ("plain_definition", PStr (gt_plain_definition t));
   ("where_defined", py_opt_str (gt_where_defined t)); ("updated_rev", PInt (gt_updated_rev t))].

Definition ontology_dict (o : OntologyState) : pydict :=
  [("types", py_list (λ t, [("name", PStr (otd_name t)); ("definition", PStr (otd_definition t));
       ("base_type", PStr (node_type_str (otd_base_type t)));
       ("layer", PStr (layer_str (otd_layer t))); ("deprecated", PBool (otd_deprecated t))])
      (ont_types o));
   ("fields", py_list (λ f, [("owner_type", PStr (ofd_owner_type f)); ("name", PStr (ofd_name f));
       ("definition", PStr (ofd_definition f)); ("kind", PStr (field_kind_str (ofd_kind f)));
       ("required", PBool (ofd_required f)); ("agent_writable", PBool (ofd_agent_writable f));
       ("deprecated", PBool (ofd_deprecated f))]) (ont_fields o));
   ("relations", py_list (λ r, [("name", PStr (ord_name r)); ("definition", PStr (ord_definition r));
       ("source_types", py_strs (ord_source_types r)); ("target_types", py_strs (ord_target_types r));
       ("layer", PStr (layer_str (ord_layer r))); ("deprecated", PBool (ord_deprecated r))])
      (ont_relations o))].

Definition coverage_dict (c : CoverageBoundary) : pydict :=
  [("repositories_seen", py_strs (cov_repositories_seen c));
   ("repositories_never_seen", py_strs (cov_repositories_never_seen c));
   ("sessions_read", py_strs (cov_sessions_read c));
   ("sessions_skipped", py_strs (cov_sessions_skipped c));
   ("earliest_timestamp", py_opt_time (cov_earliest_timestamp c)); ("note", PStr (cov_note c))].

(** The operations a Proposal would replay. *)
Definition cause_dict (c : BeliefCause) : pydict :=
  match c with
  | EvidenceEdgeCause r => [("kind", PStr "evidence_edge"); ("ref_id", PStr r)]
  | DecisionCause r => [("kind", PStr "decision"); ("ref_id", PStr r)]
  | ProposalResolutionCause r => [("kind", PStr "proposal_resolution"); ("ref_id", PStr r)]
  | HumanEditCause => [("kind", PStr "human_edit")]
  end.
Definition update_dict (u : NodeUpdate) : pydict :=
  [("id", PStr (nu_id u)); ("changes", PDict (map_to_list (nu_changes u)));
   ("cause", py_opt (PDict ∘ cause_dict) (nu_cause u)); ("base_updated_rev", py_opt PInt (nu_base_updated_rev u))].
Definition supersede_dict (s : SupersedeNode) : pydict :=
  [("id", PStr (sn_id s)); ("superseded_by", py_opt_str (sn_superseded_by s));
   ("explanation", PStr (sn_explanation s)); ("cause", py_opt (PDict ∘ cause_dict) (sn_cause s))].
Definition merge_dict (m : NodeMerge) : pydict :=
  [("duplicate", PStr (nm_duplicate m)); ("canonical", PStr (nm_canonical m));
   ("explanation", PStr (nm_explanation m)); ("cause", py_opt (PDict ∘ cause_dict) (nm_cause m))].
Definition set_field {A} (k : string) (f : A → pyval) (o : option A) : pydict :=
  match o with Some a => [(k, f a)] | None => [] end.
Definition new_edge_dict (e : NewEdge) : pydict :=
  set_field "id" py_opt_str (ne_id e) ++
  [("source", PStr (ne_source e)); ("target", PStr (ne_target e)); ("relation", PStr (ne_relation e));
   ("explanation", PStr (ne_explanation e));
   ("assessment", py_opt (PDict ∘ assessment_dict) (ne_assessment e))].
Definition repository_dict (r : RepositoryDescriptor) : pydict :=
  [("alias", PStr (rd_alias r)); ("machine", PStr (rd_machine r)); ("path", PStr (rd_path r))].
Definition new_ambiguity_dict (a : NewAmbiguity) : pydict :=
  [("id", PStr (na_id a)); ("question", PStr (na_question a)); ("why_it_matters", PStr (na_why_it_matters a));
   ("candidates", py_strs (na_candidates a)); ("related_node_ids", py_strs (na_related_node_ids a));
   ("artifact_refs", py_strs (na_artifact_refs a)); ("status", PStr (na_status a))].
Definition new_term_dict (t : NewGlossaryTerm) : pydict :=
  [("term", PStr (ngt_term t)); ("plain_definition", PStr (ngt_plain_definition t));
   ("where_defined", py_opt_str (ngt_where_defined t))].
Definition coverage_update_dict (c : CoverageUpdate) : pydict :=
  set_field "repositories_seen" py_strs (cu_repositories_seen c) ++
  set_field "repositories_never_seen" py_strs (cu_repositories_never_seen c) ++
  set_field "sessions_read" py_strs (cu_sessions_read c) ++
  set_field "sessions_skipped" py_strs (cu_sessions_skipped c) ++
  set_field "earliest_timestamp" py_opt_time (cu_earliest_timestamp c) ++ set_field "note" PStr (cu_note c).

(** The intent of a current operation; [serialize_ops] drops a legacy one. *)
Definition intent (legacy : bool) (s : string) : pydict := if legacy then [] else [("intent", PStr s)].
Definition proposal_op_dict (op : ProposalOperation) : pydict :=
  let kind s := [("op", PStr s)] in
  match op with
  | ProposalContentChange l ns => kind "update_nodes" ++ intent l "content_change" ++ [("nodes", py_list update_dict ns)]
  | ProposalStatusChange l ns => kind "update_nodes" ++ intent l "status_change" ++ [("nodes", py_list update_dict ns)]
  | ProposalRemoval l ids => kind "remove_nodes" ++ intent l "removal" ++ [("node_ids", py_strs ids)]
  | ProposalSupersede l ns => kind "supersede_nodes" ++ intent l "supersede" ++ [("nodes", py_list supersede_dict ns)]
  | ProposalMerge l ms => kind "merge_nodes" ++ intent l "merge" ++ [("merges", py_list merge_dict ms)]
  | ProposalProtectedRelation l o edges ids =>
      kind (match o with RelCreateEdges => "create_edges" | RelRemoveEdges => "remove_edges" end) ++
      intent l "protected_relation_change" ++
      set_field "edges" (py_opt (py_list new_edge_dict)) edges ++ set_field "edge_ids" (py_opt py_strs) ids
  | LegacyProposalSetProjectTruthScope scope r =>
      kind "set_project_truth_scope" ++
      [("truth_scope", py_strs scope); ("repository", py_opt (PDict ∘ repository_dict) r)]
  | LegacyProposalSetOntology o => kind "set_ontology" ++ [("ontology", PDict (ontology_dict o))]
  | LegacyProposalCreateNodes ns => kind "create_nodes" ++ [("nodes", py_list node_dump_set ns)]
  | LegacyProposalCreateAmbiguities l => kind "create_ambiguities" ++ [("ambiguities", py_list new_ambiguity_dict l)]
  | LegacyProposalResolveAmbiguities l =>
      kind "resolve_ambiguities" ++
      [("resolutions", py_list (λ r, [("id", PStr (ar_id r)); ("status", PStr (ar_status r))]) l)]
  | LegacyProposalUpsertGlossary l => kind "upsert_glossary" ++ [("terms", py_list new_term_dict l)]
  | LegacyProposalSetCoverage c => kind "set_coverage" ++ [("coverage", PDict (coverage_update_dict c))]
  end.

Definition card_dict (c : GatedCard) : pydict :=
  [("situation_cold", PStr (gc_situation_cold c)); ("why_human_now", PStr (gc_why_human_now c));
   ("consequences", PStr (gc_consequences c)); ("decision_needed", PStr (gc_decision_needed c))].
Definition proposal_dict (q : Proposal) : pydict :=
  [("id", PStr (prop_id q)); ("title", PStr (prop_title q)); ("card", PDict (card_dict (prop_card q)));
   ("ops", py_list proposal_op_dict (prop_ops q));
   ("related_node_ids", py_strs (prop_related_node_ids q));
   ("related_edge_ids", py_strs (prop_related_edge_ids q));
   ("related_config_keys", py_strs (prop_related_config_keys q)); ("base_rev", PInt (prop_base_rev q));
   ("status", PStr (proposal_status_str (prop_status q))); ("created_by", PStr (role_str (prop_created_by q)));
   ("created_by_operation_id", py_opt_str (prop_created_by_operation_id q));
   ("raised_rev", PInt (prop_raised_rev q)); ("resolved_rev", py_opt PInt (prop_resolved_rev q));
   ("resolved_by", py_opt (PStr ∘ role_str) (prop_resolved_by q));
   ("resolved_by_operation_id", py_opt_str (prop_resolved_by_operation_id q));
   ("resolution_reason", py_opt_str (prop_resolution_reason q));
   ("rejection_reason", py_opt_str (prop_rejection_reason q))].

(** ** Collections *)

(** One of the five keyed collections of a graph: its name, the document and the
    identity of an item, and the fields that only record revisions. *)
Record Collection (V : Type) := {
  col_name : string; col_dict : V → pydict; col_id : V → string; col_bookkeeping : list string }.
Arguments col_name {_} _.
Arguments col_dict {_} _.
Arguments col_id {_} _.
Arguments col_bookkeeping {_} _.

Definition _SEMANTIC_NODE_BOOKKEEPING : list string := ["created_rev"; "updated_rev"].
Definition _SEMANTIC_EDGE_BOOKKEEPING : list string := ["created_rev"].
Definition _SEMANTIC_PROPOSAL_BOOKKEEPING : list string :=
  ["base_rev"; "raised_rev"; "resolved_rev"; "created_by_operation_id"; "resolved_by_operation_id"].
Definition _SEMANTIC_AMBIGUITY_BOOKKEEPING : list string := ["raised_rev"].
Definition _SEMANTIC_GLOSSARY_BOOKKEEPING : list string := ["updated_rev"].

Definition node_collection : Collection ProjectNode :=
  {| col_name := "nodes"; col_dict := node_dump; col_id := node_id; col_bookkeeping := _SEMANTIC_NODE_BOOKKEEPING |}.
Definition edge_collection : Collection Edge :=
  {| col_name := "edges"; col_dict := edge_dict; col_id := edge_id; col_bookkeeping := _SEMANTIC_EDGE_BOOKKEEPING |}.
Definition proposal_collection : Collection Proposal :=
  {| col_name := "proposals"; col_dict := proposal_dict; col_id := prop_id;
     col_bookkeeping := _SEMANTIC_PROPOSAL_BOOKKEEPING |}.
Definition ambiguity_collection : Collection Ambiguity :=
  {| col_name := "ambiguities"; col_dict := ambiguity_dict; col_id := amb_id;
     col_bookkeeping := _SEMANTIC_AMBIGUITY_BOOKKEEPING |}.
Definition glossary_collection : Collection GlossaryTerm :=
  {| col_name := "glossary"; col_dict := glossary_dict; col_id := gt_term;
     col_bookkeeping := _SEMANTIC_GLOSSARY_BOOKKEEPING |}.

(** [model_dump(exclude=bookkeeping)]. *)
Definition exclude (bookkeeping : list string) (d : pydict) : pydict :=
  bfilter (λ kv, negb (mem kv.1 bookkeeping)) d.

(** What changed for one identity. *)
Record SemanticChange (V : Type) := {
  sc_change : string; sc_id : string; sc_before : option V; sc_after : option V }.
Arguments sc_change {_} _.
Arguments sc_id {_} _.
Arguments sc_before {_} _.
Arguments sc_after {_} _.

(** A conflict: where, and the three values; the prose is dropped. *)
Record BranchMergeConflict := {
  bmc_code : string; bmc_collection : string; bmc_entity_id : option string;
  bmc_field_path : string; bmc_base : pyval; bmc_branch : pyval; bmc_main : pyval }.

(** The identities of collections, sorted. *)
Definition sorted_ids {V} (a b : gmap string V) : list string := sorted_set (dom a ∪ dom b).

Section collection.
Context {V : Type} (c : Collection V).

Definition _semantic_document (v : V) : pyval := PDict (exclude (col_bookkeeping c) (col_dict c v)).
Definition _optional_semantic_document (o : option V) : option pyval := option_map _semantic_document o.

(** [_require_change_shape]. *)
Definition _require_change_shape (change : string) (before after : option V) (identity : string) : res unit :=
  _ ← require (if str_eqb change "created" then negb (is_some before) && is_some after else true);
  _ ← require (if str_eqb change "updated" then is_some before && is_some after else true);
  _ ← require (if str_eqb change "removed" then is_some before && negb (is_some after) else true);
  require (forallb (λ o, match o with Some v => str_eqb (col_id c v) identity | None => true end) [before; after]).

Definition semantic_change (change : string) (before after : option V) (identity : string) :
    res (SemanticChange V) :=
  _ ← _require_change_shape change before after identity;
  Ok {| sc_change := change; sc_id := identity; sc_before := before; sc_after := after |}.

(** One turn of the loop of [_typed_collection_delta], and the loop. *)
Definition identity_delta (before after : gmap string V) (identity : string) : res (list (SemanticChange V)) :=
  match before !! identity, after !! identity with
  | None, new => change ← semantic_change "created" None new identity; Ok [change]
  | old, None => change ← semantic_change "removed" old None identity; Ok [change]
  | Some old, Some new =>
      if py_eqb (_semantic_document old) (_semantic_document new) then Ok []
      else change ← semantic_change "updated" (Some old) (Some new) identity; Ok [change]
  end.
Definition _typed_collection_delta (before after : gmap string V) : res (list (SemanticChange V)) :=
  changes ← res_map (identity_delta before after) (sorted_ids before after);
  Ok (concat changes).

Definition or_null (o : option pyval) : pyval := default PNone o.

(** [_conflict]. *)
Definition _conflict (code identity field_path : string) (base branch main : pyval) : BranchMergeConflict :=
  {| bmc_code := code; bmc_collection := col_name c; bmc_entity_id := Some identity;
     bmc_field_path := field_path; bmc_base := base; bmc_branch := branch; bmc_main := main |}.

(** One turn of the loop of [_collection_conflicts], on the three documents. *)
Definition identity_conflicts (identity : string) (base branch main : option pyval) : list BranchMergeConflict :=
  let whole code := [_conflict code identity "$" (or_null base) (or_null branch) (or_null main)] in
  if opt_eqb base branch then []
  else match base, branch, main with
  | None, _, _ =>
      if is_some main && negb (opt_eqb main branch) then whole "branch_created_main_created" else []
  | Some _, None, _ =>
      if negb (opt_eqb main base || opt_eqb main None) then whole "branch_removed_main_changed" else []
  | Some _, Some _, None => whole "branch_changed_main_removed"
  | Some b, Some br, Some m =>
      (λ f, _conflict "both_changed" identity f.1 f.2.1.1 f.2.1.2 f.2.2) <$> _conflicting_fields b br m ""
  end.

(** [_collection_conflicts]. *)
Definition _collection_conflicts (base branch main : gmap string V) : list BranchMergeConflict :=
  let doc d identity := _optional_semantic_document (d !! identity) in
  sorted_ids base branch ≫= λ identity,
    identity_conflicts identity (doc base identity) (doc branch identity) (doc main identity).

(** [_semantic_change_is_subsumed], on the item main has under the identity. *)
Definition change_is_subsumed (values : gmap string V) (change : SemanticChange V) : bool :=
  _semantic_change_is_subsumed (sc_change change) (_optional_semantic_document (sc_before change))
    (_optional_semantic_document (sc_after change)) (_optional_semantic_document (values !! sc_id change)).
End collection.

(** ** Graphs *)

Record GlobalSemanticDelta := { gsd_field : string; gsd_before : pyval; gsd_after : pyval }.

Record GraphSemanticDelta := {
  gd_base_head : GraphHeadRef; gd_branch_head : GraphHeadRef;
  gd_nodes : list (SemanticChange ProjectNode); gd_edges : list (SemanticChange Edge);
  gd_proposals : list (SemanticChange Proposal); gd_ambiguities : list (SemanticChange Ambiguity);
  gd_glossary : list (SemanticChange GlossaryTerm); gd_globals : list GlobalSemanticDelta }.

(** [GraphSemanticDelta.is_empty]. *)
Definition is_empty_delta (d : GraphSemanticDelta) : bool :=
  is_nil (gd_nodes d) && is_nil (gd_edges d) && is_nil (gd_proposals d) &&
  is_nil (gd_ambiguities d) && is_nil (gd_glossary d) && is_nil (gd_globals d).

(** The three fields of a graph that are compared as a whole. *)
Definition global_fields : list string := ["project_truth_scope"; "ontology"; "coverage"].
Definition global_document (st : GraphState) (field : string) : pyval :=
  if str_eqb field "project_truth_scope" then py_strs (gs_project_truth_scope st)
  else if str_eqb field "ontology" then PDict (ontology_dict (gs_ontology st))
  else PDict (coverage_dict (gs_coverage st)).

(** [build_semantic_delta]. *)
Definition build_semantic_delta (base branch : GraphState) (base_head branch_head : GraphHeadRef) :
    res GraphSemanticDelta :=
  _ ← require ((gs_revision base =? head_revision base_head)%Z && (gs_revision branch =? head_revision branch_head)%Z);
  _ ← require (is_main base_head && bool_decide (tgt_kind (head_target branch_head) = TargetBranch));
  let global (changed : bool) field :=
    if changed
    then [{| gsd_field := field; gsd_before := global_document base field; gsd_after := global_document branch field |}]
    else [] in
  nodes ← _typed_collection_delta node_collection (gs_nodes base) (gs_nodes branch);
  edges ← _typed_collection_delta edge_collection (gs_edges base) (gs_edges branch);
  proposals ← _typed_collection_delta proposal_collection (gs_proposals base) (gs_proposals branch);
  ambiguities ← _typed_collection_delta ambiguity_collection (gs_ambiguities base) (gs_ambiguities branch);
  glossary ← _typed_collection_delta glossary_collection (gs_glossary base) (gs_glossary branch);
  Ok {| gd_base_head := base_head; gd_branch_head := branch_head; gd_nodes := nodes; gd_edges := edges;
        gd_proposals := proposals; gd_ambiguities := ambiguities; gd_glossary := glossary;
        gd_globals :=
          global (negb (bool_decide (gs_project_truth_scope base = gs_project_truth_scope branch))) "project_truth_scope" ++
          global (negb (bool_decide (gs_ontology base = gs_ontology branch))) "ontology" ++
          global (negb (bool_decide (gs_coverage base = gs_coverage branch))) "coverage" |}.

(** The conflicts of one whole field. *)
Definition global_conflicts (base branch main : GraphState) (field : string) : list BranchMergeConflict :=
  (λ f, {| bmc_code := "both_changed"; bmc_collection := field; bmc_entity_id := None;
           bmc_field_path := f.1; bmc_base := f.2.1.1; bmc_branch := f.2.1.2; bmc_main := f.2.2 |})
  <$> _conflicting_fields (global_document base field) (global_document branch field) (global_document main field) field.

(** [detect_branch_merge_conflicts]. *)
Definition detect_branch_merge_conflicts (base branch main : GraphState) : list BranchMergeConflict :=
  _collection_conflicts node_collection (gs_nodes base) (gs_nodes branch) (gs_nodes main) ++
  _collection_conflicts edge_collection (gs_edges base) (gs_edges branch) (gs_edges main) ++
  _collection_conflicts proposal_collection (gs_proposals base) (gs_proposals branch) (gs_proposals main) ++
  _collection_conflicts ambiguity_collection (gs_ambiguities base) (gs_ambiguities branch) (gs_ambiguities main) ++
  _collection_conflicts glossary_collection (gs_glossary base) (gs_glossary branch) (gs_glossary main) ++
  (global_fields ≫= global_conflicts base branch main).

(** [semantic_delta_is_subsumed]. *)
Definition semantic_delta_is_subsumed (delta : GraphSemanticDelta) (main : GraphState) : bool :=
  forallb (change_is_subsumed node_collection (gs_nodes main)) (gd_nodes delta) &&
  forallb (change_is_subsumed edge_collection (gs_edges main)) (gd_edges delta) &&
  forallb (change_is_subsumed proposal_collection (gs_proposals main)) (gd_proposals delta) &&
  forallb (change_is_subsumed ambiguity_collection (gs_ambiguities main)) (gd_ambiguities delta) &&
  forallb (change_is_subsumed glossary_collection (gs_glossary main)) (gd_glossary delta) &&
  forallb (λ change, _branch_changes_are_present (Some (gsd_before change)) (Some (gsd_after change))
                       (Some (global_document main (gsd_field change)))) (gd_globals delta).

(** ** The document of a graph and its write paths *)

Definition collection_document {V} (c : Collection V) (values : gmap string V) : pydict :=
  (λ kv, (kv.1, _semantic_document c kv.2)) <$> map_to_list values.

(** [_graph_semantic_document]. *)
Definition _graph_semantic_document (st : GraphState) : pydict :=
  [("nodes", PDict (collection_document node_collection (gs_nodes st)));
   ("edges", PDict (collection_document edge_collection (gs_edges st)));
   ("proposals", PDict (collection_document proposal_collection (gs_proposals st)));
   ("ambiguities", PDict (collection_document ambiguity_collection (gs_ambiguities st)));
   ("glossary", PDict (collection_document glossary_collection (gs_glossary st)));
   ("project_truth_scope", global_document st "project_truth_scope");
   ("ontology", global_document st "ontology"); ("coverage", global_document st "coverage")].

(** The paths under one collection: an item only one side has is written whole. *)
Definition collection_write_paths (collection : string) (old new : pydict) : list path :=
  sorted_keys [old; new] ≫= λ identity,
    match dget old identity, dget new identity with
    | Some o, Some n => _document_write_paths o n [collection; identity]
    | _, _ => [[collection; identity; "$"]]
    end.
Definition global_write_paths (field : string) (old new : pyval) : list path :=
  match old, new with
  | PDict _, PDict _ => _document_write_paths old new [field]
  | _, _ => if py_eqb old new then [] else [[field; "$"]]
  end.

(** [_graph_semantic_write_paths]. *)
Definition _graph_semantic_write_paths (before after : GraphState) : list path :=
  collection_write_paths "nodes" (collection_document node_collection (gs_nodes before))
    (collection_document node_collection (gs_nodes after)) ++
  collection_write_paths "edges" (collection_document edge_collection (gs_edges before))
    (collection_document edge_collection (gs_edges after)) ++
  collection_write_paths "proposals" (collection_document proposal_collection (gs_proposals before))
    (collection_document proposal_collection (gs_proposals after)) ++
  collection_write_paths "ambiguities" (collection_document ambiguity_collection (gs_ambiguities before))
    (collection_document ambiguity_collection (gs_ambiguities after)) ++
  collection_write_paths "glossary" (collection_document glossary_collection (gs_glossary before))
    (collection_document glossary_collection (gs_glossary after)) ++
  (global_fields ≫= λ field, global_write_paths field (global_document before field) (global_document after field)).
