(* ===== verification/Steps.v ===== *)
(** The graph as a transition system: every operation of a Patch is a sequence
    of atomic steps.  [graph_step] says what one atomic change may do to a
    state; [apply_op_steps] shows that materialization performs nothing else, so
    the invariants of the graph are proved once, by induction on steps. *)

From S2P Require Export Materialize.

(** ** What one operation mentions *)

Definition op_created (op : GraphOperation) : list ProjectNode :=
  match op with CreateNodes ns => ns | _ => [] end.

(** Ids of the existing nodes whose content the operation writes. *)
Definition op_changed (op : GraphOperation) : list string :=
  match op with
  | UpdateNodes us => nu_id <$> us
  | SupersedeNodes items => sn_id <$> items
  | MergeNodes items => nm_duplicate <$> items
  | SetStanding id _ => [id]
  | _ => []
  end.

Definition op_removed (op : GraphOperation) : list string :=
  match op with RemoveNodes ids => ids | _ => [] end.

(** The id an applied edge creation stores: an explicit null never validates. *)
Definition applied_edge_id (e : NewEdge) : string :=
  default "" (default (Some (generated_edge_id (ne_source e) (ne_relation e) (ne_target e))) (ne_id e)).

(** Ids of the edges the operation writes or names for removal. *)
Definition op_edges (op : GraphOperation) : list string :=
  match op with
  | CreateEdges es => applied_edge_id <$> es
  | RemoveEdges ids => ids
  | SupersedeNodes items =>
      items ≫= λ i, match sn_superseded_by i with
                    | Some t => if truthy t then [generated_edge_id (sn_id i) "supersedes" t] else []
                    | None => [] end
  | MergeNodes items =>
      (λ i, generated_edge_id (nm_duplicate i) "duplicate_of" (nm_canonical i)) <$> items
  | _ => []
  end.

(** The endpoints of the edges the operation may write. *)
Definition op_endpoints (op : GraphOperation) : list (string * string) :=
  match op with
  | CreateEdges es => (λ e, (ne_source e, ne_target e)) <$> es
  | SupersedeNodes items =>
      items ≫= λ i, match sn_superseded_by i with
                    | Some t => if truthy t then [(sn_id i, t)] else [] | None => [] end
  | MergeNodes items => (λ i, (nm_duplicate i, nm_canonical i)) <$> items
  | _ => []
  end.

Definition op_causes (op : GraphOperation) : list BeliefCause :=
  match op with
  | UpdateNodes us => omap nu_cause us
  | SupersedeNodes items => omap sn_cause items
  | MergeNodes items => omap nm_cause items
  | _ => []
  end.

(** Every belief-changing item of the operation declares a cause. *)
Definition op_all_caused (op : GraphOperation) : bool :=
  match op with
  | UpdateNodes us => forallb (λ u, is_some (nu_cause u)) us
  | SupersedeNodes items => forallb (λ i, is_some (sn_cause i)) items
  | MergeNodes items => forallb (λ i, is_some (nm_cause i)) items
  | _ => true
  end.

Definition op_proposals (op : GraphOperation) : list string :=
  match op with
  | CreateProposals ps => prop_id <$> ps
  | ResolveProposals rs => pr_id <$> rs
  | WithdrawProposals ws => pw_id <$> ws
  | _ => []
  end.

(** ** Well-formed states: every collection is keyed by its elements' own ids *)

Definition keyed {V} (id : V → string) (m : gmap string V) : Prop :=
  map_Forall (λ k v, id v = k) m.

Record graph_wf (st : GraphState) : Prop := {
  wf_nodes : keyed node_id (gs_nodes st);
  wf_edges : keyed edge_id (gs_edges st);
  wf_proposals : keyed prop_id (gs_proposals st);
  wf_ambiguities : keyed amb_id (gs_ambiguities st);
  wf_glossary : keyed gt_term (gs_glossary st) }.

(** The fields no update may change. *)
Record same_identity (n n' : ProjectNode) : Prop := {
  si_id : node_id n' = node_id n;
  si_type : node_type n' = node_type n;
  si_extension : node_extension_type n' = node_extension_type n;
  si_created : node_created_rev n' = node_created_rev n }.

#[export] Instance same_identity_refl : Reflexive same_identity.
Proof. by constructor. Qed.
#[export] Instance same_identity_trans : Transitive same_identity.
Proof. intros ??? [] []. constructor; congruence. Qed.

(** ** Atomic steps *)

Inductive graph_step (p : Patch) (op : GraphOperation) : GraphState → GraphState → Prop :=
  | step_create_node st raw n :
      raw ∈ op_created op → node_id n = node_id raw → node_type n = node_type raw →
      node_created_rev n = p_revision p → node_updated_rev n = p_revision p →
      graph_step p op st (put_node n st)
  | step_change_node st id n n' cause :
      id ∈ op_changed op → gs_nodes st !! id = Some n → same_identity n n' →
      node_updated_rev n' = p_revision p →
      (∀ c, cause = Some c → c ∈ op_causes op) →
      (cause = None → node_status n' = node_status n ∨ op_all_caused op = false) →
      graph_step p op st
        (set_nodes <[id := n']> (_record_belief_transition n n' (p_revision p) cause st))
  | step_put_edge st e :
      edge_id e ∈ op_edges op → (edge_source e, edge_target e) ∈ op_endpoints op →
      edge_created_rev e = p_revision p → relayer st e = e →
      graph_step p op st (put_edge e st)
  | step_remove_edge st id :
      id ∈ op_edges op → graph_step p op st (set_edges (delete id) st)
  | step_remove_nodes st :
      graph_step p op st (apply_remove_nodes (op_removed op) st)
  | step_proposal st q :
      prop_id q ∈ op_proposals op → graph_step p op st (set_proposals <[prop_id q := q]> st)
  | step_ambiguity st a :
      graph_step p op st (set_ambiguities <[amb_id a := a]> st)
  | step_config st scope config glossary ontology coverage :
      keyed gt_term glossary →
      graph_step p op st (set_config scope config glossary ontology coverage st).

Definition graph_steps (p : Patch) (op : GraphOperation) : relation GraphState :=
  rtc (graph_step p op).

(** ** Lemmas *)

Lemma relayer_idem st e : relayer st (relayer st e) = relayer st e.
Proof. unfold relayer, edge_with_layer. simpl. by rewrite edge_layer_idem. Qed.

Lemma relayer_meta st e : edge_layer_ e = Meta → relayer st e = e.
Proof. intros He. unfold relayer. rewrite He, edge_layer_meta. destruct e; simpl in *; by subst. Qed.

Lemma keyed_insert {V} (id : V → string) (m : gmap string V) v :
  keyed id m → keyed id (<[id v := v]> m).
Proof. intros H. by apply map_Forall_insert_2. Qed.

Lemma keyed_insert_as {V} (id : V → string) (m : gmap string V) k v :
  id v = k → keyed id m → keyed id (<[k := v]> m).
Proof. intros <-. apply keyed_insert. Qed.

Lemma keyed_delete {V} (id : V → string) (m : gmap string V) k :
  keyed id m → keyed id (delete k m).
Proof. intros H. by apply map_Forall_delete. Qed.

Lemma keyed_filter {V} (id : V → string) (P : string * V → Prop) `{!∀ x, Decision (P x)}
    (m : gmap string V) :
  keyed id m → keyed id (filter P m).
Proof. intros Hm k v [? _]%map_lookup_filter_Some. by apply Hm. Qed.

Lemma keyed_empty {V} (id : V → string) : keyed id ∅.
Proof. apply map_Forall_empty. Qed.

#[export] Hint Resolve keyed_insert keyed_insert_as keyed_delete keyed_filter keyed_empty : rcp.

Lemma record_belief_none n n' rev st : _record_belief_transition n n' rev None st = st.
Proof. unfold _record_belief_transition. by repeat case_match. Qed.

Lemma record_belief_nodes n n' rev c st :
  gs_nodes (_record_belief_transition n n' rev c st) = gs_nodes st.
Proof. unfold _record_belief_transition. by repeat case_match. Qed.

(** Logging a belief change touches the log alone. *)
Lemma record_belief_frame n n' rev c st :
  gs_edges (_record_belief_transition n n' rev c st) = gs_edges st ∧
  gs_proposals (_record_belief_transition n n' rev c st) = gs_proposals st ∧
  gs_ambiguities (_record_belief_transition n n' rev c st) = gs_ambiguities st ∧
  gs_glossary (_record_belief_transition n n' rev c st) = gs_glossary st ∧
  gs_ontology (_record_belief_transition n n' rev c st) = gs_ontology st ∧
  gs_revision (_record_belief_transition n n' rev c st) = gs_revision st.
Proof. unfold _record_belief_transition. by repeat case_match. Qed.

Lemma graph_wf_initial scope : graph_wf (initial_state scope).
Proof. constructor; apply keyed_empty. Qed.

Lemma graph_step_wf p op st st' : graph_wf st → graph_step p op st st' → graph_wf st'.
Proof.
  intros [] Hs. destruct Hs as [| | | | | | |]; try (constructor; simpl; eauto with rcp; done).
  destruct (record_belief_frame n n' (p_revision p) cause st) as (He & Hp & Ha & Hg & _ & _).
  constructor; simpl; rewrite ?record_belief_nodes, ?He, ?Hp, ?Ha, ?Hg; auto.
  apply keyed_insert_as; [|done]. erewrite si_id by done. eauto.
Qed.

Lemma graph_steps_wf p op st st' : graph_wf st → graph_steps p op st st' → graph_wf st'.
Proof. induction 2; eauto using graph_step_wf. Qed.

Lemma dget_filter (P : string → Prop) `{!∀ k, Decision (P k)} (d : pydict) k :
  dget (filter (λ kv, P kv.1) d) k = if decide (P k) then dget d k else None.
Proof.
  induction d as [|[k' v] d IH]; [by destruct (decide (P k))|].
  rewrite filter_cons. simpl. destruct (decide (P k')), (decide (k = k')); subst; simpl.
  - by rewrite !decide_True.
  - by rewrite decide_False.
  - rewrite IH. by destruct (decide (P k')).
  - done.
Qed.

Lemma dget_dump_set n k v : dget (node_dump_set n) k = Some v → dget (node_dump n) k = Some v.
Proof.
  unfold node_dump_set.
  pose proof (dget_filter (λ k, k ∈ bn_fields_set (node_base n)) (node_dump n) k) as H.
  simpl in H. rewrite H. by case_decide.
Qed.

(** An update outside the system fields keeps every system field of the dump. *)
Lemma touches_false changes fields k :
  touches changes fields = false → k ∈ fields → changes !! k = None.
Proof.
  unfold touches. rewrite existsb_false. intros H Hk. specialize (H k Hk).
  by destruct (changes !! k).
Qed.

Lemma immutable_fields_core p g k :
  k ∈ ["id"; "type"; "extension_type"; "standing"; "created_rev"; "updated_rev"] →
  k ∈ immutable_fields p g.
Proof.
  unfold immutable_fields. destruct (_ =? 1)%Z; [|destruct g];
    rewrite !elem_of_cons, elem_of_nil; intros [->|[->|[->|[->|[->|[->|[]]]]]]]; by_decide.
Qed.

(** Membership in the ids an operation mentions. *)
Lemma elem_of_bind_intro {A B} (f : A → list B) (l : list A) x y : x ∈ l → y ∈ f x → y ∈ l ≫= f.
Proof. intros. apply list_elem_of_bind. eauto. Qed.

Lemma elem_of_omap_intro {A B} (f : A → option B) (l : list A) x y : x ∈ l → f x = Some y → y ∈ omap f l.
Proof. intros. apply list_elem_of_omap. eauto. Qed.

#[export] Hint Resolve elem_of_bind_intro elem_of_omap_intro list_elem_of_fmap_2 : rcp.

Lemma forallb_is_some_false {A B} (f : A → option B) l x :
  x ∈ l → f x = None → forallb (λ x, is_some (f x)) l = false.
Proof.
  intros Hx Hf. apply not_true_iff_false. rewrite forallb_forall. intros H.
  specialize (H x). rewrite Hf in H. discriminate H. by apply list_elem_of_In.
Qed.
#[export] Hint Resolve forallb_is_some_false : rcp.

Section adapter.
Context `{NodeAdapterLaws}.
Implicit Types (p : Patch) (n : ProjectNode) (st : GraphState).

Lemma created_node_ok raw rev n :
  validate_python (created_node_data raw rev) = Ok n →
  node_id n = node_id raw ∧ node_type n = node_type raw ∧
  node_created_rev n = rev ∧ node_updated_rev n = rev.
Proof.
  intros [Ht Hi _ _ _ Hc Hu _ _ _]%validate_python_accepts. unfold created_node_data in *.
  rewrite ?dget_dset_ne in Ht by done. rewrite ?dget_dset_ne in Hi by done.
  apply dget_dump_set in Ht, Hi. rewrite node_dump_type in Ht. rewrite node_dump_id in Hi.
  split_and!; [congruence|apply node_type_str_inj; congruence| |].
  - apply Hc. rewrite !dget_dset_ne by done. by rewrite dget_dset_eq.
  - apply Hu. rewrite dget_dset_ne by done. by rewrite dget_dset_eq.
Qed.

(** A document that keeps the identity fields of [n] validates to a node with
    the identity of [n]. *)
Lemma accepts_same_identity d n n' rev :
  accepts d n' → dget d "updated_rev" = Some (PInt rev) →
  (∀ k, k ∈ ["id"; "type"; "extension_type"; "created_rev"] → dget d k = dget (node_dump n) k) →
  same_identity n n' ∧ node_updated_rev n' = rev.
Proof.
  intros [Ht Hi _ _ He Hc Hu _ _ _] Hrev Hd. split; [|by apply Hu].
  rewrite Hd in Ht, Hi by set_solver. rewrite node_dump_type in Ht. rewrite node_dump_id in Hi.
  constructor; [congruence|apply node_type_str_inj; congruence| |].
  - symmetry. apply py_opt_str_inj, He. rewrite Hd by set_solver. apply node_dump_extension_type.
  - apply Hc. rewrite Hd by set_solver. apply node_dump_created.
Qed.

Lemma updated_node_ok p g n changes n' :
  touches changes (immutable_fields p g) = false →
  (validate_python (updated_node_data p n changes) = Ok n' ∨
   strict_project_node (updated_node_data p n changes) = Ok n') →
  same_identity n n' ∧ node_updated_rev n' = p_revision p.
Proof.
  intros Ht Hv. apply accepts_same_identity with (d := updated_node_data p n changes).
  - destruct Hv as [Hv|Hv]; [by apply validate_python_accepts|by apply strict_project_node_accepts].
  - unfold updated_node_data. rewrite dget_dset_ne by done. by rewrite dget_dset_eq.
  - intros k Hk. unfold updated_node_data. rewrite !dget_dset_ne by set_solver.
    rewrite dget_dupdate. rewrite (touches_false _ _ _ Ht); [done|].
    apply immutable_fields_core. set_solver.
Qed.

Lemma status_node_ok p n status n' :
  validate_python (status_node_data p n status) = Ok n' →
  same_identity n n' ∧ node_updated_rev n' = p_revision p.
Proof.
  intros Hv%validate_python_accepts. eapply accepts_same_identity; [exact Hv| |].
  - unfold status_node_data. rewrite dget_dset_ne by done. by rewrite dget_dset_eq.
  - intros k Hk. unfold status_node_data. rewrite !dget_dset_ne by set_solver. done.
Qed.

Lemma edge_validate_ok id s t r x l a rev e :
  edge_validate id s t r x l a rev = Ok e →
  id = Some (edge_id e) ∧ edge_source e = s ∧ edge_target e = t ∧ edge_relation e = r ∧
  edge_created_rev e = rev ∧ derive_base_relation_layer r l = Some (edge_layer_ e).
Proof. unfold edge_validate. repeat case_match; intros; by simplify_eq/=. Qed.

(** ** Each operation is a sequence of its own atomic steps *)

Lemma update_node_steps p op g st st' u :
  graph_wf st → nu_id u ∈ op_changed op → (∀ c, nu_cause u = Some c → c ∈ op_causes op) →
  (nu_cause u = None → op_all_caused op = false) →
  apply_update_node p g st u = Ok st' → graph_step p op st st'.
Proof.
  unfold apply_update_node. intros Hwf Hin Hc Hn Ha. simplify_res.
  apply get_item_ok in E. apply require_ok, negb_true_iff in E0.
  pose proof (wf_nodes _ Hwf _ _ E) as Hid.
  destruct (updated_node_ok p g a (nu_changes u) a1) as [Hs Hu]; [done| |].
  { case_match; auto. }
  rewrite Hid. eapply step_change_node; eauto.
Qed.

Lemma retire_node_steps p op st st' id cause :
  id ∈ op_changed op → (∀ c, cause = Some c → c ∈ op_causes op) →
  (cause = None → op_all_caused op = false) →
  retire_node p st id cause = Ok st' → graph_step p op st st'.
Proof.
  unfold retire_node, _set_node_status. intros Hin Hc Hn Ha. simplify_res.
  repeat match goal with E : get_item _ _ = Ok _ |- _ => apply get_item_ok in E end.
  simpl in *. rewrite lookup_insert_eq in *. simplify_eq.
  match goal with E : validate_python _ = _ |- _ => destruct (status_node_ok _ _ _ _ E) as [Hs Hu] end.
  replace (_record_belief_transition a a1 (p_revision p) cause (set_nodes <[id:=a1]> st))
    with (set_nodes <[id := a1]> (_record_belief_transition a a1 (p_revision p) cause st)).
  { eapply step_change_node; eauto. }
  unfold _record_belief_transition. by repeat case_match.
Qed.

Lemma supersede_node_steps p op st st' i :
  sn_id i ∈ op_changed op → (∀ c, sn_cause i = Some c → c ∈ op_causes op) →
  (sn_cause i = None → op_all_caused op = false) →
  (∀ t, sn_superseded_by i = Some t → truthy t = true →
     generated_edge_id (sn_id i) "supersedes" t ∈ op_edges op ∧ (sn_id i, t) ∈ op_endpoints op) →
  apply_supersede_node p st i = Ok st' → graph_steps p op st st'.
Proof.
  unfold apply_supersede_node. intros Hin Hc Hn He Ha. simplify_res.
  apply retire_node_steps with (op := op) in E; [|done..].
  eapply rtc_l; [exact E|]. destruct (sn_superseded_by i) as [t|]; [|done].
  destruct (truthy t) eqn:Ht; [|done]. destruct (He t) as [He1 He2]; [done..|].
  apply rtc_once, step_put_edge; [done..|by apply relayer_meta].
Qed.

Lemma merge_node_steps p op st st' i :
  nm_duplicate i ∈ op_changed op → (∀ c, nm_cause i = Some c → c ∈ op_causes op) →
  (nm_cause i = None → op_all_caused op = false) →
  generated_edge_id (nm_duplicate i) "duplicate_of" (nm_canonical i) ∈ op_edges op →
  (nm_duplicate i, nm_canonical i) ∈ op_endpoints op →
  apply_merge_node p st i = Ok st' → graph_steps p op st st'.
Proof.
  unfold apply_merge_node. intros Hin Hc Hn He He2 Ha. simplify_res.
  apply retire_node_steps with (op := op) in E; [|done..].
  eapply rtc_l; [exact E|]. apply rtc_once, step_put_edge; [done..|by apply relayer_meta].
Qed.

Lemma create_edge_steps p op st ids st' ids' raw :
  applied_edge_id raw ∈ op_edges op → (ne_source raw, ne_target raw) ∈ op_endpoints op →
  apply_create_edge (p_revision p) (st, ids) raw = Ok (st', ids') →
  graph_step p op st st' ∧ ids' = ids ++ [applied_edge_id raw].
Proof.
  unfold apply_create_edge, new_edge_validate. intros Hin Hends Ha. simplify_res.
  apply edge_validate_ok in E as (Hid & Hs & Ht & _ & Hr & _).
  unfold applied_edge_id in *. rewrite Hid in *. simpl in *. split; [|done].
  apply step_put_edge; [done|simpl; congruence|done|apply relayer_idem].
Qed.

Lemma remove_edges_steps p op st ids :
  (∀ id, id ∈ ids → id ∈ op_edges op) → graph_steps p op st (apply_remove_edges ids st).
Proof.
  unfold apply_remove_edges. revert st. induction ids as [|id ids IH]; intros st Hin; simpl.
  { by destruct st. }
  eapply rtc_l; [apply (step_remove_edge _ _ _ id); set_solver|].
  refine (eq_rect _ (graph_steps p op _) (IH (set_edges (delete id) st) _) _ eq_refl).
  set_solver.
Qed.
End adapter.

(** ** Whole operations and whole Patches *)

Section fold_steps.
Context (p : Patch) (op : GraphOperation) {A : Type}.

Lemma fold_steps (f : GraphState → A → res GraphState) l st st' :
  (∀ s x s', x ∈ l → graph_wf s → f s x = Ok s' → graph_steps p op s s') →
  graph_wf st → res_fold f st l = Ok st' → graph_steps p op st st'.
Proof.
  intros Hf Hwf Hr.
  cut (graph_wf st' ∧ graph_steps p op st st'); [tauto|]. revert Hr.
  apply (res_fold_inv (λ s, graph_wf s ∧ graph_steps p op st s)); [|split; [done|apply rtc_refl]].
  intros s x s' Hx [Hs Hst] Hfx. pose proof (Hf _ _ _ Hx Hs Hfx).
  split; [by eapply graph_steps_wf|by etrans].
Qed.

Lemma foldl_steps (f : GraphState → A → GraphState) l st :
  (∀ s x, x ∈ l → graph_wf s → graph_step p op s (f s x)) →
  graph_wf st → graph_steps p op st (foldl f st l).
Proof.
  revert st. induction l as [|x l IH]; intros st Hf Hwf; simpl; [apply rtc_refl|].
  assert (graph_step p op st (f st x)) as Hs by (apply Hf; [set_solver|done]).
  eapply rtc_l; [exact Hs|]. apply IH; [|by eapply graph_step_wf].
  intros. apply Hf; [set_solver|done].
Qed.
End fold_steps.

(** The ids the edge creations of an operation append to the accumulator. *)
Definition op_created_edges (op : GraphOperation) : list string :=
  match op with CreateEdges es => applied_edge_id <$> es | _ => [] end.

Section patch_steps.
Context `{NodeAdapterLaws}.
Implicit Types (p : Patch) (st : GraphState).

Lemma create_edges_steps p op es st ids st' ids' :
  op = CreateEdges es → graph_wf st →
  res_fold (apply_create_edge (p_revision p)) (st, ids) es = Ok (st', ids') →
  graph_steps p op st st' ∧ ids' = ids ++ (applied_edge_id <$> es).
Proof.
  intros -> Hwf. assert (∀ e, e ∈ es → applied_edge_id e ∈ op_edges (CreateEdges es)) as Hin.
  { intros e He. simpl. by apply list_elem_of_fmap_2. }
  assert (∀ e, e ∈ es → (ne_source e, ne_target e) ∈ op_endpoints (CreateEdges es)) as Hends.
  { intros e He. simpl. apply list_elem_of_fmap. eauto. }
  revert Hin Hends. generalize (CreateEdges es) as op. intros op Hin Hends. revert st ids Hwf.
  induction es as [|e es IH]; intros st ids Hwf Hf; simpl in Hf.
  { simplify_eq. rewrite app_nil_r. split; [apply rtc_refl|done]. }
  apply res_bind_ok in Hf as ([st1 ids1] & H1 & Hf).
  apply create_edge_steps with (op := op) in H1 as [H1 ->]; [|apply Hin; by left|apply Hends; by left].
  apply IH in Hf as [H2 ->]; [|intros; apply Hin; by right|intros; apply Hends; by right
    |by eapply graph_step_wf].
  split; [by eapply rtc_l|]. by rewrite fmap_cons, <-app_assoc.
Qed.

Lemma apply_op_steps p g s i op s' :
  graph_wf (stg_state s) → apply_op p g s (i, op) = Ok s' →
  graph_steps p op (stg_state s) (stg_state s') ∧
  stg_created s' = stg_created s ++ op_created_edges op.
Proof.
  intros Hwf Ha. destruct op; simpl in Ha; simplify_res; simpl; rewrite ?app_nil_r.
  all: try (split; [|done]).
  - eapply fold_steps; [|done..]. unfold apply_create_node. intros s1 x s2 Hx Hs Hc. simplify_res.
    apply created_node_ok in E0 as (?&?&?&?). by eapply rtc_once, step_create_node.
  - eapply fold_steps; [|done..]. intros s1 u s2 Hx Hs Hc.
    apply rtc_once. eapply update_node_steps; try done; simpl; eauto with rcp.
  - destruct a. by eapply create_edges_steps in E as [? ->].
  - by apply remove_edges_steps.
  - apply rtc_once, (step_remove_nodes _ (RemoveNodes node_ids)).
  - eapply fold_steps; [|done..]. intros s1 u s2 Hx Hs Hc.
    eapply supersede_node_steps; try done; simpl; eauto with rcp.
    intros t Ht Htr. split; (eapply elem_of_bind_intro; [done|]; simpl; rewrite Ht, Htr; by left).
  - eapply fold_steps; [|done..]. intros s1 u s2 Hx Hs Hc.
    eapply merge_node_steps; try done; simpl; eauto with rcp; apply list_elem_of_fmap; eauto.
  - apply foldl_steps; [|done]. intros. by apply (step_ambiguity _ _ _ {| amb_id := na_id x |}).
  - eapply fold_steps; [|done..]. unfold apply_resolve_ambiguity.
    intros s1 u s2 Hx Hs Hc. simplify_res. apply rtc_once.
    by apply (step_ambiguity _ _ _ {| amb_id := amb_id a0 |}).
  - apply foldl_steps; [|done]. intros s1 x Hx Hs. unfold apply_create_proposal.
    assert (prop_id x = prop_id (proposal_raised p s1 x)) as Hid.
    { unfold proposal_raised. by repeat case_match. }
    rewrite Hid at 1. apply step_proposal. rewrite <-Hid. simpl. eauto with rcp.
  - eapply fold_steps; [|done..]. unfold apply_resolve_proposal.
    intros s1 u s2 Hx Hs Hc. simplify_res. apply get_item_ok in E0.
    apply rtc_once, (step_proposal _ _ _ (proposal_closed _ _ _ _ _ _ _ _)). simpl.
    erewrite (wf_proposals _ Hs) by done. eauto with rcp.
  - eapply fold_steps; [|done..]. unfold apply_withdraw_proposal.
    intros s1 u s2 Hx Hs Hc. simplify_res. apply get_item_ok in E0.
    apply rtc_once, (step_proposal _ _ _ (proposal_closed _ _ _ _ _ _ _ _)). simpl.
    erewrite (wf_proposals _ Hs) by done. eauto with rcp.
  - apply foldl_steps; [|done]. intros s1 x Hx Hs. apply step_config.
    apply keyed_insert_as; [done|apply Hs].
  - apply rtc_once, step_config, Hwf.
  - unfold apply_set_standing in *. simplify_res. apply get_item_ok in E0.
    rewrite (wf_nodes _ Hwf _ _ E0). apply rtc_once.
    rewrite <-(record_belief_none a0 (node_reviewed standing (p_revision p) a0) (p_revision p) (stg_state s)) at 2.
    eapply step_change_node; [by left|done|by constructor|done|done|by left].
  - apply rtc_once, step_config, Hwf.
  - apply rtc_once, step_config, Hwf.
Qed.
End patch_steps.
