(* ===== verification/Graph.v ===== *)
(** Invariants of the materialized graph: well-formedness, node identity, the
    frame of a Patch, the belief log, edge layers, and the revision. *)

From S2P Require Export Steps.

(** One atomic step of one of the Patch's operations. *)
Definition patch_step (p : Patch) : relation GraphState :=
  λ s s', ∃ op, op ∈ p_ops p ∧ graph_step p op s s'.

(** The ids of the edges the Patch creates, in order. *)
Definition applied_edges (p : Patch) : list string := p_ops p ≫= op_created_edges.

Section steps.
Context `{NodeAdapterLaws}.
Implicit Types (p : Patch) (st : GraphState).

Lemma graph_steps_patch p op st st' :
  op ∈ p_ops p → graph_steps p op st st' → rtc (patch_step p) st st'.
Proof. intros Hop. apply rtc_subrel. intros ???. by exists op. Qed.

Lemma patch_steps_wf p st st' : graph_wf st → rtc (patch_step p) st st' → graph_wf st'.
Proof. induction 2 as [|??? (?&?&?)]; eauto using graph_step_wf. Qed.

Lemma apply_ops_steps p g ops s0 s s' k :
  (∀ op, op ∈ ops → op ∈ p_ops p) → graph_wf (stg_state s) →
  rtc (patch_step p) s0 (stg_state s) →
  res_fold (apply_op p g) s (imap (λ i op, (k + i, op)) ops) = Ok s' →
  rtc (patch_step p) s0 (stg_state s') ∧
  stg_created s' = stg_created s ++ (ops ≫= op_created_edges).
Proof.
  revert s k. induction ops as [|op ops IH]; intros s k Hin Hwf Hst Hf; simpl in Hf.
  { simplify_eq. by rewrite app_nil_r. }
  apply res_bind_ok in Hf as (s1 & H1 & Hf).
  apply apply_op_steps in H1 as [H1 Hc]; [|done].
  destruct (IH s1 (S k)) as [H2 Hc2].
  - set_solver.
  - by eapply graph_steps_wf.
  - etrans; [done|]. eapply graph_steps_patch; [|done]. set_solver.
  - rewrite <-Hf. f_equal. apply imap_ext. intros. simpl. f_equal. lia.
  - split; [done|]. rewrite Hc2, Hc, bind_cons. by rewrite app_assoc.
Qed.

(** Materialization is a sequence of atomic steps, then the layers of the
    created edges, then the log. *)
Lemma apply_patch_steps p st ds sys st' ds' :
  graph_wf st → _apply_patch st p ds sys = Ok (st', ds') →
  ∃ mid, rtc (patch_step p) st mid ∧ graph_wf mid ∧
         st' = close_patch p (relayer_created (applied_edges p) mid).
Proof.
  unfold _apply_patch. intros Hwf Ha. simplify_res.
  destruct (apply_ops_steps p (generated_indexes p sys) (p_ops p) st
              {| stg_state := st; stg_created := []; stg_descriptors := ds |} a 0)
    as [Hst Hc]; try done.
  exists (stg_state a). split; [done|]. split; [by eapply patch_steps_wf|].
  simpl in Hc. by rewrite Hc.
Qed.

(** ** Laying out the created edges *)

Lemma relayer_one_nodes st id :
  gs_nodes match gs_edges st !! id with
           | Some e => set_edges <[id := relayer st e]> st | None => st end = gs_nodes st.
Proof. by case_match. Qed.

Lemma relayer_nodes_ext st st' e : gs_nodes st = gs_nodes st' → relayer st e = relayer st' e.
Proof. unfold relayer. by intros ->. Qed.

(** The final pass rewrites exactly the created edges that still exist. *)
Lemma relayer_created_spec ids st :
  gs_nodes (relayer_created ids st) = gs_nodes st ∧
  (∀ k, gs_edges (relayer_created ids st) !! k =
        if decide (k ∈ ids) then relayer st <$> gs_edges st !! k else gs_edges st !! k).
Proof.
  unfold relayer_created.
  cut (∀ l st', NoDup l → gs_nodes st' = gs_nodes st →
    let r := foldl (λ st id, match gs_edges st !! id with
                  | Some e => set_edges <[id := relayer st e]> st | None => st end) st' l in
    gs_nodes r = gs_nodes st ∧
    (∀ k, gs_edges r !! k =
          if decide (k ∈ l) then relayer st <$> gs_edges st' !! k else gs_edges st' !! k)).
  { intros Hcut. destruct (Hcut (stable_dedup ∅ ids) st) as [Hn He];
      [apply stable_dedup_NoDup|done|]. split; [done|]. intros k. rewrite He.
    rewrite (decide_ext (k ∈ stable_dedup ∅ ids) (k ∈ ids)); [done|].
    rewrite elem_of_stable_dedup. set_solver. }
  intros l. induction l as [|i l IH]; intros st' Hnd Hn; simpl; [done|].
  apply NoDup_cons in Hnd as [Hi Hnd].
  destruct (gs_edges st' !! i) as [e|] eqn:He.
  - destruct (IH (set_edges <[i:=relayer st' e]> st')) as [Hr1 Hr2]; [done..|].
    split; [done|]. intros k. rewrite Hr2. simpl.
    destruct (decide (k = i)) as [->|Hne].
    + rewrite decide_False by done. rewrite decide_True by by left.
      rewrite lookup_insert_eq, He. simpl. f_equal. by apply relayer_nodes_ext.
    + rewrite lookup_insert_ne by done. apply decide_ext. rewrite elem_of_cons. naive_solver.
  - destruct (IH st') as [Hr1 Hr2]; [done..|]. split; [done|]. intros k. rewrite Hr2.
    destruct (decide (k = i)) as [->|Hne].
    + rewrite decide_False by done. rewrite decide_True by by left. by rewrite He.
    + apply decide_ext. rewrite elem_of_cons. naive_solver.
Qed.

Lemma relayer_created_frame ids st :
  let st' := relayer_created ids st in
  gs_proposals st' = gs_proposals st ∧ gs_ambiguities st' = gs_ambiguities st ∧
  gs_glossary st' = gs_glossary st ∧ gs_belief_transitions st' = gs_belief_transitions st ∧
  gs_revision st' = gs_revision st ∧ gs_last_refresh_at st' = gs_last_refresh_at st ∧
  gs_ontology st' = gs_ontology st ∧ gs_coverage st' = gs_coverage st ∧
  gs_project_truth_scope st' = gs_project_truth_scope st ∧
  gs_config_revisions st' = gs_config_revisions st ∧
  gs_validation_messages st' = gs_validation_messages st ∧
  gs_replay_status st' = gs_replay_status st ∧ gs_replay_failure st' = gs_replay_failure st.
Proof.
  unfold relayer_created. generalize (stable_dedup ∅ ids). intros l. revert st.
  induction l as [|i l IH]; intros st; simpl; [done|].
  destruct (IH match gs_edges st !! i with
               | Some e => set_edges <[i:=relayer st e]> st | None => st end)
    as (H1&H2&H3&H4&H5&H6&H7&H8&H9&H10&H11&H12&H13).
  rewrite H1, H2, H3, H4, H5, H6, H7, H8, H9, H10, H11, H12, H13.
  by destruct (gs_edges st !! i).
Qed.

Lemma relayer_created_wf ids st : graph_wf st → graph_wf (relayer_created ids st).
Proof.
  intros [Hn He Hp Ha Hg]. destruct (relayer_created_spec ids st) as [Hn' He'].
  destruct (relayer_created_frame ids st) as (Hp' & Ha' & Hg' & _).
  split; rewrite ?Hn', ?Hp', ?Ha', ?Hg'; try done.
  intros k e Hk. rewrite He' in Hk.
  case_decide; [|by apply He]. apply fmap_Some in Hk as (e' & Hk & ->). exact (He k e' Hk).
Qed.
End steps.

(** ** The specification of one Patch on a graph *)

Definition changed_ids (p : Patch) : list string := p_ops p ≫= op_changed.
Definition removed_ids (p : Patch) : list string := p_ops p ≫= op_removed.
Definition edge_ids (p : Patch) : list string := p_ops p ≫= op_edges.

(** Where a node of the resulting graph comes from. *)
Definition descends (p : Patch) (st : GraphState) (id : string) (n' : ProjectNode) : Prop :=
  (∃ n, gs_nodes st !! id = Some n ∧ same_identity n n' ∧
        (n' = n ∨ (id ∈ changed_ids p ∧ node_updated_rev n' = p_revision p))) ∨
  (∃ raw, raw ∈ created_nodes (p_ops p) ∧ node_id raw = id ∧ node_type n' = node_type raw ∧
          node_created_rev n' = p_revision p ∧ node_updated_rev n' = p_revision p).

(** A contiguous history of one Hypothesis from one status to another. *)
Fixpoint belief_path (s s' : string) (l : list BeliefTransition) : Prop :=
  match l with
  | [] => s = s'
  | t :: l => bt_from_status t = s ∧ bt_from_status t ≠ bt_to_status t ∧
              belief_path (bt_to_status t) s' l
  end.

Definition transitions_of (id : string) (l : list BeliefTransition) : list BeliefTransition :=
  filter (λ t, bt_hypothesis_id t = id) l.

(** A log entry names a real status change, its Patch and a declared cause. *)
Definition logged (p : Patch) (t : BeliefTransition) : Prop :=
  bt_revision t = p_revision p ∧ bt_from_status t ≠ bt_to_status t ∧
  bt_hypothesis_id t ∈ changed_ids p ∧ bt_cause t ∈ p_ops p ≫= op_causes.

Section spec.
Implicit Types (p : Patch) (st : GraphState).

Lemma elem_of_op_bind {A} (f : GraphOperation → list A) p op x :
  op ∈ p_ops p → x ∈ f op → x ∈ p_ops p ≫= f.
Proof. intros. by eapply elem_of_bind_intro. Qed.

Lemma descends_refl p st id n : gs_nodes st !! id = Some n → descends p st id n.
Proof. left. exists n. split; [done|]. split; [done|by left]. Qed.

Lemma patch_step_descends p st0 st st' :
  (∀ id n, gs_nodes st !! id = Some n → descends p st0 id n) → graph_wf st →
  patch_step p st st' → ∀ id n, gs_nodes st' !! id = Some n → descends p st0 id n.
Proof.
  intros Hd Hwf (op & Hop & Hs) k n' Hk.
  destruct Hs as [st raw n Hraw Hid Ht Hc Hu|st i n n2 cause Hi Hn Hsi Hu _ _|st e|st i|st|st q|st a|st];
    simpl in Hk; rewrite ?record_belief_nodes in Hk; try (by apply Hd).
  - destruct (decide (node_id n = k)) as [<-|Hne].
    + rewrite lookup_insert_eq in Hk. simplify_eq. right. exists raw.
      split; [by eapply (elem_of_op_bind op_created)|]. by rewrite <-Hid.
    + rewrite lookup_insert_ne in Hk by done. by apply Hd.
  - destruct (decide (i = k)) as [->|Hne].
    + rewrite lookup_insert_eq in Hk. simplify_eq.
      assert (k ∈ changed_ids p) as Hch by by eapply elem_of_op_bind.
      destruct (Hd _ _ Hn) as [(n0 & H0 & Hs0 & _)|(raw & Hr & Hid & Ht & Hc & _)].
      * left. exists n0. split; [done|]. split; [by etrans|]. by right.
      * right. exists raw. split; [done|]. split; [done|].
        rewrite (si_type _ _ Hsi), (si_created _ _ Hsi). done.
    + rewrite lookup_insert_ne in Hk by done. by apply Hd.
  - apply map_lookup_filter_Some in Hk as [Hk _]. by apply Hd.
Qed.

(** Invariant rule for the steps of a Patch. *)
Lemma patch_steps_inv p (P : GraphState → Prop) st mid :
  graph_wf st → (∀ s s', graph_wf s → P s → patch_step p s s' → P s') → P st →
  rtc (patch_step p) st mid → P mid.
Proof.
  intros Hwf Hstep HP Hr. revert Hwf HP. induction Hr as [|s s' s'' Hs _ IH]; [done|].
  intros Hwf HP. apply IH; [|by eapply Hstep].
  destruct Hs as (op & _ & Hs). by eapply graph_step_wf.
Qed.

Lemma patch_step_frame_nodes p st st' id :
  patch_step p st st' →
  id ∉ created_node_ids p → id ∉ changed_ids p → id ∉ removed_ids p →
  gs_nodes st' !! id = gs_nodes st !! id.
Proof.
  intros (op & Hop & Hs) Hc Hch Hr. destruct Hs; simpl; rewrite ?record_belief_nodes; try done.
  - rewrite lookup_insert_ne; [done|]. intros <-. apply Hc. unfold created_node_ids.
    rewrite H0. apply list_elem_of_fmap_2. by eapply (elem_of_op_bind op_created).
  - rewrite lookup_insert_ne; [done|]. intros <-. apply Hch. by eapply elem_of_op_bind.
  - rewrite map_lookup_filter. destruct (gs_nodes st !! id); simpl; [|done].
    rewrite option_guard_True; [done|]. intros Hin. apply Hr. by eapply elem_of_op_bind.
Qed.

Lemma patch_step_frame_edges p st st' id :
  patch_step p st st' → id ∉ edge_ids p →
  (gs_edges st !! id = None → gs_edges st' !! id = None) ∧
  (∀ e, gs_edges st !! id = Some e → edge_source e ∉ removed_ids p →
        edge_target e ∉ removed_ids p → gs_edges st' !! id = Some e).
Proof.
  intros (op & Hop & Hs) Hid.
  destruct Hs; simpl; rewrite ?(proj1 (record_belief_frame _ _ _ _ _)); try done.
  - rewrite lookup_insert_ne; [done|]. intros <-. apply Hid. by eapply elem_of_op_bind.
  - rewrite lookup_delete_ne; [done|]. intros <-. apply Hid. by eapply elem_of_op_bind.
  - split.
    + intros He. rewrite map_lookup_filter, He. done.
    + intros e He Hs Ht. rewrite map_lookup_filter, He. simpl. rewrite option_guard_True; [done|].
      split; intros Hin; [apply Hs|apply Ht]; by eapply elem_of_op_bind.
Qed.

Lemma patch_step_frame_proposals p st st' id :
  patch_step p st st' → id ∉ p_ops p ≫= op_proposals →
  gs_proposals st' !! id = gs_proposals st !! id.
Proof.
  intros (op & Hop & Hs) Hid. destruct Hs; simpl; try done.
  - by rewrite (proj1 (proj2 (record_belief_frame _ _ _ _ _))).
  - rewrite lookup_insert_ne; [done|]. intros <-. apply Hid. by eapply elem_of_op_bind.
Qed.

Lemma hypothesis_status n n' h h' :
  as_hypothesis n = Some h → as_hypothesis n' = Some h' → node_status n' = node_status n →
  hyp_status h = hyp_status h'.
Proof.
  unfold as_hypothesis, node_status. intros.
  destruct (node_payload n), (node_payload n'); by simplify_eq.
Qed.

(** What rewriting one node adds to the belief log. *)
Lemma record_belief_log n n' rev cause st :
  ∃ new, gs_belief_transitions (_record_belief_transition n n' rev cause st) =
           gs_belief_transitions st ++ new ∧
    Forall (λ t, bt_revision t = rev ∧ bt_from_status t ≠ bt_to_status t ∧
                 bt_hypothesis_id t = node_id n ∧ cause = Some (bt_cause t)) new ∧
    (∀ h h', as_hypothesis n = Some h → as_hypothesis n' = Some h' →
      (cause = None → node_status n' = node_status n) →
      belief_path (hyp_status h) (hyp_status h') new).
Proof.
  unfold _record_belief_transition.
  destruct (as_hypothesis n) as [h|] eqn:Eh, (as_hypothesis n') as [h'|] eqn:Eh',
    cause as [c|]; try case_decide as Heq;
    try (exists []; rewrite app_nil_r; split; [done|]; split; [done|]; intros; simplify_eq; done).
  - eexists [_]. split; [done|]. split; [by repeat constructor|]. intros. by simplify_eq/=.
  - exists []. rewrite app_nil_r. split; [done|]. split; [done|]. intros k k' Hk Hk' Hs.
    eapply hypothesis_status; [..|by apply Hs]; congruence.
Qed.

(** The log of one step. *)
Definition log_extends p st st' (new : list BeliefTransition) : Prop :=
  gs_belief_transitions st' = gs_belief_transitions st ++ new ∧ Forall (logged p) new ∧
  (∀ id n n' h h', forallb op_all_caused (p_ops p) = true →
    id ∉ created_node_ids p →
    gs_nodes st !! id = Some n → gs_nodes st' !! id = Some n' →
    as_hypothesis n = Some h → as_hypothesis n' = Some h' →
    belief_path (hyp_status h) (hyp_status h') (transitions_of id new)).

Lemma log_extends_nil p st st' :
  gs_belief_transitions st' = gs_belief_transitions st →
  (∀ id n', id ∉ created_node_ids p → gs_nodes st' !! id = Some n' → gs_nodes st !! id = Some n') →
  log_extends p st st' [].
Proof.
  intros Hb Hn. split; [by rewrite Hb, app_nil_r|]. split; [done|].
  intros id n n' h h' _ Hid H1 H2 Hh Hh'. apply Hn in H2; [|done]. by simplify_eq.
Qed.

Lemma patch_step_log p st st' :
  graph_wf st → patch_step p st st' → ∃ new, log_extends p st st' new.
Proof.
  intros Hwf (op & Hop & Hs).
  destruct Hs as [st raw n Hraw Hid _ _ _|st i n n2 cause Hi Hn Hsi _ Hc Hnc|st e|st i|st|st q|st a|st];
    try (exists []; by apply log_extends_nil).
  - exists []. apply log_extends_nil; [done|]. simpl. intros k n' Hk.
    rewrite lookup_insert_ne; [done|]. intros <-. apply Hk. unfold created_node_ids.
    rewrite Hid. apply list_elem_of_fmap_2. by eapply (elem_of_op_bind op_created).
  - destruct (record_belief_log n n2 (p_revision p) cause st) as (new & Hb & Hall & Hpath).
    exists new. split; [done|]. split.
    + eapply Forall_impl; [exact Hall|]. intros t (Hr & Hne & Ht & Hct).
      split; [done|]. split; [done|]. rewrite Ht, (wf_nodes _ Hwf _ _ Hn).
      split; by eapply elem_of_op_bind; eauto.
    + intros k m m' h h' Hcaused _ Hm Hm' Hh Hh'. simpl in Hm'. rewrite record_belief_nodes in Hm'.
      destruct (decide (i = k)) as [->|Hne].
      * rewrite lookup_insert_eq in Hm'. simplify_eq. unfold transitions_of.
        rewrite list_filter_all; [apply Hpath; [done..|]|].
        -- intros Hnone. destruct (Hnc Hnone) as [?|Hf]; [done|].
           rewrite forallb_forall in Hcaused. rewrite Hcaused in Hf; [done|]. by apply list_elem_of_In.
        -- eapply Forall_impl; [exact Hall|]. intros t (_ & _ & -> & _). by eapply (wf_nodes _ Hwf).
      * rewrite lookup_insert_ne in Hm' by done. simplify_eq. unfold transitions_of.
        rewrite list_filter_none; [done|].
        eapply Forall_impl; [exact Hall|]. intros t (_ & _ & -> & _).
        by rewrite (wf_nodes _ Hwf _ _ Hn).
  - exists []. apply log_extends_nil; [done|]. intros k n' _. simpl.
    by intros [? _]%map_lookup_filter_Some.
Qed.

Lemma belief_path_app s1 s2 s3 l1 l2 :
  belief_path s1 s2 l1 → belief_path s2 s3 l2 → belief_path s1 s3 (l1 ++ l2).
Proof.
  revert s1. induction l1 as [|t l1 IH]; intros s1; simpl; [by intros ->|].
  intros (?&?&?) ?. eauto.
Qed.
End spec.

(** The log [new] between [st] and [s] has the contiguous history of every
    Hypothesis the Patch neither creates nor removes. *)
Definition log_complete (p : Patch) (st s : GraphState) (new : list BeliefTransition) : Prop :=
  ∀ id n h, forallb op_all_caused (p_ops p) = true →
    id ∉ created_node_ids p → id ∉ removed_ids p →
    gs_nodes st !! id = Some n → as_hypothesis n = Some h →
    ∃ n' h', gs_nodes s !! id = Some n' ∧ as_hypothesis n' = Some h' ∧
             belief_path (hyp_status h) (hyp_status h') (transitions_of id new).

Lemma same_identity_hypothesis n n' h :
  same_identity n n' → as_hypothesis n = Some h → ∃ h', as_hypothesis n' = Some h'.
Proof.
  intros Hs. pose proof (si_type _ _ Hs) as Ht. unfold as_hypothesis, node_type in *.
  destruct (node_payload n), (node_payload n'); simplify_eq/=; eauto.
Qed.

(** A node the Patch neither creates nor removes stays, with its identity. *)
Lemma patch_step_keeps p st st' id n :
  patch_step p st st' → id ∉ created_node_ids p → id ∉ removed_ids p →
  gs_nodes st !! id = Some n → ∃ n', gs_nodes st' !! id = Some n' ∧ same_identity n n'.
Proof.
  intros Hstep Hc Hr Hn. pose proof Hstep as (op & Hop & Hs).
  destruct Hs as [st raw m Hraw Hid _ _ _|st i m m2 cause Hi Hm Hsi _ _ _|st e|st i|st|st q|st a|st];
    simpl; rewrite ?record_belief_nodes; try (by exists n).
  - exists n. split; [|done]. rewrite lookup_insert_ne; [done|]. intros <-. apply Hc.
    unfold created_node_ids. rewrite Hid. apply list_elem_of_fmap_2.
    by eapply (elem_of_op_bind op_created).
  - destruct (decide (i = id)) as [->|Hne].
    + simplify_eq. exists m2. by rewrite lookup_insert_eq.
    + exists n. by rewrite lookup_insert_ne.
  - exists n. split; [|done]. apply map_lookup_filter_Some. split; [done|]. simpl.
    intros Hin. apply Hr. by eapply elem_of_op_bind.
Qed.

Lemma log_complete_step p st s s' new new' :
  log_complete p st s new → patch_step p s s' → log_extends p s s' new' →
  log_complete p st s' (new ++ new').
Proof.
  intros Hc Hstep (_ & _ & Hp) id n h Hall Hcr Hrm Hn Hh.
  destruct (Hc id n h) as (n1 & h1 & Hn1 & Hh1 & Hp1); [done..|].
  destruct (patch_step_keeps _ _ _ _ _ Hstep Hcr Hrm Hn1) as (n2 & Hn2 & Hsi).
  destruct (same_identity_hypothesis _ _ _ Hsi Hh1) as (h2 & Hh2).
  exists n2, h2. split; [done|]. split; [done|].
  unfold transitions_of. rewrite filter_app. eapply belief_path_app; [exact Hp1|].
  by eapply Hp.
Qed.

(** Prove a fact about the state after the steps [Hr] by the invariant rule. *)
Ltac steps_inv Hr :=
  match type of Hr with
  | rtc (patch_step ?p) ?st ?mid => pattern mid; refine (patch_steps_inv p _ st mid _ _ _ Hr); clear Hr
  end.

Section properties.
Context `{NodeAdapterLaws}.
Implicit Types (p : Patch) (st : GraphState).

Lemma patch_steps_descend p st mid :
  graph_wf st → rtc (patch_step p) st mid →
  ∀ id n, gs_nodes mid !! id = Some n → descends p st id n.
Proof.
  intros Hwf Hr. steps_inv Hr; [done| |by apply descends_refl].
  intros. by eapply patch_step_descends.
Qed.

Lemma apply_patch_wf_lemma p st ds sys st' ds' :
  graph_wf st → _apply_patch st p ds sys = Ok (st', ds') → graph_wf st'.
Proof.
  intros Hwf (mid & _ & Hm & ->)%apply_patch_steps; [|done].
  destruct (relayer_created_wf (applied_edges p) mid Hm). by constructor.
Qed.

(** C33: well-formedness.  Applying a Patch to a graph whose collections are
    keyed by their elements' own ids yields such a graph: the adapter, which
    rebuilds nodes from dictionaries, never moves an element off its key. *)
Theorem apply_patch_wf p st ds sys st' ds' :
  graph_wf st → _apply_patch st p ds sys = Ok (st', ds') → graph_wf st'.
Proof. apply apply_patch_wf_lemma. Qed.

Lemma apply_patch_descends p st ds sys st' ds' id n' :
  graph_wf st → _apply_patch st p ds sys = Ok (st', ds') →
  gs_nodes st' !! id = Some n' → descends p st id n'.
Proof.
  intros Hwf (mid & Hst & _ & ->)%apply_patch_steps; [|done].
  simpl. destruct (relayer_created_spec (applied_edges p) mid) as [-> _].
  by eapply patch_steps_descend.
Qed.

(** Node identity.  Every node after a Patch either was there before, with
    the same id, type, extension type and creation revision, and is untouched
    unless an operation names it (its [updated_rev] is then the Patch's), or
    was created by the Patch and carries its revision. *)
Theorem apply_patch_identity p st ds sys st' ds' id n' :
  graph_wf st → _apply_patch st p ds sys = Ok (st', ds') →
  gs_nodes st' !! id = Some n' → descends p st id n'.
Proof. apply apply_patch_descends. Qed.

Lemma apply_patch_frame_lemma p st ds sys st' ds' :
  graph_wf st → _apply_patch st p ds sys = Ok (st', ds') →
  (∀ id, id ∉ created_node_ids p → id ∉ changed_ids p → id ∉ removed_ids p →
     gs_nodes st' !! id = gs_nodes st !! id) ∧
  (∀ id e, id ∉ edge_ids p → gs_edges st !! id = Some e →
     edge_source e ∉ removed_ids p → edge_target e ∉ removed_ids p →
     gs_edges st' !! id = Some e) ∧
  (∀ id, id ∉ edge_ids p → gs_edges st !! id = None → gs_edges st' !! id = None) ∧
  (∀ id, id ∉ p_ops p ≫= op_proposals → gs_proposals st' !! id = gs_proposals st !! id).
Proof.
  intros Hwf (mid & Hst & _ & ->)%apply_patch_steps; [|done]. simpl.
  destruct (relayer_created_spec (applied_edges p) mid) as [-> He].
  destruct (relayer_created_frame (applied_edges p) mid) as [-> _].
  assert (∀ k, k ∈ applied_edges p → k ∈ edge_ids p) as Hsub.
  { intros k (op & Hk & Hop)%list_elem_of_bind. eapply elem_of_op_bind; [done|].
    destruct op; try by apply elem_of_nil in Hk. done. }
  assert (∀ k, k ∉ edge_ids p →
    gs_edges (relayer_created (applied_edges p) mid) !! k = gs_edges mid !! k) as He'.
  { intros k Hk. rewrite He, decide_False; [done|]. by intros ?%Hsub. }
  clear He Hsub.
  split_and!.
  - intros id Hc Hch Hr. steps_inv Hst; [done| |done].
    intros s s' _ <- Hs. by eapply patch_step_frame_nodes.
  - intros id e Hid Hie Hse Hte. rewrite He' by done. steps_inv Hst; [done| |done]. intros s s' _ Hs Hss.
    destruct (patch_step_frame_edges _ _ _ _ Hss Hid) as [_ Hf]. by apply Hf.
  - intros id Hid Hie. rewrite He' by done. steps_inv Hst; [done| |done]. intros s s' _ Hs Hss.
    destruct (patch_step_frame_edges _ _ _ _ Hss Hid) as [Hf _]. by apply Hf.
  - intros id Hid. steps_inv Hst; [done| |done].
    intros s s' _ <- Hs. by eapply patch_step_frame_proposals.
Qed.

(** Frame.  A node, an edge or a Proposal that no operation names, and an
    edge that is not incident to a removed node, are exactly as before. *)
Theorem apply_patch_frame p st ds sys st' ds' :
  graph_wf st → _apply_patch st p ds sys = Ok (st', ds') →
  (∀ id, id ∉ created_node_ids p → id ∉ changed_ids p → id ∉ removed_ids p →
     gs_nodes st' !! id = gs_nodes st !! id) ∧
  (∀ id e, id ∉ edge_ids p → gs_edges st !! id = Some e →
     edge_source e ∉ removed_ids p → edge_target e ∉ removed_ids p →
     gs_edges st' !! id = Some e) ∧
  (∀ id, id ∉ edge_ids p → gs_edges st !! id = None → gs_edges st' !! id = None) ∧
  (∀ id, id ∉ p_ops p ≫= op_proposals → gs_proposals st' !! id = gs_proposals st !! id).
Proof. apply apply_patch_frame_lemma. Qed.

(** The belief log.  A Patch appends to the log entries that each name a
    real status change at the Patch's revision with a cause one of its
    operations declares; and when every operation declares its cause, a
    Hypothesis that survives the Patch has a contiguous history in the log,
    from its status before the Patch to its status after it. *)
Theorem apply_patch_belief_log p st ds sys st' ds' :
  graph_wf st → _apply_patch st p ds sys = Ok (st', ds') →
  ∃ new, gs_belief_transitions st' = gs_belief_transitions st ++ new ∧ Forall (logged p) new ∧
    (∀ id n n' h h',
      forallb op_all_caused (p_ops p) = true →
      id ∉ created_node_ids p → id ∉ removed_ids p →
      gs_nodes st !! id = Some n → gs_nodes st' !! id = Some n' →
      as_hypothesis n = Some h → as_hypothesis n' = Some h' →
      belief_path (hyp_status h) (hyp_status h') (transitions_of id new)).
Proof.
  intros Hwf (mid & Hst & _ & ->)%apply_patch_steps; [|done]. simpl.
  destruct (relayer_created_spec (applied_edges p) mid) as [-> _].
  destruct (relayer_created_frame (applied_edges p) mid) as (_ & _ & _ & -> & _).
  cut (∃ new, gs_belief_transitions mid = gs_belief_transitions st ++ new ∧ Forall (logged p) new ∧
    log_complete p st mid new).
  { intros (new & Hb & Hl & Hc). exists new. split; [done|]. split; [done|].
    intros id n n' h h' Hcaused Hcr Hrm Hn Hn' Hh Hh'.
    destruct (Hc id n h) as (m & k & Hm & Hk & Hp); [done..|]. by simplify_eq. }
  steps_inv Hst; [done| |].
  - intros s s' Hs (new & Hb & Hl & Hc) Hstep.
    destruct (patch_step_log _ _ _ Hs Hstep) as (new' & Hb' & Hl' & Hc').
    exists (new ++ new'). rewrite Hb', Hb, app_assoc. split; [done|].
    split; [by apply Forall_app|]. by eapply log_complete_step.
  - exists []. rewrite app_nil_r. split; [done|]. split; [done|].
    intros id n h _ _ _ Hn Hh. by exists n, h.
Qed.

Lemma relayer_layer st e :
  edge_layer (gs_nodes st) (edge_source e) (edge_target e) (edge_layer_ (relayer st e)) =
  edge_layer_ (relayer st e).
Proof. unfold relayer. simpl. apply edge_layer_idem. Qed.

(** Edge layers.  After a Patch the layer of every edge it created that
    still exists is Meta, or follows from the types its endpoints have in the
    resulting graph, even when an endpoint was created after the edge. *)
Theorem apply_patch_layers p st ds sys st' ds' id e n m :
  graph_wf st → _apply_patch st p ds sys = Ok (st', ds') →
  id ∈ applied_edges p → gs_edges st' !! id = Some e →
  gs_nodes st' !! edge_source e = Some n → gs_nodes st' !! edge_target e = Some m →
  edge_layer_ e = Meta ∨
  edge_layer_ e = if decide (BASE_TYPE_LAYERS (node_type n) = BASE_TYPE_LAYERS (node_type m))
                  then BASE_TYPE_LAYERS (node_type n) else Seam.
Proof.
  intros Hwf (mid & _ & _ & ->)%apply_patch_steps Hid; [|done]. simpl.
  destruct (relayer_created_spec (applied_edges p) mid) as [-> He].
  rewrite He, decide_True by done. intros (e0 & _ & ->)%fmap_Some Hn Hm.
  destruct (decide (edge_layer_ (relayer mid e0) = Meta)) as [|Hne]; [by left|right].
  rewrite <-(edge_layer_resolved _ _ _ _ _ _ Hne Hn Hm). symmetry. exact (relayer_layer mid e0).
Qed.

Lemma patch_step_log_frame p s s' :
  patch_step p s s' →
  gs_revision s' = gs_revision s ∧ gs_validation_messages s' = gs_validation_messages s ∧
  gs_replay_status s' = gs_replay_status s ∧ gs_replay_failure s' = gs_replay_failure s ∧
  gs_last_refresh_at s' = gs_last_refresh_at s.
Proof.
  intros (op & _ & Hs). destruct Hs; try done. unfold _record_belief_transition.
  by repeat case_match.
Qed.

Lemma apply_patch_refresh p st ds sys st' ds' :
  graph_wf st → _apply_patch st p ds sys = Ok (st', ds') →
  gs_last_refresh_at st' =
    (if decide (p_kind p = KSeed ∨ p_kind p = KRefresh) then Some (p_created_at p)
     else gs_last_refresh_at st).
Proof.
  intros Hwf (mid & Hst & _ & ->)%apply_patch_steps; [|done]. simpl.
  destruct (relayer_created_frame (applied_edges p) mid) as (_&_&_&_&_&->&_).
  case_decide; [done|]. steps_inv Hst; [done| |done].
  intros s s' _ <- Hs. by eapply patch_step_log_frame.
Qed.

Lemma apply_patch_log_lemma p st ds sys st' ds' :
  graph_wf st → _apply_patch st p ds sys = Ok (st', ds') →
  gs_revision st' = Z.max (gs_revision st) (p_revision p) ∧
  gs_last_refresh_at st' =
    (if decide (p_kind p = KSeed ∨ p_kind p = KRefresh) then Some (p_created_at p)
     else gs_last_refresh_at st) ∧
  gs_validation_messages st' = gs_validation_messages st ∧
  gs_replay_status st' = gs_replay_status st ∧ gs_replay_failure st' = gs_replay_failure st.
Proof.
  intros Hwf (mid & Hst & _ & ->)%apply_patch_steps; [|done]. simpl.
  destruct (relayer_created_frame (applied_edges p) mid)
    as (_&_&_&_&->&->&_&_&_&_&->&->&->).
  assert (gs_revision mid = gs_revision st ∧
    gs_validation_messages mid = gs_validation_messages st ∧
    gs_replay_status mid = gs_replay_status st ∧ gs_replay_failure mid = gs_replay_failure st ∧
    gs_last_refresh_at mid = gs_last_refresh_at st) as (->&->&->&->&->); [|done].
  steps_inv Hst; [done| |done]. intros s s' _ (<-&<-&<-&<-&<-) Hs.
  by eapply patch_step_log_frame.
Qed.

(** The log.  A Patch never lowers the graph revision and reaches its own;
    only a seed or a refresh dates the graph; validation messages and the
    replay status belong to replay and are untouched. *)
Theorem apply_patch_log p st ds sys st' ds' :
  graph_wf st → _apply_patch st p ds sys = Ok (st', ds') →
  gs_revision st' = Z.max (gs_revision st) (p_revision p) ∧
  gs_last_refresh_at st' =
    (if decide (p_kind p = KSeed ∨ p_kind p = KRefresh) then Some (p_created_at p)
     else gs_last_refresh_at st) ∧
  gs_validation_messages st' = gs_validation_messages st ∧
  gs_replay_status st' = gs_replay_status st ∧ gs_replay_failure st' = gs_replay_failure st.
Proof. apply apply_patch_log_lemma. Qed.
End properties.
