(* ===== verification/Staging.v ===== *)
(** Staging and batch application agree.  Validation and the transition manager
    stage a Patch one operation at a time ([apply_valid_operation]); the log
    replays it at once ([_apply_patch]).  The batch is the staged graph with the
    layers of the created edges derived once more. *)

From S2P Require Export Graph.

(** Staging: fold [apply_valid_operation] over the operations. *)
Definition stage_ops `{NodeAdapter} (p : Patch) (st : GraphState) (ops : list GraphOperation) :
    res GraphState := res_fold (λ s op, apply_valid_operation s p op) st ops.

(** No edge is created before a node: nothing can be a forward reference. *)
Fixpoint no_forward (ops : list GraphOperation) : bool :=
  match ops with
  | [] => true
  | CreateEdges _ :: ops => forallb (λ op, match op with CreateNodes _ => false | _ => true end) ops
  | _ :: ops => no_forward ops
  end.

(** ** States that differ in the refresh time only *)

Definition set_refreshed (r : option Z) (s : GraphState) : GraphState :=
  set_log (gs_revision s) (gs_validation_messages s) (gs_belief_transitions s)
    (gs_replay_status s) (gs_replay_failure s) r s.

Definition same_graph (s t : GraphState) : Prop := ∃ r, t = set_refreshed r s.

(** Two results agree: both succeed with related values, or both raise alike. *)
Definition res_rel {A B} (R : A → B → Prop) (x : res A) (y : res B) : Prop :=
  match x, y with Ok a, Ok b => R a b | Raise e, Raise e' => e = e' | _, _ => False end.

#[export] Instance same_graph_equiv : Equivalence same_graph.
Proof.
  split.
  - intros s. exists (gs_last_refresh_at s). by destruct s.
  - intros s t (r & ->). exists (gs_last_refresh_at s). by destruct s.
  - intros s t u (r & ->) (r' & ->). by exists r'.
Qed.

Lemma res_rel_bind {A B C D} (R : A → B → Prop) (Q : C → D → Prop) m m' k k' :
  res_rel R m m' → (∀ a b, R a b → res_rel Q (k a) (k' b)) → res_rel Q (m ≫= k) (m' ≫= k').
Proof. destruct m, m'; simpl; try done. auto. Qed.

Lemma res_rel_eq {A} (x : res A) : res_rel eq x x.
Proof. by destruct x. Qed.

Lemma res_fold_rel2 {S T A} (R : S → T → Prop) (f : S → A → res S) (g : T → A → res T) l s t :
  (∀ s t x, x ∈ l → R s t → res_rel R (f s x) (g t x)) → R s t →
  res_rel R (res_fold f s l) (res_fold g t l).
Proof.
  revert s t. induction l as [|x l IH]; intros s t Hf HR; simpl; [done|].
  eapply res_rel_bind; [apply Hf; [by left|done]|].
  intros a b Hab. apply IH; [|done]. intros. apply Hf; [by right|done].
Qed.

Lemma foldl_rel2 {S A} (R : relation S) (f : S → A → S) l s t :
  (∀ s t x, R s t → R (f s x) (f t x)) → R s t → R (foldl f s l) (foldl f t l).
Proof. revert s t. induction l as [|x l IH]; intros s t Hf HR; simpl; [done|]. auto. Qed.

(** [respect] closes a goal on states that differ in the refresh time, for an
    assignment that does not read it. *)
Ltac respect Hst := let r := fresh "r" in destruct Hst as (r & ->); by exists r.

(** Related accumulators: related states, whatever was created before. *)
Definition same_staged (a b : Staged) : Prop := same_graph (stg_state a) (stg_state b).

Section respects.
Context `{NodeAdapter}.
Implicit Types (p : Patch) (s t : GraphState).

Lemma same_graph_nodes s t : same_graph s t → gs_nodes t = gs_nodes s.
Proof. by intros (r & ->). Qed.

Lemma same_graph_record n n' rev c s t :
  same_graph s t →
  same_graph (_record_belief_transition n n' rev c s) (_record_belief_transition n n' rev c t).
Proof.
  intros (r & ->). exists r. unfold _record_belief_transition. by repeat case_match.
Qed.

Lemma same_graph_set_nodes f s t : same_graph s t → same_graph (set_nodes f s) (set_nodes f t).
Proof. intros Hst. respect Hst. Qed.

Lemma res_rel_fmap_staged a b (x y : res GraphState) :
  res_rel same_graph x y → res_rel same_staged (with_state a <$> x) (with_state b <$> y).
Proof. by destruct x, y. Qed.

Lemma apply_update_node_respects p g s t u :
  same_graph s t → res_rel same_graph (apply_update_node p g s u) (apply_update_node p g t u).
Proof.
  intros Hst. unfold apply_update_node. rewrite (same_graph_nodes s t) by done.
  repeat (eapply res_rel_bind; [apply res_rel_eq|]; intros ? ? <-).
  by apply same_graph_set_nodes, same_graph_record.
Qed.

Lemma retire_node_respects p s t id c :
  same_graph s t → res_rel same_graph (retire_node p s id c) (retire_node p t id c).
Proof.
  intros Hst. pose proof Hst as (r & ->). unfold retire_node, _set_node_status. simpl.
  destruct (get_item (gs_nodes s) id) as [n|]; simpl; [|done].
  destruct (validate_python _); simpl; [|done].
  eapply res_rel_bind; [apply res_rel_eq|]. intros ? ? <-.
  by apply same_graph_record, same_graph_set_nodes.
Qed.

Lemma apply_supersede_node_respects p s t i :
  same_graph s t → res_rel same_graph (apply_supersede_node p s i) (apply_supersede_node p t i).
Proof.
  intros Hst. unfold apply_supersede_node.
  eapply res_rel_bind; [by apply retire_node_respects|]. intros a b Hab. simpl.
  repeat case_match; try done. respect Hab.
Qed.

Lemma apply_merge_node_respects p s t i :
  same_graph s t → res_rel same_graph (apply_merge_node p s i) (apply_merge_node p t i).
Proof.
  intros Hst. unfold apply_merge_node.
  eapply res_rel_bind; [by apply retire_node_respects|]. intros a b Hab. respect Hab.
Qed.

Lemma create_edges_respects rev s t ids ids' es :
  same_graph s t →
  res_rel (λ a b, same_graph a.1 b.1)
    (res_fold (apply_create_edge rev) (s, ids) es)
    (res_fold (apply_create_edge rev) (t, ids') es).
Proof.
  intros Hst. apply res_fold_rel2; [|done].
  intros [a ia] [b ib] e _ (r & Hab). simpl in Hab. subst. unfold apply_create_edge. simpl.
  eapply res_rel_bind; [apply res_rel_eq|]. intros e1 ? <-. by exists r.
Qed.

(** No operation reads the refresh time or what was created before it. *)
Lemma apply_op_respects p g a b io :
  same_staged a b → res_rel same_staged (apply_op p g a io) (apply_op p g b io).
Proof.
  unfold same_staged. intros Hst. destruct io as [i op].
  destruct op; simpl.
  1,2,6,7,9,11,12,15: apply res_rel_fmap_staged.
  - apply res_fold_rel2; [|done]. intros s t x _ Hs. unfold apply_create_node.
    eapply res_rel_bind; [apply res_rel_eq|]. intros ? ? <-. by apply same_graph_set_nodes.
  - apply res_fold_rel2; [|done]. intros. by apply apply_update_node_respects.
  - apply res_fold_rel2; [|done]. intros. by apply apply_supersede_node_respects.
  - apply res_fold_rel2; [|done]. intros. by apply apply_merge_node_respects.
  - apply res_fold_rel2; [|done]. intros s t x _ (r & ->).
    eapply res_rel_bind; [apply res_rel_eq|]. intros ? ? <-. by exists r.
  - apply res_fold_rel2; [|done]. intros s t x _ (r & ->).
    eapply res_rel_bind; [apply res_rel_eq|]. intros ? ? <-. by exists r.
  - apply res_fold_rel2; [|done]. intros s t x _ (r & ->).
    eapply res_rel_bind; [apply res_rel_eq|]. intros ? ? <-. by exists r.
  - destruct Hst as (r & ->). eapply res_rel_bind; [apply res_rel_eq|]. intros ? ? <-. by exists r.
  - eapply res_rel_bind; [by apply create_edges_respects|]. by intros [] [].
  - respect Hst.
  - respect Hst.
  - apply foldl_rel2; [|done]. intros s t x Hs. respect Hs.
  - apply foldl_rel2; [|done]. intros s t x Hs. respect Hs.
  - apply foldl_rel2; [|done]. intros s t x Hs. respect Hs.
  - respect Hst.
  - respect Hst.
  - respect Hst.
Qed.
End respects.

(** ** Laid-out edges *)

(** The edges with these ids, where they exist, have their derived layer. *)
Definition layered (ids : list string) (s : GraphState) : Prop :=
  ∀ id e, id ∈ ids → gs_edges s !! id = Some e → relayer s e = e.

Section layered.
Context `{NodeAdapterLaws}.
Implicit Types (p : Patch) (s : GraphState).

(** Laying out edges that are laid out is the identity. *)
Lemma relayer_created_layered ids s : layered ids s → relayer_created ids s = s.
Proof.
  unfold relayer_created. intros Hl.
  assert (∀ id e, id ∈ stable_dedup ∅ ids → gs_edges s !! id = Some e → relayer s e = e) as Hl'.
  { intros id e [? _]%elem_of_stable_dedup. by apply Hl. }
  revert Hl'. generalize (stable_dedup ∅ ids). intros l Hl'.
  induction l as [|i l IH]; simpl; [done|].
  assert (match gs_edges s !! i with
          | Some e => set_edges <[i:=relayer s e]> s | None => s end = s) as ->.
  { destruct (gs_edges s !! i) as [e|] eqn:He; [|done]. rewrite (Hl' i e) by (done || by left).
    destruct s; unfold set_edges; simpl in *. by rewrite insert_id. }
  apply IH. intros id e Hid. apply Hl'. by right.
Qed.

Lemma create_edges_layered rev es s ids s' ids' :
  layered ids s → res_fold (apply_create_edge rev) (s, ids) es = Ok (s', ids') →
  layered ids' s'.
Proof.
  intros Hl Hf.
  refine (res_fold_inv (λ a : GraphState * list string, layered a.2 a.1)
            _ es (s, ids) (s', ids') _ Hl Hf).
  intros [a ia] e [b ib] _ Ha Hc. unfold apply_create_edge in Hc. simplify_res. simpl in *.
  intros id e' Hid. simpl. destruct (decide (id = edge_id a0)) as [->|Hne].
  - rewrite lookup_insert_eq. intros [= <-]. exact (relayer_idem a a0).
  - rewrite lookup_insert_ne by done. apply Ha. set_solver.
Qed.

(** A step of an operation that creates no node keeps edges laid out. *)
Lemma graph_step_layered p op ids s s' :
  op_created op = [] → graph_step p op s s' → layered ids s → layered ids s'.
Proof.
  intros Hop Hs Hl. destruct Hs as [st raw n Hraw _ _ _ _|st i n n2 cause Hi Hn Hsi _ _ _
    |st e _ _ He|st i|st|st q|st a|st]; try done.
  - rewrite Hop in Hraw. by apply elem_of_nil in Hraw.
  - intros id e Hid He. simpl in He. rewrite (proj1 (record_belief_frame _ _ _ _ _)) in He.
    rewrite <-(Hl id e Hid He) at 2. unfold relayer. simpl. rewrite record_belief_nodes.
    f_equal. assert (∀ k, node_type <$> <[i:=n2]> (gs_nodes st) !! k =
                          node_type <$> gs_nodes st !! k) as Ht.
    { intros k. destruct (decide (i = k)) as [->|]; [|by rewrite lookup_insert_ne].
      rewrite lookup_insert_eq, Hn. simpl. by rewrite (si_type _ _ Hsi). }
    by apply edge_layer_types.
  - intros id e' Hid. simpl. destruct (decide (edge_id e = id)) as [->|Hne].
    + rewrite lookup_insert_eq. by intros [= <-].
    + rewrite lookup_insert_ne by done. by apply Hl.
  - intros id e' Hid. simpl. intros [_ He]%lookup_delete_Some. by eapply Hl.
  - intros id e Hid. simpl. intros [He [Hse Hte]]%map_lookup_filter_Some. simpl in *.
    rewrite <-(Hl id e Hid He) at 2. unfold relayer. simpl. f_equal.
    apply edge_layer_types; rewrite map_lookup_filter;
      [destruct (gs_nodes st !! edge_source e)|destruct (gs_nodes st !! edge_target e)];
      simpl; by rewrite ?option_guard_True.
Qed.

Lemma graph_steps_layered p op ids s s' :
  op_created op = [] → graph_steps p op s s' → layered ids s → layered ids s'.
Proof. intros Hop Hs. induction Hs; eauto using graph_step_layered. Qed.

Lemma apply_op_layered p g a i op b :
  graph_wf (stg_state a) → (op_created op = [] ∨ stg_created a = []) →
  apply_op p g a (i, op) = Ok b →
  layered (stg_created a) (stg_state a) → layered (stg_created b) (stg_state b).
Proof.
  intros Hwf Hor Ha Hl. destruct (apply_op_steps _ _ _ _ _ _ Hwf Ha) as [Hs Hc].
  destruct op eqn:Hop; simpl in Hc; try (rewrite Hc, app_nil_r; destruct Hor as [Hor|Hor];
    [by eapply graph_steps_layered
    |rewrite Hor; by intros ? ? ?%elem_of_nil]).
  simpl in Ha. simplify_res. destruct a0 as [s' ids']. simpl.
  by eapply create_edges_layered.
Qed.
End layered.

(** ** The agreement of staging and batch *)

#[local] Arguments apply_op : simpl never.

Section agree.
Context `{NodeAdapterLaws}.
Implicit Types (p : Patch) (s st : GraphState).

Lemma apply_op_revision p g a i op b :
  graph_wf (stg_state a) → apply_op p g a (i, op) = Ok b →
  gs_revision (stg_state b) = gs_revision (stg_state a).
Proof.
  intros Hwf [Hs _]%apply_op_steps; [|done]. clear Hwf. induction Hs as [|x y z Hxy _ IH]; [done|].
  rewrite IH. destruct Hxy; try done. simpl. by destruct (record_belief_frame n n' (p_revision p) cause st)
    as (_&_&_&_&_&->).
Qed.

Lemma apply_op_wf p g a i op b :
  graph_wf (stg_state a) → apply_op p g a (i, op) = Ok b → graph_wf (stg_state b).
Proof. intros Hwf [Hs _]%apply_op_steps; [|done]. by eapply graph_steps_wf. Qed.

(** The index matters only where system fields are written. *)
Lemma apply_op_index p a i j op : apply_op p [] a (i, op) = apply_op p [] a (j, op).
Proof. by destruct op. Qed.

(** The staged state of one operation is the batch state after it. *)
Lemma stage_one p a s i op :
  p_transition p = None → graph_wf s → same_graph (stg_state a) s →
  res_rel (λ b s', same_graph (stg_state b) s') (apply_op p [] a (i, op))
    (apply_valid_operation s p op).
Proof.
  intros Htr Hwf Hst. unfold apply_valid_operation, _apply_patch.
  assert (generated_indexes (with_ops p [op]) [] = []) as ->
    by (unfold generated_indexes; simpl; by rewrite Htr).
  set (a0 := {| stg_state := s; stg_created := []; stg_descriptors := [] |}).
  pose proof (apply_op_respects p [] a a0 (i, op) Hst) as Hr.
  rewrite (apply_op_index p a0 i 0) in Hr. simpl.
  change (apply_op (with_ops p [op]) []) with (apply_op p []).
  destruct (apply_op p [] a (i, op)) as [b|e], (apply_op p [] a0 (0, op)) as [b0|e0] eqn:Hb0;
    simpl in *; try done.
  assert (layered (stg_created b0) (stg_state b0)) as Hl.
  { eapply (apply_op_layered p [] a0); [exact Hwf|by right|exact Hb0|by intros ? ? ?%elem_of_nil]. }
  rewrite relayer_created_layered by done.
  assert (gs_revision (stg_state b0) = gs_revision s) as Hrev by exact (apply_op_revision p [] a0 0 op b0 Hwf Hb0).
  etrans; [exact Hr|]. eexists (gs_last_refresh_at (close_patch (with_ops p [op]) (stg_state b0))).
  rewrite <-Hrev. by destruct b0 as [[]].
Qed.

Lemma apply_valid_operation_wf p op s s' :
  graph_wf s → apply_valid_operation s p op = Ok s' → graph_wf s'.
Proof.
  unfold apply_valid_operation. intros Hwf Ha. simplify_res. destruct a as [t ds]. simpl.
  apply apply_patch_steps in E as (mid & _ & Hm & ->); [|done].
  destruct (relayer_created_wf (applied_edges (with_ops p [op])) mid Hm). by constructor.
Qed.

Lemma stage_many p ops a s k :
  p_transition p = None → graph_wf s → same_graph (stg_state a) s →
  res_rel (λ b s', same_graph (stg_state b) s')
    (res_fold (apply_op p []) a (imap (λ i op, (k + i, op)) ops)) (stage_ops p s ops).
Proof.
  intros Htr. unfold stage_ops. revert a s k. induction ops as [|op ops IH]; intros a s k Hwf Hst; simpl; [done|].
  pose proof (stage_one p a s (k + 0) op Htr Hwf Hst) as H1.
  destruct (apply_op p [] a (k + 0, op)) as [b|], (apply_valid_operation s p op) as [s'|] eqn:Hs';
    simpl in *; try done.
  erewrite imap_ext; [apply (IH b s' (S k)); [by eapply apply_valid_operation_wf|done]|].
  intros. simpl. f_equal. lia.
Qed.

(** A Patch dates a graph the same way at every operation. *)
Lemma close_patch_same_graph p s t :
  same_graph s t → gs_last_refresh_at t = gs_last_refresh_at s ∨
    (p_kind p = KSeed ∨ p_kind p = KRefresh) → close_patch p s = close_patch p t.
Proof.
  intros (r & ->) Hr. unfold close_patch. simpl. case_decide as Hk.
  - done.
  - destruct Hr as [Hr|Hr]; [|done]. simpl in Hr. by subst.
Qed.

Lemma relayer_created_same_graph ids s t :
  same_graph s t → same_graph (relayer_created ids s) (relayer_created ids t).
Proof.
  intros Hst. unfold relayer_created. apply foldl_rel2; [|done].
  intros x y id (r & ->). simpl. exists r. by case_match.
Qed.

Lemma apply_valid_operation_refresh p op s s' :
  graph_wf s → ¬ (p_kind p = KSeed ∨ p_kind p = KRefresh) →
  apply_valid_operation s p op = Ok s' → gs_last_refresh_at s' = gs_last_refresh_at s.
Proof.
  unfold apply_valid_operation. intros Hwf Hk Ha. simplify_res. destruct a as [t ds]. simpl.
  eapply apply_patch_refresh in E; [|done]. rewrite E. simpl. by rewrite decide_False.
Qed.

Lemma stage_ops_keeps p ops s s' :
  graph_wf s → stage_ops p s ops = Ok s' →
  graph_wf s' ∧ (¬ (p_kind p = KSeed ∨ p_kind p = KRefresh) →
                 gs_last_refresh_at s' = gs_last_refresh_at s) ∧ gs_revision s' = gs_revision s.
Proof.
  intros Hwf. unfold stage_ops.
  apply (res_fold_inv (λ t, graph_wf t ∧ (¬ (p_kind p = KSeed ∨ p_kind p = KRefresh) →
           gs_last_refresh_at t = gs_last_refresh_at s) ∧ gs_revision t = gs_revision s)); [|done].
  intros x op y _ (Hx & Hr & Hv) Ha. split; [by eapply apply_valid_operation_wf|]. split.
  - intros Hk. rewrite <-(Hr Hk). by eapply apply_valid_operation_refresh.
  - rewrite <-Hv. unfold apply_valid_operation in Ha. by simplify_res.
Qed.

Lemma batch_is_staged_lemma p st :
  graph_wf st → p_transition p = None →
  apply_valid_patch st p =
    (λ s, close_patch p (relayer_created (applied_edges p) s)) <$> stage_ops p st (p_ops p).
Proof.
  intros Hwf Htr. unfold apply_valid_patch, _apply_patch.
  assert (generated_indexes p [] = []) as -> by (unfold generated_indexes; by rewrite Htr).
  set (a := {| stg_state := st; stg_created := []; stg_descriptors := [] |}).
  assert (same_graph (stg_state a) st) as Hsg by done.
  pose proof (stage_many p (p_ops p) a st 0 Htr Hwf Hsg) as Hm.
  change (imap (λ i op, (0 + i, op)) (p_ops p)) with (imap pair (p_ops p)) in Hm.
  destruct (res_fold (apply_op p []) a (imap pair (p_ops p))) as [b|] eqn:Hb,
    (stage_ops p st (p_ops p)) as [s|] eqn:Hs; simpl in *; try done; [|by subst].
  f_equal. destruct (apply_ops_steps p [] (p_ops p) st a b 0) as [Hst Hc]; [done..|].
  simpl in Hc. rewrite Hc. fold (applied_edges p).
  apply close_patch_same_graph; [by apply relayer_created_same_graph|].
  destruct (decide (p_kind p = KSeed ∨ p_kind p = KRefresh)) as [|Hk]; [by right|left].
  apply stage_ops_keeps in Hs as (_ & Hr & _); [|done].
  destruct (relayer_created_frame (applied_edges p) s) as (_&_&_&_&_&->&_).
  destruct (relayer_created_frame (applied_edges p) (stg_state b)) as (_&_&_&_&_&->&_).
  rewrite Hr by done. symmetry. steps_inv Hst; [done| |done].
  intros x y _ <- Hxy. by eapply patch_step_log_frame.
Qed.

(** Staging equals batch.  For a Patch without a committed trace, applying
    it at once succeeds or raises exactly as staging its operations one by one
    does, and yields the staged graph with the created edges laid out once
    more and the log closed. *)
Theorem batch_is_staged p st :
  graph_wf st → p_transition p = None →
  apply_valid_patch st p =
    (λ s, close_patch p (relayer_created (applied_edges p) s)) <$> stage_ops p st (p_ops p).
Proof. apply batch_is_staged_lemma. Qed.

Lemma no_forward_layered p g ops k a b :
  no_forward ops = true → stg_created a = [] → graph_wf (stg_state a) →
  res_fold (apply_op p g) a (imap (λ i op, (k + i, op)) ops) = Ok b →
  layered (stg_created b) (stg_state b).
Proof.
  assert (∀ ops k a b, forallb (λ op, match op with CreateNodes _ => false | _ => true end) ops = true →
    graph_wf (stg_state a) → layered (stg_created a) (stg_state a) →
    res_fold (apply_op p g) a (imap (λ i op, (k + i, op)) ops) = Ok b →
    layered (stg_created b) (stg_state b)) as Haux.
  { clear ops k a b. intros ops. induction ops as [|op ops IH]; intros k a b Hn Hwf Hl Hf; simpl in *.
    { by simplify_eq. }
    apply andb_true_iff in Hn as [Hop Hn]. apply res_bind_ok in Hf as (c & H1 & Hf).
    eapply (IH (S k) c); [done|by eapply apply_op_wf| |].
    - eapply apply_op_layered; [..|exact H1|exact Hl]; [done|left]. by destruct op.
    - rewrite <-Hf. f_equal. apply imap_ext. intros. simpl. f_equal. lia. }
  revert k a. induction ops as [|op ops IH]; intros k a Hn Hc Hwf Hf; simpl in *.
  { simplify_eq. rewrite Hc. by intros ? ? ?%elem_of_nil. }
  apply res_bind_ok in Hf as (c & H1 & Hf).
  assert (res_fold (apply_op p g) c (imap (λ i op, (S k + i, op)) ops) = Ok b) as Hf'.
  { rewrite <-Hf. f_equal. apply imap_ext. intros. simpl. f_equal. lia. }
  assert (layered (stg_created c) (stg_state c)) as Hl.
  { eapply apply_op_layered; [..|exact H1|rewrite Hc; by intros ? ? ?%elem_of_nil]; [done|by right]. }
  destruct (apply_op_steps _ _ _ _ _ _ Hwf H1) as [_ Hcc].
  assert (graph_wf (stg_state c)) as Hwc by by eapply apply_op_wf.
  destruct op; try (eapply IH; [done|by rewrite Hcc, Hc|done|exact Hf']).
  by eapply Haux.
Qed.

(** Exact staging.  When no edge is created before a node, the final
    derivation of layers changes nothing: the batch is the staged graph with
    its log closed, so an accepted Patch replays to exactly the graph its
    validation saw. *)
Theorem batch_is_staged_exactly p st s :
  graph_wf st → p_transition p = None → no_forward (p_ops p) = true →
  stage_ops p st (p_ops p) = Ok s →
  apply_valid_patch st p = Ok (close_patch p s).
Proof.
  intros Hwf Htr Hnf Hs. rewrite batch_is_staged_lemma, Hs by done. simpl. f_equal. f_equal.
  apply relayer_created_layered.
  set (a := {| stg_state := st; stg_created := []; stg_descriptors := [] |}).
  assert (same_graph (stg_state a) st) as Hsg by done.
  pose proof (stage_many p (p_ops p) a st 0 Htr Hwf Hsg) as Hm. rewrite Hs in Hm.
  destruct (res_fold _ a _) as [b|] eqn:Hb; simpl in Hm; [|done].
  pose proof (no_forward_layered p [] (p_ops p) 0 a b Hnf eq_refl Hwf Hb) as Hl.
  destruct (apply_ops_steps p [] (p_ops p) st a b 0) as [_ Hc]; [done..|].
  simpl in Hc. rewrite Hc in Hl. destruct Hm as (r & ->). exact Hl.
Qed.
End agree.
