(* ===== verification/NodeRules.v ===== *)
(** Rules on nodes ([core/validation/nodes.py], [constants.py]): new nodes,
    grounded scopes, source references, and what requires a Proposal.

    A rule that may raise returns a result; the caller turns an exception into
    one rejection of the whole Patch.  The two pydantic adapters of nested
    records and the text functions of the standard library (Unicode
    normalization, [difflib], [re.findall]) are operations of classes. *)

From Stdlib Require Import Ascii.
From S2P Require Export Staging.

(** [SourceRef.model_validate], [ExperimentAttempt.model_validate], and
    [attempt.model_dump(mode="json")]. *)
Class RecordAdapter := {
  validate_source_ref : pyval → res SourceRef;
  validate_attempt : pyval → res ExperimentAttempt;
  attempt_json : ExperimentAttempt → pydict }.

(** Text functions: [normalize("NFKC", s).casefold()], [s.split()],
    [SequenceMatcher(None, a, b).ratio() >= 0.78], [IDENTIFIER_RE.findall(s)],
    [not s.strip()], and [str(v)] of a value that is not a string. *)
Class TextLib := {
  nfkc_casefold : string → string;
  split_words : string → list string;
  ratio_at_least_078 : string → string → bool;
  find_identifiers : string → list string;
  is_blank : string → bool;
  text_of : pyval → string }.

(** [try: f() except ValidationError: report.reject(..)]. *)
Definition reject_invalid {A} (r : res A) (report : ValidationReport) : res ValidationReport :=
  match r with
  | Ok _ => Ok []
  | Raise ValidationError => Ok report
  | Raise e => Raise e
  end.

(** [v in {..}] for a set of strings: an unhashable value raises. *)
Definition in_set (v : option pyval) (ss : list string) : res bool :=
  match v with
  | Some (PList _ | PDict _ | PModel _ _) => Raise TypeErr
  | _ => Ok (get_in v ss)
  end.

(** [for item in v]. *)
Fixpoint chars (s : string) : list pyval :=
  match s with
  | EmptyString => []
  | String c s => PStr (String c EmptyString) :: chars s
  end.

Definition py_iter (v : pyval) : res (list pyval) :=
  match v with
  | PList l => Ok l
  | PDict d => Ok (PStr <$> dkeys d)
  | PModel _ d => Ok ((λ kv, PList [PStr kv.1; kv.2]) <$> d)
  | PStr s => Ok (chars s)
  | _ => Raise TypeErr
  end.

(** ** Slugs *)

Definition is_lower (c : ascii) : bool := (97 <=? nat_of_ascii c)%nat && (nat_of_ascii c <=? 122)%nat.
Definition is_digit (c : ascii) : bool := (48 <=? nat_of_ascii c)%nat && (nat_of_ascii c <=? 57)%nat.

Fixpoint all_chars (f : ascii → bool) (s : string) : bool :=
  match s with EmptyString => true | String c s => f c && all_chars f s end.

(** [s.split(c)], never empty. *)
Fixpoint split_on (c : ascii) (s : string) : list string :=
  match s with
  | EmptyString => [""]
  | String a s =>
      if decide (a = c) then "" :: split_on c s
      else match split_on c s with [] => [] | w :: ws => String a w :: ws end
  end.

Definition alnum (s : string) : bool :=
  negb (str_eqb s "") && all_chars (λ c, is_lower c || is_digit c) s.

Definition starts_lower (s : string) : bool :=
  match s with String c _ => is_lower c | _ => false end.

(** [SLUG_RE.fullmatch(s)]: [snake_case/kebab-case]. *)
Definition slug_match (s : string) : bool :=
  match split_on "/" s with
  | [prefix; suffix] =>
      starts_lower prefix && forallb alnum (split_on "_" prefix) && forallb alnum (split_on "-" suffix)
  | _ => false
  end.

Definition NODE_PREFIXES (type : option pyval) : option string :=
  if get_is type "research_question" then Some "rq"
  else if get_is type "hypothesis" then Some "hyp"
  else if get_is type "decision" then Some "dec"
  else if get_is type "experiment" then Some "exp"
  else if get_is type "evidence" then Some "ev"
  else if get_is type "blocker" then Some "blk" else None.

(** [s.split("/", 1)] when there is a slash. *)
Fixpoint split_once (s : string) : option (string * string) :=
  match s with
  | EmptyString => None
  | String c s =>
      if decide (c = "/"%char) then Some ("", s)
      else prod_map (String c) id <$> split_once s
  end.

(** [raw.get(key, default)] where the value is a string. *)
Definition raw_str (d : pydict) (key default : string) : string :=
  match dget d key with Some (PStr s) => s | _ => default end.

(** ** New nodes *)

Section rules.
Context `{NodeAdapter, RecordAdapter, TextLib}.

Definition validate_new_node (st : GraphState) (p : Patch) (raw : pydict) : res ValidationReport :=
  let revision := report_revision p in
  let id := raw_str raw "id" "" in
  let expected :=
    match dget raw "extension_type" with
    | Some (PStr e) => if truthy e then Some e else NODE_PREFIXES (dget raw "type")
    | _ => NODE_PREFIXES (dget raw "type")
    end in
  invalid ← reject_invalid (validate_python raw) (reject "invalid-node" revision [] []);
  Ok (when (is_some (gs_nodes st !! id)) (reject "duplicate-node-id" revision [] []) ++
      when (negb (slug_match id)) (reject "malformed-slug" revision [] []) ++
      when (match expected with
            | Some e => truthy e && negb (String.prefix (e +:+ "/") id) | None => false end)
        (reject "wrong-slug-prefix" revision [] []) ++
      when (negb (str_eqb (raw_str raw "standing" "asserted") "asserted")
            && negb (bool_decide (p_kind p = KApproval)))
        (reject "agent-created-trusted-node" revision [] []) ++
      invalid ++
      validate_new_node_extensions (gs_ontology st) raw revision false false).

Definition _normalize_grounding_text (value : string) : string :=
  join " " (split_words (nfkc_casefold value)).

(** [str(v)]. *)
Definition py_str (v : pyval) : string := match v with PStr s => s | _ => text_of v end.

(** [a in b] on strings. *)
Definition str_in (a b : string) : bool := is_some (String.index 0 a b).

Definition _validate_grounded_scope (raw : pydict) (revision : option Z) : res ValidationReport :=
  let scope := _normalize_grounding_text (py_str (default (PStr "") (dget raw "scope"))) in
  refs ← py_iter (default (PList []) (dget raw "source_refs"));
  let excerpts := refs ≫= λ r, match r with
    | PDict d => [_normalize_grounding_text (py_str (default (PStr "") (dget d "excerpt")))]
    | _ => []
    end in
  Ok (when (truthy scope && negb (existsb (str_in scope) excerpts))
        (reject "ungrounded-hypothesis-scope" revision
           (id_list (Some (default (PStr "") (dget raw "id")))) [])).

Definition _validate_new_decision (p : Patch) (raw : pydict) (revision : option Z)
    (related : list string) : ValidationReport :=
  let status := raw_str raw "status" "open" in
  if str_eqb status "revisit" then reject "incoherent-decision-creation" revision related []
  else if get_not_none (dget raw "selected_option") || str_eqb status "decided"
  then reject "agent-created-decision-action" revision related []
  else if negb (mem status ["open"; "ready"])
  then reject "agent-created-decision-action" revision related []
  else when (negb (permits p QUEUE_DECISION))
         (reject "agent-created-decision-action" revision related []).

(** The first existing id with the same prefix and a similar suffix. *)
Fixpoint possible_duplicate (prefix suffix : string) (existing : list string) : res bool :=
  match existing with
  | [] => Ok false
  | id :: existing =>
      match split_once id with
      | None => Raise ValueError
      | Some (p, s) =>
          if str_eqb prefix p && ratio_at_least_078 suffix s then Ok true
          else possible_duplicate prefix suffix existing
      end
  end.

(** Node ids are scanned in key order. *)
Definition validate_new_node_authoring (st : GraphState) (p : Patch) (raw : pydict) :
    res ValidationReport :=
  let revision := report_revision p in
  let id := raw_str raw "id" "" in
  let related := id_list (Some (default (PStr "") (dget raw "id"))) in
  let type := dget raw "type" in
  let agent := bool_decide (p_author p = Some RAgent) in
  grounded ← (if get_is type "hypothesis" && match dget raw "scope" with
                                            | Some v => py_truthy v | None => false end
              then _validate_grounded_scope raw revision else Ok []);
  let '(prefix, suffix) := default ("", id) (split_once id) in
  duplicate ← possible_duplicate prefix suffix (fst <$> map_to_list (gs_nodes st));
  Ok (validate_new_node_extensions (gs_ontology st) raw revision true agent ++
      when (get_is type "evidence" && negb (dmem raw "origin"))
        (reject "missing-evidence-origin" revision related []) ++
      grounded ++
      when (agent && get_is type "hypothesis"
            && negb (str_eqb (raw_str raw "status" "proposed") "proposed"))
        (reject "agent-created-belief-transition" revision related []) ++
      when (get_is type "decision") (_validate_new_decision p raw revision related) ++
      when duplicate (flag "possible-duplicate" revision [] [])).

(** ** Updates *)

Definition validate_updated_node_authoring (n : ProjectNode) (changes : gmap string pyval)
    (revision : option Z) : res ValidationReport :=
  if is_some (as_hypothesis n) && match changes !! "scope" with
                                 | Some v => py_truthy v | None => false end
  then _validate_grounded_scope (dupdate (node_dump n) changes) revision
  else Ok [].

Definition validate_extension_update (st : GraphState) (p : Patch) (n : ProjectNode)
    (changes : gmap string pyval) (authoring : bool) : ValidationReport :=
  validate_updated_extension_fields (gs_ontology st) n changes (report_revision p) authoring
    (bool_decide (p_author p = Some RAgent)).

Definition requires_proposal (n : ProjectNode) (changes : gmap string pyval) : bool :=
  match as_hypothesis n with
  | Some h => match changes !! "status" with
              | Some v => negb (py_eqb v (PStr (hyp_status h))) | None => false end
  | None => is_some (as_decision n) &&
            (is_some (changes !! "selected_option") || get_is (changes !! "status") "decided")
  end.

(** ** Source references *)

Definition older (left right : option Z) : option Z :=
  match left, right with
  | None, _ => right
  | _, None => left
  | Some a, Some b => Some (Z.min a b)
  end.

Definition validate_one_source_ref (p : Patch) (acc : ValidationReport * option Z) (item : pyval) :
    res (ValidationReport * option Z) :=
  let revision := report_revision p in
  let '(report, oldest) := acc in
  match validate_source_ref item with
  | Raise ValidationError => Ok (report ++ reject "invalid-source-ref" revision [] [], oldest)
  | Raise e => Raise e
  | Ok ref =>
      let direct := negb (bool_decide (p_kind p = KApproval)) in
      Ok (report ++
          when (direct && negb (mem (sr_truth_repository ref) (p_run_truth_scope p)))
            (reject "source-outside-run-scope" revision [] []) ++
          when (direct && negb (mem (sr_truth_repository ref) (p_repositories_read p)))
            (reject "unread-source-repository" revision [] []),
          older oldest (Some (sr_timestamp ref)))
  end.

(** [oldest_source_ref({"source_refs": refs}, patch, report)]. *)
Definition oldest_source_ref (refs : option pyval) (p : Patch) :
    res (ValidationReport * option Z) :=
  items ← py_iter (default (PList []) refs);
  res_fold (validate_one_source_ref p) ([], None) items.
End rules.

(** ** Properties *)

Section properties.
Context `{NodeAdapter, RecordAdapter, TextLib}.
Implicit Types (p : Patch).

Lemma older_assoc a b c : older a (older b c) = older (older a b) c.
Proof. destruct a, b, c; simpl; try done; f_equal; lia. Qed.

Lemma older_comm a b : older a b = older b a.
Proof. destruct a, b; simpl; try done; f_equal; lia. Qed.

(** An unreported reference was read, inside the run's scope. *)
Lemma validate_one_source_ref_ok p r o item r' o' :
  validate_one_source_ref p (r, o) item = Ok (r', o') → rejected r' = false →
  rejected r = false ∧ ∃ ref, validate_source_ref item = Ok ref ∧
    o' = older o (Some (sr_timestamp ref)) ∧
    (p_kind p ≠ KApproval → sr_truth_repository ref ∈ p_run_truth_scope p ∧
                            sr_truth_repository ref ∈ p_repositories_read p).
Proof.
  unfold validate_one_source_ref. destruct (validate_source_ref item) as [ref|[]];
    intros [= <- <-] Hr; autorewrite with rcp in Hr; try (by rewrite orb_true_r in Hr).
  apply orb_false_iff in Hr as [Hr [H2 H3]%orb_false_iff].
  split; [done|]. exists ref. split; [done|]. split; [done|]. intros Hk.
  rewrite bool_decide_eq_false_2 in H2, H3 by done. simpl in H2, H3.
  by rewrite <-!mem_true; destruct (mem _ _), (mem _ _).
Qed.
End properties.
