(* ===== verification/Proposals.v ===== *)
(** Proposals ([core/validation/proposals.py]): the coherence of a Decision
    transition, the normalization of a legacy approval, staleness, and the
    shapes an agent may propose. *)

From S2P Require Export NodeRules.

(** ** Decision transitions *)

(** The four messages of [decision_transition_error]. *)
Inductive DecisionError := OptionNotListed | CannotDecide | NoPriorDecision | MustBecomeDecided.
#[export] Instance DecisionError_eq_dec : EqDecision DecisionError.
Proof. solve_decision. Defined.

(** [v in options] for a list. *)
Definition py_in (v : pyval) (l : list pyval) : bool := existsb (py_eqb v) l.

(** [isinstance(options, list) and v in options]. *)
Definition in_options (v options : pyval) : bool :=
  match options with PList l => py_in v l | _ => false end.

Definition decision_transition_error (d : DecisionNode) (changes : gmap string pyval) :
    option DecisionError :=
  let selected_option := default (py_opt_str (dec_selected_option d)) (changes !! "selected_option") in
  let status := default (PStr (dec_status d)) (changes !! "status") in
  let options := default (py_strs (dec_options d)) (changes !! "options") in
  let selects := get_not_none (changes !! "selected_option") in
  if selects && is_list options && negb (in_options selected_option options)
  then Some OptionNotListed
  else if get_is (Some status) "decided" &&
          (negb (get_not_none (Some selected_option)) || negb (in_options selected_option options))
  then Some CannotDecide
  else if get_is (Some status) "revisit" && negb (str_eqb (dec_status d) "revisit") &&
          negb (is_some (dec_selected_option d))
  then Some NoPriorDecision
  else if mem (dec_status d) ["open"; "ready"; "revisit"] && selects &&
          negb (get_is (Some status) "decided")
  then Some MustBecomeDecided
  else None.

(** ** Replaying a stored Proposal *)

(** [update.model_copy(update={"changes": changes})]. *)
Definition with_changes (u : NodeUpdate) (changes : gmap string pyval) : NodeUpdate :=
  {| nu_id := nu_id u; nu_changes := changes; nu_cause := nu_cause u;
     nu_base_updated_rev := nu_base_updated_rev u |}.

Definition normalize_update (st : GraphState) (u : NodeUpdate) : NodeUpdate :=
  match get_decision st (nu_id u) with
  | Some d =>
      if get_not_none (nu_changes u !! "selected_option") && negb (is_some (nu_changes u !! "status"))
         && negb (str_eqb (dec_status d) "decided")
      then with_changes u (<["status" := PStr "decided"]> (nu_changes u)) else u
  | None => u
  end.

Definition normalize_op (st : GraphState) (op : GraphOperation) : GraphOperation :=
  match op with UpdateNodes us => UpdateNodes (normalize_update st <$> us) | _ => op end.

Definition normalized_decision_proposal_ops (st : GraphState) (q : Proposal) :
    res (list GraphOperation) :=
  fmap (FMap := res_fmap) (fmap (normalize_op st)) (graph_operations_from_proposal (prop_ops q)).

Definition op_updates (op : ProposalOperation) : list NodeUpdate :=
  match op with
  | ProposalContentChange _ nodes | ProposalStatusChange _ nodes => nodes
  | _ => []
  end.

Definition proposal_updates_node (q : Proposal) (id : string) : bool :=
  existsb (λ u, str_eqb (nu_id u) id) (prop_ops q ≫= op_updates).

(** ** Staleness *)

Definition _proposal_removal_targets (q : Proposal) : list string :=
  prop_ops q ≫= λ op, match op with ProposalRemoval false ids => ids | _ => [] end.

Definition _proposal_reference_dependencies (q : Proposal) : list string * list string :=
  ((prop_ops q ≫= λ op,
      match op with
      | ProposalProtectedRelation _ RelRemoveEdges _ ids => default [] (mjoin ids)
      | _ => op_updates op ≫= λ u,
          match nu_cause u with Some (EvidenceEdgeCause r) => [r] | _ => [] end
      end),
   (prop_ops q ≫= op_updates) ≫= λ u,
      match nu_cause u with Some (DecisionCause r) => [r] | _ => [] end).

Definition _proposal_created_edge_ids (q : Proposal) : list string :=
  prop_ops q ≫= λ op,
    match op with
    | ProposalProtectedRelation false RelCreateEdges edges _ =>
        new_edge_id <$> default [] (mjoin edges)
    | ProposalSupersede false items =>
        items ≫= λ i, match sn_superseded_by i with
                      | Some t => [generated_edge_id (sn_id i) "supersedes" t] | None => [] end
    | ProposalMerge false items =>
        (λ i, generated_edge_id (nm_duplicate i) "duplicate_of" (nm_canonical i)) <$> items
    | _ => []
    end.

(** [proposal.raised_rev or proposal.base_rev]. *)
Definition dependency_revision (q : Proposal) : Z :=
  if (prop_raised_rev q =? 0)%Z then prop_base_rev q else prop_raised_rev q.

Definition node_moved (st : GraphState) (rev : Z) (id : string) : bool :=
  match gs_nodes st !! id with Some n => (rev <? node_updated_rev n)%Z | None => true end.

Definition edge_moved (st : GraphState) (rev : Z) (id : string) : bool :=
  match gs_edges st !! id with Some e => (rev <? edge_created_rev e)%Z | None => true end.

Definition proposal_is_stale (st : GraphState) (q : Proposal) : bool :=
  let rev := dependency_revision q in
  let '(referenced_edge_ids, decision_ids) := _proposal_reference_dependencies q in
  let removal_targets := _proposal_removal_targets q in
  existsb (node_moved st rev) (prop_related_node_ids q) ||
  existsb (λ k, (rev <? default 0 (gs_config_revisions st !! k))%Z) (prop_related_config_keys q) ||
  existsb (edge_moved st rev) (prop_related_edge_ids q ++ referenced_edge_ids) ||
  existsb (λ id, is_some (gs_edges st !! id)) (_proposal_created_edge_ids q) ||
  (negb (is_nil removal_targets) &&
   negb (bool_decide (list_to_set (C:=gset string)
           (edge_id <$> bfilter (incident removal_targets) (values (gs_edges st)))
         = list_to_set (prop_related_edge_ids q)))) ||
  existsb (λ id, negb (is_some (get_decision st id)) || node_moved st rev id) decision_ids.

(** ** The shapes an agent may propose *)

(** [node_id in created_node_ids(context_patch)], false without a Patch. *)
Definition created_by_context (context : option Patch) (id : string) : bool :=
  match context with Some p => mem id (created_node_ids p) | None => false end.

Definition _existing_protected_node (st : GraphState) (context : option Patch) (id : string) :
    option ProjectNode :=
  match gs_nodes st !! id with
  | Some n =>
      if created_by_context context id &&
         match context with Some p => (node_created_rev n =? p_revision p)%Z | None => false end
      then None
      else if is_belief n then Some n else None
  | None => None
  end.

Definition belief_type (t : NodeType) : option NodeType :=
  match t with TResearchQuestion | THypothesis => Some t | _ => None end.

Definition _protected_node_type (st : GraphState) (context : option Patch) (id : string) :
    option NodeType :=
  match gs_nodes st !! id ≫= (λ n, belief_type (node_type n)) with
  | Some t => Some t
  | None => match context with
            | Some p => _created_node_type p id ≫= belief_type
            | None => None
            end
  end.

(** [all(getattr(node, field, object()) == value for field, value in changes.items())]. *)
Definition unchanged_by (n : ProjectNode) (changes : gmap string pyval) : bool :=
  forallb (λ '(k, v), match node_getattr n k with Some w => py_eqb w v | None => false end)
    (map_to_list changes).

Definition _validate_content_change_intent (st : GraphState) (context : option Patch)
    (updates : list NodeUpdate) : bool :=
  match updates with
  | [u] =>
      negb (is_some (nu_cause u)) && negb (is_some (nu_base_updated_rev u)) &&
      match _existing_protected_node st context (nu_id u) with
      | Some n =>
          negb (bool_decide (nu_changes u = ∅)) &&
          negb (is_some (nu_changes u !! "status") && is_some (as_hypothesis n)) &&
          negb (unchanged_by n (nu_changes u))
      | None => false
      end
  | _ => false
  end.

Definition _validate_status_change_intent (st : GraphState) (updates : list NodeUpdate) : bool :=
  match updates with
  | [u] =>
      match gs_nodes st !! nu_id u ≫= as_hypothesis with
      | Some h =>
          negb (is_some (nu_base_updated_rev u)) &&
          bool_decide (dom (nu_changes u) = {["status"]}) &&
          match nu_changes u !! "status" with
          | Some v => negb (py_eqb v (PStr (hyp_status h))) | None => false end &&
          match nu_cause u with Some (EvidenceEdgeCause r) => truthy r | _ => false end
      | None => false
      end
  | _ => false
  end.

Definition _validate_removal_intent (st : GraphState) (context : option Patch) (ids : list string) :
    bool :=
  match ids with [id] => is_some (_existing_protected_node st context id) | _ => false end.

(** Two distinct beliefs of one type, the first of which exists already. *)
Definition retires_into (st : GraphState) (context : option Patch) (id other : string) : bool :=
  match _existing_protected_node st context id with
  | Some n =>
      truthy other && negb (str_eqb other id) &&
      bool_decide (_protected_node_type st context other = Some (node_type n))
  | None => false
  end.

Definition _validate_supersede_intent (st : GraphState) (context : option Patch)
    (items : list SupersedeNode) : bool :=
  match items with
  | [i] => negb (is_some (sn_cause i)) &&
           match sn_superseded_by i with
           | Some t => retires_into st context (sn_id i) t | None => false end
  | _ => false
  end.

Definition _validate_merge_intent (st : GraphState) (context : option Patch)
    (items : list NodeMerge) : bool :=
  match items with
  | [i] => negb (is_some (nm_cause i)) && retires_into st context (nm_duplicate i) (nm_canonical i)
  | _ => false
  end.

Definition _validate_protected_relation_change_intent (st : GraphState) (context : option Patch)
    (op : RelationOp) (edges : option (option (list NewEdge)))
    (edge_ids : option (option (list string))) : bool :=
  match op with
  | RelCreateEdges =>
      match default [] (mjoin edges) with
      | [e] =>
          mem (ne_relation e) PROTECTED_EPISTEMIC_RELATIONS &&
          negb (mem (ne_relation e) ["supersedes"; "duplicate_of"]) &&
          negb (created_by_context context (ne_source e) || created_by_context context (ne_target e)) &&
          (is_some (_existing_protected_node st context (ne_source e)) ||
           is_some (_existing_protected_node st context (ne_target e)))
      | _ => false
      end
  | RelRemoveEdges =>
      match default [] (mjoin edge_ids) with
      | [id] =>
          match gs_edges st !! id with
          | Some e =>
              negb match context with Some p => mem id (created_edge_ids p) | None => false end &&
              mem (edge_relation e) PROTECTED_EPISTEMIC_RELATIONS &&
              (is_some (_existing_protected_node st context (edge_source e)) ||
               is_some (_existing_protected_node st context (edge_target e)))
          | None => false
          end
      | _ => false
      end
  end.

(** Whether the declared intent's own rule accepts the operation. *)
Definition intent_accepts (st : GraphState) (context : option Patch) (op : ProposalOperation) : bool :=
  match op with
  | ProposalContentChange _ us => _validate_content_change_intent st context us
  | ProposalStatusChange _ us => _validate_status_change_intent st us
  | ProposalRemoval _ ids => _validate_removal_intent st context ids
  | ProposalSupersede _ items => _validate_supersede_intent st context items
  | ProposalMerge _ items => _validate_merge_intent st context items
  | ProposalProtectedRelation _ op edges ids =>
      _validate_protected_relation_change_intent st context op edges ids
  | _ => false
  end.

Definition _validate_agent_proposal_boundary (q : Proposal) (st : GraphState) (revision : option Z)
    (context : option Patch) : ValidationReport :=
  when (match prop_ops q with
        | [op] => intent_is_legacy op || negb (intent_accepts st context op)
        | _ => true
        end)
    (reject "invalid-agent-proposal-shape" revision [] []).

(** ** Properties *)

(** An edge after a Patch is the edge before it, up to its derived layer, or was
    written by the Patch. *)
Definition edge_descends (p : Patch) (st : GraphState) (id : string) (e' : Edge) : Prop :=
  (∃ e, gs_edges st !! id = Some e ∧ edge_with_layer Meta e' = edge_with_layer Meta e) ∨
  edge_created_rev e' = p_revision p.

Section properties.
Implicit Types (p : Patch) (st : GraphState) (q : Proposal).

Lemma patch_step_edge_descends p st0 st st' :
  patch_step p st st' →
  (∀ id e, gs_edges st !! id = Some e → edge_descends p st0 id e) →
  ∀ id e, gs_edges st' !! id = Some e → edge_descends p st0 id e.
Proof.
  intros (op & _ & Hs) Hd id e' He.
  destruct Hs as [|st i n n2 cause|st e Hin Hr Hl|st i|st|st q|st a|st]; simpl in He; try (by apply Hd).
  - rewrite (proj1 (record_belief_frame _ _ _ _ _)) in He. by apply Hd.
  - destruct (decide (edge_id e = id)) as [<-|Hne].
    + rewrite lookup_insert_eq in He. simplify_eq. by right.
    + rewrite lookup_insert_ne in He by done. by apply Hd.
  - apply lookup_delete_Some in He as [_ He]. by apply Hd.
  - apply map_lookup_filter_Some in He as [He _]. by apply Hd.
Qed.

Lemma apply_patch_edge_descends `{NodeAdapterLaws} p st ds sys st' ds' id e' :
  graph_wf st → _apply_patch st p ds sys = Ok (st', ds') →
  gs_edges st' !! id = Some e' → edge_descends p st id e'.
Proof.
  intros Hwf (mid & Hst & _ & ->)%apply_patch_steps; [|done]. simpl.
  destruct (relayer_created_spec (applied_edges p) mid) as [_ He]. rewrite He. clear He.
  assert (∀ id e, gs_edges mid !! id = Some e → edge_descends p st id e) as Hmid.
  { steps_inv Hst; [done| |intros ???; left; eauto]. intros s s' _ Hd Hs.
    by eapply patch_step_edge_descends. }
  case_decide; [|by apply Hmid]. intros (e0 & He0 & ->)%fmap_Some.
  destruct (Hmid id e0 He0) as [(e & He & Heq)|Hr]; [left; eauto|by right].
Qed.

(** Staleness is sound.  Suppose a Patch of a later revision than the one a
    Proposal was judged at is applied, and the Proposal is not stale
    afterwards.  Then every node it depends on is exactly the node it was
    before the Patch, and every edge it depends on is the same edge: whoever
    resolves the Proposal decides about the state it was raised against. *)
Theorem not_stale_unchanged `{NodeAdapterLaws} p q st ds sys st' ds' :
  graph_wf st → _apply_patch st p ds sys = Ok (st', ds') →
  (dependency_revision q < p_revision p)%Z → proposal_is_stale st' q = false →
  (∀ id, id ∈ prop_related_node_ids q →
     ∃ n, gs_nodes st !! id = Some n ∧ gs_nodes st' !! id = Some n) ∧
  (∀ id, id ∈ prop_related_edge_ids q →
     ∃ e e', gs_edges st !! id = Some e ∧ gs_edges st' !! id = Some e' ∧
             edge_with_layer Meta e' = edge_with_layer Meta e).
Proof.
  intros Hwf Ha Hrev Hns. unfold proposal_is_stale in Hns.
  destruct (_proposal_reference_dependencies q) as [es ds0]. apply orb_false_iff in Hns as [Hns _].
  do 2 apply orb_false_iff in Hns as [Hns _]. apply orb_false_iff in Hns as [Hns Hedges].
  apply orb_false_iff in Hns as [Hnodes _]. rewrite existsb_false in Hnodes, Hedges. split.
  - intros id Hid. specialize (Hnodes id Hid). unfold node_moved in Hnodes.
    destruct (gs_nodes st' !! id) as [n'|] eqn:Hn'; [|done]. apply Z.ltb_ge in Hnodes.
    destruct (apply_patch_descends p st ds sys st' ds' id n' Hwf Ha Hn')
      as [(n & Hn & _ & [->|[_ Hu]])|(raw & _ & _ & _ & _ & Hu)]; [eauto|lia|lia].
  - intros id Hid. assert (id ∈ prop_related_edge_ids q ++ es) as Hin by set_solver.
    specialize (Hedges id Hin). unfold edge_moved in Hedges.
    destruct (gs_edges st' !! id) as [e'|] eqn:He'; [|done]. apply Z.ltb_ge in Hedges.
    destruct (apply_patch_edge_descends p st ds sys st' ds' id e' Hwf Ha He')
      as [(e & He & Heq)|Hr]; [eauto|lia].
Qed.

(** Decision coherence.  A transition the kernel accepts leaves a Decision
    decided only with a selected option that its resulting options list; it
    never selects an option without deciding an undecided Decision; and it
    revisits only a Decision that was decided before. *)
Theorem decision_transition_coherent d changes :
  let selected := default (py_opt_str (dec_selected_option d)) (changes !! "selected_option") in
  let status := default (PStr (dec_status d)) (changes !! "status") in
  let options := default (py_strs (dec_options d)) (changes !! "options") in
  decision_transition_error d changes = None →
  (status = PStr "decided" → selected ≠ PNone ∧ in_options selected options = true) ∧
  (get_not_none (changes !! "selected_option") = true →
     dec_status d ∈ ["open"; "ready"; "revisit"] → status = PStr "decided") ∧
  (status = PStr "revisit" → dec_status d = "revisit" ∨ dec_selected_option d ≠ None).
Proof.
  intros selected status options. unfold decision_transition_error.
  fold selected. fold status. fold options.
  destruct (_ && is_list options && _) eqn:H1; [done|].
  destruct (get_is (Some status) "decided" && _) eqn:H2; [done|].
  destruct (get_is (Some status) "revisit" && _ && _) eqn:H3; [done|].
  destruct (mem (dec_status d) _ && _ && _) eqn:H4; [done|]. intros _. split_and!.
  - intros Hs. rewrite Hs in H2. apply orb_false_iff in H2 as [Hn Hin].
    apply negb_false_iff in Hn, Hin. split; [|done]. intros Hnone. by rewrite Hnone in Hn.
  - intros Hsel Hin. apply mem_true in Hin. rewrite Hin, Hsel, !andb_true_l in H4.
    apply negb_false_iff in H4. apply get_is_true in H4. by injection H4.
  - intros Hs. rewrite Hs in H3. simpl in H3. apply andb_false_iff in H3 as [H3|H3].
    + left. apply negb_false_iff in H3. by apply bool_decide_eq_true in H3.
    + right. by destruct (dec_selected_option d).
Qed.

(** Normalization adds only the implied status.  Approving a stored
    Proposal replays its operations in order, and normalizing them twice is
    normalizing them once. *)
Theorem normalized_ops_idempotent st q ops ops' :
  graph_operations_from_proposal (prop_ops q) = Ok ops →
  normalized_decision_proposal_ops st q = Ok ops' →
  length ops' = length (prop_ops q) ∧ normalize_op st <$> ops' = ops' ∧
  (∀ i us us', ops !! i = Some (UpdateNodes us) → ops' !! i = Some (UpdateNodes us') →
     Forall2 (λ u u', nu_id u' = nu_id u ∧ nu_cause u' = nu_cause u ∧
       (∀ k, k ≠ "status" → nu_changes u' !! k = nu_changes u !! k) ∧
       (nu_changes u' !! "status" = nu_changes u !! "status" ∨
        nu_changes u !! "status" = None ∧ nu_changes u' !! "status" = Some (PStr "decided")))
       us us').
Proof.
  unfold normalized_decision_proposal_ops. intros Hops. rewrite Hops. intros [= <-].
  split_and!.
  - rewrite length_fmap. by eapply graph_operations_from_proposal_length.
  - rewrite <-list_fmap_compose. apply list_fmap_ext. intros _ op _. destruct op; try done.
    simpl. f_equal. rewrite <-list_fmap_compose. apply list_fmap_ext. intros _ u _.
    simpl. unfold normalize_update at 2 3. destruct (get_decision st (nu_id u)) as [d|] eqn:Hd;
      [|unfold normalize_update; by rewrite Hd].
    destruct (_ && _ && _) eqn:Hc; unfold normalize_update; simpl; rewrite Hd.
    + rewrite lookup_insert_eq. simpl. by rewrite andb_false_r.
    + by rewrite Hc.
  - intros i us us' Hi. rewrite list_lookup_fmap, Hi. intros [= <-].
    apply Forall2_fmap_r. apply Forall_Forall2_diag, Forall_true. intros u. unfold compose.
    unfold normalize_update. destruct (get_decision st (nu_id u)); [|by split_and!; auto].
    destruct (_ && _ && _) eqn:Hc; [|by split_and!; auto]. simpl. split; [done|]. split; [done|]. split.
    + intros k Hk. by rewrite lookup_insert_ne.
    + right. rewrite lookup_insert_eq. split; [|done].
      apply andb_true_iff in Hc as [[_ Hc]%andb_true_iff _]. by destruct (nu_changes u !! "status").
Qed.
End properties.
