(* ===== verification/Approval.v ===== *)
(** The shape of a human approval ([core/validation/approval.py]): a standalone
    review or edit, a direct Decision choice, an attempt release, or the
    resolution of one pending Proposal by exact replay. *)

From S2P Require Export Proposals.

Inductive Mode := ModeAdmission | ModeReplay.
#[export] Instance Mode_eq_dec : EqDecision Mode.
Proof. solve_decision. Defined.

(** ** Equality of operations

    pydantic compares field values, not which fields were set, and the payloads
    of type [Any] compare with [==]. *)

Definition changes_eqb (a b : gmap string pyval) : bool :=
  bool_decide (dom a = dom b) &&
  forallb (λ '(k, v), match b !! k with Some w => py_eqb v w | None => false end) (map_to_list a).

Fixpoint list_eqb {A} (eqb : A → A → bool) (a b : list A) : bool :=
  match a, b with
  | [], [] => true
  | x :: a, y :: b => eqb x y && list_eqb eqb a b
  | _, _ => false
  end.

Definition update_eqb (a b : NodeUpdate) : bool :=
  str_eqb (nu_id a) (nu_id b) && changes_eqb (nu_changes a) (nu_changes b) &&
  bool_decide (nu_cause a = nu_cause b) && bool_decide (nu_base_updated_rev a = nu_base_updated_rev b).

Definition new_edge_eqb (a b : NewEdge) : bool :=
  bool_decide (mjoin (ne_id a) = mjoin (ne_id b)) && str_eqb (ne_source a) (ne_source b) &&
  str_eqb (ne_target a) (ne_target b) && str_eqb (ne_relation a) (ne_relation b) &&
  str_eqb (ne_explanation a) (ne_explanation b) &&
  bool_decide (ne_assessment a = ne_assessment b).

Definition node_eqb (a b : ProjectNode) : bool :=
  let x := node_base a in let y := node_base b in
  str_eqb (bn_id x) (bn_id y) && str_eqb (bn_title x) (bn_title y) &&
  bool_decide (bn_extension_type x = bn_extension_type y) &&
  changes_eqb (bn_extension_fields x) (bn_extension_fields y) &&
  bool_decide (bn_standing x = bn_standing y) &&
  (bn_created_rev x =? bn_created_rev y)%Z && (bn_updated_rev x =? bn_updated_rev y)%Z &&
  bool_decide (bn_source_refs x = bn_source_refs y) && bool_decide (node_payload a = node_payload b).

(** A coverage update with its defaults filled in. *)
Definition coverage_value (u : CoverageUpdate) : CoverageBoundary :=
  {| cov_repositories_seen := default [] (cu_repositories_seen u);
     cov_repositories_never_seen := default [] (cu_repositories_never_seen u);
     cov_sessions_read := default [] (cu_sessions_read u);
     cov_sessions_skipped := default [] (cu_sessions_skipped u);
     cov_earliest_timestamp := default None (cu_earliest_timestamp u);
     cov_note := default "No seed has completed." (cu_note u) |}.

(** [a == b] on the operations a Proposal can replay; the other operations
    carry no payload of type [Any]. *)
Definition graph_op_eqb (a b : GraphOperation) : bool :=
  match a, b with
  | CreateNodes x, CreateNodes y => list_eqb node_eqb x y
  | UpdateNodes x, UpdateNodes y => list_eqb update_eqb x y
  | CreateEdges x, CreateEdges y => list_eqb new_edge_eqb x y
  | SetCoverage x, SetCoverage y => bool_decide (coverage_value x = coverage_value y)
  | _, _ => bool_decide (a = b)
  end.

Definition graph_ops_eqb : list GraphOperation → list GraphOperation → bool := list_eqb graph_op_eqb.

(** ** Parts of the shape *)

Definition resolution_ops (p : Patch) : list (list ProposalResolution) :=
  p_ops p ≫= λ op, match op with ResolveProposals rs => [rs] | _ => [] end.
Definition update_ops (p : Patch) : list (list NodeUpdate) :=
  p_ops p ≫= λ op, match op with UpdateNodes us => [us] | _ => [] end.
Definition standing_ops (p : Patch) : list string :=
  p_ops p ≫= λ op, match op with SetStanding id _ => [id] | _ => [] end.

Definition semantic_ops (p : Patch) : list GraphOperation :=
  bfilter (λ op, match op with ResolveProposals _ | SetStanding _ _ => false | _ => true end) (p_ops p).

Definition _validate_approved_decision_result (st : GraphState) (ops : list GraphOperation)
    (revision : option Z) : ValidationReport :=
  ops ≫= λ op, match op with
    | UpdateNodes us => us ≫= λ u,
        match gs_nodes st !! nu_id u with
        | Some n =>
            match as_decision n with
            | Some d => when (is_some (decision_transition_error d (nu_changes u)))
                          (reject "incoherent-decision-approval" revision [node_id n] [])
            | None => []
            end
        | None => []
        end
    | _ => []
    end.

Definition _writes_decision_outcome (st : GraphState) (ops : list GraphOperation) : bool :=
  existsb (λ op, match op with
    | UpdateNodes us => existsb (λ u, is_some (get_decision st (nu_id u)) &&
        (is_some (nu_changes u !! "selected_option") ||
         get_is (nu_changes u !! "status") "decided")) us
    | _ => false
    end) ops.

(** ** Attempt release *)

Section release.
Context `{RecordAdapter}.

Definition released_attempt (before : ExperimentAttempt) (after : pydict) : pydict :=
  dset (dset (dset (attempt_json before) "status" (PStr "cancelled"))
          "finished_at" (default PNone (dget after "finished_at")))
    "failure_reason" (default PNone (dget after "failure_reason")).

(** The number of attempts released, [None] when the edit is refused. *)
Fixpoint release_attempts (previous : list ExperimentAttempt) (raw : list pyval) : option nat :=
  match previous, raw with
  | before :: previous, PDict after :: raw =>
      if py_eqb (PDict after) (PDict (attempt_json before)) then release_attempts previous raw
      else if negb (mem (att_status before) ACTIVE_EXPERIMENT_ATTEMPT_STATUSES) ||
              negb (py_eqb (PDict after) (PDict (released_attempt before after))) ||
              negb (get_not_none (dget after "finished_at"))
      then None else S <$> release_attempts previous raw
  | [], [] => Some 0
  | _, _ => None
  end.

Definition _validate_attempt_release (n : ProjectNode) (raw_attempts : pyval)
    (revision : option Z) : ValidationReport :=
  let refuse := reject "invalid-attempt-release" revision [node_id n] [] in
  match as_experiment n, raw_attempts with
  | Some e, PList raw =>
      if Nat.eqb (length raw) (length (exp_attempts e))
      then match release_attempts (exp_attempts e) raw with
           | Some (S _) => []
           | _ => refuse
           end
      else refuse
  | _, _ => refuse
  end.

(** ** Direct edits and choices *)

(** The names in [changes] outside [allowed] are not empty. *)
Definition disallows (changes : gmap string pyval) (allowed : list string) : bool :=
  negb (bool_decide (dom changes ⊆ list_to_set allowed)).

Definition _validate_direct_node_edit (st : GraphState) (p : Patch) (updates : list NodeUpdate)
    (mode : Mode) (revision : option Z) : ValidationReport :=
  match updates with
  | [u] =>
      when (negb (is_some (nu_base_updated_rev u)) || is_some (nu_cause u))
        (reject "invalid-direct-node-edit" revision [] []) ++
      match gs_nodes st !! nu_id u with
      | None => reject "unknown-node" revision [] []
      | Some n =>
          let changes := nu_changes u in
          when (negb (bool_decide (nu_base_updated_rev u = Some (node_updated_rev n))))
            (reject "stale-node-edit" revision [] []) ++
          if bool_decide (changes = ∅) then reject "empty-node-edit" revision [] []
          else
            when (bool_decide (mode = ModeAdmission) && is_some (as_decision n) &&
                  (is_some (changes !! "selected_option") || get_is (changes !! "status") "decided"))
              (reject "unnamed-decision-action" revision [node_id n] []) ++
            if bool_decide (dom changes = {["attempts"]})
            then _validate_attempt_release n (default PNone (changes !! "attempts")) revision
            else
              when (disallows changes ("extension_fields" :: HUMAN_EDITABLE_NODE_FIELDS (node_type n)))
                (reject "non-prose-node-edit" revision [] []) ++
              when (unchanged_by n changes) (reject "empty-node-edit" revision [] [])
      end
  | _ => reject "invalid-direct-node-edit" revision [] []
  end.
End release.

Section choice.
Context `{TextLib}.

Definition choice_refused (revision : option Z) (ids : list string) : ValidationReport :=
  reject "invalid-direct-decision-choice" revision ids [].

(** The Proposals a choice withdraws, in order. *)
Fixpoint _validate_choice_withdrawals (st : GraphState) (id : string) (revision : option Z)
    (seen : gset string) (rs : list ProposalResolution) : ValidationReport * gset string :=
  match rs with
  | [] => ([], seen)
  | r :: rs =>
      let refuse := choice_refused revision [id] in
      let pending :=
        match gs_proposals st !! pr_id r with
        | Some q => bool_decide (prop_status q = PPending) | None => false end in
      let targets :=
        match gs_proposals st !! pr_id r with
        | Some q => proposal_updates_node q id | None => false end in
      let '(rest, seen') :=
        _validate_choice_withdrawals st id revision ({[pr_id r]} ∪ seen) rs in
      (when (bool_decide (pr_id r ∈ seen) || negb pending || negb targets) refuse ++
       when (negb (bool_decide (pr_status r = Withdrawn))) refuse ++
       when (match pr_reason r with Some s => is_blank s | None => true end) refuse ++ rest, seen')
  end.

(** One pass per resolution operation; an empty one is refused. *)
Definition choice_withdrawals_step (st : GraphState) (id : string) (revision : option Z)
    (acc : ValidationReport * gset string) (rs : list ProposalResolution) :
    ValidationReport * gset string :=
  let '(report, seen) := acc in
  let '(more, seen') := _validate_choice_withdrawals st id revision seen rs in
  (report ++ when (is_nil rs) (choice_refused revision [id]) ++ more, seen').

Definition choice_withdrawals (st : GraphState) (id : string) (revision : option Z)
    (resolutions : list (list ProposalResolution)) : ValidationReport * gset string :=
  foldl (choice_withdrawals_step st id revision) ([], ∅) resolutions.

(** The pending Proposals that update the Decision. *)
Definition expected_withdrawals (st : GraphState) (id : string) : gset string :=
  list_to_set (prop_id <$> bfilter (λ q, bool_decide (prop_status q = PPending) &&
                                         proposal_updates_node q id) (values (gs_proposals st))).

Definition _validate_direct_decision_choice (st : GraphState) (p : Patch)
    (resolutions : list (list ProposalResolution)) (revision : option Z) : ValidationReport :=
  let refuse ids := choice_refused revision ids in
  if negb (permits p DECIDE_DECISION) then refuse []
  else if is_nil (p_ops p) || existsb (λ op, match op with
            | UpdateNodes _ | ResolveProposals _ | SetStanding _ _ => false | _ => true end) (p_ops p)
  then refuse []
  else match update_ops p, standing_ops p with
  | _, _ :: _ :: _ => refuse []
  | [[u]], standing =>
      if negb (is_some (nu_base_updated_rev u)) || is_some (nu_cause u) then refuse []
      else match gs_nodes st !! nu_id u with
      | None => refuse []
      | Some n =>
          match as_decision n with
          | None => refuse []
          | Some d =>
              let changes := nu_changes u in
              let id := node_id n in
              when (str_eqb (dec_status d) "superseded") (refuse [id]) ++
              when (negb (bool_decide (nu_base_updated_rev u = Some (node_updated_rev n))))
                (refuse [id]) ++
              if bool_decide (changes = ∅) then refuse [id]
              else
                let selected := default (py_opt_str (dec_selected_option d))
                                  (changes !! "selected_option") in
                let options := default (py_strs (dec_options d)) (changes !! "options") in
                let '(withdrawals, seen) := choice_withdrawals st id revision resolutions in
                when (disallows changes (["extension_fields"; "selected_option"; "status"] ++
                                         HUMAN_EDITABLE_NODE_FIELDS (node_type n))) (refuse [id]) ++
                when (negb (get_is (changes !! "status") "decided")) (refuse [id]) ++
                when (match selected with
                      | PStr s => is_blank s || negb (in_options selected options)
                      | _ => true end) (refuse [id]) ++
                when (match standing with [s] => negb (str_eqb s id) | _ => false end)
                  (refuse [id]) ++
                withdrawals ++
                when (negb (bool_decide (seen = expected_withdrawals st id))) (refuse [id])
          end
      end
  | _, _ => refuse []
  end.
End choice.

(** ** The shape of an approval Patch *)

Definition op_in_names (names : list string) (op : GraphOperation) : bool := mem (op_name op) names.

Section shape.
Context `{RecordAdapter, TextLib}.

(** A confirmed New-node Patch. *)
Definition validate_new_node_patch (nodes : list ProjectNode) (revision : option Z) :
    ValidationReport :=
  let refuse := reject "invalid-direct-node-create" revision [] [] in
  match nodes with
  | [n] =>
      when (negb (is_some (node_extension_type n))) refuse ++
      when (negb (bool_decide (node_standing n = Asserted)) ||
            negb (is_nil (bn_source_refs (node_base n)))) refuse
  | _ => refuse
  end.

(** An edit of one node, optionally with its review. *)
Definition validate_staged_edit (st : GraphState) (p : Patch) (mode : Mode) (revision : option Z) :
    ValidationReport :=
  let refuse := reject "invalid-standalone-review" revision [] [] in
  match update_ops p, standing_ops p with
  | [us], ([] | [_]) =>
      _validate_direct_node_edit st p us mode revision ++
      when (match standing_ops p, us with
            | s :: _, u :: _ => negb (str_eqb s (nu_id u)) | _, _ => false end) refuse
  | _, _ => refuse
  end.

(** The shapes without a resolution. *)
Definition validate_standalone (st : GraphState) (p : Patch) (mode : Mode) (revision : option Z) :
    ValidationReport :=
  match p_ops p with
  | [SetStanding _ _] | [RemoveNodes _] | [SetOntology _] | [SetProjectTruthScope _ _] => []
  | [ResolveAmbiguities _] =>
      if decide (mode = ModeReplay) then [] else reject "invalid-standalone-review" revision [] []
  | [CreateNodes nodes] => validate_new_node_patch nodes revision
  | ops =>
      if negb (is_nil ops) && forallb (op_in_names ["update_nodes"; "set_standing"]) ops
      then validate_staged_edit st p mode revision
      else reject "invalid-standalone-review" revision [] []
  end.

(** Approving: the Patch replays the stored operations, exactly or normalized. *)
Definition validate_approved (st : GraphState) (p : Patch) (q : Proposal) (mode : Mode)
    (revision : option Z) : res ValidationReport :=
  normalized ← normalized_decision_proposal_ops st q;
  stored ← graph_operations_from_proposal (prop_ops q);
  let ops := semantic_ops p in
  let is_verbatim := graph_ops_eqb ops stored in
  let requires_normalization := negb (graph_ops_eqb normalized stored) in
  let writes := _writes_decision_outcome st ops in
  let admission := bool_decide (mode = ModeAdmission) in
  let named := bool_decide (p_human_action p = Some DecisionChoice) in
  Ok ((if negb is_verbatim && negb (graph_ops_eqb ops normalized)
       then reject "proposal-replay-mismatch" revision [] []
       else if is_verbatim && requires_normalization && admission
       then reject "unnormalized-decision-approval" revision [] []
       else if negb (is_verbatim && requires_normalization)
       then _validate_approved_decision_result st ops revision else []) ++
      (if admission && writes
       then if negb named then reject "unnamed-decision-action" revision [] []
            else when (negb (permits p DECIDE_DECISION))
                   (reject "decision-action-refused" revision [] [])
       else when (named && negb writes) (reject "invalid-direct-decision-choice" revision [] []))).

(** Resolving one pending Proposal. *)
Definition validate_resolution (st : GraphState) (p : Patch) (r : ProposalResolution) (mode : Mode)
    (revision : option Z) : res ValidationReport :=
  match gs_proposals st !! pr_id r with
  | None => Ok (reject "proposal-not-pending" revision [] [])
  | Some q =>
      if negb (bool_decide (prop_status q = PPending))
      then Ok (reject "proposal-not-pending" revision [] [])
      else
        let is_stale := proposal_is_stale st q in
        let withdrawn := bool_decide (pr_status r = Withdrawn) in
        approved ← (if decide (pr_status r = Approved)
                    then validate_approved st p q mode revision else Ok []);
        Ok (when (is_stale && negb withdrawn) (reject "stale-proposal" revision [] []) ++
            approved ++
            when (negb (bool_decide (pr_status r = Approved)) && negb (is_nil (semantic_ops p)))
              (reject "rejected-proposal-has-ops" revision [] []) ++
            when (withdrawn && negb is_stale) (reject "invalid-stale-withdrawal" revision [] []))
  end.

Definition validate_approval_shape (st : GraphState) (p : Patch) (mode : Mode) :
    res ValidationReport :=
  let revision := report_revision p in
  let resolutions := resolution_ops p in
  let approved := existsb (existsb (λ r, bool_decide (pr_status r = Approved))) resolutions in
  if bool_decide (p_human_action p = Some DecisionChoice) && negb approved
  then Ok (_validate_direct_decision_choice st p resolutions revision)
  else match resolutions with
  | [] => Ok (validate_standalone st p mode revision)
  | [[r]] => validate_resolution st p r mode revision
  | _ => Ok (reject "invalid-proposal-resolution" revision [] [])
  end.
End shape.

(** ** Properties *)

Section properties.
Context `{RecordAdapter, TextLib}.
Implicit Types (p : Patch) (st : GraphState).

(** C36: approval is exact.  An accepted approval of a Proposal resolves one
    pending Proposal that is not stale, and its semantic operations are the
    stored operations, or the stored operations with the status implied by a
    legacy Decision selection. *)
Theorem approval_replays_proposal st p mode r report :
  resolution_ops p = [[r]] → pr_status r = Approved →
  validate_approval_shape st p mode = Ok report → rejected report = false →
  ∃ q stored normalized,
    gs_proposals st !! pr_id r = Some q ∧ prop_status q = PPending ∧
    proposal_is_stale st q = false ∧
    graph_operations_from_proposal (prop_ops q) = Ok stored ∧
    normalized_decision_proposal_ops st q = Ok normalized ∧
    (graph_ops_eqb (semantic_ops p) stored = true ∨
     graph_ops_eqb (semantic_ops p) normalized = true).
Proof.
  intros Hr Hs. unfold validate_approval_shape. rewrite Hr. simpl.
  rewrite (bool_decide_eq_true_2 (pr_status r = Approved)) by done. simpl.
  rewrite andb_false_r. unfold validate_resolution.
  destruct (gs_proposals st !! pr_id r) as [q|]; [|by intros [= <-]].
  case_bool_decide as Hpend; simpl; [|by intros [= <-]].
  rewrite decide_True by done. intros Hv Hrej. simplify_res. autorewrite with rcp in Hrej.
  rewrite bool_decide_eq_false_2 in Hrej by (by rewrite Hs). simpl in Hrej.
  rewrite !orb_false_iff, andb_true_r in Hrej. destruct Hrej as (Hstale & Ha & _).
  unfold validate_approved in E. simplify_res.
  eexists q, _, _. do 5 (split; [done|]).
  autorewrite with rcp in Ha. apply orb_false_iff in Ha as [Ha _].
  destruct (graph_ops_eqb (semantic_ops p) a1) eqn:Hv; [by left|right].
  by destruct (graph_ops_eqb (semantic_ops p) a0).
Qed.

(** A rejection or withdrawal changes nothing.  An accepted human
    resolution that does not approve carries no semantic operation, and a
    withdrawal is accepted only for a stale Proposal. *)
Theorem refusal_has_no_effect st p mode r report :
  resolution_ops p = [[r]] → pr_status r ≠ Approved →
  p_human_action p ≠ Some DecisionChoice →
  validate_approval_shape st p mode = Ok report → rejected report = false →
  semantic_ops p = [] ∧
  ∃ q, gs_proposals st !! pr_id r = Some q ∧ prop_status q = PPending ∧
       (pr_status r = Withdrawn ↔ proposal_is_stale st q = true).
Proof.
  intros Hr Hs Hh. unfold validate_approval_shape. rewrite Hr.
  rewrite (bool_decide_eq_false_2 (p_human_action p = _)) by done. simpl.
  unfold validate_resolution.
  destruct (gs_proposals st !! pr_id r) as [q|]; [|by intros [= <-]].
  case_bool_decide as Hpend; simpl; [|by intros [= <-]].
  rewrite decide_False by done. intros [= <-] Hrej. autorewrite with rcp in Hrej.
  rewrite (bool_decide_eq_false_2 (pr_status r = Approved)) in Hrej by done. simpl in Hrej.
  rewrite !orb_false_iff in Hrej. destruct Hrej as (H1 & H2 & H3). split.
  { destruct (semantic_ops p); [done|]. simpl in H2. done. }
  exists q. split; [done|]. split; [done|].
  rewrite ?andb_true_r in *. case_bool_decide as Hw; simpl in *.
  - by destruct (proposal_is_stale st q).
  - rewrite andb_true_r in H1. by rewrite H1.
Qed.

#[local] Arguments py_eqb : simpl never.

(** Releasing attempts touches no finished attempt: every changed record was
    open and is now cancelled. *)
Lemma release_attempts_spec previous raw n :
  release_attempts previous raw = Some n →
  Forall2 (λ before item, ∃ after, item = PDict after ∧
    (py_eqb (PDict after) (PDict (attempt_json before)) = true ∨
     att_status before ∈ ACTIVE_EXPERIMENT_ATTEMPT_STATUSES ∧
     py_eqb (PDict after) (PDict (released_attempt before after)) = true)) previous raw.
Proof.
  revert raw n. induction previous as [|before previous IH]; intros [|item raw] n; try done.
  destruct item as [| | | | | | |after|]; try done. simpl.
  destruct (py_eqb (PDict after) (PDict (attempt_json before))) eqn:Heq.
  { intros Hr. constructor; [exists after; auto|by eapply IH]. }
  destruct (negb (mem _ _)) eqn:Hm; [done|]. apply negb_false_iff, mem_true in Hm.
  destruct (negb (py_eqb _ _)) eqn:He; [done|]. apply negb_false_iff in He.
  destruct (negb (get_not_none _)); [done|]. simpl.
  destruct (release_attempts previous raw) as [m|] eqn:Hr; [|done]. intros _.
  constructor; [exists after; auto|by eapply IH].
Qed.
End properties.
