(* ===== verification/ExperimentLoop.v ===== *)
(** The authority of an Experiment loop
    ([core/validation/experiment_loop.py]): what a bounded loop may write on its
    own Experiment, on its pinned Decisions, and into the graph. *)

From S2P Require Export Approval.

Definition _TERMINAL_ATTEMPT_STATUSES : list string :=
  ["failed"; "completed"; "cancelled"; "superseded"].

Definition terminal (a : ExperimentAttempt) : bool := mem (att_status a) _TERMINAL_ATTEMPT_STATUSES.

(** The fields outside [_ATTEMPT_CLOSE_FIELDS]. *)
Definition attempt_fixed (a : ExperimentAttempt) :=
  (att_id a, att_sequence a, att_purpose a, att_kind a, att_decision_bundle a, att_debug a,
   att_configuration a, att_job_refs a, att_started_at a).

Definition proposal_only (a : ExperimentAttempt) : bool := str_eqb (att_kind a) "proposal_only".

(** ** Attempts *)

(** One recorded attempt against its new version. *)
Definition validate_attempt_version (experiment_id : string) (revision : option Z)
    (before after : ExperimentAttempt) : ValidationReport :=
  if negb (bool_decide (attempt_fixed before = attempt_fixed after))
  then reject "experiment-loop-attempt-mutation" revision [experiment_id] []
  else when (negb (bool_decide (before = after)) && (terminal before || negb (terminal after)))
         (reject "experiment-loop-attempt-close" revision [experiment_id] []).

(** One appended attempt. *)
Definition validate_appended_attempt (experiment_id : string) (pinned : list ExperimentDecisionPin)
    (revision : option Z) (a : ExperimentAttempt) : ValidationReport :=
  when (negb (bool_decide (att_decision_bundle a = pinned)))
    (reject "experiment-loop-pinned-bundle" revision
       (experiment_id :: (pin_decision_id <$> pinned)) []) ++
  when (proposal_only a && negb (is_nil (att_job_refs a)))
    (reject "experiment-loop-proposal-job" revision [experiment_id] []) ++
  when (proposal_only a && negb (terminal a))
    (reject "experiment-loop-proposal-status" revision [experiment_id] []).

Definition validate_attempt_records (experiment_id : string) (previous attempts : list ExperimentAttempt)
    (pinned : list ExperimentDecisionPin) (has_proposals : bool) (revision : option Z) :
    ValidationReport :=
  if (length attempts <? length previous)%nat
  then reject "experiment-loop-attempt-removal" revision [experiment_id] []
  else
    let appended := drop (length previous) attempts in
    (zip previous attempts ≫= λ '(before, after),
       validate_attempt_version experiment_id revision before after) ++
    (appended ≫= validate_appended_attempt experiment_id pinned revision) ++
    when (existsb proposal_only appended && negb has_proposals)
      (reject "experiment-loop-proposal-attempt" revision [experiment_id] []) ++
    when (negb (no_dup (att_id <$> attempts)))
      (reject "experiment-loop-duplicate-attempt" revision [experiment_id] []).

(** ** Created nodes, edges and Proposals *)

(** [created[node.id] = node.type] over the Patch's creations. *)
Definition _created_node_types (ops : list GraphOperation) : gmap string NodeType :=
  foldl (λ m n, <[node_id n := node_type n]> m) ∅ (created_nodes ops).

Definition _validate_created_nodes (nodes : list ProjectNode) (experiment_id : string)
    (revision : option Z) : ValidationReport :=
  nodes ≫= λ n, when (negb (bool_decide (node_type n = TEvidence ∨ node_type n = TBlocker)))
    (reject "experiment-loop-created-node" revision [experiment_id] []).

Definition _SELF_ATTACHMENT_RELATIONS (relation : string) : option NodeType :=
  if str_eqb relation "produces" then Some TEvidence
  else if str_eqb relation "blocked_by" then Some TBlocker else None.

Definition _EVIDENCE_HANDOFF_RELATIONS (relation : string) : option NodeType :=
  if str_eqb relation "informs" then Some TDecision
  else if str_eqb relation "addresses" then Some TBlocker else None.

(** The type of an endpoint: of the graph's node, else of a created one. *)
Definition endpoint_type (st : GraphState) (created : gmap string NodeType) (id : string) :
    option NodeType :=
  match gs_nodes st !! id with Some n => Some (node_type n) | None => created !! id end.

(** The declared layer of a relation, base first. *)
Definition relation_layer (o : OntologyState) (relation : string) : option RelationLayer :=
  match RELATION_SPEC relation with
  | Some spec => Some (rs_layer spec)
  | None => ord_layer <$> custom_relation o relation
  end.

Definition validate_loop_edge (st : GraphState) (experiment_id : string)
    (created : gmap string NodeType) (revision : option Z) (e : NewEdge) : ValidationReport :=
  match _SELF_ATTACHMENT_RELATIONS (ne_relation e), _EVIDENCE_HANDOFF_RELATIONS (ne_relation e) with
  | Some expected, _ =>
      when (negb (str_eqb (ne_source e) experiment_id &&
                  bool_decide (created !! ne_target e = Some expected)))
        (reject "experiment-loop-self-attachment" revision [experiment_id; ne_target e] [])
  | None, Some expected =>
      when (negb (bool_decide (created !! ne_source e = Some TEvidence) &&
                  bool_decide (endpoint_type st created (ne_target e) = Some expected)))
        (reject "experiment-loop-evidence-handoff" revision
           [experiment_id; ne_source e; ne_target e] [])
  | None, None =>
      when (negb (bool_decide (relation_layer (gs_ontology st) (ne_relation e) = Some Epistemic)))
        (reject "experiment-loop-edge-layer" revision [experiment_id] [])
  end.

Definition _validate_created_edges (st : GraphState) (edges : list NewEdge) (experiment_id : string)
    (created : gmap string NodeType) (revision : option Z) : ValidationReport :=
  edges ≫= validate_loop_edge st experiment_id created revision.

Definition _tested_hypothesis_ids (st : GraphState) (experiment_id : string) : gset string :=
  list_to_set (edge_target <$>
    bfilter (λ e, str_eqb (edge_source e) experiment_id && str_eqb (edge_relation e) "tests")
      (values (gs_edges st))).

(** The ids of the Patch's Evidence edges into [target]. *)
Definition _grounding_edge_ids (st : GraphState) (ops : list GraphOperation)
    (created : gmap string NodeType) (target : string) : list string :=
  ops ≫= λ op, match op with
    | CreateEdges es =>
        new_edge_id <$> bfilter (λ e, str_eqb (ne_target e) target &&
          mem (ne_relation e) EVIDENCE_RELATIONS &&
          bool_decide (endpoint_type st created (ne_source e) = Some TEvidence)) es
    | _ => []
    end.

(** [None] when some operation is not an update or updates nothing. *)
Definition _proposal_update_targets (ops : list ProposalOperation) : gset string :=
  if forallb (λ op, negb (is_nil (op_updates op))) ops
  then list_to_set (nu_id <$> (ops ≫= op_updates)) else ∅.

Definition validate_belief_update (experiment_id hypothesis_id : string) (grounding : list string)
    (revision : option Z) (u : NodeUpdate) : ValidationReport :=
  if negb (bool_decide (dom (nu_changes u) = {["status"]}))
  then reject "experiment-loop-belief-proposal-operations" revision [experiment_id; hypothesis_id] []
  else when (match nu_cause u with Some (EvidenceEdgeCause r) => negb (mem r grounding) | _ => true end)
         (reject "experiment-loop-belief-cause" revision [experiment_id; hypothesis_id] []).

Definition _validate_belief_proposal (q : Proposal) (experiment_id : string) (targets : list string)
    (grounding : string → list string) (revision : option Z) : ValidationReport :=
  match targets with
  | [hypothesis_id] =>
      when (is_nil (grounding hypothesis_id))
        (reject "experiment-loop-belief-grounding" revision [experiment_id; hypothesis_id] []) ++
      ((prop_ops q ≫= op_updates) ≫=
         validate_belief_update experiment_id hypothesis_id (grounding hypothesis_id) revision)
  | _ => reject "experiment-loop-belief-proposal-scope" revision (experiment_id :: targets) []
  end.

Definition validate_loop_proposal (st : GraphState) (experiment_id : string)
    (grounding : string → list string) (revision : option Z) (q : Proposal) : ValidationReport :=
  let targets := _proposal_update_targets (prop_ops q) in
  if negb (bool_decide (targets = ∅)) &&
     bool_decide (targets ⊆ _tested_hypothesis_ids st experiment_id)
  then _validate_belief_proposal q experiment_id (sorted_set targets) grounding revision
  else reject "experiment-loop-proposal-operations" revision
         (experiment_id :: sorted_set targets) [].

(** ** The loop's Patch *)

Definition _allowed_experiment_fields (p : Patch) (mode : Mode) : list string :=
  ["attempts"; "status"; "current_summary"; "next_action"] ++
  if bool_decide (mode = ModeReplay) && (p_schema_generation p =? 1)%Z
  then LEGACY_COMPATIBILITY_UPDATE_FIELDS else [].

Section loop.
Context `{RecordAdapter}.

Definition _validate_attempts (experiment_id : string) (e : ExperimentNode) (raw : pyval)
    (pinned : list ExperimentDecisionPin) (has_proposals : bool) (revision : option Z) :
    res ValidationReport :=
  match raw with
  | PList items =>
      match res_map validate_attempt items with
      | Ok attempts => Ok (validate_attempt_records experiment_id (exp_attempts e) attempts
                             pinned has_proposals revision)
      | Raise ValidationError => Ok []
      | Raise x => Raise x
      end
  | _ => Ok []
  end.

Definition validate_loop_update (st : GraphState) (experiment_id : string) (e : ExperimentNode)
    (pinned : list ExperimentDecisionPin) (has_proposals : bool) (allowed : list string)
    (revision : option Z) (u : NodeUpdate) : res ValidationReport :=
  let changes := nu_changes u in
  if mem (nu_id u) (pin_decision_id <$> pinned) then
    queued ← (if bool_decide (dom changes = {["status"]})
              then in_set (changes !! "status") ["open"; "ready"; "revisit"] else Ok false);
    Ok (if negb queued
        then reject "experiment-loop-decision-action" revision [experiment_id; nu_id u] []
        else when (negb (is_some (get_decision st (nu_id u))))
               (reject "experiment-loop-foreign-update" revision [experiment_id; nu_id u] []))
  else if negb (str_eqb (nu_id u) experiment_id)
  then Ok (reject "experiment-loop-foreign-update" revision [experiment_id; nu_id u] [])
  else
    attempts ← match changes !! "attempts" with
               | Some raw => _validate_attempts experiment_id e raw pinned has_proposals revision
               | None => Ok []
               end;
    Ok (when (disallows changes allowed)
          (reject "experiment-loop-experiment-field" revision [experiment_id] []) ++ attempts).

(** [[y for x in xs for y in f(x)]] where [f] may raise. *)
Definition res_concat {A} (f : A → res ValidationReport) (l : list A) : res ValidationReport :=
  fmap (FMap := res_fmap) mjoin (res_map f l).

Definition validate_loop_op (st : GraphState) (p : Patch) (experiment_id : string)
    (e : ExperimentNode) (pinned : list ExperimentDecisionPin) (mode : Mode)
    (op : GraphOperation) : res ValidationReport :=
  let revision := report_revision p in
  let created := _created_node_types (p_ops p) in
  let has_proposals :=
    existsb (λ op, match op with CreateProposals ps => negb (is_nil ps) | _ => false end) (p_ops p) in
  match op with
  | UpdateNodes us =>
      res_concat (validate_loop_update st experiment_id e pinned has_proposals
                    (_allowed_experiment_fields p mode) revision) us
  | CreateNodes nodes => Ok (_validate_created_nodes nodes experiment_id revision)
  | CreateEdges es => Ok (_validate_created_edges st es experiment_id created revision)
  | CreateProposals ps =>
      Ok (ps ≫= validate_loop_proposal st experiment_id
                  (_grounding_edge_ids st (p_ops p) created) revision)
  | _ => Ok (reject "experiment-loop-operation" revision [experiment_id] [])
  end.

Definition validate_experiment_loop_authority (st : GraphState) (p : Patch)
    (control_node_id : option string) (pinned : list ExperimentDecisionPin) (mode : Mode) :
    res ValidationReport :=
  let revision := report_revision p in
  match (if truthy_opt control_node_id then control_node_id else None)
        ≫= (λ id, gs_nodes st !! id) with
  | Some n =>
      match as_experiment n with
      | Some e =>
          ops ← res_concat (validate_loop_op st p (node_id n) e pinned mode) (p_ops p);
          Ok (when (negb (no_dup (pin_decision_id <$> pinned)))
                (reject "experiment-loop-decision-bundle" revision
                   (node_id n :: (pin_decision_id <$> pinned)) []) ++ ops)
      | None => Ok (reject "experiment-loop-control-node" revision
                      match control_node_id with Some id => [id] | None => [] end [])
      end
  | None => Ok (reject "experiment-loop-control-node" revision
                  match control_node_id with
                  | Some id => if truthy id then [id] else [] | None => [] end [])
  end.
End loop.

(** ** Properties *)

Section properties.
Context `{RecordAdapter}.
Implicit Types (p : Patch) (st : GraphState).

Lemma res_concat_ok {A} (f : A → res ValidationReport) l r x :
  res_concat f l = Ok r → x ∈ l → rejected r = false →
  ∃ r', f x = Ok r' ∧ rejected r' = false.
Proof.
  unfold res_concat. intros Hc Hx Hr. simplify_res. apply res_map_Forall2 in E.
  apply list_elem_of_lookup in Hx as (i & Hi). eapply Forall2_lookup_l in E as (r' & Hr' & Hf); [|done].
  exists r'. split; [done|]. rewrite rejected_concat, existsb_false in Hr. apply Hr.
  by eapply list_elem_of_lookup_2.
Qed.

(** What an accepted update of a loop does. *)
Definition loop_update_ok st (experiment_id : string) (pinned : list ExperimentDecisionPin)
    (allowed : list string) (u : NodeUpdate) : Prop :=
  (nu_id u ∈ pin_decision_id <$> pinned ∧ is_some (get_decision st (nu_id u)) = true ∧
   dom (nu_changes u) = {["status"]} ∧
   ∃ s, nu_changes u !! "status" = Some (PStr s) ∧ s ∈ ["open"; "ready"; "revisit"]) ∨
  (nu_id u = experiment_id ∧ dom (nu_changes u) ⊆ list_to_set allowed).

Lemma validate_loop_update_ok st id e pinned hp allowed rev u r :
  validate_loop_update st id e pinned hp allowed rev u = Ok r → rejected r = false →
  loop_update_ok st id pinned allowed u.
Proof.
  unfold validate_loop_update. destruct (mem (nu_id u) _) eqn:Hm.
  - apply mem_true in Hm. case_bool_decide as Hd; intros Hv Hr; simplify_res.
    left. split; [done|].
    unfold in_set in E. destruct (nu_changes u !! "status") as [[]|] eqn:Hs; simplify_res;
      simpl in *; try done.
    destruct (mem s _) eqn:Hin; simpl in Hr; [|done].
    apply mem_true in Hin. autorewrite with rcp in Hr. apply negb_false_iff in Hr.
    split; [done|]. split; [done|]. eauto.
  - destruct (negb (str_eqb _ _)) eqn:Hid; intros Hv Hr; simplify_res.
    apply negb_false_iff, bool_decide_eq_true in Hid. right. split; [done|].
    autorewrite with rcp in Hr. apply orb_false_iff in Hr as [Hr _].
    unfold disallows in Hr. by apply negb_false_iff, bool_decide_eq_true in Hr.
Qed.

(** What an accepted edge of a loop joins: the loop's own Experiment to Evidence
    it produced or a Blocker it met, its new Evidence to the Decision or Blocker it
    informs, or anything along an epistemic relation. *)
Definition loop_edge_ok st (experiment_id : string) (created : gmap string NodeType)
    (e : NewEdge) : Prop :=
  (ne_source e = experiment_id ∧
   ((ne_relation e = "produces" ∧ created !! ne_target e = Some TEvidence) ∨
    (ne_relation e = "blocked_by" ∧ created !! ne_target e = Some TBlocker))) ∨
  (created !! ne_source e = Some TEvidence ∧
   ((ne_relation e = "informs" ∧ endpoint_type st created (ne_target e) = Some TDecision) ∨
    (ne_relation e = "addresses" ∧ endpoint_type st created (ne_target e) = Some TBlocker))) ∨
  relation_layer (gs_ontology st) (ne_relation e) = Some Epistemic.

(** What an accepted Proposal of a loop asks: one tested Hypothesis to change its
    status, each time because of an Evidence edge the same Patch draws into it. *)
Definition loop_proposal_ok st (experiment_id : string) (grounding : string → list string)
    (q : Proposal) : Prop :=
  ∃ h, h ∈ _tested_hypothesis_ids st experiment_id ∧
    (∀ op, op ∈ prop_ops q → op_updates op ≠ []) ∧
    ∀ u, u ∈ prop_ops q ≫= op_updates →
      nu_id u = h ∧ dom (nu_changes u) = {["status"]} ∧
      ∃ r, nu_cause u = Some (EvidenceEdgeCause r) ∧ r ∈ grounding h.

Lemma validate_loop_edge_ok st id created rev e :
  rejected (validate_loop_edge st id created rev e) = false → loop_edge_ok st id created e.
Proof.
  unfold validate_loop_edge, loop_edge_ok, _SELF_ATTACHMENT_RELATIONS, _EVIDENCE_HANDOFF_RELATIONS.
  unfold str_eqb. repeat case_bool_decide; simpl; try (autorewrite with rcp; simpl);
    rewrite ?negb_false_iff, ?andb_false_iff; intros; naive_solver.
Qed.

Lemma validate_loop_proposal_ok st id grounding rev q :
  rejected (validate_loop_proposal st id grounding rev q) = false →
  loop_proposal_ok st id grounding q.
Proof.
  unfold validate_loop_proposal. destruct (_ && _) eqn:Hc; [|by autorewrite with rcp].
  apply andb_true_iff in Hc as [Hne Hsub].
  apply negb_true_iff, bool_decide_eq_false in Hne. apply bool_decide_eq_true in Hsub.
  unfold _validate_belief_proposal.
  destruct (sorted_set _) as [|h [|? ?]] eqn:Hs; try by autorewrite with rcp.
  autorewrite with rcp. intros [_ Hu]%orb_false_iff. rewrite rejected_bind_false in Hu.
  assert (∀ x, x ∈ _proposal_update_targets (prop_ops q) ↔ x = h) as Hx.
  { intros x. rewrite <-elem_of_sorted_set, Hs. apply list_elem_of_singleton. }
  assert (h ∈ _tested_hypothesis_ids st id) as Hh by by apply Hsub, Hx.
  revert Hne Hx. unfold _proposal_update_targets at 1 2. destruct (forallb _ _) eqn:Hall; [|done].
  intros _ Hx. exists h. split; [done|]. split.
  - intros op Hop. eapply forallb_forall in Hall; [|by apply list_elem_of_In].
    by destruct (op_updates op).
  - intros u Hin. split; [apply Hx, elem_of_list_to_set, list_elem_of_fmap; eauto|].
    specialize (Hu u Hin). revert Hu. unfold validate_belief_update.
    case_bool_decide as Hd; simpl; [|by autorewrite with rcp]. autorewrite with rcp.
    destruct (nu_cause u) as [[r|r|r|]|]; simpl; try done.
    intros Hm%negb_false_iff%mem_true. eauto.
Qed.

Lemma allowed_fields_spelled p mode :
  _allowed_experiment_fields p mode =
    ["attempts"; "status"; "current_summary"; "next_action"] ++
    if decide (mode = ModeReplay ∧ p_schema_generation p = 1%Z)
    then ["legacy_strength"; "current_summary_stale"; "next_action_stale"] else [].
Proof.
  unfold _allowed_experiment_fields. f_equal.
  destruct mode, (Z.eqb_spec (p_schema_generation p) 1); case_decide; simpl; naive_solver.
Qed.

(** C35: loop authority.  Whatever an accepted Experiment-loop Patch contains,
    its updates write only the four loop fields of the Experiment RCP bound
    (plus migrated system fields when replaying old history) or queue a pinned
    Decision without deciding it; it creates only Evidence and Blockers, draws
    only its own attachments, evidence hand-offs and epistemic edges, and
    proposes only a status change of one tested Hypothesis grounded in the
    Evidence of the same Patch; it never removes, retires, merges, reviews or
    reconfigures anything. *)
Theorem loop_authority_bounded st p control pinned mode report :
  validate_experiment_loop_authority st p control pinned mode = Ok report →
  rejected report = false →
  ∃ n, control ≫= (λ id, gs_nodes st !! id) = Some n ∧ is_some (as_experiment n) = true ∧
    NoDup (pin_decision_id <$> pinned) ∧
    ∀ op, op ∈ p_ops p →
      match op with
      | UpdateNodes us =>
          ∀ u, u ∈ us → loop_update_ok st (node_id n) pinned
            (["attempts"; "status"; "current_summary"; "next_action"] ++
             if decide (mode = ModeReplay ∧ p_schema_generation p = 1%Z)
             then ["legacy_strength"; "current_summary_stale"; "next_action_stale"] else []) u
      | CreateNodes nodes =>
          ∀ m, m ∈ nodes → node_type m = TEvidence ∨ node_type m = TBlocker
      | CreateEdges es =>
          ∀ e, e ∈ es → loop_edge_ok st (node_id n) (_created_node_types (p_ops p)) e
      | CreateProposals qs =>
          ∀ q, q ∈ qs → loop_proposal_ok st (node_id n)
            (_grounding_edge_ids st (p_ops p) (_created_node_types (p_ops p))) q
      | _ => False
      end.
Proof.
  unfold validate_experiment_loop_authority. intros Hv Hr.
  destruct control as [id|]; simpl in Hv; [|by injection Hv as <-].
  destruct (truthy id); simpl in Hv; [|by injection Hv as <-].
  destruct (gs_nodes st !! id) as [n|] eqn:Hn; [|by injection Hv as <-].
  destruct (as_experiment n) as [e|] eqn:He; [|by injection Hv as <-].
  simplify_res. exists n. split; [done|]. rewrite He. split; [done|].
  autorewrite with rcp in Hr. apply orb_false_iff in Hr as [Hd Hr].
  apply negb_false_iff, bool_decide_eq_true in Hd. split; [done|].
  intros op Hop. destruct (res_concat_ok _ _ _ op E Hop Hr) as (r & Ho & Hrr).
  destruct op; simpl in Ho; apply Ok_inj in Ho || idtac; subst; try done.
  - intros m Hm. unfold _validate_created_nodes in Hrr.
    rewrite rejected_bind_false in Hrr. specialize (Hrr m Hm).
    autorewrite with rcp in Hrr. by apply negb_false_iff, bool_decide_eq_true in Hrr.
  - intros u Hu. destruct (res_concat_ok _ _ _ u Ho Hu Hrr) as (r' & Hu' & Hr').
    apply validate_loop_update_ok in Hu'; [|done]. by rewrite allowed_fields_spelled in Hu'.
  - intros x Hx. unfold _validate_created_edges in Hrr. rewrite rejected_bind_false in Hrr.
    by eapply validate_loop_edge_ok, Hrr.
  - intros q Hq. rewrite rejected_bind_false in Hrr. by eapply validate_loop_proposal_ok, Hrr.
Qed.

Lemma validate_attempt_version_ok id rev before after :
  rejected (validate_attempt_version id rev before after) = false →
  attempt_fixed before = attempt_fixed after ∧
  (before = after ∨ terminal before = false ∧ terminal after = true).
Proof.
  unfold validate_attempt_version. case_bool_decide as Hf; simpl; [|done].
  autorewrite with rcp. intros Hr. split; [done|]. case_bool_decide as Heq; [by left|].
  right. simpl in Hr. destruct (terminal before), (terminal after); done.
Qed.

(** Attempts are append-only.  Accepted attempt records keep every earlier
    attempt at its position with its identity, pinned bundle and
    configuration; a changed record goes from open to terminal; appended
    attempts carry the pinned bundle, a Proposal-only one is terminal and
    names no job; ids stay unique. *)
Theorem attempts_append_only id previous attempts pinned hp rev :
  rejected (validate_attempt_records id previous attempts pinned hp rev) = false →
  ∃ kept appended, attempts = kept ++ appended ∧
    Forall2 (λ before after, attempt_fixed before = attempt_fixed after ∧
      (before = after ∨ terminal before = false ∧ terminal after = true)) previous kept ∧
    Forall (λ a, att_decision_bundle a = pinned ∧
      (proposal_only a = true → att_job_refs a = [] ∧ terminal a = true)) appended ∧
    (existsb proposal_only appended = true → hp = true) ∧
    NoDup (att_id <$> attempts).
Proof.
  unfold validate_attempt_records. destruct (length attempts <? length previous)%nat eqn:Hlen; [done|].
  apply Nat.ltb_ge in Hlen. intros Hr. autorewrite with rcp in Hr.
  rewrite !orb_false_iff in Hr. destruct Hr as (Hv & Ha & Hp & Hd).
  exists (take (length previous) attempts), (drop (length previous) attempts).
  split; [by rewrite take_drop|]. split; [|split; [|split]].
  - rewrite rejected_bind_false in Hv.
    apply Forall2_same_length_lookup_2; [rewrite length_take; lia|].
    intros i before after Hb Haf. apply validate_attempt_version_ok with (id := id) (rev := rev).
    apply (Hv (before, after)). apply list_elem_of_lookup. exists i.
    rewrite lookup_zip_with, Hb. simpl.
    apply lookup_take_Some in Haf as [Haf _]. by rewrite Haf.
  - rewrite rejected_bind_false in Ha. apply Forall_forall. intros a Hin. specialize (Ha a Hin).
    unfold validate_appended_attempt in Ha. autorewrite with rcp in Ha.
    rewrite !orb_false_iff in Ha. destruct Ha as (H1 & H2 & H3).
    apply negb_false_iff, bool_decide_eq_true in H1. split; [done|]. intros Hpo.
    rewrite Hpo in H2, H3. simpl in H2, H3. apply negb_false_iff in H2, H3.
    split; [|done]. by destruct (att_job_refs a).
  - intros Hpo. rewrite Hpo in Hp. simpl in Hp. by apply negb_false_iff in Hp.
  - by apply negb_false_iff, bool_decide_eq_true in Hd.
Qed.
End properties.
