(* ===== verification/OpRules.v ===== *)
(** One rule per operation ([core/validation/ops.py], [context.py]).

    A rule reads the staged state, the state before the Patch, and the Patch,
    and returns the messages it reports with the oldest source reference it
    cites.  Proposals are validated by replaying them through the same rules:
    that recursive call is a parameter here and is tied in [PatchRules]. *)

From S2P Require Export ExperimentLoop.

Record OpContext := {
  ctx_state : GraphState; ctx_initial_state : GraphState; ctx_patch : Patch;
  ctx_revision : option Z; ctx_project_truth_scope : gset string;
  ctx_repositories : gset string; ctx_machines : option (gset string);
  ctx_default_run_truth_scope : gset string; ctx_state_repository : option string;
  ctx_mode : Mode; ctx_experiment_control_node_id : option string;
  ctx_reference_patch : option Patch }.

Definition admission (c : OpContext) : bool := bool_decide (ctx_mode c = ModeAdmission).

(** A report with the oldest reference cited. *)
Notation Verdict := (ValidationReport * option Z)%type.

Definition only_report (r : res ValidationReport) : res Verdict := r' ← r; Ok (r', None).

(** The loop of a rule: reports in order, the older of the references. *)
Fixpoint each {A} (f : A → res Verdict) (l : list A) : res Verdict :=
  match l with
  | [] => Ok ([], None)
  | x :: l => a ← f x; b ← each f l; Ok (a.1 ++ b.1, older a.2 b.2)
  end.

(** ** Objects in context *)

Definition context_patches (c : OpContext) : list Patch :=
  ctx_patch c :: match ctx_reference_patch c with Some p => [p] | None => [] end.

Definition _created_node_id (c : OpContext) (id : string) : bool :=
  mem id (created_node_ids (ctx_patch c)).

Definition _node_type (c : OpContext) (id : string) : option NodeType :=
  match gs_nodes (ctx_state c) !! id with
  | Some n => Some (node_type n)
  | None => head (omap (λ p, _created_node_type p id) (context_patches c))
  end.

Definition created_edges (ops : list GraphOperation) : list NewEdge :=
  ops ≫= λ op, match op with CreateEdges es => es | _ => [] end.

(** The edge with an id, or the one a Patch in context creates under it; a
    custom relation has no layer yet, so its creation does not validate here. *)
Definition _edge_in_context (c : OpContext) (id : string) : option Edge :=
  match gs_edges (ctx_state c) !! id with
  | Some e => Some e
  | None =>
      match find (λ e, str_eqb (new_edge_id e) id)
              (context_patches c ≫= λ p, created_edges (p_ops p)) with
      | Some e =>
          match edge_validate (Some id) (ne_source e) (ne_target e) (ne_relation e)
                  (ne_explanation e) None (ne_assessment e) 0 with
          | Ok e => Some e
          | Raise _ => None
          end
      | None => None
      end
  end.

Definition _validate_belief_cause (c : OpContext) (hypothesis_id : string)
    (cause : option BeliefCause) : ValidationReport :=
  let p := ctx_patch c in
  let refuse nodes edges := reject "invalid-belief-cause" (ctx_revision c) nodes edges in
  match cause with
  | None => reject "missing-belief-cause" (ctx_revision c) [hypothesis_id] []
  | Some HumanEditCause =>
      when (negb (bool_decide (p_kind p = KApproval)) || negb (bool_decide (p_author p = Some RHuman)))
        (refuse [hypothesis_id] [])
  | Some (DecisionCause r) =>
      when (negb (bool_decide (_node_type c r = Some TDecision))) (refuse [hypothesis_id; r] [])
  | Some (ProposalResolutionCause r) =>
      when (negb (mem r (pr_id <$> mjoin (resolution_ops p)))) (refuse [hypothesis_id] [])
  | Some (EvidenceEdgeCause r) =>
      when (match _edge_in_context c r with
            | Some e => negb (str_eqb (edge_target e) hypothesis_id) ||
                        negb (mem (edge_relation e) EVIDENCE_RELATIONS) ||
                        negb (bool_decide (_node_type c (edge_source e) = Some TEvidence))
            | None => true
            end) (refuse [hypothesis_id] [r])
  end.

(** ** Nodes *)

Section nodes.
Context `{NodeAdapter, RecordAdapter, TextLib}.

Definition validate_create_nodes (c : OpContext) (nodes : list ProjectNode) : res Verdict :=
  each (λ n,
    let raw := node_dump_set n in
    new ← validate_new_node (ctx_state c) (ctx_patch c) raw;
    refs ← oldest_source_ref (dget raw "source_refs") (ctx_patch c);
    Ok (when (admission c && is_some (gs_nodes (ctx_initial_state c) !! node_id n))
          (reject "initial-node-id-replacement" (ctx_revision c) [node_id n] []) ++
        new ++ refs.1, refs.2)) nodes.

Definition author_create_nodes (c : OpContext) (nodes : list ProjectNode) : res Verdict :=
  each (λ n,
    authored ← validate_new_node_authoring (ctx_state c) (ctx_patch c) (node_dump_set n);
    Ok (when (match as_experiment n with
              | Some e => str_eqb (exp_status e) "unspecified" | None => false end)
          (reject "live-legacy-experiment-phase" (ctx_revision c) [node_id n] []) ++
        when (is_some (as_evidence n) &&
              bool_decide ("legacy_strength" ∈ bn_fields_set (node_base n)))
          (reject "live-legacy-evidence-strength" (ctx_revision c) [node_id n] []) ++
        authored, None)) nodes.

(** The system fields one update may not change, as this rule sees them. *)
Definition refused_fields (c : OpContext) (live_legacy_strength : bool) : list string :=
  if bool_decide (ctx_mode c = ModeReplay) && (p_schema_generation (ctx_patch c) =? 1)%Z
  then bfilter (λ f, negb (mem f LEGACY_COMPATIBILITY_UPDATE_FIELDS)) IMMUTABLE_NODE_UPDATE_FIELDS
  else if live_legacy_strength
  then bfilter (λ f, negb (str_eqb f "legacy_strength")) IMMUTABLE_NODE_UPDATE_FIELDS
  else IMMUTABLE_NODE_UPDATE_FIELDS.

(** Who may write a belief or a Decision outcome, or queue a Decision. *)
Definition validate_update_authority (c : OpContext) (n : ProjectNode) (u : NodeUpdate) :
    res ValidationReport :=
  let p := ctx_patch c in
  let changes := nu_changes u in
  let is_control_update :=
    bool_decide (p_kind p = KExperimentLoop) &&
    bool_decide (ctx_experiment_control_node_id c = Some (nu_id u)) &&
    negb (disallows changes ["attempts"; "status"]) in
  let refused := reject "decision-action-refused" (ctx_revision c) [node_id n] [] in
  if negb is_control_update && requires_proposal n changes
  then Ok (if is_some (as_decision n)
           then when (admission c && negb (permits p DECIDE_DECISION)) refused
           else when (negb (bool_decide (p_kind p = KApproval)))
                  (reject "gated-transition" (ctx_revision c) [] []))
  else if is_some (as_decision n) && admission c
  then queued ← in_set (changes !! "status") ["open"; "ready"; "revisit"];
       Ok (when (queued && negb (permits p QUEUE_DECISION)) refused)
  else Ok [].

Definition validate_update_node (c : OpContext) (u : NodeUpdate) : res Verdict :=
  let p := ctx_patch c in
  let changes := nu_changes u in
  match gs_nodes (ctx_state c) !! nu_id u with
  | None => Ok (reject "unknown-node" (ctx_revision c) [] [], None)
  | Some n =>
      let live_legacy_phase := admission c && is_some (as_experiment n) &&
                               get_is (changes !! "status") "unspecified" in
      let live_legacy_strength := admission c && is_some (as_evidence n) &&
                                  is_some (changes !! "legacy_strength") in
      let legacy :=
        when live_legacy_phase
          (reject "live-legacy-experiment-phase" (ctx_revision c) [node_id n] []) ++
        when live_legacy_strength
          (reject "live-legacy-evidence-strength" (ctx_revision c) [node_id n] []) in
      if touches changes (refused_fields c live_legacy_strength)
      then Ok (legacy ++ reject "immutable-node-field" (ctx_revision c) [] [], None)
      else if live_legacy_strength || live_legacy_phase then Ok (legacy, None)
      else
        let candidate := dupdate (node_dump n) changes in
        invalid ← reject_invalid
          (if bool_decide (ctx_mode c = ModeReplay) && (p_schema_generation p =? 1)%Z
           then validate_python candidate else strict_project_node candidate)
          (reject "invalid-node-update" (ctx_revision c) [] []);
        authority ← validate_update_authority c n u;
        refs ← oldest_source_ref (changes !! "source_refs") p;
        Ok (invalid ++ validate_extension_update (ctx_state c) p n changes false ++ authority ++
            when (admission c && match as_decision n with
                                 | Some d => is_some (decision_transition_error d changes)
                                 | None => false end)
              (reject "incoherent-decision-transition" (ctx_revision c) [node_id n] []) ++
            refs.1, refs.2)
  end.

Definition validate_update_nodes (c : OpContext) (us : list NodeUpdate) : res Verdict :=
  each (validate_update_node c) us.

Definition author_update_node (c : OpContext) (u : NodeUpdate) : res Verdict :=
  let p := ctx_patch c in
  let changes := nu_changes u in
  match gs_nodes (ctx_state c) !! nu_id u with
  | None => Ok ([], None)
  | Some n =>
      let is_direct_human_edit :=
        bool_decide (p_kind p = KApproval) && negb (is_some (ctx_reference_patch c)) &&
        is_nil (resolution_ops p) in
      grounded ← (if is_direct_human_edit then Ok []
                  else validate_updated_node_authoring n changes (ctx_revision c));
      Ok (grounded ++ validate_extension_update (ctx_state c) p n changes true ++
          when (match as_hypothesis n, changes !! "status" with
                | Some h, Some v => negb (py_eqb v (PStr (hyp_status h))) | _, _ => false end)
            (_validate_belief_cause c (node_id n) (nu_cause u)), None)
  end.

Definition author_update_nodes (c : OpContext) (us : list NodeUpdate) : res Verdict :=
  each (author_update_node c) us.
End nodes.

(** Removing nodes: none accepted outside an approval, no running Experiment. *)
Definition active_attempts (n : ProjectNode) : bool :=
  match as_experiment n with
  | Some e => existsb (λ a, mem (att_status a) ACTIVE_EXPERIMENT_ATTEMPT_STATUSES) (exp_attempts e)
  | None => false
  end.

Definition validate_remove_nodes (c : OpContext) (ids : list string) : ValidationReport :=
  let p := ctx_patch c in
  let invalid := reject "invalid-remove-nodes-operation" (ctx_revision c) [] [] in
  if is_nil ids || existsb (λ i, negb (truthy i)) ids then invalid
  else if negb (no_dup ids) then invalid
  else
    let is_proposal_approval := bool_decide (p_kind p = KApproval) &&
      (is_some (ctx_reference_patch c) || negb (is_nil (resolution_ops p))) in
    ids ≫= λ id,
      match gs_nodes (ctx_state c) !! id with
      | None => reject "unknown-node" (ctx_revision c) [id] []
      | Some n =>
          let initial := default n (gs_nodes (ctx_initial_state c) !! id) in
          when (bool_decide (node_standing initial = Accepted) && negb is_proposal_approval)
            (reject "accepted-node-removal" (ctx_revision c) [id] []) ++
          when (active_attempts initial || active_attempts n)
            (reject "active-experiment-removal" (ctx_revision c) [id] [])
      end.

Definition _validate_generated_relation_endpoints (c : OpContext) (source target relation : string) :
    ValidationReport :=
  if str_eqb source target then reject "invalid-generated-relation" (ctx_revision c) [source] []
  else
    let id := generated_edge_id source relation target in
    if admission c && is_some (gs_edges (ctx_state c) !! id)
    then reject "duplicate-edge-id" (ctx_revision c) [] [id]
    else match _node_type c source, _node_type c target with
         | Some s, Some t => when (negb (bool_decide (s = t)))
             (reject "generated-relation-type-mismatch" (ctx_revision c) [source; target] [])
         | _, _ => []
         end.

Definition validate_supersede_nodes (c : OpContext) (items : list SupersedeNode) : ValidationReport :=
  items ≫= λ i,
    when (negb (is_some (gs_nodes (ctx_state c) !! sn_id i)))
      (reject "unknown-node" (ctx_revision c) [] []) ++
    match sn_superseded_by i with
    | Some t =>
        when (truthy t && negb (is_some (gs_nodes (ctx_state c) !! t)) &&
              negb (_created_node_id c t) && negb (is_some (_node_type c t)))
          (reject "unknown-node" (ctx_revision c) [] []) ++
        when (admission c) (_validate_generated_relation_endpoints c (sn_id i) t "supersedes")
    | None => []
    end.

Definition validate_merge_nodes (c : OpContext) (items : list NodeMerge) : ValidationReport :=
  items ≫= λ i,
    when (negb (is_some (gs_nodes (ctx_state c) !! nm_duplicate i)))
      (reject "unknown-node" (ctx_revision c) [] []) ++
    when (negb (is_some (gs_nodes (ctx_state c) !! nm_canonical i)) &&
          negb (is_some (_node_type c (nm_canonical i))))
      (reject "unknown-node" (ctx_revision c) [] []) ++
    when (admission c)
      (_validate_generated_relation_endpoints c (nm_duplicate i) (nm_canonical i) "duplicate_of").

(** ** Edges *)

Definition is_evidence_relation (relation : string) : bool := mem relation EVIDENCE_RELATIONS.

(** The endpoints an evidence relation allows. *)
Definition evidence_endpoints_apply (relation : string) (source target : option NodeType) : bool :=
  bool_decide (target = Some THypothesis) &&
  (bool_decide (source = Some TEvidence) ||
   (str_eqb relation "contradicts" && bool_decide (source = Some THypothesis))).

(** Everything but the duplicate check and the final validation; [None] stops
    at an unknown relation. *)
Definition validate_edge_relation (c : OpContext) (e : NewEdge) : ValidationReport * bool :=
  let source := _node_type c (ne_source e) in
  let target := _node_type c (ne_target e) in
  let ends := [ne_source e; ne_target e] in
  let assessment_applies := is_evidence_relation (ne_relation e) &&
    bool_decide (source = Some TEvidence) && bool_decide (target = Some THypothesis) in
  let endpoints :=
    when (negb (is_some (gs_nodes (ctx_state c) !! ne_source e)) &&
          negb (_created_node_id c (ne_source e)))
      (reject "unknown-edge-source" (ctx_revision c) [] []) ++
    when (negb (is_some (gs_nodes (ctx_state c) !! ne_target e)) &&
          negb (_created_node_id c (ne_target e)))
      (reject "unknown-edge-target" (ctx_revision c) [] []) ++
    when (admission c && is_evidence_relation (ne_relation e) && is_some source && is_some target &&
          negb (evidence_endpoints_apply (ne_relation e) source target))
      (reject "invalid-evidence-relation-endpoints" (ctx_revision c) ends [new_edge_id e]) ++
    (if is_some (ne_assessment e) && negb assessment_applies
     then reject "inapplicable-evidence-assessment" (ctx_revision c) ends [new_edge_id e]
     else when (admission c && assessment_applies && negb (is_some (ne_assessment e)))
            (reject "missing-evidence-assessment" (ctx_revision c) ends [new_edge_id e])) in
  match RELATION_SPEC (ne_relation e), custom_relation (gs_ontology (ctx_state c)) (ne_relation e) with
  | Some _, _ => (endpoints, true)
  | None, None => (endpoints ++ reject "invalid-edge" (ctx_revision c) ends [], false)
  | None, Some custom =>
      (endpoints ++
       when (negb (edge_matches_relation (gs_nodes (ctx_state c)) (ne_source e) (ne_target e) custom
                     (node_dump_set <$> created_nodes (p_ops (ctx_patch c)))))
         (reject "custom-relation-type-mismatch" (ctx_revision c) ends []), true)
  end.

(** One edge against the ids seen so far. *)
Definition validate_new_edge (c : OpContext) (acc : ValidationReport * gset string) (e : NewEdge) :
    ValidationReport * gset string :=
  let '(report, seen) := acc in
  let '(relation, known) := validate_edge_relation c e in
  if negb known then (report ++ relation, seen)
  else
    let id := default (Some (generated_edge_id (ne_source e) (ne_relation e) (ne_target e))) (ne_id e) in
    let duplicate :=
      match id with Some id => admission c && bool_decide (id ∈ seen) | None => false end in
    if duplicate
    then (report ++ relation ++
            reject "duplicate-edge-id" (ctx_revision c) []
              match id with Some id => [id] | None => [] end, seen)
    else
      (report ++ relation ++
         when (negb (is_ok (new_edge_validate (gs_ontology (ctx_state c)) e 0)))
           (reject "invalid-edge" (ctx_revision c) [ne_source e; ne_target e]
              match id with Some id => [id] | None => [] end),
       match id with Some id => if admission c then {[id]} ∪ seen else seen | None => seen end).

Definition validate_create_edges (c : OpContext) (es : list NewEdge) : ValidationReport :=
  (foldl (validate_new_edge c) ([], dom (gs_edges (ctx_state c))) es).1.

Definition author_create_edge (c : OpContext) (e : NewEdge) : ValidationReport :=
  when (match custom_relation (gs_ontology (ctx_state c)) (ne_relation e) with
        | Some r => ord_deprecated r | None => false end)
    (reject "deprecated-custom-relation" (ctx_revision c) [] []) ++
  match RELATION_SPEC (ne_relation e), _node_type c (ne_source e), _node_type c (ne_target e) with
  | Some spec, Some s, Some t =>
      when (negb (mem (node_type_str s) (rs_source_types spec)) ||
            negb (mem (node_type_str t) (rs_target_types spec)) ||
            (rs_same_type spec && negb (bool_decide (s = t))))
        (flag "relation-type-mismatch" (ctx_revision c) [ne_source e; ne_target e] [new_edge_id e])
  | _, _, _ => []
  end.

Definition author_create_edges (c : OpContext) (es : list NewEdge) : ValidationReport :=
  es ≫= author_create_edge c.

Definition validate_remove_edges (c : OpContext) (ids : list string) : ValidationReport :=
  when (is_nil ids || existsb (λ i, negb (truthy i)) ids || negb (no_dup ids))
    (reject "invalid-remove-edges-operation" (ctx_revision c) [] []).

(** ** Ambiguities, Proposals, standing and configuration *)

Definition validate_resolve_ambiguities (c : OpContext) (rs : list AmbiguityResolution) :
    ValidationReport :=
  rs ≫= λ r,
    when (negb (is_some (gs_ambiguities (ctx_state c) !! ar_id r)))
      (reject "unknown-ambiguity" (ctx_revision c) [] []) ++
    when (negb (mem (ar_status r) ["resolved"; "dismissed"]))
      (reject "invalid-ambiguity-resolution" (ctx_revision c) [] []).

(** A Proposal to close must exist and be pending. *)
Definition validate_pending (c : OpContext) (id : string) : ValidationReport :=
  match gs_proposals (ctx_state c) !! id with
  | None => reject "unknown-proposal" (ctx_revision c) [] []
  | Some q => when (negb (bool_decide (prop_status q = PPending)))
                (reject "proposal-not-pending" (ctx_revision c) [] [])
  end.

Definition validate_resolve_proposals (c : OpContext) (rs : list ProposalResolution) :
    ValidationReport :=
  when (admission c && negb (bool_decide (p_kind (ctx_patch c) = KApproval)))
    (reject "agent-resolved-proposal" (ctx_revision c) [] []) ++
  (rs ≫= λ r, validate_pending c (pr_id r)).

Definition validate_withdraw_proposals (c : OpContext) (ws : list ProposalWithdrawal) :
    ValidationReport :=
  when (negb (bool_decide (p_author (ctx_patch c) = Some RAgent)) ||
        bool_decide (p_kind (ctx_patch c) = KApproval))
    (reject "human-only-proposal-withdrawal" (ctx_revision c) [] []) ++
  (ws ≫= λ w, validate_pending c (pw_id w)).

(** The standing itself is one of the three by its type. *)
Definition validate_set_standing (c : OpContext) (id : string) : ValidationReport :=
  when (admission c && negb (permits (ctx_patch c) SET_STANDING))
    (reject "agent-set-standing" (ctx_revision c) [] []) ++
  when (negb (is_some (gs_nodes (ctx_state c) !! id))) (reject "unknown-node" (ctx_revision c) [] []).

Definition complete_descriptor (d : RepositoryDescriptor) : bool :=
  truthy (rd_alias d) && truthy (rd_machine d) && truthy (rd_path d).

(** A complete new descriptor makes its alias known to the later operations. *)
Definition repositories_after (c : OpContext) (op : GraphOperation) : gset string :=
  match op with
  | SetProjectTruthScope _ (Some d) =>
      if complete_descriptor d then {[rd_alias d]} ∪ ctx_repositories c else ctx_repositories c
  | _ => ctx_repositories c
  end.

Definition validate_set_project_truth_scope (c : OpContext) (scope : list string)
    (descriptor : option RepositoryDescriptor) : ValidationReport :=
  let proposed : gset string := list_to_set scope in
  when (negb (bool_decide (p_kind (ctx_patch c) = KApproval)))
    (reject "agent-set-project-scope" (ctx_revision c) [] []) ++
  match descriptor with
  | Some d =>
      if negb (complete_descriptor d) then reject "incomplete-repository" (ctx_revision c) [] []
      else when (match ctx_machines c with
                 | Some ms => negb (bool_decide (rd_machine d ∈ ms)) | None => false end)
             (reject "unknown-repository-machine" (ctx_revision c) [] [])
  | None => []
  end ++
  when (negb (bool_decide (proposed ⊆
          repositories_after c (SetProjectTruthScope scope descriptor))))
    (reject "unknown-project-repository" (ctx_revision c) [] []) ++
  when (match ctx_state_repository c with
        | Some r => truthy r && negb (bool_decide (r ∈ proposed)) | None => false end)
    (reject "remove-state-repository" (ctx_revision c) [] []) ++
  when (negb (bool_decide (ctx_default_run_truth_scope c ⊆ proposed)))
    (reject "remove-default-run-repository" (ctx_revision c) [] []).

Definition validate_set_ontology (c : OpContext) (o : OntologyState) : ValidationReport :=
  validate_ontology_structure o (ctx_revision c) ++
  when (negb (bool_decide (p_kind (ctx_patch c) = KApproval)))
    (reject "agent-set-ontology" (ctx_revision c) [] []) ++
  when (admission c)
    (validate_ontology_change (gs_nodes (ctx_state c)) (gs_edges (ctx_state c))
       (gs_ontology (ctx_state c)) o (ctx_revision c)).

(** ** Proposals, by replay *)

(** The synthetic human approval that replays a Proposal. *)
Definition synthetic_patch (revision : Z) (ops : list GraphOperation) : Patch :=
  {| p_schema_generation := 2; p_revision := revision; p_kind := KApproval;
     p_author := Some RHuman; p_producer := PHuman; p_created_at := 0; p_summary := "";
     p_ops := ops; p_run_truth_scope := []; p_repositories_read := [];
     p_processed_cursors := ∅; p_change_summary := []; p_source_operation_id := None;
     p_source_effect_id := None; p_source_effect_sha256 := None; p_human_action := None;
     p_agent_action := None; p_admission := AdmissionAccepted; p_admission_messages := [];
     p_experiment_control_node_id := None; p_experiment_decision_bundle := [];
     p_project_identity := None; p_project_home_transfer := None; p_authorized_by := None;
     p_profile := None; p_task_id := None; p_episode_id := None; p_branch_merge := None;
     p_transition := None |}.

(** [revision or state.revision + 1]. *)
Definition synthetic_revision (revision : option Z) (st : GraphState) : Z :=
  match revision with
  | Some r => if (r =? 0)%Z then gs_revision st + 1 else r
  | None => gs_revision st + 1
  end.

Section proposals.
Context `{NodeAdapter, RecordAdapter, TextLib}.
(** [_validate_operations]. *)
Context (validate_operations : OpContext → res Verdict).

Definition card_fields (g : GatedCard) : list string :=
  [gc_situation_cold g; gc_why_human_now g; gc_consequences g; gc_decision_needed g].

Definition card_flags (st : GraphState) (q : Proposal) (revision : option Z) : ValidationReport :=
  when (existsb is_blank (card_fields (prop_card q)))
    (flag "incomplete-gated-card" revision [] []) ++
  when (existsb (λ t, negb (is_some (gs_glossary st !! t)))
          (find_identifiers (join " " (card_fields (prop_card q)))))
    (flag "missing-glossary-term" revision [] []).

(** The references of proposed content changes, against the outer Patch. *)
Definition proposal_source_refs (q : Proposal) (p : Patch) : res ValidationReport :=
  res_concat (λ u,
    match nu_changes u !! "source_refs" with
    | Some v => if py_truthy v then r ← oldest_source_ref (Some v) p; Ok r.1 else Ok []
    | None => Ok []
    end) (prop_ops q ≫= λ op, match op with ProposalContentChange _ us => us | _ => [] end).

(** The context in which a Proposal's operations are replayed. *)
Definition replay_context (c : OpContext) (mode : Mode) (ops : list GraphOperation) : OpContext :=
  {| ctx_state := ctx_state c; ctx_initial_state := ctx_state c;
     ctx_patch := synthetic_patch (synthetic_revision (ctx_revision c) (ctx_state c)) ops;
     ctx_revision := ctx_revision c; ctx_project_truth_scope := ctx_project_truth_scope c;
     ctx_repositories := ctx_repositories c; ctx_machines := ctx_machines c;
     ctx_default_run_truth_scope := ctx_default_run_truth_scope c;
     ctx_state_repository := ctx_state_repository c; ctx_mode := mode;
     ctx_experiment_control_node_id := None; ctx_reference_patch := Some (ctx_patch c) |}.

Definition _validate_proposal_ops (c : OpContext) (q : Proposal) (mode : Mode) :
    res ValidationReport :=
  refs ← (if decide (mode = ModeAdmission) then proposal_source_refs q (ctx_patch c) else Ok []);
  ops ← graph_operations_from_proposal (prop_ops q);
  replayed ← validate_operations (replay_context c mode ops);
  Ok (refs ++ when (rejected replayed.1) (reject "invalid-proposal-ops" (ctx_revision c) [] [])).

(** [validate_proposal], called with the outer context; the second pass in
    admission mode adds the card flags and the agent boundary. *)
Definition validate_proposal (c : OpContext) (mode : Mode) (q : Proposal) : res ValidationReport :=
  let st := ctx_state c in
  let adm := bool_decide (mode = ModeAdmission) in
  if is_some (gs_proposals st !! prop_id q)
  then Ok (reject "duplicate-proposal-id" (ctx_revision c) [] [])
  else
    ops ← _validate_proposal_ops c q mode;
    Ok (when (adm && negb (prop_base_rev q =? gs_revision st)%Z)
          (reject "proposal-base-revision" (ctx_revision c) [] []) ++
        when adm (card_flags st q (ctx_revision c)) ++
        when (adm && bool_decide (p_author (ctx_patch c) = Some RAgent))
          (_validate_agent_proposal_boundary q st (ctx_revision c) (Some (ctx_patch c))) ++
        ops).

(** Ids repeated within the operation, in order. *)
Fixpoint repeated (seen : gset string) (ids : list string) : list bool :=
  match ids with
  | [] => []
  | i :: ids => bool_decide (i ∈ seen) :: repeated ({[i]} ∪ seen) ids
  end.

Definition validate_create_proposals (c : OpContext) (ps : list Proposal) : res ValidationReport :=
  res_concat (λ '(dup, q),
    r ← validate_proposal c ModeReplay q;
    Ok (when (admission c && dup) (reject "duplicate-proposal-id" (ctx_revision c) [] []) ++ r))
    (zip (repeated ∅ (prop_id <$> ps)) ps).

Definition author_create_proposals (c : OpContext) (ps : list Proposal) : res ValidationReport :=
  res_concat (validate_proposal c ModeAdmission) ps.
End proposals.
