(* ===== verification/PatchRules.v ===== *)
(** Validation of a Patch as a whole ([core/validation/patch.py],
    [registry.py]): its envelope, its operations in written order on a staged
    state, and the Proposals it raises.

    A Proposal is validated by replaying it, and the replay contains no
    Proposal, so the recursion has depth two; [operations_at] carries it as
    fuel and [operations_at_stable] shows that two levels are enough. *)

From S2P Require Export OpRules.

(** ** Operations *)

(** The operation vocabulary marked [legacy_only]. *)
Definition legacy_only (op : GraphOperation) : bool :=
  match op with CreateAmbiguities _ | ResolveAmbiguities _ => true | _ => false end.

Definition _validate_operation_authority (c : OpContext) (op : GraphOperation) : res ValidationReport :=
  if negb (admission c) then Ok []
  else if operation_actions_raises (ctx_initial_state c) (ctx_patch c) op then Raise TypeErr
  else
    let actions := operation_actions (ctx_initial_state c) (ctx_patch c) op in
    Ok (sorted_graph_actions ≫= λ a,
          when (bool_decide (a ∈ actions) && negb (permits (ctx_patch c) a))
            (reject "graph-action-refused" (ctx_revision c) [] [])).

(** [ctx.state = ..; ctx.repositories = ..]. *)
Definition with_progress (c : OpContext) (st : GraphState) (repositories : gset string) : OpContext :=
  {| ctx_state := st; ctx_initial_state := ctx_initial_state c; ctx_patch := ctx_patch c;
     ctx_revision := ctx_revision c; ctx_project_truth_scope := ctx_project_truth_scope c;
     ctx_repositories := repositories; ctx_machines := ctx_machines c;
     ctx_default_run_truth_scope := ctx_default_run_truth_scope c;
     ctx_state_repository := ctx_state_repository c; ctx_mode := ctx_mode c;
     ctx_experiment_control_node_id := ctx_experiment_control_node_id c;
     ctx_reference_patch := ctx_reference_patch c |}.

Section operations.
Context `{NodeAdapter, RecordAdapter, TextLib}.

(** The loop variables: the context, the messages and the oldest reference. *)
Record Progress := { prg_context : OpContext; prg_report : ValidationReport; prg_oldest : option Z }.

Section rules.
Context (validate_operations : OpContext → res Verdict).

(** [OP_RULES[op.op].structural_validate]. *)
Definition structural_validate (c : OpContext) (op : GraphOperation) : res Verdict :=
  match op with
  | CreateNodes nodes => validate_create_nodes c nodes
  | UpdateNodes us => validate_update_nodes c us
  | CreateEdges es => Ok (validate_create_edges c es, None)
  | RemoveEdges ids => Ok (validate_remove_edges c ids, None)
  | RemoveNodes ids => Ok (validate_remove_nodes c ids, None)
  | SupersedeNodes items => Ok (validate_supersede_nodes c items, None)
  | MergeNodes items => Ok (validate_merge_nodes c items, None)
  | ResolveAmbiguities rs => Ok (validate_resolve_ambiguities c rs, None)
  | CreateProposals ps => only_report (validate_create_proposals validate_operations c ps)
  | ResolveProposals rs => Ok (validate_resolve_proposals c rs, None)
  | WithdrawProposals ws => Ok (validate_withdraw_proposals c ws, None)
  | SetStanding id _ => Ok (validate_set_standing c id, None)
  | SetProjectTruthScope scope r => Ok (validate_set_project_truth_scope c scope r, None)
  | SetOntology o => Ok (validate_set_ontology c o, None)
  | CreateAmbiguities _ | UpsertGlossary _ | SetCoverage _ => Ok ([], None)
  end.

(** [OP_RULES[op.op].authoring_validate]. *)
Definition authoring_validate (c : OpContext) (op : GraphOperation) : res Verdict :=
  match op with
  | CreateNodes nodes => author_create_nodes c nodes
  | UpdateNodes us => author_update_nodes c us
  | CreateEdges es => Ok (author_create_edges c es, None)
  | CreateProposals ps => only_report (author_create_proposals validate_operations c ps)
  | _ => Ok ([], None)
  end.

(** One operation: its authority and rules; it is staged unless it adds a
    rejection, and a failure to stage is one. *)
Definition validate_operation (g : Progress) (op : GraphOperation) : res Progress :=
  let c := prg_context g in
  if admission c && legacy_only op
  then Ok {| prg_context := c;
             prg_report := prg_report g ++ reject "legacy-only-operation" (ctx_revision c) [] [];
             prg_oldest := prg_oldest g |}
  else
    authority ← _validate_operation_authority c op;
    structural ← structural_validate c op;
    authored ← (if admission c then authoring_validate c op else Ok ([], None));
    let added := authority ++ structural.1 ++ authored.1 in
    let oldest := older (older (prg_oldest g) structural.2) authored.2 in
    let repositories := repositories_after c op in
    Ok (if rejected added
        then {| prg_context := with_progress c (ctx_state c) repositories;
                prg_report := prg_report g ++ added; prg_oldest := oldest |}
        else match apply_valid_operation (ctx_state c) (ctx_patch c) op with
        | Ok st =>
            {| prg_context := with_progress c st repositories;
               prg_report := prg_report g ++ added; prg_oldest := oldest |}
        | Raise _ =>
            {| prg_context := with_progress c (ctx_state c) repositories;
               prg_report := prg_report g ++ added ++
                 reject "malformed-operation" (ctx_revision c) [] [];
               prg_oldest := oldest |}
        end).

Definition validate_operations_loop (c : OpContext) : res Progress :=
  res_fold validate_operation {| prg_context := c; prg_report := []; prg_oldest := None |}
    (p_ops (ctx_patch c)).
End rules.

(** [_validate_operations] at a nesting depth. *)
Fixpoint operations_at (depth : nat) (c : OpContext) : res Verdict :=
  match depth with
  | 0 => Ok ([], None)
  | S depth => g ← validate_operations_loop (operations_at depth) c; Ok (prg_report g, prg_oldest g)
  end.

(** [_validate_operations], returning the final context as well. *)
Definition _validate_operations (c : OpContext) : res Progress :=
  validate_operations_loop (operations_at 1) c.
End operations.

(** ** Liveness of created Proposals *)

(** [_created_edges]: ids with their endpoints, later ones last. *)
Definition _created_edges (op : GraphOperation) : list (string * (string * string)) :=
  match op with
  | CreateEdges es => (λ e, (new_edge_id e, (ne_source e, ne_target e))) <$> es
  | SupersedeNodes items => items ≫= λ i,
      match sn_superseded_by i with
      | Some t => [(generated_edge_id (sn_id i) "supersedes" t, (sn_id i, t))] | None => [] end
  | MergeNodes items =>
      (λ i, (generated_edge_id (nm_duplicate i) "duplicate_of" (nm_canonical i),
             (nm_duplicate i, nm_canonical i))) <$> items
  | _ => []
  end.

(** [edges.update(created)]. *)
Definition update_presence (edges : gmap string (string * string))
    (created : list (string * (string * string))) : gmap string (string * string) :=
  foldl (λ m kv, <[kv.1 := kv.2]> m) edges created.

Definition _update_resource_presence (acc : gset string * gmap string (string * string))
    (op : GraphOperation) : gset string * gmap string (string * string) :=
  let '(nodes, edges) := acc in
  let '(nodes1, edges1) :=
    match op with
    | CreateNodes ns => (nodes ∪ list_to_set (node_id <$> ns), edges)
    | RemoveNodes ids =>
        (nodes ∖ list_to_set ids, filter (λ ke, ke.2.1 ∉ ids ∧ ke.2.2 ∉ ids) edges)
    | RemoveEdges ids => (nodes, foldl (λ m id, delete id m) edges ids)
    | _ => (nodes, edges)
    end in
  (nodes1, update_presence edges1 (_created_edges op)).

(** Ids whose content an operation writes or removes. *)
Definition mutated_nodes (op : GraphOperation) : list string :=
  match op with
  | UpdateNodes us => nu_id <$> us
  | SupersedeNodes items => sn_id <$> items
  | MergeNodes items => nm_duplicate <$> items
  | RemoveNodes ids => ids
  | SetStanding id _ => [id]
  | _ => []
  end.

Definition initial_presence (st : GraphState) : gset string * gmap string (string * string) :=
  (dom (gs_nodes st),
   update_presence ∅ ((λ e, (edge_id e, (edge_source e, edge_target e))) <$> values (gs_edges st))).

Definition is_set_ontology (op : GraphOperation) : bool :=
  match op with SetOntology _ => true | _ => false end.
Definition is_set_truth_scope (op : GraphOperation) : bool :=
  match op with SetProjectTruthScope _ _ => true | _ => false end.
Definition op_removed_edges (op : GraphOperation) : list string :=
  match op with RemoveEdges ids => ids | _ => [] end.

(** The dependencies of a Proposal that later operations of its Patch move. *)
Definition _later_dependency_mutations (c : OpContext) (position : nat)
    (related_nodes related_edges related_config : gset string) :
    gset string * gset string * gset string :=
  let ops := p_ops (ctx_patch c) in
  let '(present_nodes, present_edges) :=
    foldl _update_resource_presence (initial_presence (ctx_initial_state c)) (take position ops) in
  let later := drop (S position) ops in
  let created_nodes : gset string := list_to_set (node_id <$> created_nodes later) in
  let changed_nodes : gset string := list_to_set (later ≫= mutated_nodes) in
  let created_edges : gset string := list_to_set (later ≫= λ op, (_created_edges op).*1) in
  let removed_edges : gset string := list_to_set (later ≫= op_removed_edges) in
  (related_nodes ∩ (changed_nodes ∪ (created_nodes ∩ present_nodes)),
   related_edges ∩ (removed_edges ∪ (created_edges ∩ dom present_edges)),
   (if bool_decide ("ontology" ∈ related_config) && existsb is_set_ontology later
    then {["ontology"]} else ∅) ∪
   (if bool_decide ("project_truth_scope" ∈ related_config) && existsb is_set_truth_scope later
    then {["project_truth_scope"]} else ∅)).

(** [{proposal.id: index for index, op in enumerate(ops) ..}]. *)
Definition proposal_positions (ops : list GraphOperation) : gmap string nat :=
  foldl (λ m iq, <[iq.2 := iq.1]> m) ∅
    (imap pair ops ≫= λ io, match io.2 with
       | CreateProposals ps => (λ q, (io.1, prop_id q)) <$> ps | _ => [] end).

Definition validate_created_liveness (c : OpContext) (id : string) (position : nat) :
    ValidationReport :=
  match gs_proposals (ctx_state c) !! id with
  | None => []
  | Some q =>
      let '(nodes, edges, config) :=
        if admission c
        then _later_dependency_mutations c position (list_to_set (prop_related_node_ids q))
               (list_to_set (prop_related_edge_ids q)) (list_to_set (prop_related_config_keys q))
        else (∅, ∅, ∅) in
      if negb (bool_decide (nodes = ∅)) || negb (bool_decide (edges = ∅)) ||
         negb (bool_decide (config = ∅))
      then reject "stale-created-proposal" (ctx_revision c) (sorted_set nodes) (sorted_set edges)
      else when (proposal_is_stale (ctx_state c) q)
             (reject "stale-created-proposal" (ctx_revision c) (prop_related_node_ids q) [])
  end.

Definition _validate_created_proposal_liveness (c : OpContext) : ValidationReport :=
  let positions := proposal_positions (p_ops (ctx_patch c)) in
  sorted_set (dom positions) ≫= λ id,
    match positions !! id with Some i => validate_created_liveness c id i | None => [] end.

(** ** Ballots *)

Definition ballot_touched (op : GraphOperation) : list string :=
  match op with
  | CreateNodes ns => node_id <$> ns
  | UpdateNodes us => nu_id <$> us
  | SupersedeNodes items => sn_id <$> items
  | MergeNodes items => nm_duplicate <$> items
  | SetStanding id _ => [id]
  | _ => []
  end.

(** A queued Decision offers at least two distinct options. *)
Definition ballot_incomplete (n : ProjectNode) : bool :=
  match as_decision n with
  | Some d => mem (dec_status d) ["ready"; "revisit"] &&
              (size (list_to_set (C:=gset string) (dec_options d)) <? 2)%nat
  | None => false
  end.

Definition _validate_queued_decision_options (c : OpContext) : ValidationReport :=
  if negb (admission c) then []
  else sorted_set (list_to_set (p_ops (ctx_patch c) ≫= ballot_touched)) ≫= λ id,
    match gs_nodes (ctx_state c) !! id with
    | Some n => when (ballot_incomplete n)
                  (reject "incomplete-decision-ballot" (ctx_revision c) [node_id n] [])
    | None => []
    end.

(** ** The envelope *)

Definition author_producer (a : option Role) : option Producer :=
  match a with Some RAgent => Some PAgent | Some RHuman => Some PHuman | None => None end.

Definition _validate_authorship (c : OpContext) : ValidationReport :=
  let p := ctx_patch c in
  if decide (p_kind p = KIdentity)
  then when (negb (bool_decide (p_producer p = PSystem))) (reject "wrong-producer" (ctx_revision c) [] []) ++
       when (is_some (p_author p)) (reject "wrong-author" (ctx_revision c) [] [])
  else
    let expected := if decide (p_kind p = KApproval) then RHuman else RAgent in
    when (negb (bool_decide (p_author p = Some expected))) (reject "wrong-author" (ctx_revision c) [] []) ++
    (if decide (p_producer p = PSystem)
     then reject "system-producer-forbidden" (ctx_revision c) [] []
     else when (negb (bool_decide (Some (p_producer p) = author_producer (p_author p))))
            (reject "producer-author-mismatch" (ctx_revision c) [] [])).

Definition _validate_identity_shape (c : OpContext) : ValidationReport :=
  let p := ctx_patch c in
  let rej code := reject code (ctx_revision c) [] [] in
  let identity := is_some (p_project_identity p) in
  let transfer := is_some (p_project_home_transfer p) in
  if negb (bool_decide (p_kind p = KIdentity))
  then when identity (rej "unexpected-project-identity") ++
       when transfer (rej "unexpected-project-home-transfer")
  else
    (if negb identity && negb transfer then rej "missing-project-identity"
     else when (identity && transfer) (rej "conflicting-identity-payloads")) ++
    when (negb (is_nil (p_ops p))) (rej "identity-has-operations") ++
    when (negb (is_nil (p_run_truth_scope p)) || negb (is_nil (p_repositories_read p)))
      (rej "identity-has-run-scope") ++
    when (negb (bool_decide (p_processed_cursors p = ∅))) (rej "identity-has-cursors") ++
    when (is_some (p_source_operation_id p) || is_some (p_source_effect_id p) ||
          is_some (p_source_effect_sha256 p)) (rej "identity-has-operation-id") ++
    when (is_some (p_human_action p)) (rej "identity-has-human-action") ++
    when (is_some (p_agent_action p)) (rej "identity-has-agent-action") ++
    when (is_some (p_experiment_control_node_id p) || negb (is_nil (p_experiment_decision_bundle p)))
      (rej "identity-has-experiment-control") ++
    when (is_some (p_authorized_by p) || is_some (p_profile p) || is_some (p_task_id p))
      (rej "identity-has-attribution").

Definition _validate_attribution_shape (c : OpContext) : ValidationReport :=
  let p := ctx_patch c in
  if bool_decide (p_kind p = KIdentity) then []
  else
    when (negb (Bool.eqb (is_some (p_source_effect_id p)) (is_some (p_source_effect_sha256 p))))
      (reject "invalid-source-effect" (ctx_revision c) [] []) ++
    when (is_some (p_source_effect_id p) &&
          (negb (bool_decide (p_author p = Some RAgent)) || negb (truthy_opt (p_source_operation_id p))))
      (reject "invalid-source-effect" (ctx_revision c) [] []) ++
    if negb (is_some (p_authorized_by p) || is_some (p_profile p) || is_some (p_task_id p)) then []
    else if bool_decide (p_kind p = KApproval)
    then when (negb (is_some (p_authorized_by p)) || is_some (p_profile p) || is_some (p_task_id p))
           (reject "invalid-human-attribution" (ctx_revision c) [] [])
    else when (negb (is_some (p_authorized_by p)) || negb (is_some (p_profile p)) ||
               negb (truthy_opt (p_task_id p)))
           (reject "invalid-agent-attribution" (ctx_revision c) [] []).

Definition decides (changes : gmap string pyval) : bool :=
  get_is (changes !! "status") "decided" || get_not_none (changes !! "selected_option").

Definition _has_declared_decision_outcome (c : OpContext) : bool :=
  let is_decision id :=
    is_some (get_decision (ctx_initial_state c) id) ||
    existsb (λ n, str_eqb (node_id n) id && bool_decide (node_type n = TDecision))
      (created_nodes (p_ops (ctx_patch c))) in
  existsb (existsb (λ u, is_decision (nu_id u) && decides (nu_changes u))) (update_ops (ctx_patch c)).

Definition _validate_declared_agent_action (c : OpContext) : ValidationReport :=
  let p := ctx_patch c in
  let outcome := _has_declared_decision_outcome c in
  let orchestrator := bool_decide (p_author p = Some RAgent) && bool_decide (p_profile p = Some Orchestrator) in
  let rej code := reject code (ctx_revision c) [] [] in
  if is_some (p_human_action p) && is_some (p_agent_action p) then rej "conflicting-authority-actions"
  else
    when (is_some (p_human_action p) &&
          (negb (bool_decide (p_kind p = KApproval)) || negb (bool_decide (p_author p = Some RHuman))))
      (rej "invalid-human-action") ++
    when (orchestrator && outcome && negb (is_some (p_agent_action p))) (rej "missing-decision-action") ++
    when (is_some (p_agent_action p))
      (if negb orchestrator then rej "invalid-agent-action"
       else when (negb outcome) (rej "unused-agent-action")).

Definition _validate_declared_scope (c : OpContext) : ValidationReport :=
  let p := ctx_patch c in
  let rej code := reject code (ctx_revision c) [] [] in
  let run_scope : gset string := list_to_set (p_run_truth_scope p) in
  if bool_decide (p_kind p = KIdentity) then []
  else if bool_decide (p_kind p = KApproval)
  then when (negb (is_nil (p_run_truth_scope p)) || negb (is_nil (p_repositories_read p)))
         (rej "approval-has-run-scope")
  else
    when (bool_decide (run_scope = ∅)) (rej "empty-run-scope") ++
    when (negb (bool_decide (run_scope ⊆ ctx_project_truth_scope c))) (rej "run-scope-outside-project") ++
    when (negb (bool_decide (list_to_set (p_repositories_read p) ⊆ run_scope)))
      (rej "read-outside-run-scope").

(** ** The whole Patch *)

(** The arguments of [validate_patch] next to the state and the Patch. *)
Record Settings := {
  cfg_project_truth_scope : list string; cfg_repository_aliases : option (list string);
  cfg_machine_aliases : option (list string); cfg_default_run_truth_scope : option (list string);
  cfg_state_repository : option string; cfg_mode : Mode;
  cfg_experiment_control_node_id : option string;
  cfg_experiment_decision_bundle : option (list ExperimentDecisionPin) }.

(** [a or b] on optional strings. *)
Definition opt_or (a b : option string) : option string := if truthy_opt a then a else b.

Definition initial_context (st : GraphState) (p : Patch) (cfg : Settings) : OpContext :=
  let scope : gset string := list_to_set (cfg_project_truth_scope cfg) in
  {| ctx_state := st; ctx_initial_state := st; ctx_patch := p; ctx_revision := report_revision p;
     ctx_project_truth_scope := scope;
     ctx_repositories := match cfg_repository_aliases cfg with
                         | Some ((_ :: _) as l) => list_to_set l | _ => scope end;
     ctx_machines := list_to_set <$> cfg_machine_aliases cfg;
     ctx_default_run_truth_scope := list_to_set (default [] (cfg_default_run_truth_scope cfg));
     ctx_state_repository := cfg_state_repository cfg; ctx_mode := cfg_mode cfg;
     ctx_experiment_control_node_id :=
       opt_or (cfg_experiment_control_node_id cfg) (p_experiment_control_node_id p);
     ctx_reference_patch := None |}.

Definition is_set_coverage (op : GraphOperation) : bool :=
  match op with SetCoverage _ => true | _ => false end.

Section patch.
Context `{NodeAdapter, RecordAdapter, TextLib}.

(** Messages before the operations. *)
Definition validate_envelope (c : OpContext) (bundle : list ExperimentDecisionPin) :
    res ValidationReport :=
  let p := ctx_patch c in
  let st := ctx_initial_state c in
  loop ← (if decide (p_kind p = KExperimentLoop)
          then validate_experiment_loop_authority st p (ctx_experiment_control_node_id c)
                 bundle (ctx_mode c)
          else Ok (when (truthy_opt (ctx_experiment_control_node_id c) || negb (is_nil bundle))
                     (reject "unexpected-experiment-control" (ctx_revision c) [] [])));
  approval ← (if decide (p_kind p = KApproval)
              then validate_approval_shape st p (ctx_mode c) else Ok []);
  Ok (when (admission c && negb (p_schema_generation p =? 2)%Z)
        (reject "legacy-schema-write" (ctx_revision c) [] []) ++
      when (negb (p_revision p =? 0)%Z && negb (p_revision p =? gs_revision st + 1)%Z)
        (reject "non-monotonic-revision" (ctx_revision c) [] []) ++
      _validate_authorship c ++ _validate_identity_shape c ++ _validate_attribution_shape c ++
      _validate_declared_agent_action c ++ _validate_declared_scope c ++ loop ++ approval).

(** The boundary of covered history. *)
Definition validate_coverage (c : OpContext) (oldest : option Z) : ValidationReport :=
  when (match oldest, cov_earliest_timestamp (gs_coverage (ctx_initial_state c)) with
        | Some o, Some e => admission c && (o <? e)%Z &&
                            negb (existsb is_set_coverage (p_ops (ctx_patch c)))
        | _, _ => false
        end)
    (flag "coverage-mismatch" (ctx_revision c) [] []).

Definition _validate_patch (st : GraphState) (p : Patch) (cfg : Settings) : res ValidationReport :=
  let c := initial_context st p cfg in
  envelope ← validate_envelope c
    (default (p_experiment_decision_bundle p) (cfg_experiment_decision_bundle cfg));
  g ← _validate_operations c;
  Ok (envelope ++ prg_report g ++ _validate_queued_decision_options (prg_context g) ++
      _validate_created_proposal_liveness (prg_context g) ++ validate_coverage c (prg_oldest g)).

(** [validate_patch] for a Patch without a committed trace: an exception
    escaping the rules becomes one rejection. *)
Definition validate_source_patch (st : GraphState) (p : Patch) (cfg : Settings) : ValidationReport :=
  match _validate_patch st p cfg with
  | Ok report => report
  | Raise _ => reject "malformed-operation" (report_revision p) [] []
  end.
End patch.

(** ** Properties *)

Section properties.
Context `{NodeAdapter, RecordAdapter, TextLib}.
Implicit Types (p : Patch) (st : GraphState) (c : OpContext).

(** Rules that recurse only through Proposals: without one, the depth of the
    recursion is irrelevant. *)
Lemma validate_operation_semantic v v' g op :
  semantic_replay_op op = true → validate_operation v g op = validate_operation v' g op.
Proof. destruct op; done. Qed.

Lemma res_map_ext {A B} (f g : A → res B) l :
  (∀ x, x ∈ l → f x = g x) → res_map f l = res_map g l.
Proof.
  induction l as [|x l IH]; intros Hfg; simpl; [done|].
  rewrite Hfg, IH by set_solver. done.
Qed.

(** What replaying a Proposal does is the same at every positive depth. *)
Lemma validate_proposal_depth c mode q m n :
  validate_proposal (operations_at (S m)) c mode q = validate_proposal (operations_at (S n)) c mode q.
Proof.
  unfold validate_proposal, _validate_proposal_ops.
  destruct (is_some _); [done|]. f_equal.
  destruct (if decide _ then _ else _) as [refs|]; simpl; [|done].
  destruct (graph_operations_from_proposal (prop_ops q)) as [ops|] eqn:Hops; simpl; [|done].
  unfold validate_operations_loop. simpl.
  apply graph_operations_from_proposal_semantic in Hops. rewrite forallb_forall in Hops.
  by rewrite (res_fold_ext _ (validate_operation (operations_at n))); [|
    intros s op Hin; apply validate_operation_semantic, Hops, list_elem_of_In].
Qed.

Lemma validate_operation_depth g op m n :
  validate_operation (operations_at (S m)) g op = validate_operation (operations_at (S n)) g op.
Proof.
  destruct op; try done. unfold validate_operation.
  cbn [structural_validate authoring_validate].
  assert (∀ c mode q, validate_proposal (operations_at (S m)) c mode q =
    validate_proposal (operations_at (S n)) c mode q) as Hq by (intros; apply validate_proposal_depth).
  unfold validate_create_proposals, author_create_proposals, res_concat.
  rewrite (res_map_ext (validate_proposal (operations_at (S m)) (prg_context g) ModeAdmission)
             (validate_proposal (operations_at (S n)) (prg_context g) ModeAdmission)) by auto.
  erewrite (res_map_ext (λ '(dup, q), _)); [done|]. intros [dup q] _. by rewrite Hq.
Qed.

(** The recursion terminates.  Validation replays Proposals through
    itself; from two levels on the fuel makes no difference, so the depth
    chosen loses nothing: every Patch gets the verdict of the unbounded
    recursion. *)
Theorem operations_depth_irrelevant c n : operations_at (2 + n) c = operations_at 2 c.
Proof.
  change (2 + n) with (S (S n)). cbn [operations_at]. f_equal. apply res_fold_ext.
  intros g op _. apply (validate_operation_depth g op n 0).
Qed.
End properties.
