(* ===== verification/Soundness.v ===== *)
(** What an accepted Patch guarantees: it applies, it leaves the beliefs an
    agent may not touch exactly as they were, and it decides nothing its
    producer may not decide. *)

From S2P Require Export PatchRules.

Section loop.
Context `{NodeAdapterLaws} `{!RecordAdapter, !TextLib}.
Implicit Types (p : Patch) (st : GraphState) (c : OpContext) (g : Progress).

(** The parts of a context that no operation changes. *)
Definition same_env (c c' : OpContext) : Prop :=
  ctx_patch c' = ctx_patch c ∧ ctx_initial_state c' = ctx_initial_state c ∧
  ctx_mode c' = ctx_mode c ∧ ctx_revision c' = ctx_revision c ∧
  ctx_experiment_control_node_id c' = ctx_experiment_control_node_id c ∧
  ctx_reference_patch c' = ctx_reference_patch c.

#[local] Instance same_env_preorder : PreOrder same_env.
Proof.
  split; [by intros c|]. intros ??? (?&?&?&?&?&?) (?&?&?&?&?&?). unfold same_env. split_and!; congruence.
Qed.

(** An operation that passed: its authority and rules reported nothing, and
    the staged state advanced. *)
Record passed (v : OpContext → res Verdict) (c : OpContext) (op : GraphOperation) (st' : GraphState) :
    Prop := {
  psd_authority : ∃ r, _validate_operation_authority c op = Ok r ∧ rejected r = false;
  psd_structural : ∃ r, structural_validate v c op = Ok r ∧ rejected r.1 = false;
  psd_authored : admission c = true → ∃ r, authoring_validate v c op = Ok r ∧ rejected r.1 = false;
  psd_current : admission c && legacy_only op = false;
  psd_staged : apply_valid_operation (ctx_state c) (ctx_patch c) op = Ok st' }.

Lemma validate_operation_passed v g op g' :
  validate_operation v g op = Ok g' → rejected (prg_report g') = false →
  rejected (prg_report g) = false ∧ same_env (prg_context g) (prg_context g') ∧
  passed v (prg_context g) op (ctx_state (prg_context g')).
Proof.
  unfold validate_operation. intros Hv Hr.
  destruct (admission (prg_context g) && legacy_only op) eqn:Hl.
  { apply Ok_inj in Hv. subst g'. simpl in Hr. by rewrite rejected_app, orb_true_r in Hr. }
  apply res_bind_ok in Hv as (au & Hau & Hv). apply res_bind_ok in Hv as (s & Hs & Hv).
  apply res_bind_ok in Hv as (a & Ha & Hv). apply Ok_inj in Hv. subst g'.
  destruct (rejected (au ++ s.1 ++ a.1)) eqn:Hadd; simpl in Hr.
  { by rewrite rejected_app, Hadd, orb_true_r in Hr. }
  rewrite !rejected_app, !orb_false_iff in Hadd. destruct Hadd as (H1' & H2' & H3').
  destruct (apply_valid_operation _ _ op) as [st'|e] eqn:Hst; simpl in *.
  - rewrite rejected_app in Hr. apply orb_false_iff in Hr as [Hr _]. split; [done|]. split; [done|].
    split; [eauto|eauto| |done|done]. intros Had. rewrite Had in Ha. eauto.
  - by rewrite !rejected_app, !orb_true_r in Hr.
Qed.

(** Every operation of an accepted loop passed in some context of the loop,
    and the final state is the staged one. *)
Lemma validate_loop_passed v ops g g' :
  res_fold (validate_operation v) g ops = Ok g' → rejected (prg_report g') = false →
  rejected (prg_report g) = false ∧ same_env (prg_context g) (prg_context g') ∧
  stage_ops (ctx_patch (prg_context g)) (ctx_state (prg_context g)) ops =
    Ok (ctx_state (prg_context g')) ∧
  (∀ op, op ∈ ops → ∃ c st', same_env (prg_context g) c ∧ passed v c op st').
Proof.
  revert g. unfold stage_ops. induction ops as [|op ops IH]; intros g Hf Hr; simpl in *.
  { simplify_eq. split; [done|]. split; [done|]. split; [done|]. by intros ? ?%elem_of_nil. }
  apply res_bind_ok in Hf as (g1 & H1' & Hf).
  destruct (IH g1 Hf Hr) as (Hr1 & He1 & Hs1 & Hp1).
  destruct (validate_operation_passed v g op g1 H1' Hr1) as (Hr0 & He0 & Hp0).
  split; [done|]. split; [by etrans|]. split.
  - rewrite (psd_staged _ _ _ _ Hp0). simpl.
    destruct He0 as (Hpt & _). rewrite <-Hs1. by rewrite Hpt.
  - intros op' [->|Hin]%elem_of_cons; [by exists (prg_context g), (ctx_state (prg_context g1))|].
    destruct (Hp1 op' Hin) as (c & st' & Hc & Hp). exists c, st'. split; [by etrans|done].
Qed.

(** Acceptance of the whole Patch gives acceptance of the loop. *)
Lemma validate_source_patch_loop st p cfg :
  rejected (validate_source_patch st p cfg) = false →
  ∃ g envelope, _validate_operations (initial_context st p cfg) = Ok g ∧
    rejected (prg_report g) = false ∧
    validate_envelope (initial_context st p cfg)
      (default (p_experiment_decision_bundle p) (cfg_experiment_decision_bundle cfg)) = Ok envelope ∧
    rejected envelope = false ∧
    rejected (_validate_queued_decision_options (prg_context g)) = false ∧
    rejected (_validate_created_proposal_liveness (prg_context g)) = false.
Proof.
  unfold validate_source_patch, _validate_patch.
  destruct (validate_envelope _ _) as [env|] eqn:He; simpl; [|done].
  destruct (_validate_operations _) as [g|] eqn:Hg; simpl; [|done].
  rewrite !rejected_app, !orb_false_iff. intros (H1' & H2' & H3' & H4' & _).
  exists g, env. by split_and!.
Qed.

Lemma accepted_applies st p cfg :
  graph_wf st → p_transition p = None →
  rejected (validate_source_patch st p cfg) = false →
  ∃ st', apply_valid_patch st p = Ok st' ∧ graph_wf st'.
Proof.
  intros Hwf Htr (g & _ & Hg & Hr & _)%validate_source_patch_loop.
  destruct (validate_loop_passed _ _ _ _ Hg Hr) as (_ & _ & Hs & _). simpl in Hs.
  pose proof (batch_is_staged_lemma p st Hwf Htr) as Hb. rewrite Hs in Hb. simpl in Hb.
  eexists. split; [exact Hb|].
  destruct (stage_ops_keeps _ _ _ _ Hwf Hs) as (Hw & _).
  destruct (relayer_created_wf (applied_edges p) _ Hw). by constructor.
Qed.

(** C2: accepted Patches apply. If validation accepts a Patch that carries no
    transition trace, as a Patch is before the kernel prepares its transition, on a
    well-formed graph, then applying it cannot raise, in whatever order its
    operations are listed, and the result is a well-formed graph. *)
Theorem accepted_patch_applies st p cfg :
  graph_wf st → p_transition p = None →
  rejected (validate_source_patch st p cfg) = false →
  ∃ st', apply_valid_patch st p = Ok st' ∧ graph_wf st'.
Proof. apply accepted_applies. Qed.

Lemma accepted_op_passed st p cfg op :
  rejected (validate_source_patch st p cfg) = false → op ∈ p_ops p →
  ∃ c st', same_env (initial_context st p cfg) c ∧ passed (operations_at 1) c op st'.
Proof.
  intros (g & _ & Hg & Hr & _)%validate_source_patch_loop Hop.
  destruct (validate_loop_passed _ _ _ _ Hg Hr) as (_ & _ & _ & Hp). by apply Hp.
Qed.

(** At admission every action an accepted operation needs is permitted. *)
Lemma accepted_actions_permitted st p cfg op a :
  cfg_mode cfg = ModeAdmission → rejected (validate_source_patch st p cfg) = false →
  op ∈ p_ops p → a ∈ operation_actions st p op → permits p a = true.
Proof.
  intros Hm Hacc Hop Ha.
  destruct (accepted_op_passed st p cfg op Hacc Hop) as (c & st' & (Hp & Hi & Hmode & _) & Hps).
  destruct (psd_authority _ _ _ _ Hps) as (r & Hr & Hrej). unfold _validate_operation_authority in Hr.
  rewrite Hp, Hi in Hr. cbn [ctx_patch ctx_initial_state initial_context] in Hr.
  assert (admission c = true) as Had by (unfold admission; rewrite Hmode; simpl; by rewrite Hm).
  rewrite Had in Hr. cbn [negb] in Hr. destruct (operation_actions_raises st p op); [done|].
  apply Ok_inj in Hr. subst r. rewrite rejected_bind_false in Hrej.
  specialize (Hrej a (sorted_graph_actions_all a)). autorewrite with rcp in Hrej.
  rewrite (bool_decide_eq_true_2 _ Ha) in Hrej. simpl in Hrej. by apply negb_false_iff in Hrej.
Qed.

Lemma each_ok {A} (f : A → res Verdict) l r x :
  each f l = Ok r → rejected r.1 = false → x ∈ l → ∃ v, f x = Ok v ∧ rejected v.1 = false.
Proof.
  revert r. induction l as [|y l IH]; intros r He Hr Hx; [by apply elem_of_nil in Hx|].
  simpl in He. apply res_bind_ok in He as (a & Ha & He). apply res_bind_ok in He as (b & Hb & He).
  apply Ok_inj in He. subst r. simpl in Hr. rewrite rejected_app, orb_false_iff in Hr.
  destruct Hr as [H1' H2']. apply elem_of_cons in Hx as [->|Hx]; [eauto|by eapply IH].
Qed.

(** At admission no node of the graph is recreated. *)
Lemma accepted_created_fresh st p cfg id :
  cfg_mode cfg = ModeAdmission → rejected (validate_source_patch st p cfg) = false →
  id ∈ created_node_ids p → gs_nodes st !! id = None.
Proof.
  intros Hm Hacc Hid. apply list_elem_of_fmap in Hid as (n & -> & Hn).
  apply list_elem_of_bind in Hn as (op & Hn & Hop).
  destruct op as [nodes| | | | | | | | | | | | | | | |]; try by apply elem_of_nil in Hn.
  destruct (accepted_op_passed st p cfg _ Hacc Hop) as (c & st' & (Hp & Hi & Hmode & _) & Hps).
  destruct (psd_structural _ _ _ _ Hps) as (r & Hr & Hrej). simpl in Hr.
  destruct (each_ok _ _ _ n Hr Hrej Hn) as (v & Hv & Hvr). simpl in Hv.
  apply res_bind_ok in Hv as (x & _ & Hv). apply res_bind_ok in Hv as (y & _ & Hv).
  apply Ok_inj in Hv. subst v. simpl in Hvr. rewrite rejected_app, orb_false_iff in Hvr.
  destruct Hvr as [Hvr _]. autorewrite with rcp in Hvr. rewrite Hi in Hvr. simpl in Hvr.
  unfold admission in Hvr. rewrite Hmode in Hvr. simpl in Hvr.
  rewrite bool_decide_eq_true_2 in Hvr by done. simpl in Hvr. by destruct (gs_nodes st !! node_id n).
Qed.

Lemma changes_belief_false st op id n :
  changes_belief st op = false → gs_nodes st !! id = Some n → is_belief n = true →
  id ∉ op_changed op ∧ id ∉ op_removed op.
Proof.
  unfold changes_belief. rewrite existsb_false. intros Hc Hn Hb.
  assert (∀ l : list string, (∀ x : string, x ∈ l → is_existing_protected_node st x = false) → id ∉ l) as Hl.
  { intros l Hx Hin. specialize (Hx id Hin). unfold is_existing_protected_node in Hx.
    by rewrite Hn, Hb in Hx. }
  destruct op; simpl in *; split; try (by apply Hl); by apply not_elem_of_nil.
Qed.

Lemma not_elem_of_op_bind {A} (f : GraphOperation → list A) p x :
  (∀ op, op ∈ p_ops p → x ∉ f op) → x ∉ p_ops p ≫= f.
Proof. intros Hx (op & Hin & Hop)%list_elem_of_bind. by eapply Hx. Qed.

(** C1: agents never touch a belief.  However an agent profile composes a Patch,
    if validation admits it then every ResearchQuestion and Hypothesis of the
    graph is, after the Patch, exactly the node it was before. *)
Theorem agent_patch_keeps_beliefs st p cfg st' id n :
  graph_wf st → p_transition p = None → p_author p = Some RAgent →
  cfg_mode cfg = ModeAdmission → rejected (validate_source_patch st p cfg) = false →
  apply_valid_patch st p = Ok st' →
  gs_nodes st !! id = Some n → is_belief n = true →
  gs_nodes st' !! id = Some n.
Proof.
  intros Hwf Htr Hag Hm Hacc Happ Hn Hb.
  assert (∀ op, op ∈ p_ops p → changes_belief st op = false) as Hcb.
  { intros op Hop. destruct (changes_belief st op) eqn:Hc; [|done].
    destruct (agent_refused_change st p op Hag Hc) as (a & Ha & Hperm).
    by rewrite (accepted_actions_permitted st p cfg op a) in Hperm. }
  unfold apply_valid_patch in Happ.
  destruct (_apply_patch st p [] []) as [[s ds]|] eqn:Ha; [|done]. injection Happ as <-.
  destruct (apply_patch_frame_lemma p st [] [] s ds Hwf Ha) as (Hf & _).
  rewrite Hf; [done| | |].
  - intros Hc. pose proof (accepted_created_fresh st p cfg id Hm Hacc Hc). congruence.
  - apply not_elem_of_op_bind. intros op Hop.
    by destruct (changes_belief_false st op id n (Hcb op Hop) Hn Hb).
  - apply not_elem_of_op_bind. intros op Hop.
    by destruct (changes_belief_false st op id n (Hcb op Hop) Hn Hb).
Qed.
End loop.

(** ** No dangling edges *)

(** Every edge ends at nodes of the graph, or at nodes in [extra]. *)
Definition closed_upto (extra : list string) (st : GraphState) : Prop :=
  ∀ k e, gs_edges st !! k = Some e →
    (is_Some (gs_nodes st !! edge_source e) ∨ edge_source e ∈ extra) ∧
    (is_Some (gs_nodes st !! edge_target e) ∨ edge_target e ∈ extra).

Definition closed : GraphState → Prop := closed_upto [].

Section closed.
Context `{NodeAdapterLaws} `{!RecordAdapter, !TextLib}.
Implicit Types (p : Patch) (st : GraphState) (c : OpContext) (op : GraphOperation).

(** A step keeps the nodes its operation does not remove. *)
Lemma graph_step_keeps p op st st' x :
  graph_step p op st st' → x ∉ op_removed op →
  is_Some (gs_nodes st !! x) → is_Some (gs_nodes st' !! x).
Proof.
  intros Hs Hr Hx. destruct Hs; simpl; rewrite ?record_belief_nodes; try done.
  - apply lookup_insert_is_Some'. auto.
  - apply lookup_insert_is_Some'. auto.
  - destruct Hx as [n Hn]. exists n. apply map_lookup_filter_Some. by split.
Qed.

Lemma graph_step_closed p op extra st st' :
  graph_step p op st st' →
  (∀ s t, (s, t) ∈ op_endpoints op → (is_Some (gs_nodes st !! s) ∨ s ∈ extra) ∧
                                     (is_Some (gs_nodes st !! t) ∨ t ∈ extra)) →
  (∀ x, x ∈ extra → x ∉ op_removed op) →
  closed_upto extra st → closed_upto extra st'.
Proof.
  intros Hs Hends Hex Hcl. pose proof (λ x, graph_step_keeps _ _ _ _ x Hs) as Hk.
  destruct Hs as [st raw n| st i n n2 cause|st e Hid He|st i|st|st q|st a|st]; try done.
  - intros k e Hke. destruct (Hcl k e Hke) as [H1' H2']. simpl.
    split; [destruct H1' as [H1'|]|destruct H2' as [H2'|]]; auto; left;
      apply lookup_insert_is_Some'; auto.
  - intros k e Hke. simpl in Hke. rewrite (proj1 (record_belief_frame _ _ _ _ _)) in Hke.
    destruct (Hcl k e Hke) as [H1' H2']. simpl. rewrite record_belief_nodes.
    split; [destruct H1' as [H1'|]|destruct H2' as [H2'|]]; auto; left;
      apply lookup_insert_is_Some'; auto.
  - intros k e' Hke. simpl in *. destruct (decide (edge_id e = k)) as [<-|Hne].
    + rewrite lookup_insert_eq in Hke. simplify_eq. by apply Hends.
    + rewrite lookup_insert_ne in Hke by done. by apply (Hcl k).
  - intros k e Hke. simpl in Hke. apply lookup_delete_Some in Hke as [_ Hke]. by apply (Hcl k).
  - intros k e Hke. simpl in Hke. apply map_lookup_filter_Some in Hke as [Hke [Hse Hte]].
    simpl in *. destruct (Hcl k e Hke) as [H1' H2'].
    split; [destruct H1' as [[n Hn]|]|destruct H2' as [[n Hn]|]]; auto; left; exists n;
      apply map_lookup_filter_Some; done.
Qed.

Lemma graph_steps_closed p op extra st st' :
  op_removed op = [] ∨ op_endpoints op = [] → graph_steps p op st st' →
  (∀ s t, (s, t) ∈ op_endpoints op → (is_Some (gs_nodes st !! s) ∨ s ∈ extra) ∧
                                     (is_Some (gs_nodes st !! t) ∨ t ∈ extra)) →
  (∀ x, x ∈ extra → x ∉ op_removed op) →
  closed_upto extra st → closed_upto extra st'.
Proof.
  intros Hor Hs. induction Hs as [|x y z Hxy _ IH]; [done|]. intros Hends Hex Hcl.
  apply IH; [|done|by eapply graph_step_closed]. intros s t Hst.
  destruct (Hends s t Hst) as [H1' H2']. destruct Hor as [Hr|He].
  - assert (∀ w, is_Some (gs_nodes x !! w) → is_Some (gs_nodes y !! w)) as Hk.
    { intros w. eapply graph_step_keeps; [exact Hxy|]. rewrite Hr. apply not_elem_of_nil. }
    split; [destruct H1'|destruct H2']; auto.
  - rewrite He in Hst. by apply elem_of_nil in Hst.
Qed.

Lemma op_removed_or_endpoints op : op_removed op = [] ∨ op_endpoints op = [].
Proof. destruct op; simpl; auto. Qed.

(** The endpoints an accepted operation names exist or are created. *)
Lemma node_type_known c id :
  ctx_reference_patch c = None → is_some (_node_type c id) = true →
  is_Some (gs_nodes (ctx_state c) !! id) ∨ id ∈ created_node_ids (ctx_patch c).
Proof.
  unfold _node_type, context_patches. intros ->. simpl.
  destruct (gs_nodes (ctx_state c) !! id); [by left; eauto|].
  unfold _created_node_type. destruct (find _ _) as [n|] eqn:Hf; simpl; [|done]. intros _. right.
  apply find_some in Hf as [Hin Heq]. apply bool_decide_eq_true in Heq. subst.
  apply list_elem_of_fmap_2. by apply list_elem_of_In.
Qed.

Lemma created_id_known c id :
  negb (is_some (gs_nodes (ctx_state c) !! id)) && negb (_created_node_id c id) = false →
  is_Some (gs_nodes (ctx_state c) !! id) ∨ id ∈ created_node_ids (ctx_patch c).
Proof.
  unfold _created_node_id. destruct (gs_nodes (ctx_state c) !! id); simpl; [by left; eauto|].
  intros Hn%negb_false_iff. right. by apply mem_true.
Qed.

Lemma validate_new_edge_report c r seen e r' seen' :
  validate_new_edge c (r, seen) e = (r', seen') → rejected r' = false →
  rejected r = false ∧ rejected (validate_edge_relation c e).1 = false.
Proof.
  unfold validate_new_edge. destruct (validate_edge_relation c e) as [rel []]; simpl.
  - case_match; intros [= <- <-]; rewrite !rejected_app, !orb_false_iff; tauto.
  - intros [= <- <-]. rewrite rejected_app, orb_false_iff. tauto.
Qed.

Lemma validate_edges_report c es r seen r' seen' :
  foldl (validate_new_edge c) (r, seen) es = (r', seen') → rejected r' = false →
  rejected r = false ∧ ∀ e, e ∈ es → rejected (validate_edge_relation c e).1 = false.
Proof.
  revert r seen. induction es as [|e es IH]; intros r seen Hf Hr; cbn [foldl] in Hf.
  { simplify_eq. split; [done|]. by intros ? ?%elem_of_nil. }
  destruct (validate_new_edge c (r, seen) e) as [r1 s1] eqn:Hx.
  destruct (IH r1 s1 Hf Hr) as [H1' H2'].
  destruct (validate_new_edge_report c r seen e r1 s1 Hx H1') as [H3' H4'].
  split; [done|]. intros e' [->|He]%elem_of_cons; auto.
Qed.

Lemma passed_endpoints c op st' s t :
  ctx_reference_patch c = None → passed (operations_at 1) c op st' → (s, t) ∈ op_endpoints op →
  (is_Some (gs_nodes (ctx_state c) !! s) ∨ s ∈ created_node_ids (ctx_patch c)) ∧
  (is_Some (gs_nodes (ctx_state c) !! t) ∨ t ∈ created_node_ids (ctx_patch c)).
Proof.
  intros Href Hps Hst. destruct (psd_structural _ _ _ _ Hps) as (r & Hr & Hrej).
  destruct op; simpl in Hst; try by apply elem_of_nil in Hst.
  all: simpl in Hr; apply Ok_inj in Hr; subst r; simpl in Hrej.
  - apply list_elem_of_fmap in Hst as (e & [= -> ->] & He). unfold validate_create_edges in Hrej.
    destruct (foldl _ _ edges) as [r seen] eqn:Hf.
    destruct (validate_edges_report c edges _ _ _ _ Hf Hrej) as [_ Hall].
    pose proof (Hall e He) as Hrel.
    unfold validate_edge_relation in Hrel.
    assert (negb (is_some (gs_nodes (ctx_state c) !! ne_source e)) &&
            negb (_created_node_id c (ne_source e)) = false ∧
            negb (is_some (gs_nodes (ctx_state c) !! ne_target e)) &&
            negb (_created_node_id c (ne_target e)) = false) as [H1' H2'].
    { destruct (RELATION_SPEC (ne_relation e)),
        (custom_relation (gs_ontology (ctx_state c)) (ne_relation e)); simpl in Hrel;
        rewrite ?rejected_app, ?rejected_when, ?rejected_reject, ?andb_true_r, !orb_false_iff in Hrel; tauto. }
    split; by apply created_id_known.
  - apply list_elem_of_bind in Hst as (i & Hst & Hi). unfold validate_supersede_nodes in Hrej.
    rewrite rejected_bind_false in Hrej. specialize (Hrej i Hi).
    destruct (sn_superseded_by i) as [t'|]; [|by apply elem_of_nil in Hst].
    destruct (truthy t') eqn:Ht; [|by apply elem_of_nil in Hst].
    apply list_elem_of_singleton in Hst as [= -> ->].
    rewrite !rejected_app, !rejected_when, !rejected_reject, !andb_true_r, !orb_false_iff in Hrej.
    destruct Hrej as (H1' & H2' & _). split.
    + left. destruct (gs_nodes (ctx_state c) !! sn_id i); [eauto|done].
    + destruct (gs_nodes (ctx_state c) !! t') eqn:Hg; [left; eauto|]. simpl in H2'.
      apply andb_false_iff in H2' as [H2'|H2'].
      * right. by apply mem_true; apply negb_false_iff in H2'.
      * apply negb_false_iff in H2'. rewrite <-Hg. by apply node_type_known.
  - apply list_elem_of_fmap in Hst as (i & [= -> ->] & Hi). unfold validate_merge_nodes in Hrej.
    rewrite rejected_bind_false in Hrej. specialize (Hrej i Hi).
    rewrite !rejected_app, !rejected_when, !rejected_reject, !andb_true_r, !orb_false_iff in Hrej.
    destruct Hrej as (H1' & H2' & _). split.
    + left. destruct (gs_nodes (ctx_state c) !! nm_duplicate i); [eauto|done].
    + destruct (gs_nodes (ctx_state c) !! nm_canonical i) eqn:Hg; [left; eauto|]. simpl in H2'.
      apply negb_false_iff in H2'. rewrite <-Hg. by apply node_type_known.
Qed.

Lemma create_nodes_known rev st ns st' x :
  res_fold (apply_create_node rev) st ns = Ok st' →
  is_Some (gs_nodes st !! x) ∨ x ∈ node_id <$> ns → is_Some (gs_nodes st' !! x).
Proof.
  revert st. induction ns as [|n ns IH]; intros st Hf Hx; simpl in Hf.
  { simplify_eq. destruct Hx as [|Hx%elem_of_nil]; done. }
  apply res_bind_ok in Hf as (st1 & H1' & Hf). apply (IH st1 Hf). clear IH Hf.
  unfold apply_create_node in H1'. apply res_bind_ok in H1' as (m & Hm & [= <-]).
  apply created_node_ok in Hm as (Hid & _). simpl. rewrite fmap_cons, elem_of_cons in Hx.
  destruct Hx as [Hx|[->|Hx]]; [left|left|by right].
  - apply lookup_insert_is_Some'. auto.
  - rewrite <-Hid, lookup_insert_eq. eauto.
Qed.

(** What one staged operation does to the nodes and to edge endpoints. *)
Lemma valid_operation_steps p op st st' :
  graph_wf st → apply_valid_operation st p op = Ok st' →
  ∃ mid, graph_steps (with_ops p [op]) op st mid ∧
         (∀ extra, closed_upto extra mid → closed_upto extra st') ∧
         gs_nodes st' = gs_nodes mid ∧
         (∀ x, x ∈ node_id <$> op_created op → is_Some (gs_nodes mid !! x)).
Proof.
  unfold apply_valid_operation, _apply_patch. intros Hwf Ha.
  apply res_bind_ok in Ha as (r & Ha & [= <-]). apply res_bind_ok in Ha as (b & Hb & [= <-]).
  simpl in Hb. apply res_bind_ok in Hb as (b' & Hb & [= ->]).
  set (a := {| stg_state := st; stg_created := []; stg_descriptors := [] |}) in Hb.
  destruct (apply_op_steps (with_ops p [op]) _ a 0 op b Hwf Hb) as [Hs _].
  destruct (relayer_created_spec (stg_created b) (stg_state b)) as [Hn He].
  exists (stg_state b). split; [exact Hs|]. split; [|split; [done|]].
  - intros extra Hcl k e Hke. simpl in *. rewrite Hn. rewrite He in Hke.
    case_decide; [|by apply (Hcl k)]. apply fmap_Some in Hke as (e0 & Hke & ->).
    exact (Hcl k e0 Hke).
  - intros x Hx. destruct op; simpl in Hx; try by apply elem_of_nil in Hx.
    simpl in Hb. destruct (res_fold _ st nodes) as [s2|] eqn:Hf; [|done].
    injection Hb as <-. simpl.
    eapply create_nodes_known; [exact Hf|by right].
Qed.

Lemma graph_steps_keep p op st st' x :
  graph_steps p op st st' → x ∉ op_removed op →
  is_Some (gs_nodes st !! x) → is_Some (gs_nodes st' !! x).
Proof. induction 1; eauto using graph_step_keeps. Qed.

(** Along an accepted loop edges end at nodes that exist or that the Patch
    creates, and the nodes created so far exist. *)
Lemma loop_closed g g' ops :
  res_fold (validate_operation (operations_at 1)) g ops = Ok g' → rejected (prg_report g') = false →
  ctx_reference_patch (prg_context g) = None → graph_wf (ctx_state (prg_context g)) →
  let created := created_node_ids (ctx_patch (prg_context g)) in
  (∀ op x, op ∈ ops → x ∈ created → x ∉ op_removed op) →
  closed_upto created (ctx_state (prg_context g)) →
  closed_upto created (ctx_state (prg_context g')) ∧
  (∀ x, x ∈ created → is_Some (gs_nodes (ctx_state (prg_context g)) !! x) ∨
        x ∈ node_id <$> (ops ≫= op_created) → is_Some (gs_nodes (ctx_state (prg_context g')) !! x)).
Proof.
  revert g. induction ops as [|op ops IH]; intros g Hf Hr Href Hwf created Hrm Hcl; cbn [res_fold] in Hf.
  { simplify_eq. split; [done|]. by intros x _ [|Hx%elem_of_nil]. }
  apply res_bind_ok in Hf as (g1 & H1' & Hf).
  destruct (validate_loop_passed _ _ _ _ Hf Hr) as (Hr1 & _).
  destruct (validate_operation_passed _ _ _ _ H1' Hr1) as (_ & He & Hps).
  destruct He as (Hp & _ & _ & _ & _ & Href1).
  destruct (valid_operation_steps _ _ _ _ Hwf (psd_staged _ _ _ _ Hps)) as (mid & Hs & Hc1 & Hn & Hk).
  assert (∀ op' x, op' ∈ ops → x ∈ created → x ∉ op_removed op') as Hrm'
    by (intros ?? ?; apply Hrm; by right).
  assert (∀ x, x ∈ created → x ∉ op_removed op) as Hrm0 by (intros ??; apply Hrm; [by left|done]).
  specialize (IH g1 Hf Hr). rewrite Hp, Href1 in IH. fold created in IH.
  destruct IH as [Hcl' Hk']; [done|by eapply apply_valid_operation_wf, (psd_staged _ _ _ _ Hps)|done| |].
  { apply Hc1. eapply graph_steps_closed; [apply op_removed_or_endpoints|exact Hs| |exact Hrm0|exact Hcl].
    intros s t. by apply passed_endpoints with (1 := Href) (2 := Hps). }
  split; [done|]. intros x Hx Hor. apply Hk'; [done|].
  rewrite bind_cons, fmap_app, elem_of_app in Hor. destruct Hor as [Hor|[Hor|Hor]]; [left|left|by right].
  - rewrite Hn. eapply graph_steps_keep; [exact Hs|by apply Hrm0|done].
  - rewrite Hn. by apply Hk.
Qed.

(** C32: no dangling edges.  An accepted Patch that does not remove a node it
    creates takes a graph all of whose edges end at its nodes to such a graph,
    whatever edges it creates before their endpoints and whatever nodes it
    removes under them. *)
Theorem accepted_patch_closed st p cfg st' :
  graph_wf st → closed st → p_transition p = None →
  rejected (validate_source_patch st p cfg) = false →
  (∀ x, x ∈ created_node_ids p → x ∉ removed_ids p) →
  apply_valid_patch st p = Ok st' → closed st'.
Proof.
  intros Hwf Hcl Htr (g & _ & Hg & Hr & _)%validate_source_patch_loop Hdis Happ.
  destruct (validate_loop_passed _ _ _ _ Hg Hr) as (_ & _ & Hs & _). simpl in Hs.
  rewrite (batch_is_staged_lemma p st Hwf Htr), Hs in Happ. simpl in Happ. injection Happ as <-.
  destruct (loop_closed _ _ _ Hg Hr eq_refl) as [Hc Hk]; [done| | |].
  - intros op x Hop Hx Hin. apply (Hdis x Hx). by eapply elem_of_op_bind.
  - intros k e Hke. destruct (Hcl k e Hke) as [[|[]%elem_of_nil] [|[]%elem_of_nil]]; auto.
  - destruct (relayer_created_spec (applied_edges p) (ctx_state (prg_context g))) as [Hn He].
    intros k e Hke. simpl in *. rewrite Hn. rewrite He in Hke.
    assert (∃ e0, gs_edges (ctx_state (prg_context g)) !! k = Some e0 ∧
      edge_source e = edge_source e0 ∧ edge_target e = edge_target e0) as (e0 & He0 & -> & ->).
    { case_decide; [|by exists e]. apply fmap_Some in Hke as (e0 & Hke & ->). by exists e0. }
    assert (∀ x, x ∈ created_node_ids p → is_Some (gs_nodes (ctx_state (prg_context g)) !! x)) as Hx.
    { intros x Hx. apply Hk; [done|]. right. exact Hx. }
    destruct (Hc k e0 He0) as [[|] [|]]; auto.
Qed.
End closed.
