(* ===== verification/Transitions.v ===== *)
(** Graph transitions ([core/transitions.py]): an initiating group of Patches is
    closed under the lifecycle rules, recorded as one committed Patch with a
    trace, and the trace is checked again on replay.

    [_sha256] hashes canonical JSON; [json] and [hashlib] stand behind the class
    [CanonicalHash], over the documents the kernel hashes.  No property of the
    digest is assumed. *)

From stdpp Require Import pretty.
From S2P Require Export PatchRules.

(** ** Hashed documents *)

(** The Python objects passed to [_sha256].  A dump with [exclude_unset] is
    represented by the model it dumps, an envelope by the Patch with the dropped
    fields blanked; an event names its cause by index or by event id. *)
Inductive CanonicalDoc :=
  | DocOperations (ops : list GraphOperation)
  | DocTransition (pre_head : GraphHeadRef) (ruleset_tag : string)
      (groups : list TransitionInitiatingGroup) (producer_envelopes : list Patch)
      (operations : list GraphOperation) (generated_actions : list TransitionGeneratedAction)
  | DocEvent (transition_id : string) (ordinal : nat) (event_type : EventType)
      (cause : nat + string) (node_id field : string) (before after : EventValue)
  | DocBranchMerge (branch_id episode_id project_id : string) (base_head head : GraphHeadRef).

Class CanonicalHash := _sha256 : CanonicalDoc → string.

Definition GUIDANCE_RULE_ID : string := "experiment.guidance-validity.v1".
Definition TRANSITION_RULESET_TAG : string := "rcp.lifecycle.v2".
Definition DEFAULT_MAX_RULE_FIRINGS : nat := 128.

(** ** The browser's routing manifest *)

Record TransitionTrigger := {
  trg_operation : string; trg_node_types : list string; trg_node_fields : list string;
  trg_relations : list string }.

Record TransitionTriggerManifest := {
  ttm_ruleset_tag : string; ttm_triggers : list TransitionTrigger }.

Definition trigger_relations : list string :=
  ["blocked_by"; "governed_by"; "tests"; "supports"; "weakens"; "refutes"; "inconclusive";
   "contradicts"].

Definition transition_trigger_manifest : TransitionTriggerManifest :=
  let on_relations op := {| trg_operation := op; trg_node_types := []; trg_node_fields := [];
                            trg_relations := trigger_relations |} in
  let on_decisions op := {| trg_operation := op; trg_node_types := ["decision"];
                            trg_node_fields := []; trg_relations := [] |} in
  {| ttm_ruleset_tag := TRANSITION_RULESET_TAG;
     ttm_triggers :=
       [{| trg_operation := "update_nodes";
           trg_node_types := ["blocker"; "decision"; "experiment"; "hypothesis"];
           trg_node_fields := ["status"; "selected_option"; "current_summary"; "next_action"];
           trg_relations := [] |};
        on_relations "create_edges"; on_relations "remove_edges"; on_decisions "create_proposals";
        on_decisions "resolve_proposals"; on_decisions "withdraw_proposals"] |}.

(** [patch.model_copy(update=..)] for the fields a transition rewrites. *)
Definition patch_copy (p : Patch) (revision created_at : Z) (summary : string)
    (ops : list GraphOperation) (scope read : list string) (cursors : gmap string string)
    (changes : list string) (human agent : option AuthorityAction) (admission : Admission)
    (messages : list ValidationMessage) (transition : option TransitionTrace) : Patch :=
  {| p_schema_generation := p_schema_generation p; p_revision := revision; p_kind := p_kind p;
     p_author := p_author p; p_producer := p_producer p; p_created_at := created_at;
     p_summary := summary; p_ops := ops; p_run_truth_scope := scope; p_repositories_read := read;
     p_processed_cursors := cursors; p_change_summary := changes;
     p_source_operation_id := p_source_operation_id p; p_source_effect_id := p_source_effect_id p;
     p_source_effect_sha256 := p_source_effect_sha256 p; p_human_action := human;
     p_agent_action := agent; p_admission := admission; p_admission_messages := messages;
     p_experiment_control_node_id := p_experiment_control_node_id p;
     p_experiment_decision_bundle := p_experiment_decision_bundle p;
     p_project_identity := p_project_identity p;
     p_project_home_transfer := p_project_home_transfer p; p_authorized_by := p_authorized_by p;
     p_profile := p_profile p; p_task_id := p_task_id p; p_episode_id := p_episode_id p;
     p_branch_merge := p_branch_merge p; p_transition := transition |}.

(** The producer envelope of a Patch: its dump without the ten dropped fields. *)
Definition producer_envelope (p : Patch) : Patch :=
  patch_copy p 0 0 "" [] (p_run_truth_scope p) (p_repositories_read p) (p_processed_cursors p) []
    None None AdmissionAccepted [] None.

(** ** Patches and groups *)

(** A group of indexes, in written order, per Patch that has operations. *)
Fixpoint initiating_groups (group_index next : nat) (patches : list Patch) :
    list TransitionInitiatingGroup :=
  match patches with
  | [] => []
  | p :: patches =>
      let n := length (p_ops p) in
      (if decide (n = 0) then [] else
       [{| tig_group_id := "group-" +:+ pretty (group_index + 1);
           tig_operation_indexes := seq next n; tig_summary := p_summary p;
           tig_change_summary := p_change_summary p; tig_human_action := p_human_action p;
           tig_agent_action := p_agent_action p |}]) ++
      initiating_groups (S group_index) (next + n) patches
  end.

Definition source_actions (patches : list Patch) : list (Patch * GraphOperation) :=
  patches ≫= λ p, pair p <$> p_ops p.

(** [_require_compatible_envelopes]. *)
Definition compatible_envelope (first p : Patch) : bool :=
  bool_decide (p_schema_generation p = p_schema_generation first) &&
  bool_decide (p_kind p = p_kind first) && bool_decide (p_author p = p_author first) &&
  bool_decide (p_producer p = p_producer first) &&
  bool_decide (p_source_operation_id p = p_source_operation_id first) &&
  bool_decide (p_source_effect_id p = p_source_effect_id first) &&
  bool_decide (p_source_effect_sha256 p = p_source_effect_sha256 first) &&
  bool_decide (p_project_identity p = p_project_identity first) &&
  bool_decide (p_project_home_transfer p = p_project_home_transfer first) &&
  bool_decide (p_authorized_by p = p_authorized_by first) &&
  bool_decide (p_profile p = p_profile first) && bool_decide (p_task_id p = p_task_id first) &&
  bool_decide (p_episode_id p = p_episode_id first) &&
  bool_decide (p_experiment_control_node_id p = p_experiment_control_node_id first) &&
  bool_decide (p_experiment_decision_bundle p = p_experiment_decision_bundle first).

Definition _require_compatible_envelopes (first : Patch) (rest : list Patch) : res unit :=
  require (forallb (compatible_envelope first) rest).

Definition _stable_union (values : list (list string)) : list string :=
  stable_dedup ∅ (concat values).

Definition merge_cursor (acc : gmap string string) (kv : string * string) : res (gmap string string) :=
  _ ← require (match acc !! kv.1 with Some v => str_eqb v kv.2 | None => true end);
  Ok (<[kv.1 := kv.2]> acc).

Definition _combined_patch (first : Patch) (rest : list Patch) (operations : list GraphOperation)
    (trace : TransitionTrace) : res Patch :=
  let patches := first :: rest in
  cursors ← res_fold merge_cursor ∅ (patches ≫= λ p, map_to_list (p_processed_cursors p));
  Ok (patch_copy first (p_revision first) (p_created_at first)
        (match rest with
         | [] => p_summary first
         | _ => "Human Sync: " +:+ join "; " (p_summary <$> patches)
         end)
        operations (_stable_union (p_run_truth_scope <$> patches))
        (_stable_union (p_repositories_read <$> patches)) cursors
        (patches ≫= p_change_summary) None None AdmissionAccepted [] (Some trace)).

Definition _source_patch_for_group (p : Patch) (g : TransitionInitiatingGroup) : Patch :=
  patch_copy p (p_revision p) (p_created_at p) (tig_summary g)
    (omap (λ i, p_ops p !! i) (tig_operation_indexes g)) (p_run_truth_scope p)
    (p_repositories_read p) (p_processed_cursors p) (tig_change_summary g) (tig_human_action g)
    (tig_agent_action g) (p_admission p) (p_admission_messages p) None.

(** ** Pydantic equality of graph states

    Model equality compares the fields; [model_fields_set] does not take part. *)

Definition node_fields_forgotten (n : ProjectNode) : ProjectNode :=
  let b := node_base n in
  {| node_base := {| bn_id := bn_id b; bn_title := bn_title b;
                     bn_extension_type := bn_extension_type b;
                     bn_extension_fields := bn_extension_fields b; bn_standing := bn_standing b;
                     bn_created_rev := bn_created_rev b; bn_updated_rev := bn_updated_rev b;
                     bn_source_refs := bn_source_refs b; bn_fields_set := ∅ |};
     node_payload := node_payload n |}.

(** Proposals may carry whole nodes in a legacy creation. *)
Definition proposal_operation_forgotten (op : ProposalOperation) : ProposalOperation :=
  match op with
  | LegacyProposalCreateNodes nodes => LegacyProposalCreateNodes (node_fields_forgotten <$> nodes)
  | op => op
  end.

Definition proposal_fields_forgotten (q : Proposal) : Proposal :=
  {| prop_id := prop_id q; prop_title := prop_title q; prop_card := prop_card q;
     prop_ops := proposal_operation_forgotten <$> prop_ops q;
     prop_related_node_ids := prop_related_node_ids q;
     prop_related_edge_ids := prop_related_edge_ids q;
     prop_related_config_keys := prop_related_config_keys q; prop_base_rev := prop_base_rev q;
     prop_status := prop_status q; prop_created_by := prop_created_by q;
     prop_created_by_operation_id := prop_created_by_operation_id q;
     prop_raised_rev := prop_raised_rev q; prop_resolved_rev := prop_resolved_rev q;
     prop_resolved_by := prop_resolved_by q;
     prop_resolved_by_operation_id := prop_resolved_by_operation_id q;
     prop_resolution_reason := prop_resolution_reason q;
     prop_rejection_reason := prop_rejection_reason q; prop_fields_set := ∅ |}.

Definition state_forgotten (st : GraphState) : GraphState :=
  set_nodes (fmap node_fields_forgotten) (set_proposals (fmap proposal_fields_forgotten) st).

(** [a == b] on graph states. *)
Definition state_eqb (a b : GraphState) : bool :=
  bool_decide (state_forgotten a = state_forgotten b).

(** ** The timeline *)

(** One recorded action: its index and the states around it. *)
Notation timeline := (list (nat * GraphState * GraphState)).

Section timeline.
Context `{NodeAdapter}.

Definition conflict {A} (r : res A) : res A :=
  match r with Ok a => Ok a | Raise _ => Raise TransitionConflict end.

Fixpoint apply_actions (index : nat) (st : GraphState) (actions : list (Patch * GraphOperation)) :
    res (timeline * GraphState) :=
  match actions with
  | [] => Ok ([], st)
  | (p, op) :: actions =>
      st' ← conflict (apply_valid_operation st p op);
      r ← apply_actions (S index) st' actions;
      Ok ((index, st, st') :: r.1, r.2)
  end.

(** The timeline, and the final state at the transition's revision. *)
Definition _apply_timeline (initial : GraphState) (actions : list (Patch * GraphOperation)) :
    res (timeline * GraphState) :=
  r ← apply_actions 0 initial actions;
  match actions with
  | (p, _) :: _ => Ok (r.1, set_revision (p_revision p) r.2)
  | [] => Raise ValueError
  end.
End timeline.

(** ** Experiment dependencies *)

(** The collections are sorted by edge id, the key of the edge. *)
Record DependencySignature := {
  sig_control : ExperimentControlDependencies; sig_tests : list (string * string);
  sig_assessments : list (string * string * string * string * option EvidenceAssessment) }.
#[export] Instance DependencySignature_eq_dec : EqDecision DependencySignature.
Proof. solve_decision. Defined.

Definition sorted_edges (st : GraphState) : list Edge :=
  omap (λ k, gs_edges st !! k) (sorted_set (dom (gs_edges st))).

Definition is_evidence (st : GraphState) (id : string) : bool :=
  is_some (gs_nodes st !! id ≫= as_evidence).

(** [None] is the empty signature of a node that is no Experiment. *)
Definition _experiment_dependency_signature (st : GraphState) (id : string) :
    res (option DependencySignature) :=
  match get_experiment st id with
  | None => Ok None
  | Some _ =>
      control ← experiment_control_dependencies st id;
      let tests := bfilter (λ e, str_eqb (edge_source e) id && str_eqb (edge_relation e) "tests")
                     (sorted_edges st) in
      let hypothesis_ids := edge_target <$> tests in
      Ok (Some {|
        sig_control := control;
        sig_tests := (λ e, (edge_id e, edge_target e)) <$> tests;
        sig_assessments :=
          (λ e, (edge_id e, edge_source e, edge_target e, edge_relation e, edge_assessment e)) <$>
          bfilter (λ e, mem (edge_target e) hypothesis_ids && mem (edge_relation e) EVIDENCE_RELATIONS
                        && is_evidence st (edge_source e)) (sorted_edges st) |})
  end.

(** The Experiments of a graph, by id. *)
Definition experiment_ids (st : GraphState) : list string :=
  bfilter (λ id, is_some (get_experiment st id)) (sorted_set (dom (gs_nodes st))).

Definition dependency_changed (before after : GraphState) (id : string) : res bool :=
  match get_experiment before id with
  | None => Ok false
  | Some _ =>
      b ← _experiment_dependency_signature before id;
      a ← _experiment_dependency_signature after id;
      Ok (negb (bool_decide (b = a)))
  end.

(** Charge an Experiment's change to an action, unless one is charged already. *)
Definition charge_experiment (index : nat) (before after : GraphState) (causes : gmap string nat)
    (id : string) : res (gmap string nat) :=
  changed ← dependency_changed before after id;
  Ok (if changed : bool then setdefault id index causes else causes).

Definition charge_action (causes : gmap string nat) (x : nat * GraphState * GraphState) :
    res (gmap string nat) :=
  let '(index, before, after) := x in
  res_fold (charge_experiment index before after) causes (experiment_ids after).

(** For each Experiment, the first action that changed what it depends on. *)
Definition _dependency_change_causes (t : timeline) : res (gmap string nat) :=
  res_fold charge_action ∅ t.

(** ** Guidance *)

Inductive GuidanceField := FSummary | FAction.
#[export] Instance GuidanceField_eq_dec : EqDecision GuidanceField.
Proof. solve_decision. Defined.

Definition guidance_field (f : GuidanceField) : string :=
  match f with FSummary => "current_summary" | FAction => "next_action" end.
Definition stale_field (f : GuidanceField) : string :=
  match f with FSummary => "current_summary_stale" | FAction => "next_action_stale" end.

(** [bool(getattr(experiment, field))] and [getattr(experiment, stale_field)]. *)
Definition guidance_present (f : GuidanceField) (e : ExperimentNode) : bool :=
  match f with FSummary => truthy (exp_current_summary e) | FAction => truthy_opt (exp_next_action e) end.
Definition guidance_stale (f : GuidanceField) (e : ExperimentNode) : bool :=
  match f with FSummary => exp_current_summary_stale e | FAction => exp_next_action_stale e end.

(** The last action that writes each guidance field. *)
Definition _explicit_guidance_updates (actions : list (Patch * GraphOperation)) :
    gmap (string * string) nat :=
  foldl (λ m '(index, (_, op)),
    match op with
    | UpdateNodes us =>
        foldl (λ m u, foldl (λ m f,
          if is_some (nu_changes u !! guidance_field f)
          then <[(nu_id u, guidance_field f) := index]> m else m) m [FSummary; FAction]) m us
    | _ => m
    end) ∅ (imap pair actions).

(** The flag a guidance field should have, and the action it follows from. *)
Definition desired_flag (e : ExperimentNode) (invalidation explicit : option nat) (f : GuidanceField) :
    option (bool * nat) :=
  match invalidation, explicit with
  | Some cause, _ => Some (guidance_present f e, cause)
  | None, Some cause => Some (false, cause)
  | None, None => None
  end.

Definition stale_change (e : ExperimentNode) (invalidation : option nat)
    (explicit : GuidanceField → option nat) (m : gmap nat (gmap string pyval)) (f : GuidanceField) :
    gmap nat (gmap string pyval) :=
  match desired_flag e invalidation (explicit f) f with
  | Some (desired, cause) =>
      if eqb (guidance_stale f e) desired then m
      else <[cause := <[stale_field f := PBool desired]> (default ∅ (m !! cause))]> m
  | None => m
  end.

Definition changes_by_cause (e : ExperimentNode) (invalidation : option nat)
    (explicit : GuidanceField → option nat) : gmap nat (gmap string pyval) :=
  foldl (stale_change e invalidation explicit) ∅ [FSummary; FAction].

Definition guidance_update (id : string) (changes : gmap string pyval) : GraphOperation :=
  UpdateNodes [{| nu_id := id; nu_changes := changes; nu_cause := None; nu_base_updated_rev := None |}].

Definition _guidance_actions (st : GraphState) (causes : gmap string nat)
    (explicit : gmap (string * string) nat) : list (GraphOperation * nat) :=
  experiment_ids st ≫= λ id,
    match get_experiment st id with
    | Some e =>
        let m := changes_by_cause e (causes !! id) (λ f, explicit !! (id, guidance_field f)) in
        omap (λ cause, (λ changes, (guidance_update id changes, cause)) <$> m !! cause)
          (merge_sort le (elements (dom m)))
    | None => []
    end.

(** ** Lifecycle events *)

Definition event_value (v : option pyval) : res EventValue :=
  match v with
  | None | Some PNone => Ok EVNone
  | Some (PBool b) => Ok (EVBool b)
  | Some (PStr s) => Ok (EVStr s)
  | Some _ => Raise ValidationError
  end.

Definition event_truthy (v : EventValue) : bool :=
  match v with EVNone => false | EVBool b => b | EVStr s => truthy s end.

Definition status_value (s : option string) : EventValue :=
  match s with Some s => EVStr s | None => EVNone end.

(** What is known of an event before its ordinal. *)
Record PendingEvent := {
  pe_cause : nat; pe_node : string; pe_field : string; pe_before : EventValue;
  pe_after : EventValue; pe_type : EventType }.

Definition status_events (t : nat * GraphState * GraphState) : list PendingEvent :=
  let '(index, before, after) := t in
  sorted_set (dom (gs_nodes before) ∩ dom (gs_nodes after)) ≫= λ id,
    let previous := gs_nodes before !! id ≫= node_status in
    let current := gs_nodes after !! id ≫= node_status in
    if decide (previous = current) then []
    else [{| pe_cause := index; pe_node := id; pe_field := "status";
             pe_before := status_value previous; pe_after := status_value current;
             pe_type := NodeStatusChanged |}].

Definition guidance_event (index : nat) (before after : GraphState) (id field : string) :
    res PendingEvent :=
  old ← event_value (gs_nodes before !! id ≫= λ n, node_getattr n field);
  new ← event_value (gs_nodes after !! id ≫= λ n, node_getattr n field);
  Ok {| pe_cause := index; pe_node := id; pe_field := field; pe_before := old; pe_after := new;
        pe_type := if event_truthy new then GuidanceInvalidated else GuidanceRefreshed |}.

Definition generated_events (ops : list GraphOperation) (t : nat * GraphState * GraphState) :
    res (list PendingEvent) :=
  let '(index, before, after) := t in
  match ops !! index with
  | Some (UpdateNodes us) =>
      events ← res_map (λ u, res_map (guidance_event index before after (nu_id u))
                                (sorted_set (dom (nu_changes u)))) us;
      Ok (concat events)
  | _ => Raise ValueError
  end.

Section hashes.
Context `{CanonicalHash}.

Definition _operations_sha256 (ops : list GraphOperation) : string := _sha256 (DocOperations ops).

Definition _transition_id (pre_head : GraphHeadRef) (patches : list Patch)
    (groups : list TransitionInitiatingGroup) (actions : list (Patch * GraphOperation))
    (ruleset_tag : string) (generated : list TransitionGeneratedAction) : string :=
  _sha256 (DocTransition pre_head ruleset_tag groups (producer_envelope <$> patches)
             (actions.*2) generated).

Definition make_event (transition_id : string) (ordinal : nat) (e : PendingEvent) : TransitionEvent :=
  {| te_event_id := _sha256 (DocEvent transition_id ordinal (pe_type e) (inl (pe_cause e))
                               (pe_node e) (pe_field e) (pe_before e) (pe_after e));
     te_event_type := pe_type e; te_cause := action_cause (pe_cause e); te_node_id := pe_node e;
     te_field := pe_field e; te_before := pe_before e; te_after := pe_after e |}.

Definition _lifecycle_events (transition_id : string) (initiating generated : timeline)
    (ops : list GraphOperation) : res (list TransitionEvent) :=
  g ← res_map (generated_events ops) generated;
  Ok (imap (make_event transition_id) ((initiating ≫= status_events) ++ concat g)).
End hashes.

(** ** Projections *)

Record ProjectTransitionProjection := {
  ptp_head : GraphHeadRef; ptp_graph : GraphState; ptp_attention : GraphAttentionProjection;
  ptp_experiment_control : gmap string ExperimentControlState;
  ptp_guidance_validity : gmap string ExperimentGuidanceValidity; ptp_ruleset_tag : string;
  ptp_transition_id : option string; ptp_canonical : bool; ptp_base_head : option GraphHeadRef }.

Definition _guidance_field_validity (present stale : bool) (event_id : option string) :
    GuidanceFieldValidity :=
  if negb present then {| gfv_status := GuidanceEmpty; gfv_invalidated_by_event_id := None |}
  else if stale then {| gfv_status := GuidanceStale; gfv_invalidated_by_event_id := event_id |}
  else {| gfv_status := GuidanceCurrent; gfv_invalidated_by_event_id := None |}.

(** The last invalidation event of a node's flag. *)
Definition invalidation_event_by_field (events : list TransitionEvent) : gmap (string * string) string :=
  foldl (λ m e, if decide (te_event_type e = GuidanceInvalidated)
                then <[(te_node_id e, te_field e) := te_event_id e]> m else m) ∅ events.

Definition experiment_guidance_validity (id : string) (e : ExperimentNode)
    (events : gmap (string * string) string) : ExperimentGuidanceValidity :=
  let validity f := _guidance_field_validity (guidance_present f e) (guidance_stale f e)
                      (events !! (id, stale_field f)) in
  {| egv_current_summary := validity FSummary; egv_next_action := validity FAction |}.

Definition project_experiment (st : GraphState) (events : gmap (string * string) string)
    (acc : gmap string ExperimentControlState * gmap string ExperimentGuidanceValidity) (id : string) :
    res (gmap string ExperimentControlState * gmap string ExperimentGuidanceValidity) :=
  match get_experiment st id with
  | None => Ok acc
  | Some e =>
      control ← derive_experiment_control_state st id [] None 0 None false false None None;
      Ok (<[id := control]> acc.1, <[id := experiment_guidance_validity id e events]> acc.2)
  end.

Definition _project_projection (st : GraphState) (head : GraphHeadRef) (ruleset_tag : string)
    (transition_id : option string) (canonical : bool) (events : gmap (string * string) string)
    (base_head : option GraphHeadRef) : res ProjectTransitionProjection :=
  r ← res_fold (project_experiment st events) (∅, ∅) (sorted_set (dom (gs_nodes st)));
  attention ← project_graph_attention st;
  Ok {| ptp_head := head; ptp_graph := st; ptp_attention := attention;
        ptp_experiment_control := r.1; ptp_guidance_validity := r.2;
        ptp_ruleset_tag := ruleset_tag; ptp_transition_id := transition_id;
        ptp_canonical := canonical; ptp_base_head := base_head |}.

Definition project_transition_projection (st : GraphState) (tr : TransitionTrace) (canonical : bool) :
    res ProjectTransitionProjection :=
  _project_projection st
    {| head_target := head_target (tt_pre_head tr); head_revision := gs_revision st;
       head_transition_id := Some (tt_transition_id tr) |}
    (tt_ruleset_tag tr) (Some (tt_transition_id tr)) canonical
    (invalidation_event_by_field (tt_lifecycle_events tr))
    (if canonical then None else Some (tt_pre_head tr)).

Definition current_project_projection (st : GraphState) (transition_id : option string)
    (target : option GraphTargetRef) : res ProjectTransitionProjection :=
  _project_projection st
    {| head_target := default main_target target; head_revision := gs_revision st;
       head_transition_id := transition_id |}
    TRANSITION_RULESET_TAG transition_id true ∅ None.

(** ** Preparation *)

Definition generated_action (index cause : nat) : TransitionGeneratedAction :=
  {| tga_operation_index := index; tga_rule_id := GUIDANCE_RULE_ID; tga_cause := action_cause cause |}.

Record PreparedTransition := { prt_patch : Patch; prt_projection : ProjectTransitionProjection }.

Section prepare.
Context `{NodeAdapter, CanonicalHash}.

(** Stage the generated actions after the initiating ones. *)
Fixpoint apply_generated (index : nat) (st : GraphState) (p : Patch)
    (actions : list (GraphOperation * nat)) : res (timeline * GraphState) :=
  match actions with
  | [] => Ok ([], st)
  | (op, _) :: actions =>
      st' ← conflict (apply_transition_generated_operation st p op);
      r ← apply_generated (S index) st' p actions;
      Ok ((index, st, st') :: r.1, r.2)
  end.

(** The lifecycle closure of the initiating actions: both timelines, the
    generated actions and the final state. *)
Definition transition_closure (max_rule_firings : nat) (st : GraphState) (first : Patch)
    (actions : list (Patch * GraphOperation)) :
    res (timeline * timeline * list (GraphOperation * nat) * GraphState) :=
  t ← _apply_timeline st actions;
  causes ← _dependency_change_causes t.1;
  let generated := _guidance_actions t.2 causes (_explicit_guidance_updates actions) in
  if (max_rule_firings <? length generated)%nat then Raise TransitionConflict
  else g ← apply_generated (length actions) t.2 first generated;
       Ok (t.1, g.1, generated, g.2).

(** [GraphTransitionManager.prepare_validated]. *)
Definition prepare_validated (max_rule_firings : nat) (st : GraphState) (patches : list Patch)
    (pre_head : option GraphHeadRef) : res PreparedTransition :=
  match patches with
  | [] => Raise ValueError
  | first :: rest =>
      let revision := p_revision first in
      _ ← require (negb ((revision <=? gs_revision st)%Z ||
                   existsb (λ p, negb (p_revision p =? revision)%Z) patches));
      _ ← require (negb (existsb (λ p, is_some (p_transition p)) patches));
      _ ← _require_compatible_envelopes first rest;
      let head := default {| head_target := main_target; head_revision := gs_revision st;
                             head_transition_id := None |} pre_head in
      _ ← require (head_revision head =? gs_revision st)%Z;
      let actions := source_actions patches in
      let groups := initiating_groups 0 0 patches in
      _ ← require (negb (is_nil actions));
      r ← transition_closure max_rule_firings st first actions;
      let '(initiating, generated_timeline, generated, final) := r in
      let refs := imap (λ i g, generated_action (length actions + i) g.2) generated in
      let expanded := actions.*2 ++ generated.*1 in
      let tid := _transition_id head patches groups actions TRANSITION_RULESET_TAG refs in
      events ← _lifecycle_events tid initiating generated_timeline expanded;
      let trace := {| tt_transition_id := tid; tt_pre_head := head;
                      tt_ruleset_tag := TRANSITION_RULESET_TAG; tt_initiating_groups := groups;
                      tt_generated_actions := refs; tt_lifecycle_events := events;
                      tt_expanded_ops_sha256 := _operations_sha256 expanded |} in
      combined ← _combined_patch first rest expanded trace;
      persisted ← apply_valid_patch st combined;
      if state_eqb persisted final
      then projection ← project_transition_projection persisted trace true;
           Ok {| prt_patch := combined; prt_projection := projection |}
      else Raise TransitionConflict
  end.
End prepare.

(** ** Trace validation *)

Definition STALE_FIELDS : list string := ["current_summary_stale"; "next_action_stale"].
Definition is_bool (v : pyval) : bool := match v with PBool _ => true | _ => false end.

Definition guidance_changes_ok (changes : gmap string pyval) : bool :=
  negb (bool_decide (changes = ∅)) &&
  forallb (λ kv, mem kv.1 STALE_FIELDS && is_bool kv.2) (map_to_list changes).

Definition _validate_guidance_operation (op : GraphOperation) : bool :=
  match op with
  | UpdateNodes us => negb (is_nil us) && forallb (λ u, guidance_changes_ok (nu_changes u)) us
  | _ => false
  end.

Definition sorted_nats (l : list nat) : list nat := merge_sort le l.
Definition list_max (l : list nat) : nat := foldr max 0 l.

(** The operation references of a trace: source indexes, then generated ones,
    each in written order, together the indexes of the operations. *)
Definition references_ok (source generated : list nat) (n : nat) : bool :=
  bool_decide (NoDup source) && bool_decide (NoDup generated) &&
  negb (existsb (λ i, bool_decide (i ∈ generated)) source) &&
  bool_decide (sorted_nats (source ++ generated) = seq 0 n) &&
  bool_decide (source = sorted_nats source) && bool_decide (generated = sorted_nats generated) &&
  (is_nil source || (list_max source <? match generated with
                                        | [] => n | i :: l => foldr min i l end)%nat).

Definition generated_action_ok (ops : list GraphOperation) (a : TransitionGeneratedAction) : bool :=
  str_eqb (tga_rule_id a) GUIDANCE_RULE_ID &&
  match tc_kind (tga_cause a), tc_action_index (tga_cause a) with
  | CauseAction, Some i => (i <? tga_operation_index a)%nat
  | _, _ => false
  end &&
  match ops !! tga_operation_index a with
  | Some op => _validate_guidance_operation op
  | None => false
  end.

Section validate.
Context `{NodeAdapter, CanonicalHash}.

(** Replay the recorded generated actions. *)
Fixpoint replay_generated (st : GraphState) (p : Patch) (actions : list TransitionGeneratedAction) :
    res (timeline * GraphState) :=
  match actions with
  | [] => Ok ([], st)
  | a :: actions =>
      op ← match p_ops p !! tga_operation_index a with
           | Some op => Ok op | None => Raise ValueError end;
      st' ← apply_transition_generated_operation st p op;
      r ← replay_generated st' p actions;
      Ok ((tga_operation_index a, st, st') :: r.1, r.2)
  end.

(** [raise ValueError(..) from exc]. *)
Definition as_value_error {A} (r : res A) : res A :=
  match r with Ok a => Ok a | Raise _ => Raise ValueError end.

Definition replay_trace (st : GraphState) (p : Patch) (tr : TransitionTrace)
    (actions : list (Patch * GraphOperation)) : res (timeline * timeline) :=
  t ← _apply_timeline st actions;
  g ← replay_generated t.2 p (tt_generated_actions tr);
  Ok (t.1, g.1).

(** One recorded event: its cause is known and its id is its own digest. *)
Definition event_ok (tid : string) (n : nat) (known : gset string) (ordinal : nat)
    (e : TransitionEvent) : bool :=
  match tc_kind (te_cause e), tc_action_index (te_cause e) with
  | CauseAction, Some i =>
      (i <? n)%nat && str_eqb (te_event_id e)
        (_sha256 (DocEvent tid ordinal (te_event_type e) (inl i) (te_node_id e) (te_field e)
                   (te_before e) (te_after e)))
  | CauseAction, None => false
  | CauseEvent, _ =>
      match tc_event_id (te_cause e) with
      | Some id => bool_decide (id ∈ known) && str_eqb (te_event_id e)
          (_sha256 (DocEvent tid ordinal (te_event_type e) (inr id) (te_node_id e) (te_field e)
                     (te_before e) (te_after e)))
      | None => false
      end
  end.

Fixpoint events_ok (tid : string) (n : nat) (known : gset string) (ordinal : nat)
    (events : list TransitionEvent) : bool :=
  match events with
  | [] => true
  | e :: events => event_ok tid n known ordinal e &&
                   events_ok tid n ({[te_event_id e]} ∪ known) (S ordinal) events
  end.

Definition validate_transition_trace (st : GraphState) (p : Patch) : res (list Patch) :=
  match p_transition p with
  | None => Raise ValueError
  | Some tr =>
      _ ← require (head_revision (tt_pre_head tr) =? gs_revision st)%Z;
      _ ← require (str_eqb (_operations_sha256 (p_ops p)) (tt_expanded_ops_sha256 tr));
      _ ← require (references_ok (tt_initiating_groups tr ≫= tig_operation_indexes)
                     (tga_operation_index <$> tt_generated_actions tr) (length (p_ops p)));
      let sources := _source_patch_for_group p <$> tt_initiating_groups tr in
      let actions := source_actions sources in
      _ ← require (negb (is_nil actions));
      _ ← require (str_eqb (_transition_id (tt_pre_head tr) sources (tt_initiating_groups tr) actions
                     (tt_ruleset_tag tr) (tt_generated_actions tr)) (tt_transition_id tr));
      _ ← require (forallb (generated_action_ok (p_ops p)) (tt_generated_actions tr));
      r ← as_value_error (replay_trace st p tr actions);
      expected ← _lifecycle_events (tt_transition_id tr) r.1 r.2 (p_ops p);
      _ ← require (bool_decide (tt_lifecycle_events tr = expected));
      _ ← require (events_ok (tt_transition_id tr) (length (p_ops p)) ∅ 0 (tt_lifecycle_events tr));
      Ok sources
  end.
End validate.

(** ** The head chain *)

(** The first accepted transition that does not continue the exact head. *)
Fixpoint accepted_transition_head_chain_failure (patches : list Patch) (target : GraphTargetRef)
    (transition_id : option string) : option ReplayFailure :=
  match patches with
  | [] => None
  | p :: patches =>
      match p_admission p, p_transition p with
      | AdmissionAccepted, Some tr =>
          if bool_decide (head_target (tt_pre_head tr) = target) &&
             bool_decide (head_transition_id (tt_pre_head tr) = transition_id)
          then accepted_transition_head_chain_failure patches target (Some (tt_transition_id tr))
          else Some {| rf_revision := p_revision p; rf_created_at := p_created_at p;
                       rf_code := "transition-head-mismatch" |}
      | _, _ => accepted_transition_head_chain_failure patches target transition_id
      end
  end.
