(* ===== verification/Closure.v ===== *)
(** Properties of graph transitions: what is prepared validates and replays, the
    recorded operations are bound to their digest, and the lifecycle rules leave
    exactly the guidance flags they promise. *)

From S2P Require Export Transitions.

(** ** Lists of indexes *)

Lemma lookup_seq_all {A} (pre l post : list A) :
  omap (λ i, (pre ++ l ++ post) !! i) (seq (length pre) (length l)) = l.
Proof.
  revert pre. induction l as [|x l IH]; intros pre; simpl; [done|].
  rewrite list_lookup_middle by done. f_equal.
  specialize (IH (pre ++ [x])). rewrite length_app, Nat.add_1_r, <-app_assoc in IH. exact IH.
Qed.

Lemma sorted_nats_seq n m : sorted_nats (seq n m) = seq n m.
Proof.
  unfold sorted_nats. apply (StronglySorted_unique le).
  - apply (StronglySorted_merge_sort le).
  - apply Sorted_StronglySorted; [exact _|]. revert n. induction m as [|m IH]; intros n; simpl; constructor; [done|].
    destruct m; simpl; constructor. lia.
  - apply merge_sort_Permutation.
Qed.

Lemma list_max_seq n m k : n + m ≤ k → m ≠ 0 → list_max (seq n m) < k.
Proof.
  revert n. induction m as [|m IH]; intros n Hk Hm; [done|]. simpl. apply Nat.max_lub_lt; [lia|].
  destruct m; [simpl; lia|]. apply IH; lia.
Qed.

Lemma list_min_seq i n m : i ≤ n → foldr min i (seq n m) = i.
Proof.
  revert n. induction m as [|m IH]; intros n Hi; simpl; [done|]. rewrite IH by lia. lia.
Qed.

(** The references a preparation records are always well formed. *)
Lemma references_ok_seq s g : s ≠ 0 → references_ok (seq 0 s) (seq s g) (s + g) = true.
Proof.
  intros Hs. unfold references_ok. rewrite <-seq_app, !sorted_nats_seq.
  rewrite !bool_decide_eq_true_2 by (done || apply NoDup_seq).
  assert (existsb (λ i, bool_decide (i ∈ seq s g)) (seq 0 s) = false) as ->.
  { apply existsb_false. intros i Hi%elem_of_seq. apply bool_decide_eq_false. rewrite elem_of_seq. lia. }
  simpl. apply orb_true_iff. right. apply Nat.ltb_lt. destruct g as [|g]; simpl.
  - apply list_max_seq; lia.
  - rewrite list_min_seq by lia. apply list_max_seq; lia.
Qed.

(** ** Dependence of materialization on its Patch *)

(** Two Patches that stage an operation alike. *)
Record stages_like (p q : Patch) : Prop := {
  sl_generation : p_schema_generation p = p_schema_generation q;
  sl_revision : p_revision p = p_revision q;
  sl_kind : p_kind p = p_kind q;
  sl_author : p_author p = p_author q;
  sl_source : p_source_operation_id p = p_source_operation_id q;
  sl_date : p_kind p = KSeed ∨ p_kind p = KRefresh → p_created_at p = p_created_at q }.

Section like.
Context `{NodeAdapter}.
Implicit Types (p q : Patch) (st : GraphState).

Lemma apply_op_like p q g s io : stages_like p q → apply_op p g s io = apply_op q g s io.
Proof. intros []. destruct p, q, io as [i []]; simpl in *; subst; reflexivity. Qed.

Lemma close_patch_like p q st : stages_like p q → close_patch p st = close_patch q st.
Proof.
  intros []. unfold close_patch. rewrite sl_revision0, <-sl_kind0. case_decide as Hk; [|done].
  by rewrite sl_date0.
Qed.

Lemma stages_like_ops p q ops : stages_like p q → stages_like (with_ops p ops) (with_ops q ops).
Proof. by intros []. Qed.

(** The indexes that may write system fields matter only at the operation. *)
Lemma apply_op_generated p g g' s i op :
  (i ∈ g ↔ i ∈ g') → apply_op p g s (i, op) = apply_op p g' s (i, op).
Proof.
  intros Hi. destruct op; try done. simpl. by rewrite (bool_decide_ext _ _ Hi).
Qed.

Lemma apply_one_like p q st op g :
  stages_like p q → (0 ∈ generated_indexes p g ↔ 0 ∈ generated_indexes q g) →
  _apply_patch st (with_ops p [op]) [] g = _apply_patch st (with_ops q [op]) [] g.
Proof.
  intros Hl Hg. unfold _apply_patch. cbn [p_ops with_ops imap res_fold].
  rewrite (apply_op_like _ (with_ops q [op])) by by apply stages_like_ops.
  rewrite (apply_op_generated _ _ (generated_indexes (with_ops q [op]) g)) by exact Hg.
  destruct (apply_op _ _ _ _) as [s|e]; simpl; [|done].
  by rewrite (close_patch_like _ (with_ops q [op])) by by apply stages_like_ops.
Qed.

Lemma apply_valid_operation_like p q st op :
  stages_like p q → p_transition p = None → p_transition q = None →
  apply_valid_operation st p op = apply_valid_operation st q op.
Proof.
  intros Hl Hp Hq. unfold apply_valid_operation. rewrite (apply_one_like p q); [done..|].
  unfold generated_indexes. by rewrite Hp, Hq.
Qed.

Lemma apply_generated_operation_like p q st op :
  stages_like p q →
  apply_transition_generated_operation st p op = apply_transition_generated_operation st q op.
Proof.
  intros Hl. unfold apply_transition_generated_operation. rewrite (apply_one_like p q); [done..|].
  unfold generated_indexes. simpl. split; intros _; by left.
Qed.
End like.

(** ** Recovering the initiating Patches *)

(** The initiating Patch [p] as the committed Patch [c] remembers it. *)
Definition recovered (c p : Patch) : Patch :=
  patch_copy c (p_revision c) (p_created_at c) (p_summary p) (p_ops p) (p_run_truth_scope c)
    (p_repositories_read c) (p_processed_cursors c) (p_change_summary p) (p_human_action p)
    (p_agent_action p) (p_admission c) (p_admission_messages c) None.

(** Patches one producer submits together: none is empty, they share the whole
    envelope, whose scopes name no repository twice, and a seed or refresh has
    one date. *)
Record one_producer (first : Patch) (patches : list Patch) : Prop := {
  op_nonempty : ∀ p, p ∈ patches → p_ops p ≠ [];
  op_envelope : ∀ p, p ∈ patches → producer_envelope p = producer_envelope first;
  op_scope : NoDup (p_run_truth_scope first);
  op_read : NoDup (p_repositories_read first);
  op_date : p_kind first = KSeed ∨ p_kind first = KRefresh →
            ∀ p, p ∈ patches → p_created_at p = p_created_at first }.

Section recover.
Implicit Types (p c : Patch).

Lemma source_actions_ops ps : (source_actions ps).*2 = ps ≫= p_ops.
Proof.
  unfold source_actions. induction ps as [|p ps IH]; [done|].
  rewrite !bind_cons, fmap_app, IH. f_equal. rewrite <-list_fmap_compose. apply list_fmap_id.
Qed.

Lemma source_actions_length ps : length (source_actions ps) = length (ps ≫= p_ops).
Proof. by rewrite <-source_actions_ops, length_fmap. Qed.

Lemma groups_indexes k next ps :
  initiating_groups k next ps ≫= tig_operation_indexes = seq next (length (ps ≫= p_ops)).
Proof.
  revert k next. induction ps as [|p ps IH]; intros k next; [done|]. cbn [initiating_groups].
  rewrite bind_app, IH, bind_cons, length_app, seq_app. f_equal.
  case_decide as Hn; [by rewrite Hn|]. simpl. by rewrite app_nil_r.
Qed.

Lemma groups_sources c ps pre post k :
  (∀ p, p ∈ ps → p_ops p ≠ []) → p_ops c = pre ++ (ps ≫= p_ops) ++ post →
  _source_patch_for_group c <$> initiating_groups k (length pre) ps = recovered c <$> ps.
Proof.
  revert k pre. induction ps as [|p ps IH]; intros k pre Hne Hc; [done|]. cbn [initiating_groups].
  rewrite decide_False by (intros ?%nil_length_inv; by apply (Hne p); [left|]).
  cbn [app]. rewrite !fmap_cons. f_equal.
  - unfold _source_patch_for_group, recovered. simpl. f_equal. rewrite Hc, bind_cons, <-app_assoc.
    apply lookup_seq_all.
  - rewrite <-length_app. apply IH; [intros; apply Hne; by right|].
    by rewrite Hc, bind_cons, <-!app_assoc.
Qed.

Lemma stable_dedup_prefix l l' (seen : gset string) :
  NoDup l → (∀ x, x ∈ l → x ∉ seen) → (∀ x, x ∈ l' → x ∈ l ∨ x ∈ seen) →
  stable_dedup seen (l ++ l') = l.
Proof.
  revert seen. induction l as [|y l IH]; intros seen Hnd Hs Hl; simpl.
  - induction l' as [|x l' IHl]; simpl; [done|].
    destruct (Hl x) as [[]%elem_of_nil|Hx]; [by left|]. rewrite decide_True by done.
    apply IHl. intros z Hz. apply Hl. by right.
  - apply NoDup_cons in Hnd as [Hy Hnd]. rewrite decide_False by (apply Hs; by left). f_equal.
    apply IH; [done| |].
    + intros x Hx [->%elem_of_singleton|Hin]%elem_of_union; [done|]. by apply (Hs x); [right|].
    + intros x Hx. destruct (Hl x Hx) as [[->|?]%elem_of_cons|?]; [right|by left|right]; set_solver.
Qed.

(** The union of copies of one list without repetition is that list. *)
Lemma stable_union_same {A} (f : A → list string) (a : A) l :
  NoDup (f a) → (∀ b, b ∈ l → f b = f a) → _stable_union (f <$> a :: l) = f a.
Proof.
  intros Hnd Hl. unfold _stable_union. simpl. apply stable_dedup_prefix; [done|set_solver|].
  intros x Hx. left. apply list_elem_of_In, in_concat in Hx as (l' & Hl' & Hx).
  apply list_elem_of_In, list_elem_of_fmap in Hl' as (b & -> & Hb).
  rewrite <-(Hl b Hb). by apply list_elem_of_In.
Qed.

Lemma merge_cursors_same m l acc r :
  (∀ kv, kv ∈ l → m !! kv.1 = Some kv.2) → acc ⊆ m →
  res_fold merge_cursor acc l = Ok r →
  r ⊆ m ∧ acc ⊆ r ∧ ∀ kv, kv ∈ l → r !! kv.1 = Some kv.2.
Proof.
  revert acc. induction l as [|[k v] l IH]; intros acc Hl Hacc Hf; cbn [res_fold] in Hf.
  { apply Ok_inj in Hf as <-. split; [done|]. split; [done|]. by intros ? ?%elem_of_nil. }
  apply res_bind_ok in Hf as (acc' & Hm & Hf). unfold merge_cursor in Hm.
  apply res_bind_ok in Hm as (u & Hreq & Hm). apply require_ok in Hreq. apply Ok_inj in Hm as <-.
  simpl in *. assert (m !! k = Some v) as Hk by (apply (Hl (k, v)); by left).
  assert (acc ⊆ <[k:=v]> acc) as Hsub.
  { destruct (acc !! k) as [v'|] eqn:Hv; [|by apply insert_subseteq].
    apply bool_decide_eq_true in Hreq. subst v'. by rewrite insert_id. }
  destruct (IH (<[k:=v]> acc)) as (Hr & Ha & Hin); [intros; apply Hl; by right| |done|].
  { apply insert_subseteq_l; done. }
  split; [done|]. split; [by etrans|]. intros kv [->|Hkv]%elem_of_cons; [|by apply Hin].
  eapply lookup_weaken; [|exact Ha]. simpl. by rewrite lookup_insert_eq.
Qed.

(** Merging copies of one cursor table gives that table. *)
Lemma merge_cursors_table m (ps : list Patch) p r :
  (∀ q, q ∈ p :: ps → p_processed_cursors q = m) →
  res_fold merge_cursor ∅ ((p :: ps) ≫= λ q, map_to_list (p_processed_cursors q)) = Ok r → r = m.
Proof.
  intros Hall Hf. apply (merge_cursors_same m) in Hf as (Hr & _ & Hin); [|..|apply map_empty_subseteq].
  - apply (anti_symm (⊆)); [done|]. apply map_subseteq_spec. intros k v Hk.
    apply (Hin (k, v)). apply list_elem_of_bind. exists p. split; [|by left].
    rewrite (Hall p) by by left. by apply elem_of_map_to_list.
  - intros [k v] (q & Hkv & Hq)%list_elem_of_bind. rewrite (Hall q Hq) in Hkv.
    by apply elem_of_map_to_list.
Qed.

(** Reading a field that survives in the envelope. *)
Lemma envelope_fields p q :
  producer_envelope p = producer_envelope q →
  p_schema_generation p = p_schema_generation q ∧ p_kind p = p_kind q ∧ p_author p = p_author q ∧
  p_source_operation_id p = p_source_operation_id q ∧
  p_run_truth_scope p = p_run_truth_scope q ∧ p_repositories_read p = p_repositories_read q ∧
  p_processed_cursors p = p_processed_cursors q.
Proof. destruct p, q. cbv [producer_envelope patch_copy]. simpl. by intros [= -> -> -> -> -> -> -> -> -> -> -> -> -> -> -> -> -> -> ->]. Qed.

Lemma recovered_envelope c p : producer_envelope (recovered c p) = producer_envelope c.
Proof. by destruct c. Qed.

(** The committed Patch keeps the common envelope. *)
Lemma combined_envelope first rest ops tr c :
  one_producer first (first :: rest) → _combined_patch first rest ops tr = Ok c →
  producer_envelope c = producer_envelope first ∧ p_ops c = ops ∧ p_transition c = Some tr ∧
  p_revision c = p_revision first ∧ p_created_at c = p_created_at first.
Proof.
  intros [_ Henv Hs Hr _] Hc. unfold _combined_patch in Hc.
  apply res_bind_ok in Hc as (cursors & Hcur & Hc). apply Ok_inj in Hc as <-.
  split; [|done]. apply (merge_cursors_table (p_processed_cursors first)) in Hcur.
  2: { intros q Hq. by destruct (envelope_fields q first (Henv q Hq)) as (_&_&_&_&_&_&->). }
  rewrite Hcur, (stable_union_same p_run_truth_scope), (stable_union_same p_repositories_read); try done.
  - intros q Hq. by destruct (envelope_fields q first) as (_&_&_&_&_&->&_); [apply Henv; right|].
  - intros q Hq. by destruct (envelope_fields q first) as (_&_&_&_&->&_&_); [apply Henv; right|].
Qed.
End recover.

(** ** Timelines *)

Definition timeline_indexes (t : timeline) : list nat := (λ x, x.1.1) <$> t.

Section timelines.
Context `{NodeAdapter}.
Implicit Types (st : GraphState) (actions : list (Patch * GraphOperation)).

(** Staging depends on the Patches only through what [stages_like] keeps. *)
Lemma apply_actions_like i st actions actions' :
  Forall2 (λ a b, a.2 = b.2 ∧ stages_like a.1 b.1 ∧ p_transition a.1 = None ∧
                  p_transition b.1 = None) actions actions' →
  apply_actions i st actions = apply_actions i st actions'.
Proof.
  intros Hall. revert i st. induction Hall as [|[p op] [q op'] l l' (Ho & Hl & Hp & Hq) _ IH]; intros i st; [done|].
  simpl in *. subst op'. rewrite (apply_valid_operation_like p q) by done.
  destruct (conflict _) as [st'|]; simpl; [|done]. by rewrite IH.
Qed.

Lemma apply_timeline_like st actions actions' :
  Forall2 (λ a b, a.2 = b.2 ∧ stages_like a.1 b.1 ∧ p_transition a.1 = None ∧
                  p_transition b.1 = None) actions actions' →
  _apply_timeline st actions = _apply_timeline st actions'.
Proof.
  intros Hall. unfold _apply_timeline. rewrite (apply_actions_like 0 st actions actions') by done.
  destruct Hall as [|[p op] [q op'] l l' (_ & Hl & _) _]; [done|]. simpl in Hl.
  destruct Hl. by rewrite sl_revision0.
Qed.

Lemma apply_actions_indexes i st actions t st' :
  apply_actions i st actions = Ok (t, st') → timeline_indexes t = seq i (length actions).
Proof.
  revert i st t st'. induction actions as [|[p op] actions IH]; intros i st t st' Ha; simpl in Ha.
  { by simplify_eq. }
  apply res_bind_ok in Ha as (s1 & _ & Ha). apply res_bind_ok in Ha as ([t1 s2] & H1 & Ha).
  apply Ok_inj in Ha. simplify_eq. simpl. f_equal. by eapply IH.
Qed.

Lemma apply_timeline_indexes st actions t st' :
  _apply_timeline st actions = Ok (t, st') → timeline_indexes t = seq 0 (length actions).
Proof.
  unfold _apply_timeline. intros Ha. apply res_bind_ok in Ha as ([t1 s1] & H1 & Ha).
  destruct actions as [|[p op] actions]; [done|]. apply Ok_inj in Ha. simplify_eq.
  by eapply apply_actions_indexes.
Qed.

Lemma apply_generated_indexes i st p (actions : list (GraphOperation * nat)) t st' :
  apply_generated i st p actions = Ok (t, st') → timeline_indexes t = seq i (length actions).
Proof.
  revert i st t st'. induction actions as [|[op c] actions IH]; intros i st t st' Ha; simpl in Ha.
  { by simplify_eq. }
  apply res_bind_ok in Ha as (s1 & _ & Ha). apply res_bind_ok in Ha as ([t1 s2] & H1 & Ha).
  apply Ok_inj in Ha. simplify_eq. simpl. f_equal. by eapply IH.
Qed.

Lemma conflict_ok {A} (r : res A) a : conflict r = Ok a → r = Ok a.
Proof. by destruct r. Qed.

(** Replaying the recorded generated actions repeats their preparation. *)
Lemma replay_generated_prepared c p st (actions : list (GraphOperation * nat)) pre t st' :
  stages_like p c → p_ops c = pre ++ actions.*1 →
  apply_generated (length pre) st p actions = Ok (t, st') →
  replay_generated st c (imap (λ i g, generated_action (length pre + i) g.2) actions) = Ok (t, st').
Proof.
  intros Hl. revert pre st t st'. induction actions as [|[op k] actions IH]; intros pre st t st' Hc Ha; [done|].
  cbn [apply_generated] in Ha. apply res_bind_ok in Ha as (s1 & H1%conflict_ok & Ha).
  apply res_bind_ok in Ha as ([t1 s2] & H2 & Ha). apply Ok_inj in Ha. simplify_eq.
  rewrite imap_cons. cbn [replay_generated]. simpl tga_operation_index. rewrite Nat.add_0_r.
  rewrite Hc. simpl. rewrite list_lookup_middle by done. simpl.
  rewrite <-(apply_generated_operation_like p c) by done. rewrite H1. simpl.
  rewrite (imap_ext _ (λ i g, generated_action (length (pre ++ [op]) + i) g.2)).
  2: { intros. simpl. f_equal. rewrite length_app. simpl. lia. }
  rewrite (IH (pre ++ [op]) s1 t1 s2); [done| |].
  - by rewrite <-app_assoc.
  - rewrite length_app. simpl. by rewrite Nat.add_1_r.
Qed.
End timelines.

(** ** Guidance actions *)

Section guidance.
Implicit Types (st : GraphState) (e : ExperimentNode).

(** Every recorded cause is an action index, in a table of causes. *)
Definition causes_below {K} `{Countable K} (n : nat) (m : gmap K nat) : Prop :=
  map_Forall (λ _ i, i < n) m.

Lemma dependency_causes_below n t m :
  (∀ i, i ∈ timeline_indexes t → i < n) → _dependency_change_causes t = Ok m → causes_below n m.
Proof.
  intros Ht. unfold _dependency_change_causes. apply res_fold_inv; [|apply map_Forall_empty].
  intros m1 [[i b] a] m2 Hin Hm1. apply res_fold_inv; [|exact Hm1].
  intros m3 id m4 _ Hm3 Hc. apply res_bind_ok in Hc as ([] & _ & Hc); apply Ok_inj in Hc; subst m4; [|done].
  unfold setdefault. destruct (m3 !! id); [done|]. apply map_Forall_insert_2; [|done].
  apply Ht. unfold timeline_indexes. by apply (list_elem_of_fmap_2 (λ x, x.1.1)) in Hin.
Qed.

Lemma foldl_inv {A B} (P : A → Prop) (f : A → B → A) l a :
  (∀ a b, b ∈ l → P a → P (f a b)) → P a → P (foldl f a l).
Proof.
  revert a. induction l as [|b l IH]; intros a Hf Ha; simpl; [done|].
  apply IH; [|apply Hf; [by left|done]]. intros ???. apply Hf. by right.
Qed.

Lemma explicit_updates_below actions :
  causes_below (length actions) (_explicit_guidance_updates actions).
Proof.
  unfold _explicit_guidance_updates. apply foldl_inv; [|apply map_Forall_empty].
  intros m [i [p op]] Hin Hm. apply elem_of_lookup_imap in Hin as (j & x & [= <- <-] & Hj).
  apply lookup_lt_Some in Hj. destruct op; try done.
  apply foldl_inv; [|done]. intros m2 u _ Hm2. apply foldl_inv; [|done].
  intros m3 f _ Hm3. destruct (is_some _); [|done]. by apply map_Forall_insert_2.
Qed.

(** The flag changes of one Experiment: non-empty booleans on the two flags,
    caused by earlier actions. *)
Definition changes_shape (n : nat) (m : gmap nat (gmap string pyval)) : Prop :=
  map_Forall (λ cause changes, cause < n ∧ guidance_changes_ok changes = true) m.

Lemma guidance_changes_ok_insert changes f b :
  changes = ∅ ∨ guidance_changes_ok changes = true →
  guidance_changes_ok (<[stale_field f := PBool b]> changes) = true.
Proof.
  intros Hc. unfold guidance_changes_ok. apply andb_true_iff. split.
  { apply negb_true_iff, bool_decide_eq_false. apply insert_non_empty. }
  rewrite forallb_forall. intros [k v] Hin%list_elem_of_In%elem_of_map_to_list.
  destruct (decide (stale_field f = k)) as [<-|Hne].
  - rewrite lookup_insert_eq in Hin. simplify_eq. by destruct f.
  - rewrite lookup_insert_ne in Hin by done. destruct Hc as [->|Hc]; [by rewrite lookup_empty in Hin|].
    apply andb_true_iff in Hc as [_ Hc]. rewrite forallb_forall in Hc. apply Hc.
    by apply list_elem_of_In, elem_of_map_to_list.
Qed.

Lemma changes_by_cause_shape n e inv ex :
  (∀ c, inv = Some c → c < n) → (∀ f c, ex f = Some c → c < n) →
  changes_shape n (changes_by_cause e inv ex).
Proof.
  intros Hinv Hex. unfold changes_by_cause. apply foldl_inv; [|apply map_Forall_empty].
  intros m f _ Hm. unfold stale_change.
  destruct (desired_flag e inv (ex f) f) as [[desired cause]|] eqn:Hd; [|done].
  destruct (eqb _ _); [done|].
  assert (cause < n) as Hcause.
  { unfold desired_flag in Hd. destruct inv as [c|]; [|destruct (ex f) as [c|] eqn:?];
      simplify_eq/=; eauto. }
  apply map_Forall_insert_2; [|done]. split; [done|]. apply guidance_changes_ok_insert.
  destruct (m !! cause) as [ch|] eqn:Hch; simpl; [right|by left]. by apply (Hm _ _ Hch).
Qed.

Lemma guidance_actions_shape n st causes explicit op c :
  causes_below n causes → causes_below n explicit →
  (op, c) ∈ _guidance_actions st causes explicit →
  c < n ∧ _validate_guidance_operation op = true.
Proof.
  intros Hc He Hin. unfold _guidance_actions in Hin.
  apply list_elem_of_bind in Hin as (id & Hin & _).
  destruct (get_experiment st id) as [e|]; [|by apply elem_of_nil in Hin].
  apply list_elem_of_omap in Hin as (k & _ & Hk). apply fmap_Some in Hk as (changes & Hk & Heq).
  simplify_eq. assert (k < n ∧ guidance_changes_ok changes = true) as [Hlt Hok].
  { eapply changes_by_cause_shape; [..|exact Hk].
    - intros c' Hc'. exact (Hc _ _ Hc').
    - intros f c' Hc'. exact (He _ _ Hc'). }
  split; [done|]. simpl. by rewrite Hok.
Qed.
End guidance.

(** ** Events *)

Section events.
Context `{CanonicalHash}.

Lemma made_events_ok tid n known k l :
  (∀ e, e ∈ l → pe_cause e < n) →
  events_ok tid n known k (imap (λ i, make_event tid (k + i)) l) = true.
Proof.
  revert known k. induction l as [|e l IH]; intros known k Hl; [done|]. rewrite imap_cons.
  cbn [events_ok]. apply andb_true_iff. split.
  - rewrite Nat.add_0_r. cbn. apply andb_true_iff. split; [apply Nat.ltb_lt, Hl; by left|].
    unfold str_eqb. by rewrite bool_decide_eq_true_2.
  - rewrite (imap_ext _ (λ i, make_event tid (S k + i))); [|intros; simpl; f_equal; lia].
    apply IH. intros. apply Hl. by right.
Qed.

Lemma status_events_cause t e i :
  e ∈ t ≫= status_events → (∀ j, j ∈ timeline_indexes t → j < i) → pe_cause e < i.
Proof.
  intros ([[j b] a] & He & Ht)%list_elem_of_bind Hi. unfold status_events in He.
  apply list_elem_of_bind in He as (id & He & _). case_decide; [by apply elem_of_nil in He|].
  apply list_elem_of_singleton in He as ->. simpl. apply Hi.
  by apply (list_elem_of_fmap_2 (λ x, x.1.1)) in Ht.
Qed.

Lemma elem_of_concat {A} (x : A) ls : x ∈ concat ls ↔ ∃ l, l ∈ ls ∧ x ∈ l.
Proof.
  rewrite list_elem_of_In, in_concat. split; intros (l & H1 & H2); exists l;
    [rewrite !list_elem_of_In|rewrite <-!list_elem_of_In]; done.
Qed.

Lemma Forall2_elem_r {A B} (R : A → B → Prop) l l' y :
  Forall2 R l l' → y ∈ l' → ∃ x, x ∈ l ∧ R x y.
Proof.
  induction 1 as [|a b l l' Hab _ IH]; [by intros ?%elem_of_nil|].
  intros [->|Hy]%elem_of_cons; [exists a; split; [by left|done]|].
  destruct (IH Hy) as (x & Hx & Hr). exists x. split; [by right|done].
Qed.

Lemma generated_events_cause ops t g e i :
  res_map (generated_events ops) t = Ok g → e ∈ concat g →
  (∀ j, j ∈ timeline_indexes t → j < i) → pe_cause e < i.
Proof.
  intros Hg%res_map_Forall2 (l & Hl & He)%elem_of_concat Hi.
  destruct (Forall2_elem_r _ _ _ _ Hg Hl) as ([[j b] a] & Hin & Hev).
  apply (list_elem_of_fmap_2 (λ x, x.1.1)), Hi in Hin. simpl in Hin.
  unfold generated_events in Hev. destruct (ops !! j) as [[]|]; try done.
  apply res_bind_ok in Hev as (es & Hes%res_map_Forall2 & Heq). apply Ok_inj in Heq as <-.
  apply elem_of_concat in He as (l' & Hl' & He).
  destruct (Forall2_elem_r _ _ _ _ Hes Hl') as (u & _ & Hu%res_map_Forall2).
  destruct (Forall2_elem_r _ _ _ _ Hu He) as (f & _ & Hf). unfold guidance_event in Hf.
  apply res_bind_ok in Hf as (old & _ & Hf). apply res_bind_ok in Hf as (new & _ & Hf).
  by apply Ok_inj in Hf as <-.
Qed.

Lemma lifecycle_events_ok tid t g ops n events :
  _lifecycle_events tid t g ops = Ok events →
  (∀ j, j ∈ timeline_indexes t → j < n) → (∀ j, j ∈ timeline_indexes g → j < n) →
  events_ok tid n ∅ 0 events = true.
Proof.
  unfold _lifecycle_events. intros Hl Ht Hg. apply res_bind_ok in Hl as (ge & Hge & Hl).
  apply Ok_inj in Hl as <-. apply (made_events_ok tid n ∅ 0).
  intros e [He|He]%elem_of_app; [by eapply status_events_cause|by eapply generated_events_cause].
Qed.
End events.

(** ** What trace validation checks *)

Section checked.
Context `{NodeAdapter, CanonicalHash}.
Implicit Types (p : Patch) (st : GraphState).

Record valid_trace st p tr (sources : list Patch) : Prop := {
  vt_head : head_revision (tt_pre_head tr) = gs_revision st;
  vt_ops : _operations_sha256 (p_ops p) = tt_expanded_ops_sha256 tr;
  vt_references : references_ok (tt_initiating_groups tr ≫= tig_operation_indexes)
                    (tga_operation_index <$> tt_generated_actions tr) (length (p_ops p)) = true;
  vt_sources : sources = _source_patch_for_group p <$> tt_initiating_groups tr;
  vt_actions : source_actions sources ≠ [];
  vt_id : _transition_id (tt_pre_head tr) sources (tt_initiating_groups tr)
            (source_actions sources) (tt_ruleset_tag tr) (tt_generated_actions tr) =
          tt_transition_id tr;
  vt_generated : forallb (generated_action_ok (p_ops p)) (tt_generated_actions tr) = true;
  vt_replay : ∃ t g, replay_trace st p tr (source_actions sources) = Ok (t, g) ∧
    _lifecycle_events (tt_transition_id tr) t g (p_ops p) = Ok (tt_lifecycle_events tr);
  vt_events : events_ok (tt_transition_id tr) (length (p_ops p)) ∅ 0 (tt_lifecycle_events tr) = true }.

Lemma str_eqb_eq a b : str_eqb a b = true ↔ a = b.
Proof. apply bool_decide_eq_true. Qed.

Lemma validate_transition_trace_iff st p sources :
  validate_transition_trace st p = Ok sources ↔
  ∃ tr, p_transition p = Some tr ∧ valid_trace st p tr sources.
Proof.
  unfold validate_transition_trace. split.
  - destruct (p_transition p) as [tr|]; [|done]. intros Hv.
    apply res_bind_ok in Hv as (u1 & H1%require_ok%Z.eqb_eq & Hv).
    apply res_bind_ok in Hv as (u2 & H2%require_ok%str_eqb_eq & Hv).
    apply res_bind_ok in Hv as (u3 & H3%require_ok & Hv).
    apply res_bind_ok in Hv as (u4 & H4%require_ok & Hv).
    apply res_bind_ok in Hv as (u5 & H5%require_ok%str_eqb_eq & Hv).
    apply res_bind_ok in Hv as (u6 & H6%require_ok & Hv).
    apply res_bind_ok in Hv as ([t g] & H7 & Hv). apply res_bind_ok in Hv as (ev & H8 & Hv).
    apply res_bind_ok in Hv as (u7 & H9%require_ok%bool_decide_eq_true & Hv). subst ev.
    apply res_bind_ok in Hv as (u8 & H10%require_ok & Hv). apply Ok_inj in Hv as <-.
    exists tr. split; [done|]. constructor; try done.
    + intros Hn. by rewrite Hn in H4.
    + exists t, g. split; [|done]. by destruct (replay_trace _ _ _ _).
  - intros (tr & -> & []). destruct vt_replay0 as (t & g & Hr & He). subst sources.
    rewrite vt_head0, Z.eqb_refl, vt_ops0, vt_references0, vt_id0, vt_generated0, Hr.
    rewrite !(proj2 (str_eqb_eq _ _)) by done. destruct (is_nil _) eqn:Hn.
    { by destruct (source_actions _). }
    cbn [negb require mbind res_bind as_value_error fst snd]. rewrite He.
    cbn [mbind res_bind]. rewrite bool_decide_eq_true_2 by done. cbn [require].
    cbn [mbind res_bind]. by rewrite vt_events0.
Qed.
End checked.

(** ** The round trip *)

Lemma fmap_snd_app {A B} (l l' : list (A * B)) : (l ++ l').*2 = l.*2 ++ l'.*2.
Proof. apply fmap_app. Qed.

(** The trace of a prepared transition. *)
Section prepared.
Context `{NodeAdapter, CanonicalHash}.
Implicit Types (p : Patch) (st : GraphState).

(** What a successful preparation did. *)
Record prepared (k : nat) (st : GraphState) (first : Patch) (rest : list Patch)
    (head : GraphHeadRef) (r : PreparedTransition) (t g : timeline)
    (generated : list (GraphOperation * nat)) (final : GraphState)
    (events : list TransitionEvent) (tr : TransitionTrace) : Prop := {
  pre_revision : ∀ p, p ∈ first :: rest → p_revision p = p_revision first;
  pre_next : (gs_revision st < p_revision first)%Z;
  pre_plain : ∀ p, p ∈ first :: rest → p_transition p = None;
  pre_head_revision : head_revision head = gs_revision st;
  pre_actions : source_actions (first :: rest) ≠ [];
  pre_closure : transition_closure k st first (source_actions (first :: rest)) =
                  Ok (t, g, generated, final);
  pre_trace_head : tt_pre_head tr = head;
  pre_trace_tag : tt_ruleset_tag tr = TRANSITION_RULESET_TAG;
  pre_trace_groups : tt_initiating_groups tr = initiating_groups 0 0 (first :: rest);
  pre_trace_generated : tt_generated_actions tr =
    imap (λ i g, generated_action (length (source_actions (first :: rest)) + i) g.2) generated;
  pre_trace_id : tt_transition_id tr =
    _transition_id head (first :: rest) (tt_initiating_groups tr)
      (source_actions (first :: rest)) TRANSITION_RULESET_TAG (tt_generated_actions tr);
  pre_trace_ops : tt_expanded_ops_sha256 tr =
    _operations_sha256 ((source_actions (first :: rest)).*2 ++ generated.*1);
  pre_trace_events : tt_lifecycle_events tr = events;
  pre_events : _lifecycle_events (tt_transition_id tr) t g
                 ((source_actions (first :: rest)).*2 ++ generated.*1) = Ok events;
  pre_combined : _combined_patch first rest
                   ((source_actions (first :: rest)).*2 ++ generated.*1) tr = Ok (prt_patch r);
  pre_persisted : apply_valid_patch st (prt_patch r) = Ok (ptp_graph (prt_projection r));
  pre_equal : state_eqb (ptp_graph (prt_projection r)) final = true }.

Lemma projection_graph st tr c proj : project_transition_projection st tr c = Ok proj → ptp_graph proj = st.
Proof.
  unfold project_transition_projection, _project_projection. intros Hp.
  apply res_bind_ok in Hp as (a & _ & Hp). apply res_bind_ok in Hp as (b & _ & Hp).
  by apply Ok_inj in Hp as <-.
Qed.

Lemma prepare_prepared k st ps h r :
  prepare_validated k st ps h = Ok r →
  ∃ first rest head t g generated final events tr, ps = first :: rest ∧
    prepared k st first rest head r t g generated final events tr.
Proof.
  unfold prepare_validated. destruct ps as [|first rest]; [done|].
  remember (first :: rest) as ps eqn:Hps. intros Hp.
  apply res_bind_ok in Hp as (u1 & H1%require_ok & Hp). clear u1.
  apply res_bind_ok in Hp as (u2 & H2%require_ok & Hp). clear u2.
  apply res_bind_ok in Hp as (u3 & _ & Hp). clear u3.
  apply res_bind_ok in Hp as (u4 & H4%require_ok & Hp). clear u4.
  apply res_bind_ok in Hp as (u5 & H5%require_ok & Hp). clear u5.
  apply res_bind_ok in Hp as ([[[t g] generated] final] & H6 & Hp).
  apply res_bind_ok in Hp as (events & H7 & Hp). apply res_bind_ok in Hp as (c & H8 & Hp).
  apply res_bind_ok in Hp as (st' & H9 & Hp). destruct (state_eqb st' final) eqn:H10; [|done].
  apply res_bind_ok in Hp as (proj & H11 & Hp). apply Ok_inj in Hp as <-.
  apply negb_true_iff, orb_false_iff in H1 as [H1a H1b].
  rewrite existsb_false in H1b. apply negb_true_iff in H2. rewrite existsb_false in H2.
  exists first, rest. do 6 eexists. eexists {| tt_transition_id := _ |}. split; [done|]. subst ps.
  constructor; cbn [tt_transition_id tt_pre_head tt_ruleset_tag tt_initiating_groups tt_generated_actions
    tt_lifecycle_events tt_expanded_ops_sha256 prt_patch prt_projection]; try done.
  - intros p Hp. specialize (H1b p Hp). lia.
  - lia.
  - intros p Hp. specialize (H2 p Hp). by destruct (p_transition p).
  - lia.
  - intros Hn. rewrite Hn in H5. done.
  - by rewrite (projection_graph _ _ _ _ H11).
  - by rewrite (projection_graph _ _ _ _ H11).
Qed.

Lemma transition_closure_inv k st first actions t g generated final :
  transition_closure k st first actions = Ok (t, g, generated, final) →
  ∃ init causes, _apply_timeline st actions = Ok (t, init) ∧
    _dependency_change_causes t = Ok causes ∧
    generated = _guidance_actions init causes (_explicit_guidance_updates actions) ∧
    apply_generated (length actions) init first generated = Ok (g, final).
Proof.
  unfold transition_closure. intros Hc. apply res_bind_ok in Hc as ([t' init] & H1 & Hc).
  apply res_bind_ok in Hc as (causes & H2 & Hc). cbn [fst snd] in *.
  destruct (_ <? _)%nat; [done|]. apply res_bind_ok in Hc as ([g' f'] & H3 & Hc).
  apply Ok_inj in Hc. simplify_eq. by exists init, causes.
Qed.

(** The references of the trace satisfy every structural check. *)
Lemma prepared_generated_ok k st first actions t g generated final (ops : list GraphOperation) :
  transition_closure k st first actions = Ok (t, g, generated, final) →
  length ops = length actions →
  forallb (generated_action_ok (ops ++ generated.*1))
    (imap (λ i g, generated_action (length actions + i) g.2) generated) = true.
Proof.
  intros (init & causes & Ht & Hc & Hg & _)%transition_closure_inv Hlen.
  rewrite forallb_forall. intros a Ha%list_elem_of_In.
  apply elem_of_lookup_imap in Ha as (i & [op c] & -> & Hi).
  assert (c < length actions ∧ _validate_guidance_operation op = true) as [Hlt Hok].
  { apply (guidance_actions_shape _ init causes (_explicit_guidance_updates actions)).
    - eapply dependency_causes_below; [|exact Hc].
      rewrite (apply_timeline_indexes _ _ _ _ Ht). intros j Hj%elem_of_seq. lia.
    - apply explicit_updates_below.
    - rewrite <-Hg. by eapply list_elem_of_lookup_2. }
  unfold generated_action_ok. simpl. rewrite (proj2 (Nat.ltb_lt _ _)) by lia. simpl.
  rewrite lookup_app_r by lia. replace (length actions + i - length ops) with i by lia.
  rewrite list_lookup_fmap, Hi. done.
Qed.

Lemma recovered_like c first p ps :
  one_producer first ps → p ∈ ps → producer_envelope c = producer_envelope first →
  p_created_at c = p_created_at first → p_revision c = p_revision p →
  stages_like (recovered c p) p.
Proof.
  intros [_ Henv _ _ Hdate] Hp Hc Hcr Hrev.
  destruct (envelope_fields c first Hc) as (Hc1 & Hc2 & Hc3 & Hc4 & _).
  destruct (envelope_fields p first (Henv p Hp)) as (Hp1 & Hp2 & Hp3 & Hp4 & _).
  constructor; cbn; try congruence. rewrite Hc2. intros Hk. rewrite Hcr. symmetry. by apply Hdate.
Qed.

Lemma recovered_actions_like c ps :
  (∀ p, p ∈ ps → stages_like (recovered c p) p ∧ p_transition p = None) →
  Forall2 (λ a b, a.2 = b.2 ∧ stages_like a.1 b.1 ∧ p_transition a.1 = None ∧
    p_transition b.1 = None) (source_actions (recovered c <$> ps)) (source_actions ps).
Proof.
  intros Hall. unfold source_actions. rewrite list_fmap_bind. apply Forall2_bind.
  apply Forall_Forall2_diag, Forall_forall. intros p Hp. destruct (Hall p Hp) as [Hl Ht].
  apply Forall2_fmap_2, Forall_Forall2_diag, Forall_forall. by intros op _.
Qed.

Lemma generated_indexes_seq n (l : list (GraphOperation * nat)) :
  tga_operation_index <$> imap (λ i g, generated_action (n + i) g.2) l = seq n (length l).
Proof.
  rewrite fmap_imap. revert n. induction l as [|x l IH]; intros n; [done|]. rewrite imap_cons. simpl.
  f_equal; [lia|]. rewrite <-IH. apply imap_ext. intros. simpl. lia.
Qed.

Lemma prepared_round_trip k st ps h r :
  prepare_validated k st ps h = Ok r →
  (∀ first, head ps = Some first → one_producer first ps) →
  validate_transition_trace st (prt_patch r) = Ok (recovered (prt_patch r) <$> ps) ∧
  apply_valid_patch st (prt_patch r) = Ok (ptp_graph (prt_projection r)).
Proof.
  intros (first & rest & hd & t & g & generated & final & events & tr & -> & Hp)%prepare_prepared Hone.
  specialize (Hone first eq_refl). destruct Hp.
  split; [|done]. set (ps := first :: rest) in *. set (c := prt_patch r) in *.
  destruct (combined_envelope _ _ _ _ _ Hone pre_combined0) as (Henv & Hops & Htr & Hrev & Hcr).
  set (actions := source_actions ps) in *.
  assert (length (actions.*2) = length actions) as Hlen by apply length_fmap.
  destruct (transition_closure_inv _ _ _ _ _ _ _ _ pre_closure0) as (init & causes & Ht & _ & _ & Hg).
  assert (_source_patch_for_group c <$> tt_initiating_groups tr = recovered c <$> ps) as Hsrc.
  { rewrite pre_trace_groups0. apply (groups_sources c ps [] (generated.*1) 0); [apply Hone|].
    rewrite Hops. unfold actions. by rewrite source_actions_ops. }
  assert ((source_actions (recovered c <$> ps)).*2 = actions.*2) as Hact.
  { unfold actions. rewrite !source_actions_ops. by rewrite list_fmap_bind. }
  assert (Forall2 (λ a b, a.2 = b.2 ∧ stages_like a.1 b.1 ∧ p_transition a.1 = None ∧
    p_transition b.1 = None) (source_actions (recovered c <$> ps)) actions) as Hlike.
  { apply recovered_actions_like. intros p Hp. split; [|by apply pre_plain0].
    eapply recovered_like; [done..|]. rewrite Hrev. symmetry. by apply pre_revision0. }
  assert (source_actions (recovered c <$> ps) ≠ []) as Hne.
  { intros Hn. apply pre_actions0. destruct Hlike; done. }
  assert (length (p_ops c) = length actions + length generated) as Hn
    by by rewrite Hops, length_app, !length_fmap.
  apply validate_transition_trace_iff. exists tr. split; [done|].
  assert (timeline_indexes t = seq 0 (length actions)) as Hti by by eapply apply_timeline_indexes.
  assert (timeline_indexes g = seq (length actions) (length generated)) as Hgi
    by by eapply apply_generated_indexes.
  constructor.
  - by rewrite pre_trace_head0.
  - by rewrite Hops, pre_trace_ops0.
  - rewrite pre_trace_groups0, groups_indexes, pre_trace_generated0, Hn.
    rewrite <-source_actions_length. fold actions. rewrite generated_indexes_seq.
    apply references_ok_seq. intros ?%nil_length_inv. done.
  - by rewrite Hsrc.
  - done.
  - rewrite pre_trace_id0, pre_trace_head0, pre_trace_tag0. unfold _transition_id.
    rewrite Hact, <-list_fmap_compose. do 2 f_equal. apply list_fmap_ext. intros i p Hi. simpl.
    rewrite recovered_envelope, Henv. symmetry. apply Hone. by eapply list_elem_of_lookup_2.
  - rewrite pre_trace_generated0, Hops. by eapply prepared_generated_ok.
  - exists t, g. split; [|by rewrite pre_trace_events0, Hops].
    unfold replay_trace. rewrite (apply_timeline_like st _ actions) by done. rewrite Ht.
    cbn [mbind res_bind fst snd]. rewrite pre_trace_generated0. fold actions. rewrite <-Hlen in Hg |- *.
    rewrite (replay_generated_prepared c first init generated (actions.*2) g final); [done| |done|done].
    destruct (envelope_fields c first Henv) as (?&?&?&?&_). by constructor.
  - rewrite pre_trace_events0. eapply lifecycle_events_ok; [exact pre_events0|..];
      rewrite ?Hti, ?Hgi, Hn; intros j Hj%elem_of_seq; lia.
Qed.

(** C3: a prepared transition survives its own replay. Take initiating Patches of
    one producer ([one_producer]): none is empty, they share the whole envelope, its
    scopes name no repository twice, and a seed or a refresh has one date. If they
    are closed and prepared, the trace check on the committed Patch succeeds and
    recovers exactly the initiating Patches, group by group, and applying the
    committed Patch yields the projected graph. The code does not check all of these
    conditions itself, and without them the trace of a committed Patch may not be
    recoverable. *)
Theorem prepared_transition_round_trip k st ps h r :
  prepare_validated k st ps h = Ok r →
  (∀ first, head ps = Some first → one_producer first ps) →
  validate_transition_trace st (prt_patch r) = Ok (recovered (prt_patch r) <$> ps) ∧
  apply_valid_patch st (prt_patch r) = Ok (ptp_graph (prt_projection r)).
Proof. apply prepared_round_trip. Qed.
End prepared.
