(* ===== verification/Guidance.v ===== *)
(** What the lifecycle rules leave behind: the staleness flag of every guidance
    field after closure; and what the recorded digests and heads bind. *)

From S2P Require Export Closure.

(** ** The flags of one Experiment *)

Section flags.
Implicit Types (e : ExperimentNode) (f : GuidanceField).

(** The flag a field ends with. *)
Definition target_flag e (invalidation : option nat) (explicit : GuidanceField → option nat) f : bool :=
  match desired_flag e invalidation (explicit f) f with
  | Some (b, _) => b
  | None => guidance_stale f e
  end.

(** Some generated change writes [v] to the flag of [f]. *)
Definition writes (m : gmap nat (gmap string pyval)) f (v : pyval) : Prop :=
  ∃ c ch, m !! c = Some ch ∧ ch !! stale_field f = Some v.

Lemma stale_field_inj f f' : stale_field f = stale_field f' → f = f'.
Proof. by destruct f, f'. Qed.

Lemma stale_change_other e inv ex m f f' v :
  f ≠ f' → writes (stale_change e inv ex m f') f v ↔ writes m f v.
Proof.
  intros Hne. unfold stale_change. destruct (desired_flag e inv (ex f') f') as [[b c]|]; [|done].
  destruct (eqb _ _); [done|].
  assert (stale_field f' ≠ stale_field f) as Hsf by (intros ?%stale_field_inj; congruence).
  unfold writes. split.
  - intros (c' & ch & Hc & Hch). destruct (decide (c = c')) as [<-|Hcc].
    + rewrite lookup_insert_eq in Hc. simplify_eq. rewrite lookup_insert_ne in Hch by done.
      destruct (m !! c) as [ch|] eqn:Hm; simpl in Hch; [by exists c, ch|]. by rewrite lookup_empty in Hch.
    + rewrite lookup_insert_ne in Hc by done. by exists c', ch.
  - intros (c' & ch & Hc & Hch). destruct (decide (c = c')) as [<-|Hcc].
    + eexists c, _. rewrite lookup_insert_eq. split; [done|]. rewrite lookup_insert_ne by done.
      by rewrite Hc.
    + exists c', ch. by rewrite lookup_insert_ne.
Qed.

Lemma stale_change_same e inv ex m f v :
  (∀ w, ¬ writes m f w) →
  writes (stale_change e inv ex m f) f v ↔
    guidance_stale f e ≠ target_flag e inv ex f ∧ v = PBool (target_flag e inv ex f).
Proof.
  intros Hm. unfold stale_change, target_flag.
  destruct (desired_flag e inv (ex f) f) as [[b c]|]; [|split; [by intros ?%Hm|by intros []]].
  destruct (eqb (guidance_stale f e) b) eqn:Hb.
  { apply eqb_prop in Hb. split; [by intros ?%Hm|by intros []]. }
  apply eqb_false_iff in Hb. split.
  - intros (c' & ch & Hc & Hch). split; [done|]. destruct (decide (c = c')) as [<-|Hcc].
    + rewrite lookup_insert_eq in Hc. simplify_eq. rewrite lookup_insert_eq in Hch. congruence.
    + rewrite lookup_insert_ne in Hc by done. exfalso. apply (Hm v). by exists c', ch.
  - intros [_ ->]. eexists c, _. rewrite lookup_insert_eq. split; [done|]. by rewrite lookup_insert_eq.
Qed.

(** The changes of an Experiment write exactly the flags that must move. *)
Lemma changes_write e inv ex f v :
  writes (changes_by_cause e inv ex) f v ↔
    guidance_stale f e ≠ target_flag e inv ex f ∧ v = PBool (target_flag e inv ex f).
Proof.
  assert (∀ f w, ¬ writes ∅ f w) as He by (intros ?? (? & ? & Hc & _); by rewrite lookup_empty in Hc).
  unfold changes_by_cause. cbn [foldl]. destruct f.
  - rewrite stale_change_other by done. by apply stale_change_same.
  - apply stale_change_same. intros w. rewrite stale_change_other by done. apply He.
Qed.

(** Writing flags in sequence. *)
Definition write_flag f (b : bool) (ch : gmap string pyval) : bool :=
  match ch !! stale_field f with Some (PBool b') => b' | _ => b end.

Lemma write_flags_same f b l :
  (∀ ch v, ch ∈ l → ch !! stale_field f = Some v → v = PBool b) → foldl (write_flag f) b l = b.
Proof.
  induction l as [|ch l IH]; intros Hl; simpl; [done|].
  assert (write_flag f b ch = b) as ->.
  { unfold write_flag. destruct (ch !! stale_field f) as [v|] eqn:Hv; [|done].
    by rewrite (Hl ch v); [|left|]. }
  apply IH. intros. eapply Hl; [by right|done].
Qed.

Lemma write_flags_target f b b' l :
  (∀ ch v, ch ∈ l → ch !! stale_field f = Some v → v = PBool b') →
  (b = b' ∨ ∃ ch, ch ∈ l ∧ is_Some (ch !! stale_field f)) → foldl (write_flag f) b l = b'.
Proof.
  revert b. induction l as [|ch l IH]; intros b Hl Hor.
  { by destruct Hor as [->|(? & ?%elem_of_nil & _)]. }
  destruct Hor as [->|(ch' & Hin & Hs)]; [by apply write_flags_same|]. simpl.
  apply IH; [intros; eapply Hl; [by right|done]|]. apply elem_of_cons in Hin as [->|Hin]; [left|right].
  - destruct Hs as [v Hv]. unfold write_flag. rewrite Hv. by rewrite (Hl ch v); [|left|].
  - by exists ch'.
Qed.

(** The changes of one Experiment in the order they are applied. *)
Definition ordered_changes (m : gmap nat (gmap string pyval)) : list (gmap string pyval) :=
  omap (λ c, m !! c) (merge_sort le (elements (dom m))).

Lemma elem_of_ordered_changes m ch : ch ∈ ordered_changes m ↔ ∃ c, m !! c = Some ch.
Proof.
  unfold ordered_changes. rewrite list_elem_of_omap. split; [intros (c & _ & Hc); eauto|].
  intros [c Hc]. exists c. split; [|done]. rewrite merge_sort_Permutation, elem_of_elements.
  by apply elem_of_dom_2 in Hc.
Qed.

Lemma ordered_changes_flag e inv ex f :
  foldl (write_flag f) (guidance_stale f e) (ordered_changes (changes_by_cause e inv ex)) =
  target_flag e inv ex f.
Proof.
  apply write_flags_target.
  - intros ch v (c & Hc)%elem_of_ordered_changes Hv.
    assert (writes (changes_by_cause e inv ex) f v) as Hw by by exists c, ch.
    by apply changes_write in Hw as [_ ->].
  - destruct (decide (guidance_stale f e = target_flag e inv ex f)) as [|Hne]; [by left|right].
    assert (writes (changes_by_cause e inv ex) f (PBool (target_flag e inv ex f))) as (c & ch & Hc & Hv)
      by by apply changes_write.
    exists ch. split; [by apply elem_of_ordered_changes; eauto|eauto].
Qed.
End flags.

(** ** Staging generated actions *)

Section staged.
Context `{NodeAdapterLaws}.
Implicit Types (p : Patch) (st : GraphState).

Lemma flag_of_document f e n d :
  accepts d n → as_experiment n = Some e → ∀ b, dget d (stale_field f) = Some (PBool b) →
  guidance_stale f e = b.
Proof. intros Ha He b Hb. destruct f; [by eapply acc_summary_stale|by eapply acc_action_stale]. Qed.

Lemma dump_flag f n e :
  as_experiment n = Some e → dget (node_dump n) (stale_field f) = Some (PBool (guidance_stale f e)).
Proof. destruct n as [b []]; intros [= <-]. by destruct f. Qed.

(** An update of staleness flags writes the flags it names and no other. *)
Lemma updated_flags p g n changes n' e f :
  as_experiment n = Some e → guidance_changes_ok changes = true →
  touches changes (immutable_fields p g) = false →
  (validate_python (updated_node_data p n changes) = Ok n' ∨
   strict_project_node (updated_node_data p n changes) = Ok n') →
  ∃ e', as_experiment n' = Some e' ∧ guidance_stale f e' = write_flag f (guidance_stale f e) changes.
Proof.
  intros He Hok Ht Hv. destruct (updated_node_ok p g n changes n' Ht Hv) as [Hs _].
  assert (∃ e', as_experiment n' = Some e') as [e' He'].
  { pose proof (si_type _ _ Hs) as Hty. unfold as_experiment, node_type in *.
    destruct (node_payload n), (node_payload n'); simplify_eq/=; eauto. }
  exists e'. split; [done|].
  assert (accepts (updated_node_data p n changes) n') as Hacc
    by (destruct Hv as [Hv|Hv]; [by apply validate_python_accepts|by apply strict_project_node_accepts]).
  apply (flag_of_document _ _ _ _ Hacc He'). unfold updated_node_data.
  rewrite !dget_dset_ne by by destruct f. rewrite dget_dupdate. unfold write_flag.
  destruct (changes !! stale_field f) as [v|] eqn:Hc; [|by apply dump_flag].
  apply andb_true_iff in Hok as [_ Hok]. rewrite forallb_forall in Hok.
  specialize (Hok (stale_field f, v)). simpl in Hok. apply andb_true_iff in Hok as [_ Hb].
  - by destruct v.
  - by apply list_elem_of_In, elem_of_map_to_list.
Qed.

(** One generated action: the flags of its Experiment, and nothing else. *)
Lemma generated_operation_flags st p id changes st' e :
  graph_wf st → get_experiment st id = Some e → guidance_changes_ok changes = true →
  apply_transition_generated_operation st p (guidance_update id changes) = Ok st' →
  graph_wf st' ∧ (∀ k, k ≠ id → gs_nodes st' !! k = gs_nodes st !! k) ∧
  ∀ f, ∃ e', get_experiment st' id = Some e' ∧
             guidance_stale f e' = write_flag f (guidance_stale f e) changes.
Proof.
  intros Hwf He Hok Ha. unfold apply_transition_generated_operation in Ha.
  apply res_bind_ok in Ha as ([s ds] & Ha & [= <-]).
  assert (graph_wf s) as Hws.
  { apply apply_patch_steps in Ha as (mid & _ & Hm & ->); [|done].
    destruct (relayer_created_wf (applied_edges (with_ops p [guidance_update id changes])) mid Hm).
    by constructor. }
  split; [by destruct Hws; constructor|].
  unfold _apply_patch in Ha. cbn [imap res_fold with_ops p_ops] in Ha.
  apply res_bind_ok in Ha as (b & Hb & Ha). apply res_bind_ok in Hb as (b' & Hb & Hbb).
  apply Ok_inj in Hbb. subst b'. apply Ok_inj in Ha. injection Ha as <- _.
  unfold guidance_update in Hb. simpl in Hb. unfold apply_update_node in Hb. simpl in Hb.
  unfold get_experiment in He. unfold get_item in Hb.
  destruct (gs_nodes st !! id) as [n|] eqn:Hn; [|done]. simpl in He, Hb.
  destruct (negb _) eqn:Ht; [|done]. apply negb_true_iff in Ht. cbn [require mbind res_bind] in Hb.
  destruct (if (p_schema_generation p =? 1)%Z then _ else _) as [n'|] eqn:Hv; [|done].
  cbn [mbind res_bind fmap res_fmap] in Hb. apply Ok_inj in Hb. subst b. cbn.
  rewrite (wf_nodes _ Hwf _ _ Hn). rewrite record_belief_none. cbn.
  split; [intros k Hk; by rewrite lookup_insert_ne|]. intros f.
  destruct (updated_flags (with_ops p [guidance_update id changes])
    (bool_decide (0 ∈ generated_indexes (with_ops p [guidance_update id changes]) [0]))
    n changes n' e f) as (e' & He' & Hf); [done..| |].
  - revert Hv. cbn. case_match; auto.
  - exists e'. split; [|done]. unfold get_experiment. cbn. by rewrite lookup_insert_eq.
Qed.
End staged.

(** ** The whole closure *)

(** The changes a list of generated actions makes to one node. *)
Definition changes_for (id : string) (actions : list (GraphOperation * nat)) : list (gmap string pyval) :=
  omap (λ a, match a.1 with
             | UpdateNodes [u] => if decide (nu_id u = id) then Some (nu_changes u) else None
             | _ => None
             end) actions.

Section lists.
Context {A B C : Type}.

Lemma omap_bind (g : A → list B) (h : B → option C) (l : list A) :
  omap h (l ≫= g) = l ≫= λ x, omap h (g x).
Proof. induction l as [|x l IH]; [done|]. by rewrite !bind_cons, omap_app, IH. Qed.

Lemma bind_single (g : A → list B) (l : list A) (a : A) :
  NoDup l → a ∈ l → (∀ x, x ∈ l → x ≠ a → g x = []) → l ≫= g = g a.
Proof.
  induction l as [|x l IH]; intros Hnd Ha Hg; [by apply elem_of_nil in Ha|].
  apply NoDup_cons in Hnd as [Hx Hnd]. rewrite bind_cons. apply elem_of_cons in Ha as [<-|Ha].
  - rewrite (proj2 (bind_nil _ _)); [by rewrite app_nil_r|]. intros y Hy. apply Hg; [by right|]. by intros ->.
  - rewrite Hg; [|by left|by intros ->]. simpl. apply IH; [done..|]. intros. apply Hg; [by right|done].
Qed.
End lists.

Section closure.
Context `{NodeAdapterLaws}.
Implicit Types (p : Patch) (st : GraphState).

Lemma elem_of_experiment_ids st id : id ∈ experiment_ids st ↔ is_Some (get_experiment st id).
Proof.
  unfold experiment_ids. rewrite elem_of_bfilter, elem_of_sorted_set, elem_of_dom.
  unfold get_experiment. destruct (gs_nodes st !! id) as [n|]; simpl.
  - destruct (as_experiment n); naive_solver.
  - split; [by intros [_ []]|by intros []].
Qed.

Lemma changes_for_other id k (m : gmap nat (gmap string pyval)) l :
  id ≠ k → changes_for k (omap (λ c, (λ ch, (guidance_update id ch, c)) <$> m !! c) l) = [].
Proof.
  intros Hne. unfold changes_for. induction l as [|c l IH]; [done|]. simpl.
  destruct (m !! c) as [ch|]; simpl; [|done]. by rewrite decide_False.
Qed.

Lemma changes_for_own id (m : gmap nat (gmap string pyval)) l :
  changes_for id (omap (λ c, (λ ch, (guidance_update id ch, c)) <$> m !! c) l) = omap (λ c, m !! c) l.
Proof.
  unfold changes_for. induction l as [|c l IH]; [done|]. simpl.
  destruct (m !! c) as [ch|]; simpl; [|done]. rewrite decide_True by done. by f_equal.
Qed.

(** The actions generated for one Experiment. *)
Lemma changes_for_guidance st causes explicit id e :
  get_experiment st id = Some e →
  changes_for id (_guidance_actions st causes explicit) =
  ordered_changes (changes_by_cause e (causes !! id) (λ f, explicit !! (id, guidance_field f))).
Proof.
  intros He. unfold _guidance_actions, changes_for. rewrite omap_bind.
  rewrite (bind_single _ _ id).
  - rewrite He. apply changes_for_own.
  - unfold experiment_ids, bfilter. apply NoDup_ListNoDup, List.NoDup_filter, NoDup_ListNoDup, NoDup_sorted_set.
  - apply elem_of_experiment_ids. eauto.
  - intros k _ Hk. destruct (get_experiment st k); [|done]. by apply changes_for_other.
Qed.

Lemma apply_generated_flags i st p actions t st' :
  graph_wf st →
  (∀ op c, (op, c) ∈ actions → ∃ id ch, op = guidance_update id ch ∧
     guidance_changes_ok ch = true ∧ is_Some (get_experiment st id)) →
  apply_generated i st p actions = Ok (t, st') →
  graph_wf st' ∧ (∀ k, get_experiment st k = None → gs_nodes st' !! k = gs_nodes st !! k) ∧
  ∀ k e f, get_experiment st k = Some e → ∃ e', get_experiment st' k = Some e' ∧
    guidance_stale f e' = foldl (write_flag f) (guidance_stale f e) (changes_for k actions).
Proof.
  revert i st t. induction actions as [|[op c] actions IH]; intros i st t Hwf Hall Ha; simpl in Ha.
  { apply Ok_inj in Ha. simplify_eq. split; [done|]. split; [done|]. intros k e f He. by exists e. }
  apply res_bind_ok in Ha as (s1 & H1%conflict_ok & Ha). apply res_bind_ok in Ha as ([t1 s2] & H2 & Ha).
  apply Ok_inj in Ha. simplify_eq. simpl in *.
  destruct (Hall op c) as (id & ch & -> & Hok & [e He]); [by left|].
  destruct (generated_operation_flags _ _ _ _ _ _ Hwf He Hok H1) as (Hw1 & Hother & Hflags).
  assert (∀ k, is_Some (get_experiment st k) → is_Some (get_experiment s1 k)) as Hexp.
  { intros k Hk. destruct (decide (k = id)) as [->|Hne].
    - destruct (Hflags FSummary) as (e' & -> & _). eauto.
    - unfold get_experiment in *. by rewrite Hother. }
  destruct (IH (S i) s1 t1 Hw1) as (Hw & Ho & Hf); [|done|].
  { intros op' c' Hin. destruct (Hall op' c') as (id' & ch' & ? & ? & ?); [by right|]. eauto 10. }
  split; [done|]. split.
  - intros k Hk. destruct (decide (k = id)) as [->|Hne]; [congruence|]. rewrite <-Hother by done.
    apply Ho. unfold get_experiment in *. by rewrite Hother.
  - intros k e0 f Hk. unfold changes_for. simpl. destruct (decide (id = k)) as [->|Hne].
    + simplify_eq. destruct (Hflags f) as (e1 & He1 & Hfl). destruct (Hf k e1 f He1) as (e2 & He2 & Hf2).
      exists e2. split; [done|]. rewrite Hf2, Hfl. done.
    + apply Hf. unfold get_experiment in *. by rewrite Hother.
Qed.

Lemma guidance_actions_updates st causes explicit op c :
  (op, c) ∈ _guidance_actions st causes explicit → ∃ id ch, op = guidance_update id ch ∧
    guidance_changes_ok ch = true ∧ is_Some (get_experiment st id).
Proof.
  intros Hin. unfold _guidance_actions in Hin. apply list_elem_of_bind in Hin as (id & Hin & Hid).
  apply elem_of_experiment_ids in Hid as [e He]. rewrite He in Hin.
  apply list_elem_of_omap in Hin as (k & _ & Hk). apply fmap_Some in Hk as (ch & Hk & Heq).
  simplify_eq. exists id, ch. split; [done|]. split; [|eauto].
  set (bound := S (default 0 (causes !! id) +
    (default 0 (explicit !! (id, guidance_field FSummary)) + default 0 (explicit !! (id, guidance_field FAction))))).
  apply (changes_by_cause_shape bound e (causes !! id) (λ f, explicit !! (id, guidance_field f)))
    with (3 := Hk).
  - intros c' Hc'. unfold bound. rewrite Hc'. simpl. lia.
  - intros [] c' Hc'; unfold bound; rewrite Hc'; simpl; lia.
Qed.

Lemma apply_actions_wf i st actions t st' :
  graph_wf st → apply_actions i st actions = Ok (t, st') → graph_wf st'.
Proof.
  revert i st t. induction actions as [|[p op] actions IH]; intros i st t Hwf Ha; simpl in Ha.
  { apply Ok_inj in Ha. by simplify_eq. }
  apply res_bind_ok in Ha as (s1 & H1%conflict_ok & Ha). apply res_bind_ok in Ha as ([t1 s2] & H2 & Ha).
  apply Ok_inj in Ha. simplify_eq. eapply IH; [|done]. by eapply apply_valid_operation_wf.
Qed.

Lemma apply_timeline_wf st actions t st' :
  graph_wf st → _apply_timeline st actions = Ok (t, st') → graph_wf st'.
Proof.
  unfold _apply_timeline. intros Hwf Ha. apply res_bind_ok in Ha as ([t1 s1] & H1 & Ha).
  apply apply_actions_wf in H1 as []; [|done]. destruct actions as [|[p op] ?]; [done|].
  apply Ok_inj in Ha. simplify_eq. by constructor.
Qed.

(** C31: closure settles guidance.  After the lifecycle rules have closed a
    transition, nothing but Experiments has changed, and every guidance flag of
    an Experiment is right: if an action changed what the Experiment depends
    on, a guidance text is stale exactly when there is one; otherwise a text an
    action rewrote is current, and the flag of every other text is kept. *)
Theorem closure_settles_guidance k st first actions t g generated final :
  graph_wf st → transition_closure k st first actions = Ok (t, g, generated, final) →
  ∃ init causes, _apply_timeline st actions = Ok (t, init) ∧
    _dependency_change_causes t = Ok causes ∧
    (∀ id, get_experiment init id = None → gs_nodes final !! id = gs_nodes init !! id) ∧
    ∀ id e f, get_experiment init id = Some e →
      let explicit := _explicit_guidance_updates actions !! (id, guidance_field f) in
      ∃ e', get_experiment final id = Some e' ∧
        (causes !! id ≠ None → guidance_stale f e' = guidance_present f e) ∧
        (causes !! id = None → explicit ≠ None → guidance_stale f e' = false) ∧
        (causes !! id = None → explicit = None → guidance_stale f e' = guidance_stale f e).
Proof.
  intros Hwf (init & causes & Ht & Hc & -> & Hg)%transition_closure_inv. exists init, causes.
  pose proof (apply_timeline_wf _ _ _ _ Hwf Ht) as Hwi.
  destruct (apply_generated_flags _ _ _ _ _ _ Hwi
    (λ op c, guidance_actions_updates init causes (_explicit_guidance_updates actions) op c) Hg)
    as (_ & Hother & Hflags).
  split; [done|]. split; [done|]. split; [done|]. intros id e f He explicit.
  destruct (Hflags id e f He) as (e' & He' & Hf). exists e'. split; [done|].
  rewrite (changes_for_guidance _ _ _ _ _ He), ordered_changes_flag in Hf. rewrite Hf.
  unfold target_flag, desired_flag, explicit. destruct (causes !! id); [done|].
  by destruct (_explicit_guidance_updates actions !! _).
Qed.
End closure.

(** ** Causes *)

Section causes.
(** The action changed what an Experiment of both graphs depends on. *)
Definition moved (x : nat * GraphState * GraphState) (id : string) : Prop :=
  id ∈ experiment_ids x.2 ∧ dependency_changed x.1.2 x.2 id = Ok true.

Lemma causes_one i b a ids m m' id :
  res_fold (charge_experiment i b a) m ids = Ok m' →
  (∀ j, m !! id = Some j → m' !! id = Some j) ∧
  (m !! id = None → (id ∈ ids ∧ dependency_changed b a id = Ok true → m' !! id = Some i) ∧
                    (¬ (id ∈ ids ∧ dependency_changed b a id = Ok true) → m' !! id = None)).
Proof.
  revert m. induction ids as [|k ids IH]; intros m Hf; cbn [res_fold] in Hf.
  { apply Ok_inj in Hf as <-. split; [done|]. intros Hm. split; [by intros [?%elem_of_nil _]|done]. }
  apply res_bind_ok in Hf as (m1 & Hm1 & Hf). apply res_bind_ok in Hm1 as (ch & Hch & Hm1).
  apply Ok_inj in Hm1. destruct (IH m1 Hf) as [Hk Hn]. clear IH Hf.
  assert (k ≠ id ∨ ch = false → m1 !! id = m !! id) as Hsame.
  { intros Hor. subst m1. destruct ch; [|done]. destruct Hor as [Hne|]; [|done].
    unfold setdefault. destruct (m !! k); [done|]. by rewrite lookup_insert_ne. }
  destruct (decide (k = id ∧ ch = true)) as [[-> ->]|Hne].
  - subst m1. unfold setdefault in *. destruct (m !! id) as [j|] eqn:Hm.
    + split; [|done]. intros j' [= <-]. by apply Hk.
    + split; [done|]. intros _. rewrite (Hk i) by by rewrite lookup_insert_eq.
      split; [done|]. intros []. split; [by left|done].
  - rewrite <-Hsame by (destruct (decide (k = id)) as [->|]; [right; by destruct ch; [destruct Hne|]|by left]).
    split; [exact Hk|]. intros Hm. destruct (Hn Hm) as [H1 H2]. split.
    + intros [[->|Hin]%elem_of_cons Hd]; [|by apply H1]. rewrite Hd in Hch. simplify_eq. by destruct Hne.
    + intros Hx. apply H2. intros [Hin Hd]. apply Hx. split; [by right|done].
Qed.

(** Causes are first causes.  The lifecycle rules charge the staleness of
    an Experiment to an action exactly when it is the first action of the
    transition that changed what the Experiment, already present, depends on. *)
Theorem dependency_cause_is_first t causes id i :
  _dependency_change_causes t = Ok causes →
  causes !! id = Some i ↔
  ∃ pre b a post, t = pre ++ (i, b, a) :: post ∧ moved (i, b, a) id ∧
    ∀ x, x ∈ pre → ¬ moved x id.
Proof.
  unfold _dependency_change_causes.
  cut (∀ m, res_fold charge_action m t = Ok causes →
    (∀ j, m !! id = Some j → causes !! id = Some j) ∧
    (m !! id = None → causes !! id = Some i ↔
      ∃ pre b a post, t = pre ++ (i, b, a) :: post ∧ moved (i, b, a) id ∧
        ∀ x, x ∈ pre → ¬ moved x id)).
  { intros Hcut Hf. by apply (Hcut ∅). }
  induction t as [|[[j b] a] t IH]; intros m Hf; cbn [res_fold] in Hf.
  { apply Ok_inj in Hf as <-. split; [done|]. intros ->. split; [done|].
    by intros ([|] & ? & ? & ? & ? & _). }
  apply res_bind_ok in Hf as (m1 & H1 & Hf). destruct (causes_one _ _ _ _ _ _ id H1) as [Hk Hn].
  destruct (IH m1 Hf) as [IHk IHn]. clear IH H1 Hf. split; [eauto|]. intros Hm. specialize (Hn Hm).
  destruct (decide (id ∈ experiment_ids a ∧ dependency_changed b a id = Ok true)) as [Hmv|Hmv].
  - rewrite (IHk j) by by apply Hn. split.
    + intros [= <-]. exists [], b, a, t. split; [done|]. split; [done|]. by intros ? ?%elem_of_nil.
    + intros ([|x pre] & b' & a' & post & Heq & Hmi & Hpre); simplify_eq/=; [done|].
      exfalso. by apply (Hpre (j, b, a)); [left|].
  - rewrite IHn by by apply Hn. split.
    + intros (pre & b' & a' & post & -> & Hmi & Hpre).
      exists ((j, b, a) :: pre), b', a', post. split; [done|]. split; [done|].
      intros x [->|Hx]%elem_of_cons; [done|by apply Hpre].
    + intros ([|x pre] & b' & a' & post & Heq & Hmi & Hpre); simplify_eq/=; [done|].
      exists pre, b', a', post. split; [done|]. split; [done|]. intros. apply Hpre. by right.
Qed.
End causes.

(** ** Digests and heads *)

Section binding.
Context `{NodeAdapter, CanonicalHash}.
Implicit Types (p : Patch) (st : GraphState).

Lemma source_envelopes p (gs : list TransitionInitiatingGroup) :
  producer_envelope <$> (_source_patch_for_group p <$> gs) = (λ _, producer_envelope p) <$> gs.
Proof. rewrite <-list_fmap_compose. apply list_fmap_ext. intros i g _. by destruct p. Qed.

(** C34: a committed transition cannot be rewritten.  If two Patches carry the
    same trace and both pass its check, at whatever states, then they agree on
    every operation and on the whole producer envelope, or a collision of the
    digest function is at hand. *)
Theorem trace_binds_patch st st' p p' s s' :
  p_transition p = p_transition p' →
  validate_transition_trace st p = Ok s → validate_transition_trace st' p' = Ok s' →
  (p_ops p = p_ops p' ∧ producer_envelope p = producer_envelope p') ∨
  ∃ d d', d ≠ d' ∧ _sha256 d = _sha256 d'.
Proof.
  intros Htr (tr & Ht & [])%validate_transition_trace_iff (tr' & Ht' & [])%validate_transition_trace_iff.
  rewrite Ht, Ht' in Htr. simplify_eq. unfold _operations_sha256, _transition_id in *.
  destruct (decide (p_ops p = p_ops p')) as [Hops|Hne].
  2: { right. exists (DocOperations (p_ops p)), (DocOperations (p_ops p')). split; [congruence|]. congruence. }
  destruct (decide (producer_envelope p = producer_envelope p')) as [Henv|Hne]; [by left|right].
  rewrite !source_envelopes in *. pose proof (eq_trans vt_id (eq_sym vt_id0)) as Hid.
  do 2 eexists. split; [|exact Hid]. intros [= Heq _]. apply Hne.
  destruct (tt_initiating_groups tr') as [|g gs]; [done|].
  rewrite !fmap_cons in Heq. apply (f_equal head) in Heq. cbn [head] in Heq. congruence.
Qed.
End binding.

(** The head after the accepted transitions of a log. *)
Definition chain_head (initial : option string) (patches : list Patch) : option string :=
  foldl (λ id p, match p_admission p, p_transition p with
                 | AdmissionAccepted, Some tr => Some (tt_transition_id tr) | _, _ => id end)
    initial patches.

(** The Patch at hand continues the head. *)
Definition continues (target : GraphTargetRef) (id : option string) (p : Patch) : Prop :=
  ∀ tr, p_admission p = AdmissionAccepted → p_transition p = Some tr →
        head_target (tt_pre_head tr) = target ∧ head_transition_id (tt_pre_head tr) = id.

(** The head chain.  The chain check passes exactly when every accepted
    transition of the log names the target and, as its parent, the transition
    accepted last before it; otherwise it reports the first one that does not. *)
Theorem head_chain_exact patches target initial :
  match accepted_transition_head_chain_failure patches target initial with
  | None => ∀ pre p post, patches = pre ++ p :: post → continues target (chain_head initial pre) p
  | Some f =>
      ∃ pre p post, patches = pre ++ p :: post ∧ ¬ continues target (chain_head initial pre) p ∧
        (∀ pre' p' post', pre = pre' ++ p' :: post' → continues target (chain_head initial pre') p') ∧
        rf_revision f = p_revision p ∧ rf_created_at f = p_created_at p ∧
        rf_code f = "transition-head-mismatch"
  end.
Proof.
  revert initial. induction patches as [|p patches IH]; intros initial; simpl.
  { by intros [|] ? ?. }
  assert (∀ next, chain_head initial [p] = next → continues target initial p →
    match accepted_transition_head_chain_failure patches target next with
    | None => ∀ pre q post, p :: patches = pre ++ q :: post → continues target (chain_head initial pre) q
    | Some f => ∃ pre q post, p :: patches = pre ++ q :: post ∧
        ¬ continues target (chain_head initial pre) q ∧
        (∀ pre' p' post', pre = pre' ++ p' :: post' → continues target (chain_head initial pre') p') ∧
        rf_revision f = p_revision q ∧ rf_created_at f = p_created_at q ∧
        rf_code f = "transition-head-mismatch"
    end) as Hnext.
  { intros next Hn Hp. specialize (IH next). subst next.
    destruct (accepted_transition_head_chain_failure _ _ _) as [f|].
    - destruct IH as (pre & q & post & -> & Hq & Hpre & Hf). exists (p :: pre), q, post.
      split; [done|]. split; [exact Hq|]. split; [|exact Hf].
      intros [|x pre'] p' post' Heq; simplify_eq/=; [done|]. by eapply (Hpre pre').
    - intros [|x pre] q post Heq; simplify_eq/=; [done|]. by eapply (IH pre). }
  destruct (p_admission p) eqn:Ha, (p_transition p) as [tr|] eqn:Ht;
    try (apply Hnext; [by simpl; rewrite Ha, ?Ht|by intros tr' Ha' Ht'; congruence]).
  destruct (bool_decide (head_target _ = target) && _) eqn:Hb.
  - apply andb_true_iff in Hb as [H1%bool_decide_eq_true H2%bool_decide_eq_true].
    apply Hnext; [by simpl; rewrite Ha, Ht|]. intros tr' _ Ht'. by simplify_eq.
  - exists [], p, patches. split; [done|]. split; [|split; [by intros [|]|done]]. intros Hc.
    destruct (Hc tr Ha Ht) as [H1 H2]. by rewrite !bool_decide_eq_true_2 in Hb.
Qed.
