(* ===== verification/Replay.v ===== *)
(** Replay ([validate_patch] in [core/validation/patch.py] and
    [materialize_patches] in [core/materialize.py]): the canonical log of
    Patches, folded into the graph it means. *)

From S2P Require Export Soundness Guidance.

(** ** Validation of any Patch *)

(** The settings of a replay: the scope is the graph's own. *)
Definition replay_settings (cfg : Settings) (st : GraphState) : Settings :=
  {| cfg_project_truth_scope := gs_project_truth_scope st;
     cfg_repository_aliases := cfg_repository_aliases cfg;
     cfg_machine_aliases := cfg_machine_aliases cfg;
     cfg_default_run_truth_scope := cfg_default_run_truth_scope cfg;
     cfg_state_repository := cfg_state_repository cfg; cfg_mode := ModeReplay;
     cfg_experiment_control_node_id := None; cfg_experiment_decision_bundle := None |}.

Section validate.
Context `{NodeAdapter, RecordAdapter, TextLib, CanonicalHash}.

(** Validate the initiating Patches of a transition in order, each on the
    graph the earlier ones leave, at the revision before the transition.  The
    flag says that an exception ended the loop. *)
Fixpoint validate_sources (cfg : Settings) (revision : Z) (staged : GraphState)
    (sources : list Patch) : ValidationReport * bool :=
  match sources with
  | [] => ([], false)
  | p :: sources =>
      let validation_state := set_revision revision staged in
      let report := validate_source_patch validation_state p
                      (replay_settings cfg validation_state) in
      if rejected report then (report, false)
      else match apply_valid_patch validation_state p with
      | Raise _ => (report, true)
      | Ok st =>
          let rest := validate_sources cfg revision (set_revision revision st) sources in
          (report ++ rest.1, rest.2)
      end
  end.

Definition _validate_transition_patch (st : GraphState) (p : Patch) (cfg : Settings) :
    ValidationReport :=
  if decide (cfg_mode cfg ≠ ModeReplay)
  then reject "reserved-transition-trace" (report_revision p) [] []
  else
    let invalid := reject "transition-trace-invalid" (report_revision p) [] [] in
    match validate_transition_trace st p with
    | Raise _ => invalid
    | Ok sources =>
        let r := validate_sources cfg (gs_revision st) st sources in
        r.1 ++ when r.2 invalid
    end.

Definition validate_patch (st : GraphState) (p : Patch) (cfg : Settings) : ValidationReport :=
  match p_transition p with
  | Some _ => _validate_transition_patch st p cfg
  | None => validate_source_patch st p cfg
  end.
End validate.

(** ** The replay loop *)

(** The loop variables; [mat_observed] lists the calls of the read-only observer. *)
Record Materialization := {
  mat_state : GraphState; mat_reports : gmap Z ValidationReport;
  mat_descriptors : list RepositoryDescriptor; mat_cursors : gmap string string;
  mat_observed : list (GraphState * Patch * GraphState) }.

(** [state.model_copy(update={"replay_status": "degraded", ..})]. *)
Definition degraded (p : Patch) (code : string) (st : GraphState) : GraphState :=
  set_log (gs_revision st) (gs_validation_messages st) (gs_belief_transitions st) ReplayDegraded
    (Some {| rf_revision := p_revision p; rf_created_at := p_created_at p; rf_code := code |})
    (gs_last_refresh_at st) st.

(** The code of the first rejection of a report. *)
Definition first_rejection (r : ValidationReport) : string :=
  match find (λ m, bool_decide (vm_level m = Reject)) r with Some m => vm_code m | None => "" end.

Definition with_report (m : Materialization) (p : Patch) (r : ValidationReport) (st : GraphState) :
    Materialization :=
  {| mat_state := st; mat_reports := <[p_revision p := r]> (mat_reports m);
     mat_descriptors := mat_descriptors m; mat_cursors := mat_cursors m;
     mat_observed := mat_observed m |}.

Section replay.
Context `{NodeAdapter, RecordAdapter, TextLib, CanonicalHash}.
Context (cfg : Settings).

(** A Patch recorded as rejected moves the revision and its messages alone. *)
Definition replay_rejected (m : Materialization) (p : Patch) : Materialization :=
  with_report m p (p_admission_messages p)
    (add_messages (p_admission_messages p)
       (set_revision (Z.max (gs_revision (mat_state m)) (p_revision p)) (mat_state m))).

(** One Patch: the next state of the loop, and whether the loop goes on. *)
Definition replay_step (m : Materialization) (p : Patch) : Materialization * bool :=
  let st := mat_state m in
  match p_admission p with
  | AdmissionRejected => (replay_rejected m p, true)
  | AdmissionAccepted =>
      let report := validate_patch st p (replay_settings cfg st) ++ p_admission_messages p in
      if rejected report
      then (with_report m p report (degraded p (first_rejection report) st), false)
      else match _apply_patch st p [] [] with
      | Raise _ =>
          (with_report m p (report ++ reject "malformed-operation" (Some (p_revision p)) [] [])
             (degraded p "malformed-operation" st), false)
      | Ok (candidate, descriptors) =>
          let next := add_messages (p_admission_messages p) candidate in
          ({| mat_state := next; mat_reports := <[p_revision p := report]> (mat_reports m);
              mat_descriptors := mat_descriptors m ++ descriptors;
              mat_cursors := p_processed_cursors p ∪ mat_cursors m;
              mat_observed := mat_observed m ++ [(st, p, next)] |}, true)
      end
  end.

Fixpoint replay (m : Materialization) (patches : list Patch) : Materialization :=
  match patches with
  | [] => m
  | p :: patches =>
      let r := replay_step m p in
      if r.2 then replay r.1 patches else r.1
  end.

(** The state a replay starts from. *)
Definition replay_start (initial_truth_scope : list string) : Materialization :=
  let c := empty_coverage in
  {| mat_state := set_config initial_truth_scope ∅ ∅ empty_ontology
       {| cov_repositories_seen := cov_repositories_seen c;
          cov_repositories_never_seen := py_sorted initial_truth_scope;
          cov_sessions_read := cov_sessions_read c; cov_sessions_skipped := cov_sessions_skipped c;
          cov_earliest_timestamp := cov_earliest_timestamp c; cov_note := cov_note c |}
       (initial_state initial_truth_scope);
     mat_reports := ∅; mat_descriptors := []; mat_cursors := ∅; mat_observed := [] |}.

Definition materialize_patches (patches : list Patch) (initial_truth_scope : list string) :
    Materialization :=
  replay (replay_start initial_truth_scope) patches.
End replay.

(** ** Properties *)

#[local] Arguments replay_step : simpl never.

Section properties.
Context `{NodeAdapterLaws} `{!RecordAdapter, !TextLib, !CanonicalHash}.
Context (cfg : Settings).
Implicit Types (m : Materialization) (p : Patch) (st : GraphState).

Notation status m := (gs_replay_status (mat_state m)).

(** What one step of the loop does to the log fields. *)
Lemma replay_step_wf m p : graph_wf (mat_state m) → graph_wf (mat_state (replay_step cfg m p).1).
Proof.
  intros Hwf. unfold replay_step. destruct (p_admission p); [|by destruct Hwf; constructor].
  destruct (rejected _); [by destruct Hwf; constructor|].
  destruct (_apply_patch _ _ _ _) as [[st ds]|] eqn:Ha; [|by destruct Hwf; constructor].
  apply apply_patch_wf_lemma in Ha as []; [|done]. by constructor.
Qed.

Lemma replay_wf m l : graph_wf (mat_state m) → graph_wf (mat_state (replay cfg m l)).
Proof.
  revert m. induction l as [|p l IH]; intros m Hwf; simpl; [done|].
  pose proof (replay_step_wf m p Hwf). destruct (replay_step cfg m p) as [m1 []]; simpl in *; auto.
Qed.

Lemma replay_start_wf scope : graph_wf (mat_state (replay_start scope)).
Proof. constructor; apply keyed_empty. Qed.

Lemma replay_step_status m p :
  graph_wf (mat_state m) →
  status (replay_step cfg m p).1 =
    if (replay_step cfg m p).2 then status m else ReplayDegraded.
Proof.
  intros Hwf. unfold replay_step. destruct (p_admission p); [|done].
  destruct (rejected _); [done|]. destruct (_apply_patch _ _ _ _) as [[st ds]|] eqn:Ha; [|done].
  apply apply_patch_log_lemma in Ha as (_ & _ & _ & Hs & _); [|done]. exact Hs.
Qed.

Lemma replay_app m l1 l2 :
  graph_wf (mat_state m) → status m = ReplayComplete →
  replay cfg m (l1 ++ l2) =
    if decide (status (replay cfg m l1) = ReplayComplete)
    then replay cfg (replay cfg m l1) l2 else replay cfg m l1.
Proof.
  revert m. induction l1 as [|p l1 IH]; intros m Hwf Hm; simpl; [by rewrite decide_True|].
  pose proof (replay_step_wf m p Hwf) as Hw. pose proof (replay_step_status m p Hwf) as Hs.
  destruct (replay_step cfg m p) as [m' []]; simpl in *; [apply IH; [done|congruence]|].
  by rewrite decide_False by by rewrite Hs.
Qed.

(** Replay is incremental and a degraded replay is final.  Appending to
    the log extends the replay of what was there, from exactly the state it
    left, as long as that replay is complete; once a Patch degraded it, nothing
    appended later changes the graph, the reports or the failure. *)
Theorem replay_is_incremental scope l1 l2 :
  materialize_patches cfg (l1 ++ l2) scope =
    if decide (status (materialize_patches cfg l1 scope) = ReplayComplete)
    then replay cfg (materialize_patches cfg l1 scope) l2
    else materialize_patches cfg l1 scope.
Proof. apply replay_app; [apply replay_start_wf|done]. Qed.

(** Every replayed graph is well formed, whatever the log holds. *)
Theorem replayed_graph_wf scope l : graph_wf (mat_state (materialize_patches cfg l scope)).
Proof. apply replay_wf, replay_start_wf. Qed.

(** ** Revisions *)

Lemma source_revision st p cfg' :
  rejected (validate_source_patch st p cfg') = false → p_revision p ≠ 0%Z →
  p_revision p = (gs_revision st + 1)%Z.
Proof.
  intros (g & env & _ & _ & He & Hr & _)%validate_source_patch_loop Hp.
  unfold validate_envelope in He. apply res_bind_ok in He as (loop & _ & He).
  apply res_bind_ok in He as (approval & _ & He). apply Ok_inj in He as <-.
  cbn [ctx_patch ctx_initial_state initial_context] in Hr.
  rewrite !rejected_app, !rejected_when, !rejected_reject, !andb_true_r, !orb_false_iff in Hr.
  destruct Hr as (_ & Hr & _). apply andb_false_iff in Hr as [Hr|Hr]; lia.
Qed.

Lemma patch_revision st p cfg' :
  rejected (validate_patch st p cfg') = false → p_revision p ≠ 0%Z →
  p_revision p = (gs_revision st + 1)%Z.
Proof.
  unfold validate_patch. destruct (p_transition p) as [tr|] eqn:Htr; [|apply source_revision].
  unfold _validate_transition_patch. case_decide; [done|].
  destruct (validate_transition_trace st p) as [sources|] eqn:Hv; [|done].
  apply validate_transition_trace_iff in Hv as (tr' & _ & Hvt).
  pose proof (vt_sources _ _ _ _ Hvt) as Hsrc. pose proof (vt_actions _ _ _ _ Hvt) as Hact.
  destruct (tt_initiating_groups tr') as [|g gs]; simpl in Hsrc; [by subst|].
  rewrite Hsrc. cbn [validate_sources]. set (vs := set_revision _ st).
  destruct (rejected (validate_source_patch vs _ _)) eqn:Hr; simpl.
  { by rewrite rejected_app, Hr. }
  intros _ Hp. by apply source_revision in Hr.
Qed.

Lemma replay_step_revision m p :
  graph_wf (mat_state m) → (replay_step cfg m p).2 = true →
  gs_revision (mat_state (replay_step cfg m p).1) =
    Z.max (gs_revision (mat_state m)) (p_revision p) ∧
  (p_admission p = AdmissionAccepted → p_revision p ≠ 0%Z →
   p_revision p = (gs_revision (mat_state m) + 1)%Z).
Proof.
  intros Hwf. unfold replay_step. destruct (p_admission p); [|done].
  rewrite rejected_app. destruct (rejected (validate_patch _ _ _)) eqn:Hr; [done|]. simpl.
  destruct (rejected (p_admission_messages p)); [done|].
  destruct (_apply_patch _ _ _ _) as [[st ds]|] eqn:Ha; [|done].
  apply apply_patch_log_lemma in Ha as (Hrev & _); [|done]. intros _. split; [done|].
  intros _ Hp. exact (patch_revision _ _ _ Hr Hp).
Qed.

(** Accepted revisions are consecutive.  In a complete replay every
    accepted Patch that carries a revision carries the successor of the
    revision of the graph it was applied to, which becomes the graph's; no
    Patch ever lowers the revision. *)
Theorem replay_revisions_consecutive scope pre p post :
  status (materialize_patches cfg (pre ++ p :: post) scope) = ReplayComplete →
  let before := gs_revision (mat_state (materialize_patches cfg pre scope)) in
  let after := gs_revision (mat_state (materialize_patches cfg (pre ++ [p]) scope)) in
  after = Z.max before (p_revision p) ∧
  (p_admission p = AdmissionAccepted → p_revision p ≠ 0%Z → p_revision p = (before + 1)%Z).
Proof.
  unfold materialize_patches. pose proof (replay_start_wf scope) as Hwf.
  intros Hs. rewrite replay_app in Hs |- * by done.
  pose proof (replay_wf _ pre Hwf) as Hwp.
  case_decide as Hp; [|done]. cbn [replay] in Hs |- *.
  pose proof (replay_step_status _ p Hwp) as Hst.
  pose proof (replay_step_revision _ p Hwp) as Hr.
  destruct (replay_step _ _ p) as [m' [|]]; simpl in *; [by apply Hr|congruence].
Qed.

End properties.
