(* ===== verification/Leniency.v ===== *)
(** Admission is stricter than replay ([core/validation/], both modes).

    The same rules run when a Patch is admitted and when the log is replayed.
    [relax] is the context of a replay of the Patch a context admits, possibly
    under a repository table that has grown since; a report that is free of
    rejections in a context stays free of them in the relaxed one. *)

From S2P Require Export Soundness.

(** The replay of a context under the repository table [R] and the default run
    scope [D]. *)
Definition relax (R D : gset string) (c : OpContext) : OpContext :=
  {| ctx_state := ctx_state c; ctx_initial_state := ctx_initial_state c;
     ctx_patch := ctx_patch c; ctx_revision := ctx_revision c;
     ctx_project_truth_scope := ctx_project_truth_scope c; ctx_repositories := R;
     ctx_machines := ctx_machines c; ctx_default_run_truth_scope := D;
     ctx_state_repository := ctx_state_repository c; ctx_mode := ModeReplay;
     ctx_experiment_control_node_id := ctx_experiment_control_node_id c;
     ctx_reference_patch := ctx_reference_patch c |}.

(** A table with the repositories of a context, and a default scope inside its
    default scope. *)
Definition wider (R D : gset string) (c : OpContext) : Prop :=
  ctx_repositories c ⊆ R ∧ D ⊆ ctx_default_run_truth_scope c.

(** New writes use the current schema generation. *)
Definition current_write (c : OpContext) : Prop :=
  ctx_mode c = ModeAdmission → p_schema_generation (ctx_patch c) = 2%Z.

(** Where [r] returns a report without a rejection, so does [r']. *)
Definition lenient {A} (report : A → ValidationReport) (r r' : res A) : Prop :=
  ∀ v, r = Ok v → rejected (report v) = false → ∃ v', r' = Ok v' ∧ rejected (report v') = false.

Section combinators.

Lemma lenient_refl {A} (f : A → ValidationReport) r : lenient f r r.
Proof. intros v Hv Hr. eauto. Qed.

Lemma lenient_ok {A} (f : A → ValidationReport) (a a' : A) :
  (rejected (f a) = false → rejected (f a') = false) → lenient f (Ok a) (Ok a').
Proof. intros Hle v [= <-] Hr. eauto. Qed.

Lemma lenient_each {A} (f g : A → res Verdict) (l : list A) :
  (∀ x, x ∈ l → lenient fst (f x) (g x)) → lenient fst (each f l) (each g l).
Proof.
  induction l as [|x l IH]; intros Hfg v; simpl; [apply lenient_refl|]. intros Hv Hr.
  apply res_bind_ok in Hv as (a & Ha & Hv). apply res_bind_ok in Hv as (b & Hb & [= <-]).
  simpl in Hr. rewrite rejected_app, orb_false_iff in Hr. destruct Hr as [Hra Hrb].
  destruct (Hfg x ltac:(by left) a Ha Hra) as (a' & -> & Ha').
  destruct (IH ltac:(intros; apply Hfg; by right) b Hb Hrb) as (b' & -> & Hb').
  eexists. split; [done|]. simpl. by rewrite rejected_app, Ha', Hb'.
Qed.

Lemma res_concat_cons {A} (f : A → res ValidationReport) x l :
  res_concat f (x :: l) = (a ← f x; b ← res_concat f l; Ok (a ++ b)).
Proof.
  unfold res_concat. simpl. destruct (f x) as [a|]; [|done]. simpl.
  by destruct (res_map f l).
Qed.

Lemma lenient_concat {A} (f g : A → res ValidationReport) (l : list A) :
  (∀ x, x ∈ l → lenient id (f x) (g x)) → lenient id (res_concat f l) (res_concat g l).
Proof.
  induction l as [|x l IH]; intros Hfg v; [apply lenient_refl|]. rewrite !res_concat_cons.
  intros Hv Hr. apply res_bind_ok in Hv as (a & Ha & Hv). apply res_bind_ok in Hv as (b & Hb & [= <-]).
  simpl in Hr. rewrite rejected_app, orb_false_iff in Hr. destruct Hr as [Hra Hrb].
  destruct (Hfg x ltac:(by left) a Ha Hra) as (a' & -> & Ha').
  destruct (IH ltac:(intros; apply Hfg; by right) b Hb Hrb) as (b' & -> & Hb').
  eexists. split; [done|]. simpl in *. by rewrite rejected_app, Ha', Hb'.
Qed.
End combinators.

(** Splits a report without rejections into its parts, and builds one from them. *)
Ltac split_report :=
  repeat match goal with
  | H : rejected (_ ++ _) = false |- _ => rewrite rejected_app, orb_false_iff in H; destruct H
  | H : rejected (when _ _) = false |- _ => rewrite rejected_when in H
  | |- rejected (_ ++ _) = false => rewrite rejected_app, orb_false_iff; split
  | |- rejected (when _ _) = false => rewrite rejected_when
  | |- rejected [] = false => done
  end.

Section rules.
Context `{NodeAdapter, RecordAdapter, TextLib}.
Context (D : gset string).
Implicit Types (c : OpContext).

Lemma admission_relax R c : admission (relax R D c) = false.
Proof. done. Qed.

(** The branches for the first generation are the same in both contexts. *)
Lemma generation_relax R c : current_write c →
  bool_decide (ctx_mode c = ModeReplay) && (p_schema_generation (ctx_patch c) =? 1)%Z =
  bool_decide (ctx_mode (relax R D c) = ModeReplay) && (p_schema_generation (ctx_patch c) =? 1)%Z.
Proof.
  intros Hw. cbn. destruct (ctx_mode c) eqn:Hm; cbn; [|done].
  by rewrite (Hw Hm).
Qed.

Lemma refused_fields_relax R c : current_write c →
  refused_fields (relax R D c) false = refused_fields c false.
Proof. intros Hw. unfold refused_fields. by rewrite (generation_relax R c Hw). Qed.

Lemma replay_mode c : admission c = false → ctx_mode c = ModeReplay.
Proof. unfold admission. by destruct (ctx_mode c). Qed.

Lemma create_nodes_lenient R c nodes :
  lenient fst (validate_create_nodes c nodes) (validate_create_nodes (relax R D c) nodes).
Proof.
  apply lenient_each. intros n _ v Hv Hr. cbn [relax ctx_state ctx_patch ctx_initial_state].
  apply res_bind_ok in Hv as (new & -> & Hv). apply res_bind_ok in Hv as (refs & -> & [= <-]).
  eexists. split; [done|]. cbn [fst] in *. rewrite admission_relax. split_report; done.
Qed.

Lemma update_authority_lenient R c n u :
  lenient id (validate_update_authority c n u) (validate_update_authority (relax R D c) n u).
Proof.
  unfold validate_update_authority. cbn [relax ctx_patch ctx_revision ctx_experiment_control_node_id].
  rewrite admission_relax, andb_false_r.
  destruct (negb _ && requires_proposal n (nu_changes u)).
  - apply lenient_ok. simpl. destruct (is_some (as_decision n)); simpl; [done|done].
  - intros v _ _. by exists [].
Qed.

Lemma update_node_lenient R c u : current_write c →
  lenient fst (validate_update_node c u) (validate_update_node (relax R D c) u).
Proof.
  intros Hw. unfold validate_update_node. cbn [relax ctx_state ctx_patch ctx_revision].
  destruct (gs_nodes (ctx_state c) !! nu_id u) as [n|]; [|apply lenient_refl].
  rewrite admission_relax, <-(generation_relax R c Hw). cbn [andb orb when app].
  rewrite (refused_fields_relax R c Hw).
  set (phase := admission c && _ && get_is _ _). set (strength := admission c && is_some (as_evidence n) && _).
  destruct strength; [|destruct phase]; cbn [orb when app].
  1, 2: destruct (touches _ _); intros v [= <-] Hr; cbn [fst] in Hr; split_report; done.
  destruct (touches _ _); [apply lenient_refl|].
  intros v Hv Hr. apply res_bind_ok in Hv as (invalid & -> & Hv).
  apply res_bind_ok in Hv as (authority & Ha & Hv). apply res_bind_ok in Hv as (refs & -> & [= <-]).
  cbn [fst] in Hr. split_report.
  destruct (update_authority_lenient R c n u authority Ha) as (authority' & -> & ?); [done|].
  eexists. split; [done|]. cbn [fst]. split_report; done.
Qed.

Lemma update_nodes_lenient R c us : current_write c →
  lenient fst (validate_update_nodes c us) (validate_update_nodes (relax R D c) us).
Proof. intros Hw. apply lenient_each. intros u _. by apply update_node_lenient. Qed.

(** ** Edges *)

Lemma edge_relation_lenient R c e :
  (validate_edge_relation (relax R D c) e).2 = (validate_edge_relation c e).2 ∧
  (rejected (validate_edge_relation c e).1 = false →
   rejected (validate_edge_relation (relax R D c) e).1 = false).
Proof.
  unfold validate_edge_relation.
  cbn [relax ctx_state ctx_patch ctx_revision]. rewrite admission_relax. cbn [andb when app].
  change (_node_type (relax R D c)) with (_node_type c).
  change (_created_node_id (relax R D c)) with (_created_node_id c).
  destruct (is_some (ne_assessment e) && _); cbn [when];
  destruct (RELATION_SPEC (ne_relation e)), (custom_relation (gs_ontology (ctx_state c)) (ne_relation e)); cbn [fst snd];
    split; try done; intros; split_report; done.
Qed.

Lemma new_edge_lenient R c r seen e r' seen' :
  rejected (validate_new_edge c (r, seen) e).1 = false → rejected r' = false →
  rejected (validate_new_edge (relax R D c) (r', seen') e).1 = false.
Proof.
  unfold validate_new_edge. destruct (edge_relation_lenient R c e) as [Hk Hrel].
  destruct (validate_edge_relation c e) as [rel known],
    (validate_edge_relation (relax R D c) e) as [rel' known']; cbn [fst snd] in *. subst known'.
  destruct known; cbn [negb fst].
  - rewrite admission_relax. cbn [relax ctx_state ctx_revision].
    intros Hr Hr'. replace (match default _ _ with Some _ => _ | None => _ end) with false
      by (by destruct (default _ _)).
    case_match; cbn [fst] in *; split_report; [done|auto|done|done|auto|done].
  - intros Hr Hr'. split_report; auto.
Qed.

Lemma create_edges_lenient R c es :
  rejected (validate_create_edges c es) = false →
  rejected (validate_create_edges (relax R D c) es) = false.
Proof.
  unfold validate_create_edges. cbn [relax ctx_state].
  generalize (dom (gs_edges (ctx_state c))) at 1 as s. generalize (dom (gs_edges (ctx_state c))) as s'.
  assert (rejected [] = false) as Hr' by done. revert Hr'.
  generalize ([] : ValidationReport) at 1 3 as r'. generalize ([] : ValidationReport) as r.
  induction es as [|e es IH]; intros r r' Hr' s' s; cbn [foldl]; [done|].
  destruct (validate_new_edge c (r, s) e) as [r1 s1] eqn:Hx.
  destruct (validate_new_edge (relax R D c) (r', s') e) as [r1' s1'] eqn:Hx'.
  intros Hr. eapply IH; [|done].
  destruct (foldl _ (r1, s1) es) as [rf sf] eqn:Hf.
  destruct (validate_edges_report c es _ _ _ _ Hf Hr) as [Hr1 _].
  pose proof (new_edge_lenient R c r s e r' s') as Hl. rewrite Hx, Hx' in Hl. by apply Hl.
Qed.

(** ** The other operations *)

Lemma supersede_nodes_lenient R c items :
  rejected (validate_supersede_nodes c items) = false →
  rejected (validate_supersede_nodes (relax R D c) items) = false.
Proof.
  unfold validate_supersede_nodes. rewrite !rejected_bind_false. intros Hall i Hi. specialize (Hall i Hi).
  change (_node_type (relax R D c)) with (_node_type c). rewrite admission_relax.
  change (_created_node_id (relax R D c)) with (_created_node_id c). cbn [relax ctx_state ctx_revision].
  split_report; [done|]. destruct (sn_superseded_by i); split_report; done.
Qed.

Lemma merge_nodes_lenient R c items :
  rejected (validate_merge_nodes c items) = false →
  rejected (validate_merge_nodes (relax R D c) items) = false.
Proof.
  unfold validate_merge_nodes. rewrite !rejected_bind_false. intros Hall i Hi. specialize (Hall i Hi).
  change (_node_type (relax R D c)) with (_node_type c). rewrite admission_relax.
  cbn [relax ctx_state ctx_revision]. split_report; done.
Qed.

Lemma truth_scope_lenient R c scope d : wider R D c →
  rejected (validate_set_project_truth_scope c scope d) = false →
  rejected (validate_set_project_truth_scope (relax R D c) scope d) = false.
Proof.
  intros [HR HD]. unfold validate_set_project_truth_scope, repositories_after.
  cbn [relax ctx_patch ctx_revision ctx_machines ctx_repositories ctx_state_repository
       ctx_default_run_truth_scope].
  intros Hr. split_report; try done.
  - destruct (bool_decide (list_to_set scope ⊆ _)) eqn:Hs in H4; [|done].
    apply bool_decide_eq_true in Hs. rewrite bool_decide_eq_true_2; [done|].
    clear -HR Hs. destruct d as [d|]; [|by etrans]. destruct (complete_descriptor d); set_solver.
  - destruct (bool_decide (ctx_default_run_truth_scope c ⊆ _)) eqn:Hs in H6; [|done].
    apply bool_decide_eq_true in Hs. rewrite bool_decide_eq_true_2; [done|by etrans].
Qed.

Lemma set_ontology_lenient R c o :
  rejected (validate_set_ontology c o) = false → rejected (validate_set_ontology (relax R D c) o) = false.
Proof.
  unfold validate_set_ontology. rewrite admission_relax. cbn [relax ctx_patch ctx_revision ctx_state].
  intros Hr. split_report; done.
Qed.

Lemma set_standing_lenient R c id :
  rejected (validate_set_standing c id) = false → rejected (validate_set_standing (relax R D c) id) = false.
Proof.
  unfold validate_set_standing. rewrite admission_relax. cbn [relax ctx_patch ctx_revision ctx_state].
  intros Hr. split_report; done.
Qed.

Lemma resolve_proposals_lenient R c rs :
  rejected (validate_resolve_proposals c rs) = false →
  rejected (validate_resolve_proposals (relax R D c) rs) = false.
Proof.
  unfold validate_resolve_proposals. rewrite admission_relax.
  change (validate_pending (relax R D c)) with (validate_pending c). cbn [relax ctx_patch ctx_revision].
  intros Hr. split_report; done.
Qed.

Section proposals.
Context (v v' : OpContext → res Verdict).
(** The recursive validation is lenient on the replays of Proposals. *)
Context (Hv : ∀ R c, ctx_mode c = ModeReplay → wider R D c → lenient fst (v c) (v' (relax R D c))).

Lemma proposal_lenient R c q : wider R D c →
  lenient id (validate_proposal v c ModeReplay q) (validate_proposal v' (relax R D c) ModeReplay q).
Proof.
  intros HR. unfold validate_proposal. cbn [relax ctx_state ctx_revision].
  destruct (is_some _); [apply lenient_refl|]. cbn [bool_decide andb when app].
  intros r Hr Hrej. apply res_bind_ok in Hr as (ops & Ho & [= <-]). unfold _validate_proposal_ops in *.
  cbn [decide] in Ho |- *. apply res_bind_ok in Ho as (refs & [= <-] & Ho).
  apply res_bind_ok in Ho as (gs & Hgs & Ho). apply res_bind_ok in Ho as (rep & Hrep & [= <-]).
  simpl in Hrej. split_report.
  destruct (rejected rep.1) eqn:Hrr; [done|].
  destruct (Hv R (replay_context c ModeReplay gs) eq_refl HR rep Hrep Hrr) as (rep' & Hrep' & Hrr').
  eexists. simpl. rewrite Hgs. simpl. change (replay_context (relax R D c) ModeReplay gs) with
    (relax R D (replay_context c ModeReplay gs)). rewrite Hrep'. simpl. split; [done|].
  simpl. by rewrite Hrr'.
Qed.

Lemma create_proposals_lenient R c ps : wider R D c →
  lenient id (validate_create_proposals v c ps) (validate_create_proposals v' (relax R D c) ps).
Proof.
  intros HR. unfold validate_create_proposals. apply lenient_concat. intros [dup q] _ r Hr Hrej.
  apply res_bind_ok in Hr as (r1 & Hr1 & [= <-]). simpl in Hrej. split_report.
  destruct (proposal_lenient R c q HR r1 Hr1) as (r1' & Hr1' & Hrej'); [done|].
  rewrite Hr1'. eexists. split; [done|]. simpl. split_report; done.
Qed.

Lemma structural_lenient R c op : current_write c → wider R D c →
  lenient fst (structural_validate v c op) (structural_validate v' (relax R D c) op).
Proof.
  intros Hw HR. destruct op; cbn [structural_validate]; try apply lenient_refl;
    try (apply lenient_ok; cbn [fst]).
  - apply create_nodes_lenient.
  - by apply update_nodes_lenient.
  - apply create_edges_lenient.
  - apply supersede_nodes_lenient.
  - apply merge_nodes_lenient.
  - intros r Hr Hrej. unfold only_report in *. apply res_bind_ok in Hr as (r1 & Hr1 & [= <-]).
    destruct (create_proposals_lenient R c _ HR r1 Hr1 Hrej) as (r1' & -> & ?). by eexists.
  - apply resolve_proposals_lenient.
  - apply set_standing_lenient.
  - by apply truth_scope_lenient.
  - apply set_ontology_lenient.
Qed.

Lemma validate_operation_context w g op g1 :
  validate_operation w g op = Ok g1 → rejected (prg_report g1) = false →
  prg_context g1 = with_progress (prg_context g) (ctx_state (prg_context g1))
                     (repositories_after (prg_context g) op).
Proof.
  unfold validate_operation. destruct (admission _ && legacy_only op).
  { intros [= <-] Hr. cbn in Hr. by rewrite rejected_app, orb_true_r in Hr. }
  intros Hop _. simplify_res. destruct (rejected _); [done|]. by destruct (apply_valid_operation _ _ _).
Qed.

(** A context and its replay advance together. *)
Lemma operation_lenient R g g' op g1 :
  current_write (prg_context g) → wider R D (prg_context g) →
  prg_context g' = relax R D (prg_context g) → rejected (prg_report g') = false →
  validate_operation v g op = Ok g1 → rejected (prg_report g1) = false →
  ∃ R1 g1', validate_operation v' g' op = Ok g1' ∧ rejected (prg_report g1') = false ∧
    wider R1 D (prg_context g1) ∧ prg_context g1' = relax R1 D (prg_context g1).
Proof.
  intros Hw HR Hc Hg' Hop Hg1.
  destruct (validate_operation_passed v g op g1 Hop Hg1) as (_ & _ & Hps).
  pose proof (validate_operation_context v g op g1 Hop Hg1) as Hctx.
  destruct (psd_structural _ _ _ _ Hps) as (s & Hs & Hsr).
  destruct (structural_lenient R _ op Hw HR s Hs Hsr) as (s' & Hs' & Hsr').
  exists (repositories_after (relax R D (prg_context g)) op).
  unfold validate_operation. rewrite Hc, admission_relax, Hs'. simpl.
  rewrite app_nil_r, Hsr', (psd_staged _ _ _ _ Hps).
  eexists. split; [done|]. cbn [prg_report prg_context]. split; [by split_report|].
  rewrite Hctx. split; [|done]. destruct HR as [HR HD]. split; [|exact HD].
  unfold repositories_after. cbn [with_progress ctx_repositories relax].
  destruct op as [| | | | | | | | | | | | | | |? [d|]|]; try done. destruct (complete_descriptor d); set_solver.
Qed.

Lemma loop_lenient ops R g g' g1 :
  current_write (prg_context g) → wider R D (prg_context g) →
  prg_context g' = relax R D (prg_context g) → rejected (prg_report g') = false →
  res_fold (validate_operation v) g ops = Ok g1 → rejected (prg_report g1) = false →
  ∃ R1 g1', res_fold (validate_operation v') g' ops = Ok g1' ∧ rejected (prg_report g1') = false ∧
    wider R1 D (prg_context g1) ∧ prg_context g1' = relax R1 D (prg_context g1).
Proof.
  revert R g g'. induction ops as [|op ops IH]; intros R g g' Hw HR Hc Hg' Hf Hr; simpl in *.
  { injection Hf as ->. eauto 10. }
  apply res_bind_ok in Hf as (g2 & Hop & Hf).
  destruct (validate_loop_passed v ops g2 g1 Hf Hr) as (Hr2 & _).
  destruct (operation_lenient R g g' op g2 Hw HR Hc Hg' Hop Hr2) as (R2 & g2' & -> & Hr2' & HR2 & Hc2).
  apply (IH R2 g2 g2'); [|done..].
  rewrite (validate_operation_context v g op g2 Hop Hr2). exact Hw.
Qed.
End proposals.

(** The recursion, at any depth. *)
Lemma operations_lenient n R c : current_write c → wider R D c →
  lenient fst (operations_at n c) (operations_at n (relax R D c)) ∧
  ∀ g, validate_operations_loop (operations_at n) c = Ok g → rejected (prg_report g) = false →
  ∃ R' g', validate_operations_loop (operations_at n) (relax R D c) = Ok g' ∧
    rejected (prg_report g') = false ∧ prg_context g' = relax R' D (prg_context g).
Proof.
  revert R c. induction n as [|n IH]; intros R c Hw HR; split.
  - apply lenient_refl.
  - intros g Hg Hr.
    destruct (loop_lenient (operations_at 0) (operations_at 0) ltac:(intros; apply lenient_refl)
      _ R {| prg_context := c; prg_report := []; prg_oldest := None |}
      {| prg_context := relax R D c; prg_report := []; prg_oldest := None |} g Hw HR eq_refl eq_refl
      Hg Hr) as (R1 & g' & Hg' & Hr' & _ & Hc'). eauto.
  - intros v Hop Hrej. simpl in Hop. apply res_bind_ok in Hop as (g & Hg & [= <-]). cbn [fst] in Hrej.
    destruct (proj2 (IH R c Hw HR) g Hg Hrej) as (R' & g' & Hg' & Hr' & _).
    cbn [operations_at]. rewrite Hg'. eexists. split; [done|]. done.
  - intros g Hg Hr.
    assert (∀ R c, ctx_mode c = ModeReplay → wider R D c →
      lenient fst (operations_at (S n) c) (operations_at (S n) (relax R D c))) as Hv.
    { intros R' c' Hm HR' v Hop Hrej. simpl in Hop. apply res_bind_ok in Hop as (g0 & Hg0 & [= <-]).
      destruct (proj2 (IH R' c' ltac:(intros ?; congruence) HR') g0 Hg0 Hrej) as (R1 & g' & Hg' & Hr' & _).
      cbn [operations_at]. rewrite Hg'. eexists. split; [done|]. done. }
    destruct (loop_lenient _ _ Hv _ R {| prg_context := c; prg_report := []; prg_oldest := None |}
      {| prg_context := relax R D c; prg_report := []; prg_oldest := None |}
      g Hw HR eq_refl eq_refl Hg Hr) as (R1 & g' & Hg' & Hr' & _ & Hc'). eauto.
Qed.

(** ** The whole Patch *)

Lemma liveness_lenient R c :
  rejected (_validate_created_proposal_liveness c) = false →
  rejected (_validate_created_proposal_liveness (relax R D c)) = false.
Proof.
  unfold _validate_created_proposal_liveness. cbn [relax ctx_patch]. rewrite !rejected_bind_false.
  intros Hall id Hid. specialize (Hall id Hid). destruct (_ !! id) as [i|]; [|done].
  unfold validate_created_liveness in *. rewrite admission_relax. cbn [relax ctx_state].
  destruct (gs_proposals (ctx_state c) !! id) as [q|]; [|done].
  destruct (if admission c then _ else _) as [[nodes edges] config].
  destruct (_ || _); [done|]. done.
Qed.

Lemma direct_edit_lenient st p us rev m :
  rejected (_validate_direct_node_edit st p us m rev) = false →
  rejected (_validate_direct_node_edit st p us ModeReplay rev) = false.
Proof.
  unfold _validate_direct_node_edit. destruct us as [|u [|]]; [done| |done].
  intros Hr. split_report; [done|]. destruct (gs_nodes st !! nu_id u) as [n|]; [|done].
  split_report; [done|]. destruct (bool_decide (nu_changes u = ∅)); [done|]. by split_report.
Qed.

Lemma standalone_lenient st p rev m :
  rejected (validate_standalone st p m rev) = false →
  rejected (validate_standalone st p ModeReplay rev) = false.
Proof.
  destruct m; [|done]. unfold validate_standalone.
  assert (rejected (validate_staged_edit st p ModeAdmission rev) = false →
          rejected (validate_staged_edit st p ModeReplay rev) = false) as Hedit.
  { unfold validate_staged_edit. repeat case_match; try done; intros Hr; split_report;
      by eauto using direct_edit_lenient. }
  destruct (p_ops p) as [|[] [|]]; cbn [decide]; try done;
    destruct (negb _ && forallb _ _); done || apply Hedit.
Qed.

Lemma approval_lenient st p m :
  lenient id (validate_approval_shape st p m) (validate_approval_shape st p ModeReplay).
Proof.
  unfold validate_approval_shape. destruct (_ && negb _); [apply lenient_refl|].
  destruct (resolution_ops p) as [|[|r []] []]; try apply lenient_refl.
  { apply lenient_ok, standalone_lenient. }
  unfold validate_resolution. destruct (gs_proposals st !! pr_id r) as [q|]; [|apply lenient_refl].
  destruct (negb (bool_decide (prop_status q = PPending))); [apply lenient_refl|].
  destruct (decide (pr_status r = Approved)); [|apply lenient_refl].
  intros v Hv Hr. apply res_bind_ok in Hv as (a & Ha & [= <-]). unfold validate_approved in *.
  apply res_bind_ok in Ha as (normalized & -> & Ha). apply res_bind_ok in Ha as (stored & -> & Ha).
  cbn [mbind res_bind]. eexists. split; [done|]. injection Ha as <-. unfold id in *.
  split_report; try done.
  - destruct (negb _ && negb _); [done|].
    rewrite (bool_decide_eq_false_2 (ModeReplay = ModeAdmission)), andb_false_r by done.
    destruct (graph_ops_eqb (semantic_ops p) stored && _); [done|]. done.
  - rewrite (bool_decide_eq_false_2 (ModeReplay = ModeAdmission)) by done. cbn [andb].
    destruct (_writes_decision_outcome st (semantic_ops p)); rewrite ?andb_false_r, ?andb_true_r in *;
      [done|]. done.
Qed.

Lemma loop_authority_lenient st p id pinned m :
  (m = ModeAdmission → p_schema_generation p = 2%Z) →
  lenient (λ r, r) (validate_experiment_loop_authority st p id pinned m)
    (validate_experiment_loop_authority st p id pinned ModeReplay).
Proof.
  intros Hg. unfold validate_experiment_loop_authority.
  destruct (_ ≫= _) as [n|]; [|apply lenient_refl]. destruct (as_experiment n) as [e|]; [|apply lenient_refl].
  assert (∀ op, validate_loop_op st p (node_id n) e pinned m op =
                validate_loop_op st p (node_id n) e pinned ModeReplay op) as Hop.
  { intros op. unfold validate_loop_op. replace (_allowed_experiment_fields p m) with
      (_allowed_experiment_fields p ModeReplay); [done|].
    unfold _allowed_experiment_fields. destruct m; [|done]. by rewrite Hg. }
  intros v Hv Hr. apply res_bind_ok in Hv as (ops & Hops & [= <-]). split_report.
  destruct (lenient_concat (validate_loop_op st p (node_id n) e pinned m)
    (validate_loop_op st p (node_id n) e pinned ModeReplay) (p_ops p)) with (v := ops)
    as (ops' & -> & Hr'); [|done|done|].
  { intros op _. rewrite Hop. apply lenient_refl. }
  eexists. split; [done|]. simpl in *. by split_report.
Qed.

Lemma envelope_lenient R c bundle : current_write c →
  lenient (λ r, r) (validate_envelope c bundle) (validate_envelope (relax R D c) bundle).
Proof.
  intros Hw v Hv Hr. unfold validate_envelope in Hv. apply res_bind_ok in Hv as (loop & Hl & Hv).
  apply res_bind_ok in Hv as (approval & Ha & [= <-]). split_report.
  unfold validate_envelope. cbn [relax ctx_patch ctx_initial_state ctx_mode ctx_revision
    ctx_experiment_control_node_id].
  assert (∃ loop', (if decide (p_kind (ctx_patch c) = KExperimentLoop)
    then validate_experiment_loop_authority (ctx_initial_state c) (ctx_patch c)
           (ctx_experiment_control_node_id c) bundle ModeReplay
    else Ok (when (truthy_opt (ctx_experiment_control_node_id c) || negb (is_nil bundle))
           (reject "unexpected-experiment-control" (ctx_revision c) [] []))) = Ok loop' ∧
    rejected loop' = false) as (loop' & -> & Hl').
  { destruct (decide _); [|by eauto]. by eapply loop_authority_lenient. }
  assert (∃ approval', (if decide (p_kind (ctx_patch c) = KApproval)
    then validate_approval_shape (ctx_initial_state c) (ctx_patch c) ModeReplay else Ok []) =
      Ok approval' ∧ rejected approval' = false) as (approval' & Ha' & Hap).
  { destruct (decide (_ = KApproval)); [|by eauto]. by eapply (approval_lenient _ _ (ctx_mode c)). }
  rewrite Ha'. simpl. eexists. split; [done|]. split_report; done.
Qed.
End rules.

(** ** The theorem *)

(** [set(repository_aliases or scope)]. *)
Definition effective_repositories (cfg : Settings) : gset string :=
  match cfg_repository_aliases cfg with
  | Some ((_ :: _) as l) => list_to_set l
  | _ => list_to_set (cfg_project_truth_scope cfg)
  end.

(** [set(default_run_truth_scope or [])]. *)
Definition effective_default (cfg : Settings) : gset string :=
  list_to_set (default [] (cfg_default_run_truth_scope cfg)).

(** [cfg'] replays what [cfg] admitted: the same settings, in replay mode, with
    at least the repositories of [cfg] and at most its default run scope. *)
Record replays_settings (cfg cfg' : Settings) : Prop := {
  rs_scope : cfg_project_truth_scope cfg' = cfg_project_truth_scope cfg;
  rs_repositories : effective_repositories cfg ⊆ effective_repositories cfg';
  rs_machines : cfg_machine_aliases cfg' = cfg_machine_aliases cfg;
  rs_default : effective_default cfg' ⊆ effective_default cfg;
  rs_state : cfg_state_repository cfg' = cfg_state_repository cfg;
  rs_mode : cfg_mode cfg' = ModeReplay;
  rs_control : cfg_experiment_control_node_id cfg' = cfg_experiment_control_node_id cfg;
  rs_bundle : cfg_experiment_decision_bundle cfg' = cfg_experiment_decision_bundle cfg }.

Section theorem.
Context `{NodeAdapter, RecordAdapter, TextLib}.
Implicit Types (p : Patch) (st : GraphState).

Lemma replays_context st p cfg cfg' : replays_settings cfg cfg' →
  initial_context st p cfg' =
    relax (effective_repositories cfg') (effective_default cfg') (initial_context st p cfg).
Proof.
  intros [Hs _ Hm _ Hst Hmode Hc Hb]. unfold initial_context, relax, effective_repositories.
  cbn. by rewrite Hs, Hm, Hst, Hmode, Hc.
Qed.

Lemma validation_lenient st p cfg cfg' : replays_settings cfg cfg' →
  rejected (validate_source_patch st p cfg) = false →
  rejected (validate_source_patch st p cfg') = false.
Proof.
  intros Hcfg Hr.
  destruct (validate_source_patch_loop st p cfg Hr) as (g & env & Hg & Hrg & He & Hre & _ & Hl).
  assert (current_write (initial_context st p cfg)) as Hw.
  { intros Hm. apply res_bind_ok in He as (loop & _ & He). apply res_bind_ok in He as (app & _ & [= <-]).
    split_report. unfold admission in *. rewrite Hm in *. cbn in *.
    destruct (p_schema_generation p =? 2)%Z eqn:Hgen; [by apply Z.eqb_eq|done]. }
  unfold validate_source_patch, _validate_patch. rewrite (replays_context st p cfg cfg' Hcfg).
  destruct (envelope_lenient (effective_default cfg') (effective_repositories cfg') _ _ Hw env He Hre) as (env' & He' & Hre').
  rewrite (rs_bundle _ _ Hcfg), He'. simpl.
  destruct (operations_lenient (effective_default cfg') 1 (effective_repositories cfg') (initial_context st p cfg) Hw) as [_ Hops].
  { split; [exact (rs_repositories _ _ Hcfg)|exact (rs_default _ _ Hcfg)]. }
  destruct (Hops g Hg Hrg) as (R' & g' & Hg' & Hrg' & Hc').
  unfold _validate_operations. rewrite Hg'. simpl. rewrite Hc'. split_report; try done.
  - by apply liveness_lenient.
  - unfold validate_coverage. rewrite rejected_when. apply andb_false_r.
Qed.

(** Whatever is admitted replays.  A Patch that validation accepts when it is
    written is accepted again when the log is replayed, on the same graph, under
    the same settings or after the repository table has grown or the default run
    scope has shrunk: replay drops checks, and adds none. *)
Theorem admitted_patch_replays st p cfg cfg' :
  replays_settings cfg cfg' →
  rejected (validate_source_patch st p cfg) = false →
  rejected (validate_source_patch st p cfg') = false.
Proof. apply validation_lenient. Qed.
End theorem.
