(* ===== verification/Bookkeeping.v ===== *)
(** The bookkeeping of created Proposals ([prepare_patch_bookkeeping] and
    [finalize_patch_bookkeeping] of [core/materialize.py]).

    Before a Patch is written, the names a created Proposal relates to are
    copied from the staged graph into the Patch.  They are a snapshot for
    readers: validation and application read the content of a Proposal alone,
    so they give the same verdict and the same graph for both versions. *)

From S2P Require Export Leniency Replay.

Section ext.
Context {A B C : Type}.

Lemma bind_refresh (r : A → A) (g : A → list B) (l : list A) :
  (∀ x, g (r x) = g x) → (r <$> l) ≫= g = l ≫= g.
Proof.
  intros Hg. induction l as [|x l IH]; [done|]. rewrite fmap_cons, !bind_cons. by rewrite Hg, IH.
Qed.

Lemma fmap_same (f g : A → B) (l : list A) : (∀ x, f x = g x) → f <$> l = g <$> l.
Proof. intros Hfg. by apply list_fmap_ext. Qed.

Lemma existsb_refresh (r : A → A) (g : A → bool) (l : list A) :
  (∀ x, g (r x) = g x) → existsb g (r <$> l) = existsb g l.
Proof. intros Hg. induction l as [|x l IH]; [done|]. rewrite fmap_cons. simpl. by rewrite Hg, IH. Qed.

Lemma forallb_refresh (r : A → A) (g : A → bool) (l : list A) :
  (∀ x, g (r x) = g x) → forallb g (r <$> l) = forallb g l.
Proof. intros Hg. induction l as [|x l IH]; [done|]. rewrite fmap_cons. simpl. by rewrite Hg, IH. Qed.

Lemma existsb_same (f g : A → bool) (l : list A) : (∀ x, f x = g x) → existsb f l = existsb g l.
Proof. intros Hg. induction l as [|x l IH]; [done|]. simpl. by rewrite Hg, IH. Qed.

Lemma foldl_refresh (r : A → A) (g : C → A → C) (l : list A) c :
  (∀ c x, g c (r x) = g c x) → foldl g c (r <$> l) = foldl g c l.
Proof. intros Hg. revert c. induction l as [|x l IH]; intros c; [done|]. simpl. by rewrite Hg, IH. Qed.

Lemma omap_refresh (r : A → A) (g : A → option B) (l : list A) :
  (∀ x, g (r x) = g x) → omap g (r <$> l) = omap g l.
Proof. intros Hg. induction l as [|x l IH]; [done|]. cbn. rewrite Hg. by destruct (g x); rewrite <-IH. Qed.

Lemma is_nil_fmap (f : A → B) l : is_nil (f <$> l) = is_nil l.
Proof. by destruct l. Qed.
End ext.

Lemma res_map_refresh {A B} (r : A → A) (g g' : A → res B) (l : list A) :
  (∀ x, g (r x) = g' x) → res_map g (r <$> l) = res_map g' l.
Proof. intros Hg. induction l as [|x l IH]; [done|]. cbn. by rewrite Hg, IH. Qed.

Lemma each_same {A} (f g : A → res Verdict) l : (∀ x, f x = g x) → each f l = each g l.
Proof. intros Hg. induction l as [|x l IH]; [done|]. simpl. by rewrite Hg, IH. Qed.

Lemma res_fold_refresh {S A} (r : A → A) (g g' : S → A → res S) (l : list A) s :
  (∀ s x, g s (r x) = g' s x) → res_fold g s (r <$> l) = res_fold g' s l.
Proof.
  intros Hg. revert s. induction l as [|x l IH]; intros s; [done|]. cbn. rewrite Hg.
  destruct (g' s x); [apply IH|done].
Qed.

(** [f] changes the snapshot of a created Proposal, and nothing it says. *)
Record keeps_content (f : Proposal → Proposal) : Prop := {
  kc_id : ∀ q, prop_id (f q) = prop_id q;
  kc_card : ∀ q, prop_card (f q) = prop_card q;
  kc_ops : ∀ q, prop_ops (f q) = prop_ops q;
  kc_base : ∀ q, prop_base_rev (f q) = prop_base_rev q;
  kc_raised : ∀ p st q, proposal_raised p st (f q) = proposal_raised p st q }.

(** An operation with its created Proposals rewritten. *)
Definition refresh (f : Proposal → Proposal) (op : GraphOperation) : GraphOperation :=
  match op with CreateProposals ps => CreateProposals (f <$> ps) | _ => op end.

Lemma map_proposals_ops f p : p_ops (map_proposals f p) = refresh f <$> p_ops p.
Proof. done. Qed.

Section finalize.
Context (staged : GraphState).

Lemma finalized_keeps : keeps_content (finalized_proposal staged).
Proof.
  split; try (intros q; unfold finalized_proposal; by destruct (gs_proposals staged !! prop_id q)).
  intros p st q. unfold finalized_proposal. destruct (gs_proposals staged !! prop_id q) as [s|]; [|done].
  unfold proposal_raised. cbn [prop_ops prop_fields_set prop_id prop_title prop_card prop_status
    prop_created_by prop_created_by_operation_id prop_resolved_rev prop_resolved_by
    prop_resolved_by_operation_id prop_resolution_reason prop_rejection_reason].
  destruct (proposal_dependencies st (prop_ops q)) as [[ns es] cs].
  assert (∀ k, k ∉ ["related_node_ids"; "related_edge_ids"; "related_config_keys"] →
    k ∈ prop_fields_set q ∪ {["related_node_ids"; "related_edge_ids"; "related_config_keys"]} ↔
    k ∈ prop_fields_set q) as Hk by set_solver.
  f_equal.
  - apply decide_ext, Hk. by_decide.
  - apply decide_ext, Hk. by_decide.
  - apply leibniz_equiv. set_solver.
Qed.
End finalize.

Section refresh.
Context `{NodeAdapter, RecordAdapter, TextLib}.
Context (f : Proposal → Proposal) (Hf : keeps_content f).
Implicit Types (p : Patch) (st : GraphState) (c : OpContext) (op : GraphOperation).

(** ** What reads the operations of a Patch *)

Lemma created_nodes_refresh ops : created_nodes (refresh f <$> ops) = created_nodes ops.
Proof. apply bind_refresh. by intros []. Qed.

Lemma created_edges_refresh ops : created_edges (refresh f <$> ops) = created_edges ops.
Proof. apply bind_refresh. by intros []. Qed.

Lemma created_node_ids_refresh p : created_node_ids (map_proposals f p) = created_node_ids p.
Proof. unfold created_node_ids. by rewrite map_proposals_ops, created_nodes_refresh. Qed.

Lemma created_edge_ids_refresh p : created_edge_ids (map_proposals f p) = created_edge_ids p.
Proof. apply bind_refresh. by intros []. Qed.

Lemma created_node_type_refresh p id : _created_node_type (map_proposals f p) id = _created_node_type p id.
Proof. unfold _created_node_type. by rewrite map_proposals_ops, created_nodes_refresh. Qed.

Lemma resolution_ops_refresh p : resolution_ops (map_proposals f p) = resolution_ops p.
Proof. apply bind_refresh. by intros []. Qed.

Lemma update_ops_refresh p : update_ops (map_proposals f p) = update_ops p.
Proof. apply bind_refresh. by intros []. Qed.

Lemma standing_ops_refresh p : standing_ops (map_proposals f p) = standing_ops p.
Proof. apply bind_refresh. by intros []. Qed.

Lemma semantic_ops_refresh p : semantic_ops (map_proposals f p) = refresh f <$> semantic_ops p.
Proof.
  unfold semantic_ops. rewrite map_proposals_ops. induction (p_ops p) as [|op ops IH]; [done|].
  rewrite fmap_cons. destruct op; simpl; rewrite ?IH; done.
Qed.

Lemma new_node_ids_refresh st p : new_node_ids st (map_proposals f p) = new_node_ids st p.
Proof. unfold new_node_ids. by rewrite created_node_ids_refresh. Qed.

Lemma is_nil_ops_refresh p : is_nil (p_ops (map_proposals f p)) = is_nil (p_ops p).
Proof. apply is_nil_fmap. Qed.
End refresh.

#[export] Hint Rewrite created_nodes_refresh created_edges_refresh created_node_ids_refresh
  created_edge_ids_refresh created_node_type_refresh resolution_ops_refresh update_ops_refresh
  standing_ops_refresh new_node_ids_refresh is_nil_ops_refresh @is_nil_fmap : refresh.

(** ** Application *)

Section apply.
Context `{NodeAdapter}.
Context (f : Proposal → Proposal) (Hf : keeps_content f).
Implicit Types (p : Patch) (st : GraphState) (op : GraphOperation).

Lemma map_proposals_like p : stages_like (map_proposals f p) p.
Proof. done. Qed.

Lemma apply_op_refresh p g s i op :
  apply_op (map_proposals f p) g s (i, refresh f op) = apply_op p g s (i, op).
Proof.
  rewrite (apply_op_like _ p) by apply map_proposals_like.
  destruct op; try done. simpl. do 2 f_equal. apply foldl_refresh. intros st q.
  unfold apply_create_proposal. by rewrite (kc_id _ Hf), (kc_raised _ Hf).
Qed.

Lemma imap_pair_refresh (ops : list GraphOperation) :
  imap pair (refresh f <$> ops) = (λ io, (io.1, refresh f io.2)) <$> imap pair ops.
Proof. rewrite imap_fmap, fmap_imap. done. Qed.

Lemma apply_patch_ops_refresh st p ds sys :
  _apply_patch st (map_proposals f p) ds sys = _apply_patch st p ds sys.
Proof.
  unfold _apply_patch. rewrite map_proposals_ops, imap_pair_refresh.
  rewrite (res_fold_refresh _ _ (apply_op p (generated_indexes p sys))).
  - destruct (res_fold _ _ _) as [s|]; simpl; [|done].
    by rewrite (close_patch_like _ p) by apply map_proposals_like.
  - intros s [i op]. apply apply_op_refresh.
Qed.

Lemma apply_valid_patch_refresh st p : apply_valid_patch st (map_proposals f p) = apply_valid_patch st p.
Proof. unfold apply_valid_patch. by rewrite apply_patch_ops_refresh. Qed.

Lemma apply_operation_refresh st p op :
  apply_valid_operation st (map_proposals f p) (refresh f op) = apply_valid_operation st p op.
Proof.
  unfold apply_valid_operation.
  change (with_ops (map_proposals f p) [refresh f op]) with (map_proposals f (with_ops p [op])).
  by rewrite apply_patch_ops_refresh.
Qed.
End apply.

(** ** Authority and rules *)

(** A context with the created Proposals of its Patches rewritten. *)
Definition remap (f : Proposal → Proposal) (c : OpContext) : OpContext :=
  {| ctx_state := ctx_state c; ctx_initial_state := ctx_initial_state c;
     ctx_patch := map_proposals f (ctx_patch c); ctx_revision := ctx_revision c;
     ctx_project_truth_scope := ctx_project_truth_scope c; ctx_repositories := ctx_repositories c;
     ctx_machines := ctx_machines c; ctx_default_run_truth_scope := ctx_default_run_truth_scope c;
     ctx_state_repository := ctx_state_repository c; ctx_mode := ctx_mode c;
     ctx_experiment_control_node_id := ctx_experiment_control_node_id c;
     ctx_reference_patch := map_proposals f <$> ctx_reference_patch c |}.

Section rules.
Context `{NodeAdapter, RecordAdapter, TextLib}.
Context (f : Proposal → Proposal) (Hf : keeps_content f).
Implicit Types (p : Patch) (st : GraphState) (c : OpContext) (op : GraphOperation).

Lemma operation_actions_refresh st p op :
  operation_actions st (map_proposals f p) (refresh f op) = operation_actions st p op.
Proof.
  destruct op; try done; cbn [refresh operation_actions].
  - unfold _update_actions. f_equal. apply fmap_same. intros u. unfold update_action.
    by rewrite created_node_type_refresh.
  - unfold _create_edge_actions. by rewrite new_node_ids_refresh.
  - unfold _remove_edge_actions. by rewrite created_edge_ids_refresh.
  - unfold _node_lifecycle_actions. by rewrite new_node_ids_refresh.
  - unfold _node_lifecycle_actions. by rewrite new_node_ids_refresh.
  - by rewrite created_node_type_refresh.
Qed.

Lemma operation_authority_refresh c op :
  _validate_operation_authority (remap f c) (refresh f op) = _validate_operation_authority c op.
Proof.
  unfold _validate_operation_authority. change (admission (remap f c)) with (admission c).
  cbn [remap ctx_patch ctx_initial_state ctx_revision]. rewrite operation_actions_refresh.
  replace (operation_actions_raises (ctx_initial_state c) (map_proposals f (ctx_patch c)) (refresh f op))
    with (operation_actions_raises (ctx_initial_state c) (ctx_patch c) op) by (by destruct op). done.
Qed.

Lemma context_patches_refresh c : context_patches (remap f c) = map_proposals f <$> context_patches c.
Proof. unfold context_patches. by destruct c as [??????????? []]. Qed.

Lemma node_type_refresh c id : _node_type (remap f c) id = _node_type c id.
Proof.
  unfold _node_type. rewrite context_patches_refresh, omap_refresh; [done|].
  intros p. apply created_node_type_refresh.
Qed.

Lemma created_node_id_refresh c id : _created_node_id (remap f c) id = _created_node_id c id.
Proof. unfold _created_node_id. cbn [remap ctx_patch]. by rewrite created_node_ids_refresh. Qed.

Lemma edge_in_context_refresh c id : _edge_in_context (remap f c) id = _edge_in_context c id.
Proof.
  unfold _edge_in_context. rewrite context_patches_refresh, bind_refresh; [done|].
  intros p. apply created_edges_refresh.
Qed.

Lemma belief_cause_refresh c h cause :
  _validate_belief_cause (remap f c) h cause = _validate_belief_cause c h cause.
Proof.
  destruct cause as [[]|]; try done; unfold _validate_belief_cause;
    cbn [remap ctx_patch ctx_revision]; rewrite ?node_type_refresh, ?resolution_ops_refresh,
    ?edge_in_context_refresh; try done.
  destruct (_edge_in_context c _); [|done]. by rewrite node_type_refresh.
Qed.

Lemma existing_protected_refresh st p id :
  _existing_protected_node st (Some (map_proposals f p)) id = _existing_protected_node st (Some p) id.
Proof.
  unfold _existing_protected_node, created_by_context. by rewrite created_node_ids_refresh.
Qed.

Lemma protected_type_refresh st p id :
  _protected_node_type st (Some (map_proposals f p)) id = _protected_node_type st (Some p) id.
Proof. unfold _protected_node_type. by rewrite created_node_type_refresh. Qed.

Lemma retires_into_refresh st p a b :
  retires_into st (Some (map_proposals f p)) a b = retires_into st (Some p) a b.
Proof. unfold retires_into. by rewrite existing_protected_refresh, protected_type_refresh. Qed.

Lemma intent_accepts_refresh st p o :
  intent_accepts st (Some (map_proposals f p)) o = intent_accepts st (Some p) o.
Proof.
  destruct o; try done; cbn [intent_accepts].
  - unfold _validate_content_change_intent. repeat case_match; try done;
      rewrite existing_protected_refresh in *; congruence.
  - unfold _validate_removal_intent. repeat case_match; try done.
    by rewrite existing_protected_refresh.
  - unfold _validate_supersede_intent. repeat case_match; try done. by rewrite retires_into_refresh.
  - unfold _validate_merge_intent. repeat case_match; try done. by rewrite retires_into_refresh.
  - unfold _validate_protected_relation_change_intent, created_by_context.
    repeat case_match; try done;
      by rewrite ?created_node_ids_refresh, ?created_edge_ids_refresh, !existing_protected_refresh.
Qed.
End rules.

(** ** Operations *)

Section operations.
Context `{NodeAdapter, RecordAdapter, TextLib}.
Context (f : Proposal → Proposal) (Hf : keeps_content f).
Implicit Types (p : Patch) (st : GraphState) (c : OpContext) (op : GraphOperation).

Lemma author_update_refresh c u : author_update_node (remap f c) u = author_update_node c u.
Proof.
  unfold author_update_node. cbn [remap ctx_state ctx_patch ctx_revision ctx_reference_patch].
  destruct (gs_nodes _ !! nu_id u) as [n|]; [|done].
  rewrite resolution_ops_refresh, belief_cause_refresh. by destruct (ctx_reference_patch c).
Qed.

Lemma remove_nodes_refresh c ids : validate_remove_nodes (remap f c) ids = validate_remove_nodes c ids.
Proof.
  unfold validate_remove_nodes. cbn [remap ctx_state ctx_patch ctx_revision ctx_reference_patch ctx_initial_state].
  rewrite resolution_ops_refresh. by destruct (ctx_reference_patch c).
Qed.

Lemma generated_relation_refresh c s t r :
  _validate_generated_relation_endpoints (remap f c) s t r =
  _validate_generated_relation_endpoints c s t r.
Proof.
  unfold _validate_generated_relation_endpoints. rewrite !node_type_refresh. done.
Qed.

Lemma supersede_refresh c items : validate_supersede_nodes (remap f c) items = validate_supersede_nodes c items.
Proof.
  apply bind_same. intros i. change (admission (remap f c)) with (admission c).
  destruct (sn_superseded_by i); [|done].
  by rewrite created_node_id_refresh, node_type_refresh, generated_relation_refresh.
Qed.

Lemma merge_refresh c items : validate_merge_nodes (remap f c) items = validate_merge_nodes c items.
Proof.
  apply bind_same. intros i. change (admission (remap f c)) with (admission c).
  by rewrite node_type_refresh, generated_relation_refresh.
Qed.

Lemma edge_relation_refresh c e : validate_edge_relation (remap f c) e = validate_edge_relation c e.
Proof.
  unfold validate_edge_relation. change (admission (remap f c)) with (admission c).
  rewrite !node_type_refresh, !created_node_id_refresh. cbn [remap ctx_state ctx_patch ctx_revision].
  by rewrite map_proposals_ops, created_nodes_refresh.
Qed.

Lemma create_edges_refresh c es : validate_create_edges (remap f c) es = validate_create_edges c es.
Proof.
  unfold validate_create_edges. cbn [remap ctx_state]. f_equal.
  generalize (([], dom (gs_edges (ctx_state c))) : ValidationReport * gset string).
  induction es as [|e es IH]; intros acc; [done|]. simpl. rewrite <-IH. f_equal.
  unfold validate_new_edge. destruct acc as [r seen]. by rewrite edge_relation_refresh.
Qed.

Lemma author_edges_refresh c es : author_create_edges (remap f c) es = author_create_edges c es.
Proof. apply bind_same. intros e. unfold author_create_edge. by rewrite !node_type_refresh. Qed.

Section nested.
(** The validation of a Proposal's replay, for both versions. *)
Context (v : OpContext → res Verdict).
Context (Hv : ∀ c, v (remap f c) = v c).

Lemma refresh_semantic ops : forallb semantic_replay_op ops = true → refresh f <$> ops = ops.
Proof.
  induction ops as [|op ops IH]; [done|]. cbn [forallb]. intros [Hop Hops]%andb_true_iff. rewrite fmap_cons.
  rewrite IH by done. by destruct op.
Qed.

Lemma replay_context_refresh c mode ops : forallb semantic_replay_op ops = true →
  replay_context (remap f c) mode ops = remap f (replay_context c mode ops).
Proof.
  intros Hs. unfold replay_context, remap. cbn. f_equal. unfold map_proposals, with_ops. cbn.
  change (λ op : GraphOperation, _) with (refresh f). by rewrite refresh_semantic.
Qed.

Lemma proposal_ops_refresh c q mode :
  _validate_proposal_ops v (remap f c) (f q) mode = _validate_proposal_ops v c q mode.
Proof.
  unfold _validate_proposal_ops, proposal_source_refs. rewrite (kc_ops _ Hf).
  change (oldest_source_ref ?r (ctx_patch (remap f c))) with (oldest_source_ref r (ctx_patch c)).
  cbn [remap ctx_revision].
  match goal with |- _ = ?r ≫= _ => destruct r as [refs|]; simpl; [|done] end.
  destruct (graph_operations_from_proposal (prop_ops q)) as [ops|] eqn:Ho; simpl; [|done].
  rewrite replay_context_refresh by by eapply graph_operations_from_proposal_semantic.
  by rewrite Hv.
Qed.

Lemma proposal_refresh c mode q :
  validate_proposal v (remap f c) mode (f q) = validate_proposal v c mode q.
Proof.
  unfold validate_proposal, card_flags, _validate_agent_proposal_boundary.
  rewrite proposal_ops_refresh, (kc_id _ Hf), (kc_base _ Hf), (kc_card _ Hf), (kc_ops _ Hf).
  cbn [remap ctx_state ctx_revision ctx_patch].
  destruct (prop_ops q) as [|o []]; try done. by rewrite intent_accepts_refresh.
Qed.

Lemma structural_refresh c op : structural_validate v (remap f c) (refresh f op) = structural_validate v c op.
Proof.
  destruct op; try done; cbn [refresh structural_validate].
  - by rewrite create_edges_refresh.
  - by rewrite remove_nodes_refresh.
  - by rewrite supersede_refresh.
  - by rewrite merge_refresh.
  - f_equal. unfold validate_create_proposals, res_concat. f_equal.
    assert (∀ seen, zip (repeated seen (prop_id <$> (f <$> proposals))) (f <$> proposals) =
      prod_map id f <$> zip (repeated seen (prop_id <$> proposals)) proposals) as Hz.
    { induction proposals as [|q qs IH]; intros seen; [done|]. cbn. rewrite (kc_id _ Hf). f_equal. apply IH. }
    rewrite Hz. apply res_map_refresh. intros [dup q]. cbn [prod_map fst snd id].
    by rewrite proposal_refresh.
Qed.

Lemma authoring_refresh c op : authoring_validate v (remap f c) (refresh f op) = authoring_validate v c op.
Proof.
  destruct op; try done; cbn [refresh authoring_validate].
  - apply each_same, author_update_refresh.
  - by rewrite author_edges_refresh.
  - f_equal. unfold author_create_proposals, res_concat. f_equal.
    apply res_map_refresh. intros q. apply proposal_refresh.
Qed.

Definition remap_progress (g : Progress) : Progress :=
  {| prg_context := remap f (prg_context g); prg_report := prg_report g; prg_oldest := prg_oldest g |}.

Lemma operation_refresh g op :
  validate_operation v (remap_progress g) (refresh f op) =
  fmap (FMap := res_fmap) remap_progress (validate_operation v g op).
Proof.
  unfold validate_operation. cbn [remap_progress prg_context prg_report prg_oldest].
  change (admission (remap f (prg_context g))) with (admission (prg_context g)).
  replace (legacy_only (refresh f op)) with (legacy_only op) by (by destruct op).
  destruct (admission (prg_context g) && legacy_only op); [done|].
  rewrite operation_authority_refresh, structural_refresh, authoring_refresh.
  destruct (_validate_operation_authority _ _) as [a|]; simpl; [|done].
  destruct (structural_validate _ _ _) as [s|]; simpl; [|done].
  destruct (if admission _ then _ else _) as [w|]; simpl; [|done].
  rewrite (apply_operation_refresh f Hf).
  replace (repositories_after (remap f (prg_context g)) (refresh f op))
    with (repositories_after (prg_context g) op) by (by destruct op).
  destruct (rejected _); [done|]. by destruct (apply_valid_operation _ _ _).
Qed.

Lemma operations_loop_refresh c :
  validate_operations_loop v (remap f c) =
  fmap (FMap := res_fmap) remap_progress (validate_operations_loop v c).
Proof.
  unfold validate_operations_loop. cbn [remap ctx_patch]. rewrite map_proposals_ops.
  change {| prg_context := remap f c; prg_report := []; prg_oldest := None |} with
    (remap_progress {| prg_context := c; prg_report := []; prg_oldest := None |}).
  generalize {| prg_context := c; prg_report := []; prg_oldest := None |} as g.
  induction (p_ops (ctx_patch c)) as [|op ops IH]; intros g; [done|].
  rewrite fmap_cons. cbn [res_fold]. rewrite operation_refresh.
  destruct (validate_operation v g op) as [g'|]; simpl; [apply IH|done].
Qed.
End nested.

Lemma operations_at_refresh n c : operations_at n (remap f c) = operations_at n c.
Proof.
  revert c. induction n as [|n IH]; intros c; [done|]. cbn [operations_at].
  rewrite operations_loop_refresh by exact IH. by destruct (validate_operations_loop _ c).
Qed.
End operations.

(** ** The whole Patch *)

Section patch.
Context `{NodeAdapter, RecordAdapter, TextLib}.
Context (f : Proposal → Proposal) (Hf : keeps_content f).
Implicit Types (p : Patch) (st : GraphState) (c : OpContext) (op : GraphOperation).

Lemma positions_refresh ops : proposal_positions (refresh f <$> ops) = proposal_positions ops.
Proof.
  unfold proposal_positions. f_equal. rewrite imap_pair_refresh. apply bind_refresh. intros [i op].
  destruct op; try done. simpl. rewrite <-list_fmap_compose. apply fmap_same. intros q. simpl.
  by rewrite (kc_id _ Hf).
Qed.

Lemma resource_presence_refresh acc op :
  _update_resource_presence acc (refresh f op) = _update_resource_presence acc op.
Proof. by destruct op. Qed.

Lemma later_mutations_refresh c i ns es cs :
  _later_dependency_mutations (remap f c) i ns es cs = _later_dependency_mutations c i ns es cs.
Proof.
  unfold _later_dependency_mutations. cbn [remap ctx_patch ctx_initial_state].
  rewrite map_proposals_ops, <-fmap_take, <-fmap_drop.
  rewrite (foldl_refresh (refresh f)) by apply resource_presence_refresh.
  rewrite created_nodes_refresh. destruct (foldl _ _ _) as [nodes edges].
  rewrite !(bind_refresh (refresh f)) by (by intros []).
  rewrite !(existsb_refresh (refresh f)) by (by intros []). done.
Qed.

Lemma liveness_refresh c :
  _validate_created_proposal_liveness (remap f c) = _validate_created_proposal_liveness c.
Proof.
  unfold _validate_created_proposal_liveness. cbn [remap ctx_patch].
  rewrite map_proposals_ops, positions_refresh. apply bind_same. intros id.
  destruct (_ !! id) as [i|]; [|done]. unfold validate_created_liveness.
  change (admission (remap f c)) with (admission c). cbn [remap ctx_state ctx_revision].
  destruct (gs_proposals _ !! id); [|done]. by rewrite later_mutations_refresh.
Qed.

Lemma ballots_refresh c : _validate_queued_decision_options (remap f c) = _validate_queued_decision_options c.
Proof.
  unfold _validate_queued_decision_options. cbn [remap ctx_patch].
  change (admission (remap f c)) with (admission c).
  rewrite map_proposals_ops, bind_refresh by (by intros []). done.
Qed.

Lemma coverage_refresh c o : validate_coverage (remap f c) o = validate_coverage c o.
Proof.
  unfold validate_coverage. cbn [remap ctx_patch]. change (admission (remap f c)) with (admission c).
  rewrite map_proposals_ops, existsb_refresh by (by intros []). done.
Qed.

Lemma agent_action_refresh c :
  _validate_declared_agent_action (remap f c) = _validate_declared_agent_action c.
Proof.
  unfold _validate_declared_agent_action, _has_declared_decision_outcome.
  cbn [remap ctx_patch ctx_initial_state ctx_revision].
  rewrite update_ops_refresh, map_proposals_ops, created_nodes_refresh. done.
Qed.

Lemma identity_shape_refresh c : _validate_identity_shape (remap f c) = _validate_identity_shape c.
Proof.
  unfold _validate_identity_shape. cbn [remap ctx_patch ctx_revision]. by rewrite is_nil_ops_refresh.
Qed.

(** ** Approvals *)

Lemma op_eqb_refresh op s : semantic_replay_op s = true → graph_op_eqb (refresh f op) s = graph_op_eqb op s.
Proof.
  intros Hs. destruct op; try done. destruct s; try done; cbn [refresh graph_op_eqb];
    by rewrite !bool_decide_eq_false_2.
Qed.

Lemma ops_eqb_refresh ops stored : forallb semantic_replay_op stored = true →
  graph_ops_eqb (refresh f <$> ops) stored = graph_ops_eqb ops stored.
Proof.
  revert stored. induction ops as [|op ops IH]; intros [|s stored]; try done. cbn [forallb].
  intros [Hs Hr]%andb_true_iff. rewrite fmap_cons. cbn [graph_ops_eqb list_eqb].
  rewrite op_eqb_refresh by done. f_equal. by apply IH.
Qed.

Lemma normalized_semantic st q ops : normalized_decision_proposal_ops st q = Ok ops →
  forallb semantic_replay_op ops = true.
Proof.
  unfold normalized_decision_proposal_ops.
  destruct (graph_operations_from_proposal (prop_ops q)) as [l|] eqn:Hl; [|done].
  intros [= <-]. apply graph_operations_from_proposal_semantic in Hl.
  induction l as [|op l IH]; [done|]. cbn [forallb] in *. apply andb_true_iff in Hl as [Hop Hl].
  rewrite fmap_cons. cbn [forallb]. rewrite IH by done. by destruct op.
Qed.

Lemma writes_outcome_refresh st ops :
  _writes_decision_outcome st (refresh f <$> ops) = _writes_decision_outcome st ops.
Proof. apply existsb_refresh. by intros []. Qed.

Lemma decision_result_refresh st ops rev :
  _validate_approved_decision_result st (refresh f <$> ops) rev =
  _validate_approved_decision_result st ops rev.
Proof. apply bind_refresh. by intros []. Qed.

Lemma approved_refresh st p q mode rev :
  validate_approved st (map_proposals f p) q mode rev = validate_approved st p q mode rev.
Proof.
  unfold validate_approved. rewrite semantic_ops_refresh.
  destruct (normalized_decision_proposal_ops st q) as [normalized|] eqn:Hn; simpl; [|done].
  destruct (graph_operations_from_proposal (prop_ops q)) as [stored|] eqn:Hs; simpl; [|done].
  rewrite !ops_eqb_refresh by eauto using normalized_semantic, graph_operations_from_proposal_semantic.
  by rewrite writes_outcome_refresh, decision_result_refresh.
Qed.

Lemma staged_edit_refresh st p mode rev :
  validate_staged_edit st (map_proposals f p) mode rev = validate_staged_edit st p mode rev.
Proof. unfold validate_staged_edit. by rewrite update_ops_refresh, standing_ops_refresh. Qed.

Lemma standalone_refresh st p mode rev :
  validate_standalone st (map_proposals f p) mode rev = validate_standalone st p mode rev.
Proof.
  unfold validate_standalone. rewrite staged_edit_refresh, map_proposals_ops.
  pose proof (forallb_refresh (refresh f) (op_in_names ["update_nodes"; "set_standing"]) (p_ops p)
    ltac:(by intros [])) as Hn.
  destruct (p_ops p) as [|op [|op' ops]]; [done|by destruct op|].
  rewrite !fmap_cons in *. cbn [is_nil]. by destruct op; cbn [refresh] in *; rewrite Hn.
Qed.

Lemma decision_choice_refresh st p rs rev :
  _validate_direct_decision_choice st (map_proposals f p) rs rev =
  _validate_direct_decision_choice st p rs rev.
Proof.
  unfold _validate_direct_decision_choice.
  rewrite is_nil_ops_refresh, update_ops_refresh, standing_ops_refresh, map_proposals_ops.
  by rewrite existsb_refresh by (by intros []).
Qed.

Lemma approval_refresh st p mode :
  validate_approval_shape st (map_proposals f p) mode = validate_approval_shape st p mode.
Proof.
  unfold validate_approval_shape. rewrite resolution_ops_refresh, decision_choice_refresh.
  rewrite standalone_refresh. destruct (_ && _); [done|].
  destruct (resolution_ops p) as [|[|r []] []]; try done. unfold validate_resolution.
  destruct (gs_proposals st !! pr_id r) as [q|]; [|done].
  by rewrite approved_refresh, semantic_ops_refresh, is_nil_fmap.
Qed.

(** ** Loops *)

Lemma created_types_refresh ops : _created_node_types (refresh f <$> ops) = _created_node_types ops.
Proof. unfold _created_node_types. by rewrite ?created_nodes_refresh. Qed.

Lemma grounding_refresh st ops created t :
  _grounding_edge_ids st (refresh f <$> ops) created t = _grounding_edge_ids st ops created t.
Proof. apply bind_refresh. by intros []. Qed.

Lemma loop_proposal_refresh st id g rev q :
  validate_loop_proposal st id g rev (f q) = validate_loop_proposal st id g rev q.
Proof.
  unfold validate_loop_proposal, _validate_belief_proposal. by rewrite (kc_ops _ Hf).
Qed.

Lemma loop_op_refresh st p id e pinned mode op :
  validate_loop_op st (map_proposals f p) id e pinned mode (refresh f op) =
  validate_loop_op st p id e pinned mode op.
Proof.
  unfold validate_loop_op. rewrite map_proposals_ops, created_types_refresh.
  rewrite existsb_refresh by (intros []; try done; simpl; by rewrite is_nil_fmap).
  destruct op; try done. cbn [refresh]. f_equal.
  rewrite (bind_refresh f) by (intros q; apply loop_proposal_refresh).
  apply bind_same. intros q. unfold validate_loop_proposal, _validate_belief_proposal.
  destruct (_ && _); [|done]. destruct (sorted_set _) as [|h []]; try done. by rewrite grounding_refresh.
Qed.

Lemma loop_authority_refresh st p id pinned mode :
  validate_experiment_loop_authority st (map_proposals f p) id pinned mode =
  validate_experiment_loop_authority st p id pinned mode.
Proof.
  unfold validate_experiment_loop_authority. destruct (_ ≫= _) as [n|]; [|done].
  destruct (as_experiment n) as [e|]; [|done]. rewrite map_proposals_ops.
  unfold res_concat. rewrite (res_map_refresh (refresh f) _ (validate_loop_op st p (node_id n) e pinned mode)).
  - done.
  - intros op. apply loop_op_refresh.
Qed.

Lemma envelope_refresh c bundle : validate_envelope (remap f c) bundle = validate_envelope c bundle.
Proof.
  unfold validate_envelope. rewrite agent_action_refresh, identity_shape_refresh.
  cbn [remap ctx_patch ctx_initial_state ctx_mode ctx_revision ctx_experiment_control_node_id].
  by rewrite loop_authority_refresh, approval_refresh.
Qed.

Lemma validate_refresh st p cfg :
  validate_source_patch st (map_proposals f p) cfg = validate_source_patch st p cfg.
Proof.
  unfold validate_source_patch, _validate_patch.
  change (initial_context st (map_proposals f p) cfg) with (remap f (initial_context st p cfg)).
  rewrite envelope_refresh. unfold _validate_operations. rewrite (operations_loop_refresh f Hf).
  2: { intros c. by apply operations_at_refresh. }
  change (p_experiment_decision_bundle (map_proposals f p)) with (p_experiment_decision_bundle p).
  change (report_revision (map_proposals f p)) with (report_revision p).
  destruct (validate_envelope _ _) as [env|]; simpl; [|done].
  destruct (validate_operations_loop _ _) as [g|]; simpl; [|done].
  by rewrite ballots_refresh, liveness_refresh, coverage_refresh.
Qed.
End patch.

(** The bookkeeping is neutral.  Copying the names a created Proposal
    relates to from the staged graph into the Patch, as RCP does before it
    writes the Patch, changes neither the verdict of validation on any graph and
    in any mode, nor the graph the Patch leads to. *)
Theorem finalized_patch_equivalent `{NodeAdapter, RecordAdapter, TextLib} st staged p cfg :
  validate_source_patch st (finalize_patch_bookkeeping p staged) cfg = validate_source_patch st p cfg ∧
  apply_valid_patch st (finalize_patch_bookkeeping p staged) = apply_valid_patch st p.
Proof.
  split; [apply validate_refresh|apply apply_valid_patch_refresh]; apply finalized_keeps.
Qed.
