(* ===== verification/Commit.v ===== *)
(** Committing and replaying: what is admitted and written is accepted, with the
    same graph, by every later replay of the log.

    Validation and application do not read when a Patch was written, nor the
    verdict already recorded on it, except that a seed or a refresh dates the
    graph.  A committed transition keeps one date and one record for the Patches
    that initiated it ([_combined_patch] in [core/transitions.py]); the Patches
    recovered from it are the original ones up to these three fields. *)

From S2P Require Export Bookkeeping.

(** ** Redated Patches *)

(** The fields the record of a Patch may change. *)
Definition redated (p : Patch) (created_at : Z) (admission : Admission)
    (messages : list ValidationMessage) : Patch :=
  patch_copy p (p_revision p) created_at (p_summary p) (p_ops p) (p_run_truth_scope p)
    (p_repositories_read p) (p_processed_cursors p) (p_change_summary p) (p_human_action p)
    (p_agent_action p) admission messages (p_transition p).

(** [p'] is [p] as recorded at another time; what dates the graph keeps its date. *)
Inductive redates (p : Patch) : Patch → Prop :=
  | redates_intro date admission messages :
      (p_kind p = KSeed ∨ p_kind p = KRefresh → p_created_at p = date) →
      redates p (redated p date admission messages).

Definition with_patches (c : OpContext) (p : Patch) (reference : option Patch) : OpContext :=
  {| ctx_state := ctx_state c; ctx_initial_state := ctx_initial_state c;
     ctx_patch := p; ctx_revision := ctx_revision c;
     ctx_project_truth_scope := ctx_project_truth_scope c; ctx_repositories := ctx_repositories c;
     ctx_machines := ctx_machines c; ctx_default_run_truth_scope := ctx_default_run_truth_scope c;
     ctx_state_repository := ctx_state_repository c; ctx_mode := ctx_mode c;
     ctx_experiment_control_node_id := ctx_experiment_control_node_id c;
     ctx_reference_patch := reference |}.

(** Two contexts whose Patches are records of the same ones. *)
Definition ctx_redates (c c' : OpContext) : Prop :=
  ∃ p' r', c' = with_patches c p' r' ∧ redates (ctx_patch c) p' ∧
    option_Forall2 redates (ctx_reference_patch c) r'.

#[export] Instance redates_refl : Reflexive redates.
Proof. intros p. replace p with (redated p (p_created_at p) (p_admission p) (p_admission_messages p)) at 2
  by by destruct p. by constructor. Qed.

Lemma redates_like p p' : redates p p' → stages_like p' p.
Proof. intros [date a m Hd]. split; try done. intros Hk. cbn in Hk |- *. symmetry. by apply Hd. Qed.

Lemma redates_transition p p' : redates p p' → p_transition p' = p_transition p ∧ p_ops p' = p_ops p.
Proof. by intros []. Qed.

Section redating.
Context `{NodeAdapter, RecordAdapter, TextLib}.
Implicit Types (p : Patch) (st : GraphState) (c : OpContext) (op : GraphOperation).

Lemma apply_patch_redates st p p' ds sys : redates p p' →
  _apply_patch st p' ds sys = _apply_patch st p ds sys.
Proof.
  intros Hp. pose proof (redates_like _ _ Hp) as Hl. destruct (redates_transition _ _ Hp) as [Ht Ho].
  unfold _apply_patch, generated_indexes. rewrite Ht, Ho.
  rewrite (res_fold_ext (apply_op p' _) (apply_op p (generated_indexes p sys))).
  - destruct (res_fold _ _ _); simpl; [|done]. by rewrite (close_patch_like p' p).
  - intros s io _. by apply apply_op_like.
Qed.

Lemma apply_operation_redates st p p' op : redates p p' →
  apply_valid_operation st p' op = apply_valid_operation st p op.
Proof.
  intros Hp. unfold apply_valid_operation.
  assert (redates (with_ops p [op]) (with_ops p' [op])) as Hr.
  { destruct Hp as [date a m Hd]. exact (redates_intro (with_ops p [op]) date a m Hd). }
  by rewrite (apply_patch_redates _ _ _ _ _ Hr).
Qed.

Section nested.
Context (v : OpContext → res Verdict).
Context (Hv : ∀ c c', ctx_redates c c' → v c' = v c).

Lemma proposal_redates c c' mode q : ctx_redates c c' →
  validate_proposal v c' mode q = validate_proposal v c mode q.
Proof.
  intros (p' & r' & -> & Hp & Hr). unfold validate_proposal.
  assert (_validate_proposal_ops v (with_patches c p' r') q mode = _validate_proposal_ops v c q mode) as Hops.
  { unfold _validate_proposal_ops.
    replace (proposal_source_refs q (ctx_patch (with_patches c p' r'))) with
      (proposal_source_refs q (ctx_patch c)) by by destruct Hp.
    match goal with |- ?r ≫= _ = _ => destruct r as [refs|]; [|done] end. simpl.
    destruct (graph_operations_from_proposal (prop_ops q)) as [ops|]; [|done]. simpl.
    rewrite (Hv (replay_context c mode ops)); [done|].
    eexists _, _. split; [done|]. split; [done|]. by constructor. }
  rewrite Hops. by destruct Hp.
Qed.

Lemma structural_redates c c' op : ctx_redates c c' →
  structural_validate v c' op = structural_validate v c op.
Proof.
  intros Hc. destruct op; cbn [structural_validate].
  10: { f_equal. unfold validate_create_proposals, res_concat. f_equal. apply res_map_ext.
        intros [dup q] _. rewrite (proposal_redates c) by done. by destruct Hc as (p' & r' & -> & _). }
  all: destruct Hc as (p' & r' & -> & [] & Hr); destruct c as [??????????? r]; simpl in Hr;
    destruct Hr as [? ? []|]; reflexivity.
Qed.

Lemma authoring_redates c c' op : ctx_redates c c' →
  authoring_validate v c' op = authoring_validate v c op.
Proof.
  intros Hc. destruct op; cbn [authoring_validate]; try done.
  4: { f_equal. unfold author_create_proposals, res_concat. f_equal. apply res_map_ext.
       intros q _. by apply proposal_redates. }
  all: destruct Hc as (p' & r' & -> & [] & Hr); destruct c as [??????????? r]; simpl in Hr;
    destruct Hr as [? ? []|]; reflexivity.
Qed.

Definition progress_redates (g g' : Progress) : Prop :=
  ctx_redates (prg_context g) (prg_context g') ∧ prg_report g' = prg_report g ∧
  prg_oldest g' = prg_oldest g.

(** Both raise the same, or both succeed with related results. *)
Inductive res_related {A} (R : A → A → Prop) : res A → res A → Prop :=
  | related_ok a b : R a b → res_related R (Ok a) (Ok b)
  | related_raise e : res_related R (Raise e) (Raise e).

Lemma operation_redates g g' op : progress_redates g g' →
  res_related progress_redates (validate_operation v g op) (validate_operation v g' op).
Proof.
  intros (Hc & Hr & Ho). unfold validate_operation. rewrite Hr, Ho.
  assert (_validate_operation_authority (prg_context g') op =
          _validate_operation_authority (prg_context g) op) as ->.
  { by destruct Hc as (p' & r' & -> & [] & _). }
  rewrite (structural_redates _ _ op Hc), (authoring_redates _ _ op Hc).
  assert (apply_valid_operation (ctx_state (prg_context g')) (ctx_patch (prg_context g')) op =
          apply_valid_operation (ctx_state (prg_context g)) (ctx_patch (prg_context g)) op) as ->.
  { destruct Hc as (p' & r' & -> & Hp & _). exact (apply_operation_redates _ _ _ _ Hp). }
  destruct Hc as (p' & r' & Hg' & Hp & Href). rewrite Hg'.
  change (admission (with_patches ?c _ _)) with (admission c).
  assert (∀ st rs, ctx_redates (with_progress (prg_context g) st rs)
    (with_progress (with_patches (prg_context g) p' r') st rs)) as Hprog.
  { intros st rs. by exists p', r'. }
  destruct (admission _ && legacy_only op).
  { constructor. split; [|done]. by exists p', r'. }
  destruct (_validate_operation_authority _ _) as [a|]; simpl; [|constructor].
  destruct (structural_validate _ _ _) as [s|]; simpl; [|constructor].
  destruct (if admission _ then _ else _) as [w|]; simpl; [|constructor].
  change (repositories_after (with_patches ?c _ _) op) with (repositories_after c op).
  constructor. destruct (rejected _); [by split; [apply Hprog|]|].
  by destruct (apply_valid_operation _ _ _); split; [apply Hprog| |apply Hprog|].
Qed.

Lemma loop_redates g g' ops : progress_redates g g' →
  res_related progress_redates (res_fold (validate_operation v) g ops)
    (res_fold (validate_operation v) g' ops).
Proof.
  revert g g'. induction ops as [|op ops IH]; intros g g' Hg; simpl; [by constructor|].
  destruct (operation_redates g g' op Hg) as [a b Hab|e]; simpl; [by apply IH|constructor].
Qed.

Lemma operations_loop_redates c c' : ctx_redates c c' →
  res_related progress_redates (validate_operations_loop v c) (validate_operations_loop v c').
Proof.
  intros Hc. unfold validate_operations_loop.
  replace (p_ops (ctx_patch c')) with (p_ops (ctx_patch c)) by by destruct Hc as (p' & r' & -> & [] & _).
  by apply loop_redates.
Qed.
End nested.

Lemma operations_at_redates n c c' : ctx_redates c c' → operations_at n c' = operations_at n c.
Proof.
  revert c c'. induction n as [|n IH]; intros c c' Hc; [done|]. cbn [operations_at].
  destruct (operations_loop_redates _ IH c c' Hc) as [g g' (_ & Hr & Ho)|e]; [|done]. simpl.
  by rewrite Hr, Ho.
Qed.

Lemma validate_redates st p p' cfg : redates p p' →
  validate_source_patch st p' cfg = validate_source_patch st p cfg.
Proof.
  intros Hp. unfold validate_source_patch, _validate_patch.
  assert (ctx_redates (initial_context st p cfg) (initial_context st p' cfg)) as Hc.
  { exists p', None. split; [|by split; [|constructor]]. by destruct Hp. }
  pose proof (operations_loop_redates _ (operations_at_redates 1) _ _ Hc) as Hl.
  unfold _validate_operations.
  assert (validate_envelope (initial_context st p' cfg)
    (default (p_experiment_decision_bundle p') (cfg_experiment_decision_bundle cfg)) =
    validate_envelope (initial_context st p cfg)
    (default (p_experiment_decision_bundle p) (cfg_experiment_decision_bundle cfg))) as ->.
  { by destruct Hp. }
  replace (report_revision p') with (report_revision p) by by destruct Hp.
  destruct Hl as [g g' (Hg & Hr & Ho)|e]; destruct (validate_envelope _ _) as [env|]; try done.
  simpl. rewrite Hr, Ho. destruct Hg as (q' & r' & -> & [] & _). by destruct Hp.
Qed.

(** ** Recovered sources *)

(** What a transition records of a Patch is the Patch, redated. *)
Lemma recovered_redates (committed p : Patch) :
  producer_envelope committed = producer_envelope p → p_revision committed = p_revision p → p_transition p = None →
  (p_kind p = KSeed ∨ p_kind p = KRefresh → p_created_at p = p_created_at committed) →
  redates p (recovered committed p).
Proof.
  intros He Hr Ht Hd.
  replace (recovered committed p) with (redated p (p_created_at committed) (p_admission committed) (p_admission_messages committed)).
  { by constructor. }
  revert He Hr Ht. clear. destruct committed, p. cbv [producer_envelope recovered redated patch_copy]. simpl.
  intros [=]. intros. by subst.
Qed.

Lemma validate_sources_redates `{CanonicalHash} cfg rev st ps ps' :
  Forall2 redates ps ps' → validate_sources cfg rev st ps' = validate_sources cfg rev st ps.
Proof.
  intros Hps. revert st. induction Hps as [|p p' ps ps' Hp _ IH]; intros st; [done|].
  cbn [validate_sources]. rewrite (validate_redates _ p) by done. unfold apply_valid_patch.
  rewrite (apply_patch_redates _ p) by done.
  destruct (rejected _); [done|]. destruct (_apply_patch _ _ _ _) as [r|]; simpl; [|done]. by rewrite IH.
Qed.
End redating.

#[local] Arguments replay_step : simpl never.

Section commit.
Context `{NodeAdapterLaws} `{!RecordAdapter, !TextLib, !CanonicalHash}.
Implicit Types (m : Materialization) (p : Patch) (st : GraphState) (cfg : Settings).

(** ** Growing settings *)

(** A replay under [cfg'] accepts what a replay under [cfg] accepts. *)
Definition settings_grow cfg cfg' : Prop :=
  ∀ st, replays_settings (replay_settings cfg st) (replay_settings cfg' st).

Lemma validate_sources_grow cfg cfg' rev st ps r :
  settings_grow cfg cfg' → validate_sources cfg rev st ps = (r, false) → rejected r = false →
  ∃ r', validate_sources cfg' rev st ps = (r', false) ∧ rejected r' = false.
Proof.
  intros Hg. revert st r. induction ps as [|p ps IH]; intros st r; simpl; [eauto|].
  destruct (rejected (validate_source_patch _ p (replay_settings cfg _))) eqn:Hr.
  { intros [= <-] Hr'. congruence. }
  rewrite (validation_lenient _ p _ _ (Hg _) Hr).
  destruct (apply_valid_patch _ p) as [st'|]; [|done].
  destruct (validate_sources cfg _ _ ps) as [rest []] eqn:Hs; [done|]. intros [= <-] Hrej. simpl in Hrej.
  rewrite rejected_app, Hr in Hrej. destruct (IH _ _ Hs Hrej) as (r' & -> & Hr').
  eexists. split; [done|]. simpl. rewrite rejected_app, Hr'.
  by rewrite (validation_lenient _ p _ _ (Hg _) Hr).
Qed.

Lemma validate_sources_settings cfg st st' rev l :
  validate_sources (replay_settings cfg st) rev st' l = validate_sources cfg rev st' l.
Proof.
  revert st'. induction l as [|p l IH]; intros st'; [done|]. cbn [validate_sources].
  change (replay_settings (replay_settings cfg st)) with (replay_settings cfg).
  destruct (rejected _); [done|]. destruct (apply_valid_patch _ _); [|done]. by rewrite IH.
Qed.

Lemma validate_patch_grow cfg cfg' st p :
  settings_grow cfg cfg' → rejected (validate_patch st p (replay_settings cfg st)) = false →
  rejected (validate_patch st p (replay_settings cfg' st)) = false.
Proof.
  intros Hg. unfold validate_patch. destruct (p_transition p); [|by apply validation_lenient].
  unfold _validate_transition_patch. rewrite !decide_False by (by intros []).
  destruct (validate_transition_trace st p) as [ps|]; [|done]. rewrite !validate_sources_settings.
  destruct (validate_sources cfg _ _ ps) as [r b] eqn:Hs. cbn [fst snd]. rewrite rejected_app, orb_false_iff.
  intros [Hr Hb]. destruct b; [done|].
  destruct (validate_sources_grow _ _ _ _ _ _ Hg Hs Hr) as (r' & -> & Hr'). cbn [fst snd].
  by rewrite rejected_app, Hr'.
Qed.

(** The fields of a materialization that the graph's readers see. *)
Definition same_materialization m m' : Prop :=
  mat_state m = mat_state m' ∧ mat_cursors m = mat_cursors m' ∧ mat_descriptors m = mat_descriptors m' ∧
  mat_observed m = mat_observed m'.

Lemma replay_step_grow cfg cfg' m m' p :
  settings_grow cfg cfg' → same_materialization m m' → (replay_step cfg m p).2 = true →
  (replay_step cfg' m' p).2 = true ∧
  same_materialization (replay_step cfg m p).1 (replay_step cfg' m' p).1.
Proof.
  intros Hg (Hst & Hcur & Hd & Ho). unfold replay_step. rewrite <-Hst.
  destruct (p_admission p).
  - destruct (rejected (_ ++ _)) eqn:Hr; [done|]. rewrite rejected_app, orb_false_iff in Hr.
    destruct Hr as [Hr Hm]. rewrite rejected_app, Hm, (validate_patch_grow cfg cfg') by done. simpl.
    destruct (_apply_patch _ _ _ _) as [[st ds]|]; [|done]. intros _. split; [done|].
    unfold same_materialization. simpl. by rewrite Hcur, Hd, Ho.
  - intros _. split; [done|]. unfold replay_rejected, with_report, same_materialization. simpl.
    by rewrite Hst.
Qed.

Lemma replay_grow cfg cfg' m m' l :
  settings_grow cfg cfg' → graph_wf (mat_state m) → same_materialization m m' →
  gs_replay_status (mat_state m) = ReplayComplete →
  gs_replay_status (mat_state (replay cfg m l)) = ReplayComplete →
  same_materialization (replay cfg m l) (replay cfg' m' l).
Proof.
  intros Hg. revert m m'. induction l as [|p l IH]; intros m m' Hwf Hs Hc; simpl; [done|].
  pose proof (replay_step_status cfg m p Hwf) as Hst.
  pose proof (replay_step_wf cfg m p Hwf) as Hwf1.
  destruct (replay_step cfg m p) as [m1 []] eqn:Hstep; cbn [fst snd] in *; [|congruence].
  destruct (replay_step_grow cfg cfg' m m' p Hg Hs) as [Hnext Hs1]; [by rewrite Hstep|].
  rewrite Hstep in Hs1. destruct (replay_step cfg' m' p) as [m1' b]; cbn [fst snd] in *. subst b.
  apply IH; [done..|congruence].
Qed.

(** ** Recorded transitions *)

(** What is written of a prepared Patch: its verdict and its messages. *)
Definition recorded (messages : list ValidationMessage) p : Patch :=
  redated p (p_created_at p) AdmissionAccepted messages.

Lemma recorded_redates messages p : redates p (recorded messages p).
Proof. by apply redates_intro. Qed.

#[export] Instance redates_trans : Transitive redates.
Proof. intros p q r [d a ms Hd] [d' a' ms' Hd']. 
  apply (redates_intro p d' a' ms'). intros Hk. etrans; [by apply Hd|by apply Hd'].
Qed.

Lemma source_patch_redates (c c' : Patch) g : redates c c' →
  redates (_source_patch_for_group c g) (_source_patch_for_group c' g).
Proof. intros [d a ms Hd]. exact (redates_intro (_source_patch_for_group c g) d a ms Hd). Qed.

Lemma actions_redates ps ps' : Forall2 redates ps ps' →
  (∀ p, p ∈ ps → p_transition p = None) →
  Forall2 (λ a b, a.2 = b.2 ∧ stages_like a.1 b.1 ∧ p_transition a.1 = None ∧
    p_transition b.1 = None) (source_actions ps') (source_actions ps).
Proof.
  induction 1 as [|p p' ps ps' Hp _ IH]; intros Ht; [constructor|].
  unfold source_actions. rewrite !bind_cons. apply Forall2_app; [|apply IH; set_solver].
  destruct (redates_transition _ _ Hp) as [Htr ->]. apply Forall2_fmap, Forall_Forall2_diag, Forall_forall.
  intros op _. cbn. rewrite Htr. specialize (Ht p ltac:(set_solver)). auto using redates_like.
Qed.

Lemma envelope_redates p p' : redates p p' → producer_envelope p' = producer_envelope p.
Proof. by intros []. Qed.

Lemma replay_generated_redates st (c c' : Patch) l : redates c c' →
  replay_generated st c' l = replay_generated st c l.
Proof.
  intros Hc. revert st. induction l as [|a l IH]; intros st; [done|]. cbn [replay_generated].
  destruct (redates_transition _ _ Hc) as [_ ->]. destruct (p_ops c !! _) as [op|]; [|done]. simpl.
  rewrite (apply_generated_operation_like c' c) by by apply redates_like.
  destruct (apply_transition_generated_operation _ _ _); simpl; [|done]. by rewrite IH.
Qed.

(** The trace of a Patch is valid whatever is recorded of its verdict. *)
Lemma trace_redates st (c c' : Patch) sources : redates c c' →
  validate_transition_trace st c = Ok sources →
  ∃ sources', validate_transition_trace st c' = Ok sources' ∧ Forall2 redates sources sources'.
Proof.
  intros Hc (tr & Htr & Hv)%validate_transition_trace_iff. destruct (redates_transition _ _ Hc) as [Ht Ho].
  destruct Hv. set (groups := tt_initiating_groups tr) in *.
  set (sources' := _source_patch_for_group c' <$> groups).
  assert (Forall2 redates sources sources') as Hs.
  { rewrite vt_sources. apply Forall2_fmap, Forall_Forall2_diag, Forall_forall. intros g _.
    by apply source_patch_redates. }
  assert (Forall2 (λ a b, a.2 = b.2 ∧ stages_like a.1 b.1 ∧ p_transition a.1 = None ∧
    p_transition b.1 = None) (source_actions sources') (source_actions sources)) as Hact.
  { apply actions_redates; [done|]. rewrite vt_sources. by intros p (g & -> & _)%list_elem_of_fmap. }
  assert ((source_actions sources').*2 = (source_actions sources).*2) as Hops.
  { clear -Hact. induction Hact as [|a b la lb [Hab _] _ IH]; [done|]. rewrite !fmap_cons. by rewrite Hab, IH. }
  assert (producer_envelope <$> sources' = producer_envelope <$> sources) as Henv.
  { clear -Hs. induction Hs as [|p p' ps ps' Hp _ IH]; [done|]. rewrite !fmap_cons.
    by rewrite (envelope_redates _ _ Hp), IH. }
  exists sources'. split; [|done]. apply validate_transition_trace_iff. exists tr. rewrite Ht.
  split; [done|]. constructor; rewrite ?Ho; try done.
  - intros Hn. rewrite Hn in Hact. by inversion Hact.
  - unfold _transition_id in *. by rewrite Hops, Henv.
  - destruct vt_replay as (t & g & Hr & He). exists t, g. split; [|done]. rewrite <-Hr.
    unfold replay_trace. rewrite (apply_timeline_like st _ _ Hact).
    destruct (_apply_timeline st _) as [r|]; simpl; [|done]. by rewrite (replay_generated_redates _ c c').
Qed.

Lemma prepared_sources_redate k st ps h r :
  prepare_validated k st ps h = Ok r →
  (∀ first, head ps = Some first → one_producer first ps) →
  Forall2 redates ps (recovered (prt_patch r) <$> ps) ∧ is_some (p_transition (prt_patch r)) = true.
Proof.
  intros (first & rest & hd & t & g & generated & final & events & tr & -> & Hp)%prepare_prepared Hone.
  specialize (Hone first eq_refl). destruct Hp.
  destruct (combined_envelope _ _ _ _ _ Hone pre_combined) as (Henv & _ & Htr & Hrev & Hcr).
  split; [|by rewrite Htr]. apply Forall2_fmap_r, Forall_Forall2_diag, Forall_forall. intros p Hp.
  apply recovered_redates.
  - rewrite Henv. symmetry. by apply Hone.
  - rewrite Hrev. symmetry. by apply pre_revision.
  - by apply pre_plain.
  - intros Hk. rewrite Hcr. apply (op_date _ _ Hone); [|done].
    assert (p_kind p = p_kind first) as <-; [|done].
    pose proof (op_envelope _ _ Hone p Hp) as He. by apply (f_equal p_kind) in He.
Qed.

Lemma committed_step cfg k ps h r m report messages :
  prepare_validated k (mat_state m) ps h = Ok r →
  (∀ first, head ps = Some first → one_producer first ps) →
  validate_sources cfg (gs_revision (mat_state m)) (mat_state m) ps = (report, false) →
  rejected report = false → rejected messages = false →
  (replay_step cfg m (recorded messages (prt_patch r))).2 = true ∧
  mat_state (replay_step cfg m (recorded messages (prt_patch r))).1 =
    add_messages messages (ptp_graph (prt_projection r)).
Proof.
  intros Hp Hone Hs Hr Hm. set (c := prt_patch r) in *.
  destruct (prepared_round_trip _ _ _ _ _ Hp Hone) as [Hv Happ].
  destruct (prepared_sources_redate _ _ _ _ _ Hp Hone) as [Hred Htr]. fold c in Hv, Happ, Hred, Htr.
  pose proof (recorded_redates messages c) as Hc. destruct (redates_transition _ _ Hc) as [Ht _].
  destruct (trace_redates _ _ _ _ Hc Hv) as (sources & Hv' & Hsrc).
  assert (Forall2 redates ps sources) as Hall by (etrans; [exact Hred|exact Hsrc]).
  unfold replay_step. change (p_admission (recorded messages c)) with AdmissionAccepted.
  change (p_admission_messages (recorded messages c)) with messages.
  unfold validate_patch. rewrite Ht. destruct (p_transition c); [|done].
  unfold _validate_transition_patch. rewrite decide_False by (by intros []).
  rewrite Hv', validate_sources_settings, (validate_sources_redates cfg _ _ ps) by done. rewrite Hs.
  cbn [fst snd when]. rewrite app_nil_r, rejected_app, Hr, Hm. simpl.
  rewrite (apply_patch_redates _ c) by done. unfold apply_valid_patch in Happ.
  destruct (_apply_patch _ _ _ _) as [[st' ds]|]; [|done]. apply Ok_inj in Happ. simpl in Happ. by subst st'.
Qed.
End commit.

Section theorems.
Context `{NodeAdapterLaws} `{!RecordAdapter, !TextLib, !CanonicalHash}.
Implicit Types (m : Materialization) (cfg : Settings).

(** C4: a committed transition replays to the graph it promised. If initiating
    Patches of one producer ([one_producer]: none is empty, they share the whole
    envelope, its scopes name no repository twice, and a seed or a refresh has one
    date) validate one after the other on the graph and are prepared into a
    transition, then the replay loop accepts the committed Patch with the messages
    of its admission, in the same state, and continues from exactly the projected
    graph and those messages. Such a commit cannot degrade the log; one that breaks
    these conditions, which the code does not all check, can. *)
Theorem committed_transition_replays cfg k ps h r m report messages :
  prepare_validated k (mat_state m) ps h = Ok r →
  (∀ first, head ps = Some first → one_producer first ps) →
  validate_sources cfg (gs_revision (mat_state m)) (mat_state m) ps = (report, false) →
  rejected report = false → rejected messages = false →
  (replay_step cfg m (recorded messages (prt_patch r))).2 = true ∧
  mat_state (replay_step cfg m (recorded messages (prt_patch r))).1 =
    add_messages messages (ptp_graph (prt_projection r)).
Proof. apply committed_step. Qed.

(** A log that replays keeps replaying.  When the replay of a log is
    complete, it stays complete after the repository table has grown or the
    default run scope has shrunk, and gives the same graph, cursors,
    repository descriptors and observed boundaries. *)
Theorem replay_survives_growth cfg cfg' scope l :
  settings_grow cfg cfg' →
  gs_replay_status (mat_state (materialize_patches cfg l scope)) = ReplayComplete →
  same_materialization (materialize_patches cfg l scope) (materialize_patches cfg' l scope).
Proof.
  intros Hg Hs. unfold materialize_patches in *.
  apply replay_grow; [exact Hg|apply replay_start_wf|by split_and!|reflexivity|exact Hs].
Qed.
End theorems.
