(* ===== verification/Manifest.v ===== *)
(** The project manifest ([config.py]): machines, repositories, the truth scope,
    the agent profiles, their cross-reference validation, and the two writes the
    history manager makes.

    A manifest document is the parsed [manifest.toml], its optional fields filled
    with their defaults and the legacy name of the invocation ceiling migrated.
    The paths it holds (of provider binaries, source roots, and the rewriting of
    relative repository paths on load) concern files and are not part of the
    record. *)

From Stdlib Require Import Ascii.
From S2P Require Export Replay.

Record RepositoryConfig := { rc_alias : string; rc_machine : string; rc_path : string }.
#[export] Instance RepositoryConfig_eq_dec : EqDecision RepositoryConfig.
Proof. solve_decision. Defined.

Inductive RepositoryReads := ReadsNone | ReadsRunScope | ReadsProjectScope.
#[export] Instance RepositoryReads_eq_dec : EqDecision RepositoryReads.
Proof. solve_decision. Defined.

Record AgentPermissions := {
  ap_read_graph : bool; ap_read_research_md : bool; ap_read_introduction : bool;
  ap_read_repositories : RepositoryReads; ap_read_conversations : RepositoryReads;
  ap_write_graph_patch : bool; ap_write_project_files : bool; ap_write_paper : bool }.
#[export] Instance AgentPermissions_eq_dec : EqDecision AgentPermissions.
Proof. solve_decision. Defined.

(** The execution profiles, in the order of [AGENT_EXECUTION_PROFILES]. *)
Inductive AgentSurface := SurfaceSeed | SurfaceRefresh | NodeChat | ProjectChat | PaperCoach | OrchestratorSurface.
#[export] Instance AgentSurface_eq_dec : EqDecision AgentSurface.
Proof. solve_decision. Defined.

Definition _AGENT_SURFACES : list AgentSurface :=
  [SurfaceSeed; SurfaceRefresh; NodeChat; ProjectChat; PaperCoach].
Definition AGENT_EXECUTION_PROFILES : list AgentSurface := _AGENT_SURFACES ++ [OrchestratorSurface].
Definition GRAPH_AGENT_EXECUTION_PROFILES : list AgentSurface :=
  [SurfaceSeed; SurfaceRefresh; NodeChat; ProjectChat; OrchestratorSurface].

Record AgentSurfaceConfig := {
  asc_provider : string; asc_runtime : string; asc_model : string; asc_reasoning : string;
  asc_run_on : string; asc_permissions : option AgentPermissions }.
#[export] Instance AgentSurfaceConfig_eq_dec : EqDecision AgentSurfaceConfig.
Proof. solve_decision. Defined.

Record PaperCoachConfig := {
  pcc_default_provider : string; pcc_default_model : string; pcc_default_reasoning : string }.

(** One optional profile per surface. *)
Record AgentProfiles := {
  apr_seed : option AgentSurfaceConfig; apr_refresh : option AgentSurfaceConfig;
  apr_node_chat : option AgentSurfaceConfig; apr_project_chat : option AgentSurfaceConfig;
  apr_paper_coach : option AgentSurfaceConfig; apr_orchestrator : option AgentSurfaceConfig }.

(** [getattr(agent, surface)] and [setattr(agent, surface, profile)]. *)
Definition get_profile (s : AgentSurface) (a : AgentProfiles) : option AgentSurfaceConfig :=
  match s with
  | SurfaceSeed => apr_seed a | SurfaceRefresh => apr_refresh a | NodeChat => apr_node_chat a
  | ProjectChat => apr_project_chat a | PaperCoach => apr_paper_coach a
  | OrchestratorSurface => apr_orchestrator a
  end.

Definition set_profile (s : AgentSurface) (c : AgentSurfaceConfig) (a : AgentProfiles) : AgentProfiles :=
  let pick t := if decide (s = t) then Some c else get_profile t a in
  {| apr_seed := pick SurfaceSeed; apr_refresh := pick SurfaceRefresh;
     apr_node_chat := pick NodeChat; apr_project_chat := pick ProjectChat;
     apr_paper_coach := pick PaperCoach; apr_orchestrator := pick OrchestratorSurface |}.

Record Manifest := {
  mf_name : string; mf_machines : list string; mf_repositories : list RepositoryConfig;
  mf_truth_scope : list string; mf_state_repository : string;
  mf_default_run_truth_scope : list string; mf_auto_research_ceiling : Z;
  mf_workflow_ids : list string; mf_skill_ids : list string; mf_profiles : AgentProfiles;
  mf_execution_run_on : option string; mf_paper_coach : option PaperCoachConfig }.

(** [repository_map], [machine_map]: the aliases registered. *)
Definition repository_aliases (m : Manifest) : list string := rc_alias <$> mf_repositories m.

Definition with_profiles (m : Manifest) (a : AgentProfiles) : Manifest :=
  {| mf_name := mf_name m; mf_machines := mf_machines m; mf_repositories := mf_repositories m;
     mf_truth_scope := mf_truth_scope m; mf_state_repository := mf_state_repository m;
     mf_default_run_truth_scope := mf_default_run_truth_scope m;
     mf_auto_research_ceiling := mf_auto_research_ceiling m; mf_workflow_ids := mf_workflow_ids m;
     mf_skill_ids := mf_skill_ids m; mf_profiles := a;
     mf_execution_run_on := mf_execution_run_on m; mf_paper_coach := mf_paper_coach m |}.

(** ** Permissions *)

(** The capability a profile launches with. *)
Definition surface_capability (s : AgentSurface) : AgentCapability :=
  match s with
  | SurfaceSeed | SurfaceRefresh => ScratchPatch
  | NodeChat | ProjectChat => Discuss
  | PaperCoach => PaperReadonly
  | OrchestratorSurface => Orchestrate
  end.

Definition permissions_for_capability (c : AgentCapability) : AgentPermissions :=
  let permissions repositories conversations patch files :=
    {| ap_read_graph := true; ap_read_research_md := true; ap_read_introduction := true;
       ap_read_repositories := repositories; ap_read_conversations := conversations;
       ap_write_graph_patch := patch; ap_write_project_files := files; ap_write_paper := false |} in
  match c with
  | PaperReadonly => permissions ReadsProjectScope ReadsNone false false
  | Discuss => permissions ReadsRunScope ReadsRunScope false false
  | WorkAuto | Orchestrate => permissions ReadsRunScope ReadsRunScope true true
  | ScratchPatch => permissions ReadsRunScope ReadsRunScope true false
  end.

Definition permissions_for (s : AgentSurface) : AgentPermissions :=
  permissions_for_capability (surface_capability s).

(** ** Provider runtimes *)

(** What [providers.py] declares of a provider's runtimes: the public name used
    by default, every accepted name with the runtime it stands for, and the
    public names in order. *)
Record ProviderProfile := {
  pp_id : string; pp_default_runtime : string; pp_runtime_aliases : list (string * string);
  pp_runtime_choices : list string }.

Definition PROVIDERS : list ProviderProfile :=
  [ {| pp_id := "codex"; pp_default_runtime := "exec";
       pp_runtime_aliases :=
         [("exec", "codex.exec-json.v1"); ("exec-json", "codex.exec-json.v1");
          ("app-server", "codex.app-server-stdio.v1"); ("codex.exec-json.v1", "codex.exec-json.v1");
          ("codex.app-server-stdio.v1", "codex.app-server-stdio.v1")];
       pp_runtime_choices := ["exec"; "app-server"] |};
    {| pp_id := "claude"; pp_default_runtime := "stream-json";
       pp_runtime_aliases :=
         [("stream-json", "claude.stream-json.v1"); ("claude.stream-json.v1", "claude.stream-json.v1")];
       pp_runtime_choices := ["stream-json"] |};
    {| pp_id := "rcp-demo"; pp_default_runtime := "deterministic";
       pp_runtime_aliases :=
         [("deterministic", "rcp-demo.jsonl.v1"); ("rcp-demo.jsonl.v1", "rcp-demo.jsonl.v1")];
       pp_runtime_choices := ["deterministic"] |} ].

Definition DEFAULT_PROVIDER : string := "codex".

Definition profile_for (provider : string) : res ProviderProfile :=
  match find (λ p, str_eqb (pp_id p) provider) PROVIDERS with
  | Some p => Ok p
  | None => Raise ValueError
  end.

(** [aliases.get(name)]. *)
Definition runtime_alias (p : ProviderProfile) (name : string) : option string :=
  option_map snd (find (λ a, str_eqb a.1 name) (pp_runtime_aliases p)).

(** Whether [profile.runtime(id)] knows the runtime: it is the target of a name. *)
Definition supports_runtime (p : ProviderProfile) (id : string) : bool :=
  mem id (snd <$> pp_runtime_aliases p).

(** [str.strip] of an ASCII string. *)
Definition is_space (c : ascii) : bool :=
  let n := nat_of_ascii c in
  ((9 <=? n) && (n <=? 13)) || ((28 <=? n) && (n <=? 32)).

Fixpoint drop_spaces (l : list ascii) : list ascii :=
  match l with c :: l' => if is_space c then drop_spaces l' else l | [] => [] end.

Definition strip (s : string) : string :=
  String.string_of_list_ascii (reverse (drop_spaces (reverse (drop_spaces (String.list_ascii_of_string s))))).

Definition configured_runtime (provider configured : string) : res string :=
  p ← profile_for provider;
  let value := strip configured in
  if negb (truthy value) then Ok (pp_default_runtime p)
  else
    let runtime_id := default value (runtime_alias p value) in
    _ ← require (supports_runtime p runtime_id);
    match find (λ choice, bool_decide (runtime_alias p choice = Some runtime_id))
            (pp_runtime_choices p) with
    | Some choice => Ok choice
    | None => Raise ValueError
    end.

(** ** Validation *)

(** [AgentSurfaceConfig.validate_provider_runtime]. *)
Definition validate_provider_runtime (c : AgentSurfaceConfig) : res AgentSurfaceConfig :=
  runtime ← configured_runtime (asc_provider c) (asc_runtime c);
  Ok {| asc_provider := asc_provider c; asc_runtime := runtime; asc_model := asc_model c;
        asc_reasoning := asc_reasoning c; asc_run_on := asc_run_on c;
        asc_permissions := asc_permissions c |}.

(** A profile of the document, when it has one. *)
Definition validate_profile (a : AgentProfiles) (s : AgentSurface) : res AgentProfiles :=
  match get_profile s a with
  | None => Ok a
  | Some c => c' ← validate_provider_runtime c; Ok (set_profile s c' a)
  end.

Definition default_coach : PaperCoachConfig :=
  {| pcc_default_provider := DEFAULT_PROVIDER; pcc_default_model := "";
     pcc_default_reasoning := "medium" |}.

(** The profile of a surface that the legacy sections describe. *)
Definition legacy_profile (coach : PaperCoachConfig) (run_on : string) (s : AgentSurface) :
    res AgentSurfaceConfig :=
  let paper := bool_decide (s = PaperCoach) in
  validate_provider_runtime
    {| asc_provider := if paper then pcc_default_provider coach else "codex"; asc_runtime := "";
       asc_model := if paper then pcc_default_model coach else "";
       asc_reasoning := if paper then pcc_default_reasoning coach else "medium";
       asc_run_on := run_on; asc_permissions := None |}.

Definition fill_profile (coach : PaperCoachConfig) (run_on : option string) (a : AgentProfiles)
    (s : AgentSurface) : res AgentProfiles :=
  match get_profile s a, run_on with
  | None, Some r => c ← legacy_profile coach r s; Ok (set_profile s c a)
  | _, _ => Ok a
  end.

Definition with_permissions (c : AgentSurfaceConfig) (p : AgentPermissions) : AgentSurfaceConfig :=
  {| asc_provider := asc_provider c; asc_runtime := asc_runtime c; asc_model := asc_model c;
     asc_reasoning := asc_reasoning c; asc_run_on := asc_run_on c; asc_permissions := Some p |}.

(** The orchestrator copies the refresh profile when it has none of its own. *)
Definition fill_orchestrator (a : AgentProfiles) : AgentProfiles :=
  match apr_orchestrator a, apr_refresh a with
  | None, Some r =>
      set_profile OrchestratorSurface (with_permissions r (permissions_for_capability Orchestrate)) a
  | _, _ => a
  end.

(** The permissions a profile keeps, or a refusal. *)
Definition check_permissions (s : AgentSurface) (p : option AgentPermissions) : res AgentPermissions :=
  let expected := permissions_for s in
  match p with
  | None => Ok expected
  | Some p =>
      if bool_decide (s ∈ [NodeChat; ProjectChat]) &&
         bool_decide (p = permissions_for_capability ScratchPatch) then Ok expected
      else if bool_decide (p = expected) then Ok p else Raise ValueError
  end.

Definition check_profile (machines : list string) (state_machine : string) (a : AgentProfiles)
    (s : AgentSurface) : res AgentProfiles :=
  match get_profile s a with
  | None => Raise ValueError
  | Some c =>
      _ ← require (mem (asc_run_on c) machines);
      _ ← require (negb (bool_decide (s ∈ GRAPH_AGENT_EXECUTION_PROFILES) &&
                         negb (str_eqb (asc_run_on c) state_machine)));
      p ← check_permissions s (asc_permissions c);
      Ok (set_profile s (with_permissions c p) a)
  end.

(** [Manifest.validate_references]. *)
Definition validate_references (m : Manifest) : res Manifest :=
  let repositories := repository_aliases m in
  _ ← require (no_dup (mf_machines m));
  _ ← require (no_dup repositories);
  _ ← require (forallb (λ r, mem (rc_machine r) (mf_machines m)) (mf_repositories m));
  _ ← require (forallb (λ a, mem a repositories) (mf_truth_scope m));
  _ ← require (mem (mf_state_repository m) repositories);
  _ ← require (mem (mf_state_repository m) (mf_truth_scope m));
  _ ← require (forallb (λ a, mem a (mf_truth_scope m)) (mf_default_run_truth_scope m) &&
               negb (is_nil (mf_default_run_truth_scope m)));
  _ ← require (is_some (mf_execution_run_on m) ||
               forallb (λ s, is_some (get_profile s (mf_profiles m))) _AGENT_SURFACES);
  let coach := default default_coach (mf_paper_coach m) in
  _ ← profile_for (pcc_default_provider coach);
  match find (λ r, str_eqb (rc_alias r) (mf_state_repository m)) (mf_repositories m) with
  | None => Raise (KeyError (mf_state_repository m))
  | Some state =>
      filled ← res_fold (fill_profile coach (mf_execution_run_on m)) (mf_profiles m) _AGENT_SURFACES;
      profiles ← res_fold (check_profile (mf_machines m) (rc_machine state))
                   (fill_orchestrator filled) AGENT_EXECUTION_PROFILES;
      Ok (with_profiles m profiles)
  end.

(** [Manifest.model_validate]: the fields, then the references. *)
Definition load_manifest (document : Manifest) : res Manifest :=
  _ ← require (1 <=? mf_auto_research_ceiling document)%Z;
  profiles ← res_fold validate_profile (mf_profiles document) AGENT_EXECUTION_PROFILES;
  validate_references (with_profiles document profiles).

(** ** Writes *)

(** [document["project"]["truth_scope"] = ..], after registering a repository. *)
Definition with_scope (d : Manifest) (truth_scope : list string) (repositories : list RepositoryConfig) :
    Manifest :=
  {| mf_name := mf_name d; mf_machines := mf_machines d; mf_repositories := repositories;
     mf_truth_scope := truth_scope; mf_state_repository := mf_state_repository d;
     mf_default_run_truth_scope := mf_default_run_truth_scope d;
     mf_auto_research_ceiling := mf_auto_research_ceiling d; mf_workflow_ids := mf_workflow_ids d;
     mf_skill_ids := mf_skill_ids d; mf_profiles := mf_profiles d;
     mf_execution_run_on := mf_execution_run_on d; mf_paper_coach := mf_paper_coach d |}.

(** The new document; [m] is the loaded manifest. *)
Definition _project_scope_content (m d : Manifest) (truth_scope : list string)
    (descriptor : option RepositoryDescriptor) : res Manifest :=
  _ ← require (match descriptor with
               | Some r => mem (rd_machine r) (mf_machines m) | None => true end);
  let repositories :=
    match descriptor with
    | Some r =>
        if mem (rd_alias r) (repository_aliases d) then mf_repositories d
        else mf_repositories d ++
          [{| rc_alias := rd_alias r; rc_machine := rd_machine r; rc_path := rd_path r |}]
    | None => mf_repositories d
    end in
  let content := with_scope d truth_scope repositories in
  _ ← load_manifest content;
  Ok content.

Definition validate_project_scope_update (m d : Manifest) (truth_scope : list string)
    (descriptor : option RepositoryDescriptor) : res unit :=
  _ ← _project_scope_content m d truth_scope descriptor; Ok tt.

Definition write_project_scope (m d : Manifest) (truth_scope : list string)
    (descriptor : option RepositoryDescriptor) : res Manifest :=
  _project_scope_content m d truth_scope descriptor.

(** The profile written for a surface: the one submitted, else the one held;
    its permissions are always those of the surface. *)
Definition written_profile (submitted held : AgentProfiles) (a : AgentProfiles) (s : AgentSurface) :
    res AgentProfiles :=
  match match get_profile s submitted with Some c => Some c | None => get_profile s held end with
  | Some c => Ok (set_profile s (with_permissions c (permissions_for s)) a)
  | None => Raise ValueError
  end.

(** The machines a provider-path update names must exist; the paths themselves
    are not kept here. *)
Definition _apply_machine_provider_path_updates (d : Manifest) (machines : list string) : res unit :=
  require (forallb (λ a, mem a (mf_machines d)) machines).

(** The document [write_agent_settings] writes; it drops the legacy sections. *)
Definition write_agent_settings (m d : Manifest) (default_run_truth_scope : list string)
    (profiles : AgentProfiles) (provider_path_machines : list string)
    (skill_defaults : option (list string * list string)) (ceiling : option Z) : res Manifest :=
  written ← res_fold (written_profile profiles (mf_profiles m)) (mf_profiles d)
              AGENT_EXECUTION_PROFILES;
  let defaults := default (mf_workflow_ids m, mf_skill_ids m) skill_defaults in
  let content :=
    {| mf_name := mf_name d; mf_machines := mf_machines d; mf_repositories := mf_repositories d;
       mf_truth_scope := mf_truth_scope d; mf_state_repository := mf_state_repository d;
       mf_default_run_truth_scope := default_run_truth_scope;
       mf_auto_research_ceiling := default (mf_auto_research_ceiling m) ceiling;
       mf_workflow_ids := defaults.1; mf_skill_ids := defaults.2; mf_profiles := written;
       mf_execution_run_on := None; mf_paper_coach := None |} in
  _ ← _apply_machine_provider_path_updates d provider_path_machines;
  _ ← load_manifest content;
  Ok content.

Definition write_machine_provider_paths (d : Manifest) (provider_path_machines : list string) :
    res Manifest :=
  _ ← _apply_machine_provider_path_updates d provider_path_machines;
  _ ← load_manifest d;
  Ok d.

(** ** Properties *)

(** A manifest whose references resolve. *)
Record manifest_ok (m : Manifest) : Prop := {
  mok_repositories : NoDup (repository_aliases m);
  mok_machines : NoDup (mf_machines m);
  mok_placed : ∀ r, r ∈ mf_repositories m → rc_machine r ∈ mf_machines m;
  mok_scope : ∀ a, a ∈ mf_truth_scope m → a ∈ repository_aliases m;
  mok_state : mf_state_repository m ∈ mf_truth_scope m;
  mok_default : ∀ a, a ∈ mf_default_run_truth_scope m → a ∈ mf_truth_scope m;
  mok_default_nonempty : mf_default_run_truth_scope m ≠ [] }.

(** A complete profile with exactly the permissions of its surface. *)
Definition profile_ok (m : Manifest) (state_machine : string) (s : AgentSurface)
    (c : AgentSurfaceConfig) : Prop :=
  asc_permissions c = Some (permissions_for s) ∧ asc_run_on c ∈ mf_machines m ∧
  (s ∈ GRAPH_AGENT_EXECUTION_PROFILES → asc_run_on c = state_machine).

Lemma get_set_profile s t c a :
  get_profile t (set_profile s c a) = if decide (s = t) then Some c else get_profile t a.
Proof. by destruct t. Qed.

Lemma forallb_mem_true {A} (f : A → string) (l : list A) (ss : list string) :
  forallb (λ x, mem (f x) ss) l = true → ∀ x, x ∈ l → f x ∈ ss.
Proof. rewrite forallb_forall. intros Hall x Hx. by apply mem_true, Hall, list_elem_of_In. Qed.

Lemma check_permissions_exact s p q : check_permissions s p = Ok q → q = permissions_for s.
Proof.
  unfold check_permissions. destruct p as [p|]; [|by intros [= <-]].
  destruct (_ && _); [by intros [= <-]|]. case_bool_decide; [by intros [= <-]|done].
Qed.

Lemma check_profile_ok ms state a s a' :
  check_profile ms state a s = Ok a' →
  (∀ t, t ≠ s → get_profile t a' = get_profile t a) ∧
  ∃ c, get_profile s a' = Some c ∧ asc_permissions c = Some (permissions_for s) ∧
    asc_run_on c ∈ ms ∧ (s ∈ GRAPH_AGENT_EXECUTION_PROFILES → asc_run_on c = state).
Proof.
  unfold check_profile. destruct (get_profile s a) as [c|]; [|done]. intros Hc.
  apply res_bind_ok in Hc as (u1 & Hrun%require_ok%mem_true & Hc).
  apply res_bind_ok in Hc as (u2 & Hstate%require_ok & Hc).
  apply res_bind_ok in Hc as (p & Hp%check_permissions_exact & Hc). injection Hc as <-.
  split; [intros t Ht; rewrite get_set_profile; by rewrite decide_False|].
  eexists. rewrite get_set_profile, decide_True by done. split; [done|]. simpl. subst p.
  split; [done|]. split; [done|]. intros Hs. rewrite bool_decide_eq_true_2 in Hstate by done.
  destruct (str_eqb _ _) eqn:He in Hstate; [|done]. by apply bool_decide_eq_true in He.
Qed.

Lemma check_profiles_ok ms state l a a' :
  NoDup l → res_fold (check_profile ms state) a l = Ok a' →
  (∀ t, t ∉ l → get_profile t a' = get_profile t a) ∧
  ∀ s, s ∈ l → ∃ c, get_profile s a' = Some c ∧ asc_permissions c = Some (permissions_for s) ∧
    asc_run_on c ∈ ms ∧ (s ∈ GRAPH_AGENT_EXECUTION_PROFILES → asc_run_on c = state).
Proof.
  intros Hl. revert a. induction Hl as [|s l Hs Hl IH]; intros a Hf; simpl in Hf.
  { injection Hf as <-. split; [done|]. by intros s ?%elem_of_nil. }
  apply res_bind_ok in Hf as (a1 & Hc & Hf). destruct (check_profile_ok _ _ _ _ _ Hc) as [Hother Hown].
  destruct (IH a1 Hf) as [Hrest Hin]. split.
  - intros t Ht. rewrite Hrest, Hother by set_solver. done.
  - intros t [->|Ht]%elem_of_cons; [|by apply Hin]. rewrite Hrest by done. exact Hown.
Qed.

Lemma all_profiles s : s ∈ AGENT_EXECUTION_PROFILES.
Proof. destruct s; by_decide. Qed.

Lemma validate_references_ok d m : validate_references d = Ok m →
  manifest_ok m ∧ (∃ profiles, m = with_profiles d profiles) ∧
  ∃ state, state ∈ mf_repositories m ∧ rc_alias state = mf_state_repository m ∧
    ∀ s, ∃ c, get_profile s (mf_profiles m) = Some c ∧ profile_ok m (rc_machine state) s c.
Proof.
  unfold validate_references. intros Hm.
  apply res_bind_ok in Hm as (u1 & Hmachines%require_ok%bool_decide_eq_true & Hm).
  apply res_bind_ok in Hm as (u2 & Hrepos%require_ok%bool_decide_eq_true & Hm).
  apply res_bind_ok in Hm as (u3 & Hplaced%require_ok & Hm).
  apply res_bind_ok in Hm as (u4 & Hscope%require_ok & Hm).
  apply res_bind_ok in Hm as (u5 & _ & Hm).
  apply res_bind_ok in Hm as (u6 & Hstate%require_ok%mem_true & Hm).
  apply res_bind_ok in Hm as (u7 & Hdefault%require_ok & Hm).
  apply res_bind_ok in Hm as (u8 & _ & Hm). apply res_bind_ok in Hm as (coach & _ & Hm).
  destruct (find _ _) as [state|] eqn:Hfind; [|done].
  apply find_some in Hfind as [Hin%list_elem_of_In Halias%bool_decide_eq_true].
  apply res_bind_ok in Hm as (filled & _ & Hm).
  apply res_bind_ok in Hm as (profiles & Hprofiles & Hm). injection Hm as <-.
  apply check_profiles_ok in Hprofiles as [_ Hall]; [|by_decide].
  apply andb_true_iff in Hdefault as [Hdefault Hne].
  split; [|split; [by eexists|]].
  - constructor; try done; cbn.
    + by apply (forallb_mem_true rc_machine).
    + by apply (forallb_mem_true id).
    + by apply (forallb_mem_true id).
    + by destruct (mf_default_run_truth_scope d).
  - exists state. split; [done|]. split; [done|]. intros s. apply Hall, all_profiles.
Qed.

Lemma set_profile_same s c a : get_profile s a = Some c → set_profile s c a = a.
Proof.
  intros Hc. destruct a as [a1 a2 a3 a4 a5 a6]. unfold set_profile. cbn.
  destruct s; cbn in *; by rewrite Hc.
Qed.

Lemma with_permissions_same c p : asc_permissions c = Some p → with_permissions c p = c.
Proof. intros Hp. destruct c. unfold with_permissions. cbn in *. by rewrite Hp. Qed.

Lemma check_permissions_own s : check_permissions s (Some (permissions_for s)) = Ok (permissions_for s).
Proof. by destruct s. Qed.

Lemma check_profiles_fixed ms state a l :
  (∀ s, s ∈ l → ∃ c, get_profile s a = Some c ∧ asc_permissions c = Some (permissions_for s) ∧
    asc_run_on c ∈ ms ∧ (s ∈ GRAPH_AGENT_EXECUTION_PROFILES → asc_run_on c = state)) →
  res_fold (check_profile ms state) a l = Ok a.
Proof.
  induction l as [|s l IH]; intros Hall; [done|]. cbn [res_fold].
  destruct (Hall s ltac:(by left)) as (c & Hc & Hp & Hr & Hg).
  assert (check_profile ms state a s = Ok a) as ->.
  { unfold check_profile. rewrite Hc, Hp, check_permissions_own. rewrite (proj2 (mem_true _ _)) by done.
    replace (negb _) with true; cbn [require mbind res_bind].
    - by rewrite with_permissions_same, set_profile_same.
    - case_bool_decide; [|done]. unfold str_eqb. by rewrite bool_decide_eq_true_2 by auto. }
  cbn [mbind res_bind]. apply IH. intros t Ht. apply Hall. by right.
Qed.

(** The profile of a surface names its runtime the way its provider does. *)
Definition normal_at (a : AgentProfiles) (s : AgentSurface) : Prop :=
  ∀ c, get_profile s a = Some c → configured_runtime (asc_provider c) (asc_runtime c) = Ok (asc_runtime c).

Lemma profile_for_in provider p : profile_for provider = Ok p → p ∈ PROVIDERS ∧ pp_id p = provider.
Proof.
  unfold profile_for. destruct (find _ _) as [q|] eqn:Hq; [|done]. intros [= ->].
  by apply find_some in Hq as [?%list_elem_of_In ?%bool_decide_eq_true].
Qed.

Lemma choices_stable p c : p ∈ PROVIDERS → c ∈ pp_default_runtime p :: pp_runtime_choices p →
  configured_runtime (pp_id p) c = Ok c.
Proof.
  intros Hp Hc. unfold PROVIDERS in Hp. rewrite !elem_of_cons, elem_of_nil in Hp.
  destruct Hp as [-> | [-> | [-> | []]]]; cbn in Hc; rewrite !elem_of_cons, elem_of_nil in Hc;
    naive_solver.
Qed.

Lemma configured_runtime_stable provider r c :
  configured_runtime provider r = Ok c → configured_runtime provider c = Ok c.
Proof.
  unfold configured_runtime at 1. intros (p & [Hp <-]%profile_for_in & Hc)%res_bind_ok.
  apply choices_stable; [done|]. destruct (negb _).
  { injection Hc as <-. by left. }
  apply res_bind_ok in Hc as (u & _ & Hc). destruct (find _ _) as [choice|] eqn:Hf; [|done].
  injection Hc as <-. right. by apply find_some in Hf as [?%list_elem_of_In _].
Qed.

Lemma validate_provider_runtime_normal c c' : validate_provider_runtime c = Ok c' →
  configured_runtime (asc_provider c') (asc_runtime c') = Ok (asc_runtime c').
Proof. by intros (r & ?%configured_runtime_stable & [= <-])%res_bind_ok. Qed.

Lemma set_profile_normal s c a t : normal_at a t →
  configured_runtime (asc_provider c) (asc_runtime c) = Ok (asc_runtime c) →
  normal_at (set_profile s c a) t.
Proof. intros Ha Hc c'. rewrite get_set_profile. case_decide; [by intros [= <-]|apply Ha]. Qed.

Lemma validate_profile_normal a s a' t : validate_profile a s = Ok a' →
  (normal_at a t → normal_at a' t) ∧ normal_at a' s.
Proof.
  unfold validate_profile. destruct (get_profile s a) as [c|] eqn:Hs.
  - intros (c' & Hc & [= <-])%res_bind_ok. apply validate_provider_runtime_normal in Hc.
    split; [intros Ha; by apply set_profile_normal|].
    intros c1. rewrite get_set_profile, decide_True by done. by intros [= <-].
  - intros [= <-]. split; [done|]. intros c. by rewrite Hs.
Qed.

Lemma validate_profiles_normal l a a' s :
  res_fold validate_profile a l = Ok a' → s ∈ l → normal_at a' s.
Proof.
  revert a. induction l as [|t l IH]; intros a Hl Hs; cbn [res_fold] in Hl; [by apply elem_of_nil in Hs|].
  apply res_bind_ok in Hl as (a1 & Ha1 & Hl). destruct (decide (s ∈ l)) as [|Hn]; [by eapply IH|].
  apply elem_of_cons in Hs as [->|]; [|done].
  apply (res_fold_inv (λ a, normal_at a t) _ _ _ _) in Hl; [done| |by eapply validate_profile_normal].
  intros a2 x a3 _ Ha Hx. by apply (validate_profile_normal _ _ _ t Hx).
Qed.

Lemma fill_profile_normal coach run_on a s a' t :
  fill_profile coach run_on a s = Ok a' → normal_at a t → normal_at a' t.
Proof.
  unfold fill_profile. destruct (get_profile s a), run_on; try by intros [= <-].
  intros (c & Hc%validate_provider_runtime_normal & [= <-])%res_bind_ok Ha. by apply set_profile_normal.
Qed.

Lemma fill_orchestrator_normal a t : (∀ s, normal_at a s) → normal_at (fill_orchestrator a) t.
Proof.
  intros Ha. unfold fill_orchestrator. destruct (apr_orchestrator a), (apr_refresh a) as [r|] eqn:Hr; try exact (Ha t).
  apply set_profile_normal; [done|]. exact (Ha SurfaceRefresh r Hr).
Qed.

Lemma check_profile_normal ms state a s a' t :
  check_profile ms state a s = Ok a' → normal_at a t → normal_at a' t.
Proof.
  unfold check_profile. destruct (get_profile s a) as [c|] eqn:Hs; [|done].
  intros (u1 & _ & Hc)%res_bind_ok Ha. apply res_bind_ok in Hc as (u2 & _ & Hc).
  apply res_bind_ok in Hc as (p & _ & Hc). injection Hc as <-. intros c'. rewrite get_set_profile.
  case_decide as Hst; [|apply Ha]. intros [= <-]. subst t. exact (Ha c Hs).
Qed.

Lemma validate_profiles_fixed a l : (∀ s, normal_at a s) → res_fold validate_profile a l = Ok a.
Proof.
  intros Ha. induction l as [|s l IH]; [done|]. cbn [res_fold]. 
  assert (validate_profile a s = Ok a) as ->; [|exact IH].
  unfold validate_profile. destruct (get_profile s a) as [c|] eqn:Hs; [|done].
  unfold validate_provider_runtime. rewrite (Ha s c Hs). cbn [mbind res_bind].
  replace {| asc_provider := _ |} with c by by destruct c. by rewrite set_profile_same.
Qed.

Lemma fill_profiles_fixed coach run_on a :
  (∀ s, is_some (get_profile s a) = true) →
  res_fold (fill_profile coach run_on) a _AGENT_SURFACES = Ok a ∧ fill_orchestrator a = a.
Proof.
  intros Hall. split.
  - assert (∀ s, fill_profile coach run_on a s = Ok a) as Hfill.
    { intros s. unfold fill_profile. specialize (Hall s). by destruct (get_profile s a). }
    cbn [res_fold _AGENT_SURFACES]. by repeat (rewrite Hfill; cbn [mbind res_bind]).
  - unfold fill_orchestrator. specialize (Hall OrchestratorSurface). cbn in Hall.
    by destruct (apr_orchestrator a).
Qed.

(** C30: a loaded manifest is coherent and grants exactly the documented
    permissions.  Its default run scope is a non-empty part of the truth scope,
    the truth scope names registered repositories only and keeps the state
    repository; every one of the six profiles is there, runs on a registered
    machine, holds exactly the permissions of its surface whatever the document
    said, and a profile that writes the graph runs beside the canonical state. *)
Theorem loaded_manifest_coherent d m : load_manifest d = Ok m →
  manifest_ok m ∧
  ∃ state, state ∈ mf_repositories m ∧ rc_alias state = mf_state_repository m ∧
    ∀ s, ∃ c, get_profile s (mf_profiles m) = Some c ∧ profile_ok m (rc_machine state) s c.
Proof.
  intros (u & _ & (p & _ & (Hm & _ & Hp)%validate_references_ok)%res_bind_ok)%res_bind_ok. by split.
Qed.

(** Loading is idempotent.  A loaded manifest, written out and loaded again,
    is itself: defaults, runtime names and normalized permissions settle at once. *)
Theorem load_manifest_idempotent d m : load_manifest d = Ok m → load_manifest m = Ok m.
Proof.
  intros (u & Hceiling & (p1 & Hnormal & Hm)%res_bind_ok)%res_bind_ok.
  destruct (validate_references_ok _ m Hm) as (Hok & (profiles & ->) & state0 & _ & _ & Hall).
  assert (∀ s, is_some (get_profile s profiles) = true) as Hsome.
  { intros s. destruct (Hall s) as (c & Hc & _). cbn [with_profiles mf_profiles] in Hc. by rewrite Hc. }
  unfold validate_references in Hm.
  apply res_bind_ok in Hm as ([] & E1 & Hm). apply res_bind_ok in Hm as ([] & E2 & Hm).
  apply res_bind_ok in Hm as ([] & E3 & Hm). apply res_bind_ok in Hm as ([] & E4 & Hm).
  apply res_bind_ok in Hm as ([] & E5 & Hm). apply res_bind_ok in Hm as ([] & E6 & Hm).
  apply res_bind_ok in Hm as ([] & E7 & Hm). apply res_bind_ok in Hm as (_ & _ & Hm).
  apply res_bind_ok in Hm as (coach & E8 & Hm). destruct (find _ _) as [state|] eqn:E9; [|done].
  apply res_bind_ok in Hm as (filled & Hfill & Hm). apply res_bind_ok in Hm as (profiles' & Hp & Hm).
  assert (profiles' = profiles) as -> by (injection Hm; done). clear Hm.
  assert (∀ s, normal_at profiles s) as Hn.
  { intros s. apply (res_fold_inv (λ a, normal_at a s) _ _ _ _ (λ a x a' _ Ha Hx,
      check_profile_normal _ _ _ _ _ _ Hx Ha)) in Hp; [done|]. apply fill_orchestrator_normal. intros t.
    apply (res_fold_inv (λ a, normal_at a t) _ _ _ _ (λ a x a' _ Ha Hx,
      fill_profile_normal _ _ _ _ _ _ Hx Ha)) in Hfill; [done|].
    apply (validate_profiles_normal _ _ _ t Hnormal), all_profiles. }
  unfold load_manifest. cbn [with_profiles mf_profiles mf_auto_research_ceiling].
  rewrite Hceiling, (validate_profiles_fixed profiles) by done. cbn [mbind res_bind].
  unfold validate_references. unfold repository_aliases in *.
  cbn [with_profiles mf_machines mf_repositories mf_truth_scope mf_auto_research_ceiling
    mf_state_repository mf_default_run_truth_scope mf_execution_run_on mf_profiles mf_paper_coach] in *.
  rewrite E1, E2, E3, E4, E5, E6, E7, E8, E9. cbn [mbind res_bind].
  replace (require _) with (Ok tt : res unit).
  2: { rewrite (proj2 (forallb_forall _ _)); [by rewrite orb_true_r|]. intros s _. apply Hsome. }
  cbn [mbind res_bind]. destruct (fill_profiles_fixed (default default_coach (mf_paper_coach d))
    (mf_execution_run_on d) profiles Hsome) as [-> Hfixed].
  cbn [mbind res_bind]. rewrite Hfixed.
  apply check_profiles_ok in Hp as [_ Hchecked]; [|by_decide].
  rewrite check_profiles_fixed by (intros s Hs; apply Hchecked, Hs). done.
Qed.
