(* ===== verification/Log.v ===== *)
(** The canonical log of a project ([history/manager.py], reading): the files
    the history manager keeps, their replay with every structural check, the
    head, and the identity and home the log establishes.

    The store is the directory [.research/] as the manager sees it: the Patch
    files in the order of their names, [scope-base.json], [manifest.toml], the
    branch directories.  A Patch file holds a document that
    [model_dump_json] wrote: reading it gives the Patch back and runs its model
    validators.  Locks, atomic writes, the derived output files and remote
    refreshes are not modelled: every operation here runs inside the append lock
    and the workspace transaction. *)

From S2P Require Export Commit Manifest.

(** ** Outcomes *)

(** The exceptions of the history services. *)
Inductive HistoryError :=
  | ReplayHalted (st : GraphState)
  | PatchRejected (report : ValidationReport)
  | RevisionConflict
  | ProjectIdentityConflict
  | BranchMergeAlreadyCommitted (p : Patch)
  | BranchMergeAlreadyResolved (receipt : BranchMergeReceipt)
  | PublishFailed
  | Raised (e : exn).

Inductive outcome (A : Type) := Done (a : A) | Failed (e : HistoryError).
Arguments Done {_} _.
Arguments Failed {_} _.

#[export] Instance outcome_ret : MRet outcome := @Done.
#[export] Instance outcome_bind : MBind outcome := λ A B f m,
  match m with Done a => f a | Failed e => Failed e end.

(** A computation of the kernel. *)
Definition kernel {A} (r : res A) : outcome A :=
  match r with Ok a => Done a | Raise e => Failed (Raised e) end.

Definition ensure (c : bool) (e : HistoryError) : outcome unit := if c then Done tt else Failed e.

Lemma outcome_bind_done {A B} (m : outcome A) (k : A → outcome B) b :
  m ≫= k = Done b → ∃ a, m = Done a ∧ k a = Done b.
Proof. destruct m; simpl; [eauto|done]. Qed.

Lemma ensure_done c e u : ensure c e = Done u → c = true.
Proof. by destruct c. Qed.

Lemma kernel_done {A} (r : res A) a : kernel r = Done a → r = Ok a.
Proof. by destruct r; intros [= ->]. Qed.

(** ** The store *)

(** Why a Patch file could not be read. *)
Inductive ReadFault := PatchReadFailed | PatchSchemaInvalid.

(** A file of [patches/]: its number, its modification time, and its document,
    or the fault of reading it with the creation date its text still tells. *)
Record LogEntry := {
  le_revision : Z; le_mtime : Z; le_document : Patch + (ReadFault * option Z) }.

Inductive ScopeBase :=
  | ScopeMissing
  | ScopeInvalid (created_at : Z)
  | ScopeRecorded (truth_scope : list string).

(** A branch directory: [branch.json], [patches/] and [merges/] by file name. *)
Record BranchStore := {
  bs_metadata : option GraphBranchMetadata; bs_log : list LogEntry;
  bs_receipts : gmap string BranchMergeReceipt }.

Record Store := {
  st_log : list LogEntry; st_scope_base : ScopeBase; st_document : Manifest;
  st_branches : gmap string BranchStore; st_repair_required : bool;
  st_branch_repairs : gset string; st_accepted_revision : option Z }.

Definition set_log_entries (l : list LogEntry) (s : Store) : Store :=
  {| st_log := l; st_scope_base := st_scope_base s; st_document := st_document s;
     st_branches := st_branches s; st_repair_required := st_repair_required s;
     st_branch_repairs := st_branch_repairs s; st_accepted_revision := st_accepted_revision s |}.
Definition set_scope_base (b : ScopeBase) (s : Store) : Store :=
  {| st_log := st_log s; st_scope_base := b; st_document := st_document s;
     st_branches := st_branches s; st_repair_required := st_repair_required s;
     st_branch_repairs := st_branch_repairs s; st_accepted_revision := st_accepted_revision s |}.
Definition set_document (d : Manifest) (s : Store) : Store :=
  {| st_log := st_log s; st_scope_base := st_scope_base s; st_document := d;
     st_branches := st_branches s; st_repair_required := st_repair_required s;
     st_branch_repairs := st_branch_repairs s; st_accepted_revision := st_accepted_revision s |}.
Definition set_branches (f : gmap string BranchStore → gmap string BranchStore) (s : Store) : Store :=
  {| st_log := st_log s; st_scope_base := st_scope_base s; st_document := st_document s;
     st_branches := f (st_branches s); st_repair_required := st_repair_required s;
     st_branch_repairs := st_branch_repairs s; st_accepted_revision := st_accepted_revision s |}.
Definition set_repair (b : bool) (s : Store) : Store :=
  {| st_log := st_log s; st_scope_base := st_scope_base s; st_document := st_document s;
     st_branches := st_branches s; st_repair_required := b;
     st_branch_repairs := st_branch_repairs s; st_accepted_revision := st_accepted_revision s |}.
Definition set_branch_repairs (f : gset string → gset string) (s : Store) : Store :=
  {| st_log := st_log s; st_scope_base := st_scope_base s; st_document := st_document s;
     st_branches := st_branches s; st_repair_required := st_repair_required s;
     st_branch_repairs := f (st_branch_repairs s); st_accepted_revision := st_accepted_revision s |}.
Definition set_accepted (r : option Z) (s : Store) : Store :=
  {| st_log := st_log s; st_scope_base := st_scope_base s; st_document := st_document s;
     st_branches := st_branches s; st_repair_required := st_repair_required s;
     st_branch_repairs := st_branch_repairs s; st_accepted_revision := r |}.

(** The identity of a manager; the resolver and the membership check are live
    services of the host, absent when not configured. *)
Record HistoryConfig := {
  hc_expected_space_id : option string; hc_project_id : option string;
  hc_require_attribution : bool;
  hc_agent_authority_resolver : option (string → string → res AgentTaskAuthority);
  hc_project_membership_check : option (string → string → bool) }.

(** ** Reading Patch files *)

(** [_decode_persisted_patch]: the model validators run again on the document. *)
Definition _decode_persisted_patch (p : Patch) : res Patch :=
  if reject_legacy_proposal_intents_in_current_generation p && branch_merge_attribution_is_complete p
  then Ok p else Raise ValidationError.

Definition read_failure (revision date : Z) (f : ReadFault) : ReplayFailure :=
  {| rf_revision := revision; rf_created_at := date;
     rf_code := match f with PatchReadFailed => "patch-read-failed"
                           | PatchSchemaInvalid => "patch-schema-invalid" end |}.

(** [_patch_failure_created_at]. *)
Definition _patch_failure_created_at (e : LogEntry) : Z :=
  match le_document e with
  | inl p => p_created_at p
  | inr (_, Some date) => date
  | inr (_, None) => le_mtime e
  end.

(** The Patch of a file, or the fault of reading it. *)
Definition load_entry (e : LogEntry) : Patch + ReadFault :=
  match le_document e with
  | inl p => match _decode_persisted_patch p with
             | Ok p => inl p | Raise _ => inr PatchSchemaInvalid end
  | inr (f, _) => inr f
  end.

(** The Patches before the first file that cannot be read, and its failure. *)
Fixpoint decode_log (l : list LogEntry) : list Patch * option ReplayFailure :=
  match l with
  | [] => ([], None)
  | e :: l =>
      match load_entry e with
      | inl p => let r := decode_log l in (p :: r.1, r.2)
      | inr f => ([], Some (read_failure (le_revision e) (_patch_failure_created_at e) f))
      end
  end.

(** ** Replay *)

(** [MaterializationResult]: the loop variables and the Patches replayed. *)
Record MaterializationResult := { mr_patches : list Patch; mr_materialization : Materialization }.

Definition mr_state (r : MaterializationResult) : GraphState := mat_state (mr_materialization r).
Definition mr_reports (r : MaterializationResult) : gmap Z ValidationReport :=
  mat_reports (mr_materialization r).

(** [result.state = result.state.model_copy(..)]. *)
Definition with_result_state (st : GraphState) (r : MaterializationResult) : MaterializationResult :=
  let m := mr_materialization r in
  {| mr_patches := mr_patches r;
     mr_materialization :=
       {| mat_state := st; mat_reports := mat_reports m; mat_descriptors := mat_descriptors m;
          mat_cursors := mat_cursors m; mat_observed := mat_observed m |} |}.

(** [model_copy(update={"replay_status": "degraded", "replay_failure": ..})]. *)
Definition halted (f : ReplayFailure) (st : GraphState) : GraphState :=
  set_log (gs_revision st) (gs_validation_messages st) (gs_belief_transitions st) ReplayDegraded
    (Some f) (gs_last_refresh_at st) st.

(** The arguments every replay takes from the manifest. *)
Definition manifest_settings (m : Manifest) (mode : Mode) (scope : list string) : Settings :=
  {| cfg_project_truth_scope := scope;
     cfg_repository_aliases := Some (py_sorted (repository_aliases m));
     cfg_machine_aliases := Some (py_sorted (mf_machines m));
     cfg_default_run_truth_scope := Some (mf_default_run_truth_scope m);
     cfg_state_repository := Some (mf_state_repository m); cfg_mode := mode;
     cfg_experiment_control_node_id := None; cfg_experiment_decision_bundle := None |}.

Definition replay_manifest (m : Manifest) : Settings := manifest_settings m ModeReplay [].

Definition _first_replay_revision (l : list LogEntry) : Z :=
  match l with e :: _ => le_revision e | [] => 0 end.

Definition _first_replay_created_at (l : list LogEntry) (patches : list Patch) (fallback : Z) : Z :=
  match patches, l with
  | p :: _, _ => p_created_at p
  | [], e :: _ => _patch_failure_created_at e
  | [], [] => fallback
  end.

(** The scope a replay starts from, and why it must not. *)
Definition initial_scope (m : Manifest) (b : ScopeBase) (l : list LogEntry) (patches : list Patch) :
    list string * option ReplayFailure :=
  let failure fallback code :=
    Some {| rf_revision := _first_replay_revision l;
            rf_created_at := _first_replay_created_at l patches fallback; rf_code := code |} in
  match b with
  | ScopeRecorded scope => (scope, None)
  | ScopeInvalid date => (mf_truth_scope m, failure date "scope-provenance-invalid")
  | ScopeMissing =>
      (mf_truth_scope m, if is_nil l then None else failure 0%Z "scope-provenance-missing")
  end.

(** The Patches before the one at which the head chain breaks. *)
Fixpoint before_revision (revision : Z) (patches : list Patch) : list Patch :=
  match patches with
  | [] => []
  | p :: patches => if (p_revision p =? revision)%Z then [] else p :: before_revision revision patches
  end.

(** The failure of the smaller revision, the structural one first. *)
Definition earlier_failure (a b : option ReplayFailure) : option ReplayFailure :=
  match a, b with
  | Some x, Some y => if (rf_revision y <? rf_revision x)%Z then Some y else Some x
  | Some x, None => Some x
  | None, _ => b
  end.

(** [if failure is not None and status == "complete"]. *)
Definition halt_if_complete (f : option ReplayFailure) (r : MaterializationResult) :
    MaterializationResult :=
  match f with
  | Some f => if decide (gs_replay_status (mr_state r) = ReplayComplete)
              then with_result_state (halted f (mr_state r)) r else r
  | None => r
  end.

Section replay.
Context `{NodeAdapter, RecordAdapter, TextLib, CanonicalHash}.

(** [HistoryManager._replay], on the loaded manifest. *)
Definition _replay (m : Manifest) (s : Store) : MaterializationResult :=
  let l := st_log s in
  let '(patches, structural_failure) := decode_log l in
  let '(scope, scope_failure) := initial_scope m (st_scope_base s) l patches in
  let chain_failure := accepted_transition_head_chain_failure patches main_target None in
  let chain_prefix :=
    match chain_failure with
    | Some f => before_revision (rf_revision f) patches
    | None => patches
    end in
  let replayable := if is_some scope_failure then [] else chain_prefix in
  halt_if_complete
    (match scope_failure with
     | Some f => Some f | None => earlier_failure structural_failure chain_failure end)
    {| mr_patches := replayable;
       mr_materialization := materialize_patches (replay_manifest m) replayable scope |}.

(** The last accepted transition. *)
Definition last_transition (patches : list Patch) : option string :=
  foldl (λ id p, match p_admission p, p_transition p with
                 | AdmissionAccepted, Some tr => Some (tt_transition_id tr)
                 | _, _ => id
                 end) None patches.

(** [HistoryManager.head_ref]. *)
Definition head_ref (r : MaterializationResult) : outcome GraphHeadRef :=
  _ ← ensure (bool_decide (gs_replay_status (mr_state r) = ReplayComplete)) (ReplayHalted (mr_state r));
  _ ← ensure (negb (is_some (accepted_transition_head_chain_failure (mr_patches r) main_target None)))
        (Raised ValueError);
  Done {| head_target := main_target; head_revision := gs_revision (mr_state r);
          head_transition_id := last_transition (mr_patches r) |}.

(** [HistoryManager.require_writable]. *)
Definition require_writable (st : GraphState) : outcome GraphState :=
  if decide (gs_replay_status st = ReplayDegraded) then Failed (ReplayHalted st) else Done st.
End replay.

(** [max of the revisions accepted, 0 by default]. *)
Definition accepted_revision (r : MaterializationResult) : Z :=
  foldr Z.max 0%Z ((map_to_list (mr_reports r)) ≫= λ kv, if rejected kv.2 then [] else [kv.1]).

Definition _next_revision (s : Store) : Z :=
  match last (st_log s) with Some e => le_revision e + 1 | None => 1 end.

(** ** Project identity and home *)

(** The first identity and the current one, as they are carried along. *)
Definition IdentityState := (option ProjectIdentity * option ProjectIdentity)%type.

Definition set_home (i : ProjectIdentity) (home : string) : ProjectIdentity :=
  {| pi_project_id := pi_project_id i; pi_home_space_id := home; pi_action := pi_action i |}.

(** One Patch of the replay, accepted by its report. *)
Definition identity_step (reports : gmap Z ValidationReport) (s : IdentityState) (p : Patch) :
    outcome IdentityState :=
  let '(initial, current) := s in
  if negb (bool_decide (p_kind p = KIdentity)) then Done s
  else match reports !! p_revision p with
  | None => Done s
  | Some report =>
      if rejected report then Done s
      else match p_project_identity p, p_project_home_transfer p with
      | Some candidate, _ =>
          match initial with
          | None => Done (Some candidate, Some candidate)
          | Some i => if decide (candidate = i) then Done s else Failed ProjectIdentityConflict
          end
      | None, Some t =>
          match current with
          | None => Failed ProjectIdentityConflict
          | Some i =>
              if decide (pht_project_id t = pi_project_id i ∧
                         pht_previous_home_space_id t = pi_home_space_id i)
              then Done (initial, Some (set_home i (pht_new_home_space_id t)))
              else Failed ProjectIdentityConflict
          end
      | None, None => Done s
      end
  end.

(** The loop ends at the first Patch after [through_revision]. *)
Fixpoint identity_loop (reports : gmap Z ValidationReport) (through_revision : option Z)
    (s : IdentityState) (patches : list Patch) : outcome IdentityState :=
  match patches with
  | [] => Done s
  | p :: patches =>
      if match through_revision with Some r => (r <? p_revision p)%Z | None => false end then Done s
      else s' ← identity_step reports s p; identity_loop reports through_revision s' patches
  end.

Definition _project_identity_from_replay (r : MaterializationResult) (through_revision : option Z) :
    outcome (option ProjectIdentity) :=
  s ← identity_loop (mr_reports r) through_revision (None, None) (mr_patches r); Done s.2.

Section home.
Context (cfg : HistoryConfig).

Definition _require_expected_home (i : ProjectIdentity) : outcome unit :=
  match hc_expected_space_id cfg with
  | Some space => ensure (str_eqb (pi_home_space_id i) space) ProjectIdentityConflict
  | None => Done tt
  end.

Definition _require_writable_home_locked (r : MaterializationResult)
    (identity_claim : option ProjectIdentity) : outcome unit :=
  match hc_expected_space_id cfg with
  | None => Done tt
  | Some _ =>
      identity ← _project_identity_from_replay r None;
      match identity, identity_claim with
      | Some i, None => _require_expected_home i
      | Some i, Some _ => _ ← _require_expected_home i; Failed ProjectIdentityConflict
      | None, Some claim => _require_expected_home claim
      | None, None => Failed ProjectIdentityConflict
      end
  end.

(** [project_home_space_id_at_revision]. *)
Definition project_home_space_id_at_revision (revision : Z) (r : MaterializationResult) :
    outcome (option string) :=
  _ ← ensure (negb ((revision <? 0)%Z || (gs_revision (mr_state r) <? revision)%Z)) (Raised ValueError);
  identity ← _project_identity_from_replay r (Some revision);
  Done (option_map pi_home_space_id identity).
End home.

(** [_is_exact_prepared_identity_prefix]. *)
Definition _is_exact_prepared_identity_prefix (r : MaterializationResult) (i : ProjectIdentity) : bool :=
  match mr_patches r with
  | [p] =>
      (p_revision p =? 1)%Z && bool_decide (p_kind p = KIdentity) &&
      bool_decide (p_admission p = AdmissionAccepted) && negb (is_some (p_author p)) &&
      bool_decide (p_producer p = PSystem) && is_nil (p_ops p) &&
      bool_decide (p_project_identity p = Some i)
  | _ => false
  end.
