(* ===== verification/Attribution.v ===== *)
(** Attribution of an appended Patch ([history/manager.py]): who authorized it,
    stamped from the task that wrote it or from the human who approved it. *)

From S2P Require Export Log.

(** [patch.model_copy(update={"authorized_by": .., ..})]. *)
Definition attributed (p : Patch) (authorized_by : option AuthorizedHuman)
    (profile : option AgentProfile) (task_id episode_id : option string) : Patch :=
  {| p_schema_generation := p_schema_generation p; p_revision := p_revision p;
     p_kind := p_kind p; p_author := p_author p; p_producer := p_producer p;
     p_created_at := p_created_at p; p_summary := p_summary p; p_ops := p_ops p;
     p_run_truth_scope := p_run_truth_scope p; p_repositories_read := p_repositories_read p;
     p_processed_cursors := p_processed_cursors p; p_change_summary := p_change_summary p;
     p_source_operation_id := p_source_operation_id p;
     p_source_effect_id := p_source_effect_id p;
     p_source_effect_sha256 := p_source_effect_sha256 p;
     p_human_action := p_human_action p; p_agent_action := p_agent_action p;
     p_admission := p_admission p; p_admission_messages := p_admission_messages p;
     p_experiment_control_node_id := p_experiment_control_node_id p;
     p_experiment_decision_bundle := p_experiment_decision_bundle p;
     p_project_identity := p_project_identity p;
     p_project_home_transfer := p_project_home_transfer p;
     p_authorized_by := authorized_by; p_profile := profile; p_task_id := task_id;
     p_episode_id := episode_id; p_branch_merge := p_branch_merge p;
     p_transition := p_transition p |}.

(** A Patch RCP writes itself; the fields not given take their defaults. *)
Definition new_patch (kind : PatchKind) (author : option Role) (producer : Producer) (now : Z)
    (summary : string) : Patch :=
  {| p_schema_generation := 2; p_revision := 0; p_kind := kind; p_author := author;
     p_producer := producer; p_created_at := now; p_summary := summary; p_ops := [];
     p_run_truth_scope := []; p_repositories_read := []; p_processed_cursors := ∅;
     p_change_summary := []; p_source_operation_id := None; p_source_effect_id := None;
     p_source_effect_sha256 := None; p_human_action := None; p_agent_action := None;
     p_admission := AdmissionAccepted; p_admission_messages := [];
     p_experiment_control_node_id := None; p_experiment_decision_bundle := [];
     p_project_identity := None; p_project_home_transfer := None; p_authorized_by := None;
     p_profile := None; p_task_id := None; p_episode_id := None; p_branch_merge := None;
     p_transition := None |}.

Section attribution.
Context `{TextLib}.
Context (cfg : HistoryConfig).

(** [_canonical_authorizer]; a record that is not a valid snapshot has no
    counterpart here. *)
Definition _canonical_authorizer (a : AuthorizedHuman) : res AuthorizedHuman :=
  _ ← require (negb (is_blank (ah_display_name a))); Ok a.

(** The task a Patch of an agent claims, as the host knows it. *)
Definition resolve_authority (operation_id : string) :
    res (AgentTaskAuthority * (string → string → bool)) :=
  match hc_project_id cfg, hc_agent_authority_resolver cfg, hc_project_membership_check cfg with
  | Some project_id, Some resolver, Some membership =>
      resolved ← match resolver project_id operation_id with
                 | Raise (KeyError _) => Raise ValueError
                 | r => r
                 end;
      _ ← require (str_eqb (ata_operation_id resolved) operation_id &&
                   str_eqb (ata_project_id resolved) project_id);
      Ok (resolved, membership)
  | _, _, _ => Raise ValueError
  end.

(** The attribution an agent's Patch gets: none, or exactly this one. *)
Definition task_attribution (p : Patch) (apply_target : GraphTargetRef) : res Patch :=
  match p_source_operation_id p with
  | Some operation_id =>
      _ ← require (truthy operation_id && negb (is_blank operation_id));
      r ← resolve_authority operation_id;
      let '(resolved, membership) := r in
      _ ← require (bool_decide (ata_apply_target resolved = apply_target));
      dispatch ← require_apply membership resolved p;
      _ ← require (negb (bool_decide (ada_profile dispatch = Orchestrator) &&
                         negb (is_some (ata_episode_id resolved))));
      match ata_authorized_by resolved with
      | None => Raise ValueError
      | Some human =>
          authorizer ← _canonical_authorizer human;
          let canonical := (Some authorizer, Some (ada_profile dispatch), Some operation_id,
                            ata_episode_id resolved) in
          let supplied := (p_authorized_by p, p_profile p, p_task_id p, p_episode_id p) in
          _ ← require (bool_decide (supplied = (None, None, None, None)) ||
                       bool_decide (supplied = canonical));
          Ok (attributed p (Some authorizer) (Some (ada_profile dispatch)) (Some operation_id)
                (ata_episode_id resolved))
      end
  | None => Raise ValueError
  end.

Definition _stamp_attribution_for_admission (p : Patch) (authorized_by : option AuthorizedHuman)
    (apply_target : GraphTargetRef) : res Patch :=
  if negb (hc_require_attribution cfg) then Ok p
  else if decide (p_kind p = KIdentity) then
    _ ← require (negb (is_some authorized_by || is_some (p_authorized_by p) || is_some (p_profile p) ||
                       is_some (p_task_id p) || is_some (p_episode_id p)));
    Ok p
  else if decide (p_kind p = KApproval) then
    match authorized_by with
    | None => Raise ValueError
    | Some a => authorizer ← _canonical_authorizer a; Ok (attributed p (Some authorizer) None None None)
    end
  else
    _ ← require (negb (is_some authorized_by));
    task_attribution p apply_target.

(** [_require_no_change_merge_authority]: the live gate of a no-change receipt. *)
Definition merge_probe (dispatch : AgentDispatchAuthority) (r : BranchMergeReceipt) : Patch :=
  let p := new_patch KWork (Some RAgent) PAgent 0 "Validate no-change branch merge receipt authority." in
  let operation_id := bmp_merge_task_id (bmr_provenance r) in
  attributed
    {| p_schema_generation := 2; p_revision := 0; p_kind := KWork; p_author := Some RAgent;
       p_producer := PAgent; p_created_at := 0; p_summary := p_summary p; p_ops := [];
       p_run_truth_scope := ads_run_truth_scope (ada_scope dispatch); p_repositories_read := [];
       p_processed_cursors := ∅; p_change_summary := []; p_source_operation_id := Some operation_id;
       p_source_effect_id := None; p_source_effect_sha256 := None; p_human_action := None;
       p_agent_action := None; p_admission := AdmissionAccepted; p_admission_messages := [];
       p_experiment_control_node_id := None; p_experiment_decision_bundle := [];
       p_project_identity := None; p_project_home_transfer := None; p_authorized_by := None;
       p_profile := None; p_task_id := None; p_episode_id := None; p_branch_merge := None;
       p_transition := None |}
    (Some (bmr_authorized_by r)) (Some Orchestrator) (Some operation_id)
    (Some (bmp_episode_id (bmr_provenance r))).

Definition _require_no_change_merge_authority (r : BranchMergeReceipt) : res unit :=
  if negb (hc_require_attribution cfg) then Ok tt
  else
    a ← resolve_authority (bmp_merge_task_id (bmr_provenance r));
    let '(resolved, membership) := a in
    _ ← require (bool_decide (ata_apply_target resolved = main_target));
    match ata_dispatch_authority resolved with
    | None => Raise ValueError
    | Some dispatch =>
        bound ← require_apply membership resolved (merge_probe dispatch r);
        _ ← require (bool_decide (ada_profile bound = Orchestrator));
        _ ← require (bool_decide (ata_episode_id resolved = Some (bmp_episode_id (bmr_provenance r))));
        match ata_authorized_by resolved with
        | None => Raise ValueError
        | Some human =>
            authorizer ← _canonical_authorizer human;
            require (bool_decide (authorizer = bmr_authorized_by r))
        end
    end.
End attribution.

(** ** Properties *)

Section properties.
Context `{TextLib}.
Implicit Types (cfg : HistoryConfig) (p : Patch).

(** Attribution changes the four fields it owns. *)
Definition same_work (p p' : Patch) : Prop :=
  p' = attributed p (p_authorized_by p') (p_profile p') (p_task_id p') (p_episode_id p').

Lemma attributed_same p : attributed p (p_authorized_by p) (p_profile p) (p_task_id p) (p_episode_id p) = p.
Proof. by destruct p. Qed.

Lemma stamp_same_work cfg p a t p' :
  _stamp_attribution_for_admission cfg p a t = Ok p' → same_work p p'.
Proof.
  unfold _stamp_attribution_for_admission, same_work.
  destruct (negb _); [intros [= <-]; by rewrite attributed_same|].
  case_decide.
  { intros (u & _ & [= <-])%res_bind_ok. by rewrite attributed_same. }
  case_decide.
  { destruct a as [a|]; [|done]. by intros (b & _ & [= <-])%res_bind_ok. }
  intros (u & _ & Ht)%res_bind_ok. unfold task_attribution in Ht.
  destruct (p_source_operation_id p) as [op|]; [|done].
  apply res_bind_ok in Ht as (u1 & _ & Ht). apply res_bind_ok in Ht as ([resolved member] & _ & Ht).
  apply res_bind_ok in Ht as (u2 & _ & Ht). apply res_bind_ok in Ht as (dispatch & _ & Ht).
  apply res_bind_ok in Ht as (u3 & _ & Ht). destruct (ata_authorized_by resolved); [|done].
  apply res_bind_ok in Ht as (b & _ & Ht). by apply res_bind_ok in Ht as (u4 & _ & [= <-]).
Qed.

(** C29: every attribution is the host's.  With attribution required, the Patch an
    agent appends carries the human, the profile, the task and the episode of
    the live task the host resolves for its operation id, that task may apply to
    the graph it is appended to and its human is still a member; an approval
    carries the named human and no task; nothing else of the Patch changes. *)
Theorem attribution_is_canonical cfg p a t p' :
  hc_require_attribution cfg = true →
  _stamp_attribution_for_admission cfg p a t = Ok p' → p_kind p ≠ KIdentity →
  same_work p p' ∧
  (p_kind p = KApproval →
   p_authorized_by p' = a ∧ is_Some a ∧ p_profile p' = None ∧ p_task_id p' = None ∧ p_episode_id p' = None) ∧
  (p_kind p ≠ KApproval → a = None ∧ ∃ project operation resolver member auth dispatch,
   hc_project_id cfg = Some project ∧ p_source_operation_id p = Some operation ∧
   hc_agent_authority_resolver cfg = Some resolver ∧ hc_project_membership_check cfg = Some member ∧
   resolver project operation = Ok auth ∧
   ata_operation_id auth = operation ∧ ata_project_id auth = project ∧ ata_apply_target auth = t ∧
   require_apply member auth p = Ok dispatch ∧
   p_authorized_by p' = ata_authorized_by auth ∧ is_Some (ata_authorized_by auth) ∧
   p_profile p' = Some (ada_profile dispatch) ∧ p_task_id p' = Some operation ∧
   p_episode_id p' = ata_episode_id auth ∧
   (ada_profile dispatch = Orchestrator → is_Some (ata_episode_id auth))).
Proof.
  intros Hreq Hs Hk. split; [by eapply stamp_same_work|].
  unfold _stamp_attribution_for_admission in Hs. rewrite Hreq, decide_False in Hs by done. cbn [negb] in Hs.
  split; intros Hk'.
  - rewrite decide_True in Hs by done. destruct a as [a|]; [|done].
    apply res_bind_ok in Hs as (b & Hb & [= <-]). unfold _canonical_authorizer in Hb.
    apply res_bind_ok in Hb as (u & _ & [= <-]). by split_and!.
  - rewrite decide_False in Hs by done. apply res_bind_ok in Hs as (u0 & Ha%require_ok & Hs).
    split; [by destruct a|]. unfold task_attribution in Hs.
    destruct (p_source_operation_id p) as [op|]; [|done].
    apply res_bind_ok in Hs as (u1 & _ & Hs). apply res_bind_ok in Hs as ([auth member] & Hauth & Hs).
    unfold resolve_authority in Hauth.
    destruct (hc_project_id cfg) as [project|]; [|done].
    destruct (hc_agent_authority_resolver cfg) as [resolver|]; [|done].
    destruct (hc_project_membership_check cfg) as [membership|]; [|done].
    apply res_bind_ok in Hauth as (auth' & Hresolve & Hauth).
    apply res_bind_ok in Hauth as (u2 & [Hop%bool_decide_eq_true Hpr%bool_decide_eq_true]%require_ok%andb_true_iff & Hauth).
    injection Hauth as -> ->.
    apply res_bind_ok in Hs as (u3 & Ht%require_ok%bool_decide_eq_true & Hs).
    apply res_bind_ok in Hs as (dispatch & Hd & Hs).
    apply res_bind_ok in Hs as (u4 & He%require_ok & Hs).
    destruct (ata_authorized_by auth) as [human|] eqn:Hh; [|done].
    apply res_bind_ok in Hs as (b & Hb & Hs). unfold _canonical_authorizer in Hb.
    apply res_bind_ok in Hb as (u5 & _ & [= <-]).
    apply res_bind_ok in Hs as (u6 & _ & [= <-]).
    assert (resolver project op = Ok auth) as Hr by by destruct (resolver project op) as [|[]].
    exists project, op, resolver, member, auth, dispatch. split_and!; try done.
    intros Horch. rewrite bool_decide_eq_true_2 in He by done. by destruct (ata_episode_id auth).
Qed.
End properties.
