(* ===== verification/BranchLog.v ===== *)
(** Episode branches ([history/branches.py], reading): the replay of a branch on
    its immutable main prefix, the heads of both, and the merge receipts that
    bind a branch to main.

    A branch directory is read through the metadata its manager was opened
    with; the checks that a path is a regular file are not modelled. *)

From S2P Require Export Attribution.

Definition branch_target (branch_id : string) : GraphTargetRef :=
  {| tgt_kind := TargetBranch; tgt_branch_id := Some branch_id |}.

Definition canonical_branch_id (value : string) : res string :=
  _ ← require (_canonical_uuid4 value); Ok value.

Definition with_head (b : GraphBranchMetadata) (h : GraphHeadRef) : GraphBranchMetadata :=
  {| gbm_branch_id := gbm_branch_id b; gbm_episode_id := gbm_episode_id b;
     gbm_project_id := gbm_project_id b; gbm_base_head := gbm_base_head b; gbm_head := h;
     gbm_created_at := gbm_created_at b; gbm_authorized_by := gbm_authorized_by b |}.

#[export] Instance GraphBranchMetadata_eq_dec : EqDecision GraphBranchMetadata.
Proof. solve_decision. Defined.
#[export] Instance BranchMergeReceipt_eq_dec : EqDecision BranchMergeReceipt.
Proof. solve_decision. Defined.

(** [_read_metadata] of a manager opened with [identity]: only the head of
    [branch.json] may have changed since. *)
Definition _read_metadata (identity : GraphBranchMetadata) (b : BranchStore) : outcome GraphBranchMetadata :=
  match bs_metadata b with
  | None => Failed (Raised (KeyError (gbm_branch_id identity)))
  | Some m =>
      _ ← ensure (str_eqb (gbm_branch_id m) (gbm_branch_id identity)) (Raised ValueError);
      _ ← ensure (bool_decide (with_head m (gbm_head identity) = identity)) (Raised ValueError);
      Done m
  end.

(** ** Replay *)

(** [_path_failure]: a branch dates a failure by the file. *)
Fixpoint _decode_paths (l : list LogEntry) : list Patch * option ReplayFailure :=
  match l with
  | [] => ([], None)
  | e :: l =>
      match load_entry e with
      | inl p => let r := _decode_paths l in (p :: r.1, r.2)
      | inr f => ([], Some (read_failure (le_revision e) (le_mtime e) f))
      end
  end.

(** Files and Patches count on from [start] together. *)
Fixpoint _validate_revision_sequence (l : list LogEntry) (patches : list Patch) (start : Z) :
    option ReplayFailure :=
  match l, patches with
  | e :: l, p :: patches =>
      if negb (le_revision e =? start)%Z || negb (p_revision p =? start)%Z
      then Some {| rf_revision := start; rf_created_at := p_created_at p;
                   rf_code := "patch-revision-discontinuous" |}
      else _validate_revision_sequence l patches (start + 1)
  | _, _ => None
  end.

(** [a if a is not None else b]. *)
Definition first_failure (a b : option ReplayFailure) : option ReplayFailure :=
  match a with Some _ => a | None => b end.

(** [_initial_truth_scope] of a branch. *)
Definition _initial_truth_scope (m : Manifest) (b : ScopeBase) (meta : GraphBranchMetadata) :
    list string * option ReplayFailure :=
  let failure code := Some {| rf_revision := head_revision (gbm_base_head meta);
                              rf_created_at := gbm_created_at meta; rf_code := code |} in
  match b with
  | ScopeRecorded scope => (scope, None)
  | ScopeInvalid _ => (mf_truth_scope m, failure "scope-provenance-invalid")
  | ScopeMissing =>
      (mf_truth_scope m,
       if (head_revision (gbm_base_head meta) =? 0)%Z then None
       else failure "scope-provenance-missing")
  end.

(** [_head_for_patches]. *)
Definition _head_for_patches (r : MaterializationResult) (target : GraphTargetRef)
    (initial_transition_id : option string) : GraphHeadRef :=
  {| head_target := target; head_revision := gs_revision (mr_state r);
     head_transition_id :=
       foldl (λ id p, match p_admission p, p_transition p with
                      | AdmissionAccepted, Some tr => Some (tt_transition_id tr)
                      | _, _ => id
                      end) initial_transition_id (mr_patches r) |}.

(** [result.state] is degraded whatever its status was. *)
Definition halt_on (f : option ReplayFailure) (r : MaterializationResult) : MaterializationResult :=
  match f with Some f => with_result_state (halted f (mr_state r)) r | None => r end.

Section replay.
Context `{NodeAdapter, RecordAdapter, TextLib, CanonicalHash}.

(** The main files up to the base of a branch. *)
Definition base_log (meta : GraphBranchMetadata) (s : Store) : list LogEntry :=
  bfilter (λ e, (le_revision e <=? head_revision (gbm_base_head meta))%Z) (st_log s).

Definition _materialize_base (m : Manifest) (meta : GraphBranchMetadata) (s : Store) :
    MaterializationResult :=
  let '(scope, scope_failure) := _initial_truth_scope m (st_scope_base s) meta in
  let l := base_log meta s in
  let '(patches, base_failure) := _decode_paths l in
  let failure := first_failure scope_failure base_failure in
  let failure := first_failure failure
    (if is_some failure then None else _validate_revision_sequence l patches 1) in
  let failure := first_failure failure
    (accepted_transition_head_chain_failure patches main_target None) in
  let replayable := if is_some scope_failure then [] else patches in
  let base := {| mr_patches := replayable;
                 mr_materialization := materialize_patches (replay_manifest m) replayable scope |} in
  let failure := first_failure failure
    (if decide (gs_replay_status (mr_state base) = ReplayComplete ∧
                _head_for_patches base main_target None ≠ gbm_base_head meta)
     then Some {| rf_revision := head_revision (gbm_base_head meta);
                  rf_created_at := gbm_created_at meta; rf_code := "branch-base-mismatch" |}
     else None) in
  halt_on failure base.

(** [BranchHistoryManager._replay]. *)
Definition _replay_branch (m : Manifest) (meta : GraphBranchMetadata) (b : BranchStore) (s : Store) :
    MaterializationResult :=
  let base := _materialize_base m meta s in
  let '(scope, scope_failure) := _initial_truth_scope m (st_scope_base s) meta in
  let failure :=
    if decide (gs_replay_status (mr_state base) = ReplayDegraded)
    then gs_replay_failure (mr_state base) else None in
  let '(branch_patches, branch_failure) :=
    if is_some failure then ([], None) else _decode_paths (bs_log b) in
  let failure := first_failure failure branch_failure in
  let failure := first_failure failure
    (if is_some failure then None
     else _validate_revision_sequence (bs_log b) branch_patches
            (head_revision (gbm_base_head meta) + 1)) in
  let failure := first_failure failure
    (accepted_transition_head_chain_failure branch_patches (branch_target (gbm_branch_id meta))
       (head_transition_id (gbm_base_head meta))) in
  let replayable := if is_some scope_failure then [] else mr_patches base ++ branch_patches in
  halt_on failure
    {| mr_patches := replayable;
       mr_materialization := materialize_patches (replay_manifest m) replayable scope |}.

(** ** Heads *)

(** The transition a branch reached by a revision. *)
Definition branch_transition (meta : GraphBranchMetadata) (through : option Z) (patches : list Patch) :
    option string :=
  foldl (λ id p,
    if (p_revision p <=? head_revision (gbm_base_head meta))%Z then id
    else match p_admission p, p_transition p with
         | AdmissionAccepted, Some tr => Some (tt_transition_id tr)
         | _, _ => id
         end) (head_transition_id (gbm_base_head meta))
    (match through with
     | Some r => (fix upto l := match l with
                                | [] => []
                                | p :: l => if (p_revision p <=? head_revision (gbm_base_head meta))%Z
                                            then p :: upto l
                                            else if (r <? p_revision p)%Z then [] else p :: upto l
                                end) patches
     | None => patches
     end).

(** [BranchHistoryManager.head_ref]. *)
Definition branch_head_ref (meta : GraphBranchMetadata) (r : MaterializationResult) : GraphHeadRef :=
  {| head_target := branch_target (gbm_branch_id meta); head_revision := gs_revision (mr_state r);
     head_transition_id := branch_transition meta None (mr_patches r) |}.

Definition _head_at_revision (meta : GraphBranchMetadata) (r : MaterializationResult) (revision : Z) :
    outcome GraphHeadRef :=
  _ ← ensure ((head_revision (gbm_base_head meta) <=? revision)%Z &&
              (revision <=? gs_revision (mr_state r))%Z) (Raised ValueError);
  Done {| head_target := branch_target (gbm_branch_id meta); head_revision := revision;
          head_transition_id := branch_transition meta (Some revision) (mr_patches r) |}.

(** [_main_heads_by_revision]: the head each main revision reached. *)
Definition main_head_step (acc : option string * gmap Z GraphHeadRef) (p : Patch) :
    option string * gmap Z GraphHeadRef :=
  let id := match p_admission p, p_transition p with
            | AdmissionAccepted, Some tr => Some (tt_transition_id tr)
            | _, _ => acc.1
            end in
  (id, <[p_revision p := {| head_target := main_target; head_revision := p_revision p;
                            head_transition_id := id |}]> acc.2).

Definition _main_heads_by_revision (main : MaterializationResult) : gmap Z GraphHeadRef :=
  (foldl main_head_step
     (None, {[0%Z := {| head_target := main_target; head_revision := 0; head_transition_id := None |}]})
     (mr_patches main)).2.

(** ** Merge receipts *)

(** [_branch_merge_id]: the digest of the exact branch lineage. *)
Definition _branch_merge_id (meta : GraphBranchMetadata) : string :=
  _sha256 (DocBranchMerge (gbm_branch_id meta) (gbm_episode_id meta) (gbm_project_id meta)
             (gbm_base_head meta) (gbm_head meta)).

Definition _require_receipt_identity (meta : GraphBranchMetadata) (r : BranchMergeReceipt) : outcome unit :=
  ensure (str_eqb (bmp_branch_id (bmr_provenance r)) (gbm_branch_id meta) &&
          str_eqb (bmp_episode_id (bmr_provenance r)) (gbm_branch_id meta)) (Raised ValueError).

Definition _validate_summary_receipt (structural : MaterializationResult) (meta : GraphBranchMetadata)
    (r : BranchMergeReceipt) (main_heads : gmap Z GraphHeadRef) : outcome unit :=
  let provenance := bmr_provenance r in
  _ ← _require_receipt_identity meta r;
  _ ← ensure (bool_decide (bmp_branch_base_head provenance = gbm_base_head meta)) (Raised ValueError);
  _ ← ensure (str_eqb (bmp_merge_id provenance)
                (_branch_merge_id (with_head meta (bmp_branch_head provenance)))) (Raised ValueError);
  head ← _head_at_revision meta structural (head_revision (bmp_branch_head provenance));
  _ ← ensure (bool_decide (bmp_branch_head provenance = head)) (Raised ValueError);
  ensure (bool_decide (main_heads !! head_revision (bmr_result_main_head r) =
                       Some (bmr_result_main_head r))) (Raised ValueError).

(** The receipt an accepted merge Patch of main stands for. *)
Definition derived_receipt (p : Patch) (provenance : BranchMergeProvenance) : outcome BranchMergeReceipt :=
  match p_transition p, p_authorized_by p with
  | Some tr, Some human =>
      Done {| bmr_outcome := Committed; bmr_provenance := provenance;
              bmr_result_main_head :=
                {| head_target := main_target; head_revision := p_revision p;
                   head_transition_id := Some (tt_transition_id tr) |};
              bmr_authorized_by := human; bmr_created_at := p_created_at p |}
  | _, _ => Failed (Raised ValueError)
  end.

(** The receipts of main in written order; a merge id may occur once. *)
Fixpoint main_receipts (seen : gset string) (patches : list Patch) : outcome (list BranchMergeReceipt) :=
  match patches with
  | [] => Done []
  | p :: patches =>
      match p_admission p, p_branch_merge p with
      | AdmissionAccepted, Some provenance =>
          _ ← ensure (bool_decide (bmp_merge_id provenance ∉ seen)) (Raised ValueError);
          r ← derived_receipt p provenance;
          rest ← main_receipts ({[bmp_merge_id provenance]} ∪ seen) patches;
          Done (r :: rest)
      | _, _ => main_receipts seen patches
      end
  end.

Definition earlier_receipt (a b : BranchMergeReceipt) : Prop :=
  (bmr_created_at a ≤ bmr_created_at b)%Z.
#[export] Instance earlier_receipt_dec : RelDecision earlier_receipt.
Proof. unfold RelDecision, earlier_receipt. apply _. Defined.

(** [_main_merge_receipts(main).get(branch_id, ())]. *)
Definition _main_merge_receipts (main : MaterializationResult) (branch_id : string) :
    outcome (list BranchMergeReceipt) :=
  all ← main_receipts ∅ (mr_patches main);
  Done (merge_sort earlier_receipt
    (bfilter (λ r, str_eqb (bmp_branch_id (bmr_provenance r)) branch_id) all)).

Definition _validate_merge_receipt_source (meta : GraphBranchMetadata) (r : BranchMergeReceipt)
    (branch main : MaterializationResult) : outcome unit :=
  _ ← require_writable (mr_state branch);
  _ ← require_writable (mr_state main);
  _ ← head_ref main;
  _validate_summary_receipt branch (with_head meta (branch_head_ref meta branch)) r
    (_main_heads_by_revision main).

Definition derived_for (main : MaterializationResult) (meta : GraphBranchMetadata) (merge_id : string) :
    outcome (list BranchMergeReceipt) :=
  all ← _main_merge_receipts main (gbm_branch_id meta);
  Done (bfilter (λ r, str_eqb (bmp_merge_id (bmr_provenance r)) merge_id) all).

(** [_validate_merge_receipt]; [live] is the authority a new no-change receipt
    still has to show. *)
Definition _validate_merge_receipt (meta : GraphBranchMetadata) (r : BranchMergeReceipt)
    (branch main : MaterializationResult) (live : option HistoryConfig) : outcome unit :=
  _ ← _validate_merge_receipt_source meta r branch main;
  derived ← derived_for main meta (bmp_merge_id (bmr_provenance r));
  match bmr_outcome r with
  | Committed => ensure (bool_decide (derived = [r])) (Raised ValueError)
  | NoChange =>
      if negb (is_nil derived) then Failed (Raised ValueError)
      else match live with
           | Some cfg => kernel (_require_no_change_merge_authority cfg r)
           | None => Done tt
           end
  end.

(** The receipt of a file, by the file's name. *)
Definition _read_validated_merge_receipt (meta : GraphBranchMetadata) (merge_id : string)
    (b : BranchStore) (branch main : MaterializationResult) : outcome BranchMergeReceipt :=
  match bs_receipts b !! merge_id with
  | None => Failed (Raised (KeyError merge_id))
  | Some r =>
      _ ← ensure (str_eqb merge_id (bmp_merge_id (bmr_provenance r))) (Raised ValueError);
      _ ← _validate_merge_receipt meta r branch main None;
      Done r
  end.

Definition _same_no_change_source (winner contender : BranchMergeReceipt) : bool :=
  let left := bmr_provenance winner in
  let right := bmr_provenance contender in
  bool_decide (bmr_outcome winner = NoChange) && bool_decide (bmr_outcome contender = NoChange) &&
  str_eqb (bmp_merge_id left) (bmp_merge_id right) &&
  str_eqb (bmp_branch_id left) (bmp_branch_id right) &&
  str_eqb (bmp_episode_id left) (bmp_episode_id right) &&
  bool_decide (bmp_branch_base_head left = bmp_branch_base_head right) &&
  bool_decide (bmp_branch_head left = bmp_branch_head right).

(** [_require_parent_identity]; a reader of old branches accepts the home at
    the branch's base. *)
Definition _require_parent_identity (cfg : HistoryConfig) (meta : GraphBranchMetadata)
    (historical : option MaterializationResult) : outcome unit :=
  _ ← ensure (match hc_project_id cfg with
              | Some id => str_eqb (gbm_project_id meta) id | None => true end) (Raised ValueError);
  space ← (match historical with
           | Some main => project_home_space_id_at_revision (head_revision (gbm_base_head meta)) main
           | None => Done (hc_expected_space_id cfg)
           end : outcome (option string));
  ensure (match space with
          | Some space => str_eqb (ah_space_id (gbm_authorized_by meta)) space
          | None => true end) (Raised ValueError).

(** [existing_receipt_for_main_append]: the no-change winner of a merge. *)
Definition existing_receipt_for_main_append (cfg : HistoryConfig) (m : Manifest) (s : Store)
    (main : MaterializationResult) (provenance : BranchMergeProvenance) :
    outcome (option BranchMergeReceipt) :=
  _ ← kernel (canonical_branch_id (bmp_branch_id provenance));
  match st_branches s !! bmp_branch_id provenance with
  | None => Done None
  | Some b =>
      if negb (is_some (bs_receipts b !! bmp_merge_id provenance)) then Done None
      else match bs_metadata b with
      | None => Failed (Raised (KeyError (bmp_branch_id provenance)))
      | Some meta =>
          _ ← ensure (str_eqb (gbm_branch_id meta) (bmp_branch_id provenance) &&
                      str_eqb (gbm_episode_id meta) (bmp_episode_id provenance)) (Raised ValueError);
          _ ← _require_parent_identity cfg meta (Some main);
          let branch := _replay_branch m meta b s in
          r ← _read_validated_merge_receipt meta (bmp_merge_id provenance) b branch main;
          _ ← ensure (bool_decide (bmr_outcome r = NoChange)) (Raised ValueError);
          Done (Some r)
      end
  end.
End replay.
