(* ===== verification/History.v ===== *)
(** The writers of the canonical log ([history/manager.py]): appending one
    Patch or a batch, previewing, claiming and moving the project, changing the
    settings, and the repair after a publication that failed.

    Every operation runs under the append lock, so it is a function from the
    store it finds to the store it leaves and its outcome; what it wrote before
    an exception stays written.  What the operation gets from outside is an
    [Env]: the clock, a fresh UUID, and how publishing to the state host ends. *)

From stdpp Require Import pretty.
From S2P Require Export BranchLog.

(** ** Computations on the store *)

Definition HM (A : Type) : Type := Store → Store * outcome A.

#[export] Instance hm_ret : MRet HM := λ A a s, (s, Done a).
#[export] Instance hm_bind : MBind HM := λ A B f m s,
  match m s with
  | (s', Done a) => f a s'
  | (s', Failed e) => (s', Failed e)
  end.

Definition lift {A} (o : outcome A) : HM A := λ s, (s, o).
Definition get_store : HM Store := λ s, (s, Done s).
Definition modify (f : Store → Store) : HM unit := λ s, (f s, Done tt).
Definition guard_hm (c : bool) (e : HistoryError) : HM unit := lift (ensure c e).

(** [BatchPublishFailed.commit_status]; any other exception leaves it unknown. *)
Inductive CommitStatus := CommitPresent | CommitAbsent | CommitUnknown.
#[export] Instance CommitStatus_eq_dec : EqDecision CommitStatus.
Proof. solve_decision. Defined.

Inductive Publication := PublishOk | PublishRaises (remote : bool) (status : CommitStatus).

Record Env := {
  env_now : Z; env_uuid : string; env_publication : Publication; env_repair_publishes : bool }.

(** [p.model_copy(update={"revision": revision})]. *)
Definition at_revision (revision : Z) (p : Patch) : Patch :=
  {| p_schema_generation := p_schema_generation p; p_revision := revision;
     p_kind := p_kind p; p_author := p_author p; p_producer := p_producer p;
     p_created_at := p_created_at p; p_summary := p_summary p; p_ops := p_ops p;
     p_run_truth_scope := p_run_truth_scope p; p_repositories_read := p_repositories_read p;
     p_processed_cursors := p_processed_cursors p; p_change_summary := p_change_summary p;
     p_source_operation_id := p_source_operation_id p;
     p_source_effect_id := p_source_effect_id p;
     p_source_effect_sha256 := p_source_effect_sha256 p;
     p_human_action := p_human_action p; p_agent_action := p_agent_action p;
     p_admission := p_admission p; p_admission_messages := p_admission_messages p;
     p_experiment_control_node_id := p_experiment_control_node_id p;
     p_experiment_decision_bundle := p_experiment_decision_bundle p;
     p_project_identity := p_project_identity p;
     p_project_home_transfer := p_project_home_transfer p;
     p_authorized_by := p_authorized_by p; p_profile := p_profile p; p_task_id := p_task_id p;
     p_episode_id := p_episode_id p; p_branch_merge := p_branch_merge p;
     p_transition := p_transition p |}.

(** [p.model_copy(update={"admission": .., "admission_messages": ..})]. *)
Definition admitted (p : Patch) (report : ValidationReport) : Patch :=
  redated p (p_created_at p) (if rejected report then AdmissionRejected else AdmissionAccepted) report.

(** The repository the first truth-scope operation of a Patch registers. *)
Fixpoint scope_descriptor (ops : list GraphOperation) : option RepositoryDescriptor :=
  match ops with
  | SetProjectTruthScope _ (Some d) :: _ => Some d
  | _ :: ops => scope_descriptor ops
  | [] => None
  end.

(** The repository of the last truth-scope operation of the whole log, whatever
    the admission of its Patch. *)
Definition last_scope_descriptor (patches : list Patch) : option RepositoryDescriptor :=
  foldl (λ d op, match op with SetProjectTruthScope _ d' => d' | _ => d end) None
    (patches ≫= p_ops).

(** ** Preparing a transition *)

(** The initiating Patches, prepared, or the one that was refused. *)
Inductive Preparation :=
  | Refused (p : Patch) (report : ValidationReport)
  | Staged (sources : list Patch) (report : ValidationReport).

Section writers.
Context `{NodeAdapter, RecordAdapter, TextLib, CanonicalHash}.
Context (cfg : HistoryConfig).

(** Stamp a Patch, and copy what its Proposals relate to into it. *)
Definition prepare_source (revision : Z) (validation_state : GraphState)
    (authorized_by : option AuthorizedHuman) (target : GraphTargetRef) (raw : Patch) : res Patch :=
  stamped ← _stamp_attribution_for_admission cfg raw authorized_by target;
  Ok (prepare_patch_bookkeeping validation_state (at_revision revision stamped)).

(** A change of the truth scope must leave a valid manifest. *)
Definition scope_update_ok (m d : Manifest) (before candidate : GraphState) (p : Patch) : bool :=
  bool_decide (gs_project_truth_scope candidate = gs_project_truth_scope before) ||
  is_ok (validate_project_scope_update m d (gs_project_truth_scope candidate)
           (scope_descriptor (p_ops p))).

(** The loop over the initiating Patches, each on the graph the earlier ones
    stage, at the revision of the graph in force. *)
Fixpoint prepare_sources (m d : Manifest) (authorized_by : option AuthorizedHuman)
    (target : GraphTargetRef) (revision current : Z) (staged : GraphState)
    (report : ValidationReport) (raw : list Patch) : outcome Preparation :=
  match raw with
  | [] => Done (Staged [] report)
  | raw_patch :: raw =>
      let validation_state := set_revision current staged in
      p ← kernel (prepare_source revision validation_state authorized_by target raw_patch);
      let own := validate_patch validation_state p
                   (manifest_settings m ModeAdmission (gs_project_truth_scope validation_state)) in
      let report := report ++ own in
      if rejected own then Done (Refused p report)
      else match apply_valid_patch validation_state p with
      | Raise _ =>
          Done (Refused p (report ++ reject "malformed-operation" (Some revision) [] []))
      | Ok candidate =>
          if negb (scope_update_ok m d validation_state candidate p)
          then Done (Refused p (report ++ reject "invalid-project-scope" (Some revision) [] []))
          else
            rest ← prepare_sources m d authorized_by target revision current
                     (set_revision current candidate) report raw;
            match rest with
            | Refused q report => Done (Refused q report)
            | Staged sources report =>
                Done (Staged (finalize_patch_bookkeeping p candidate :: sources) report)
            end
      end
  end.

(** The head a transition of main continues from. *)
Definition main_pre_head (current : MaterializationResult) : GraphHeadRef :=
  {| head_target := main_target; head_revision := gs_revision (mr_state current);
     head_transition_id := last_transition (mr_patches current) |}.

(** [_prepare_transition_locked].  Of a transition conflict only the code of its
    rejection is kept. *)
Definition _prepare_transition_locked (m d : Manifest) (current : MaterializationResult)
    (raw : list Patch) (revision : Z) (authorized_by : option AuthorizedHuman)
    (pre_head : option GraphHeadRef) (apply_target : GraphTargetRef) :
    outcome (Patch * ValidationReport * option GraphState) :=
  _ ← ensure (match pre_head with
              | Some h => bool_decide (head_target h = apply_target) | None => true end)
        (Raised ValueError);
  prepared ← prepare_sources m d authorized_by apply_target revision (gs_revision (mr_state current))
               (mr_state current) [] raw;
  match prepared with
  | Refused p report => Done (p, report, None)
  | Staged sources report =>
      let head := default (main_pre_head current) pre_head in
      match prepare_validated DEFAULT_MAX_RULE_FIRINGS (mr_state current) sources (Some head) with
      | Ok r => Done (redated (prt_patch r) (p_created_at (prt_patch r)) (p_admission (prt_patch r)) report,
                      report, Some (ptp_graph (prt_projection r)))
      | Raise TransitionConflict =>
          match sources with
          | first :: _ =>
              Done (first, report ++ reject "transition-conflict" (Some revision) [] [], None)
          | [] => Failed (Raised (KeyError "0"))
          end
      | Raise e => Failed (Raised e)
      end
  end.

(** [_validate_candidate_locked]: an identity Patch has no transition. *)
Definition _validate_candidate_locked (m d : Manifest) (current : MaterializationResult) (p : Patch)
    (revision : Z) (authorized_by : option AuthorizedHuman) :
    outcome (Patch * ValidationReport * option GraphState) :=
  if bool_decide (p_kind p = KIdentity) && is_nil (p_ops p) then
    stamped ← kernel (_stamp_attribution_for_admission cfg p authorized_by main_target);
    let identity := at_revision revision stamped in
    let report := validate_patch (mr_state current) identity
                    (manifest_settings m ModeAdmission (gs_project_truth_scope (mr_state current))) in
    if rejected report then Done (identity, report, None)
    else candidate ← kernel (apply_valid_patch (mr_state current) identity);
         Done (identity, report, Some candidate)
  else _prepare_transition_locked m d current [p] revision authorized_by None main_target.

(** ** Files of the store *)

(** [_reload_manifest]. *)
Definition _reload_manifest : HM Manifest := λ s, (s, kernel (load_manifest (st_document s))).

(** [ensure_layout]; the derived files are not kept. *)
Definition ensure_layout (m : Manifest) : HM unit :=
  modify (λ s, match st_scope_base s with
               | ScopeMissing => set_scope_base (ScopeRecorded (mf_truth_scope m)) s
               | _ => s
               end).

(** [materialize]; a complete replay lays out and writes the derived files when
    asked to. *)
Definition materialize (m : Manifest) : HM MaterializationResult := λ s, (s, Done (_replay m s)).
Definition materialize_outputs (m : Manifest) : HM MaterializationResult :=
  result ← materialize m;
  _ ← (if decide (gs_replay_status (mr_state result) = ReplayComplete) then ensure_layout m else mret tt);
  mret result.

(** [write_project_scope] on the store: the manifest it loads again. *)
Definition write_scope (m : Manifest) (scope : list string) (d : option RepositoryDescriptor) :
    HM Manifest :=
  s ← get_store;
  document ← lift (kernel (write_project_scope m (st_document s) scope d));
  _ ← modify (set_document document);
  _reload_manifest.

Definition _synchronize_manifest_scope (m : Manifest) (result : MaterializationResult) (p : Patch) :
    HM bool :=
  if decide (gs_project_truth_scope (mr_state result) = mf_truth_scope m) then mret false
  else _ ← write_scope m (gs_project_truth_scope (mr_state result)) (scope_descriptor (p_ops p));
       mret true.

Definition _synchronize_manifest_from_history (m : Manifest) (result : MaterializationResult) :
    HM Manifest :=
  if decide (gs_project_truth_scope (mr_state result) = mf_truth_scope m) then mret m
  else write_scope m (gs_project_truth_scope (mr_state result))
         (last_scope_descriptor (mr_patches result)).

(** [_repair_materializations_locked]: the manifest afterwards. *)
Definition _repair_materializations_locked (env : Env) (m : Manifest) : HM Manifest :=
  s ← get_store;
  if negb (st_repair_required s) then mret m
  else
    result ← materialize_outputs m;
    m' ← _synchronize_manifest_from_history m result;
    _ ← guard_hm (env_repair_publishes env) PublishFailed;
    _ ← modify (set_repair false);
    mret m'.

Definition _remember_accepted_revision (result : MaterializationResult) : HM unit :=
  modify (set_accepted (Some (accepted_revision result))).

(** Write [patches/{revision:06d}.json]; a seventh digit takes the file out of
    the pattern that lists the log. *)
Definition write_patch (now revision : Z) (p : Patch) : HM unit :=
  modify (λ s,
    if (revision <? 1000000)%Z
    then set_log_entries (st_log s ++ [{| le_revision := revision; le_mtime := now;
                                          le_document := inl p |}]) s
    else s).

(** [_reconcile_remote_publish_failure]: whether the commit is confirmed.  The
    file leaves the log whether it is deleted or put in quarantine. *)
Definition _reconcile_remote_publish_failure (status : CommitStatus) (revision : Z)
    (scope_changed : bool) (manifest_before : Manifest) : HM bool :=
  match status with
  | CommitPresent => _ ← modify (set_repair true); mret true
  | _ =>
      _ ← modify (λ s, set_log_entries
                         (bfilter (λ e, negb (le_revision e =? revision)%Z) (st_log s)) s);
      _ ← (if decide (status = CommitUnknown) then modify (set_repair true) else mret tt);
      _ ← (if scope_changed then modify (set_document manifest_before) else mret tt);
      m ← _reload_manifest;
      _ ← materialize_outputs m;
      mret false
  end.

(** [publish_committed_patch] and what follows when it raises. *)
Definition publish_commit (env : Env) (revision : Z) (scope_changed : bool)
    (manifest_before : Manifest) : HM unit :=
  match env_publication env with
  | PublishOk => mret tt
  | PublishRaises false _ => lift (Failed PublishFailed)
  | PublishRaises true status =>
      landed ← _reconcile_remote_publish_failure status revision scope_changed manifest_before;
      guard_hm landed PublishFailed
  end.

(** ** Appending *)

(** What every writer starts with: the manifest, the replay, and the right to
    write. *)
Definition open_log (identity_claim : option ProjectIdentity) :
    HM (Manifest * MaterializationResult) :=
  m ← _reload_manifest;
  current ← materialize m;
  _ ← lift (require_writable (mr_state current));
  _ ← lift (_require_writable_home_locked cfg current identity_claim);
  mret (m, current).

(** [ensure_layout], and the repair a failed publication left behind. *)
Definition settle (env : Env) (m : Manifest) (current : MaterializationResult) :
    HM (Manifest * MaterializationResult) :=
  _ ← ensure_layout m;
  s ← get_store;
  if st_repair_required s
  then m' ← _repair_materializations_locked env m; current' ← materialize m'; mret (m', current')
  else mret (m, current).

(** The accepted merges of main with this id. *)
Definition matching_merges (current : MaterializationResult) (merge_id : string) : list Patch :=
  bfilter (λ p, bool_decide (p_admission p = AdmissionAccepted) &&
                match p_branch_merge p with
                | Some provenance => str_eqb (bmp_merge_id provenance) merge_id
                | None => false
                end) (mr_patches current).

(** A branch head is merged once. *)
Definition require_unmerged (m : Manifest) (s : Store) (current : MaterializationResult) (p : Patch) :
    outcome unit :=
  match p_branch_merge p with
  | None => Done tt
  | Some provenance =>
      match matching_merges current (bmp_merge_id provenance) with
      | _ :: _ :: _ => Failed (Raised ValueError)
      | [winner] => Failed (BranchMergeAlreadyCommitted winner)
      | [] =>
          receipt ← existing_receipt_for_main_append cfg m s current provenance;
          match receipt with
          | Some r => Failed (BranchMergeAlreadyResolved r)
          | None => Done tt
          end
      end
  end.

(** [reports[revision]]. *)
Definition report_at (r : MaterializationResult) (revision : Z) : outcome ValidationReport :=
  match mr_reports r !! revision with
  | Some report => Done report
  | None => Failed (Raised (KeyError (pretty revision)))
  end.

(** Write the Patch of a revision, replay, and publish: the new log. *)
Definition commit_patch (env : Env) (m : Manifest) (revision : Z) (p : Patch) (report_matters : bool) :
    HM MaterializationResult :=
  before ← get_store;
  _ ← write_patch (env_now env) revision p;
  result ← materialize_outputs m;
  scope_changed ←
    (if report_matters then
       report ← lift (report_at result revision);
       if rejected report then mret false else _synchronize_manifest_scope m result p
     else _synchronize_manifest_scope m result p);
  _ ← publish_commit env revision scope_changed (st_document before);
  _ ← _remember_accepted_revision result;
  mret result.

Record AppendOptions := {
  ao_raise_on_reject : bool; ao_discard_on_reject : bool; ao_expected_revision : option Z;
  ao_allow_identity_claim : bool; ao_authorized_by : option AuthorizedHuman }.

(** The graph a writer saw must be the one in force. *)
Definition revision_is (expected : option Z) (current : MaterializationResult) : bool :=
  match expected with Some r => (gs_revision (mr_state current) =? r)%Z | None => true end.

(** [_append_locked]. *)
Definition _append_locked (env : Env) (p : Patch) (o : AppendOptions) :
    HM (Patch * MaterializationResult) :=
  opened ← open_log (if ao_allow_identity_claim o then p_project_identity p else None);
  settled ← settle env opened.1 opened.2;
  let '(m, current) := settled in
  s ← get_store;
  _ ← lift (require_unmerged m s current p);
  _ ← guard_hm (revision_is (ao_expected_revision o) current) RevisionConflict;
  let revision := _next_revision s in
  candidate ← lift (_validate_candidate_locked m (st_document s) current p revision (ao_authorized_by o));
  let '(prepared, report, _) := candidate in
  _ ← guard_hm (negb (ao_discard_on_reject o && rejected report)) (PatchRejected report);
  let written := admitted prepared report in
  result ← commit_patch env m revision written true;
  recorded ← lift (report_at result revision);
  _ ← guard_hm (negb (ao_raise_on_reject o && rejected recorded)) (PatchRejected recorded);
  mret (written, result).

(** [append_batch_from_state]. *)
Definition append_batch_from_state (env : Env) (build_patches : GraphState → list Patch)
    (expected_revision : option Z) (authorized_by : option AuthorizedHuman) :
    HM (list Patch * MaterializationResult) :=
  opened ← open_log None;
  settled ← settle env opened.1 opened.2;
  let '(m, current) := settled in
  s ← get_store;
  _ ← guard_hm (revision_is expected_revision current) (Raised ValueError);
  match build_patches (mr_state current) with
  | [] => mret ([], current)
  | patches =>
      let revision := _next_revision s in
      candidate ← lift (_prepare_transition_locked m (st_document s) current patches revision
                          authorized_by None main_target);
      let '(prepared, report, _) := candidate in
      _ ← guard_hm (negb (rejected report)) (PatchRejected report);
      let written := admitted prepared report in
      result ← commit_patch env m revision written false;
      mret ([written], result)
  end.

(** [append_batch]. *)
Definition append_batch (env : Env) (patches : list Patch) (expected_revision : option Z)
    (authorized_by : option AuthorizedHuman) : HM (list Patch * MaterializationResult) :=
  if is_nil patches
  then s ← get_store;
       m ← _reload_manifest;
       mret ([], _replay m s)
  else append_batch_from_state env (λ _, patches) expected_revision authorized_by.

(** ** Reading before a commit *)

(** [validate_candidate]. *)
Definition validate_candidate (env : Env) (p : Patch) (authorized_by : option AuthorizedHuman) :
    HM (Patch * ValidationReport * GraphState) :=
  opened ← open_log None;
  settled ← settle env opened.1 opened.2;
  let '(m, current) := settled in
  s ← get_store;
  candidate ← lift (_validate_candidate_locked m (st_document s) current p (_next_revision s) authorized_by);
  mret (candidate.1.1, candidate.1.2, mr_state current).

(** [preview_batch_from_state]. *)
Definition preview_batch_from_state (build_patches : GraphState → list Patch) (expected_revision : Z)
    (authorized_by : option AuthorizedHuman) : HM PreparedTransition :=
  opened ← open_log None;
  let '(m, current) := opened in
  s ← get_store;
  _ ← guard_hm (revision_is (Some expected_revision) current) RevisionConflict;
  match build_patches (mr_state current) with
  | [] => lift (Failed (Raised ValueError))
  | patches =>
      candidate ← lift (_prepare_transition_locked m (st_document s) current patches (_next_revision s)
                          authorized_by None main_target);
      match candidate with
      | (p, report, Some graph) =>
          _ ← guard_hm (negb (rejected report)) (PatchRejected report);
          match p_transition p with
          | Some tr =>
              projection ← lift (kernel (project_transition_projection graph tr false));
              mret {| prt_patch := p; prt_projection := projection |}
          | None => lift (Failed (Raised ValueError))
          end
      | (_, report, None) => lift (Failed (PatchRejected report))
      end
  end.

(** ** Identity and home *)

Definition identity_ok (i : ProjectIdentity) : bool :=
  _canonical_uuid4 (pi_project_id i) && _canonical_uuid4 (pi_home_space_id i).

Definition identity_append : AppendOptions :=
  {| ao_raise_on_reject := true; ao_discard_on_reject := true; ao_expected_revision := None;
     ao_allow_identity_claim := false; ao_authorized_by := None |}.
Definition claim_append : AppendOptions :=
  {| ao_raise_on_reject := true; ao_discard_on_reject := true; ao_expected_revision := None;
     ao_allow_identity_claim := true; ao_authorized_by := None |}.

Definition with_identity (p : Patch) (i : option ProjectIdentity) (t : option ProjectHomeTransfer) :
    Patch :=
  {| p_schema_generation := p_schema_generation p; p_revision := p_revision p;
     p_kind := p_kind p; p_author := p_author p; p_producer := p_producer p;
     p_created_at := p_created_at p; p_summary := p_summary p; p_ops := p_ops p;
     p_run_truth_scope := p_run_truth_scope p; p_repositories_read := p_repositories_read p;
     p_processed_cursors := p_processed_cursors p; p_change_summary := p_change_summary p;
     p_source_operation_id := p_source_operation_id p;
     p_source_effect_id := p_source_effect_id p;
     p_source_effect_sha256 := p_source_effect_sha256 p;
     p_human_action := p_human_action p; p_agent_action := p_agent_action p;
     p_admission := p_admission p; p_admission_messages := p_admission_messages p;
     p_experiment_control_node_id := p_experiment_control_node_id p;
     p_experiment_decision_bundle := p_experiment_decision_bundle p;
     p_project_identity := i; p_project_home_transfer := t;
     p_authorized_by := p_authorized_by p; p_profile := p_profile p; p_task_id := p_task_id p;
     p_episode_id := p_episode_id p; p_branch_merge := p_branch_merge p;
     p_transition := p_transition p |}.

(** The Patch that claims an untagged project. *)
Definition claim_patch (now : Z) (i : ProjectIdentity) : Patch :=
  with_identity
    (new_patch KIdentity None PSystem now
       (if str_eqb (pi_action i) "created" then "Project created." else "Project identity adopted."))
    (Some i) None.

(** [claim_project_identity]; [reserved] is the id a prepared project holds. *)
Definition claim_project_identity (env : Env) (action : string) (reserved_id : option string) :
    HM ProjectIdentity :=
  _ ← guard_hm (mem action ["created"; "adopted"]) (Raised ValueError);
  match hc_expected_space_id cfg with
  | None => lift (Failed (Raised ValueError))
  | Some space =>
      let identity id := {| pi_project_id := id; pi_home_space_id := space; pi_action := action |} in
      let reserved := option_map identity reserved_id in
      _ ← guard_hm (match reserved with Some i => identity_ok i | None => true end)
            (Raised ValidationError);
      m ← _reload_manifest;
      current ← materialize m;
      _ ← lift (require_writable (mr_state current));
      existing ← lift (_project_identity_from_replay current None);
      match existing with
      | Some i =>
          _ ← lift (_require_expected_home cfg i);
          _ ← guard_hm (match reserved with
                        | Some r => bool_decide (i = r) &&
                                    _is_exact_prepared_identity_prefix current r
                        | None => true
                        end) ProjectIdentityConflict;
          mret i
      | None =>
          _ ← guard_hm (negb (is_some reserved && negb (is_nil (mr_patches current))))
                ProjectIdentityConflict;
          let i := default (identity (env_uuid env)) reserved in
          _ ← guard_hm (identity_ok i) (Raised ValidationError);
          appended ← _append_locked env (claim_patch (env_now env) i) claim_append;
          match p_project_identity appended.1 with
          | Some i => mret i
          | None => lift (Failed (Raised ValueError))
          end
      end
  end.

Definition transfer_patch (now : Z) (t : ProjectHomeTransfer) : Patch :=
  with_identity (new_patch KIdentity None PSystem now "Project moved to its admitted team space.")
    None (Some t).

(** The last accepted Patch that carries this very transfer. *)
Definition transfer_recorded (t : ProjectHomeTransfer) (patches : list Patch) : bool :=
  existsb (λ p, bool_decide (p_admission p = AdmissionAccepted) &&
                bool_decide (p_project_home_transfer p = Some t)) patches.

(** [transfer_project_home]. *)
Definition transfer_project_home (env : Env) (t : ProjectHomeTransfer) : HM ProjectHomeTransfer :=
  _ ← guard_hm (authority_matches_both_space_scoped_boundaries t) (Raised ValidationError);
  _ ← guard_hm (bool_decide (hc_expected_space_id cfg = Some (pht_previous_home_space_id t)))
        ProjectIdentityConflict;
  m ← _reload_manifest;
  current ← materialize m;
  _ ← lift (require_writable (mr_state current));
  identity ← lift (_project_identity_from_replay current None);
  match identity with
  | None => lift (Failed ProjectIdentityConflict)
  | Some i =>
      _ ← guard_hm (str_eqb (pi_project_id i) (pht_project_id t)) ProjectIdentityConflict;
      if str_eqb (pi_home_space_id i) (pht_new_home_space_id t) && transfer_recorded t (mr_patches current)
      then mret t
      else
        _ ← guard_hm (str_eqb (pi_home_space_id i) (pht_previous_home_space_id t)) ProjectIdentityConflict;
        _ ← lift (_require_expected_home cfg i);
        appended ← _append_locked env (transfer_patch (env_now env) t) identity_append;
        match p_project_home_transfer appended.1 with
        | Some t => mret t
        | None => lift (Failed (Raised ValueError))
        end
  end.

(** ** Settings *)

(** [update_agent_settings] and [update_machine_provider_paths]: rewrite the
    manifest, then publish it. *)
Definition rewrite_manifest (env : Env) (rewrite : Manifest → Manifest → res Manifest) : HM Manifest :=
  opened ← open_log None;
  m ← _repair_materializations_locked env opened.1;
  s ← get_store;
  document ← lift (kernel (rewrite m (st_document s)));
  _ ← modify (set_document document);
  m' ← _reload_manifest;
  _ ← guard_hm (env_repair_publishes env) PublishFailed;
  mret m'.

Definition update_agent_settings (env : Env) (default_run_truth_scope : list string)
    (profiles : AgentProfiles) (provider_path_machines : list string)
    (skill_defaults : option (list string * list string)) (ceiling : option Z) : HM Manifest :=
  rewrite_manifest env (λ m d,
    write_agent_settings m d default_run_truth_scope profiles provider_path_machines skill_defaults ceiling).

Definition update_machine_provider_paths (env : Env) (provider_path_machines : list string) : HM Manifest :=
  rewrite_manifest env (λ _ d, write_machine_provider_paths d provider_path_machines).

(** ** Reading the history *)

(** [transition_events_after]. *)
Definition transition_events_after (r : MaterializationResult) (revision : Z) :
    list (GraphHeadRef * TransitionEvent) :=
  mr_patches r ≫= λ p,
    if (p_revision p <=? revision)%Z || negb (bool_decide (p_admission p = AdmissionAccepted)) then []
    else match p_transition p with
    | None => []
    | Some tr =>
        pair {| head_target := head_target (tt_pre_head tr); head_revision := p_revision p;
                head_transition_id := Some (tt_transition_id tr) |} <$> tt_lifecycle_events tr
    end.

(** [transition_trace_at_revision]. *)
Definition transition_trace_at_revision (s : Store) (revision : Z) : outcome (option TransitionTrace) :=
  match find (λ e, (le_revision e =? revision)%Z) (st_log s) with
  | None => Done None
  | Some e =>
      match load_entry e with
      | inl p => Done (if decide (p_admission p = AdmissionAccepted) then p_transition p else None)
      | inr _ => Failed (Raised ValueError)
      end
  end.

(** [accepted_patch_boundaries]: what the observer of the replay collects. *)
Definition accepted_patch_boundaries (r : MaterializationResult) : list (GraphState * Patch * GraphState) :=
  mat_observed (mr_materialization r).
End writers.
