(* ===== verification/Branches.v ===== *)
(** The writers of branches ([history/branches.py]): creating and opening a
    branch, appending to it, its merge receipts, and the snapshot that reads
    many branches from one replay of main.

    An operation is a computation on the store of the project, as in [History];
    a branch manager is the metadata it was opened with.  The derived files of a
    branch are not kept: what [_outputs_coherent] finds in them is an argument. *)

From stdpp Require Import pretty.
From S2P Require Export History.

(** ** Branch directories *)

Definition empty_branch : BranchStore := {| bs_metadata := None; bs_log := []; bs_receipts := ∅ |}.
Definition set_bs_metadata (meta : GraphBranchMetadata) (b : BranchStore) : BranchStore :=
  {| bs_metadata := Some meta; bs_log := bs_log b; bs_receipts := bs_receipts b |}.
Definition set_bs_log (f : list LogEntry → list LogEntry) (b : BranchStore) : BranchStore :=
  {| bs_metadata := bs_metadata b; bs_log := f (bs_log b); bs_receipts := bs_receipts b |}.
Definition set_bs_receipts (f : gmap string BranchMergeReceipt → gmap string BranchMergeReceipt)
    (b : BranchStore) : BranchStore :=
  {| bs_metadata := bs_metadata b; bs_log := bs_log b; bs_receipts := f (bs_receipts b) |}.

Definition branch_dir (s : Store) (branch_id : string) : BranchStore :=
  default empty_branch (st_branches s !! branch_id).
Definition on_branch (branch_id : string) (f : BranchStore → BranchStore) : HM unit :=
  modify (set_branches (partial_alter (λ b, Some (f (default empty_branch b))) branch_id)).

(** What a writer of branches gets from outside: an [Env], and the mirror that a
    refresh from the state host leaves. *)
Record BranchEnv := { be_env : Env; be_refresh : Store → Store }.

Definition require_repair (branch_id : string) : HM unit := modify (set_branch_repairs ({[branch_id]} ∪.)).
Definition complete_repair (branch_id : string) : HM unit := modify (set_branch_repairs (.∖ {[branch_id]})).

(** [_next_revision]. *)
Definition branch_next_revision (meta : GraphBranchMetadata) (b : BranchStore) : Z :=
  match last (bs_log b) with
  | Some e => le_revision e + 1
  | None => head_revision (gbm_base_head meta) + 1
  end.

(** [_require_branch_patch]: what only main may hold. *)
Definition changes_truth_scope (op : GraphOperation) : bool :=
  match op with SetProjectTruthScope _ _ => true | _ => false end.
Definition _require_branch_patch (p : Patch) : outcome unit :=
  _ ← ensure (negb (bool_decide (p_kind p = KIdentity) || bool_decide (p_kind p = KApproval) ||
                    is_some (p_project_identity p))) (Raised ValueError);
  _ ← ensure (negb (is_some (p_branch_merge p))) (Raised ValueError);
  _ ← ensure (bool_decide (p_processed_cursors p = ∅)) (Raised ValueError);
  ensure (negb (existsb changes_truth_scope (p_ops p))) (Raised ValueError).
Fixpoint require_branch_patches (patches : list Patch) : outcome unit :=
  match patches with
  | [] => Done tt
  | p :: patches => _ ← _require_branch_patch p; require_branch_patches patches
  end.

Section branches.
Context `{NodeAdapter, RecordAdapter, TextLib, CanonicalHash}.
Context (cfg : HistoryConfig).

(** [_require_prepared_branch_patch]. *)
Definition _require_prepared_branch_patch (meta : GraphBranchMetadata) (p : Patch) : outcome unit :=
  _ ← ensure (match p_transition p with
              | Some tr => bool_decide (head_target (tt_pre_head tr) = branch_target (gbm_branch_id meta))
              | None => true end) (Raised ValueError);
  ensure (negb (hc_require_attribution cfg) || bool_decide (p_episode_id p = Some (gbm_episode_id meta)))
    (Raised ValueError).

(** ** Reading a branch *)

(** [self._metadata = self._read_metadata()]. *)
Definition read_metadata (identity : GraphBranchMetadata) : HM GraphBranchMetadata :=
  s ← get_store; lift (_read_metadata identity (branch_dir s (gbm_branch_id identity))).

(** [materialize]. *)
Definition branch_materialize (m : Manifest) (meta : GraphBranchMetadata) : HM MaterializationResult :=
  λ s, (s, Done (_replay_branch m meta (branch_dir s (gbm_branch_id meta)) s)).

(** [current_materialization]. *)
Definition branch_current (identity : GraphBranchMetadata) : HM MaterializationResult :=
  m ← _reload_manifest; meta ← read_metadata identity; branch_materialize m meta.

(** [branch_metadata]. *)
Definition branch_metadata (m : Manifest) (identity : GraphBranchMetadata) : HM GraphBranchMetadata :=
  meta ← read_metadata identity;
  result ← branch_materialize m meta;
  mret (with_head meta (branch_head_ref meta result)).

(** [base_state]. *)
Definition branch_base_state (identity : GraphBranchMetadata) : HM GraphState :=
  m ← _reload_manifest;
  meta ← read_metadata identity;
  s ← get_store;
  lift (require_writable (mr_state (_materialize_base m meta s))).

(** [current_accepted_revision]. *)
Definition branch_accepted_revision (meta : GraphBranchMetadata) (r : MaterializationResult) : Z :=
  foldr Z.max (head_revision (gbm_base_head meta))
    (map_to_list (mr_reports r) ≫= λ kv,
       if (head_revision (gbm_base_head meta) <? kv.1)%Z && negb (rejected kv.2) then [kv.1] else []).

(** [transition_events_after]. *)
Definition branch_events_after (meta : GraphBranchMetadata) (r : MaterializationResult) (revision : Z) :
    list (GraphHeadRef * TransitionEvent) :=
  mr_patches r ≫= λ p,
    if (p_revision p <=? Z.max revision (head_revision (gbm_base_head meta)))%Z ||
       negb (bool_decide (p_admission p = AdmissionAccepted)) then []
    else match p_transition p with
    | None => []
    | Some tr =>
        pair {| head_target := branch_target (gbm_branch_id meta); head_revision := p_revision p;
                head_transition_id := Some (tt_transition_id tr) |} <$> tt_lifecycle_events tr
    end.

(** [transition_trace_at_revision]. *)
Definition branch_trace_at_revision (meta : GraphBranchMetadata) (b : BranchStore) (revision : Z) :
    outcome (option TransitionTrace) :=
  if (revision <=? head_revision (gbm_base_head meta))%Z then Done None
  else match find (λ e, (le_revision e =? revision)%Z) (bs_log b) with
  | None => Done None
  | Some e =>
      match load_entry e with
      | inl p => Done (if decide (p_admission p = AdmissionAccepted) then p_transition p else None)
      | inr _ => Failed (Raised ValueError)
      end
  end.

(** [accepted_patch_boundaries]. *)
Definition branch_patch_boundaries (meta : GraphBranchMetadata) (r : MaterializationResult) :
    list (GraphState * Patch * GraphState) :=
  bfilter (λ o, (head_revision (gbm_base_head meta) <? p_revision o.1.2)%Z)
    (mat_observed (mr_materialization r)).

(** ** Writing a branch *)

(** [_write_committed_materializations]: of the derived files only the head in
    [branch.json] is kept. *)
Definition _write_committed_materializations (meta : GraphBranchMetadata) (r : MaterializationResult) :
    HM unit :=
  on_branch (gbm_branch_id meta) (set_bs_metadata (with_head meta (branch_head_ref meta r))).

(** [_repair_materializations_locked]. *)
Definition branch_repair_locked (env : Env) (meta : GraphBranchMetadata) (current : MaterializationResult) :
    HM unit :=
  s ← get_store;
  if bool_decide (gbm_branch_id meta ∈ st_branch_repairs s) then
    _ ← lift (require_writable (mr_state current));
    _ ← _write_committed_materializations meta current;
    if env_repair_publishes env then complete_repair (gbm_branch_id meta)
    else _ ← require_repair (gbm_branch_id meta); lift (Failed PublishFailed)
  else mret tt.

(** Write [patches/{revision:06d}.json] of a branch. *)
Definition branch_write_patch (branch_id : string) (now revision : Z) (p : Patch) : HM unit :=
  on_branch branch_id (set_bs_log (λ l,
    if (revision <? 1000000)%Z
    then l ++ [{| le_revision := revision; le_mtime := now; le_document := inl p |}] else l)).

(** [_reconcile_patch_publish_failure]: whether the commit is confirmed. *)
Definition _reconcile_patch_publish_failure (m : Manifest) (meta : GraphBranchMetadata)
    (status : CommitStatus) (revision : Z) : HM bool :=
  match status with
  | CommitPresent => _ ← require_repair (gbm_branch_id meta); mret true
  | _ =>
      _ ← on_branch (gbm_branch_id meta) (set_bs_log (bfilter (λ e, negb (le_revision e =? revision)%Z)));
      _ ← (if decide (status = CommitUnknown) then require_repair (gbm_branch_id meta) else mret tt);
      repaired ← branch_materialize m meta;
      _ ← _write_committed_materializations meta repaired;
      mret false
  end.

(** [publish_committed_patch] and what follows when it raises. *)
Definition branch_publish (env : Env) (m : Manifest) (meta : GraphBranchMetadata) (revision : Z) : HM unit :=
  match env_publication env with
  | PublishOk => mret tt
  | PublishRaises false _ => lift (Failed PublishFailed)
  | PublishRaises true status =>
      landed ← _reconcile_patch_publish_failure m meta status revision;
      guard_hm landed PublishFailed
  end.

(** Write the Patch of a revision, replay the branch, and publish. *)
Definition branch_commit_patch (env : Env) (m : Manifest) (meta : GraphBranchMetadata) (revision : Z)
    (p : Patch) : HM MaterializationResult :=
  _ ← branch_write_patch (gbm_branch_id meta) (env_now env) revision p;
  result ← branch_materialize m meta;
  _ ← _write_committed_materializations meta result;
  _ ← branch_publish env m meta revision;
  mret result.

(** What every writer of a branch starts with. *)
Definition open_branch_log (env : Env) (identity : GraphBranchMetadata) :
    HM (Manifest * GraphBranchMetadata * MaterializationResult) :=
  m ← _reload_manifest;
  meta ← read_metadata identity;
  current ← branch_materialize m meta;
  _ ← lift (require_writable (mr_state current));
  _ ← branch_repair_locked env meta current;
  mret (m, meta, current).

(** The transition of some Patches on the head of a branch. *)
Definition prepare_on_branch (m d : Manifest) (meta : GraphBranchMetadata) (current : MaterializationResult)
    (patches : list Patch) (revision : Z) (authorized_by : option AuthorizedHuman) :
    outcome (Patch * ValidationReport * option GraphState) :=
  _prepare_transition_locked cfg m d current patches revision authorized_by
    (Some (branch_head_ref meta current)) (branch_target (gbm_branch_id meta)).

(** [_append_locked]. *)
Definition branch_append_locked (env : Env) (identity : GraphBranchMetadata) (p : Patch)
    (raise_on_reject discard_on_reject : bool) (expected_revision : option Z)
    (authorized_by : option AuthorizedHuman) : HM (Patch * MaterializationResult) :=
  opened ← open_branch_log env identity;
  let '(m, meta, current) := opened in
  _ ← guard_hm (revision_is expected_revision current) RevisionConflict;
  _ ← lift (_require_branch_patch p);
  s ← get_store;
  let revision := branch_next_revision meta (branch_dir s (gbm_branch_id meta)) in
  candidate ← lift (prepare_on_branch m (st_document s) meta current [p] revision authorized_by);
  let '(prepared, report, _) := candidate in
  _ ← lift (_require_prepared_branch_patch meta prepared);
  _ ← guard_hm (negb (discard_on_reject && rejected report)) (PatchRejected report);
  let written := admitted prepared report in
  result ← branch_commit_patch env m meta revision written;
  _ ← guard_hm (negb (raise_on_reject && rejected report)) (PatchRejected report);
  mret (written, result).

(** [append_batch_from_state]. *)
Definition branch_append_batch (env : Env) (identity : GraphBranchMetadata)
    (build_patches : GraphState → list Patch) (expected_revision : option Z)
    (authorized_by : option AuthorizedHuman) : HM (list Patch * MaterializationResult) :=
  opened ← open_branch_log env identity;
  let '(m, meta, current) := opened in
  _ ← guard_hm (revision_is expected_revision current) RevisionConflict;
  match build_patches (mr_state current) with
  | [] => mret ([], current)
  | patches =>
      _ ← lift (require_branch_patches patches);
      s ← get_store;
      let revision := branch_next_revision meta (branch_dir s (gbm_branch_id meta)) in
      candidate ← lift (prepare_on_branch m (st_document s) meta current patches revision authorized_by);
      let '(prepared, report, _) := candidate in
      _ ← lift (_require_prepared_branch_patch meta prepared);
      _ ← guard_hm (negb (rejected report)) (PatchRejected report);
      let written := admitted prepared report in
      result ← branch_commit_patch env m meta revision written;
      mret ([written], result)
  end.

(** [validate_candidate], under the manifest the manager holds. *)
Definition branch_validate_candidate (m : Manifest) (identity : GraphBranchMetadata) (p : Patch)
    (authorized_by : option AuthorizedHuman) : HM (Patch * ValidationReport * GraphState) :=
  meta ← read_metadata identity;
  current ← branch_materialize m meta;
  _ ← lift (require_writable (mr_state current));
  _ ← lift (_require_branch_patch p);
  s ← get_store;
  let revision := branch_next_revision meta (branch_dir s (gbm_branch_id meta)) in
  candidate ← lift (prepare_on_branch m (st_document s) meta current [p] revision authorized_by);
  let '(prepared, report, _) := candidate in
  _ ← (if rejected report then mret tt else lift (_require_prepared_branch_patch meta prepared));
  mret (prepared, report, mr_state current).

(** [preview_batch_from_state]. *)
Definition branch_preview_batch (m : Manifest) (identity : GraphBranchMetadata)
    (build_patches : GraphState → list Patch) (expected_revision : Z)
    (authorized_by : option AuthorizedHuman) : HM PreparedTransition :=
  meta ← read_metadata identity;
  current ← branch_materialize m meta;
  _ ← lift (require_writable (mr_state current));
  _ ← guard_hm (revision_is (Some expected_revision) current) RevisionConflict;
  match build_patches (mr_state current) with
  | [] => lift (Failed (Raised ValueError))
  | patches =>
      _ ← lift (require_branch_patches patches);
      s ← get_store;
      let revision := branch_next_revision meta (branch_dir s (gbm_branch_id meta)) in
      candidate ← lift (prepare_on_branch m (st_document s) meta current patches revision authorized_by);
      match candidate with
      | (p, report, Some graph) =>
          _ ← guard_hm (negb (rejected report)) (PatchRejected report);
          _ ← lift (_require_prepared_branch_patch meta p);
          match p_transition p with
          | Some tr =>
              projection ← lift (kernel (project_transition_projection graph tr false));
              mret {| prt_patch := p; prt_projection := projection |}
          | None => lift (Failed (Raised ValueError))
          end
      | (_, report, None) => lift (Failed (PatchRejected report))
      end
  end.

(** ** Opening and creating *)

(** [HistoryManager.current_materialization], after a repair that is due, on the
    mirror as it is: the refresh of a stale one, whose failure is ignored, is left out. *)
Definition main_current (env : Env) : HM (Manifest * MaterializationResult) :=
  s ← get_store;
  _ ← (if st_repair_required s then
         opened ← open_log cfg None;
         _ ← ensure_layout opened.1;
         _ ← _repair_materializations_locked env opened.1;
         mret tt
       else mret tt);
  m ← _reload_manifest;
  result ← materialize m;
  _ ← _remember_accepted_revision result;
  mret (m, result).

(** [initialize]. *)
Definition branch_initialize (env : Env) (identity : GraphBranchMetadata) (outputs_coherent : bool) :
    HM (Manifest * MaterializationResult) :=
  m ← _reload_manifest;
  main ← materialize m;
  _ ← lift (require_writable (mr_state main));
  _ ← lift (_require_writable_home_locked cfg main None);
  meta ← read_metadata identity;
  result ← branch_materialize m meta;
  _ ← lift (require_writable (mr_state result));
  let expected := with_head meta (branch_head_ref meta result) in
  if bool_decide (expected = meta) && outputs_coherent then mret (m, result)
  else
    _ ← (if bool_decide (expected = meta) then mret tt
         else on_branch (gbm_branch_id meta) (set_bs_metadata expected));
    _ ← guard_hm (env_repair_publishes env) PublishFailed;
    mret (m, result).

(** [open_branch]: the manifest in force and the metadata it was opened with. *)
Definition open_branch (env : Env) (branch_id : string) (expected_episode_id expected_project_id : option string)
    (outputs_coherent : bool) : HM (Manifest * GraphBranchMetadata) :=
  _ ← lift (kernel (canonical_branch_id branch_id));
  s ← get_store;
  match bs_metadata (branch_dir s branch_id) with
  | None => lift (Failed (Raised (KeyError branch_id)))
  | Some meta =>
      _ ← guard_hm (str_eqb (gbm_branch_id meta) branch_id) (Raised ValueError);
      _ ← guard_hm (match expected_episode_id with
                    | Some id => str_eqb (gbm_episode_id meta) id | None => true end) (Raised ValueError);
      _ ← guard_hm (match expected_project_id with
                    | Some id => str_eqb (gbm_project_id meta) id | None => true end) (Raised ValueError);
      _ ← guard_hm (match hc_project_id cfg with
                    | Some id => str_eqb (gbm_project_id meta) id | None => true end) (Raised ValueError);
      main ← main_current env;
      _ ← lift (_require_parent_identity cfg meta (Some main.2));
      opened ← branch_initialize env meta outputs_coherent;
      mret (opened.1, meta)
  end.

(** [create_auto_research_branch]: the metadata of the branch it returns. *)
Definition create_auto_research_branch (env : BranchEnv) (meta : GraphBranchMetadata) :
    HM GraphBranchMetadata :=
  let branch_id := gbm_branch_id meta in
  _ ← lift (kernel (canonical_branch_id branch_id));
  _ ← lift (_require_parent_identity cfg meta None);
  _ ← guard_hm (bool_decide (gbm_head meta =
                  {| head_target := branch_target branch_id; head_revision := head_revision (gbm_base_head meta);
                     head_transition_id := head_transition_id (gbm_base_head meta) |})) (Raised ValueError);
  m ← _reload_manifest;
  s ← get_store;
  match st_branches s !! branch_id with
  | Some b =>
      existing ← lift (_read_metadata meta b);
      _ ← guard_hm (bool_decide (with_head existing (gbm_head meta) = meta)) (Raised ValueError);
      mret existing
  | None =>
      current ← materialize m;
      _ ← lift (require_writable (mr_state current));
      _ ← lift (_require_writable_home_locked cfg current None);
      expected_base ← lift (head_ref current);
      _ ← guard_hm (bool_decide (gbm_base_head meta = expected_base)) (Raised ValueError);
      _ ← on_branch branch_id (set_bs_metadata meta);
      match env_publication (be_env env) with
      | PublishOk => mret meta
      | PublishRaises true CommitPresent =>
          _ ← modify (be_refresh env);
          s ← get_store;
          _ ← guard_hm (bool_decide (bs_metadata (branch_dir s branch_id) = Some meta)) (Raised ValueError);
          mret meta
      | PublishRaises _ _ => _ ← modify (set_branches (delete branch_id)); lift (Failed PublishFailed)
      end
  end.

(** ** Merge receipts *)

(** [_merge_paths]: the receipts of a branch by the name of their file. *)
Definition _merge_paths (b : BranchStore) : list string :=
  bfilter is_sha256 (py_sorted (elements (dom (bs_receipts b)))).

Fixpoint collect_receipts (read : string → outcome BranchMergeReceipt) (names : list string) :
    outcome (list BranchMergeReceipt) :=
  match names with
  | [] => Done []
  | name :: names => r ← read name; rest ← collect_receipts read names; Done (r :: rest)
  end.

(** [merge_receipts]. *)
Definition branch_merge_receipts (meta : GraphBranchMetadata) (b : BranchStore) :
    outcome (list BranchMergeReceipt) :=
  collect_receipts (λ name,
    match bs_receipts b !! name with
    | None => Failed (Raised (KeyError name))
    | Some r =>
        _ ← _require_receipt_identity meta r;
        _ ← ensure (str_eqb name (bmp_merge_id (bmr_provenance r))) (Raised ValueError);
        Done r
    end) (_merge_paths b).

(** [validated_merge_receipts]. *)
Definition validated_merge_receipts (m main_m : Manifest) (meta : GraphBranchMetadata) (s : Store) :
    outcome (list BranchMergeReceipt) :=
  let b := branch_dir s (gbm_branch_id meta) in
  let branch := _replay_branch m meta b s in
  let main := _replay main_m s in
  _ ← require_writable (mr_state branch);
  _ ← require_writable (mr_state main);
  collect_receipts (λ name, _read_validated_merge_receipt meta name b branch main) (_merge_paths b).

(** The receipt that is kept, or the lineage that contradicts it. *)
Definition settle_winner (winner receipt : BranchMergeReceipt) : outcome BranchMergeReceipt :=
  if bool_decide (winner = receipt) || _same_no_change_source winner receipt
  then Done winner else Failed (Raised ValueError).

(** Publishing [merges/{merge_id}.json]. *)
Definition publish_receipt (env : BranchEnv) (m main_m : Manifest) (identity : GraphBranchMetadata)
    (receipt : BranchMergeReceipt) : HM BranchMergeReceipt :=
  let branch_id := gbm_branch_id identity in
  let merge_id := bmp_merge_id (bmr_provenance receipt) in
  match env_publication (be_env env) with
  | PublishOk => mret receipt
  | PublishRaises false _ => lift (Failed PublishFailed)
  | PublishRaises true CommitPresent =>
      _ ← modify (be_refresh env);
      meta ← read_metadata identity;
      current ← branch_materialize m meta;
      main ← materialize main_m;
      s ← get_store;
      winner ← lift (_read_validated_merge_receipt meta merge_id (branch_dir s branch_id) current main);
      lift (settle_winner winner receipt)
  | PublishRaises true _ =>
      _ ← on_branch branch_id (set_bs_receipts (delete merge_id)); lift (Failed PublishFailed)
  end.

(** [write_merge_receipt], under the manifests that the managers of the branch
    and of main hold. *)
Definition write_merge_receipt (env : BranchEnv) (m main_m : Manifest) (identity : GraphBranchMetadata)
    (receipt : BranchMergeReceipt) : HM BranchMergeReceipt :=
  _ ← lift (_require_receipt_identity identity receipt);
  meta ← read_metadata identity;
  let provenance := bmr_provenance receipt in
  _ ← guard_hm (bool_decide (bmp_branch_base_head provenance = gbm_base_head meta)) (Raised ValueError);
  current ← branch_materialize m meta;
  _ ← branch_repair_locked (be_env env) meta current;
  head ← lift (_head_at_revision meta current (head_revision (bmp_branch_head provenance)));
  _ ← guard_hm (bool_decide (bmp_branch_head provenance = head)) (Raised ValueError);
  main ← materialize main_m;
  _ ← lift (require_writable (mr_state main));
  _ ← lift (_validate_merge_receipt_source meta receipt current main);
  derived ← lift (derived_for main meta (bmp_merge_id provenance));
  receipt ← (match derived with
             | [] => mret receipt
             | r :: _ => _ ← lift (_validate_merge_receipt meta r current main None); mret r
             end);
  s ← get_store;
  let b := branch_dir s (gbm_branch_id meta) in
  let merge_id := bmp_merge_id (bmr_provenance receipt) in
  if is_some (bs_receipts b !! merge_id) then
    winner ← lift (_read_validated_merge_receipt meta merge_id b current main);
    lift (settle_winner winner receipt)
  else
    _ ← lift (_validate_merge_receipt meta receipt current main (Some cfg));
    _ ← on_branch (gbm_branch_id meta) (set_bs_receipts (insert merge_id receipt));
    publish_receipt env m main_m identity receipt.

(** [HistoryManager.write_merge_receipt]. *)
Definition manager_write_merge_receipt (env : BranchEnv) (receipt : BranchMergeReceipt)
    (outputs_coherent : bool) : HM BranchMergeReceipt :=
  opened ← open_branch (be_env env) (bmp_branch_id (bmr_provenance receipt)) None None outputs_coherent;
  write_merge_receipt env opened.1 opened.1 opened.2 receipt.

(** [reconcile_merge_receipt]. *)
Definition reconcile_merge_receipt (env : BranchEnv) (m main_m : Manifest) (identity : GraphBranchMetadata)
    (merge_id : string) : HM (option BranchMergeReceipt) :=
  _ ← guard_hm (is_sha256 merge_id) (Raised ValueError);
  s ← get_store;
  if is_some (bs_receipts (branch_dir s (gbm_branch_id identity)) !! merge_id) then
    meta ← read_metadata identity;
    branch ← branch_materialize m meta;
    main ← materialize main_m;
    r ← lift (_read_validated_merge_receipt meta merge_id (branch_dir s (gbm_branch_id identity)) branch main);
    mret (Some r)
  else
    main ← main_current (be_env env);
    match matching_merges main.2 merge_id with
    | [] => mret None
    | [p] =>
        match p_branch_merge p with
        | Some provenance =>
            receipt ← lift (derived_receipt p provenance);
            r ← write_merge_receipt env m main.1 identity receipt;
            mret (Some r)
        | None => mret None
        end
    | _ => lift (Failed (Raised ValueError))
    end.

(** ** Snapshots of many branches *)

(** [BranchReadSnapshot]. *)
Record BranchReadSnapshot := { brs_metadata : GraphBranchMetadata; brs_receipts : list BranchMergeReceipt }.

(** What [remember_main_state] collects. *)
Definition accepted_main_states (main : MaterializationResult) : gmap Z GraphState :=
  foldl (λ d o, <[p_revision o.1.2 := o.2]> d) ∅ (mat_observed (mr_materialization main)).

(** [_main_states_by_revision]: the graph after every file of main. *)
Fixpoint main_states_loop (accepted : gmap Z GraphState) (current : GraphState) (states : gmap Z GraphState)
    (patches : list Patch) : outcome (gmap Z GraphState) :=
  match patches with
  | [] => Done states
  | p :: patches =>
      current ← (match p_admission p with
                 | AdmissionAccepted =>
                     match accepted !! p_revision p with
                     | Some st => Done st | None => Failed (Raised (KeyError (pretty (p_revision p))))
                     end
                 | AdmissionRejected =>
                     Done (add_messages (p_admission_messages p) (set_revision (p_revision p) current))
                 end : outcome GraphState);
      main_states_loop accepted current (<[p_revision p := current]> states) patches
  end.
Definition _main_states_by_revision (m : Manifest) (b : ScopeBase) (main : MaterializationResult) :
    outcome (gmap Z GraphState) :=
  scope ← (match b with
           | ScopeRecorded scope => Done scope
           | ScopeInvalid _ => Failed (Raised ValueError)
           | ScopeMissing => Done (mf_truth_scope m)
           end : outcome (list string));
  let initial := mat_state (materialize_patches (replay_manifest m) [] scope) in
  main_states_loop (accepted_main_states main) initial {[0%Z := initial]} (mr_patches main).

(** [_replay_branch_tail]: the Patches of a branch on a graph that main had. *)
Definition tail_step (m : Manifest) (c : Materialization) (p : Patch) : Materialization * bool :=
  let st := mat_state c in
  match p_admission p with
  | AdmissionRejected =>
      (with_report c p (p_admission_messages p)
         (add_messages (p_admission_messages p) (set_revision (p_revision p) st)), true)
  | AdmissionAccepted =>
      let report := validate_patch st p (replay_settings (replay_manifest m) st) ++ p_admission_messages p in
      if rejected report
      then (with_report c p report (degraded p (first_rejection report) st), false)
      else match apply_valid_patch st p with
      | Raise _ =>
          (with_report c p (report ++ reject "malformed-operation" (Some (p_revision p)) [] [])
             (degraded p "malformed-operation" st), false)
      | Ok st => (with_report c p report (add_messages (p_admission_messages p) st), true)
      end
  end.
Fixpoint tail_replay (m : Manifest) (c : Materialization) (patches : list Patch) : Materialization :=
  match patches with
  | [] => c
  | p :: patches => let r := tail_step m c p in if r.2 then tail_replay m r.1 patches else r.1
  end.
Definition _replay_branch_tail (m : Manifest) (base_state : GraphState) (patches : list Patch) :
    MaterializationResult :=
  {| mr_patches := patches;
     mr_materialization :=
       tail_replay m {| mat_state := base_state; mat_reports := ∅; mat_descriptors := []; mat_cursors := ∅;
                        mat_observed := [] |} patches |}.

(** [receipts_by_id[merge_id] = receipt], in the order of the dict. *)
Fixpoint put_receipt (r : BranchMergeReceipt) (l : list BranchMergeReceipt) : list BranchMergeReceipt :=
  match l with
  | [] => [r]
  | x :: l =>
      if str_eqb (bmp_merge_id (bmr_provenance x)) (bmp_merge_id (bmr_provenance r))
      then r :: l else x :: put_receipt r l
  end.
Definition receipt_by_id (merge_id : string) (l : list BranchMergeReceipt) : option BranchMergeReceipt :=
  find (λ r, str_eqb (bmp_merge_id (bmr_provenance r)) merge_id) l.

(** The two loops over the receipts: those on disk, then those of main. *)
Fixpoint persisted_receipts (branch : MaterializationResult) (meta : GraphBranchMetadata)
    (main_heads : gmap Z GraphHeadRef) (by_id receipts : list BranchMergeReceipt) :
    outcome (list BranchMergeReceipt) :=
  match receipts with
  | [] => Done by_id
  | r :: receipts =>
      _ ← _validate_summary_receipt branch meta r main_heads;
      persisted_receipts branch meta main_heads (put_receipt r by_id) receipts
  end.
Fixpoint accepted_receipts (branch : MaterializationResult) (meta : GraphBranchMetadata)
    (main_heads : gmap Z GraphHeadRef) (by_id receipts : list BranchMergeReceipt) :
    outcome (list BranchMergeReceipt) :=
  match receipts with
  | [] => Done by_id
  | r :: receipts =>
      _ ← _validate_summary_receipt branch meta r main_heads;
      _ ← ensure (match receipt_by_id (bmp_merge_id (bmr_provenance r)) by_id with
                  | Some persisted => bool_decide (persisted = r) | None => true end) (Raised ValueError);
      accepted_receipts branch meta main_heads (put_receipt r by_id) receipts
  end.

(** [_read_branch_snapshot]. *)
Definition _read_branch_snapshot (m : Manifest) (s : Store) (branch_id : string)
    (expected_episode_id expected_project_id : string) (main : MaterializationResult)
    (main_heads : gmap Z GraphHeadRef) (main_states : gmap Z GraphState)
    (main_receipts : list BranchMergeReceipt) : outcome (option BranchReadSnapshot) :=
  let b := branch_dir s branch_id in
  match bs_metadata b with
  | None => Done None
  | Some meta =>
      _ ← ensure (str_eqb (gbm_branch_id meta) branch_id) (Raised ValueError);
      _ ← ensure (str_eqb (gbm_episode_id meta) expected_episode_id) (Raised ValueError);
      _ ← ensure (str_eqb (gbm_project_id meta) expected_project_id) (Raised ValueError);
      _ ← _require_parent_identity cfg meta (Some main);
      let base := gbm_base_head meta in
      _ ← ensure (bool_decide (main_heads !! head_revision base = Some base)) (Raised ValueError);
      match main_states !! head_revision base with
      | None => Failed (Raised ValueError)
      | Some base_state =>
          let '(patches, failure) := _decode_paths (bs_log b) in
          let failure := first_failure failure
            (if is_some failure then None
             else _validate_revision_sequence (bs_log b) patches (head_revision base + 1)) in
          let failure := first_failure failure
            (accepted_transition_head_chain_failure patches (branch_target branch_id) (head_transition_id base)) in
          match failure with
          | Some f =>
              let revision := Z.max (head_revision base) (default 0%Z (p_revision <$> last patches)) in
              Failed (ReplayHalted (halted f (set_revision revision (initial_state []))))
          | None =>
              let replayed := _replay_branch_tail m base_state patches in
              _ ← require_writable (mr_state replayed);
              let exact := with_head meta (branch_head_ref meta replayed) in
              on_disk ← branch_merge_receipts meta b;
              by_id ← persisted_receipts replayed exact main_heads [] on_disk;
              by_id ← accepted_receipts replayed exact main_heads by_id main_receipts;
              let derived := bmp_merge_id ∘ bmr_provenance <$> main_receipts in
              _ ← ensure (negb (existsb (λ r, bool_decide (bmr_outcome r = Committed) &&
                                             negb (mem (bmp_merge_id (bmr_provenance r)) derived)) by_id))
                    (Raised ValueError);
              Done (Some {| brs_metadata := exact; brs_receipts := merge_sort earlier_receipt by_id |})
          end
      end
  end.

(** The branches asked for, each once, in the order they were asked. *)
Fixpoint expected_branches (expected : list (string * (string * string))) (identities : list (string * string * string)) :
    outcome (list (string * (string * string))) :=
  match identities with
  | [] => Done expected
  | (branch_id, episode_id, project_id) :: identities =>
      _ ← kernel (canonical_branch_id branch_id);
      match find (λ e, str_eqb e.1 branch_id) expected with
      | Some previous =>
          _ ← ensure (bool_decide (previous.2 = (episode_id, project_id))) (Raised ValueError);
          expected_branches expected identities
      | None => expected_branches (expected ++ [(branch_id, (episode_id, project_id))]) identities
      end
  end.

Fixpoint snapshots_loop (read : string → string → string → outcome (option BranchReadSnapshot))
    (expected : list (string * (string * string))) : outcome (list (string * option BranchReadSnapshot)) :=
  match expected with
  | [] => Done []
  | (branch_id, (episode_id, project_id)) :: expected =>
      snapshot ← read branch_id episode_id project_id;
      rest ← snapshots_loop read expected;
      Done ((branch_id, snapshot) :: rest)
  end.

(** [read_branch_snapshots], on a mirror that is current. *)
Definition read_branch_snapshots (identities : list (string * string * string)) :
    HM (list (string * option BranchReadSnapshot)) :=
  expected ← lift (expected_branches [] identities);
  if is_nil expected then mret []
  else
    m ← _reload_manifest;
    main ← materialize m;
    _ ← lift (require_writable (mr_state main));
    _ ← lift (head_ref main);
    s ← get_store;
    main_states ← lift (_main_states_by_revision m (st_scope_base s) main);
    _ ← lift (main_receipts ∅ (mr_patches main));
    lift (snapshots_loop (λ branch_id episode_id project_id,
            receipts ← _main_merge_receipts main branch_id;
            _read_branch_snapshot m s branch_id episode_id project_id main (_main_heads_by_revision main)
              main_states receipts) expected).
End branches.
