(* ===== verification/BranchMerge.v ===== *)
(** Merging the graph branch of an Auto-research episode into main
    ([runs/branch_merge.py]): the exact input of a merge, whether a candidate
    Patch stays inside what the branch changed and carries it, and its
    preparation and commit through the writers of main.

    The agent that writes the candidate, its prompts and its stage are not
    modelled: a candidate is the Patch the agent's draft was wrapped in.  The
    contract of the rules that travels with a context is a constant of the
    program and left out; the digest of a context is a parameter. *)

From Stdlib Require Import Ascii.
From S2P Require Export History SemanticDelta.

(** ** Outcomes *)

Inductive MergeError :=
  | SemanticConflict
  | SourceChanged
  | CandidateProblem
  | RuntimeFault
  | HistoryFailed (e : HistoryError).

Inductive merge_result (A : Type) := MergeOk (a : A) | Problem (e : MergeError).
Arguments MergeOk {_} _.
Arguments Problem {_} _.
#[export] Instance merge_result_bind : MBind merge_result := λ A B f m,
  match m with MergeOk a => f a | Problem e => Problem e end.

Definition demand (c : bool) (e : MergeError) : merge_result unit := if c then MergeOk tt else Problem e.

(** ** The input of a merge *)

Record BranchPatchSummary := {
  bps_revision : Z; bps_transition_id : option string; bps_summary : string;
  bps_change_summary : list string; bps_task_id : option string; bps_profile : option AgentProfile }.
#[export] Instance BranchPatchSummary_eq_dec : EqDecision BranchPatchSummary.
Proof. solve_decision. Defined.

Record BranchMergeEligibility := {
  bme_branch_head : GraphHeadRef; bme_episode_ending : string; bme_active_branch_writer_task_ids : list string }.
#[export] Instance BranchMergeEligibility_eq_dec : EqDecision BranchMergeEligibility.
Proof. solve_decision. Defined.

(** [BranchMergeEligibility.require_quiescence]. *)
Definition require_quiescence (e : BranchMergeEligibility) : bool :=
  bool_decide (tgt_kind (head_target (bme_branch_head e)) = TargetBranch) &&
  is_nil (bme_active_branch_writer_task_ids e).

(** A context: what the caller supplies and what is derived from it. *)
Record MergeInput := {
  mi_merge_task_id : string; mi_authorized_by : AuthorizedHuman; mi_metadata : GraphBranchMetadata;
  mi_eligibility : BranchMergeEligibility; mi_base_graph : GraphState; mi_branch_graph : GraphState;
  mi_main_head : GraphHeadRef; mi_main_graph : GraphState; mi_run_truth_scope : list string;
  mi_branch_patch_summaries : list BranchPatchSummary }.
Record BranchMergeContext := {
  mc_context_id : string; mc_input : MergeInput; mc_semantic_delta : GraphSemanticDelta;
  mc_deterministic_conflicts : list BranchMergeConflict }.

(** [_context_id]: the digest of a context without its id. *)
Class ContextHash := _context_id : MergeInput → string.

(** [xs == sorted(set(xs))]. *)
Definition sorted_unique (l : list string) : bool := bool_decide (l = sorted_set (list_to_set l)).
(** [revisions == sorted(set(revisions))]. *)
Fixpoint increasing (l : list Z) : bool :=
  match l with
  | a :: ((b :: _) as l') => (a <? b)%Z && increasing l'
  | _ => true
  end.

(** What [BranchMergeContext.require_exact_snapshots] asks of the supplied part. *)
Definition input_is_exact (i : MergeInput) : bool :=
  sorted_unique (mi_run_truth_scope i) &&
  (head_revision (gbm_base_head (mi_metadata i)) =? gs_revision (mi_base_graph i))%Z &&
  (head_revision (gbm_head (mi_metadata i)) =? gs_revision (mi_branch_graph i))%Z &&
  is_main (mi_main_head i) && (head_revision (mi_main_head i) =? gs_revision (mi_main_graph i))%Z &&
  bool_decide (bme_branch_head (mi_eligibility i) = gbm_head (mi_metadata i)) &&
  increasing (bps_revision <$> mi_branch_patch_summaries i) &&
  forallb (λ r, (head_revision (gbm_base_head (mi_metadata i)) <? r)%Z &&
                (r <=? head_revision (gbm_head (mi_metadata i)))%Z)
    (bps_revision <$> mi_branch_patch_summaries i).

(** [BranchMergeContext.create]; the derived part is what validation recomputes. *)
Definition create_context `{ContextHash} (i : MergeInput) : res BranchMergeContext :=
  _ ← require (sorted_unique (mi_run_truth_scope i) && negb (is_nil (mi_run_truth_scope i)));
  delta ← build_semantic_delta (mi_base_graph i) (mi_branch_graph i)
            (gbm_base_head (mi_metadata i)) (gbm_head (mi_metadata i));
  _ ← require (input_is_exact i);
  Ok {| mc_context_id := _context_id i; mc_input := i; mc_semantic_delta := delta;
        mc_deterministic_conflicts :=
          detect_branch_merge_conflicts (mi_base_graph i) (mi_branch_graph i) (mi_main_graph i) |}.

Inductive Refreshed := Unchanged | MainMoved.

(** [classify_refreshed_context]. *)
Definition classify_refreshed_context (previous current : BranchMergeContext) : merge_result Refreshed :=
  let a := mc_input previous in let b := mc_input current in
  _ ← demand (str_eqb (mi_merge_task_id a) (mi_merge_task_id b) &&
              bool_decide (mi_authorized_by a = mi_authorized_by b) &&
              bool_decide (mi_metadata a = mi_metadata b) &&
              bool_decide (mi_eligibility a = mi_eligibility b) &&
              bool_decide (mi_base_graph a = mi_base_graph b) &&
              bool_decide (mi_branch_graph a = mi_branch_graph b) &&
              bool_decide (mi_run_truth_scope a = mi_run_truth_scope b) &&
              bool_decide (mi_branch_patch_summaries a = mi_branch_patch_summaries b)) SourceChanged;
  if bool_decide (mi_main_head a = mi_main_head b)
  then _ ← demand (str_eqb (mc_context_id previous) (mc_context_id current)) SourceChanged; MergeOk Unchanged
  else MergeOk MainMoved.

(** ** Paths a candidate may write *)

(** [field_path.split(".")], without the empty parts. *)
Fixpoint split_dots (s : string) (part : string) : list string :=
  let flush rest := if truthy part then part :: rest else rest in
  match s with
  | "" => flush []
  | String c s => if decide (c = "."%char) then flush (split_dots s "") else split_dots s (part +:+ String c "")
  end.

(** The path of one conflict in [_branch_conflict_paths]. *)
Definition conflict_path (c : BranchMergeConflict) : path :=
  let parts := split_dots (bmc_field_path c) "" in
  let or_all (parts : path) := match parts with [] => ["$"] | _ => parts end in
  let p :=
    match bmc_entity_id c with
    | None =>
        let parts := match parts with x :: rest => if str_eqb x (bmc_collection c) then rest else parts | [] => [] end in
        bmc_collection c :: or_all parts
    | Some id => bmc_collection c :: id :: or_all parts
    end in
  if negb (is_subtree p) && (is_dict (bmc_base c) || is_dict (bmc_branch c) || is_dict (bmc_main c))
  then p ++ ["$"] else p.
Definition _branch_conflict_paths (conflicts : list BranchMergeConflict) : list path := conflict_path <$> conflicts.

(** [_declared_bookkeeping_sensitive_write_paths]. *)
Definition _declared_bookkeeping_sensitive_write_paths (op : GraphOperation) : list path :=
  match op with
  | UpdateNodes nodes => nodes ≫= λ u, (λ field, ["nodes"; nu_id u; field]) <$> elements (dom (nu_changes u))
  | SetStanding id _ => [["nodes"; id; "standing"]]
  | _ => []
  end.

(** What the branch changed, and of it what no conflict covers. *)
Definition allowed_paths (c : BranchMergeContext) : list path :=
  _graph_semantic_write_paths (mi_base_graph (mc_input c)) (mi_branch_graph (mc_input c)).
Definition mandatory_paths (c : BranchMergeContext) : list path :=
  let conflicts := _branch_conflict_paths (mc_deterministic_conflicts c) in
  bfilter (λ p, negb (existsb (λ item, _semantic_path_covers item p) conflicts)) (allowed_paths c).

(** [branch_merge_can_resolve_without_patch]. *)
Definition branch_merge_can_resolve_without_patch (c : BranchMergeContext) : bool :=
  let branch := _graph_semantic_document (mi_branch_graph (mc_input c)) in
  let main := _graph_semantic_document (mi_main_graph (mc_input c)) in
  forallb (λ p, opt_eqb (_semantic_path_value branch p) (_semantic_path_value main p)) (mandatory_paths c).

(** [sorted(xs)] on numbers. *)
Definition sorted_nat_list (l : list nat) : list nat := merge_sort Nat.le l.

(** [p.model_copy(update={"ops": [op], "transition": None})]. *)
Definition one_action (p : Patch) (op : GraphOperation) : Patch :=
  patch_copy p (p_revision p) (p_created_at p) (p_summary p) [op] (p_run_truth_scope p)
    (p_repositories_read p) (p_processed_cursors p) (p_change_summary p) (p_human_action p)
    (p_agent_action p) (p_admission p) (p_admission_messages p) None.

Section merge.
Context `{NodeAdapter, RecordAdapter, TextLib, CanonicalHash}.

(** One initiating operation of the candidate, replayed on the graph so far. *)
Definition replay_action (allowed : list path) (prepared : Patch) (timeline : GraphState) (index : nat) :
    merge_result GraphState :=
  match p_ops prepared !! index with
  | None => Problem RuntimeFault
  | Some op =>
      _ ← demand (forallb (λ p, existsb (λ item, _semantic_path_authorizes_declared_write item p) allowed)
                    (_declared_bookkeeping_sensitive_write_paths op)) SemanticConflict;
      match apply_valid_patch timeline (one_action prepared op) with
      | Raise _ => Problem SemanticConflict
      | Ok next_state =>
          _ ← demand (forallb (λ p, existsb (λ item, _semantic_path_covers item p) allowed)
                        (_graph_semantic_write_paths timeline next_state)) SemanticConflict;
          MergeOk next_state
      end
  end.
Fixpoint replay_actions (allowed : list path) (prepared : Patch) (timeline : GraphState) (indexes : list nat) :
    merge_result GraphState :=
  match indexes with
  | [] => MergeOk timeline
  | i :: indexes => next ← replay_action allowed prepared timeline i; replay_actions allowed prepared next indexes
  end.

(** [validate_branch_merge_candidate_conformance]. *)
Definition validate_branch_merge_candidate_conformance (c : BranchMergeContext) (current_main : GraphState)
    (prepared : Patch) (graph : GraphState) : merge_result unit :=
  match p_transition prepared with
  | None => Problem SemanticConflict
  | Some tr =>
      let indexes := sorted_nat_list (tt_initiating_groups tr ≫= tig_operation_indexes) in
      _ ← replay_actions (allowed_paths c) prepared current_main indexes;
      let branch := _graph_semantic_document (mi_branch_graph (mc_input c)) in
      let result := _graph_semantic_document graph in
      demand (forallb (λ p, opt_eqb (_semantic_path_value branch p) (_semantic_path_value result p))
                (mandatory_paths c)) SemanticConflict
  end.

(** ** Candidates *)

(** [branch_merge_provenance]. *)
Definition branch_merge_provenance (c : BranchMergeContext) : BranchMergeProvenance :=
  let i := mc_input c in
  {| bmp_merge_id := _branch_merge_id (mi_metadata i); bmp_branch_id := gbm_branch_id (mi_metadata i);
     bmp_episode_id := gbm_episode_id (mi_metadata i); bmp_branch_base_head := gbm_base_head (mi_metadata i);
     bmp_branch_head := gbm_head (mi_metadata i); bmp_rebased_main_head := mi_main_head i;
     bmp_merge_task_id := mi_merge_task_id i |}.

(** [p.model_copy(update={"branch_merge": provenance})]. *)
Definition with_branch_merge (p : Patch) (provenance : option BranchMergeProvenance) : Patch :=
  {| p_schema_generation := p_schema_generation p; p_revision := p_revision p; p_kind := p_kind p;
     p_author := p_author p; p_producer := p_producer p; p_created_at := p_created_at p;
     p_summary := p_summary p; p_ops := p_ops p; p_run_truth_scope := p_run_truth_scope p;
     p_repositories_read := p_repositories_read p; p_processed_cursors := p_processed_cursors p;
     p_change_summary := p_change_summary p; p_source_operation_id := p_source_operation_id p;
     p_source_effect_id := p_source_effect_id p;
     p_source_effect_sha256 := p_source_effect_sha256 p; p_human_action := p_human_action p;
     p_agent_action := p_agent_action p; p_admission := p_admission p;
     p_admission_messages := p_admission_messages p;
     p_experiment_control_node_id := p_experiment_control_node_id p;
     p_experiment_decision_bundle := p_experiment_decision_bundle p;
     p_project_identity := p_project_identity p;
     p_project_home_transfer := p_project_home_transfer p; p_authorized_by := p_authorized_by p;
     p_profile := p_profile p; p_task_id := p_task_id p; p_episode_id := p_episode_id p;
     p_branch_merge := provenance; p_transition := p_transition p |}.

(** The end of [parse_branch_merge_candidate]: a draft that claims no repository
    gets the provenance of the merge. *)
Definition stamp_candidate (draft : Patch) (c : BranchMergeContext) : merge_result Patch :=
  let i := mc_input c in
  _ ← demand (is_nil (p_repositories_read draft)) CandidateProblem;
  MergeOk (with_branch_merge
            (at_revision (head_revision (mi_main_head i) + 1)%Z
               (attributed draft (Some (mi_authorized_by i)) (Some Orchestrator) (Some (mi_merge_task_id i))
                  (Some (gbm_episode_id (mi_metadata i)))))
            (Some (branch_merge_provenance c))).

(** [branch_merge_receipt_from_committed_patch]. *)
Definition branch_merge_receipt_from_committed_patch (p : Patch) : res BranchMergeReceipt :=
  match p_admission p, p_branch_merge p, p_transition p, p_authorized_by p with
  | AdmissionAccepted, Some provenance, Some tr, Some human =>
      let receipt := {| bmr_outcome := Committed; bmr_provenance := provenance;
                        bmr_result_main_head := {| head_target := main_target; head_revision := p_revision p;
                                                   head_transition_id := Some (tt_transition_id tr) |};
                        bmr_authorized_by := human; bmr_created_at := p_created_at p |} in
      _ ← require (committed_head_is_coherent receipt); Ok receipt
  | _, _, _, _ => Raise ValueError
  end.

(** [_require_prepared_provenance]. *)
Definition _require_prepared_provenance (prepared candidate : Patch) (expected_main_head : GraphHeadRef) :
    merge_result unit :=
  _ ← demand (bool_decide (p_branch_merge prepared = p_branch_merge candidate)) RuntimeFault;
  _ ← demand (bool_decide (p_authorized_by prepared = p_authorized_by candidate)) RuntimeFault;
  _ ← demand (bool_decide (p_profile prepared = Some Orchestrator) &&
              bool_decide (p_task_id prepared = p_task_id candidate)) RuntimeFault;
  match p_transition prepared with
  | None => Problem RuntimeFault
  | Some tr =>
      _ ← demand (bool_decide (tt_pre_head tr = expected_main_head)) (HistoryFailed RevisionConflict);
      demand (p_revision prepared =? head_revision expected_main_head + 1)%Z RuntimeFault
  end.

(** A failure of the history, seen by the merge. *)
Definition history_problem (e : HistoryError) : MergeError :=
  match e with PatchRejected _ => SemanticConflict | e => HistoryFailed e end.

Definition projected (p : Patch) (st : GraphState) (canonical : bool) : merge_result ProjectTransitionProjection :=
  match p_transition p with
  | None => Problem RuntimeFault
  | Some tr =>
      match project_transition_projection st tr canonical with
      | Ok projection => MergeOk projection
      | Raise e => Problem (HistoryFailed (Raised e))
      end
  end.

Context (cfg : HistoryConfig).

(** What [prepare_branch_merge_with_history] does with a validated candidate. *)
Definition check_prepared (c : BranchMergeContext) (candidate : Patch) (expected_main_head : GraphHeadRef)
    (prepared : Patch) (report : ValidationReport) (current : GraphState) : merge_result PreparedTransition :=
  _ ← demand (gs_revision current =? head_revision expected_main_head)%Z (HistoryFailed RevisionConflict);
  _ ← demand (negb (rejected report)) SemanticConflict;
  _ ← _require_prepared_provenance prepared candidate expected_main_head;
  match apply_valid_patch current prepared with
  | Raise _ => Problem SemanticConflict
  | Ok graph =>
      _ ← validate_branch_merge_candidate_conformance c current prepared graph;
      projection ← projected prepared graph false;
      MergeOk {| prt_patch := prepared; prt_projection := projection |}
  end.

(** [prepare_branch_merge_with_history]. *)
Definition prepare_branch_merge_with_history (env : Env) (candidate : Patch) (expected_main_head : GraphHeadRef)
    (c : BranchMergeContext) (s : Store) : Store * merge_result PreparedTransition :=
  if negb (is_main expected_main_head) then (s, Problem (HistoryFailed (Raised ValueError)))
  else match validate_candidate cfg env candidate None s with
  | (s', Failed e) => (s', Problem (history_problem e))
  | (s', Done (prepared, report, current)) =>
      (s', check_prepared c candidate expected_main_head prepared report current)
  end.

Record CommittedTransition := { ct_patch : Patch; ct_projection : ProjectTransitionProjection }.

(** The options of a merge's append. *)
Definition merge_append (expected_main_head : GraphHeadRef) : AppendOptions :=
  {| ao_raise_on_reject := true; ao_discard_on_reject := true;
     ao_expected_revision := Some (head_revision expected_main_head);
     ao_allow_identity_claim := false; ao_authorized_by := None |}.

(** [commit_branch_merge_with_history]. *)
Definition commit_branch_merge_with_history (env : Env) (candidate : Patch) (expected_main_head : GraphHeadRef)
    (s : Store) : Store * merge_result CommittedTransition :=
  if negb (is_main expected_main_head) then (s, Problem (HistoryFailed (Raised ValueError)))
  else match _append_locked cfg env candidate (merge_append expected_main_head) s with
  | (s', Failed e) => (s', Problem (history_problem e))
  | (s', Done (committed, result)) =>
      (s', _ ← _require_prepared_provenance committed candidate expected_main_head;
           _ ← demand (gs_revision (mr_state result) =? head_revision expected_main_head + 1)%Z RuntimeFault;
           projection ← projected committed (mr_state result) true;
           MergeOk {| ct_patch := committed; ct_projection := projection |})
  end.
End merge.
