(* ===== verification/MergeLaws.v ===== *)
(** What the semantic comparison of a branch with main promises: it reports a
    conflict exactly where the changes of both cannot live in one graph, and it
    finds the delta of the branch in main exactly when every change is there. *)

From S2P Require Export SemanticDelta WritePaths.

(** The item documents of a collection, and of the whole fields, can be compared:
    no dictionary repeats a key, and no side has an explicit null where the other
    misses the key. *)
Definition item_ok {V} (c : Collection V) (others : list (gmap string V)) (kv : string * V) : bool :=
  let d := _semantic_document c kv.2 in
  wf_doc d &&
  forallb (λ other, match other !! kv.1 with
                    | Some v => aligned d (_semantic_document c v)
                    | None => true
                    end) others.
Definition collection_ok {V} (c : Collection V) (base branch main : gmap string V) : bool :=
  forallb (item_ok c [branch; main]) (map_to_list base) &&
  forallb (item_ok c [main]) (map_to_list branch) && forallb (item_ok c []) (map_to_list main).
Definition graphs_ok (base branch main : GraphState) : bool :=
  collection_ok node_collection (gs_nodes base) (gs_nodes branch) (gs_nodes main) &&
  collection_ok edge_collection (gs_edges base) (gs_edges branch) (gs_edges main) &&
  collection_ok proposal_collection (gs_proposals base) (gs_proposals branch) (gs_proposals main) &&
  collection_ok ambiguity_collection (gs_ambiguities base) (gs_ambiguities branch) (gs_ambiguities main) &&
  collection_ok glossary_collection (gs_glossary base) (gs_glossary branch) (gs_glossary main).

(** The document of one item, if the graph has it. *)
Definition item {V} (c : Collection V) (values : gmap string V) (id : string) : option pyval :=
  _optional_semantic_document c (values !! id).

(** A property of every item of three graphs and of their whole fields. *)
Record everywhere (P : option pyval → option pyval → option pyval → Prop) (base branch main : GraphState) : Prop := {
  ev_nodes : ∀ id, P (item node_collection (gs_nodes base) id) (item node_collection (gs_nodes branch) id)
                     (item node_collection (gs_nodes main) id);
  ev_edges : ∀ id, P (item edge_collection (gs_edges base) id) (item edge_collection (gs_edges branch) id)
                     (item edge_collection (gs_edges main) id);
  ev_proposals : ∀ id, P (item proposal_collection (gs_proposals base) id)
                     (item proposal_collection (gs_proposals branch) id)
                     (item proposal_collection (gs_proposals main) id);
  ev_ambiguities : ∀ id, P (item ambiguity_collection (gs_ambiguities base) id)
                     (item ambiguity_collection (gs_ambiguities branch) id)
                     (item ambiguity_collection (gs_ambiguities main) id);
  ev_glossary : ∀ id, P (item glossary_collection (gs_glossary base) id)
                     (item glossary_collection (gs_glossary branch) id)
                     (item glossary_collection (gs_glossary main) id);
  ev_globals : ∀ field, field ∈ global_fields →
                     P (Some (global_document base field)) (Some (global_document branch field))
                       (Some (global_document main field)) }.

(** ** Items *)

Section items.
Context {V : Type} (c : Collection V).
Implicit Types (base branch main : gmap string V).

Record items_ok (b br m : option pyval) : Prop := {
  io_base : wf_opt b = true; io_branch : wf_opt br = true; io_main : wf_opt m = true;
  io_base_branch : aligned_opt b br = true; io_base_main : aligned_opt b m = true;
  io_branch_main : aligned_opt br m = true }.

Lemma aligned_missing v : aligned_opt (Some (_semantic_document c v)) None = true ∧
  aligned_opt None (Some (_semantic_document c v)) = true.
Proof. done. Qed.

Lemma collection_items base branch main id :
  collection_ok c base branch main = true → items_ok (item c base id) (item c branch id) (item c main id).
Proof.
  unfold collection_ok. rewrite !andb_true_iff, !forallb_forall. intros [[Hb Hbr] Hm].
  assert (∀ values others, (∀ kv, In kv (map_to_list values) → item_ok c others kv = true) →
    ∀ v, values !! id = Some v → item_ok c others (id, v) = true) as Hget.
  { intros values others Hall v Hv. apply Hall, list_elem_of_In. by apply elem_of_map_to_list. }
  pose proof (Hget _ _ Hb) as Gb. pose proof (Hget _ _ Hbr) as Gbr. pose proof (Hget _ _ Hm) as Gm.
  unfold item. destruct (base !! id) as [b|], (branch !! id) as [br|] eqn:Ebr, (main !! id) as [m|] eqn:Em;
    repeat match goal with G : ∀ v, Some ?x = Some v → _ |- _ => specialize (G x eq_refl) end;
    unfold item_ok in *; cbn [forallb fst snd] in *; rewrite ?Ebr, ?Em, ?andb_true_iff in *; destruct_and?; by split.
Qed.

(** The conflicts of one identity are what keeps its merge from existing. *)
Lemma identity_conflicts_nil id b br m :
  items_ok b br m → identity_conflicts c id b br m = [] ↔ mergeable b br m.
Proof.
  intros [Hb Hbr Hm A1 A2 A3]. unfold identity_conflicts.
  destruct (opt_eqb b br) eqn:E1. { split; [|done]. intros _. apply agree_mergeable; auto. }
  assert (mergeable b br m → opt_eqb b m = true ∨ opt_eqb br m = true ∨ is_some b && is_some br && is_some m = true) as Hinv.
  { intros [[?|[?|?]]|(? & ? & ? & -> & -> & -> & _)]%mergeable_inv; try done; [congruence|by left|by right; left|by right; right]. }
  destruct b as [b|], br as [br|]; [| | |done].
  - destruct m as [m|].
    + rewrite <-conflict_free_mergeable by done.
      change (conflict_free (Some b) (Some br) (Some m)) with (_conflicting_fields b br m "" = []).
      split; [by destruct (_conflicting_fields _ _ _ _)|]. by intros ->.
    + split; [done|]. intros [?|[?|?]]%Hinv; done.
  - split.
    + destruct (opt_eqb m (Some b)) eqn:E2; cbn [orb negb].
      { intros _. apply agree_mergeable; try done. right. left. by apply opt_eqb_sym. }
      destruct m as [m|]; [done|]. intros _. apply agree_mergeable; try done. by right; right.
    + intros [Hm2|[Hm2|Hm2]]%Hinv; [|by destruct m|done]. apply opt_eqb_sym in Hm2; [|done..]. by rewrite Hm2.
  - split.
    + destruct m as [m|]; cbn [is_some andb]; intros Hc; [|apply agree_mergeable; try done; by right; left].
      apply agree_mergeable; try done. right. right. apply opt_eqb_sym; [done..|]. by destruct (opt_eqb (Some m) (Some br)).
    + intros [Hm2|[Hm2|Hm2]]%Hinv; [by destruct m| |done]. apply opt_eqb_sym in Hm2; [|done..]. by rewrite Hm2, andb_false_r.
Qed.

Lemma missing_ids base branch id : id ∉ sorted_ids base branch → item c base id = None ∧ item c branch id = None.
Proof.
  unfold sorted_ids, item. rewrite elem_of_sorted_set, not_elem_of_union, !not_elem_of_dom. by intros [-> ->].
Qed.

Lemma collection_conflicts_nil base branch main :
  collection_ok c base branch main = true →
  _collection_conflicts c base branch main = [] ↔ ∀ id, mergeable (item c base id) (item c branch id) (item c main id).
Proof.
  intros Hok. unfold _collection_conflicts. rewrite bind_nil. split.
  - intros Hall id. destruct (decide (id ∈ sorted_ids base branch)) as [Hid|Hid].
    + by apply (identity_conflicts_nil id); [apply collection_items|apply Hall].
    + destruct (missing_ids _ _ _ Hid) as [-> ->]. apply agree_mergeable; try done; [|by left].
      apply (collection_items base branch main id Hok).
  - intros Hall id _. by apply (identity_conflicts_nil id); [apply collection_items|apply Hall].
Qed.

(** ** The delta *)

Lemma subsumed_iff (b br m : option V) change :
  opt_eqb (_optional_semantic_document c b) (_optional_semantic_document c br) = false →
  sc_before change = b → sc_after change = br →
  sc_change change = match b, br with None, _ => "created" | _, None => "removed" | _, _ => "updated" end →
  wf_opt (_optional_semantic_document c br) = true → wf_opt (_optional_semantic_document c m) = true →
  _semantic_change_is_subsumed (sc_change change) (_optional_semantic_document c (sc_before change))
    (_optional_semantic_document c (sc_after change)) (_optional_semantic_document c m) =
  _branch_changes_are_present (_optional_semantic_document c b) (_optional_semantic_document c br)
    (_optional_semantic_document c m).
Proof.
  intros Hne -> -> -> Hwbr Hwm. unfold _semantic_change_is_subsumed.
  destruct b as [b|]; [destruct br as [br|]; [done|]|].
  - cbn [str_eqb option_map _optional_semantic_document]. cbv [str_eqb]. rewrite bool_decide_eq_false_2 by done.
    rewrite bool_decide_eq_true_2 by done. cbn [_branch_changes_are_present]. rewrite present_some.
    destruct m; cbn; [by rewrite ?orb_false_r|by rewrite ?orb_true_r].
  - cbv [str_eqb]. rewrite bool_decide_eq_true_2 by done.
    change (_optional_semantic_document c None) with (@None pyval). cbn [_branch_changes_are_present].
    change (opt_eqb None (_optional_semantic_document c br) = false) in Hne.
    rewrite Hne. cbn [orb]. apply eq_true_iff_eq. split; apply opt_eqb_sym; done.
Qed.

Lemma semantic_change_ok kind b br id change :
  semantic_change c kind b br id = Ok change →
  sc_change change = kind ∧ sc_id change = id ∧ sc_before change = b ∧ sc_after change = br.
Proof. unfold semantic_change. intros Hc. by simplify_res. Qed.

Lemma identity_delta_subsumed base branch main id l :
  collection_ok c base branch main = true → identity_delta c base branch id = Ok l →
  (∀ change, change ∈ l → change_is_subsumed c main change = true) ↔
  _branch_changes_are_present (item c base id) (item c branch id) (item c main id) = true.
Proof.
  intros Hok Hd. destruct (collection_items _ _ _ id Hok) as [Hb Hbr Hm _ _ _]. unfold item in *.
  destruct (opt_eqb (_optional_semantic_document c (base !! id)) (_optional_semantic_document c (branch !! id))) eqn:E.
  { assert (l = []) as ->.
    { unfold identity_delta in Hd. destruct (base !! id) as [b|], (branch !! id) as [br|]; try done.
      change (py_eqb (_semantic_document c b) (_semantic_document c br) = true) in E. rewrite E in Hd. by injection Hd. }
    rewrite present_same by done. split; [done|]. by intros _ change ?%elem_of_nil. }
  assert (∃ change, l = [change] ∧ sc_id change = id ∧ sc_before change = base !! id ∧ sc_after change = branch !! id ∧
    sc_change change = match base !! id, branch !! id with None, _ => "created" | _, None => "removed" | _, _ => "updated" end)
    as (change & -> & Hid & Hbe & Haf & Hch).
  { unfold identity_delta in Hd. destruct (base !! id) as [b|], (branch !! id) as [br|]; try done.
    1: change (py_eqb (_semantic_document c b) (_semantic_document c br) = false) in E; rewrite E in Hd.
    all: apply res_bind_ok in Hd as (change & (? & ? & ? & ?)%semantic_change_ok & [= <-]); by exists change. }
  unfold change_is_subsumed. split.
  - intros Hall. specialize (Hall change). rewrite list_elem_of_singleton in Hall. specialize (Hall eq_refl).
    rewrite Hid in Hall. erewrite subsumed_iff in Hall; [|exact E|done..]. exact Hall.
  - intros Hp change' ->%list_elem_of_singleton. rewrite Hid. erewrite subsumed_iff; [|exact E|done..]. exact Hp.
Qed.

(** The delta of a collection lists exactly the identities whose documents
    differ, and main subsumes it when it has all their changes. *)
Lemma collection_delta_subsumed base branch main changes :
  collection_ok c base branch main = true → _typed_collection_delta c base branch = Ok changes →
  forallb (change_is_subsumed c main) changes = true ↔
  ∀ id, _branch_changes_are_present (item c base id) (item c branch id) (item c main id) = true.
Proof.
  intros Hok Hd. apply res_bind_ok in Hd as (lists & Hl & [= <-]). apply res_map_Forall2 in Hl.
  assert (∀ id, id ∈ sorted_ids base branch → ∃ l, l ∈ lists ∧ identity_delta c base branch id = Ok l) as Hto.
  { intros id [i Hi]%list_elem_of_lookup. destruct (Forall2_lookup_l _ _ _ _ _ Hl Hi) as (l & Hlk & Hd).
    exists l. split; [by eapply list_elem_of_lookup_2|done]. }
  assert (∀ l, l ∈ lists → ∃ id, id ∈ sorted_ids base branch ∧ identity_delta c base branch id = Ok l) as Hfrom.
  { intros l [i Hi]%list_elem_of_lookup. destruct (Forall2_lookup_r _ _ _ _ _ Hl Hi) as (id & Hlk & Hd).
    exists id. split; [by eapply list_elem_of_lookup_2|done]. }
  rewrite forallb_forall. split.
  - intros Hall id. destruct (decide (id ∈ sorted_ids base branch)) as [Hid|Hid].
    + destruct (Hto id Hid) as (l & Hin & Hd). apply (identity_delta_subsumed _ _ _ _ _ Hok Hd). intros change Hc.
      apply Hall, in_concat. exists l. by rewrite <-!list_elem_of_In.
    + destruct (missing_ids _ _ _ Hid) as [-> ->]. done.
  - intros Hall change (l & Hin%list_elem_of_In & Hc%list_elem_of_In)%in_concat.
    destruct (Hfrom l Hin) as (id & _ & Hd). by apply (identity_delta_subsumed _ _ _ _ _ Hok Hd).
Qed.
End items.

(** ** Whole fields *)

Lemma wf_records {A} (f : A → pydict) (l : list A) : (∀ a, wf_dict (f a) = true) → wf_doc (py_list f l) = true.
Proof. intros Hf. cbn. apply forallb_forall. intros v (a & -> & _)%list_elem_of_In%list_elem_of_fmap. apply Hf. Qed.

Lemma wf_strs l : wf_doc (py_strs l) = true.
Proof. cbn. apply forallb_forall. by intros v (a & -> & _)%list_elem_of_In%list_elem_of_fmap. Qed.

Lemma global_wf st field : field ∈ global_fields → wf_doc (global_document st field) = true.
Proof.
  intros [->|[->|[->|[]%elem_of_nil]%elem_of_cons]%elem_of_cons]%elem_of_cons.
  - apply wf_strs.
  - apply andb_true_iff. split; [done|]. cbn [ontology_dict forallb snd].
    fold wf_doc. rewrite !andb_true_iff. split_and!; try done; apply wf_records; try done. intros r.
    apply andb_true_iff. split; [done|]. cbn [forallb snd]. fold wf_doc. by rewrite !wf_strs.
  - apply andb_true_iff. split; [done|]. cbn [coverage_dict forallb snd]. fold wf_doc. rewrite !wf_strs.
    by destruct (cov_earliest_timestamp _).
Qed.

Lemma global_aligned st st' field : field ∈ global_fields →
  aligned (global_document st field) (global_document st' field) = true.
Proof.
  intros [->|[->|[->|[]%elem_of_nil]%elem_of_cons]%elem_of_cons]%elem_of_cons; [done|done|].
  unfold global_document. cbn [str_eqb]. unfold coverage_dict.
  destruct (cov_earliest_timestamp (gs_coverage st)), (cov_earliest_timestamp (gs_coverage st')); reflexivity.
Qed.

Lemma global_items base branch main field : field ∈ global_fields →
  items_ok (Some (global_document base field)) (Some (global_document branch field)) (Some (global_document main field)).
Proof. intros Hf. split; [by apply global_wf..|by apply global_aligned|by apply global_aligned|by apply global_aligned]. Qed.

Lemma global_conflicts_nil base branch main field : field ∈ global_fields →
  global_conflicts base branch main field = [] ↔
  mergeable (Some (global_document base field)) (Some (global_document branch field)) (Some (global_document main field)).
Proof.
  intros Hf. destruct (global_items base branch main field Hf) as [? ? ? ? ? ?]. rewrite <-conflict_free_mergeable by done.
  unfold global_conflicts.
  split.
  - intros Hn. apply (conflicts_prefix _ _ _ field). by destruct (_conflicting_fields _ _ _ field).
  - intros Hn. apply (conflicts_prefix _ _ _ _ field) in Hn. cbn [default from_option] in Hn. unfold id in Hn. by rewrite Hn.
Qed.

Lemma present_mergeable b br m : wf_opt m = true → _branch_changes_are_present b br m = true → mergeable b br m.
Proof. intros Hm Hp. exists m. split_and!; [done..|by apply present_refl]. Qed.

(** ** Properties *)

(** C7: conflicts are exact on aligned graphs. An item of a base, a branch and main
    is aligned when its documents repeat no key and none sets a key to null that
    another lacks ([graphs_ok]): the code reads a missing key as null, and misses
    the conflict between the two. On such graphs the code reports no conflict
    between a branch and main exactly when, for every node, edge, Proposal,
    ambiguity, glossary term and whole field, one document holds every change the
    branch made since the base and every change main made since. *)
Theorem conflicts_exact base branch main :
  graphs_ok base branch main = true →
  detect_branch_merge_conflicts base branch main = [] ↔ everywhere mergeable base branch main.
Proof.
  unfold graphs_ok, detect_branch_merge_conflicts. rewrite !andb_true_iff. intros [[[[Hn He] Hp] Ha] Hg].
  rewrite !app_nil, !collection_conflicts_nil, bind_nil by done. split.
  - intros (? & ? & ? & ? & ? & Hf). split; try done. intros field Hin. by apply global_conflicts_nil, Hf.
  - intros [? ? ? ? ? Hf]. split_and!; try done. intros field Hin. by apply global_conflicts_nil, Hf.
Qed.

Lemma globals_subsumed base branch main base_head branch_head delta :
  build_semantic_delta base branch base_head branch_head = Ok delta →
  forallb (λ change, _branch_changes_are_present (Some (gsd_before change)) (Some (gsd_after change))
                       (Some (global_document main (gsd_field change)))) (gd_globals delta) = true ↔
  ∀ field, field ∈ global_fields →
    _branch_changes_are_present (Some (global_document base field)) (Some (global_document branch field))
      (Some (global_document main field)) = true.
Proof.
  intros Hd. unfold build_semantic_delta in Hd. simplify_res. clear E. cbn [gd_globals].
  assert (∀ field, field ∈ global_fields → ∀ A `{EqDecision A} (f : GraphState → A),
    (f base = f branch → global_document base field = global_document branch field) →
    forallb (λ change, _branch_changes_are_present (Some (gsd_before change)) (Some (gsd_after change))
       (Some (global_document main (gsd_field change))))
      (if negb (bool_decide (f base = f branch))
       then [{| gsd_field := field; gsd_before := global_document base field; gsd_after := global_document branch field |}]
       else []) = true ↔
    _branch_changes_are_present (Some (global_document base field)) (Some (global_document branch field))
      (Some (global_document main field)) = true) as Hone.
  { intros field Hf A ? f Hsame. destruct (bool_decide (f base = f branch)) eqn:Heq;
      cbn [negb forallb gsd_before gsd_after gsd_field].
    - apply bool_decide_eq_true in Heq. split; [|done]. intros _. apply present_same. rewrite Hsame by done. by apply opt_eqb_refl, global_wf.
    - by rewrite andb_true_r. }
  rewrite !forallb_app, !andb_true_iff.
  rewrite (Hone "project_truth_scope"), (Hone "ontology"), (Hone "coverage"); unfold global_fields;
    try (by repeat (first [by left|right])); try (by unfold global_document; cbn; intros ->).
  split.
  - intros (? & ? & ?) field. rewrite !elem_of_cons. by intros [->|[->|[->|[]%elem_of_nil]]].
  - intros Hall. split_and!; apply Hall; repeat (first [by left|right]).
Qed.

(** Nothing is dropped as already merged.  Main subsumes the delta of a
    branch exactly when every change the branch made, item by item and field by
    field, is in main; then nothing conflicts. *)
Theorem subsumed_exact base branch main base_head branch_head delta :
  graphs_ok base branch main = true → build_semantic_delta base branch base_head branch_head = Ok delta →
  (semantic_delta_is_subsumed delta main = true ↔
   everywhere (λ b br m, _branch_changes_are_present b br m = true) base branch main) ∧
  (semantic_delta_is_subsumed delta main = true → detect_branch_merge_conflicts base branch main = []).
Proof.
  intros Hok Hd.
  assert (semantic_delta_is_subsumed delta main = true ↔
    everywhere (λ b br m, _branch_changes_are_present b br m = true) base branch main) as Hiff.
  { pose proof (globals_subsumed _ _ main _ _ _ Hd) as Hglobals. unfold build_semantic_delta in Hd. simplify_res.
    unfold semantic_delta_is_subsumed. rewrite !andb_true_iff, Hglobals. cbn [gd_nodes gd_edges gd_proposals gd_ambiguities gd_glossary].
    unfold graphs_ok in Hok. apply andb_true_iff in Hok as [Hok Hg]. apply andb_true_iff in Hok as [Hok Ha].
    apply andb_true_iff in Hok as [Hok Hp]. apply andb_true_iff in Hok as [Hn He].
    rewrite !collection_delta_subsumed by done.
    split; [intros (((((?&?)&?)&?)&?)&?); by split|intros []; by split_and!]. }
  split; [exact Hiff|]. intros [Pn Pe Pp Pa Pg Pf]%Hiff. pose proof Hok as Hall. unfold graphs_ok in Hall.
  rewrite !andb_true_iff in Hall. destruct Hall as [[[[Hn He] Hp] Ha] Hg].
  unfold detect_branch_merge_conflicts. rewrite !app_nil, !collection_conflicts_nil, bind_nil by done.
  split_and!; try (intros id; by eapply present_mergeable; [eapply io_main, collection_items|]).
  intros field Hf. apply global_conflicts_nil; [done|]. apply present_mergeable; [by apply global_wf|by apply Pf].
Qed.
