(* ===== verification/MergeConformance.v ===== *)
(** What a conforming merge candidate promises: its own operations leave
    everything alone that the branch did not change, and the merged graph carries
    every change of the branch that no conflict covers. *)

From S2P Require Export BranchMerge WritePaths.

(** ** The paths of two graphs *)

(** The documents of a graph repeat no key. *)
Definition documents_wf (st : GraphState) : bool := wf_dict (_graph_semantic_document st).

Lemma documents_wf_get st k v : documents_wf st = true → dget (_graph_semantic_document st) k = Some v → wf_doc v = true.
Proof. apply wf_dict_get. Qed.

(** The paths of one collection are complete below its name. *)
Lemma collection_paths_complete name old new q :
  wf_dict old = true → wf_dict new = true →
  opt_eqb (value_at (PDict old) q) (value_at (PDict new) q) = false →
  ∃ p, p ∈ collection_write_paths name old new ∧ related p (name :: q).
Proof.
  intros Ho Hn.
  assert (∀ k q, opt_eqb (dget old k ≫= λ v, value_at v q) (dget new k ≫= λ v, value_at v q) = false →
    ∃ p, p ∈ collection_write_paths name old new ∧ related p (name :: k :: q)) as Hkey.
  { intros k q' Hne. unfold collection_write_paths.
    assert (k ∈ sorted_keys [old; new]) as Hk.
    { destruct (decide (k ∈ sorted_keys [old; new])) as [|Hk]; [done|]. unfold sorted_keys in Hk.
      rewrite elem_of_sorted_set, elem_of_list_to_set in Hk. cbn in Hk. rewrite app_nil_r, elem_of_app in Hk.
      by rewrite !(proj2 (dget_none_keys _ _)) in Hne by naive_solver. }
    destruct (dget old k) as [v|] eqn:Hv, (dget new k) as [w|] eqn:Hw; cbn in Hne; [| | |done].
    1: destruct (write_paths_complete v w [name; k] q' (wf_dict_get old k v Ho Hv) (wf_dict_get new k w Hn Hw) Hne) as (p & Hp & Hr);
       exists p; split; [|exact Hr]; apply list_elem_of_bind; exists k; split; [by rewrite Hv, Hw|done].
    all: exists [name; k; "$"]; split; [apply list_elem_of_bind; exists k; split; [|done];
           rewrite ?Hv, ?Hw; by apply list_elem_of_singleton|]; left; by exists q'. }
  destruct q as [|k q].
  - intros Hne. destruct (dict_difference old new Ho Hn Hne) as [k Hk].
    destruct (Hkey k []) as (p & Hp & Hr); [by destruct (dget old k), (dget new k)|].
    exists p. split; [done|]. by apply (related_shorter _ [name] [k]).
  - cbn [value_at]. intros Hne. apply Hkey. by destruct (dget old k), (dget new k).
Qed.

Lemma global_paths_complete field old new q :
  wf_doc old = true → wf_doc new = true → opt_eqb (value_at old q) (value_at new q) = false →
  ∃ p, p ∈ global_write_paths field old new ∧ related p (field :: q).
Proof.
  intros Ho Hn Hne.
  assert (py_eqb old new = false) as He.
  { destruct (py_eqb old new) eqn:He; [|done]. by rewrite (value_at_eqb _ _ q Ho Hn He) in Hne. }
  destruct (write_paths_complete old new [field] q Ho Hn Hne) as (p & Hp & Hr).
  assert (∀ b a, (is_dict b && is_dict a) = false → py_eqb b a = false →
    ∃ p, p ∈ global_write_paths field b a ∧ related p (field :: q)) as Hleaf.
  { intros b a Hd Heq. exists [field; "$"]. split; [|left; by exists q].
    unfold global_write_paths. destruct b; rewrite ?Heq; try (by apply list_elem_of_singleton).
    destruct a; rewrite ?Heq; try (by apply list_elem_of_singleton). done. }
  destruct (is_dict old && is_dict new) eqn:Hd; [|by apply Hleaf].
  exists p. split; [|done]. destruct old; try done. by destruct new.
Qed.

(** Every difference of two graphs lies on a write path. *)
Lemma graph_paths_complete before after q :
  documents_wf before = true → documents_wf after = true →
  opt_eqb (value_at (PDict (_graph_semantic_document before)) q)
          (value_at (PDict (_graph_semantic_document after)) q) = false →
  ∃ p, p ∈ _graph_semantic_write_paths before after ∧ related p q.
Proof.
  intros Hb Ha.
  assert (∀ k q, opt_eqb (value_at (PDict (_graph_semantic_document before)) (k :: q))
      (value_at (PDict (_graph_semantic_document after)) (k :: q)) = false →
    ∃ p, p ∈ _graph_semantic_write_paths before after ∧ related p (k :: q)) as Hkey.
  { clear q. intros k q Hne. unfold _graph_semantic_write_paths.
    assert (∀ st v, dget (_graph_semantic_document st) k = Some v → documents_wf st = true → wf_doc v = true) as Hget.
    { intros st v Hv Hw. by eapply documents_wf_get. }
    pose proof (λ v H, Hget before v H Hb) as Gb. pose proof (λ v H, Hget after v H Ha) as Ga. clear Hget.
    cbn [value_at] in Hne. unfold _graph_semantic_document in Hne, Gb, Ga. cbn [dget] in Hne, Gb, Ga.
    let close p Hp Hr := exists p; split; [|exact Hr]; clear Hr Gb Ga Hne; subst k; unfold global_fields;
      rewrite !bind_cons, !elem_of_app; tauto in
    repeat match type of Hne with context [decide (k = ?name)] =>
      let Hk := fresh "Hk" in destruct (decide (k = name)) as [Hk|Hk];
      [specialize (Gb _ eq_refl); specialize (Ga _ eq_refl);
       first [destruct (collection_paths_complete k _ _ q Gb Ga Hne) as (p & Hp & Hr); close p Hp Hr
             |destruct (global_paths_complete k _ _ q Gb Ga Hne) as (p & Hp & Hr); close p Hp Hr]|] end.
    done. }
  destruct q as [|k q]; [|apply Hkey].
  intros Hne. destruct (dict_difference _ _ Hb Ha Hne) as [k Hk].
  destruct (Hkey k []) as (p & Hp & Hr).
  { cbn [value_at]. by destruct (dget (_graph_semantic_document before) k), (dget (_graph_semantic_document after) k). }
  exists p. split; [done|]. by apply (related_shorter _ [] [k]).
Qed.

(** ** Covering *)

(** No key on the path is spelled like the subtree marker. *)
Definition plain (p : path) : bool := negb (mem "$" (path_parts p)).

Lemma subtree_snoc p : is_subtree p = true → ∃ p', p = p' ++ ["$"] ∧ path_parts p = p'.
Proof.
  destruct p as [|s p _] using rev_ind; [done|]. unfold is_subtree. rewrite last_snoc. intros Hs.
  pose proof Hs as ->%bool_decide_eq_true. exists p. by rewrite path_parts_snoc, Hs.
Qed.

Lemma covers_parts a p : plain a = true → _semantic_path_covers a p = true → path_parts a `prefix_of` path_parts p.
Proof.
  unfold plain, _semantic_path_covers, mem, starts_with. rewrite negb_true_iff, bool_decide_eq_false. intros Ha.
  destruct (is_subtree a) eqn:Hs; [|by intros ->%bool_decide_eq_true].
  apply subtree_snoc in Hs as (a' & -> & Hparts). rewrite Hparts in Ha |- *. rewrite removelast_last.
  intros Ht%bool_decide_eq_true. assert (a' `prefix_of` p) as Hp.
  { exists (drop (length a') p). by rewrite <-Ht at 1; rewrite take_drop. }
  destruct p as [|s p _] using rev_ind; [done|]. rewrite path_parts_snoc. unfold str_eqb.
  case_bool_decide as Hd; [|done]. subst s. destruct Hp as [k Hk].
  destruct k as [|x k _] using rev_ind.
  - rewrite app_nil_r in Hk. exfalso. apply Ha. rewrite <-Hk. apply elem_of_app. right. by left.
  - rewrite app_assoc in Hk. apply app_inj_tail in Hk as [-> _]. by exists k.
Qed.

Lemma related_covered a p q : path_parts a `prefix_of` path_parts p → related p q → related a q.
Proof.
  intros Hap [Hp|Hp]; [left; by etrans|]. by apply (prefix_weak_total _ _ (path_parts p)).
Qed.

(** ** Candidates *)

Section candidates.
Context `{NodeAdapter, RecordAdapter, TextLib, CanonicalHash}.

(** The graphs between the initiating operations of a candidate. *)
Fixpoint merge_timeline (allowed : list path) (prepared : Patch) (st : GraphState) (indexes : list nat) : list GraphState :=
  st :: match indexes with
        | [] => []
        | i :: indexes =>
            match replay_action allowed prepared st i with
            | MergeOk next => merge_timeline allowed prepared next indexes
            | Problem _ => []
            end
        end.

(** The value of a path in a graph. *)
Definition graph_value (st : GraphState) (q : path) : option pyval := value_at (PDict (_graph_semantic_document st)) q.

Lemma merge_bind_ok {A B} (m : merge_result A) (k : A → merge_result B) b :
  m ≫= k = MergeOk b → ∃ a, m = MergeOk a ∧ k a = MergeOk b.
Proof. destruct m; [by eexists|done]. Qed.

Lemma demand_ok c e u : demand c e = MergeOk u → c = true.
Proof. by destruct c. Qed.

Lemma replay_action_ok allowed prepared st i next :
  replay_action allowed prepared st i = MergeOk next →
  ∃ op, p_ops prepared !! i = Some op ∧ apply_valid_patch st (one_action prepared op) = Ok next ∧
    ∀ p, p ∈ _graph_semantic_write_paths st next → ∃ a, a ∈ allowed ∧ _semantic_path_covers a p = true.
Proof.
  unfold replay_action. destruct (p_ops prepared !! i) as [op|]; [|done].
  intros (u & _ & Ha)%merge_bind_ok. destruct (apply_valid_patch st (one_action prepared op)) as [next'|e] eqn:Hap; [|done].
  apply merge_bind_ok in Ha as (u' & Hd%demand_ok & [= ->]). exists op. split_and!; [done..|].
  intros p Hp. rewrite forallb_forall in Hd. apply list_elem_of_In, Hd, existsb_exists in Hp as (a & Ha%list_elem_of_In & Hc).
  by exists a.
Qed.

(** The initiating operations, applied one after the other. *)
Lemma replay_actions_ok allowed prepared indexes st staged :
  replay_actions allowed prepared st indexes = MergeOk staged →
  ∃ ops, omap (λ i, p_ops prepared !! i) indexes = ops ∧ length ops = length indexes ∧
    res_fold (λ st op, apply_valid_patch st (one_action prepared op)) st ops = Ok staged.
Proof.
  revert st. induction indexes as [|i indexes IH]; intros st Hr.
  { injection Hr as ->. by exists []. }
  apply merge_bind_ok in Hr as (next & (op & Hop & Hap & _)%replay_action_ok & Hr).
  destruct (IH next Hr) as (ops & Hops & Hlen & Hf). exists (op :: ops).
  cbn [omap list_omap res_fold]. rewrite Hop. split_and!; [by f_equal|cbn [length]; lia|]. by rewrite Hap.
Qed.

Lemma wf_value_at v q : wf_doc v = true → wf_opt (value_at v q) = true.
Proof.
  revert v. induction q as [|k q IH]; intros v Hv; [done|]. cbn [value_at]. destruct v as [| | | | | | |d|]; try done.
  destruct (dget d k) as [w|] eqn:Hw; [|done]. by apply IH, (wf_dict_get d k).
Qed.

Lemma timeline_staged allowed prepared indexes st staged :
  Forall (λ st, documents_wf st = true) (merge_timeline allowed prepared st indexes) →
  replay_actions allowed prepared st indexes = MergeOk staged → documents_wf staged = true.
Proof.
  revert st. induction indexes as [|i indexes IH]; intros st Hwf Hr; cbn [merge_timeline] in Hwf; apply Forall_cons in Hwf as [Hst Hwf].
  { by injection Hr as <-. }
  apply merge_bind_ok in Hr as (next & Ha & Hr). rewrite Ha in Hwf. by eapply IH.
Qed.

(** What the allowed paths do not touch keeps its value. *)
Lemma replay_actions_frame allowed prepared indexes st staged q :
  forallb plain allowed = true → Forall (λ st, documents_wf st = true) (merge_timeline allowed prepared st indexes) →
  replay_actions allowed prepared st indexes = MergeOk staged → (∀ a, a ∈ allowed → ¬ related a q) →
  opt_eqb (graph_value st q) (graph_value staged q) = true.
Proof.
  intros Hplain Hwf Hr Hq. revert st Hwf Hr. induction indexes as [|i indexes IH]; intros st Hwf Hr.
  { injection Hr as ->. apply opt_eqb_refl. cbn [merge_timeline] in Hwf. apply Forall_cons in Hwf as [Hwf _].
    unfold graph_value. by apply wf_value_at. }
  apply merge_bind_ok in Hr as (next & Ha & Hr). cbn [merge_timeline] in Hwf. rewrite Ha in Hwf.
  apply Forall_cons in Hwf as [Hst Hwf]. assert (documents_wf next = true) as Hnext.
  { destruct indexes; apply Forall_cons in Hwf as [? _]; done. }
  assert (documents_wf staged = true) as Hstaged by by eapply timeline_staged.
  apply (opt_eqb_trans _ (graph_value next q)); [by apply wf_value_at..| |by apply IH].
  destruct (opt_eqb _ _) eqn:Hne; [done|]. exfalso.
  destruct (graph_paths_complete st next q Hst Hnext Hne) as (p & Hp & Hrel).
  apply replay_action_ok in Ha as (op & _ & _ & Hcov). destruct (Hcov p Hp) as (a & Hin & Hc).
  apply (Hq a Hin). eapply related_covered; [|exact Hrel]. apply covers_parts; [|done].
  rewrite forallb_forall in Hplain. by apply Hplain, list_elem_of_In.
Qed.

(** The operations of a candidate that no rule generated, in written order. *)
Definition initiating_indexes (tr : TransitionTrace) : list nat :=
  sorted_nat_list (tt_initiating_groups tr ≫= tig_operation_indexes).

(** The conformance check taken apart, for the commit of a merge. *)
Lemma conformance_inv c main prepared graph :
  validate_branch_merge_candidate_conformance c main prepared graph = MergeOk tt →
  ∃ tr staged, p_transition prepared = Some tr ∧
    replay_actions (allowed_paths c) prepared main (initiating_indexes tr) = MergeOk staged ∧
    ∀ p, p ∈ allowed_paths c →
      (∃ conflict, conflict ∈ mc_deterministic_conflicts c ∧ _semantic_path_covers (conflict_path conflict) p = true) ∨
      opt_eqb (_semantic_path_value (_graph_semantic_document (mi_branch_graph (mc_input c))) p)
              (_semantic_path_value (_graph_semantic_document graph) p) = true.
Proof.
  unfold validate_branch_merge_candidate_conformance. destruct (p_transition prepared) as [tr|]; [|done].
  intros (staged & Hr & Hd%demand_ok)%merge_bind_ok. exists tr, staged. split_and!; [done..|]. intros p Hp.
  rewrite forallb_forall in Hd. unfold mandatory_paths in Hd.
  destruct (existsb (λ item, _semantic_path_covers item p) (_branch_conflict_paths (mc_deterministic_conflicts c))) eqn:Hc.
  - left. apply existsb_exists in Hc as (item & (conflict & -> & Hin)%list_elem_of_In%list_elem_of_fmap & Hcov). by exists conflict.
  - right. apply Hd, list_elem_of_In, elem_of_bfilter. by rewrite Hc.
Qed.

(** C6: a merge does what the branch did and nothing else.  When a candidate
    passes the conformance check, its initiating operations apply to main one
    after the other, no value changes at a path unrelated to what the branch
    changed since its base, and the merged graph has the branch's value at every
    path the branch changed, unless a reported conflict covers it. *)
Theorem conforming_merge_bounded c main prepared graph :
  validate_branch_merge_candidate_conformance c main prepared graph = MergeOk tt →
  forallb plain (allowed_paths c) = true →
  ∃ tr, p_transition prepared = Some tr ∧
    (Forall (λ st, documents_wf st = true) (merge_timeline (allowed_paths c) prepared main (initiating_indexes tr)) →
     ∃ staged, res_fold (λ st op, apply_valid_patch st (one_action prepared op)) main
                 (omap (λ i, p_ops prepared !! i) (initiating_indexes tr)) = Ok staged ∧
       ∀ q, (∀ a, a ∈ allowed_paths c → ¬ related a q) → opt_eqb (graph_value main q) (graph_value staged q) = true) ∧
    ∀ p, p ∈ allowed_paths c →
      (∃ conflict, conflict ∈ mc_deterministic_conflicts c ∧ _semantic_path_covers (conflict_path conflict) p = true) ∨
      opt_eqb (_semantic_path_value (_graph_semantic_document (mi_branch_graph (mc_input c))) p)
              (_semantic_path_value (_graph_semantic_document graph) p) = true.
Proof.
  intros (tr & staged & Htr & Hr & Hcarry)%conformance_inv Hplain. exists tr. split; [done|]. split; [|done].
  intros Hwf. destruct (replay_actions_ok _ _ _ _ _ Hr) as (ops & <- & _ & Hf). exists staged. split; [done|].
  intros q Hq. by eapply replay_actions_frame.
Qed.
End candidates.
