(* ===== verification/HealthyLog.v ===== *)
(** Healthy logs: when the replay of the history manager is complete, what a
    file appended to the log does to it, and why a manifest that only grew
    replays the same. *)

From S2P Require Export History.

#[local] Arguments replay_step : simpl never.

Section healthy.
Context `{NodeAdapterLaws} `{!RecordAdapter, !TextLib, !CanonicalHash}.
Implicit Types (m : Manifest) (s : Store) (p : Patch) (st : GraphState).

(** The replay is complete: every file decodes, the scope is recorded, the head
    chain holds, and the kernel accepts every Patch. *)
Record healthy m s (patches : list Patch) (scope : list string) : Prop := {
  hl_decode : decode_log (st_log s) = (patches, None);
  hl_scope : initial_scope m (st_scope_base s) (st_log s) patches = (scope, None);
  hl_chain : accepted_transition_head_chain_failure patches main_target None = None;
  hl_complete : gs_replay_status (mat_state (materialize_patches (replay_manifest m) patches scope)) =
                  ReplayComplete }.

Definition replay_result m (patches : list Patch) (scope : list string) : MaterializationResult :=
  {| mr_patches := patches; mr_materialization := materialize_patches (replay_manifest m) patches scope |}.

Lemma replay_result_log m patches scope :
  {| mr_patches := patches; mr_materialization := materialize_patches (replay_manifest m) patches scope |} =
  replay_result m patches scope.
Proof. done. Qed.

Lemma healthy_replay m s patches scope :
  healthy m s patches scope → _replay m s = replay_result m patches scope.
Proof. intros []. unfold _replay. by rewrite hl_decode0, hl_scope0, hl_chain0. Qed.

Lemma halt_if_complete_status f r :
  gs_replay_status (mr_state (halt_if_complete f r)) = ReplayComplete →
  f = None ∧ gs_replay_status (mr_state r) = ReplayComplete.
Proof.
  unfold halt_if_complete. destruct f as [f|]; [|done]. case_decide; [done|]. by intros.
Qed.

Lemma earlier_failure_none a b : earlier_failure a b = None → a = None ∧ b = None.
Proof. destruct a, b; simpl; try done. by destruct (_ <? _)%Z. Qed.

(** The manager's replay is complete exactly when the log is healthy. *)
Lemma replay_healthy m s :
  gs_replay_status (mr_state (_replay m s)) = ReplayComplete →
  ∃ patches scope, healthy m s patches scope.
Proof.
  unfold _replay. destruct (decode_log (st_log s)) as [patches structural] eqn:Hd.
  destruct (initial_scope m _ _ patches) as [scope failure] eqn:Hsc.
  intros [Hf Hs]%halt_if_complete_status. destruct failure as [f|]; [done|].
  apply earlier_failure_none in Hf as [-> Hch]. rewrite Hch in Hs.
  exists patches, scope. by split.
Qed.

(** ** Appending a file *)

Lemma decode_log_app l1 l2 patches :
  decode_log l1 = (patches, None) →
  decode_log (l1 ++ l2) = (patches ++ (decode_log l2).1, (decode_log l2).2).
Proof.
  revert patches. induction l1 as [|e l1 IH]; intros patches; simpl.
  { intros [= <-]. by destruct (decode_log l2). }
  destruct (load_entry e) as [p|]; [|done]. destruct (decode_log l1) as [ps f] eqn:Hd.
  cbn [fst snd]. intros [= <- ->]. by rewrite (IH ps eq_refl).
Qed.

Lemma chain_app ps qs target id :
  accepted_transition_head_chain_failure ps target id = None →
  accepted_transition_head_chain_failure (ps ++ qs) target id =
  accepted_transition_head_chain_failure qs target (chain_head id ps).
Proof.
  revert id. induction ps as [|p ps IH]; intros id; simpl; [done|].
  destruct (p_admission p); [|apply IH]. destruct (p_transition p); [|apply IH].
  destruct (_ && _); [apply IH|done].
Qed.

Lemma chain_one p target id :
  continues target id p → accepted_transition_head_chain_failure [p] target id = None.
Proof.
  intros Hc. simpl. destruct (p_admission p) eqn:Ha; [|done]. destruct (p_transition p) as [tr|] eqn:Ht; [|done].
  destruct (Hc tr Ha Ht) as [-> ->]. by rewrite !bool_decide_eq_true_2.
Qed.

(** The scope of a log is recorded, not read from the manifest. *)
Definition recorded_scope (b : ScopeBase) : Prop :=
  match b with ScopeRecorded _ => True | _ => False end.

Lemma initial_scope_recorded m m' b l l' ps ps' scope :
  recorded_scope b → initial_scope m b l ps = (scope, None) → initial_scope m' b l' ps' = (scope, None).
Proof. by destruct b. Qed.

Lemma status_cases st : gs_replay_status st = ReplayComplete ∨ gs_replay_status st = ReplayDegraded.
Proof. destruct (gs_replay_status st); auto. Qed.

(** Appending a file that the replay accepts. *)
Lemma healthy_append m s patches scope e p :
  healthy m s patches scope → recorded_scope (st_scope_base s) → load_entry e = inl p →
  continues main_target (chain_head None patches) p →
  (replay_step (replay_manifest m) (materialize_patches (replay_manifest m) patches scope) p).2 = true →
  healthy m (set_log_entries (st_log s ++ [e]) s) (patches ++ [p]) scope ∧
  materialize_patches (replay_manifest m) (patches ++ [p]) scope =
    (replay_step (replay_manifest m) (materialize_patches (replay_manifest m) patches scope) p).1.
Proof.
  intros [Hd Hsc Hch Hst] Hrec He Hcont Hstep.
  assert (materialize_patches (replay_manifest m) (patches ++ [p]) scope =
    (replay_step (replay_manifest m) (materialize_patches (replay_manifest m) patches scope) p).1) as Heq.
  { unfold materialize_patches in *. rewrite replay_app by (done || apply replay_start_wf).
    rewrite decide_True by exact Hst. cbn [replay]. by destruct (_.2). }
  split; [|exact Heq]. split; cbn [set_log_entries st_log st_scope_base].
  - rewrite (decode_log_app _ _ patches) by done. simpl. by rewrite He.
  - by eapply initial_scope_recorded.
  - rewrite (chain_app patches) by done. by apply chain_one.
  - rewrite Heq. rewrite (replay_step_status (replay_manifest m)) by apply replayed_graph_wf.
    by rewrite Hstep.
Qed.

(** ** A manifest that grew *)

(** The later manifest has the machines, the state repository and the default
    scope of the earlier one, and at least its repositories. *)
Record manifest_grows m m' : Prop := {
  mg_repositories : list_to_set (repository_aliases m) ⊆@{gset string} list_to_set (repository_aliases m');
  mg_machines : mf_machines m' = mf_machines m;
  mg_default : mf_default_run_truth_scope m' = mf_default_run_truth_scope m;
  mg_state : mf_state_repository m' = mf_state_repository m;
  mg_some : repository_aliases m ≠ [] }.

Lemma effective_manifest m mode scope st : repository_aliases m ≠ [] →
  effective_repositories (replay_settings (manifest_settings m mode scope) st) =
  list_to_set (repository_aliases m).
Proof.
  intros Hne. unfold effective_repositories. cbn.
  destruct (py_sorted (repository_aliases m)) as [|a l] eqn:Hs.
  { pose proof (py_sorted_Permutation (repository_aliases m)) as Hp. rewrite Hs in Hp.
    by apply Permutation_nil_l in Hp. }
  apply set_eq. intros x. pose proof (elem_of_py_sorted x (repository_aliases m)) as Hx.
  rewrite Hs in Hx. set_solver.
Qed.

#[export] Instance manifest_grows_trans : Transitive manifest_grows.
Proof. intros m1 m2 m3 [] []. split; try congruence. set_solver. Qed.

Lemma manifest_grows_refl m : repository_aliases m ≠ [] → manifest_grows m m.
Proof. by split. Qed.

Lemma grows_aliases m m' : manifest_grows m m' → repository_aliases m' ≠ [].
Proof.
  intros [Hr _ _ _ Hne] Hm'. rewrite Hm' in Hr. destruct (repository_aliases m) as [|a l]; [done|].
  assert (a ∈@{gset string} list_to_set []) as Ha by (apply Hr; set_solver). set_solver.
Qed.

Lemma manifest_settings_grow m m' : manifest_grows m m' →
  settings_grow (replay_manifest m) (replay_manifest m').
Proof.
  intros Hg st. pose proof (grows_aliases _ _ Hg). destruct Hg as [Hr Hm Hd Hs Hne].
  assert (effective_repositories (replay_settings (replay_manifest m) st) ⊆
          effective_repositories (replay_settings (replay_manifest m') st)) as Hrep.
  { unfold replay_manifest. by rewrite !effective_manifest. }
  split; cbn; rewrite ?Hm, ?Hd, ?Hs; done.
Qed.

(** What is admitted under a manifest replays under it. *)
Lemma admission_settings m st : 
  replays_settings (manifest_settings m ModeAdmission (gs_project_truth_scope st))
    (replay_settings (replay_manifest m) st).
Proof. by split. Qed.

Lemma healthy_grows m m' s patches scope :
  manifest_grows m m' → recorded_scope (st_scope_base s) → healthy m s patches scope →
  healthy m' s patches scope ∧
  mat_state (materialize_patches (replay_manifest m') patches scope) =
    mat_state (materialize_patches (replay_manifest m) patches scope).
Proof.
  intros Hg%manifest_settings_grow Hrec [Hd Hsc Hch Hst].
  assert (same_materialization (materialize_patches (replay_manifest m) patches scope)
            (materialize_patches (replay_manifest m') patches scope)) as Hsame.
  { unfold materialize_patches in *. apply replay_grow; [exact Hg|apply replay_start_wf|by split_and!|done|exact Hst]. }
  destruct Hsame as [Heq _]. split; [|done]. split; [done|by eapply initial_scope_recorded|done|].
  by rewrite <-Heq.
Qed.

(** A healthy log depends on the files and the recorded scope alone. *)
Lemma healthy_store m s s' patches scope :
  st_log s' = st_log s → st_scope_base s' = st_scope_base s →
  healthy m s patches scope → healthy m s' patches scope.
Proof. intros Hl Hb []. split; rewrite ?Hl, ?Hb; done. Qed.

(** Laying the store out records the scope the replay already starts from. *)
Lemma healthy_layout m s patches scope :
  healthy m s patches scope →
  healthy m (ensure_layout m s).1 patches scope ∧ recorded_scope (st_scope_base (ensure_layout m s).1) ∧
  st_log (ensure_layout m s).1 = st_log s ∧ st_document (ensure_layout m s).1 = st_document s.
Proof.
  intros [Hd Hsc Hch Hst]. unfold ensure_layout, modify. cbn [fst].
  destruct (st_scope_base s) as [| |l] eqn:Hb; cbn [set_scope_base st_scope_base st_log st_document].
  - split_and!; try done. split; cbn [set_scope_base st_scope_base st_log]; try done.
    cbn in Hsc |- *. by destruct (is_nil _).
  - by destruct (st_log s).
  - rewrite Hb. split_and!; try done. split; rewrite ?Hb; done.
Qed.

(** ** Writing the scope of the manifest *)

Lemma load_manifest_fields d m : load_manifest d = Ok m →
  repository_aliases m = repository_aliases d ∧ mf_machines m = mf_machines d ∧
  mf_default_run_truth_scope m = mf_default_run_truth_scope d ∧
  mf_state_repository m = mf_state_repository d ∧ mf_truth_scope m = mf_truth_scope d ∧
  repository_aliases m ≠ [].
Proof.
  intros (u & _ & (p1 & _ & Hm)%res_bind_ok)%res_bind_ok.
  apply validate_references_ok in Hm as ([_ _ _ Hsc Hst _ _] & (ps & ->) & _).
  split_and!; try done. apply Hsc in Hst. intros Hnil. rewrite Hnil in Hst. by apply elem_of_nil in Hst.
Qed.

Lemma project_scope_grows m d scope r d' m' :
  load_manifest d = Ok m → _project_scope_content m d scope r = Ok d' → load_manifest d' = Ok m' →
  manifest_grows m m' ∧ mf_truth_scope m' = scope.
Proof.
  intros Hm (u & _ & (m2 & _ & Hd)%res_bind_ok)%res_bind_ok Hm'. apply Ok_inj in Hd as <-.
  apply load_manifest_fields in Hm as (Hr & Hma & Hde & Hst & _ & Hne).
  apply load_manifest_fields in Hm' as (Hr' & Hma' & Hde' & Hst' & Hsc' & _).
  cbn [with_scope mf_machines mf_default_run_truth_scope mf_state_repository mf_truth_scope] in *.
  split; [|done]. split; [|congruence..|done]. rewrite Hr, Hr'. unfold repository_aliases. cbn.
  destruct r as [r|]; [|done]. destruct (mem _ _); [done|]. rewrite fmap_app, list_to_set_app_L. set_solver.
Qed.

Lemma project_scope_loads m d scope r d' :
  _project_scope_content m d scope r = Ok d' → ∃ m', load_manifest d' = Ok m'.
Proof. intros (u & _ & (m2 & Hm2 & Hd)%res_bind_ok)%res_bind_ok. apply Ok_inj in Hd as <-. eauto. Qed.
End healthy.
