(* ===== verification/Admission.v ===== *)
(** Admitting Patches ([history/manager.py]): what the preparation of a
    transition hands to the kernel is what the replay of the committed Patch
    finds again, and the Patch that is written decodes. *)

From S2P Require Export HealthyLog.

#[local] Arguments replay_step : simpl never.

(** ** Attribution and the envelope *)

Section envelopes.
Context `{TextLib}.
Implicit Types (p : Patch) (cfg : HistoryConfig).

Lemma require_apply_dispatch member auth p d :
  require_apply member auth p = Ok d → ata_dispatch_authority auth = Some d.
Proof.
  unfold require_apply. intros Ha. destruct (ata_dispatch_authority auth); [|done].
  destruct (ata_authorized_by auth); [|done]. by simplify_res.
Qed.

Lemma attributed_envelope p a b c d :
  producer_envelope (attributed p a b c d) = attributed (producer_envelope p) a b c d.
Proof. done. Qed.

Lemma at_revision_envelope p r : producer_envelope (at_revision r p) = producer_envelope p.
Proof. done. Qed.

Lemma map_proposals_envelope f p : producer_envelope (map_proposals f p) = producer_envelope p.
Proof. done. Qed.

(** The task attribution is the task's, whatever the Patch. *)
Lemma task_attribution_fields cfg p q t p' q' :
  p_source_operation_id p = p_source_operation_id q →
  task_attribution cfg p t = Ok p' → task_attribution cfg q t = Ok q' →
  ∃ a b c d, p' = attributed p a b c d ∧ q' = attributed q a b c d.
Proof.
  unfold task_attribution. intros Hop. rewrite Hop. destruct (p_source_operation_id q) as [op|]; [|done].
  intros (u1 & -> & Hp)%res_bind_ok (u2 & Hu & Hq)%res_bind_ok. injection Hu as <-.
  apply res_bind_ok in Hp as ([resolved member] & Hr & Hp). apply res_bind_ok in Hq as ([r2 m2] & Hr2 & Hq).
  rewrite Hr in Hr2. injection Hr2 as <- <-. apply res_bind_ok in Hp as (u3 & _ & Hp). apply res_bind_ok in Hq as (u4 & _ & Hq).
  apply res_bind_ok in Hp as (d & Hd & Hp). apply res_bind_ok in Hq as (d' & Hd' & Hq).
  assert (d' = d) as ->.
  { apply require_apply_dispatch in Hd, Hd'. congruence. }
  apply res_bind_ok in Hp as (u5 & _ & Hp). apply res_bind_ok in Hq as (u6 & _ & Hq).
  destruct (ata_authorized_by resolved) as [human|]; [|done].
  apply res_bind_ok in Hp as (a & Ha & Hp). apply res_bind_ok in Hq as (a' & Ha2 & Hq).
  rewrite Ha in Ha2. injection Ha2 as <-. apply res_bind_ok in Hp as (u7 & _ & [= <-]). apply res_bind_ok in Hq as (u8 & _ & [= <-]).
  do 4 eexists. by split.
Qed.

Lemma stamp_envelope cfg p q a t p' q' :
  producer_envelope p = producer_envelope q →
  _stamp_attribution_for_admission cfg p a t = Ok p' →
  _stamp_attribution_for_admission cfg q a t = Ok q' →
  producer_envelope p' = producer_envelope q'.
Proof.
  intros Henv. assert (p_kind p = p_kind q) as Hk by exact (f_equal p_kind Henv).
  unfold _stamp_attribution_for_admission. rewrite Hk. destruct (negb _); [by intros [= <-] [= <-]|].
  case_decide.
  { intros (u & _ & [= <-])%res_bind_ok (u' & _ & [= <-])%res_bind_ok. done. }
  case_decide.
  { destruct a as [a|]; [|done]. intros (b & -> & [= <-])%res_bind_ok (b' & Hb & [= <-])%res_bind_ok.
    injection Hb as <-. by rewrite !attributed_envelope, Henv. }
  intros (u & _ & Hp)%res_bind_ok (u' & _ & Hq)%res_bind_ok.
  destruct (task_attribution_fields cfg p q t p' q' (f_equal p_source_operation_id Henv) Hp Hq)
    as (b & c & d & e & -> & ->). by rewrite !attributed_envelope, Henv.
Qed.

(** A stamp of a Patch that already names its authorizer changes nothing. *)
Lemma stamp_attributed cfg p a t p' :
  p_kind p ≠ KApproval → p_authorized_by p ≠ None →
  _stamp_attribution_for_admission cfg p a t = Ok p' → p' = p.
Proof.
  intros Hk Ha. unfold _stamp_attribution_for_admission. destruct (negb _); [by intros [= <-]|].
  case_decide; [by intros (u & _ & [= <-])%res_bind_ok|]. rewrite decide_False by done.
  intros (u & _ & Hp)%res_bind_ok. unfold task_attribution in Hp.
  destruct (p_source_operation_id p) as [op|]; [|done].
  apply res_bind_ok in Hp as (u1 & _ & Hp). apply res_bind_ok in Hp as ([resolved member] & _ & Hp).
  apply res_bind_ok in Hp as (u3 & _ & Hp). apply res_bind_ok in Hp as (d & _ & Hp).
  apply res_bind_ok in Hp as (u5 & _ & Hp). destruct (ata_authorized_by resolved) as [human|]; [|done].
  apply res_bind_ok in Hp as (b & _ & Hp). apply res_bind_ok in Hp as (u7 & Hs%require_ok & [= <-]).
  apply orb_true_iff in Hs as [Hs|Hs]; apply bool_decide_eq_true in Hs; [congruence|].
  injection Hs as <- <- <- <-. apply attributed_same.
Qed.
End envelopes.

(** ** Prepared sources *)

Section sources.
Context `{NodeAdapterLaws} `{!RecordAdapter, !TextLib, !CanonicalHash}.
Implicit Types (cfg : HistoryConfig) (m d : Manifest) (p : Patch) (st : GraphState).

(** A prepared source is its raw Patch, attributed, at the new revision, with
    the names its Proposals relate to. *)
Inductive prepares cfg (auth : option AuthorizedHuman) (target : GraphTargetRef) (revision : Z) (raw : Patch) :
    Patch → Prop :=
  | prepares_intro stamped validation_state candidate :
      _stamp_attribution_for_admission cfg raw auth target = Ok stamped →
      prepares cfg auth target revision raw
        (finalize_patch_bookkeeping
           (prepare_patch_bookkeeping validation_state (at_revision revision stamped)) candidate).

Lemma refused_rejected cfg m d auth target rev cur st report raw p r :
  prepare_sources cfg m d auth target rev cur st report raw = Done (Refused p r) → rejected r = true.
Proof.
  revert st report. induction raw as [|q raw IH]; intros st report; [done|]. cbn [prepare_sources].
  intros (p' & _ & Hq)%outcome_bind_done. cbv zeta in Hq.
  destruct (rejected (validate_patch _ _ _)) eqn:Hrej.
  { injection Hq as <- <-. rewrite rejected_app. apply orb_true_iff. right. exact Hrej. }
  destruct (apply_valid_patch _ _) as [c|].
  2: { injection Hq as <- <-. by rewrite !rejected_app, orb_true_r. }
  destruct (negb _).
  { injection Hq as <- <-. by rewrite !rejected_app, orb_true_r. }
  apply outcome_bind_done in Hq as ([q' r'|ss r'] & Hrest & Hq); [|done]. injection Hq as <- <-. by eapply IH.
Qed.

(** The report of staged sources: what came before and the messages of theirs. *)
Lemma staged_sources cfg m d auth target rev cur st report raw sources r :
  prepare_sources cfg m d auth target rev cur st report raw = Done (Staged sources r) →
  Forall2 (prepares cfg auth target rev) raw sources ∧
  Forall (λ p, p_transition p = None) sources ∧
  (∃ own, validate_sources (replay_manifest m) cur st sources = (own, false) ∧ rejected own = false) ∧
  (rejected report = false → rejected r = false).
Proof.
  revert st report sources. induction raw as [|q raw IH]; intros st report sources.
  { intros [= <- <-]. split_and!; [constructor..|by exists []|done]. }
  cbn [prepare_sources]. intros (p & Hp & Hq)%outcome_bind_done. cbv zeta in Hq. apply kernel_done in Hp.
  apply res_bind_ok in Hp as (stamped & Hs & [= <-]).
  set (vs := set_revision cur st) in *. set (p := prepare_patch_bookkeeping vs (at_revision rev stamped)) in *.
  destruct (rejected (validate_patch vs p _)) eqn:Hrej; [done|].
  destruct (apply_valid_patch vs p) as [c|] eqn:Hc; [|done]. destruct (negb _); [done|].
  apply outcome_bind_done in Hq as ([q' r'|ss r'] & Hrest & Hq); [done|]. injection Hq as <- <-.
  apply IH in Hrest as (Hall & Hplain & (own & Hown & Hro) & Hr).
  assert (p_transition p = None ∧
    rejected (validate_source_patch vs p (manifest_settings m ModeAdmission (gs_project_truth_scope vs))) = false)
    as [Htr Hvalid].
  { clear -Hrej. unfold validate_patch in Hrej. destruct (p_transition p); [|done].
    unfold _validate_transition_patch in Hrej. by rewrite decide_True in Hrej by done. }
  destruct (finalized_patch_equivalent vs c p (replay_settings (replay_manifest m) vs)) as [Hfv Hfa].
  pose proof (validation_lenient vs p _ _ (admission_settings m vs) Hvalid) as Hreplay.
  split_and!.
  - constructor; [|done]. by apply (prepares_intro cfg auth target rev q stamped vs c).
  - constructor; [exact Htr|done].
  - cbn [validate_sources]. fold vs. rewrite Hfv, Hfa, Hreplay, Hc. rewrite Hown. cbn [fst snd].
    eexists. split; [done|]. by rewrite rejected_app, Hreplay.
  - intros Hrep. apply Hr. by rewrite rejected_app, Hrep.
Qed.

Lemma prepares_envelope cfg auth target rev p q p' q' :
  producer_envelope p = producer_envelope q →
  prepares cfg auth target rev p p' → prepares cfg auth target rev q q' →
  producer_envelope p' = producer_envelope q'.
Proof.
  intros Henv [s1 v1 c1 Hs1] [s2 v2 c2 Hs2]. unfold finalize_patch_bookkeeping, prepare_patch_bookkeeping.
  rewrite !map_proposals_envelope, !at_revision_envelope. by eapply stamp_envelope.
Qed.

(** What preparation keeps of the raw Patch. *)
Lemma prepares_keeps cfg auth target rev p q : prepares cfg auth target rev p q →
  p_revision q = rev ∧ p_kind q = p_kind p ∧ p_run_truth_scope q = p_run_truth_scope p ∧
  p_repositories_read q = p_repositories_read p ∧ p_created_at q = p_created_at p ∧
  p_branch_merge q = p_branch_merge p ∧ p_schema_generation q = p_schema_generation p ∧
  p_transition q = p_transition p ∧ (p_ops q = [] → p_ops p = []).
Proof.
  intros [s v c Hs%stamp_same_work]. unfold same_work in Hs. rewrite Hs.
  split_and!; try done. cbn. by intros ?%fmap_nil_inv%fmap_nil_inv.
Qed.

Lemma prepared_one_producer cfg auth target rev first raw sources :
  Forall2 (prepares cfg auth target rev) raw sources → head raw = Some first → one_producer first raw →
  ∀ first', head sources = Some first' → one_producer first' sources.
Proof.
  intros Hall Hhd [Hne Henv Hsc Hre Hda] first' Hhd'.
  destruct Hall as [|p q raw sources Hp Hall]; [done|]. injection Hhd as ->. injection Hhd' as ->.
  assert (Forall2 (prepares cfg auth target rev) (first :: raw) (first' :: sources)) as Hall' by by constructor.
  pose proof (prepares_keeps _ _ _ _ _ _ Hp) as (_ & Hk & Hks & Hkr & Hkd & _).
  assert (∀ x, x ∈ first' :: sources → ∃ y, y ∈ first :: raw ∧ prepares cfg auth target rev y x) as Hback.
  { intros x Hx. apply list_elem_of_lookup in Hx as [i Hi].
    destruct (Forall2_lookup_r _ _ _ _ _ Hall' Hi) as (y & Hy & Hyx). exists y. split; [|done].
    by eapply list_elem_of_lookup_2. }
  split; rewrite ?Hks, ?Hkr; try done.
  - intros x (y & Hy & (_&_&_&_&_&_&_&_&Hops)%prepares_keeps)%Hback Hnil. by apply (Hne y Hy), Hops.
  - intros x (y & Hy & Hyx)%Hback. eapply prepares_envelope; [|done..]. by apply Henv.
  - rewrite Hk. intros Hkind x (y & Hy & (_&_&_&_&Hd&_)%prepares_keeps)%Hback.
    rewrite Hd, Hkd. by apply Hda.
Qed.
End sources.

(** ** What is written decodes *)

Section decode.
Context `{NodeAdapterLaws} `{!RecordAdapter, !TextLib, !CanonicalHash}.
Implicit Types (cfg : HistoryConfig) (p : Patch).

(** The model validators accept the Patch, as they did when it was built. *)
Definition decodable p : Prop := _decode_persisted_patch p = Ok p.

Lemma decodable_iff p : decodable p ↔
  reject_legacy_proposal_intents_in_current_generation p = true ∧
  branch_merge_attribution_is_complete p = true.
Proof.
  unfold decodable, _decode_persisted_patch. rewrite <-andb_true_iff. by destruct (_ && _).
Qed.

Definition no_legacy_op (op : GraphOperation) : bool :=
  match op with
  | CreateProposals ps => forallb (λ q, negb (existsb intent_is_legacy (prop_ops q))) ps
  | _ => true
  end.

Lemma legacy_iff p : reject_legacy_proposal_intents_in_current_generation p =
  (p_schema_generation p =? 1)%Z || forallb no_legacy_op (p_ops p).
Proof. unfold reject_legacy_proposal_intents_in_current_generation. by destruct (_ =? _)%Z. Qed.

Lemma map_proposals_legacy (f : Proposal → Proposal) p :
  (∀ q, prop_ops (f q) = prop_ops q) →
  reject_legacy_proposal_intents_in_current_generation (map_proposals f p) =
  reject_legacy_proposal_intents_in_current_generation p.
Proof.
  intros Hf. rewrite !legacy_iff. f_equal. cbn [map_proposals with_ops p_ops].
  induction (p_ops p) as [|op l IH]; [done|]. cbn [fmap list_fmap forallb]. rewrite IH. f_equal.
  destruct op; try done. cbn [no_legacy_op]. apply forallb_refresh. intros q. by rewrite Hf.
Qed.

Lemma attributed_legacy p a b c d :
  reject_legacy_proposal_intents_in_current_generation (attributed p a b c d) =
  reject_legacy_proposal_intents_in_current_generation p.
Proof. done. Qed.

Lemma decodable_prepares cfg auth target rev p q :
  prepares cfg auth target rev p q → decodable p → decodable q.
Proof.
  intros [stamped vs c Hs] [Hl Hb]%decodable_iff. apply decodable_iff. split.
  - unfold finalize_patch_bookkeeping, prepare_patch_bookkeeping.
    rewrite !map_proposals_legacy; [| |].
    + pose proof (stamp_same_work _ _ _ _ _ Hs) as Hw. unfold same_work in Hw. by rewrite Hw.
    + done.
    + intros x. unfold finalized_proposal. by destruct (_ !! _).
  - destruct (p_branch_merge p) as [prov|] eqn:Hm.
    + assert (stamped = p) as ->; [|exact Hb].
      unfold branch_merge_attribution_is_complete in Hb. rewrite Hm in Hb.
      destruct (negb (bool_decide (p_kind p = KWork))) eqn:Hk; [done|].
      apply negb_false_iff, bool_decide_eq_true in Hk.
      destruct (bool_decide (p_authorized_by p = None)) eqn:Ha; [by rewrite !orb_true_r in Hb|].
      apply bool_decide_eq_false in Ha. eapply stamp_attributed; [|done|exact Hs]. by rewrite Hk.
    + pose proof (stamp_same_work _ _ _ _ _ Hs) as Hw. unfold same_work in Hw. rewrite Hw.
      unfold branch_merge_attribution_is_complete. cbn. by rewrite Hm.
Qed.

Lemma decodable_redated p d a ms : decodable (redated p d a ms) ↔ decodable p.
Proof. by rewrite !decodable_iff. Qed.

Lemma prepare_head k st sources h r :
  prepare_validated k st sources (Some h) = Ok r →
  ∃ tr, p_transition (prt_patch r) = Some tr ∧ tt_pre_head tr = h ∧
    p_admission (prt_patch r) = AdmissionAccepted.
Proof.
  unfold prepare_validated. destruct sources as [|first rest]; [done|].
  remember (first :: rest) as ps eqn:Hps. intros Hp.
  apply res_bind_ok in Hp as (u1 & _ & Hp). apply res_bind_ok in Hp as (u2 & _ & Hp).
  apply res_bind_ok in Hp as (u3 & _ & Hp). cbv zeta in Hp.
  apply res_bind_ok in Hp as (u4 & _ & Hp). apply res_bind_ok in Hp as (u5 & _ & Hp).
  apply res_bind_ok in Hp as ([[[t g] generated] final] & _ & Hp).
  apply res_bind_ok in Hp as (events & _ & Hp). apply res_bind_ok in Hp as (c & Hc & Hp).
  apply res_bind_ok in Hp as (persisted & _ & Hp). destruct (state_eqb _ _); [|done].
  apply res_bind_ok in Hp as (proj & _ & Hp). apply Ok_inj in Hp as <-.
  unfold _combined_patch in Hc. apply res_bind_ok in Hc as (cursors & _ & Hc). apply Ok_inj in Hc as <-.
  eexists. split; [reflexivity|]. done.
Qed.

(** The committed Patch decodes when it continues the head its merge was
    rebased on. *)
Lemma combined_decodable k st sources h r :
  prepare_validated k st sources (Some h) = Ok r →
  (∀ first, head sources = Some first → one_producer first sources) →
  Forall decodable sources →
  (∀ first prov, head sources = Some first → p_branch_merge first = Some prov →
    bmp_rebased_main_head prov = h) →
  decodable (prt_patch r) ∧
  ∃ first, head sources = Some first ∧ p_revision (prt_patch r) = p_revision first.
Proof.
  intros Hp Hone Hdec Hmerge.
  pose proof Hp as (first & rest & hd & t & g & generated & final & events & tr & -> & Hprep)%prepare_prepared.
  specialize (Hone first eq_refl). specialize (Hmerge first).
  destruct (prepare_head _ _ _ _ _ Hp) as (tr' & Htr & Hhead & _).
  pose proof (pre_combined _ _ _ _ _ _ _ _ _ _ _ _ Hprep) as Hc.
  destruct (combined_envelope _ _ _ _ _ Hone Hc) as (Henv & Hops & _ & Hrev & _).
  assert (decodable first) as [Hl Hb]%decodable_iff by by eapply Forall_inv.
  split; [|by exists first].
  - apply decodable_iff. split.
    + rewrite legacy_iff in Hl |- *.
      replace (p_schema_generation (prt_patch r)) with (p_schema_generation first)
        by exact (eq_sym (f_equal p_schema_generation Henv)).
      destruct (_ =? 1)%Z eqn:Hgen; [done|]. cbn [orb]. rewrite Hops, source_actions_ops, forallb_app.
      apply andb_true_iff. split.
      * apply forallb_forall. intros op (p & Hop & Hin)%list_elem_of_In%list_elem_of_bind.
        rewrite Forall_forall in Hdec. specialize (Hdec p Hin).
        apply decodable_iff in Hdec as [Hd _]. rewrite legacy_iff in Hd.
        replace (p_schema_generation p) with (p_schema_generation first) in Hd
          by exact (eq_sym (f_equal p_schema_generation (op_envelope _ _ Hone p Hin))).
        rewrite Hgen in Hd. cbn [orb] in Hd. rewrite forallb_forall in Hd. by apply Hd, list_elem_of_In.
      * apply forallb_forall. intros op ([op' c] & -> & Hin)%list_elem_of_In%list_elem_of_fmap.
        pose proof (pre_closure _ _ _ _ _ _ _ _ _ _ _ _ Hprep) as Hcl.
        apply transition_closure_inv in Hcl as (init & causes & _ & _ & -> & _).
        by apply guidance_actions_updates in Hin as (id & ch & -> & _).
    + unfold branch_merge_attribution_is_complete in Hb |- *. rewrite Htr.
      replace (p_branch_merge (prt_patch r)) with (p_branch_merge first)
        by exact (eq_sym (f_equal p_branch_merge Henv)).
      destruct (p_branch_merge first) as [prov|] eqn:Hm; [|done].
      rewrite Hhead, (Hmerge prov eq_refl eq_refl), (bool_decide_eq_true_2 (h = h)) by reflexivity.
      replace (p_kind (prt_patch r)) with (p_kind first) by exact (eq_sym (f_equal p_kind Henv)).
      replace (p_author (prt_patch r)) with (p_author first) by exact (eq_sym (f_equal p_author Henv)).
      replace (p_producer (prt_patch r)) with (p_producer first) by exact (eq_sym (f_equal p_producer Henv)).
      replace (p_profile (prt_patch r)) with (p_profile first) by exact (eq_sym (f_equal p_profile Henv)).
      replace (p_authorized_by (prt_patch r)) with (p_authorized_by first)
        by exact (eq_sym (f_equal p_authorized_by Henv)).
      replace (p_task_id (prt_patch r)) with (p_task_id first) by exact (eq_sym (f_equal p_task_id Henv)).
      replace (p_episode_id (prt_patch r)) with (p_episode_id first) by exact (eq_sym (f_equal p_episode_id Henv)).
      destruct (_ || _) in Hb |- *; [done|]. case_decide; [done|]. by case_decide.
Qed.

(** A refused source decodes, and is at the new revision. *)
Lemma refused_source cfg m d auth target rev cur st report raw p r :
  prepare_sources cfg m d auth target rev cur st report raw = Done (Refused p r) →
  ∃ q, q ∈ raw ∧ (decodable q → decodable p) ∧ p_revision p = rev.
Proof.
  revert st report. induction raw as [|q raw IH]; intros st report; [done|]. cbn [prepare_sources].
  intros (p' & Hp' & Hq)%outcome_bind_done. cbv zeta in Hq. apply kernel_done in Hp'.
  apply res_bind_ok in Hp' as (stamped & Hs & [= <-]).
  assert (∀ vs, let p' := prepare_patch_bookkeeping vs (at_revision rev stamped) in
    ∃ q', q' ∈ q :: raw ∧ (decodable q' → decodable p') ∧ p_revision p' = rev) as Hown.
  { intros vs p'. exists q. split; [by left|]. split; [|done].
    intros Hd. pose proof (prepares_intro cfg auth target rev q stamped vs (set_revision 0 vs) Hs) as Hpr.
    apply (decodable_prepares _ _ _ _ _ _ Hpr) in Hd. revert Hd. rewrite !decodable_iff.
    unfold finalize_patch_bookkeeping. rewrite map_proposals_legacy; [done|].
    intros x. unfold finalized_proposal. by destruct (_ !! _). }
  destruct (rejected (validate_patch _ _ _)); [injection Hq as <- _; apply Hown|].
  destruct (apply_valid_patch _ _) as [c|]; [|injection Hq as <- _; apply Hown].
  destruct (negb _); [injection Hq as <- _; apply Hown|].
  apply outcome_bind_done in Hq as ([q' r'|ss r'] & Hrest & Hq); [|done]. injection Hq as <- <-.
  apply IH in Hrest as (x & Hx & ?). exists x. split; [by right|done].
Qed.
End decode.

(** ** Candidates *)

Section candidates.
Context `{NodeAdapterLaws} `{!RecordAdapter, !TextLib, !CanonicalHash}.
Implicit Types (cfg : HistoryConfig) (m d : Manifest) (p : Patch) (st : GraphState).

(** What a writer is asked to append on a head: Patches of one producer that
    their own model accepts, a merge rebased on that head. *)
Record submittable_on (head : GraphHeadRef) (raw : list Patch) : Prop := {
  sub_producer : ∀ first, list.head raw = Some first → one_producer first raw;
  sub_decodable : Forall decodable raw;
  sub_merge : ∀ first prov, list.head raw = Some first → p_branch_merge first = Some prov →
              bmp_rebased_main_head prov = head }.
Definition submittable (current : MaterializationResult) := submittable_on (main_pre_head current).

(** The Patch a writer writes on a head, and its replay. *)
Record committable_on m {head : GraphHeadRef} (current : MaterializationResult) (revision : Z) (p : Patch)
    (report : ValidationReport) (graph : option GraphState) : Prop := {
  cm_decodable : decodable (admitted p report);
  cm_revision : p_revision p = revision;
  cm_continues : continues (head_target head) (head_transition_id head) (admitted p report);
  cm_step : (replay_step (replay_manifest m) (mr_materialization current) (admitted p report)).2 = true;
  cm_graph : rejected report = false → ∃ st, graph = Some st ∧
    mat_state (replay_step (replay_manifest m) (mr_materialization current) (admitted p report)).1 =
      add_messages report st }.
Definition committable m (current : MaterializationResult) :=
  committable_on m (head := main_pre_head current) current.

Lemma rejected_committable m head current revision p report graph :
  decodable p → p_revision p = revision → rejected report = true →
  committable_on m (head := head) current revision p report graph.
Proof.
  intros Hd Hr Hrej. split; try done.
  - unfold admitted. by apply decodable_redated.
  - intros tr Ha. unfold admitted in Ha. by rewrite Hrej in Ha.
  - unfold replay_step, admitted. by rewrite Hrej.
  - by rewrite Hrej.
Qed.

Lemma admitted_accepted p report v ms : rejected report = false →
  admitted (redated p (p_created_at p) v ms) report = recorded report p.
Proof. intros Hr. unfold admitted. by rewrite Hr. Qed.

Lemma transition_committable_on cfg m d current raw revision auth pre_head target p report graph :
  _prepare_transition_locked cfg m d current raw revision auth pre_head target = Done (p, report, graph) →
  submittable_on (default (main_pre_head current) pre_head) raw →
  committable_on m (head := default (main_pre_head current) pre_head) current revision p report graph.
Proof.
  unfold _prepare_transition_locked. set (head0 := default (main_pre_head current) pre_head).
  intros (u & _ & Hp)%outcome_bind_done [Hone Hdec Hmerge].
  apply outcome_bind_done in Hp as ([q r|sources r] & Hprep & Hp).
  { injection Hp as <- <- <-. pose proof (refused_rejected _ _ _ _ _ _ _ _ _ _ _ _ Hprep) as Hr.
    destruct (refused_source _ _ _ _ _ _ _ _ _ _ _ _ Hprep) as (raw_patch & Hin & Hdecq & Hrev).
    apply rejected_committable; [|done..]. apply Hdecq. rewrite Forall_forall in Hdec. by apply Hdec. }
  apply staged_sources in Hprep as (Hall & Hplain & (own & Hown & Hro) & Hrej). specialize (Hrej eq_refl).
  assert (∀ q, q ∈ sources → decodable q ∧ p_revision q = revision) as Hsources.
  { intros q [i Hi]%list_elem_of_lookup. destruct (Forall2_lookup_r _ _ _ _ _ Hall Hi) as (y & Hy & Hyq).
    split; [|by apply prepares_keeps in Hyq as []]. eapply decodable_prepares; [exact Hyq|].
    rewrite Forall_forall in Hdec. apply Hdec. by eapply list_elem_of_lookup_2. }
  assert (∀ first', head sources = Some first' → one_producer first' sources) as Hone'.
  { intros first' Hf. destruct raw as [|first raw]; [by apply Forall2_nil_inv_l in Hall; subst|].
    apply (prepared_one_producer cfg auth target revision first (first :: raw) sources); [exact Hall|done|by apply Hone|exact Hf]. }
  cbv zeta in Hp. destruct (prepare_validated _ _ sources _) as [r0|[| | | |]] eqn:Hpv; try done.
  - injection Hp as <- <- <-.
    destruct (combined_decodable _ _ _ _ _ Hpv Hone') as (Hd & first & Hf & Hrev).
    { apply Forall_forall. intros q Hq. by apply Hsources. }
    { intros first prov Hf Hm. destruct Hall as [|x y raw sources Hxy Hall]; [done|].
      injection Hf as ->. apply (Hmerge x); [done|]. apply prepares_keeps in Hxy as (_&_&_&_&_&Hb&_). congruence. }
    destruct (committed_step (replay_manifest m) _ _ _ _ (mr_materialization current) own r Hpv Hone' Hown Hro Hrej)
      as [Hstep Hst].
    split.
    + unfold admitted. by rewrite !decodable_redated.
    + change (p_revision (prt_patch r0) = revision). rewrite Hrev. apply Hsources.
      destruct sources; [done|]. injection Hf as ->. by left.
    + rewrite admitted_accepted by done. intros tr _ Htr. destruct (prepare_head _ _ _ _ _ Hpv) as (tr' & Htr' & Hh & _).
      assert (tr' = tr) as -> by (change (p_transition (prt_patch r0) = Some tr) in Htr; congruence).
      by rewrite Hh.
    + rewrite admitted_accepted by done. exact Hstep.
    + rewrite admitted_accepted by done. intros _. eexists. by split.
  - destruct sources as [|first sources]; [done|]. injection Hp as <- <- <-.
    destruct (Hsources first) as [Hd Hrev]; [by left|].
    apply rejected_committable; [done..|]. by rewrite rejected_app, Hrej.
Qed.

Lemma transition_committable cfg m d current raw revision auth p report graph :
  _prepare_transition_locked cfg m d current raw revision auth None main_target = Done (p, report, graph) →
  submittable current raw → committable m current revision p report graph.
Proof. apply transition_committable_on. Qed.

(** A claim or a transfer has no transition; it is validated and applied as it is. *)
Lemma identity_committable cfg m d current p revision auth q report graph :
  _validate_candidate_locked cfg m d current p revision auth = Done (q, report, graph) →
  p_kind p = KIdentity → p_ops p = [] → decodable p →
  committable m current revision q report graph.
Proof.
  unfold _validate_candidate_locked. intros Hv Hk Hops Hd.
  rewrite bool_decide_eq_true_2, Hops in Hv by done. cbn [is_nil andb] in Hv.
  apply outcome_bind_done in Hv as (stamped & Hs%kernel_done & Hv).
  assert (stamped = p) as ->.
  { unfold _stamp_attribution_for_admission in Hs. destruct (negb _); [by injection Hs|].
    rewrite decide_True in Hs by done. by apply res_bind_ok in Hs as (u & _ & [= <-]). }
  set (st := mr_state current) in *. set (i := at_revision revision p) in *.
  set (admission := manifest_settings m ModeAdmission (gs_project_truth_scope st)) in *.
  assert (decodable i) as Hdi by (revert Hd; by rewrite !decodable_iff).
  cbv zeta in Hv. destruct (rejected (validate_patch st i admission)) eqn:Hr.
  { injection Hv as <- <- <-. by apply rejected_committable. }
  apply outcome_bind_done in Hv as (candidate & Hc%kernel_done & Hv). injection Hv as <- <- <-.
  set (r := validate_patch st i admission) in *.
  assert (p_transition i = None ∧ rejected (validate_source_patch st i admission) = false) as [Htr Hvalid].
  { clear -Hr. unfold r, validate_patch in Hr. destruct (p_transition i); [|done].
    unfold _validate_transition_patch in Hr. by rewrite decide_True in Hr by done. }
  assert (admitted i r = redated i (p_created_at i) AdmissionAccepted r) as Hw by (unfold admitted; by rewrite Hr).
  pose proof (redates_intro i (p_created_at i) AdmissionAccepted r (λ _, eq_refl)) as Hred. rewrite <-Hw in Hred.
  assert (rejected (validate_patch st (admitted i r) (replay_settings (replay_manifest m) st)) = false) as Hreplay.
  { unfold validate_patch. destruct (redates_transition _ _ Hred) as [-> _]. rewrite Htr.
    rewrite (validate_redates st i) by done. exact (validation_lenient st i _ _ (admission_settings m st) Hvalid). }
  unfold apply_valid_patch in Hc. destruct (_apply_patch st i [] []) as [[st' ds]|] eqn:Ha; [|done].
  apply Ok_inj in Hc. simpl in Hc. subst st'.
  assert (_apply_patch st (admitted i r) [] [] = Ok (candidate, ds)) as Ha'.
  { rewrite <-Ha. by apply apply_patch_redates. }
  assert (replay_step (replay_manifest m) (mr_materialization current) (admitted i r) =
    ({| mat_state := add_messages r candidate;
        mat_reports := <[revision := validate_patch st (admitted i r) (replay_settings (replay_manifest m) st) ++ r]>
                         (mat_reports (mr_materialization current));
        mat_descriptors := mat_descriptors (mr_materialization current) ++ ds;
        mat_cursors := p_processed_cursors p ∪ mat_cursors (mr_materialization current);
        mat_observed := mat_observed (mr_materialization current) ++
          [(st, admitted i r, add_messages r candidate)] |}, true)) as Hstep.
  { unfold replay_step. rewrite Hw at 1. cbn [p_admission redated patch_copy].
    change (mat_state (mr_materialization current)) with st.
    replace (p_admission_messages (admitted i r)) with r by (by rewrite Hw).
    rewrite rejected_app, Hreplay, Hr. cbn [orb]. rewrite Ha'. by rewrite Hw. }
  split.
  - unfold admitted. by apply decodable_redated.
  - done.
  - intros tr _. rewrite Hw. change (p_transition i = Some tr → head_target (tt_pre_head tr) = main_target ∧
      head_transition_id (tt_pre_head tr) = chain_head None (mr_patches current)). by rewrite Htr.
  - by rewrite Hstep.
  - intros _. rewrite Hstep. by eexists.
Qed.

(** What a Patch needs to be appended to main. *)
Definition submission (current : MaterializationResult) p : Prop :=
  if decide (p_kind p = KIdentity ∧ p_ops p = []) then decodable p else submittable current [p].

Lemma candidate_committable cfg m d current p revision auth q report graph :
  _validate_candidate_locked cfg m d current p revision auth = Done (q, report, graph) →
  submission current p → committable m current revision q report graph.
Proof.
  unfold submission. case_decide as Hk.
  { intros Hv Hd. destruct Hk. by apply (identity_committable cfg m d current p revision auth). }
  unfold _validate_candidate_locked. intros Hv Hs. destruct (_ && _) eqn:Hb.
  { exfalso. apply Hk. apply andb_true_iff in Hb as [Hb%bool_decide_eq_true Hnil].
    split; [done|]. by destruct (p_ops p). }
  by eapply transition_committable.
Qed.
End candidates.
