(* ===== verification/Writers.v ===== *)
(** The writers of main, step by step: whatever happens to an append, a repair
    or a publication, the log it leaves is healthy. *)

From S2P Require Export Admission.

#[local] Arguments replay_step : simpl never.
#[local] Arguments load_manifest : simpl never.

(** ** Computations on the store *)

Lemma hm_bind_run {A B} (c : HM A) (k : A → HM B) s s' (o : outcome B) :
  (c ≫= k) s = (s', o) →
  (∃ e, c s = (s', Failed e) ∧ o = Failed e) ∨
  (∃ s1 a, c s = (s1, Done a) ∧ k a s1 = (s', o)).
Proof.
  unfold mbind, hm_bind. destruct (c s) as [s1 [a|e]]; intros Hk; [right; eauto|left].
  injection Hk as <- <-. eauto.
Qed.

Lemma lift_run {A} (o : outcome A) s s' r : lift o s = (s', r) → s' = s ∧ r = o.
Proof. by intros [= <- <-]. Qed.

Lemma guard_run b e s s' r : guard_hm b e s = (s', r) →
  s' = s ∧ ((b = true ∧ r = Done tt) ∨ (b = false ∧ r = Failed e)).
Proof. intros [= <- <-]. split; [done|]. destruct b; simpl; auto. Qed.

(** Runs a bind: one goal for the failure of its head, one for its continuation. *)
Ltac run_bind H :=
  let e := fresh "e" in let s1 := fresh "s1" in let a := fresh "a" in
  let Hc := fresh "Hrun" in
  apply hm_bind_run in H as [(e & Hc & ->)|(s1 & a & Hc & H)].

Section writers.
Context `{NodeAdapterLaws} `{!RecordAdapter, !TextLib, !CanonicalHash}.
Implicit Types (m : Manifest) (s : Store) (p : Patch) (patches : list Patch).

(** The manifest in force, the log it replays and the scope recorded for it;
    the files are listed in the order of their numbers. *)
Record log_at s m patches (scope : list string) : Prop := {
  la_manifest : load_manifest (st_document s) = Ok m;
  la_healthy : healthy m s patches scope;
  la_sorted : Sorted Z.le (le_revision <$> st_log s) }.

Definition log_ok s : Prop := ∃ m patches scope, log_at s m patches scope.

Lemma log_at_replay s m patches scope :
  log_at s m patches scope → _replay m s = replay_result m patches scope.
Proof. intros []. by apply healthy_replay. Qed.

Lemma reload_run s s' r m patches scope :
  log_at s m patches scope → _reload_manifest s = (s', r) → s' = s ∧ r = Done m.
Proof. intros [Hm _ _] [= <- <-]. by rewrite Hm. Qed.

(** ** The manifest *)

(** A rewritten scope only lets the manifest grow, and touches no log. *)
Lemma write_scope_run m scope d s s' r :
  load_manifest (st_document s) = Ok m → write_scope m scope d s = (s', r) →
  st_log s' = st_log s ∧ st_scope_base s' = st_scope_base s ∧ st_branches s' = st_branches s ∧
  ∃ m', load_manifest (st_document s') = Ok m' ∧ manifest_grows m m' ∧
    (∀ m2, r = Done m2 → m2 = m' ∧ mf_truth_scope m' = scope) ∧
    (∀ e, r = Failed e → s' = s ∧ e ≠ PublishFailed) ∧ st_repair_required s' = st_repair_required s.
Proof.
  intros Hm Hw. pose proof (load_manifest_fields _ _ Hm) as (_&_&_&_&_&Hne).
  unfold write_scope in Hw. run_bind Hw; [done|]. injection Hrun as <- <-.
  run_bind Hw.
  { apply lift_run in Hrun as [-> He]. split_and!; try done. exists m. split_and!; try done.
    intros e' [= <-]. split; [done|]. intros ->. by destruct (write_project_scope _ _ _ _). }
  apply lift_run in Hrun as [-> Hd]. symmetry in Hd. apply kernel_done in Hd. unfold write_project_scope in Hd.
  destruct (project_scope_loads _ _ _ _ _ Hd) as [m' Hm'].
  run_bind Hw; [done|]. injection Hrun as <- <-. unfold _reload_manifest in Hw.
  cbn [set_document st_document] in Hw. rewrite Hm' in Hw. injection Hw as <- <-.
  split_and!; try done. exists m'. split; [done|].
  destruct (project_scope_grows _ _ _ _ _ _ Hm Hd Hm') as [Hg Hsc]. split; [done|].
  by split_and!; [intros m2 [= <-]|..].
Qed.

(** A healthy log under a manifest that grew in place. *)
Lemma log_at_grows s s' m m' patches scope :
  log_at s m patches scope → recorded_scope (st_scope_base s) →
  st_log s' = st_log s → st_scope_base s' = st_scope_base s →
  load_manifest (st_document s') = Ok m' → manifest_grows m m' →
  log_at s' m' patches scope ∧
  mr_state (replay_result m' patches scope) = mr_state (replay_result m patches scope).
Proof.
  intros [Hm Hh Hso] Hrec Hl Hb Hm' Hg.
  destruct (healthy_grows m m' s patches scope Hg Hrec Hh) as [Hh' Heq].
  split; [|exact Heq]. split; [done|by eapply healthy_store|by rewrite Hl].
Qed.

Lemma layout_run s s' r m patches scope :
  log_at s m patches scope → ensure_layout m s = (s', r) →
  r = Done tt ∧ log_at s' m patches scope ∧ recorded_scope (st_scope_base s') ∧ st_log s' = st_log s ∧
  st_document s' = st_document s ∧ st_branches s' = st_branches s ∧
  st_repair_required s' = st_repair_required s ∧ (recorded_scope (st_scope_base s) → s' = s).
Proof.
  intros [Hm Hh Hso] Hl. destruct (healthy_layout m s patches scope Hh) as (Hh' & Hrec & Hlog & Hdoc).
  rewrite Hl in Hh', Hrec, Hlog, Hdoc. cbn [fst] in *. unfold ensure_layout, modify in Hl.
  injection Hl as Hs <-. split_and!; try done.
  - split; rewrite ?Hdoc, ?Hlog; done.
  - rewrite <-Hs. by destruct (st_scope_base s).
  - rewrite <-Hs. by destruct (st_scope_base s).
  - rewrite <-Hs. by destruct (st_scope_base s).
Qed.

Lemma outputs_run s s' r m patches scope :
  log_at s m patches scope → recorded_scope (st_scope_base s) →
  materialize_outputs m s = (s', r) → s' = s ∧ r = Done (replay_result m patches scope).
Proof.
  intros Hlog Hrec Hr. unfold materialize_outputs in Hr. run_bind Hr; [done|].
  injection Hrun as <- <-. rewrite (log_at_replay _ _ _ _ Hlog) in Hr.
  run_bind Hr; case_decide; injection Hrun; try done.
  - intros <- <-. injection Hr as <- <-. by destruct (st_scope_base s).
  - intros <- <-. by injection Hr as <- <-.
Qed.

(** ** Repair *)

(** What is known after an operation that touches no Patch. *)
Record settled s s' m patches scope (m' : Manifest) : Prop := {
  sd_log : log_at s' m' patches scope;
  sd_recorded : recorded_scope (st_scope_base s');
  sd_files : st_log s' = st_log s;
  sd_branches : st_branches s' = st_branches s;
  sd_grows : manifest_grows m m';
  sd_state : mr_state (replay_result m' patches scope) = mr_state (replay_result m patches scope) }.

Lemma log_at_aliases s m patches scope : log_at s m patches scope → repository_aliases m ≠ [].
Proof. intros [Hm _ _]. by apply load_manifest_fields in Hm as (_&_&_&_&_&?). Qed.

Lemma settled_refl s m patches scope :
  log_at s m patches scope → recorded_scope (st_scope_base s) → settled s s m patches scope m.
Proof. intros Hl Hr. split; try done. by eapply manifest_grows_refl, log_at_aliases. Qed.

Lemma settled_repair s s' m patches scope m' b :
  settled s s' m patches scope m' → settled s (set_repair b s') m patches scope m'.
Proof. intros [[] ? ? ? ? ?]. split; try done. split; try done. by apply (healthy_store m' s'). Qed.

Lemma sync_history_run s s' r m patches scope c :
  log_at s m patches scope → recorded_scope (st_scope_base s) →
  _synchronize_manifest_from_history m c s = (s', r) →
  ∃ m', settled s s' m patches scope m' ∧ (∀ m2, r = Done m2 → m2 = m').
Proof.
  intros Hlog Hrec. unfold _synchronize_manifest_from_history. case_decide.
  { intros [= <- <-]. exists m. split; [by apply settled_refl|by intros m2 [= <-]]. }
  intros Hw. destruct (write_scope_run _ _ _ _ _ _ (la_manifest _ _ _ _ Hlog) Hw)
    as (Hl & Hb & Hbr & m' & Hm' & Hg & Hdone & _ & _).
  destruct (log_at_grows _ _ _ _ _ _ Hlog Hrec Hl Hb Hm' Hg) as [Hlog' Heq].
  exists m'. split; [|by intros m2 [-> _]%Hdone]. split; try done. by rewrite Hb.
Qed.

Lemma repair_run env s s' r m patches scope :
  log_at s m patches scope → recorded_scope (st_scope_base s) →
  _repair_materializations_locked env m s = (s', r) →
  ∃ m', settled s s' m patches scope m' ∧ (∀ m2, r = Done m2 → m2 = m') ∧
    (st_repair_required s = false → s' = s ∧ r = Done m).
Proof.
  intros Hlog Hrec Hr. unfold _repair_materializations_locked in Hr. run_bind Hr; [done|].
  injection Hrun as <- <-. destruct (st_repair_required s) eqn:Hreq; cbn [negb] in Hr.
  2: { injection Hr as <- <-. exists m. split_and!; [by apply settled_refl|by intros m2 [= <-]|done]. }
  run_bind Hr.
  { by apply (outputs_run _ _ _ _ _ _ Hlog Hrec) in Hrun as [_ ?]. }
  apply (outputs_run _ _ _ _ _ _ Hlog Hrec) in Hrun as [-> Ha]. injection Ha as ->.
  run_bind Hr.
  { destruct (sync_history_run _ _ _ _ _ _ _ Hlog Hrec Hrun) as (m' & Hs & _). by exists m'. }
  destruct (sync_history_run _ _ _ _ _ _ _ Hlog Hrec Hrun) as (m' & Hs & Hm'). specialize (Hm' _ eq_refl) as ->.
  run_bind Hr.
  { apply guard_run in Hrun0 as [-> _]. by exists m'. }
  apply guard_run in Hrun0 as [-> _]. run_bind Hr; [done|]. injection Hrun0 as <- <-.
  injection Hr as <- <-. exists m'. split_and!; [by apply settled_repair|by intros m2 [= <-]|done].
Qed.

Lemma settle_run env s s' r m patches scope :
  log_at s m patches scope → settle env m (replay_result m patches scope) s = (s', r) →
  ∃ m', settled s s' m patches scope m' ∧
    (∀ x, r = Done x → x = (m', replay_result m' patches scope)) ∧
    (st_repair_required s = false →
       s' = (ensure_layout m s).1 ∧ r = Done (m, replay_result m patches scope)).
Proof.
  intros Hlog Hr. unfold settle in Hr. run_bind Hr; [done|].
  destruct (layout_run _ _ _ _ _ _ Hlog Hrun) as (Ha & Hlog1 & Hrec & Hl & Hd & Hb & Hq & _).
  injection Ha as ->. assert (s1 = (ensure_layout m s).1) as Hs1 by by rewrite Hrun.
  assert (settled s s1 m patches scope m) as Hset.
  { split; try done. by eapply manifest_grows_refl, log_at_aliases. }
  run_bind Hr; [done|]. injection Hrun0 as <- <-.
  destruct (st_repair_required s1) eqn:Hreq.
  2: { injection Hr as <- <-. exists m. split_and!; [done|by intros x [= <-]|done]. }
  run_bind Hr.
  { destruct (repair_run _ _ _ _ _ _ _ Hlog1 Hrec Hrun0) as (m' & Hs & _). exists m'.
    split_and!; [|done|congruence]. destruct Hs. split; try done; congruence. }
  destruct (repair_run _ _ _ _ _ _ _ Hlog1 Hrec Hrun0) as (m' & Hs & Hm' & _). specialize (Hm' _ eq_refl) as ->.
  run_bind Hr; [done|]. injection Hrun1 as <- <-. injection Hr as <- <-.
  exists m'. destruct Hs. split_and!; [|by intros x [= <-]; rewrite (log_at_replay _ _ _ _ sd_log0)|congruence].
  split; try done; congruence.
Qed.

(** ** Committing *)

Lemma sorted_snoc (l : list Z) x :
  Sorted Z.le l → (∀ y, last l = Some y → (y ≤ x)%Z) → Sorted Z.le (l ++ [x]).
Proof.
  induction 1 as [|a l Hs IH Hhd]; intros Hl; [by repeat constructor|]. cbn [app]. constructor.
  - apply IH. intros y Hy. apply Hl. rewrite last_cons, Hy. done.
  - destruct l as [|b l]; cbn [app]; constructor; [by apply Hl|by inversion Hhd].
Qed.

Lemma sorted_last_max (l : list Z) x y : Sorted Z.le l → last l = Some y → x ∈ l → (x ≤ y)%Z.
Proof.
  intros Hs%Sorted_StronglySorted; [|intros a b c; lia]. induction Hs as [|a l Hs IH Hall]; [done|].
  rewrite last_cons. destruct (last l) as [z|] eqn:Hl.
  - intros [= <-] [->|Hx]%elem_of_cons; [|by apply IH].
    rewrite Forall_forall in Hall. apply Hall. apply last_Some in Hl as [l' ->]. set_solver.
  - intros [= <-]. apply last_None in Hl as ->. intros Hx%list_elem_of_singleton. lia.
Qed.

Definition entry_of (env : Env) revision p : LogEntry :=
  {| le_revision := revision; le_mtime := env_now env; le_document := inl p |}.

Lemma next_revision_fresh s e : Sorted Z.le (le_revision <$> st_log s) → e ∈ st_log s →
  (le_revision e < _next_revision s)%Z.
Proof.
  intros Hs He. unfold _next_revision. destruct (last (st_log s)) as [x|] eqn:Hl.
  - assert (last (le_revision <$> st_log s) = Some (le_revision x)) as Hl' by by rewrite fmap_last, Hl.
    assert (le_revision e ≤ le_revision x)%Z; [|lia].
    eapply sorted_last_max; [exact Hs|exact Hl'|]. by apply list_elem_of_fmap_2.
  - apply last_None in Hl. rewrite Hl in He. by apply elem_of_nil in He.
Qed.

(** Taking the written file out of the log again leaves the log as it was. *)
Lemma unwrite_log env s p : Sorted Z.le (le_revision <$> st_log s) →
  bfilter (λ e, negb (le_revision e =? _next_revision s)%Z)
    (st_log s ++ [entry_of env (_next_revision s) p]) = st_log s.
Proof.
  intros Hs. unfold bfilter. rewrite List.filter_app. cbn. rewrite Z.eqb_refl. cbn.
  rewrite app_nil_r. assert (∀ e, e ∈ st_log s → (le_revision e <? _next_revision s)%Z = true) as Hall.
  { intros e He. by apply Z.ltb_lt, next_revision_fresh. }
  clear Hs. revert Hall. generalize (_next_revision s) as n. intros n. induction (st_log s) as [|e l IH]; [done|].
  intros Hall. cbn. pose proof (Hall e ltac:(by left)) as He. apply Z.ltb_lt in He.
  destruct (Z.eqb_spec (le_revision e) n); [lia|]. cbn. rewrite IH; [done|].
  intros x Hx. apply Hall. by right.
Qed.

(** The record of a Patch that was replayed. *)
Lemma step_report cfg (c : Materialization) p :
  (replay_step cfg c p).2 = true →
  ∃ r, mat_reports (replay_step cfg c p).1 !! p_revision p = Some r ∧
    (p_admission p = AdmissionAccepted → rejected r = false) ∧
    (p_admission p = AdmissionRejected → r = p_admission_messages p).
Proof.
  unfold replay_step. destruct (p_admission p).
  - destruct (rejected _) eqn:Hr; [done|]. destruct (_apply_patch _ _ _ _) as [[st ds]|]; [|done].
    intros _. cbn. rewrite lookup_insert_eq. eexists. split; [reflexivity|]. by split.
  - intros _. cbn. rewrite lookup_insert_eq. eexists. split; [reflexivity|]. by split.
Qed.

(** The log after the file of a committable Patch is written. *)
Lemma write_run env s m patches scope q report graph :
  log_at s m patches scope → recorded_scope (st_scope_base s) → (_next_revision s < 1000000)%Z →
  committable m (replay_result m patches scope) (_next_revision s) q report graph →
  let s1 := set_log_entries (st_log s ++ [entry_of env (_next_revision s) (admitted q report)]) s in
  write_patch (env_now env) (_next_revision s) (admitted q report) s = (s1, Done tt) ∧
  log_at s1 m (patches ++ [admitted q report]) scope ∧ recorded_scope (st_scope_base s1) ∧
  (∃ rep, report_at (replay_result m (patches ++ [admitted q report]) scope) (_next_revision s) = Done rep ∧
     rejected rep = rejected report) ∧
  (rejected report = false → ∃ st, graph = Some st ∧
     mr_state (replay_result m (patches ++ [admitted q report]) scope) = add_messages report st).
Proof.
  intros [Hm Hh Hso] Hrec Hlt [Hd Hr Hc Hs Hg] s1. set (p := admitted q report) in *.
  assert (load_entry (entry_of env (_next_revision s) p) = inl p) as He.
  { unfold load_entry. cbn. by rewrite Hd. }
  destruct (healthy_append m s patches scope _ p Hh Hrec He Hc Hs) as [Hh1 Hmat].
  split_and!.
  - unfold write_patch, modify. by rewrite (proj2 (Z.ltb_lt _ _)).
  - split; [done|exact Hh1|]. cbn. rewrite fmap_app. cbn. apply sorted_snoc; [done|].
    intros y Hy. rewrite fmap_last in Hy. unfold _next_revision. destruct (last (st_log s)) as [e|]; [|done].
    injection Hy as <-. cbn. lia.
  - done.
  - destruct (step_report _ _ _ Hs) as (rep & Hrep & Hacc & Hrej). exists rep.
    assert (p_revision p = _next_revision s) as Hrev by exact Hr.
    unfold report_at, mr_reports, replay_result. cbn [mr_materialization]. rewrite Hmat.
    cbn [replay_result mr_materialization] in Hrep. rewrite <-Hrev, Hrep. split; [done|].
    assert (p_admission p = if rejected report then AdmissionRejected else AdmissionAccepted) as Hadm by done.
    destruct (rejected report) eqn:Hreport; [|by apply Hacc]. rewrite (Hrej Hadm). exact Hreport.
  - intros Hacc. destruct (Hg Hacc) as (st & Hgr & Hst). exists st. split; [done|].
    unfold mr_state, replay_result. cbn [mr_materialization]. rewrite Hmat. exact Hst.
Qed.

(** How a commit ends: the file stays in the log, whatever its publication says,
    or the state host does not have it and it is taken back with everything else
    the commit changed. *)
Inductive commit_ends env m s patches scope p : Store → outcome MaterializationResult → Prop :=
  | commit_kept s' r m' :
      st_log s' = st_log s ++ [entry_of env (_next_revision s) p] → st_branches s' = st_branches s →
      log_at s' m' (patches ++ [p]) scope → recorded_scope (st_scope_base s') → manifest_grows m m' →
      mr_state (replay_result m' (patches ++ [p]) scope) = mr_state (replay_result m (patches ++ [p]) scope) →
      (∀ x, r = Done x → x = replay_result m (patches ++ [p]) scope ∧
         (env_publication env = PublishOk ∨ env_publication env = PublishRaises true CommitPresent)) →
      (r = Failed PublishFailed → ∃ status, env_publication env = PublishRaises false status) →
      commit_ends env m s patches scope p s' r
  | commit_withdrawn s' status :
      env_publication env = PublishRaises true status → status ≠ CommitPresent →
      st_log s' = st_log s → st_branches s' = st_branches s → st_document s' = st_document s →
      st_scope_base s' = st_scope_base s → log_at s' m patches scope →
      st_repair_required s' = bool_decide (status = CommitUnknown) || st_repair_required s →
      commit_ends env m s patches scope p s' (Failed PublishFailed).

Lemma log_at_same s s' m patches scope :
  st_log s' = st_log s → st_document s' = st_document s → st_scope_base s' = st_scope_base s →
  log_at s m patches scope → log_at s' m patches scope.
Proof.
  intros Hl Hd Hb [Hm Hh Hs]. split; [by rewrite Hd|by apply (healthy_store m s)|by rewrite Hl].
Qed.

(** The store a failed commit is taken back to. *)
Definition withdrawn (status : CommitStatus) (revision : Z) (changed : bool) (d : Manifest) s : Store :=
  let back := set_log_entries (bfilter (λ e, negb (le_revision e =? revision)%Z) (st_log s)) s in
  let flagged := if decide (status = CommitUnknown) then set_repair true back else back in
  if changed then set_document d flagged else flagged.

Lemma outputs_eq s m patches scope : log_at s m patches scope → recorded_scope (st_scope_base s) →
  materialize_outputs m s = (s, Done (replay_result m patches scope)).
Proof.
  intros Hl Hr. destruct (materialize_outputs m s) as [s' r] eqn:Ho.
  by destruct (outputs_run _ _ _ _ _ _ Hl Hr Ho) as [-> ->].
Qed.

Lemma reconcile_eq status revision changed d s m patches scope :
  status ≠ CommitPresent → let s' := withdrawn status revision changed d s in
  log_at s' m patches scope → recorded_scope (st_scope_base s') →
  _reconcile_remote_publish_failure status revision changed d s = (s', Done false).
Proof.
  intros Hst s' Hlog Hrec.
  assert (_reload_manifest s' = (s', Done m)) as Hload by (unfold _reload_manifest; by rewrite (la_manifest _ _ _ _ Hlog)).
  pose proof (outputs_eq _ _ _ _ Hlog Hrec) as Hout.
  assert (_reconcile_remote_publish_failure status revision changed d s =
    (m ← _reload_manifest; _ ← materialize_outputs m; mret false : HM bool) s') as ->.
  { unfold s', withdrawn. by destruct status, changed. }
  unfold mbind, hm_bind. by rewrite Hload, Hout.
Qed.

(** After a commit was written and its scope synchronized, a failed publication
    finds the store it takes back. *)
Lemma withdrawn_fields env s p s2 status changed :
  Sorted Z.le (le_revision <$> st_log s) →
  st_log s2 = st_log s ++ [entry_of env (_next_revision s) p] → st_branches s2 = st_branches s →
  st_scope_base s2 = st_scope_base s → st_repair_required s2 = st_repair_required s →
  (changed = false → st_document s2 = st_document s) →
  let s' := withdrawn status (_next_revision s) changed (st_document s) s2 in
  st_log s' = st_log s ∧ st_branches s' = st_branches s ∧ st_document s' = st_document s ∧
  st_scope_base s' = st_scope_base s ∧
  st_repair_required s' = bool_decide (status = CommitUnknown) || st_repair_required s.
Proof.
  intros Hs Hl Hb Hsc Hr Hd. unfold withdrawn. rewrite Hl, (unwrite_log env s p Hs).
  destruct changed, status; cbn; split_and!; try done; by apply Hd.
Qed.

Lemma sync_scope_run s s' r m patches scope c p :
  log_at s m patches scope → recorded_scope (st_scope_base s) →
  _synchronize_manifest_scope m c p s = (s', r) →
  st_log s' = st_log s ∧ st_branches s' = st_branches s ∧ st_scope_base s' = st_scope_base s ∧
  (∃ m', log_at s' m' patches scope ∧ manifest_grows m m' ∧
     mr_state (replay_result m' patches scope) = mr_state (replay_result m patches scope)) ∧
  st_repair_required s' = st_repair_required s ∧ (r = Done false → s' = s) ∧ r ≠ Failed PublishFailed.
Proof.
  intros Hlog Hrec. pose proof (log_at_aliases _ _ _ _ Hlog) as Hne.
  unfold _synchronize_manifest_scope. case_decide.
  { intros [= <- <-]. split_and!; try done. exists m. split_and!; try done. }
  intros Hw. run_bind Hw.
  - destruct (write_scope_run _ _ _ _ _ _ (la_manifest _ _ _ _ Hlog) Hrun)
      as (_ & _ & _ & _ & _ & _ & _ & Hfail & _). destruct (Hfail e eq_refl) as [-> He].
    split_and!; try done; [|congruence]. exists m. by split_and!.
  - injection Hw as <- <-. destruct (write_scope_run _ _ _ _ _ _ (la_manifest _ _ _ _ Hlog) Hrun)
      as (Hl & Hb & Hbr & m' & Hm' & Hg & _ & _ & Hrep).
    destruct (log_at_grows _ _ _ _ _ _ Hlog Hrec Hl Hb Hm' Hg) as [Hlog' Heq].
    split_and!; try done. by exists m'.
Qed.

Lemma remember_run c s s' r : _remember_accepted_revision c s = (s', r) →
  r = Done tt ∧ s' = set_accepted (Some (accepted_revision c)) s.
Proof. by intros [= <- <-]. Qed.

(** Publishing goes through, fails before anything is known of the host, or is
    taken back. *)
Lemma publish_run env revision changed d s s' o m patches scope :
  (∀ status, status ≠ CommitPresent →
     log_at (withdrawn status revision changed d s) m patches scope ∧
     recorded_scope (st_scope_base (withdrawn status revision changed d s))) →
  publish_commit env revision changed d s = (s', o) →
  (o = Done tt ∧ st_log s' = st_log s ∧ st_branches s' = st_branches s ∧
     st_scope_base s' = st_scope_base s ∧ st_document s' = st_document s ∧
     (env_publication env = PublishOk ∨ env_publication env = PublishRaises true CommitPresent)) ∨
  (o = Failed PublishFailed ∧
   ((∃ status, env_publication env = PublishRaises false status ∧ s' = s) ∨
    ∃ status, env_publication env = PublishRaises true status ∧ status ≠ CommitPresent ∧
      s' = withdrawn status revision changed d s)).
Proof.
  intros Hback Hp. unfold publish_commit in Hp.
  destruct (env_publication env) as [|[] status]; [injection Hp as <- <-; left; split_and!; auto| |].
  - destruct (decide (status = CommitPresent)) as [->|Hst].
    { injection Hp as <- <-. left. split_and!; auto. }
    destruct (Hback status Hst) as [Hlog Hrec]. pose proof (reconcile_eq _ _ _ _ _ _ _ _ Hst Hlog Hrec) as Hrc.
    unfold mbind, hm_bind in Hp. rewrite Hrc in Hp. injection Hp as <- <-. right. split; [done|].
    right. by exists status.
  - apply lift_run in Hp as [-> ->]. right. split; [done|]. left. by exists status.
Qed.

(** The scope stage of a commit, whether or not the verdict decides on it. *)
Lemma commit_sync_run s s' o m patches scope p (matters : bool) revision result report :
  log_at s m patches scope → recorded_scope (st_scope_base s) →
  report_at result revision = Done report → result = replay_result m patches scope →
  (if matters then
     report ← lift (report_at result revision);
     if rejected report then mret false else _synchronize_manifest_scope m result p
   else _synchronize_manifest_scope m result p) s = (s', o) →
  st_log s' = st_log s ∧ st_branches s' = st_branches s ∧ st_scope_base s' = st_scope_base s ∧
  (∃ m', log_at s' m' patches scope ∧ manifest_grows m m' ∧
     mr_state (replay_result m' patches scope) = mr_state (replay_result m patches scope)) ∧
  st_repair_required s' = st_repair_required s ∧ (o = Done false → s' = s) ∧ o ≠ Failed PublishFailed.
Proof.
  intros Hlog Hrec Hrep -> Hb. pose proof (log_at_aliases _ _ _ _ Hlog) as Hne. destruct matters; [|by eapply sync_scope_run]. run_bind Hb.
  - rewrite Hrep in Hrun. by injection Hrun.
  - rewrite Hrep in Hrun. injection Hrun as <- <-. destruct (rejected report); [|by eapply sync_scope_run].
    injection Hb as <- <-. split_and!; try done. exists m. by split_and!.
Qed.

(** A commit that is taken back leaves the log it found. *)
Lemma commit_back env m s s2 patches scope p changed status :
  log_at s m patches scope → recorded_scope (st_scope_base s) → status ≠ CommitPresent →
  st_log s2 = st_log s ++ [entry_of env (_next_revision s) p] → st_branches s2 = st_branches s →
  st_scope_base s2 = st_scope_base s → st_repair_required s2 = st_repair_required s →
  (changed = false → st_document s2 = st_document s) →
  let back := withdrawn status (_next_revision s) changed (st_document s) s2 in
  log_at back m patches scope ∧ recorded_scope (st_scope_base back) ∧
  (env_publication env = PublishRaises true status →
   commit_ends env m s patches scope p back (Failed PublishFailed)).
Proof.
  intros Hlog Hrec Hst Hl Hb Hs Hr Hd back.
  destruct (withdrawn_fields env s p s2 status changed) as (Hl' & Hb' & Hd' & Hs' & Hr'); try done; [apply Hlog|].
  assert (log_at back m patches scope) as Hlogb by by apply (log_at_same s).
  split_and!; [done|unfold back; by rewrite Hs'|]. intros Hpub. by apply (commit_withdrawn env m s patches scope p back status).
Qed.

(** Every commit of a committable Patch ends in one of the two ways. *)
Lemma commit_run env m s s' r patches scope q report graph matters :
  log_at s m patches scope → recorded_scope (st_scope_base s) → (_next_revision s < 1000000)%Z →
  committable m (replay_result m patches scope) (_next_revision s) q report graph →
  commit_patch env m (_next_revision s) (admitted q report) matters s = (s', r) →
  commit_ends env m s patches scope (admitted q report) s' r.
Proof.
  intros Hlog Hrec Hlt Hcm Hc.
  destruct (write_run env s m patches scope q report graph Hlog Hrec Hlt Hcm)
    as (Hw & Hlog1 & Hrec1 & (rep & Hrep & _) & _).
  set (p := admitted q report) in *. set (s1 := set_log_entries _ s) in *.
  pose proof (log_at_aliases _ _ _ _ Hlog) as Hne.
  assert (∀ s2 r2 m2, st_log s2 = st_log s1 → st_branches s2 = st_branches s → log_at s2 m2 (patches ++ [p]) scope →
    st_scope_base s2 = st_scope_base s → manifest_grows m m2 →
    mr_state (replay_result m2 (patches ++ [p]) scope) = mr_state (replay_result m (patches ++ [p]) scope) →
    (∀ x, r2 = Done x → x = replay_result m (patches ++ [p]) scope ∧
       (env_publication env = PublishOk ∨ env_publication env = PublishRaises true CommitPresent)) →
    (r2 = Failed PublishFailed → ∃ status, env_publication env = PublishRaises false status) →
    commit_ends env m s patches scope p s2 r2) as Hkept.
  { intros s2 r2 m2 Hl Hb Hlog2 Hs Hg Heq Hx Hp. apply (commit_kept env m s patches scope p s2 r2 m2); try done.
    by rewrite Hs. }
  unfold commit_patch in Hc. run_bind Hc; [done|]. injection Hrun as <- <-.
  run_bind Hc; [congruence|]. rewrite Hw in Hrun. injection Hrun as <- <-.
  run_bind Hc; [by rewrite (outputs_eq _ _ _ _ Hlog1 Hrec1) in Hrun|].
  rewrite (outputs_eq _ _ _ _ Hlog1 Hrec1) in Hrun. injection Hrun as <- <-.
  set (result := replay_result m (patches ++ [p]) scope) in *.
  run_bind Hc.
  { destruct (commit_sync_run _ _ _ _ _ _ _ _ _ _ rep Hlog1 Hrec1 Hrep eq_refl Hrun) as
    (Hl & Hb & Hs & (m' & Hm' & Hg & Heq) & _ & _ & Hn).
    apply (Hkept _ _ m'); try done. congruence. }
  rename a into changed. destruct (commit_sync_run _ _ _ _ _ _ _ _ _ _ rep Hlog1 Hrec1 Hrep eq_refl Hrun) as
    (Hl & Hb & Hs & (m' & Hm' & Hg & Heq) & Hr & Hfalse & _).
  assert (changed = false → s0 = s1) as Hsame by (intros ->; by apply Hfalse). clear Hfalse Hrun.
  assert (Hback : ∀ status, status ≠ CommitPresent →
    let back := withdrawn status (_next_revision s) changed (st_document s) s0 in
    log_at back m patches scope ∧ recorded_scope (st_scope_base back) ∧
    (env_publication env = PublishRaises true status →
     commit_ends env m s patches scope p back (Failed PublishFailed))).
  { intros status Hst back. apply (commit_back env m s s0); try done. intros Hch. by rewrite (Hsame Hch). }
  run_bind Hc.
  - apply publish_run with (m := m) (patches := patches) (scope := scope) in Hrun;
      [|by intros status Hst; destruct (Hback status Hst) as (? & ? & _)].
    destruct Hrun as [(He & _)|(He & [(status & Hpub & ->)|(status & Hpub & Hst & ->)])]; [done| |];
      injection He as ->.
    + apply (Hkept _ _ m'); try done. by exists status.
    + by apply Hback.
  - apply publish_run with (m := m) (patches := patches) (scope := scope) in Hrun;
      [|by intros status Hst; destruct (Hback status Hst) as (? & ? & _)].
    destruct Hrun as [(_ & El & Eb & Es & Ed & Hpub)|(He & _)]; [|done].
    run_bind Hc; [done|]. apply remember_run in Hrun as [_ ->]. injection Hc as <- <-.
    apply (Hkept _ _ m'); cbn [set_accepted st_log st_branches st_scope_base].
    + by rewrite El.
    + by rewrite Eb.
    + by apply (log_at_same s0).
    + by rewrite Es.
    + done.
    + done.
    + by intros x [= <-].
    + done.
Qed.
End writers.
