(* ===== verification/BranchWriters.v ===== *)
(** Healthy branches and their writers: when the replay of a branch is complete,
    what a Patch appended to it does and how its head follows its Patches; and
    whatever happens to an append, the branch it leaves replays, and nothing but
    the branch has changed. *)

From S2P Require Export Branches Durability.

#[local] Arguments replay_step : simpl never.

(** ** Files numbered one by one *)

Fixpoint numbered (start : Z) (l : list LogEntry) (patches : list Patch) : Prop :=
  match l, patches with
  | [], [] => True
  | e :: l, p :: patches => le_revision e = start ∧ p_revision p = start ∧ numbered (start + 1) l patches
  | _, _ => False
  end.

Lemma decode_paths_length l patches : _decode_paths l = (patches, None) → length l = length patches.
Proof.
  revert patches. induction l as [|e l IH]; intros patches; cbn; [by intros [= <-]|].
  destruct (load_entry e); [|done]. destruct (_decode_paths l) as [ps f]. cbn. intros [= <- ->]. cbn. by rewrite (IH ps).
Qed.

Lemma sequence_numbered l patches start : length l = length patches →
  _validate_revision_sequence l patches start = None ↔ numbered start l patches.
Proof.
  revert patches start. induction l as [|e l IH]; intros [|p patches] start; cbn; try done. intros [= Hlen].
  destruct (Z.eqb_spec (le_revision e) start), (Z.eqb_spec (p_revision p) start); cbn; naive_solver.
Qed.

Lemma numbered_app start l1 ps1 l2 ps2 : length l1 = length ps1 →
  numbered start (l1 ++ l2) (ps1 ++ ps2) ↔ numbered start l1 ps1 ∧ numbered (start + Z.of_nat (length ps1)) l2 ps2.
Proof.
  revert ps1 start. induction l1 as [|e l1 IH]; intros [|p ps1] start; cbn; try done.
  - rewrite Z.add_0_r. naive_solver.
  - intros [= Hlen]. rewrite (IH ps1) by done. replace (start + 1 + Z.of_nat (length ps1))%Z with
      (start + Z.of_nat (S (length ps1)))%Z by lia. tauto.
Qed.

Lemma numbered_length start l ps : numbered start l ps → length l = length ps.
Proof. revert ps start. induction l as [|e l IH]; intros [|p ps] start; cbn; try done. intros (_ & _ & Hn). by rewrite (IH ps (start + 1)%Z). Qed.

(** The numbers of the files and of the Patches. *)
Lemma numbered_bounds start l ps : numbered start l ps →
  (∀ e, e ∈ l → (start ≤ le_revision e < start + Z.of_nat (length ps))%Z) ∧
  ∀ p, p ∈ ps → (start ≤ p_revision p < start + Z.of_nat (length ps))%Z.
Proof.
  revert ps start. induction l as [|e l IH]; intros [|p ps] start; cbn; try done; [set_solver|].
  intros (He & Hp & Hn). destruct (IH ps _ Hn) as [Hl Hps]. split.
  - intros x [->|Hx]%elem_of_cons; [lia|]. specialize (Hl x Hx). lia.
  - intros x [->|Hx]%elem_of_cons; [lia|]. specialize (Hps x Hx). lia.
Qed.

Lemma numbered_last start l ps e : numbered start l ps → last l = Some e →
  le_revision e = (start + Z.of_nat (length ps) - 1)%Z.
Proof.
  intros Hn [l' ->]%last_Some. destruct ps as [|p ps' _] using rev_ind.
  - by destruct l'.
  - pose proof (numbered_length _ _ _ Hn) as Hlen. rewrite !length_app in Hlen. cbn in Hlen.
    rewrite numbered_app in Hn by lia. destruct Hn as (_ & He & _). rewrite length_app. cbn. lia.
Qed.

Lemma first_failure_none a b : first_failure a b = None ↔ a = None ∧ b = None.
Proof. destruct a, b; naive_solver. Qed.

Section health.
Context `{NodeAdapterLaws} `{!RecordAdapter, !TextLib, !CanonicalHash}.
Implicit Types (m : Manifest) (meta : GraphBranchMetadata) (b : BranchStore) (s : Store) (p : Patch).

Notation base_revision meta := (head_revision (gbm_base_head meta)).
Notation base_transition meta := (head_transition_id (gbm_base_head meta)).
Notation complete r := (gs_replay_status (mr_state r) = ReplayComplete).

(** ** The base *)

(** The files of main up to the base replay to the head the branch was created on. *)
Record base_healthy m meta s (base : list Patch) (scope : list string) : Prop := {
  bb_scope : _initial_truth_scope m (st_scope_base s) meta = (scope, None);
  bb_decode : _decode_paths (base_log meta s) = (base, None);
  bb_numbered : numbered 1 (base_log meta s) base;
  bb_chain : accepted_transition_head_chain_failure base main_target None = None;
  bb_complete : complete (replay_result m base scope);
  bb_head : _head_for_patches (replay_result m base scope) main_target None = gbm_base_head meta }.

Lemma healthy_base m meta s base scope :
  base_healthy m meta s base scope → _materialize_base m meta s = replay_result m base scope.
Proof.
  intros [Hsc Hd Hn Hch Hc Hh]. unfold _materialize_base. rewrite Hsc, Hd. cbn [is_some first_failure].
  rewrite (proj2 (sequence_numbered _ _ _ (decode_paths_length _ _ Hd))) by done. rewrite Hch. cbn [first_failure].
  rewrite decide_False; [done|]. intros [_ Hne]. by apply Hne.
Qed.

Lemma halt_on_complete f r : complete (halt_on f r) → f = None ∧ complete r.
Proof. destruct f; cbn; [done|by intros]. Qed.

Lemma base_complete m meta s :
  complete (_materialize_base m meta s) → ∃ base scope, base_healthy m meta s base scope.
Proof.
  unfold _materialize_base. destruct (_initial_truth_scope _ _ _) as [scope sf] eqn:Hsc.
  destruct (_decode_paths (base_log meta s)) as [base bf] eqn:Hd. cbv zeta.
  intros [Hf Hc]%halt_on_complete. rewrite !first_failure_none in Hf. destruct Hf as ((((-> & ->) & Hn) & Hch) & Hh).
  cbn [first_failure is_some] in *. exists base, scope. split; try done.
  - by apply sequence_numbered; [by apply decode_paths_length|].
  - case_decide as Hx; [done|]. destruct (decide (_head_for_patches (replay_result m base scope) main_target None = gbm_base_head meta)); [done|].
    exfalso. by apply Hx.
Qed.

(** ** Branches *)

Record branch_healthy m meta b s (base patches : list Patch) (scope : list string) : Prop := {
  bh_base : base_healthy m meta s base scope;
  bh_decode : _decode_paths (bs_log b) = (patches, None);
  bh_numbered : numbered (base_revision meta + 1) (bs_log b) patches;
  bh_chain : accepted_transition_head_chain_failure patches (branch_target (gbm_branch_id meta)) (base_transition meta) = None;
  bh_complete : complete (replay_result m (base ++ patches) scope) }.

Lemma healthy_branch_replay m meta b s base patches scope :
  branch_healthy m meta b s base patches scope → _replay_branch m meta b s = replay_result m (base ++ patches) scope.
Proof.
  intros [Hb Hd Hn Hch Hc]. unfold _replay_branch. rewrite (healthy_base _ _ _ _ _ Hb), (bb_scope _ _ _ _ _ Hb), Hd.
  rewrite decide_False by (rewrite (bb_complete _ _ _ _ _ Hb); done). cbn [is_some first_failure].
  rewrite (proj2 (sequence_numbered _ _ _ (decode_paths_length _ _ Hd))) by done. by rewrite Hch.
Qed.

(** A degraded base is final. *)
Lemma base_degraded m meta b s :
  gs_replay_status (mr_state (_materialize_base m meta s)) = ReplayDegraded → ¬ complete (_replay_branch m meta b s).
Proof.
  intros Hbase. unfold _replay_branch. rewrite decide_True by done.
  destruct (_initial_truth_scope _ _ _) as [scope sf] eqn:Hsc.
  destruct (gs_replay_failure _) as [f|] eqn:Hf.
  { cbn [is_some first_failure]. by intros [? _]%halt_on_complete. }
  cbn [is_some first_failure]. destruct (_decode_paths (bs_log b)) as [patches bf]. intros [_ Hc]%halt_on_complete.
  assert (∃ base, mr_patches (_materialize_base m meta s) = (if is_some sf then [] else base) ∧
    gs_replay_status (mat_state (materialize_patches (replay_manifest m) (if is_some sf then [] else base) scope)) = ReplayDegraded)
    as (base & Hp & Hs).
  { revert Hbase Hf. unfold _materialize_base. rewrite Hsc. destruct (_decode_paths (base_log meta s)) as [base bf2].
    cbv zeta. destruct (first_failure _ _) as [f|]; [done|]. intros Hs _. by exists base. }
  rewrite Hp in Hc. destruct (is_some sf); [by unfold mr_state in Hc; cbn in Hc, Hs; rewrite Hs in Hc|].
  unfold mr_state in Hc. cbn in Hc. rewrite replay_is_incremental, decide_False in Hc by (rewrite Hs; done).
  by rewrite Hs in Hc.
Qed.

Lemma branch_complete m meta b s :
  complete (_replay_branch m meta b s) → ∃ base patches scope, branch_healthy m meta b s base patches scope.
Proof.
  intros Hc. destruct (status_cases (mr_state (_materialize_base m meta s))) as [Hs|Hs].
  2: { by apply (base_degraded m meta b s) in Hs. }
  destruct (base_complete m meta s Hs) as (base & scope & Hb). unfold _replay_branch in Hc.
  rewrite (healthy_base _ _ _ _ _ Hb), (bb_scope _ _ _ _ _ Hb) in Hc.
  rewrite decide_False in Hc by (rewrite (bb_complete _ _ _ _ _ Hb); done). cbn [is_some first_failure] in Hc.
  destruct (_decode_paths (bs_log b)) as [patches bf] eqn:Hd. apply halt_on_complete in Hc as [Hf Hc].
  rewrite !first_failure_none in Hf. destruct Hf as [[-> Hn] Hch]. cbn [is_some] in Hn. exists base, patches, scope.
  split; try done. by apply sequence_numbered; [by apply decode_paths_length|].
Qed.

(** A replay looks at nothing but the files, the recorded scope and the identity
    of the branch. *)
Lemma replay_branch_ext m meta meta' b b' s s' :
  with_head meta (gbm_head meta') = meta' → bs_log b' = bs_log b → st_log s' = st_log s →
  st_scope_base s' = st_scope_base s → _replay_branch m meta' b' s' = _replay_branch m meta b s.
Proof.
  intros <- Hb Hl Hs. unfold _replay_branch, _materialize_base, base_log. cbn [with_head gbm_base_head gbm_branch_id gbm_created_at].
  by rewrite Hb, Hl, Hs.
Qed.

(** ** Heads *)

Lemma base_revisions m meta s base scope p :
  base_healthy m meta s base scope → p ∈ base → (p_revision p ≤ base_revision meta)%Z.
Proof.
  intros Hb Hp. pose proof (bb_numbered _ _ _ _ _ Hb) as Hn.
  assert (∀ l ps start, numbered start l ps → p ∈ ps → ∃ e, e ∈ l ∧ le_revision e = p_revision p) as Hin.
  { intros l. induction l as [|e l IH]; intros [|q ps] start; cbn; try done; [intros _ ?%elem_of_nil; done|].
    intros (He & Hq & Hl) [->|Hx]%elem_of_cons; [exists e; split; [left|congruence]|].
    destruct (IH ps _ Hl Hx) as (e' & ? & ?). exists e'. split; [by right|done]. }
  destruct (Hin _ _ _ Hn Hp) as (e & He & <-). unfold base_log in He. apply elem_of_bfilter in He as [He _].
  by apply Z.leb_le.
Qed.

Lemma branch_transition_base meta id base patches :
  (∀ p, p ∈ base → (p_revision p ≤ base_revision meta)%Z) →
  (∀ p, p ∈ patches → (base_revision meta < p_revision p)%Z) →
  foldl (λ id p,
    if (p_revision p <=? base_revision meta)%Z then id
    else match p_admission p, p_transition p with
         | AdmissionAccepted, Some tr => Some (tt_transition_id tr) | _, _ => id
         end) id (base ++ patches) = chain_head id patches.
Proof.
  intros Hb Hp. rewrite foldl_app.
  assert (∀ id, foldl (λ id p, if (p_revision p <=? base_revision meta)%Z then id
    else match p_admission p, p_transition p with
         | AdmissionAccepted, Some tr => Some (tt_transition_id tr) | _, _ => id end) id base = id) as ->.
  { clear Hp. induction base as [|q base IH]; intros i; cbn; [done|].
    rewrite (proj2 (Z.leb_le _ _)) by (apply Hb; left). apply IH. intros x Hx. apply Hb. by right. }
  clear Hb. revert id. induction patches as [|q patches IH]; intros id; cbn; [done|].
  rewrite (proj2 (Z.leb_gt _ _)) by (apply Hp; left). apply IH. intros x Hx. apply Hp. by right.
Qed.

Lemma healthy_branch_head m meta b s base patches scope :
  branch_healthy m meta b s base patches scope →
  branch_head_ref meta (replay_result m (base ++ patches) scope) =
    {| head_target := branch_target (gbm_branch_id meta);
       head_revision := gs_revision (mr_state (replay_result m (base ++ patches) scope));
       head_transition_id := chain_head (base_transition meta) patches |}.
Proof.
  intros Hh. unfold branch_head_ref, branch_transition. f_equal. apply branch_transition_base.
  - intros p. eapply base_revisions, bh_base, Hh.
  - intros p Hp. apply (numbered_bounds _ _ _ (bh_numbered _ _ _ _ _ _ _ Hh)) in Hp. lia.
Qed.

(** ** Appending a file *)

Lemma decode_paths_app l1 l2 patches :
  _decode_paths l1 = (patches, None) →
  _decode_paths (l1 ++ l2) = (patches ++ (_decode_paths l2).1, (_decode_paths l2).2).
Proof.
  revert patches. induction l1 as [|e l1 IH]; intros patches; simpl.
  { intros [= <-]. by destruct (_decode_paths l2). }
  destruct (load_entry e) as [p|]; [|done]. destruct (_decode_paths l1) as [ps f] eqn:Hd.
  cbn [fst snd]. intros [= <- ->]. by rewrite (IH ps eq_refl).
Qed.

Lemma healthy_next_revision m meta b s base patches scope :
  branch_healthy m meta b s base patches scope →
  branch_next_revision meta b = (base_revision meta + 1 + Z.of_nat (length patches))%Z.
Proof.
  intros Hh. pose proof (bh_numbered _ _ _ _ _ _ _ Hh) as Hn. unfold branch_next_revision.
  destruct (last (bs_log b)) as [e|] eqn:Hl; [rewrite (numbered_last _ _ _ _ Hn Hl); lia|].
  apply last_None in Hl. apply numbered_length in Hn. rewrite Hl in Hn. cbn in Hn. lia.
Qed.

Lemma branch_append m meta b s base patches scope e p :
  branch_healthy m meta b s base patches scope → load_entry e = inl p →
  le_revision e = branch_next_revision meta b → p_revision p = branch_next_revision meta b →
  continues (branch_target (gbm_branch_id meta)) (chain_head (base_transition meta) patches) p →
  (replay_step (replay_manifest m) (mr_materialization (replay_result m (base ++ patches) scope)) p).2 = true →
  branch_healthy m meta (set_bs_log (λ l, l ++ [e]) b) s base (patches ++ [p]) scope ∧
  mr_materialization (replay_result m (base ++ patches ++ [p]) scope) =
    (replay_step (replay_manifest m) (mr_materialization (replay_result m (base ++ patches) scope)) p).1.
Proof.
  intros Hh He Hle Hp Hcont Hstep. pose proof (healthy_next_revision _ _ _ _ _ _ _ Hh) as Hnext.
  destruct Hh as [Hb Hd Hn Hch Hst]. cbn [replay_result mr_materialization] in *.
  assert (materialize_patches (replay_manifest m) (base ++ patches ++ [p]) scope =
    (replay_step (replay_manifest m) (materialize_patches (replay_manifest m) (base ++ patches) scope) p).1) as Heq.
  { rewrite app_assoc, replay_is_incremental, decide_True by exact Hst. cbn [replay]. by destruct (_.2). }
  split; [|exact Heq]. split; cbn [set_bs_log bs_log].
  - done.
  - rewrite (decode_paths_app _ _ patches) by done. simpl. by rewrite He.
  - apply numbered_app; [by apply numbered_length in Hn|]. split; [done|]. cbn. lia.
  - rewrite (chain_app patches) by done. by apply chain_one.
  - unfold mr_state. cbn [replay_result mr_materialization]. rewrite Heq.
    rewrite (replay_step_status (replay_manifest m)) by apply replayed_graph_wf. rewrite Hstep. exact Hst.
Qed.

(** The Patch prepared on the head of a branch. *)
Lemma branch_committable cfg m d meta b s base patches scope raw revision auth q report graph :
  branch_healthy m meta b s base patches scope →
  prepare_on_branch cfg m d meta (replay_result m (base ++ patches) scope) raw revision auth = Done (q, report, graph) →
  (∀ first, head raw = Some first → one_producer first raw) → Forall decodable raw →
  require_branch_patches raw = Done tt →
  decodable (admitted q report) ∧ p_revision q = revision ∧
  continues (branch_target (gbm_branch_id meta)) (chain_head (base_transition meta) patches) (admitted q report) ∧
  (replay_step (replay_manifest m) (mr_materialization (replay_result m (base ++ patches) scope)) (admitted q report)).2 = true.
Proof.
  intros Hh Hp Hone Hdec Hreq. unfold prepare_on_branch in Hp. rewrite (healthy_branch_head _ _ _ _ _ _ _ Hh) in Hp.
  apply transition_committable_on in Hp as [Hd Hr Hc Hs _]; [done|]. cbn [default].
  split; [done..|]. intros first prov Hf Hm. destruct raw as [|x raw]; [done|]. injection Hf as ->.
  cbn in Hreq. apply outcome_bind_done in Hreq as (u & Hx & _). unfold _require_branch_patch in Hx.
  apply outcome_bind_done in Hx as (u1 & _ & Hx). apply outcome_bind_done in Hx as (u2 & Hx%ensure_done & _).
  by rewrite Hm in Hx.
Qed.
End health.

#[local] Arguments load_manifest : simpl never.
#[local] Arguments _replay_branch : simpl never.

(** ** What a writer of a branch leaves alone *)

(** Main, and every other branch. *)
Record branch_frame (id : string) (s s' : Store) : Prop := {
  bf_log : st_log s' = st_log s;
  bf_scope : st_scope_base s' = st_scope_base s;
  bf_document : st_document s' = st_document s;
  bf_repair : st_repair_required s' = st_repair_required s;
  bf_accepted : st_accepted_revision s' = st_accepted_revision s;
  bf_branches : ∀ other, other ≠ id → st_branches s' !! other = st_branches s !! other;
  bf_repairs : ∀ other, other ≠ id → other ∈ st_branch_repairs s' ↔ other ∈ st_branch_repairs s }.

#[export] Instance branch_frame_preorder id : PreOrder (branch_frame id).
Proof.
  split; [by split|]. intros s1 s2 s3 [] []. split; try congruence.
  - intros o Ho. by rewrite bf_branches1, bf_branches0.
  - intros o Ho. by rewrite bf_repairs1, bf_repairs0.
Qed.

Lemma on_branch_run id f s s' r : on_branch id f s = (s', r) →
  r = Done tt ∧ branch_dir s' id = f (branch_dir s id) ∧ branch_frame id s s'.
Proof.
  intros [= <- <-]. split; [done|]. unfold branch_dir. cbn. rewrite lookup_partial_alter_eq. split; [done|].
  split; try done. intros o Ho. cbn. by rewrite lookup_partial_alter_ne.
Qed.

Lemma repairs_run f id s s' r : (∀ other x, other ≠ id → other ∈ f x ↔ other ∈ x) →
  modify (set_branch_repairs f) s = (s', r) →
  r = Done tt ∧ branch_dir s' id = branch_dir s id ∧ branch_frame id s s'.
Proof. intros Hf [= <- <-]. split; [done|]. split; [done|]. split; try done. intros o Ho. by apply Hf. Qed.

Lemma require_repair_run id s s' r : require_repair id s = (s', r) →
  r = Done tt ∧ branch_dir s' id = branch_dir s id ∧ branch_frame id s s'.
Proof. apply repairs_run. set_solver. Qed.

Lemma complete_repair_run id s s' r : complete_repair id s = (s', r) →
  r = Done tt ∧ branch_dir s' id = branch_dir s id ∧ branch_frame id s s'.
Proof. apply repairs_run. set_solver. Qed.

Section writers.
Context `{NodeAdapterLaws} `{!RecordAdapter, !TextLib, !CanonicalHash}.
Implicit Types (m : Manifest) (meta : GraphBranchMetadata) (b : BranchStore) (s : Store) (p : Patch).

Notation complete r := (gs_replay_status (mr_state r) = ReplayComplete).

(** The branch a manager was opened on exists and replays under the manifest in
    force. *)
Definition branch_ok s (identity : GraphBranchMetadata) : Prop :=
  ∃ m meta, load_manifest (st_document s) = Ok m ∧
    _read_metadata identity (branch_dir s (gbm_branch_id identity)) = Done meta ∧
    complete (_replay_branch m meta (branch_dir s (gbm_branch_id meta)) s).

Record branch_at s (identity : GraphBranchMetadata) m meta (base patches : list Patch) (scope : list string) : Prop := {
  ba_manifest : load_manifest (st_document s) = Ok m;
  ba_metadata : _read_metadata identity (branch_dir s (gbm_branch_id identity)) = Done meta;
  ba_id : gbm_branch_id meta = gbm_branch_id identity;
  ba_healthy : branch_healthy m meta (branch_dir s (gbm_branch_id identity)) s base patches scope }.

Lemma read_metadata_done identity b meta : _read_metadata identity b = Done meta →
  bs_metadata b = Some meta ∧ gbm_branch_id meta = gbm_branch_id identity ∧ with_head meta (gbm_head identity) = identity.
Proof.
  unfold _read_metadata. destruct (bs_metadata b) as [x|]; [|done].
  intros (u & Hid%ensure_done & (v & Hm%ensure_done & Hx)%outcome_bind_done)%outcome_bind_done. injection Hx as ->.
  by apply bool_decide_eq_true in Hid, Hm.
Qed.

Lemma read_metadata_head identity b meta h : _read_metadata identity b = Done meta →
  bs_metadata b = Some meta → ∀ b', bs_metadata b' = Some (with_head meta h) →
  _read_metadata identity b' = Done (with_head meta h).
Proof.
  intros Hr _ b' Hb'. apply read_metadata_done in Hr as (_ & Hid & Hm). unfold _read_metadata. rewrite Hb'.
  unfold str_eqb. cbn [with_head gbm_branch_id]. by rewrite (bool_decide_eq_true_2 _ Hid), (bool_decide_eq_true_2 _ Hm).
Qed.

Lemma branch_ok_at s identity : branch_ok s identity ↔ ∃ m meta base patches scope, branch_at s identity m meta base patches scope.
Proof.
  split.
  - intros (m & meta & Hm & Hr & Hc). pose proof (read_metadata_done _ _ _ Hr) as (_ & Hid & _).
    apply branch_complete in Hc as (base & patches & scope & Hh). rewrite Hid in Hh. by exists m, meta, base, patches, scope.
  - intros (m & meta & base & patches & scope & [Hm Hr Hid Hh]). exists m, meta. split_and!; [done..|].
    rewrite Hid, (healthy_branch_replay _ _ _ _ _ _ _ Hh). apply Hh.
Qed.

(** ** Reading *)

Lemma read_metadata_run identity s s' r : read_metadata identity s = (s', r) →
  s' = s ∧ r = _read_metadata identity (branch_dir s (gbm_branch_id identity)).
Proof. by intros [= <- <-]. Qed.

Lemma branch_materialize_run m meta s s' r : branch_materialize m meta s = (s', r) →
  s' = s ∧ r = Done (_replay_branch m meta (branch_dir s (gbm_branch_id meta)) s).
Proof. by intros [= <- <-]. Qed.

Lemma branch_at_replay s identity m meta base patches scope : branch_at s identity m meta base patches scope →
  _replay_branch m meta (branch_dir s (gbm_branch_id meta)) s = replay_result m (base ++ patches) scope.
Proof. intros [_ _ Hid Hh]. rewrite Hid. by apply healthy_branch_replay. Qed.

(** A branch whose directory and base are as they were is as healthy. *)
Lemma branch_healthy_same m meta h b b' s s' base patches scope :
  bs_log b' = bs_log b → st_log s' = st_log s → st_scope_base s' = st_scope_base s →
  branch_healthy m meta b s base patches scope → branch_healthy m (with_head meta h) b' s' base patches scope.
Proof.
  intros Hb Hl Hs [[] Hd Hn Hc Hst]. unfold base_log in *.
  split; try by rewrite ?Hb. split; unfold base_log; rewrite ?Hl, ?Hs; done.
Qed.

(** After a write the manager finds its branch again, with a new head. *)
Lemma branch_at_moves s s' identity m meta base patches scope base' patches' scope' h :
  branch_at s identity m meta base patches scope → branch_frame (gbm_branch_id meta) s s' →
  bs_metadata (branch_dir s' (gbm_branch_id meta)) = Some (with_head meta h) →
  branch_healthy m meta (branch_dir s' (gbm_branch_id meta)) s base' patches' scope' →
  branch_at s' identity m (with_head meta h) base' patches' scope'.
Proof.
  intros [Hm Hr Hid Hh] [] Hmeta Hh'. rewrite Hid in *. pose proof (read_metadata_done _ _ _ Hr) as (Hb & _).
  split; [by rewrite bf_document0|by eapply read_metadata_head|done|].
  by eapply branch_healthy_same; [..|exact Hh'].
Qed.

Lemma branch_at_head s identity m meta base patches scope h :
  branch_at s identity m meta base patches scope → branch_head_ref (with_head meta h) = branch_head_ref meta.
Proof. done. Qed.

(** ** Repair *)

Lemma branch_repair_run env meta current s s' r : branch_repair_locked env meta current s = (s', r) →
  branch_frame (gbm_branch_id meta) s s' ∧
  bs_log (branch_dir s' (gbm_branch_id meta)) = bs_log (branch_dir s (gbm_branch_id meta)) ∧
  bs_receipts (branch_dir s' (gbm_branch_id meta)) = bs_receipts (branch_dir s (gbm_branch_id meta)) ∧
  (bs_metadata (branch_dir s' (gbm_branch_id meta)) = bs_metadata (branch_dir s (gbm_branch_id meta)) ∨
   ∃ h, bs_metadata (branch_dir s' (gbm_branch_id meta)) = Some (with_head meta h)).
Proof.
  intros Hr. unfold branch_repair_locked in Hr. run_bind Hr; [done|]. injection Hrun as <- <-.
  destruct (bool_decide _); [|injection Hr as <- <-; split_and!; [reflexivity|done..|by left]].
  run_bind Hr; apply lift_run in Hrun as [-> _]; [split_and!; [reflexivity|done..|by left]|].
  run_bind Hr; [by apply on_branch_run in Hrun as [? _]|]. apply on_branch_run in Hrun as (_ & Hdir & Hf).
  destruct (env_repair_publishes env).
  - apply complete_repair_run in Hr as (_ & Hd2 & Hf2). rewrite Hd2, Hdir. split; [by etrans|]. split_and!; [done..|right; by eexists].
  - run_bind Hr; [by apply require_repair_run in Hrun as [? _]|]. apply require_repair_run in Hrun as (_ & Hd2 & Hf2).
    apply lift_run in Hr as [-> _]. rewrite Hd2, Hdir. split; [by etrans|]. split_and!; [done..|right; by eexists].
Qed.

Lemma open_branch_run env identity s s' r m meta base patches scope :
  branch_at s identity m meta base patches scope → open_branch_log env identity s = (s', r) →
  branch_frame (gbm_branch_id meta) s s' ∧
  bs_log (branch_dir s' (gbm_branch_id meta)) = bs_log (branch_dir s (gbm_branch_id meta)) ∧
  bs_receipts (branch_dir s' (gbm_branch_id meta)) = bs_receipts (branch_dir s (gbm_branch_id meta)) ∧
  (∃ h, bs_metadata (branch_dir s' (gbm_branch_id meta)) = Some (with_head meta h)) ∧
  ∀ x, r = Done x → x = (m, meta, replay_result m (base ++ patches) scope).
Proof.
  intros Hat Hr. pose proof Hat as [Hm Hread Hid Hh]. pose proof (read_metadata_done _ _ _ Hread) as (Hb & _ & _).
  rewrite <-Hid in Hb. assert (∃ h, bs_metadata (branch_dir s (gbm_branch_id meta)) = Some (with_head meta h)) as Hb0.
  { exists (gbm_head meta). rewrite Hb. by destruct meta. }
  unfold open_branch_log in Hr. run_bind Hr; unfold _reload_manifest in Hrun; rewrite Hm in Hrun; [done|]. injection Hrun as <- <-.
  run_bind Hr; destruct (read_metadata_run _ _ _ _ Hrun) as [-> Ha]; rewrite Hread in Ha; [done|]. injection Ha as ->. clear Hrun.
  run_bind Hr; [done|]. apply branch_materialize_run in Hrun as [-> Ha]. injection Ha as ->.
  rewrite (branch_at_replay _ _ _ _ _ _ _ Hat) in Hr. set (x := replay_result m (base ++ patches) scope) in *.
  assert (require_writable (mr_state x) = Done (mr_state x)) as Hw.
  { unfold require_writable. rewrite decide_False; [done|]. unfold x. by rewrite (bh_complete _ _ _ _ _ _ _ Hh). }
  run_bind Hr; apply lift_run in Hrun as [-> Ha]; rewrite Hw in Ha; [done|]. clear Ha.
  run_bind Hr; destruct (branch_repair_run _ _ _ _ _ _ Hrun) as (Hf & Hl & Hrc & Hmd);
    (assert (∃ h, bs_metadata (branch_dir s' (gbm_branch_id meta)) = Some (with_head meta h)) as Hb1
      by (first [injection Hr as <- <-|idtac]; destruct Hmd as [-> |?]; done)).
  - done.
  - injection Hr as <- <-. split_and!; try done. by intros ? [= <-].
Qed.

(** ** Committing *)

(** The branch after a writer that wrote some Patches, and what it returned. *)
Record branch_appended s s' (identity : GraphBranchMetadata) (written : list Patch)
    (result : option MaterializationResult) : Prop := {
  bw_frame : branch_frame (gbm_branch_id identity) s s';
  bw_ok : branch_ok s' identity;
  bw_files : le_document <$> bs_log (branch_dir s' (gbm_branch_id identity)) =
             (le_document <$> bs_log (branch_dir s (gbm_branch_id identity))) ++ (inl <$> written);
  bw_receipts : bs_receipts (branch_dir s' (gbm_branch_id identity)) = bs_receipts (branch_dir s (gbm_branch_id identity));
  bw_result : ∀ x m' meta', result = Some x → load_manifest (st_document s') = Ok m' →
    _read_metadata identity (branch_dir s' (gbm_branch_id identity)) = Done meta' →
    x = _replay_branch m' meta' (branch_dir s' (gbm_branch_id identity)) s' ∧ gbm_head meta' = branch_head_ref meta' x }.

Lemma branch_appended_none s s' identity written result :
  branch_appended s s' identity written result → branch_appended s s' identity written None.
Proof. intros []. by split. Qed.

Lemma branch_appended_intro s s' identity m meta base patches scope patches' h written :
  branch_at s identity m meta base patches scope → branch_frame (gbm_branch_id meta) s s' →
  bs_metadata (branch_dir s' (gbm_branch_id meta)) = Some (with_head meta h) →
  branch_healthy m meta (branch_dir s' (gbm_branch_id meta)) s base patches' scope →
  le_document <$> bs_log (branch_dir s' (gbm_branch_id meta)) =
    (le_document <$> bs_log (branch_dir s (gbm_branch_id meta))) ++ (inl <$> written) →
  bs_receipts (branch_dir s' (gbm_branch_id meta)) = bs_receipts (branch_dir s (gbm_branch_id meta)) →
  branch_appended s s' identity written
    (if decide (h = branch_head_ref meta (replay_result m (base ++ patches') scope))
     then Some (replay_result m (base ++ patches') scope) else None).
Proof.
  intros Hat Hf Hmeta Hh Hfiles Hrc.
  pose proof (branch_at_moves _ _ _ _ _ _ _ _ _ _ _ _ Hat Hf Hmeta Hh) as Hat'.
  destruct Hat as [Hm Hr Hid Hh0]. rewrite Hid in *. split; try done.
  - apply branch_ok_at. by exists m, (with_head meta h), base, patches', scope.
  - intros x m' meta' Hx Hm' Hr'. case_decide as Hhead; [|done]. injection Hx as <-.
    pose proof (branch_at_replay _ _ _ _ _ _ _ Hat') as Hrep. destruct Hat' as [Hm2 Hr2 Hid2 _].
    rewrite Hm2 in Hm'. injection Hm' as <-. rewrite Hr2 in Hr'. injection Hr' as <-. rewrite Hid2 in Hrep.
    split; [by rewrite Hrep|]. by rewrite (branch_at_head s identity m meta base patches scope).
Qed.

Lemma branch_unchanged s s' identity m meta base patches scope h :
  branch_at s identity m meta base patches scope → branch_frame (gbm_branch_id meta) s s' →
  bs_metadata (branch_dir s' (gbm_branch_id meta)) = Some (with_head meta h) →
  bs_log (branch_dir s' (gbm_branch_id meta)) = bs_log (branch_dir s (gbm_branch_id meta)) →
  bs_receipts (branch_dir s' (gbm_branch_id meta)) = bs_receipts (branch_dir s (gbm_branch_id meta)) →
  branch_appended s s' identity [] None.
Proof.
  intros Hat Hf Hmeta Hl Hrc. pose proof Hat as [_ _ Hid Hh].
  eapply branch_appended_none, (branch_appended_intro _ _ _ _ _ _ _ _ patches h); try done.
  - rewrite Hid in *. replace meta with (with_head meta (gbm_head meta)) by by destruct meta.
    by eapply branch_healthy_same; [..|exact Hh].
  - by rewrite Hl, app_nil_r.
Qed.

Lemma unwrite_branch m meta b s base patches scope n e :
  branch_healthy m meta b s base patches scope → branch_next_revision meta b = n → le_revision e = n →
  bfilter (λ e, negb (le_revision e =? n)%Z) (bs_log b ++ [e]) = bs_log b.
Proof.
  intros Hh <- He. unfold bfilter. rewrite List.filter_app. cbn. rewrite He, Z.eqb_refl. cbn. rewrite app_nil_r.
  assert (∀ x, x ∈ bs_log b → (le_revision x < branch_next_revision meta b)%Z) as Hall.
  { intros x Hx. rewrite (healthy_next_revision _ _ _ _ _ _ _ Hh).
    apply (numbered_bounds _ _ _ (bh_numbered _ _ _ _ _ _ _ Hh)) in Hx. lia. }
  revert Hall. generalize (branch_next_revision meta b) as n. intros n. clear. induction (bs_log b) as [|x l IH]; [done|].
  intros Hall. cbn. rewrite (proj2 (Z.eqb_neq _ _)) by (specialize (Hall x ltac:(left)); lia). cbn.
  rewrite IH; [done|]. intros y Hy. apply Hall. by right.
Qed.

(** The branch directory after its file is written. *)
Definition with_file meta (e : LogEntry) (h : GraphHeadRef) b : BranchStore :=
  set_bs_metadata (with_head meta h) (set_bs_log (λ l, l ++ [e]) b).

(** A publication keeps the file, or takes it back and rewrites the head. *)
Lemma publish_branch_run env m meta s s2 s' r base patches scope e h :
  branch_healthy m meta (branch_dir s (gbm_branch_id meta)) s base patches scope →
  le_revision e = branch_next_revision meta (branch_dir s (gbm_branch_id meta)) →
  branch_frame (gbm_branch_id meta) s s2 →
  branch_dir s2 (gbm_branch_id meta) = with_file meta e h (branch_dir s (gbm_branch_id meta)) →
  branch_publish env m meta (branch_next_revision meta (branch_dir s (gbm_branch_id meta))) s2 = (s', r) →
  branch_frame (gbm_branch_id meta) s s' ∧
  (branch_dir s' (gbm_branch_id meta) = with_file meta e h (branch_dir s (gbm_branch_id meta)) ∨
   (∃ err, r = Failed err) ∧
   ∃ h', branch_dir s' (gbm_branch_id meta) = set_bs_metadata (with_head meta h') (branch_dir s (gbm_branch_id meta))).
Proof.
  intros Hh He Hf2 Hdir2 Hr. set (b := branch_dir s (gbm_branch_id meta)) in *. set (n := branch_next_revision meta b) in *.
  unfold branch_publish in Hr. destruct (env_publication env) as [|[|] status].
  1: { injection Hr as <- <-. auto. }
  2: { injection Hr as <- <-. auto. }
  assert (∀ s3 landed, _reconcile_patch_publish_failure m meta status n s2 = (s3, landed) →
    branch_frame (gbm_branch_id meta) s s3 ∧
    (landed = Done true ∧ branch_dir s3 (gbm_branch_id meta) = with_file meta e h b ∨
     landed = Done false ∧ ∃ h', branch_dir s3 (gbm_branch_id meta) = set_bs_metadata (with_head meta h') b)) as Hrec.
  { clear Hr s' r. intros s' r Hr.
    assert (∀ s3, branch_dir s3 (gbm_branch_id meta) = set_bs_log (bfilter (λ e, negb (le_revision e =? n)%Z)) (with_file meta e h b) →
      bs_log (branch_dir s3 (gbm_branch_id meta)) = bs_log b ∧ bs_receipts (branch_dir s3 (gbm_branch_id meta)) = bs_receipts b) as Hback.
    { intros s3 ->. split; [|done]. cbn. by apply (unwrite_branch m meta b s base patches scope). }
    destruct status; cbn in Hr.
    { run_bind Hr; [by apply require_repair_run in Hrun as [? _]|]. apply require_repair_run in Hrun as (_ & Hd & Hf).
      injection Hr as <- <-. split; [by etrans|]. left. by rewrite Hd. }
    all: run_bind Hr; [by apply on_branch_run in Hrun as [? _]|]; apply on_branch_run in Hrun as (_ & Hd & Hf); rewrite Hdir2 in Hd;
      apply Hback in Hd as [Hl Hrc].
    all: run_bind Hr; [by try apply require_repair_run in Hrun as [? _]|].
    1: injection Hrun as <- <-.
    2: apply require_repair_run in Hrun as (_ & Hd0 & Hf0); rewrite <-Hd0 in Hl, Hrc; pose proof (transitivity Hf Hf0) as Hf1;
       clear Hf Hf0 Hd0; rename Hf1 into Hf.
    all: run_bind Hr; [done|]; apply branch_materialize_run in Hrun as [-> _].
    all: run_bind Hr; [by apply on_branch_run in Hrun as [? _]|]; apply on_branch_run in Hrun as (_ & Hd & Hf0); injection Hr as <- <-.
    all: split; [by do 2 (etrans; [done|])|]; right; split; [done|]; eexists; rewrite Hd; unfold set_bs_metadata; by rewrite Hl, Hrc. }
  run_bind Hr; destruct (Hrec _ _ Hrun) as [Hf [[? Hd]|[? Hd]]]; try done.
  - split; [by apply guard_run in Hr as [-> _]|]. left. by apply guard_run in Hr as [-> _].
  - simplify_eq. apply guard_run in Hr as [-> [[? _]|[_ ->]]]; [done|]. split; [done|]. right. split; [by eexists|done].
Qed.

Lemma commit_branch_run env m meta s s' identity base patches scope p r :
  branch_at s identity m meta base patches scope →
  (branch_next_revision meta (branch_dir s (gbm_branch_id meta)) < 1000000)%Z → decodable p →
  p_revision p = branch_next_revision meta (branch_dir s (gbm_branch_id meta)) →
  continues (branch_target (gbm_branch_id meta)) (chain_head (head_transition_id (gbm_base_head meta)) patches) p →
  (replay_step (replay_manifest m) (mr_materialization (replay_result m (base ++ patches) scope)) p).2 = true →
  branch_commit_patch env m meta (branch_next_revision meta (branch_dir s (gbm_branch_id meta))) p s = (s', r) →
  match r with
  | Done x => branch_appended s s' identity [p] (Some x)
  | Failed _ => ∃ written, branch_appended s s' identity written None ∧ length written ≤ 1
  end.
Proof.
  intros Hat Hlt Hd Hrev Hcont Hstep Hr. pose proof Hat as [_ _ Hid Hh]. rewrite <-Hid in Hh.
  set (b := branch_dir s (gbm_branch_id meta)) in *. set (revision := branch_next_revision meta b) in *.
  set (e := {| le_revision := revision; le_mtime := env_now env; le_document := inl p |}).
  destruct (branch_append m meta b s base patches scope e p Hh) as [Hh1 _]; [by unfold load_entry; cbn; rewrite Hd|done..|].
  unfold branch_commit_patch in Hr. run_bind Hr; [by apply on_branch_run in Hrun as [? _]|].
  apply on_branch_run in Hrun as (_ & Hdir1 & Hf1). rewrite (proj2 (Z.ltb_lt _ _)) in Hdir1 by done. fold b e in Hdir1.
  run_bind Hr; [done|]. apply branch_materialize_run in Hrun as [-> Ha]. injection Ha as ->. rewrite Hdir1 in Hr.
  assert (_replay_branch m meta (set_bs_log (λ l, l ++ [e]) b) s1 = replay_result m (base ++ patches ++ [p]) scope) as Hnew.
  { destruct Hf1. rewrite <-(healthy_branch_replay _ _ _ _ _ _ _ Hh1). apply replay_branch_ext; try done. by destruct meta. }
  rewrite Hnew in Hr. set (x := replay_result m (base ++ patches ++ [p]) scope) in *.
  run_bind Hr; [by apply on_branch_run in Hrun as [? _]|]. apply on_branch_run in Hrun as (_ & Hdir2 & Hf2).
  rewrite Hdir1 in Hdir2. pose proof (transitivity Hf1 Hf2) as Hf12.
  change (branch_dir s0 (gbm_branch_id meta) = with_file meta e (branch_head_ref meta x) b) in Hdir2.
  assert (∀ s3, branch_frame (gbm_branch_id meta) s s3 → branch_dir s3 (gbm_branch_id meta) = with_file meta e (branch_head_ref meta x) b →
    branch_appended s s3 identity [p] (Some x)) as Hkept.
  { intros s3 Hf3 Hdir3. pose proof (branch_appended_intro s s3 identity m meta base patches scope (patches ++ [p])
      (branch_head_ref meta x) [p] Hat Hf3) as Hi. rewrite Hdir3, decide_True in Hi by done. apply Hi; try done.
    - replace meta with (with_head meta (gbm_head meta)) at 1 by by destruct meta. by eapply branch_healthy_same; [..|exact Hh1].
    - cbn. by rewrite fmap_app. }
  run_bind Hr; destruct (publish_branch_run env m meta s s0 _ _ base patches scope e (branch_head_ref meta x) Hh eq_refl Hf12 Hdir2 Hrun)
    as [Hf [Hdir|[[err Herr] [h' Hdir]]]].
  - exists [p]. split; [by eapply branch_appended_none, Hkept|done].
  - exists []. split; [|cbn; lia]. eapply (branch_unchanged s s' identity m meta base patches scope h'); rewrite ?Hdir; done.
  - injection Hr as <- <-. by apply Hkept.
  - done.
Qed.

(** ** The writers *)

(** What a writer of a branch is asked to append: Patches of one producer that
    their own model accepts. *)
Definition branch_submittable (raw : list Patch) : Prop :=
  (∀ first, head raw = Some first → one_producer first raw) ∧ Forall decodable raw.

(** What an append may do to a branch: add the Patches it returns, one file at
    most, and return the branch as every later replay finds it. *)
Definition branch_outcome {A} (f : A → list Patch * option MaterializationResult) s s'
    (identity : GraphBranchMetadata) (r : outcome A) : Prop :=
  ∃ written, branch_appended s s' identity written (outcome_value r ≫= λ x, (f x).2) ∧ length written ≤ 1 ∧
    ∀ x, r = Done x → (f x).1 = written.

Lemma branch_outcome_stopped {A} (f : A → list Patch * option MaterializationResult) s s' identity e :
  branch_appended s s' identity [] None → branch_outcome f s s' identity (Failed e).
Proof. intros Ha. exists []. split; [exact Ha|]. cbn. split; [lia|done]. Qed.

Lemma branch_outcome_failed {A} (f : A → list Patch * option MaterializationResult) s s' identity written result e :
  branch_appended s s' identity written result → length written ≤ 1 → branch_outcome f s s' identity (Failed e).
Proof. intros Ha Hl. exists written. split; [by eapply branch_appended_none|]. by split. Qed.

Lemma branch_appended_first s0 s s' identity written result :
  branch_frame (gbm_branch_id identity) s0 s →
  bs_log (branch_dir s (gbm_branch_id identity)) = bs_log (branch_dir s0 (gbm_branch_id identity)) →
  bs_receipts (branch_dir s (gbm_branch_id identity)) = bs_receipts (branch_dir s0 (gbm_branch_id identity)) →
  branch_appended s s' identity written result → branch_appended s0 s' identity written result.
Proof.
  intros Hf Hl Hrc [Hf' Ho Hfi Hr Hx]. split; try done; [by etrans|by rewrite Hfi, Hl|by rewrite Hr].
Qed.

(** The branch a writer finds after it opened it. *)
Lemma branch_opened {A} env identity s s' m meta base patches scope
    (k : Manifest * GraphBranchMetadata * MaterializationResult → HM A) (f : A → list Patch * option MaterializationResult) o :
  branch_at s identity m meta base patches scope →
  (opened ← open_branch_log env identity; k opened : HM A) s = (s', o) →
  (∀ s1 h, branch_at s1 identity m (with_head meta h) base patches scope →
     branch_next_revision meta (branch_dir s1 (gbm_branch_id identity)) = branch_next_revision meta (branch_dir s (gbm_branch_id identity)) →
     k (m, meta, replay_result m (base ++ patches) scope) s1 = (s', o) → branch_outcome f s1 s' identity o) →
  branch_outcome f s s' identity o.
Proof.
  intros Hat Hr Hk. pose proof Hat as [_ _ Hid Hh].
  run_bind Hr; destruct (open_branch_run _ _ _ _ _ _ _ _ _ _ Hat Hrun) as (Hf & Hl & Hrc & [h Hmd] & Hx).
  - by apply branch_outcome_stopped, (branch_unchanged s s' identity m meta base patches scope h).
  - rewrite (Hx _ eq_refl) in Hr. assert (branch_at s1 identity m (with_head meta h) base patches scope) as Hat1.
    { eapply branch_at_moves; [exact Hat|exact Hf|exact Hmd|]. rewrite Hid in *.
      replace meta with (with_head meta (gbm_head meta)) by by destruct meta. by eapply branch_healthy_same; [..|exact Hh]. }
    rewrite Hid in *. destruct (Hk s1 h Hat1) as (written & Ha & Hlen & Hdone); [by unfold branch_next_revision; rewrite Hl|done|].
    exists written. split; [by eapply branch_appended_first|done].
Qed.

(** A candidate that was committed, or not. *)
Lemma branch_candidate_ends cfg env m meta s s' identity base patches scope raw auth q report graph h r :
  branch_at s identity m (with_head meta h) base patches scope →
  (branch_next_revision meta (branch_dir s (gbm_branch_id meta)) < 1000000)%Z →
  prepare_on_branch cfg m (st_document s) meta (replay_result m (base ++ patches) scope) raw
    (branch_next_revision meta (branch_dir s (gbm_branch_id meta))) auth = Done (q, report, graph) →
  branch_submittable raw → require_branch_patches raw = Done tt →
  branch_commit_patch env m meta (branch_next_revision meta (branch_dir s (gbm_branch_id meta))) (admitted q report) s = (s', r) →
  match r with
  | Done x => branch_appended s s' identity [admitted q report] (Some x)
  | Failed _ => ∃ written, branch_appended s s' identity written None ∧ length written ≤ 1
  end.
Proof.
  intros Hat Hlt Hp [Hone Hdec] Hreq Hr. pose proof Hat as [_ _ Hid Hh].
  destruct (branch_committable cfg m (st_document s) (with_head meta h) _ s base patches scope raw
    (branch_next_revision meta (branch_dir s (gbm_branch_id meta))) auth q report graph Hh Hp Hone Hdec Hreq) as (Hd & Hrev & Hc & Hs).
  by apply (commit_branch_run env m (with_head meta h) s s' identity base patches scope (admitted q report) r Hat).
Qed.

Definition one_branch_patch (x : Patch * MaterializationResult) : list Patch * option MaterializationResult := ([x.1], Some x.2).
Definition branch_patches (x : list Patch * MaterializationResult) : list Patch * option MaterializationResult :=
  (x.1, match x.1 with [] => None | _ => Some x.2 end).

Lemma branch_append_run cfg env identity p raising discarding expected auth s s' r :
  branch_ok s identity → branch_submittable [p] →
  (∀ meta, _read_metadata identity (branch_dir s (gbm_branch_id identity)) = Done meta →
     (branch_next_revision meta (branch_dir s (gbm_branch_id identity)) < 1000000)%Z) →
  branch_append_locked cfg env identity p raising discarding expected auth s = (s', r) →
  branch_outcome one_branch_patch s s' identity r.
Proof.
  intros (m & meta & base & patches & scope & Hat)%branch_ok_at Hsub Hlt Hr.
  specialize (Hlt meta (ba_metadata _ _ _ _ _ _ _ Hat)).
  eapply (branch_opened env identity s s' m meta base patches scope); [exact Hat|exact Hr|]. clear Hr.
  intros s1 h Hat1 Hn Hk. cbn beta iota in Hk. rewrite <-Hn in Hlt. pose proof (ba_id _ _ _ _ _ _ _ Hat) as Hid. rewrite <-Hid in Hlt.
  assert (∀ e, s' = s1 → branch_outcome one_branch_patch s1 s' identity (Failed e)) as Hstop.
  { intros e ->. apply branch_outcome_stopped, (branch_unchanged s1 s1 identity m (with_head meta h) base patches scope h); try done.
    pose proof (read_metadata_done _ _ _ (ba_metadata _ _ _ _ _ _ _ Hat1)) as (Hb & _). by rewrite <-Hid in Hb. }
  run_bind Hk; apply guard_run in Hrun as [-> _]; [by apply Hstop|].
  run_bind Hk; apply lift_run in Hrun as [-> Hreq]; [by apply Hstop|]. run_bind Hk; [done|]. injection Hrun as <- <-.
  cbv zeta in Hk. run_bind Hk; apply lift_run in Hrun as [-> Hcand]; [by apply Hstop|].
  destruct a1 as [[q report] graph]. symmetry in Hcand.
  run_bind Hk; apply lift_run in Hrun as [-> _]; [by apply Hstop|].
  run_bind Hk; apply guard_run in Hrun as [-> _]; [by apply Hstop|].
  assert (require_branch_patches [p] = Done tt) as Hreq1 by (cbn; by rewrite <-Hreq; destruct a0).
  run_bind Hk; pose proof (branch_candidate_ends cfg env m meta s1 _ identity base patches scope [p] auth q report graph h _
    Hat1 Hlt Hcand Hsub Hreq1 Hrun) as Ha.
  - destruct Ha as (written & Ha & Hlen). by eapply branch_outcome_failed.
  - run_bind Hk; apply guard_run in Hrun0 as [-> _]; [eapply branch_outcome_failed; [exact Ha|cbn; lia]|].
    injection Hk as <- <-. eexists. split; [exact Ha|]. split; [cbn; lia|]. by intros x [= <-].
Qed.

Lemma branch_batch_run cfg env identity build expected auth s s' r :
  branch_ok s identity →
  (∀ m meta, load_manifest (st_document s) = Ok m → _read_metadata identity (branch_dir s (gbm_branch_id identity)) = Done meta →
     (branch_next_revision meta (branch_dir s (gbm_branch_id identity)) < 1000000)%Z ∧
     branch_submittable (build (mr_state (_replay_branch m meta (branch_dir s (gbm_branch_id meta)) s)))) →
  branch_append_batch cfg env identity build expected auth s = (s', r) →
  branch_outcome branch_patches s s' identity r.
Proof.
  intros (m & meta & base & patches & scope & Hat)%branch_ok_at Hsub Hr.
  destruct (Hsub m meta (ba_manifest _ _ _ _ _ _ _ Hat) (ba_metadata _ _ _ _ _ _ _ Hat)) as [Hlt Hs].
  rewrite (branch_at_replay _ _ _ _ _ _ _ Hat) in Hs. clear Hsub.
  eapply (branch_opened env identity s s' m meta base patches scope); [exact Hat|exact Hr|]. clear Hr.
  intros s1 h Hat1 Hn Hk. cbn beta iota in Hk. rewrite <-Hn in Hlt. pose proof (ba_id _ _ _ _ _ _ _ Hat) as Hid. rewrite <-Hid in Hlt.
  assert (branch_appended s1 s1 identity [] None) as Hnone.
  { apply (branch_unchanged s1 s1 identity m (with_head meta h) base patches scope h); try done.
    pose proof (read_metadata_done _ _ _ (ba_metadata _ _ _ _ _ _ _ Hat1)) as (Hb & _). by rewrite <-Hid in Hb. }
  run_bind Hk; apply guard_run in Hrun as [-> _]; [by apply branch_outcome_stopped|].
  destruct (build (mr_state (replay_result m (base ++ patches) scope))) as [|raw raws].
  { injection Hk as <- <-. exists []. split; [exact Hnone|]. split; [cbn; lia|]. by intros x [= <-]. }
  run_bind Hk; apply lift_run in Hrun as [-> Hreq]; [by apply branch_outcome_stopped|]. run_bind Hk; [done|]. injection Hrun as <- <-.
  cbv zeta in Hk. run_bind Hk; apply lift_run in Hrun as [-> Hcand]; [by apply branch_outcome_stopped|].
  destruct a1 as [[q report] graph]. symmetry in Hcand.
  run_bind Hk; apply lift_run in Hrun as [-> _]; [by apply branch_outcome_stopped|].
  run_bind Hk; apply guard_run in Hrun as [-> _]; [by apply branch_outcome_stopped|].
  assert (require_branch_patches (raw :: raws) = Done tt) as Hreq1 by (rewrite <-Hreq; by destruct a0).
  run_bind Hk; pose proof (branch_candidate_ends cfg env m meta s1 _ identity base patches scope (raw :: raws) auth q report graph h _
    Hat1 Hlt Hcand Hs Hreq1 Hrun) as Ha.
  - destruct Ha as (written & Ha & Hlen). by eapply branch_outcome_failed.
  - injection Hk as <- <-. eexists. split; [exact Ha|]. split; [cbn; lia|]. by intros x [= <-].
Qed.

(** C21: no writer can break a branch with a well-formed submission. Such Patches
    ([branch_submittable]) are ones their own model accepts, of one producer: none
    is empty, they share the whole envelope, its scopes name no repository twice,
    and a seed or a refresh has one date. Whatever else they hold, and whatever the
    options and the outcome (success, refusal, rejection, a repair or a publication
    that failed in any of its ways), an append or a batch below revision one million
    to a branch that replays leaves main and every other branch as they were and the
    branch replayable: its old files, or these and one new file, the one it returns;
    and what it returns is what every later replay finds, with the head written in
    the branch's metadata. *)
Theorem branch_writers_keep_branch cfg env identity p raising discarding build expected auth s :
  branch_ok s identity →
  (∀ m meta, load_manifest (st_document s) = Ok m → _read_metadata identity (branch_dir s (gbm_branch_id identity)) = Done meta →
     (branch_next_revision meta (branch_dir s (gbm_branch_id identity)) < 1000000)%Z ∧
     branch_submittable [p] ∧
     branch_submittable (build (mr_state (_replay_branch m meta (branch_dir s (gbm_branch_id meta)) s)))) →
  (∀ s' r, branch_append_locked cfg env identity p raising discarding expected auth s = (s', r) →
     branch_outcome one_branch_patch s s' identity r) ∧
  (∀ s' r, branch_append_batch cfg env identity build expected auth s = (s', r) →
     branch_outcome branch_patches s s' identity r).
Proof.
  intros Hok Hsub. pose proof Hok as (m & meta & Hm & Hr & _). destruct (Hsub m meta Hm Hr) as (_ & Hp & _). split; intros s' r Hrun.
  - eapply branch_append_run; [exact Hok|exact Hp| |exact Hrun]. intros meta' Hr'. by destruct (Hsub m meta' Hm Hr').
  - eapply branch_batch_run; [exact Hok| |exact Hrun]. intros m' meta' Hm' Hr'. by destruct (Hsub m' meta' Hm' Hr') as (? & _ & ?).
Qed.
End writers.
