(* ===== verification/MergeCommit.v ===== *)
(** The commit of a merge: what [prepare_branch_merge_with_history] found to
    conform is what [commit_branch_merge_with_history] writes. *)

From S2P Require Export MergeConformance Durability.

#[local] Arguments replay_step : simpl never.
#[local] Arguments load_manifest : simpl never.
#[local] Arguments _replay : simpl never.
#[local] Arguments _validate_candidate_locked : simpl never.

Section commit.
Context `{NodeAdapterLaws} `{!RecordAdapter, !TextLib, !CanonicalHash}.
Implicit Types (cfg : HistoryConfig) (env : Env) (m : Manifest) (s : Store) (p : Patch).

(** The graph after an accepted step of the replay is the one the Patch gives. *)
Lemma accepted_step_graph (st : Settings) mat p :
  (replay_step st mat p).2 = true → p_admission p = AdmissionAccepted →
  ∃ g, apply_valid_patch (mat_state mat) p = Ok g ∧
    mat_state (replay_step st mat p).1 = add_messages (p_admission_messages p) g.
Proof.
  unfold replay_step, apply_valid_patch. intros Hs Hacc. rewrite Hacc in Hs |- *.
  destruct (rejected _); [done|]. destruct (_apply_patch (mat_state mat) p [] []) as [[g ds]|]; [|done].
  by exists g.
Qed.

(** Every writer finds a clean log as it is. *)
Lemma settle_clean env m s patches scope :
  log_at s m patches scope → recorded_scope (st_scope_base s) → st_repair_required s = false →
  settle env m (replay_result m patches scope) s = (s, Done (m, replay_result m patches scope)).
Proof.
  intros Hlog Hrec Hclean. destruct (settle env m (replay_result m patches scope) s) as [s2 r2] eqn:Hs.
  destruct (settle_run _ _ _ _ _ _ _ Hlog Hs) as (m1 & _ & _ & Heq). destruct (Heq Hclean) as [-> ->].
  unfold ensure_layout, modify. by destruct (st_scope_base s).
Qed.

(** A dry run of a candidate on a clean log changes nothing. *)
Lemma candidate_run cfg env p auth s s' x m patches scope :
  log_at s m patches scope → recorded_scope (st_scope_base s) → st_repair_required s = false →
  validate_candidate cfg env p auth s = (s', Done x) →
  s' = s ∧ ∃ graph,
    _validate_candidate_locked cfg m (st_document s) (replay_result m patches scope) p (_next_revision s) auth =
      Done (x.1.1, x.1.2, graph) ∧ x.2 = mr_state (replay_result m patches scope).
Proof.
  intros Hlog Hrec Hclean Hr. unfold validate_candidate in Hr.
  apply hm_bind_run in Hr as [(e & ? & ?)|(s1 & a & Hopen & Hr)]; [done|].
  destruct (open_run _ _ _ _ _ _ _ _ Hlog Hopen) as [-> [(e & He & _)|[Ha _]]]; [done|]. injection Ha as ->.
  cbn [fst snd] in Hr. apply hm_bind_run in Hr as [(e & ? & ?)|(s1 & a & Hset & Hr)]; [done|].
  rewrite (settle_clean env m s patches scope Hlog Hrec Hclean) in Hset. injection Hset as <- <-.
  cbn beta iota in Hr. apply hm_bind_run in Hr as [(e & ? & ?)|(s1 & a & Hget & Hr)]; [done|]. injection Hget as <- <-.
  apply hm_bind_run in Hr as [(e & ? & ?)|(s1 & cand & Hcand & Hr)]; [done|]. apply lift_run in Hcand as [-> Hcand].
  destruct cand as [[q report] graph]. injection Hr as <- <-. split; [done|]. by exists graph.
Qed.

(** A written candidate on a clean log: the Patch, and the graph it gives. *)
Lemma append_written cfg env p o s s' w result m patches scope q report graph :
  log_at s m patches scope → recorded_scope (st_scope_base s) → st_repair_required s = false →
  (_next_revision s < 1000000)%Z → submission (replay_result m patches scope) p →
  _validate_candidate_locked cfg m (st_document s) (replay_result m patches scope) p (_next_revision s)
    (ao_authorized_by o) = Done (q, report, graph) → rejected report = false →
  _append_locked cfg env p o s = (s', Done (w, result)) →
  w = admitted q report ∧
  le_document <$> st_log s' = (le_document <$> st_log s) ++ [inl w] ∧
  ∃ g, apply_valid_patch (mr_state (replay_result m patches scope)) w = Ok g ∧ mr_state result = add_messages report g.
Proof.
  intros Hlog Hrec Hclean Hlt Hsub Hcand Hrej Hr.
  destruct (append_run _ _ _ _ _ _ _ _ _ _ Hlog Hlt Hsub Hr) as (written & [_ Hfiles _] & _ & Hw).
  specialize (Hw _ eq_refl). cbn [one_patch fst] in Hw. subst written. cbn [option_map outcome_value] in Hfiles.
  pose proof (candidate_committable _ _ _ _ _ _ _ _ _ _ Hcand Hsub) as Hcm.
  unfold _append_locked in Hr.
  apply hm_bind_run in Hr as [(e & ? & ?)|(s1 & a & Hopen & Hr)]; [done|].
  destruct (open_run _ _ _ _ _ _ _ _ Hlog Hopen) as [-> [(e & He & _)|[Ha _]]]; [done|]. injection Ha as ->.
  cbn [fst snd] in Hr. apply hm_bind_run in Hr as [(e & ? & ?)|(s1 & a & Hset & Hr)]; [done|].
  rewrite (settle_clean env m s patches scope Hlog Hrec Hclean) in Hset. injection Hset as <- <-.
  cbn beta iota in Hr. apply hm_bind_run in Hr as [(e & ? & ?)|(s1 & a & Hget & Hr)]; [done|]. injection Hget as <- <-.
  apply hm_bind_run in Hr as [(e & ? & ?)|(s1 & a & Hun & Hr)]; [done|]. apply lift_run in Hun as [-> _].
  apply hm_bind_run in Hr as [(e & ? & ?)|(s1 & a1 & Hg & Hr)]; [done|]. apply guard_run in Hg as [-> _].
  cbv zeta in Hr. apply hm_bind_run in Hr as [(e & ? & ?)|(s1 & c & Hc & Hr)]; [done|].
  apply lift_run in Hc as [-> Hc]. rewrite Hcand in Hc. injection Hc as ->.
  apply hm_bind_run in Hr as [(e & ? & ?)|(s1 & a2 & Hg & Hr)]; [done|]. apply guard_run in Hg as [-> _].
  apply hm_bind_run in Hr as [(e & ? & ?)|(s1 & x & Hcommit & Hr)]; [done|].
  apply hm_bind_run in Hr as [(e & ? & ?)|(s3 & a3 & Hrep & Hr)]; [done|]. apply lift_run in Hrep as [-> _].
  apply hm_bind_run in Hr as [(e & ? & ?)|(s3 & a4 & Hg & Hr)]; [done|]. apply guard_run in Hg as [-> _].
  injection Hr as <- <- <-. split; [done|]. split; [exact Hfiles|].
  pose proof (commit_run _ _ _ _ _ _ _ _ _ _ _ Hlog Hrec Hlt Hcm Hcommit) as Hends.
  inversion Hends as [? ? ? ? ? ? ? ? ? Hx _|]; subst. destruct (Hx x eq_refl) as [-> _].
  destruct (healthy_append m s patches scope (entry_of env (_next_revision s) (admitted q report)) (admitted q report))
    as [_ Hmat]; [apply Hlog|done| |apply Hcm|apply Hcm|].
  { unfold load_entry. cbn. by rewrite (cm_decodable _ _ _ _ _ _ Hcm). }
  destruct (accepted_step_graph (replay_manifest m) (mr_materialization (replay_result m patches scope)) (admitted q report))
    as (g & Hg & Hst); [apply Hcm|by cbn; rewrite Hrej|].
  exists g. split; [exact Hg|]. unfold mr_state, replay_result at 1. cbn [mr_materialization]. rewrite Hmat. exact Hst.
Qed.

Lemma admitted_messages p report : p_admission_messages (admitted p report) = report.
Proof. done. Qed.

(** A transition that was not rejected has its graph. *)
Lemma accepted_has_graph cfg m d current raw revision auth p report :
  _prepare_transition_locked cfg m d current raw revision auth None main_target = Done (p, report, None) →
  rejected report = true.
Proof.
  intros (u & _ & Hp)%outcome_bind_done.
  apply outcome_bind_done in Hp as ([q r|sources r] & Hprep & Hp).
  - injection Hp as <- <-. by eapply refused_rejected.
  - cbn [default] in Hp. destruct (prepare_validated _ _ sources _) as [r0|[| | | |]] eqn:Hpv; try done.
    destruct sources; [done|]. injection Hp as <- <-. by rewrite rejected_app, rejected_reject, orb_true_r.
Qed.

(** What a successful preparation found. *)
Lemma prepare_run cfg env candidate head c s s1 prt m patches scope :
  log_at s m patches scope → recorded_scope (st_scope_base s) → st_repair_required s = false →
  p_kind candidate = KWork →
  prepare_branch_merge_with_history cfg env candidate head c s = (s1, MergeOk prt) →
  s1 = s ∧ ∃ report graph g,
    _validate_candidate_locked cfg m (st_document s) (replay_result m patches scope) candidate (_next_revision s) None =
      Done (prt_patch prt, report, graph) ∧ rejected report = false ∧
    admitted (prt_patch prt) report = prt_patch prt ∧
    apply_valid_patch (mr_state (replay_result m patches scope)) (prt_patch prt) = Ok g ∧
    validate_branch_merge_candidate_conformance c (mr_state (replay_result m patches scope)) (prt_patch prt) g = MergeOk tt.
Proof.
  intros Hlog Hrec Hclean Hkind Hp. unfold prepare_branch_merge_with_history in Hp. destruct (negb (is_main head)); [done|].
  destruct (validate_candidate cfg env candidate None s) as [s2 [[[prepared report] current]|e]] eqn:Hv; [|done].
  destruct (candidate_run _ _ _ _ _ _ _ _ _ _ Hlog Hrec Hclean Hv) as (-> & graph & Hcand & Hcur).
  cbn [fst snd] in Hcand, Hcur. subst current. injection Hp as <- Hp. split; [done|]. unfold check_prepared in Hp.
  apply merge_bind_ok in Hp as (u & _ & Hp). apply merge_bind_ok in Hp as (u1 & Hrej%demand_ok%negb_true_iff & Hp).
  apply merge_bind_ok in Hp as (u2 & _ & Hp).
  destruct (apply_valid_patch _ prepared) as [g|] eqn:Hg; [|done].
  apply merge_bind_ok in Hp as ([] & Hconf & Hp). apply merge_bind_ok in Hp as (proj & _ & [= <-]). cbn [prt_patch].
  assert (graph ≠ None → admitted prepared report = prepared) as Hadm.
  { intros Hne. destruct graph as [st|]; [|done]. unfold _validate_candidate_locked in Hcand. rewrite Hkind in Hcand.
    exact (proj1 (prepared_written _ _ _ _ _ _ _ _ _ _ Hcand Hrej)). }
  exists report, graph, g. split_and!; try done. apply Hadm. intros ->.
  unfold _validate_candidate_locked in Hcand. rewrite Hkind in Hcand. pose proof (accepted_has_graph _ _ _ _ _ _ _ _ _ Hcand). congruence.
Qed.

(** C5: the merge that was found to conform is the merge that is committed.  When
    a candidate was prepared against main and nothing was written in between, its
    commit, once it succeeds, adds exactly that Patch to the log, and the graph in
    force afterwards is the one whose conformance was checked, with the messages
    of the admission. *)
Theorem committed_merge_conforms cfg env env' candidate head c s s1 prt s2 ct m :
  log_ok s → load_manifest (st_document s) = Ok m → recorded_scope (st_scope_base s) →
  st_repair_required s = false → (_next_revision s < 1000000)%Z →
  submission (_replay m s) candidate → p_kind candidate = KWork →
  prepare_branch_merge_with_history cfg env candidate head c s = (s1, MergeOk prt) →
  commit_branch_merge_with_history cfg env' candidate head s1 = (s2, MergeOk ct) →
  ct_patch ct = prt_patch prt ∧
  le_document <$> st_log s2 = (le_document <$> st_log s) ++ [inl (ct_patch ct)] ∧
  ∃ g, apply_valid_patch (mr_state (_replay m s)) (ct_patch ct) = Ok g ∧
    validate_branch_merge_candidate_conformance c (mr_state (_replay m s)) (ct_patch ct) g = MergeOk tt ∧
    ptp_graph (ct_projection ct) = add_messages (p_admission_messages (ct_patch ct)) g.
Proof.
  intros (m0 & patches & scope & Hlog) Hm Hrec Hclean Hlt Hsub Hkind Hp Hc.
  assert (m0 = m) as -> by (destruct Hlog; congruence). rewrite (log_at_replay _ _ _ _ Hlog) in Hsub |- *.
  destruct (prepare_run _ _ _ _ _ _ _ _ _ _ _ Hlog Hrec Hclean Hkind Hp)
    as (-> & report & graph & g & Hcand & Hrej & Hadm & Hg & Hconf).
  unfold commit_branch_merge_with_history in Hc. destruct (negb (is_main head)); [done|].
  destruct (_append_locked cfg env' candidate (merge_append head) s) as [s3 [[w result]|e]] eqn:Happ; [|done].
  injection Hc as <- Hc. apply merge_bind_ok in Hc as (u & _ & Hc). apply merge_bind_ok in Hc as (u1 & _ & Hc).
  apply merge_bind_ok in Hc as (proj & Hproj & [= <-]). cbn [ct_patch ct_projection].
  destruct (append_written cfg env' candidate (merge_append head) s s3 w result m patches scope _ _ _
    Hlog Hrec Hclean Hlt Hsub Hcand Hrej Happ) as (-> & Hfiles & g' & Hg' & Hst).
  rewrite Hadm in *. split; [done|]. split; [done|]. exists g. split_and!; [done..|].
  rewrite Hg in Hg'. injection Hg' as <-. unfold projected in Hproj.
  destruct (p_transition (prt_patch prt)) as [tr|]; [|done].
  destruct (project_transition_projection _ tr true) as [pr|] eqn:Hpr; [|done]. injection Hproj as ->.
  rewrite (projection_graph _ _ _ _ Hpr), Hst. by rewrite <-(admitted_messages (prt_patch prt) report), Hadm.
Qed.
End commit.
