(* ===== verification/Watchers.v ===== *)
(** Watchers: what a task leaves behind to be woken by ([watchers.py],
    [storage/models.py]).  The records of external observers and of graph
    conditions, the pure evaluation of a condition at an accepted boundary of the
    graph, and the schedule of the checks.

    A time is an instant in microseconds; the text of a diagnostic is kept where
    it is stored. *)

From S2P Require Export History.

(** ** Conditions and records *)

Inductive GraphCondition :=
  | NodeStatusGraphCondition (node_id : string) (status_in : list string)
  | ProposalResolvedGraphCondition (node_id : string).
#[export] Instance GraphCondition_eq_dec : EqDecision GraphCondition.
Proof. solve_decision. Defined.

Definition condition_node (c : GraphCondition) : string :=
  match c with NodeStatusGraphCondition n _ => n | ProposalResolvedGraphCondition n => n end.

Inductive WatcherStatus := WatchActive | WatchDegraded | WatchCompleted | WatchStopped.
#[export] Instance WatcherStatus_eq_dec : EqDecision WatcherStatus.
Proof. solve_decision. Defined.

Inductive OriginTaskKind := OriginNodeChat | OriginProjectChat | OriginAutoResearch.
#[export] Instance OriginTaskKind_eq_dec : EqDecision OriginTaskKind.
Proof. solve_decision. Defined.

Inductive StoppedBy := ByHuman | ByLoop | ByAgent.
#[export] Instance StoppedBy_eq_dec : EqDecision StoppedBy.
Proof. solve_decision. Defined.

(** [patch_kind] of a continuation. *)
Inductive ContinuationKind := ContinueWork | ContinueExperimentLoop.
#[export] Instance ContinuationKind_eq_dec : EqDecision ContinuationKind.
Proof. solve_decision. Defined.

Record SkillReference := { skr_id : string; skr_kind : string; skr_version : string }.
#[export] Instance SkillReference_eq_dec : EqDecision SkillReference.
Proof. solve_decision. Defined.

Record WatcherContinuation := {
  wc_provider : string; wc_model : option string; wc_reasoning : option string; wc_run_on : string;
  wc_run_truth_scope : option (list string); wc_patch_kind : ContinuationKind;
  wc_control_node_id : option string; wc_control_revision : option Z;
  wc_control_episode_id : option string; wc_control_invocation : option Z;
  wc_control_invocation_ceiling : option Z; wc_control_decision_bundle : list pydict;
  wc_control_completion_criteria : list string; wc_workflow_ids : list string; wc_skill_ids : list string;
  wc_invoked_workflow_ids : list string; wc_invoked_skill_ids : list string;
  wc_resolved_skill_packages : list SkillReference }.
#[export] Instance WatcherContinuation_eq_dec : EqDecision WatcherContinuation.
Proof. solve_decision. Defined.

Definition is_loop (c : WatcherContinuation) : bool := bool_decide (wc_patch_kind c = ContinueExperimentLoop).

(** The fields only an external observer ([WatcherRecord]) has. *)
Record ExternalCheck := {
  xc_check_command : string; xc_log_path : string; xc_cwd : string; xc_last_checked_at : option Z;
  xc_last_exit_code : option Z; xc_last_error : option string; xc_next_check_at : option Z;
  xc_consecutive_error_count : Z; xc_group_id : option string; xc_group_label : option string }.
#[export] Instance ExternalCheck_eq_dec : EqDecision ExternalCheck.
Proof. solve_decision. Defined.

(** The fields only a graph condition ([GraphWatcherRecord]) has. *)
Record GraphCheck := {
  gk_condition : GraphCondition; gk_armed_revision : option Z; gk_last_evaluated_at : option Z }.
#[export] Instance GraphCheck_eq_dec : EqDecision GraphCheck.
Proof. solve_decision. Defined.

Inductive WatcherCheck := ExternalWatcher (x : ExternalCheck) | GraphWatcher (g : GraphCheck).
#[export] Instance WatcherCheck_eq_dec : EqDecision WatcherCheck.
Proof. solve_decision. Defined.

(** What both share ([WatcherDeliveryRecord]): where the watcher comes from, what
    it wakes, and how far its delivery is. *)
Record WatcherBinding := {
  wb_project_id : string; wb_origin_operation_id : string; wb_origin_task_kind : OriginTaskKind;
  wb_chat_id : string; wb_node_id : option string; wb_episode_id : option string;
  wb_graph_target : GraphTargetRef; wb_execution_host : string; wb_continuation : WatcherContinuation }.
#[export] Instance WatcherBinding_eq_dec : EqDecision WatcherBinding.
Proof. solve_decision. Defined.

Record Delivery := {
  dl_status : WatcherStatus; dl_completed_at : option Z; dl_notified : bool;
  dl_notification_operation_id : option string; dl_stopped_by : option StoppedBy;
  dl_stop_reason : option string; dl_stopped_at : option Z; dl_stop_operation_id : option string }.
#[export] Instance Delivery_eq_dec : EqDecision Delivery.
Proof. solve_decision. Defined.

Record StoredWatcherRecord := {
  w_watcher_id : string; w_binding : WatcherBinding; w_created_at : Z; w_delivery : Delivery; w_check : WatcherCheck }.
#[export] Instance StoredWatcherRecord_eq_dec : EqDecision StoredWatcherRecord.
Proof. solve_decision. Defined.

Definition w_project_id (w : StoredWatcherRecord) : string := wb_project_id (w_binding w).
Definition w_graph_target (w : StoredWatcherRecord) : GraphTargetRef := wb_graph_target (w_binding w).
Definition w_continuation (w : StoredWatcherRecord) : WatcherContinuation := wb_continuation (w_binding w).
Definition w_status (w : StoredWatcherRecord) : WatcherStatus := dl_status (w_delivery w).
Definition w_notified (w : StoredWatcherRecord) : bool := dl_notified (w_delivery w).
Definition w_claim (w : StoredWatcherRecord) : option string := dl_notification_operation_id (w_delivery w).
Definition has_status (w : StoredWatcherRecord) (statuses : list WatcherStatus) : bool :=
  bool_decide (w_status w ∈ statuses).
Definition as_graph (w : StoredWatcherRecord) : option GraphCheck :=
  match w_check w with GraphWatcher g => Some g | ExternalWatcher _ => None end.
Definition as_external (w : StoredWatcherRecord) : option ExternalCheck :=
  match w_check w with ExternalWatcher x => Some x | GraphWatcher _ => None end.
(** A graph condition reads as having no group and no errors. *)
Definition w_group_id (w : StoredWatcherRecord) : option string := as_external w ≫= xc_group_id.
Definition w_group_label (w : StoredWatcherRecord) : option string := as_external w ≫= xc_group_label.
Definition w_error_count (w : StoredWatcherRecord) : Z :=
  match as_external w with Some x => xc_consecutive_error_count x | None => 0 end.

Definition with_delivery (w : StoredWatcherRecord) (d : Delivery) : StoredWatcherRecord :=
  {| w_watcher_id := w_watcher_id w; w_binding := w_binding w; w_created_at := w_created_at w;
     w_delivery := d; w_check := w_check w |}.
Definition with_check (w : StoredWatcherRecord) (c : WatcherCheck) : StoredWatcherRecord :=
  {| w_watcher_id := w_watcher_id w; w_binding := w_binding w; w_created_at := w_created_at w;
     w_delivery := w_delivery w; w_check := c |}.

(** ** Handoffs *)

Record WatchSpec := { ws_check_command : string; ws_log_path : string; ws_cwd : string; ws_group : option string }.

(** [_validate_unique_graph_conditions]. *)
Definition _validate_unique_graph_conditions (conditions : list GraphCondition) : res unit :=
  require (bool_decide (NoDup conditions)).

(** [parse_watch_json], once the document has its fields. *)
Definition parse_watch (external : list WatchSpec) (graph : list GraphCondition) : res (list WatchSpec * list GraphCondition) :=
  _ ← require (negb (is_nil external && is_nil graph));
  _ ← _validate_unique_graph_conditions graph;
  Ok (external, graph).

Record WatcherStopRequest := { stop_watcher_id : string; stop_request_reason : string }.
#[export] Instance WatcherStopRequest_eq_dec : EqDecision WatcherStopRequest.
Proof. solve_decision. Defined.

(** [parse_experiment_watch_json], once its items are told apart. *)
Definition parse_experiment_watch (observers : list WatchSpec) (stops : list WatcherStopRequest)
    (graph : list GraphCondition) : res (list WatchSpec * list GraphCondition * list WatcherStopRequest) :=
  _ ← require (no_dup (stop_watcher_id <$> stops));
  let groups := omap ws_group observers in
  _ ← require (forallb (λ label, 2 <=? length (bfilter (str_eqb label) groups)) groups);
  _ ← _validate_unique_graph_conditions graph;
  Ok (observers, graph, stops).

(** ** Conditions on a graph *)

(** The literal of the [status] field of a node type; Evidence has no status. *)
Definition status_literals (t : NodeType) : option (list string) :=
  match t with
  | TResearchQuestion => Some ["open"; "answered"; "abandoned"; "superseded"]
  | THypothesis => Some ["proposed"; "active"; "supported"; "weakened"; "rejected"; "superseded"]
  | TDecision => Some ["open"; "ready"; "decided"; "revisit"; "superseded"]
  | TExperiment => Some ["proposed"; "designing"; "implementing"; "debugging"; "running"; "analyzing";
                         "completed"; "unspecified"; "abandoned"; "superseded"]
  | TEvidence => None
  | TBlocker => Some ["open"; "resolved"; "superseded"]
  end.

(** The loop of [validate_graph_conditions], for one condition. *)
Definition validate_graph_condition (st : GraphState) (c : GraphCondition) : res unit :=
  match gs_nodes st !! condition_node c with
  | None => Raise ValueError
  | Some node =>
      match c with
      | ProposalResolvedGraphCondition _ => Ok tt
      | NodeStatusGraphCondition _ status_in =>
          match status_literals (node_type node) with
          | None => Raise ValueError
          | Some literals => require (forallb (λ s, mem s literals) status_in)
          end
      end
  end.

(** [validate_graph_conditions]. *)
Definition validate_graph_conditions (conditions : list GraphCondition) (st : GraphState) : res unit :=
  _ ← _validate_unique_graph_conditions conditions;
  _ ← require (bool_decide (gs_replay_status st = ReplayComplete));
  _ ← res_map (validate_graph_condition st) conditions;
  Ok tt.

Inductive GraphResult := ResultActive | ResultCompleted | ResultRemoved.
#[export] Instance GraphResult_eq_dec : EqDecision GraphResult.
Proof. solve_decision. Defined.

(** A Proposal about the node that was resolved after the watcher was armed. *)
Definition resolves_after (node_id : string) (armed_revision : Z) (q : Proposal) : bool :=
  negb (bool_decide (prop_status q = PPending)) &&
  match prop_resolved_rev q with Some rev => (armed_revision <? rev)%Z | None => false end &&
  mem node_id (prop_related_node_ids q).

(** [graph_condition_result]. *)
Definition graph_condition_result (c : GraphCondition) (st : GraphState) (armed_revision : Z) : GraphResult :=
  if negb (bool_decide (gs_replay_status st = ReplayComplete)) then ResultActive
  else match gs_nodes st !! condition_node c with
  | None => ResultRemoved
  | Some node =>
      match c with
      | NodeStatusGraphCondition _ status_in =>
          match node_status node with
          | Some s => if mem s status_in then ResultCompleted else ResultActive
          | None => ResultActive
          end
      | ProposalResolvedGraphCondition id =>
          if existsb (λ kv, resolves_after id armed_revision kv.2) (map_to_list (gs_proposals st))
          then ResultCompleted else ResultActive
      end
  end.

(** A lifecycle event that says the node reached one of the statuses. *)
Definition event_reaches (node_id : string) (status_in : list string) (e : TransitionEvent) : bool :=
  bool_decide (te_event_type e = NodeStatusChanged) && str_eqb (te_node_id e) node_id &&
  str_eqb (te_field e) "status" && match te_after e with EVStr s => mem s status_in | _ => false end.

(** [graph_condition_transition_event_result]. *)
Definition graph_condition_transition_event_result (c : GraphCondition) (events : list TransitionEvent)
    (armed_revision boundary_revision : Z) : GraphResult :=
  if (boundary_revision <=? armed_revision)%Z then ResultActive
  else match c with
  | NodeStatusGraphCondition id status_in =>
      if existsb (event_reaches id status_in) events then ResultCompleted else ResultActive
  | ProposalResolvedGraphCondition _ => ResultActive
  end.

(** [graph_watcher_boundary_result]. *)
Definition graph_watcher_boundary_result (g : GraphCheck) (st : GraphState) (events : list TransitionEvent) :
    res GraphResult :=
  match gk_armed_revision g with
  | None => Raise ValueError
  | Some armed =>
      let event := graph_condition_transition_event_result (gk_condition g) events armed (gs_revision st) in
      if decide (event = ResultCompleted) then Ok ResultCompleted
      else let result := graph_condition_result (gk_condition g) st armed in
           if decide (result = ResultRemoved) then Ok ResultRemoved
           else if is_ok (validate_graph_conditions [gk_condition g] st) then Ok result
           else Ok ResultActive
  end.

(** ** The schedule of external checks *)

Definition WATCHER_HEALTHY_INTERVAL_SECONDS : Z := 120.
Definition WATCHER_ERROR_BACKOFF_SECONDS : list Z := [120; 240; 480; 900; 1800]%Z.
Definition WATCHER_GROUP_DIAGNOSTIC_ERROR_COUNT : Z := 5.
Definition WATCHER_POLL_INTERVAL_SECONDS : Z := 5.

(** The first eight bytes of the SHA-256 of a watcher id, as a number. *)
Class WatcherDigest := {
  watcher_fraction : string → Z;
  watcher_fraction_bounds id : (0 ≤ watcher_fraction id < 2 ^ 64)%Z }.

(** The delay of [watcher_next_check_at], before the jitter. *)
Definition watcher_delay (consecutive_error_count : Z) : Z :=
  if (consecutive_error_count =? 0)%Z then WATCHER_HEALTHY_INTERVAL_SECONDS
  else default 0%Z (WATCHER_ERROR_BACKOFF_SECONDS !!
         Z.to_nat (Z.min (consecutive_error_count - 1) (Z.of_nat (length WATCHER_ERROR_BACKOFF_SECONDS) - 1))).

(** [watcher_next_check_at]: the factor [1 + 0.1 * (2 * f / (2^64 - 1) - 1)] is
    taken exactly, and the due time rounded to the microsecond. *)
Definition watcher_next_check_at `{WatcherDigest} (watcher_id : string) (checked_at : Z)
    (consecutive_error_count : Z) : res Z :=
  _ ← require (0 <=? consecutive_error_count)%Z;
  let unit := (2 ^ 64 - 1)%Z in
  let numerator := (watcher_delay consecutive_error_count * 1000000 * (9 * unit + 2 * watcher_fraction watcher_id))%Z in
  Ok (checked_at + (2 * numerator + 10 * unit) / (2 * (10 * unit)))%Z.

(** ** Delivery policies *)

(** [_watcher_delivery_policy], as the fields that stay in the JSON text. *)
Record DeliveryPolicy := {
  pol_provider : string; pol_model : option string; pol_reasoning : option string; pol_run_on : string;
  pol_run_truth_scope : option (list string); pol_patch_kind : ContinuationKind;
  pol_control_node_id : option string; pol_workflow_ids : list string; pol_skill_ids : list string;
  pol_invoked_workflow_ids : list string; pol_invoked_skill_ids : list string;
  pol_resolved_skill_packages : list SkillReference }.
#[export] Instance DeliveryPolicy_eq_dec : EqDecision DeliveryPolicy.
Proof. solve_decision. Defined.

Definition _watcher_delivery_policy (c : WatcherContinuation) : DeliveryPolicy :=
  {| pol_provider := wc_provider c;
     pol_model := match wc_model c with None => if is_loop c then Some "" else None | m => m end;
     pol_reasoning := wc_reasoning c; pol_run_on := wc_run_on c; pol_run_truth_scope := wc_run_truth_scope c;
     pol_patch_kind := wc_patch_kind c; pol_control_node_id := wc_control_node_id c;
     pol_workflow_ids := wc_workflow_ids c; pol_skill_ids := wc_skill_ids c;
     pol_invoked_workflow_ids := wc_invoked_workflow_ids c; pol_invoked_skill_ids := wc_invoked_skill_ids c;
     pol_resolved_skill_packages := wc_resolved_skill_packages c |}.

(** [_automatic_watcher_delivery_policy]: a loop keeps only its control node. *)
Inductive AutomaticPolicy := LoopPolicy (control_node_id : option string) | WorkPolicy (p : DeliveryPolicy).
#[export] Instance AutomaticPolicy_eq_dec : EqDecision AutomaticPolicy.
Proof. solve_decision. Defined.
Definition _automatic_watcher_delivery_policy (c : WatcherContinuation) : AutomaticPolicy :=
  if is_loop c then LoopPolicy (wc_control_node_id c) else WorkPolicy (_watcher_delivery_policy c).
