(* ===== verification/Transactions.v ===== *)
(** Transactions on the database: a transaction commits a value or raises, and
    one that raises changes nothing ([BaseStore.connection] with
    [BEGIN IMMEDIATE]). *)

From S2P Require Export Prelude.

Inductive StoreError :=
  | StoreKeyError (id : string)
  | StoreValueError
  | StoreRuntimeError
  | StoreIntegrityError
  | WatcherClaimConflict
  | EpisodeNotRunning
  | EpisodeReportConflict
  | EpisodeInvocationCeilingReached
  | EpisodeReportAttemptLimitReached.
#[export] Instance StoreError_eq_dec : EqDecision StoreError.
Proof. solve_decision. Defined.

Inductive tx (A : Type) := Commit (a : A) | Abort (e : StoreError).
Arguments Commit {_} _.
Arguments Abort {_} _.
#[export] Instance tx_eq_dec {A} `{EqDecision A} : EqDecision (tx A).
Proof. solve_decision. Defined.
#[export] Instance tx_ret : MRet tx := @Commit.
#[export] Instance tx_bind : MBind tx := λ A B f m, match m with Commit a => f a | Abort e => Abort e end.

Definition check_that (c : bool) (e : StoreError) : tx unit := if c then Commit tt else Abort e.
Definition of_res {A} (r : res A) : tx A := match r with Ok a => Commit a | Raise _ => Abort StoreValueError end.
(** A row that must exist. *)
Definition found {A} (row : option A) (e : StoreError) : tx A := match row with Some a => Commit a | None => Abort e end.

(** [except sqlite3.IntegrityError: raise ValueError(..)]. *)
Definition integrity_as_value_error {A} (m : tx A) : tx A :=
  match m with Abort StoreIntegrityError => Abort StoreValueError | _ => m end.

Fixpoint tx_fold {S A} (f : S → A → tx S) (s : S) (l : list A) : tx S :=
  match l with [] => Commit s | x :: l => s' ← f s x; tx_fold f s' l end.
Fixpoint tx_map {A B} (f : A → tx B) (l : list A) : tx (list B) :=
  match l with [] => Commit [] | x :: l => y ← f x; ys ← tx_map f l; Commit (y :: ys) end.

(** ** Inversion *)

Lemma tx_bind_ok {A B} (m : tx A) (k : A → tx B) b : m ≫= k = Commit b → ∃ a, m = Commit a ∧ k a = Commit b.
Proof. destruct m; [by eexists|done]. Qed.

Lemma check_that_ok c e u : check_that c e = Commit u → c = true.
Proof. by destruct c. Qed.

Lemma of_res_ok {A} (r : res A) a : of_res r = Commit a → r = Ok a.
Proof. by destruct r; intros [= ->]. Qed.

Lemma found_ok {A} (row : option A) e a : found row e = Commit a → row = Some a.
Proof. by destruct row; intros [= ->]. Qed.

Lemma integrity_as_value_error_ok {A} (m : tx A) a : integrity_as_value_error m = Commit a → m = Commit a.
Proof. by destruct m as [|[]]. Qed.

(** Inverts the checks and bindings at the head of a committed transaction. *)
Ltac tx_inv H :=
  repeat match type of H with
  | (check_that _ _ ≫= _) = Commit _ =>
      let u := fresh "u" in let Hc := fresh "Hcheck" in
      apply tx_bind_ok in H as (u & Hc%check_that_ok & H)
  end.

(** Takes the two branches of a transaction. *)
Ltac tx_if H :=
  match type of H with
  | (if ?c then _ else _) = Commit _ => let Hc := fresh "Hbranch" in destruct c eqn:Hc
  end.

Lemma tx_fold_inv {S A} (P : S → Prop) (f : S → A → tx S) l s s' :
  (∀ s x s', x ∈ l → P s → f s x = Commit s' → P s') → P s → tx_fold f s l = Commit s' → P s'.
Proof.
  revert s. induction l as [|x l IH]; intros s Hstep Hs Hf; cbn in Hf; [by injection Hf as <-|].
  apply tx_bind_ok in Hf as (s1 & H1 & Hf). apply (IH s1); [|by eapply Hstep; [left| |]|done].
  intros s2 y s3 Hy. apply Hstep. by right.
Qed.

Lemma tx_map_ok {A B} (f : A → tx B) l l' : tx_map f l = Commit l' → Forall2 (λ x y, f x = Commit y) l l'.
Proof.
  revert l'. induction l as [|x l IH]; intros l'; cbn; [by intros [= <-]|].
  intros (y & Hy & (ys & Hys & [= <-])%tx_bind_ok)%tx_bind_ok. constructor; [done|by apply IH].
Qed.
