(* ===== verification/WatcherStore.v ===== *)
(** The store of watchers ([storage/watchers.py]): the tables it reads and
    writes, and every operation on them as a transaction.  A transaction that
    raises changes nothing. *)

From S2P Require Export Watchers Transactions.

(** ** Tables *)

(** What the watchers read of [graph_runs]; rows are listed by rowid. *)
Record RunRow := {
  run_operation_id : string; run_project_id : string; run_parent_operation_id : option string;
  run_episode_id : option string; run_target : GraphTargetRef; run_kind : string; run_status : string;
  run_request : pydict; run_created_at : Z; run_authorizer : option string * option string * option string }.

(** What they read of [episodes], with its row of [experiment_episode_state]. *)
Record EpisodeState := { es_execution_host : string; es_session_diagnostic : option string; es_updated_at : Z }.
Record EpisodeRow := {
  ep_project_id : string; ep_mode : string; ep_control_node_id : option string; ep_graph_target : GraphTargetRef;
  ep_status : string; ep_ending : option string; ep_stop_requested_at : option Z; ep_ended_at : option Z;
  ep_updated_at : Z; ep_state : option EpisodeState }.

Record WatcherDb := {
  db_watchers : gmap string StoredWatcherRecord;
  db_heads : gmap (string * string) GraphHeadRef;
  db_runs : list RunRow;
  db_episodes : gmap string EpisodeRow }.

Definition set_watchers (f : gmap string StoredWatcherRecord → gmap string StoredWatcherRecord) (db : WatcherDb) :
    WatcherDb :=
  {| db_watchers := f (db_watchers db); db_heads := db_heads db; db_runs := db_runs db; db_episodes := db_episodes db |}.
Definition set_head (key : string * string) (h : GraphHeadRef) (db : WatcherDb) : WatcherDb :=
  {| db_watchers := db_watchers db; db_heads := <[key := h]> (db_heads db); db_runs := db_runs db;
     db_episodes := db_episodes db |}.
Definition set_episodes (f : gmap string EpisodeRow → gmap string EpisodeRow) (db : WatcherDb) : WatcherDb :=
  {| db_watchers := db_watchers db; db_heads := db_heads db; db_runs := db_runs db; db_episodes := f (db_episodes db) |}.

(** [ORDER BY created_at, watcher_id]. *)
Definition created_le (a b : StoredWatcherRecord) : Prop :=
  (w_created_at a < w_created_at b)%Z ∨
  (w_created_at a = w_created_at b ∧ String.le (w_watcher_id a) (w_watcher_id b)).
#[export] Instance created_le_dec : RelDecision created_le.
Proof. intros a b. unfold created_le. apply _. Defined.

(** [ORDER BY completed_at, created_at, watcher_id]; null comes first. *)
Definition completed_le (a b : StoredWatcherRecord) : Prop :=
  match dl_completed_at (w_delivery a), dl_completed_at (w_delivery b) with
  | None, Some _ => True
  | Some _, None => False
  | None, None => created_le a b
  | Some x, Some y => (x < y)%Z ∨ (x = y ∧ created_le a b)
  end.
#[export] Instance completed_le_dec : RelDecision completed_le.
Proof.
  intros a b. unfold completed_le.
  destruct (dl_completed_at (w_delivery a)), (dl_completed_at (w_delivery b)); apply _.
Defined.

(** [SELECT * FROM watchers WHERE ..]. *)
Definition rows (P : StoredWatcherRecord → bool) (db : WatcherDb) : list StoredWatcherRecord :=
  bfilter P ((map_to_list (db_watchers db)).*2).
(** [UPDATE watchers SET .. WHERE ..]. *)
Definition update_rows (P : StoredWatcherRecord → bool) (f : StoredWatcherRecord → StoredWatcherRecord)
    (db : WatcherDb) : WatcherDb :=
  set_watchers (fmap (λ w, if P w then f w else w)) db.
(** [WHERE watcher_id IN (ids)]. *)
Definition named (ids : list string) (w : StoredWatcherRecord) : bool := mem (w_watcher_id w) ids.

(** ** Rows *)

Definition active_graph (w : StoredWatcherRecord) : bool :=
  is_some (as_graph w) && has_status w [WatchActive] && negb (w_notified w).
Definition unclaimed (w : StoredWatcherRecord) : bool := negb (is_some (w_claim w)).

(** [SET next_check_at = ..], which a graph row does not show. *)
Definition set_next_check (at_ : option Z) (w : StoredWatcherRecord) : StoredWatcherRecord :=
  match w_check w with
  | ExternalWatcher x => with_check w (ExternalWatcher
      {| xc_check_command := xc_check_command x; xc_log_path := xc_log_path x; xc_cwd := xc_cwd x;
         xc_last_checked_at := xc_last_checked_at x; xc_last_exit_code := xc_last_exit_code x;
         xc_last_error := xc_last_error x; xc_next_check_at := at_;
         xc_consecutive_error_count := xc_consecutive_error_count x; xc_group_id := xc_group_id x;
         xc_group_label := xc_group_label x |})
  | GraphWatcher _ => w
  end.

(** [SET last_checked_at = ..]. *)
Definition set_evaluated (at_ : Z) (w : StoredWatcherRecord) : StoredWatcherRecord :=
  match w_check w with
  | GraphWatcher g => with_check w (GraphWatcher
      {| gk_condition := gk_condition g; gk_armed_revision := gk_armed_revision g; gk_last_evaluated_at := Some at_ |})
  | ExternalWatcher x => with_check w (ExternalWatcher
      {| xc_check_command := xc_check_command x; xc_log_path := xc_log_path x; xc_cwd := xc_cwd x;
         xc_last_checked_at := Some at_; xc_last_exit_code := xc_last_exit_code x;
         xc_last_error := xc_last_error x; xc_next_check_at := xc_next_check_at x;
         xc_consecutive_error_count := xc_consecutive_error_count x; xc_group_id := xc_group_id x;
         xc_group_label := xc_group_label x |})
  end.

(** [SET armed_revision = .., last_checked_at = ..]. *)
Definition arm_row (armed_revision at_ : Z) (w : StoredWatcherRecord) : StoredWatcherRecord :=
  match w_check w with
  | GraphWatcher g => with_check w (GraphWatcher
      {| gk_condition := gk_condition g; gk_armed_revision := Some armed_revision; gk_last_evaluated_at := Some at_ |})
  | ExternalWatcher _ => w
  end.

(** [SET status = 'stopped', notified = 1, next_check_at = NULL, ..]. *)
Definition stop_row (by_ : option StoppedBy → option StoppedBy) (reason : option string → option string)
    (at_ : option Z → option Z) (operation : option string → option string) (w : StoredWatcherRecord) :
    StoredWatcherRecord :=
  let d := w_delivery w in
  set_next_check None (with_delivery w
    {| dl_status := WatchStopped; dl_completed_at := dl_completed_at d; dl_notified := true;
       dl_notification_operation_id := dl_notification_operation_id d; dl_stopped_by := by_ (dl_stopped_by d);
       dl_stop_reason := reason (dl_stop_reason d); dl_stopped_at := at_ (dl_stopped_at d);
       dl_stop_operation_id := operation (dl_stop_operation_id d) |}).
(** [COALESCE(column, value)]. *)
Definition coalesce {A} (value : A) (column : option A) : option A :=
  match column with Some a => Some a | None => Some value end.
Definition keep {A} (column : option A) : option A := column.
Definition assign {A} (value : A) (_ : option A) : option A := Some value.

(** [SET status = 'completed', completed_at = ..]. *)
Definition complete_row (at_ : Z) (w : StoredWatcherRecord) : StoredWatcherRecord :=
  let d := w_delivery w in
  set_next_check None (with_delivery w
    {| dl_status := WatchCompleted; dl_completed_at := Some at_; dl_notified := dl_notified d;
       dl_notification_operation_id := dl_notification_operation_id d; dl_stopped_by := dl_stopped_by d;
       dl_stop_reason := dl_stop_reason d; dl_stopped_at := dl_stopped_at d;
       dl_stop_operation_id := dl_stop_operation_id d |}).

(** [SET notified = 1, notification_operation_id = ..]. *)
Definition claim_row (operation_id : string) (w : StoredWatcherRecord) : StoredWatcherRecord :=
  let d := w_delivery w in
  with_delivery w
    {| dl_status := dl_status d; dl_completed_at := dl_completed_at d; dl_notified := true;
       dl_notification_operation_id := Some operation_id; dl_stopped_by := dl_stopped_by d;
       dl_stop_reason := dl_stop_reason d; dl_stopped_at := dl_stopped_at d;
       dl_stop_operation_id := dl_stop_operation_id d |}.

(** ** Graph conditions *)

(** [active_graph_watchers]. *)
Definition active_graph_watchers (db : WatcherDb) (project_id : string) : list StoredWatcherRecord :=
  merge_sort created_le (rows (λ w, str_eqb (w_project_id w) project_id && active_graph w) db).

(** [graph_watcher_project_ids]. *)
Definition graph_watcher_project_ids (db : WatcherDb) : list string :=
  sorted_set (list_to_set (w_project_id <$>
    rows (λ w, is_some (as_graph w) && has_status w [WatchActive; WatchCompleted] && negb (w_notified w)) db)).

(** [graph_watcher_reconciliation_head]. *)
Definition graph_watcher_reconciliation_head (db : WatcherDb) (project_id : string) (target : GraphTargetRef) :
    tx (option GraphHeadRef) :=
  match db_heads db !! (project_id, target_key target) with
  | None => Commit None
  | Some head => _ ← check_that (bool_decide (head_target head = target)) StoreRuntimeError; Commit (Some head)
  end.

(** A migrated graph row that has no baseline yet. *)
Definition unarmed (w : StoredWatcherRecord) : bool :=
  active_graph w && match as_graph w with Some g => negb (is_some (gk_armed_revision g)) | None => false end.

(** [initialize_graph_watcher_target_baselines]. *)
Definition initialize_graph_watcher_target_baselines (db : WatcherDb) (project_id : string)
    (target : GraphTargetRef) (armed_revision evaluated_at : Z) : WatcherDb :=
  update_rows (λ w, str_eqb (w_project_id w) project_id && unarmed w && bool_decide (w_graph_target w = target))
    (arm_row armed_revision evaluated_at) db.

(** [initialize_graph_watcher_baseline]. *)
Definition initialize_graph_watcher_baseline (db : WatcherDb) (watcher_id : string)
    (armed_revision evaluated_at : Z) : WatcherDb :=
  update_rows (λ w, named [watcher_id] w && unarmed w) (arm_row armed_revision evaluated_at) db.

Definition REMOVED_TARGET : string := "Graph condition target was removed.".

(** [_record_graph_watcher_result_locked], on its row. *)
Definition record_result_row (result : GraphResult) (evaluated_at : Z) (w : StoredWatcherRecord) : StoredWatcherRecord :=
  if negb (active_graph w) then w
  else match result with
  | ResultActive => set_evaluated evaluated_at w
  | ResultCompleted => complete_row evaluated_at (set_evaluated evaluated_at w)
  | ResultRemoved =>
      stop_row (assign ByLoop) (assign REMOVED_TARGET) (assign evaluated_at) keep (set_evaluated evaluated_at w)
  end.
Definition _record_graph_watcher_result_locked (db : WatcherDb) (watcher_id : string) (result : GraphResult)
    (evaluated_at : Z) : WatcherDb :=
  set_watchers (alter (record_result_row result evaluated_at) watcher_id) db.

(** [record_graph_watcher_result]. *)
Definition record_graph_watcher_result (db : WatcherDb) (watcher_id : string) (result : GraphResult)
    (evaluated_at : Z) : tx WatcherDb :=
  match db_watchers db !! watcher_id with
  | None => Abort (StoreKeyError watcher_id)
  | Some current =>
      _ ← check_that (is_some (as_graph current)) StoreValueError;
      if negb (has_status current [WatchActive]) || w_notified current then Commit db
      else Commit (_record_graph_watcher_result_locked db watcher_id result evaluated_at)
  end.

(** A boundary reaches the rows of its target that were armed before it. *)
Definition boundary_applies (head : GraphHeadRef) (w : StoredWatcherRecord) : bool :=
  bool_decide (w_graph_target w = head_target head) &&
  match as_graph w ≫= gk_armed_revision with Some armed => (armed <? head_revision head)%Z | None => false end.

(** One row in the loop of [consume_graph_watcher_boundary]. *)
Definition consume_row (head : GraphHeadRef) (evaluate : GraphCheck → res GraphResult) (evaluated_at : Z)
    (db : WatcherDb) (record : StoredWatcherRecord) : tx WatcherDb :=
  match as_graph record with
  | None => Abort StoreRuntimeError
  | Some g =>
      if negb (boundary_applies head record) then Commit db
      else result ← of_res (evaluate g);
           Commit (_record_graph_watcher_result_locked db (w_watcher_id record) result evaluated_at)
  end.

(** [consume_graph_watcher_boundary]; [true] when the boundary was new. *)
Definition consume_graph_watcher_boundary (db : WatcherDb) (project_id : string) (head : GraphHeadRef)
    (evaluate : GraphCheck → res GraphResult) (evaluated_at : Z) : tx (WatcherDb * bool) :=
  let key := (project_id, target_key (head_target head)) in
  let advance :=
    db1 ← tx_fold (consume_row head evaluate evaluated_at) db (active_graph_watchers db project_id);
    Commit (set_head key head db1, true) in
  match db_heads db !! key with
  | None => advance
  | Some stored =>
      _ ← check_that (bool_decide (head_target stored = head_target head)) StoreRuntimeError;
      if (head_revision head <? head_revision stored)%Z then Commit (db, false)
      else if (head_revision stored =? head_revision head)%Z then
        _ ← check_that (bool_decide (head_transition_id stored = head_transition_id head)) StoreRuntimeError;
        Commit (db, false)
      else advance
  end.

(** ** Creation *)

Section creation.
Context `{WatcherDigest}.

(** [_prepare_watcher_for_insert]. *)
Definition _prepare_watcher_for_insert (w : StoredWatcherRecord) : tx StoredWatcherRecord :=
  let c := w_continuation w in let b := w_binding w in
  let episode := if truthy_opt (wb_episode_id b) then wb_episode_id b else wc_control_episode_id c in
  let w := if is_loop c then
             {| w_watcher_id := w_watcher_id w;
                w_binding := {| wb_project_id := wb_project_id b; wb_origin_operation_id := wb_origin_operation_id b;
                                wb_origin_task_kind := wb_origin_task_kind b; wb_chat_id := wb_chat_id b;
                                wb_node_id := wb_node_id b; wb_episode_id := episode;
                                wb_graph_target := wb_graph_target b; wb_execution_host := wb_execution_host b;
                                wb_continuation := c |};
                w_created_at := w_created_at w; w_delivery := w_delivery w; w_check := w_check w |}
           else w in
  match w_check w with
  | GraphWatcher _ => Commit w
  | ExternalWatcher x =>
      if negb (has_status w [WatchActive; WatchDegraded]) || is_some (xc_next_check_at x) then Commit w
      else
        let error_count := if has_status w [WatchDegraded] && (xc_consecutive_error_count x =? 0)%Z then 1%Z
                           else xc_consecutive_error_count x in
        next ← of_res (watcher_next_check_at (w_watcher_id w) (default (w_created_at w) (xc_last_checked_at x))
                         error_count);
        Commit (with_check w (ExternalWatcher
          {| xc_check_command := xc_check_command x; xc_log_path := xc_log_path x; xc_cwd := xc_cwd x;
             xc_last_checked_at := xc_last_checked_at x; xc_last_exit_code := xc_last_exit_code x;
             xc_last_error := xc_last_error x; xc_next_check_at := Some next;
             xc_consecutive_error_count := error_count; xc_group_id := xc_group_id x;
             xc_group_label := xc_group_label x |}))
  end.
End creation.

(** [_validate_watch_list]: the loop's own part. *)
Definition validate_loop_list (c : WatcherContinuation) (records : list StoredWatcherRecord) : bool :=
  truthy_opt (wc_control_node_id c) && truthy_opt (wc_control_episode_id c) &&
  match wc_control_invocation c, wc_control_invocation_ceiling c with
  | Some invocation, Some ceiling =>
      negb (invocation =? 0)%Z && negb (ceiling =? 0)%Z && (invocation <=? ceiling)%Z
  | _, _ => false
  end &&
  forallb (λ w, bool_decide (wb_episode_id (w_binding w) = wc_control_episode_id c)) records.

(** [_validate_watch_list]. *)
Definition _validate_watch_list (records : list StoredWatcherRecord) : bool :=
  match records with
  | [] => false
  | first :: _ =>
      let continuation := w_continuation first in
      let grouped := bfilter (λ w, is_some (w_group_id w)) records in
      no_dup (w_watcher_id <$> records) &&
      forallb (λ w, bool_decide (w_binding w = w_binding first)) records &&
      forallb (λ w, negb (is_some (as_graph w) && has_status w [WatchDegraded])) records &&
      forallb (λ w, match as_graph w with Some g => is_some (gk_armed_revision g) | None => true end) records &&
      forallb (λ w, negb (is_some (as_graph w))) grouped &&
      forallb (λ w, eqb (is_some (w_group_id w)) (is_some (w_group_label w))) records &&
      (is_nil grouped || is_loop continuation) &&
      forallb (λ w, 2 <=? length (bfilter (λ v, bool_decide (w_group_id v = w_group_id w)) grouped)) grouped &&
      (negb (is_loop continuation) || validate_loop_list continuation records)
  end.

(** The origin task of a watcher. *)
Definition origin_run (db : WatcherDb) (w : StoredWatcherRecord) : option RunRow :=
  find (λ r, str_eqb (run_operation_id r) (wb_origin_operation_id (w_binding w))) (db_runs db).

(** The query of [_insert_watcher] for the ended or stopping episode of the origin. *)
Definition stopped_origin (db : WatcherDb) (w : StoredWatcherRecord) : option Z :=
  run ← origin_run db w; id ← run_episode_id run; episode ← db_episodes db !! id;
  if is_some (ep_stop_requested_at episode) || is_some (ep_ending episode)
  then Some (default (ep_updated_at episode)
               (match ep_stop_requested_at episode with Some t => Some t | None => ep_ended_at episode end))
  else None.

(** A watcher born stopped. *)
Definition born_stopped (at_ : Z) : StoredWatcherRecord → StoredWatcherRecord :=
  stop_row (assign ByLoop) keep (assign at_) keep.

(** [_insert_watcher]. *)
Definition _insert_watcher (db : WatcherDb) (record : StoredWatcherRecord) : tx WatcherDb :=
  let b := w_binding record in
  _ ← check_that (match origin_run db record with
                  | None => negb (bool_decide (tgt_kind (wb_graph_target b) = TargetBranch))
                  | Some run =>
                      str_eqb (run_project_id run) (wb_project_id b) &&
                      (negb (is_some (run_episode_id run)) || bool_decide (run_episode_id run = wb_episode_id b)) &&
                      bool_decide (run_target run = wb_graph_target b)
                  end) StoreValueError;
  let record := match stopped_origin db record with
                | Some at_ => if has_status record [WatchStopped] then record else born_stopped at_ record
                | None => record
                end in
  _ ← check_that (match as_graph record ≫= gk_armed_revision,
                        db_heads db !! (wb_project_id b, target_key (wb_graph_target b)) with
                  | Some armed, Some consumed =>
                      has_status record [WatchStopped] || (head_revision consumed <=? armed)%Z
                  | _, _ => true
                  end) StoreValueError;
  _ ← check_that (negb (is_some (db_watchers db !! w_watcher_id record))) StoreRuntimeError;
  Commit (set_watchers <[w_watcher_id record := record]> db).

(** [create_watchers]. *)
Definition create_watchers `{WatcherDigest} (db : WatcherDb) (records : list StoredWatcherRecord) : tx WatcherDb :=
  records ← tx_map _prepare_watcher_for_insert records;
  _ ← check_that (_validate_watch_list records) StoreValueError;
  tx_fold _insert_watcher db records.

(** ** Checks *)

(** [WHERE status IN ('active', 'degraded') AND notified = 0], on external rows. *)
Definition watching (w : StoredWatcherRecord) : bool :=
  has_status w [WatchActive; WatchDegraded] && negb (w_notified w).

(** What [record_watcher_check] writes. *)
Definition checked_row (x : ExternalCheck) (status : WatcherStatus) (exit_code : option Z) (error : option string)
    (timestamp count : Z) (next : option Z) (w : StoredWatcherRecord) : StoredWatcherRecord :=
  let d := w_delivery w in
  with_check (with_delivery w
    {| dl_status := status;
       dl_completed_at := if decide (status = WatchCompleted) then coalesce timestamp (dl_completed_at d)
                          else dl_completed_at d;
       dl_notified := dl_notified d; dl_notification_operation_id := dl_notification_operation_id d;
       dl_stopped_by := dl_stopped_by d; dl_stop_reason := dl_stop_reason d; dl_stopped_at := dl_stopped_at d;
       dl_stop_operation_id := dl_stop_operation_id d |})
    (ExternalWatcher
       {| xc_check_command := xc_check_command x; xc_log_path := xc_log_path x; xc_cwd := xc_cwd x;
          xc_last_checked_at := Some timestamp; xc_last_exit_code := exit_code; xc_last_error := error;
          xc_next_check_at := next; xc_consecutive_error_count := count; xc_group_id := xc_group_id x;
          xc_group_label := xc_group_label x |}).

(** [record_watcher_check]. *)
Definition record_watcher_check `{WatcherDigest} (db : WatcherDb) (watcher_id : string) (status : WatcherStatus)
    (exit_code : option Z) (error : option string) (timestamp : Z) : tx WatcherDb :=
  _ ← check_that (negb (bool_decide (status = WatchDegraded)) || truthy_opt error) StoreValueError;
  let error := if decide (status = WatchDegraded) then error else None in
  match db_watchers db !! watcher_id with
  | None => Abort (StoreKeyError watcher_id)
  | Some current =>
      match w_check current with
      | GraphWatcher _ => Abort StoreValueError
      | ExternalWatcher x =>
          if negb (watching current) then Commit db
          else
            let count := if decide (status = WatchDegraded) then (xc_consecutive_error_count x + 1)%Z else 0%Z in
            next ← (if decide (status = WatchActive ∨ status = WatchDegraded)
                    then t ← of_res (watcher_next_check_at watcher_id timestamp count); Commit (Some t)
                    else Commit None);
            Commit (set_watchers (alter (checked_row x status exit_code error timestamp count next) watcher_id) db)
      end
  end.

(** What a check says, and the status [WatcherPoller._check_records] records. *)
Inductive CheckState := CheckActive | CheckComplete | CheckError.
Definition checked_status (s : CheckState) : WatcherStatus :=
  match s with CheckActive => WatchActive | CheckComplete => WatchCompleted | CheckError => WatchDegraded end.
(** The states of [run_watcher_check], by exit code. *)
Definition exit_state (returncode : Z) : CheckState :=
  if (returncode =? 0)%Z then CheckComplete else if (returncode =? 1)%Z then CheckActive else CheckError.

(** ** Stopping *)

(** [stop_watchers]. *)
Definition stop_watchers (db : WatcherDb) (project_id : string) (watcher_ids : list string) (now : Z) : tx WatcherDb :=
  let ids := stable_dedup ∅ watcher_ids in
  _ ← check_that (negb (is_nil ids)) StoreValueError;
  let found := rows (named ids) db in
  _ ← check_that (forallb (λ id, is_some (db_watchers db !! id)) ids &&
                  forallb (λ w, str_eqb (w_project_id w) project_id) found)
         (StoreKeyError match find (λ id, negb (is_some (db_watchers db !! id))) ids with
                        | Some missing => missing
                        | None => default "" (head ids)
                        end);
  _ ← check_that (forallb unclaimed found) WatcherClaimConflict;
  _ ← check_that (forallb (λ w, negb (w_notified w) || has_status w [WatchStopped]) found) StoreValueError;
  Commit (update_rows (λ w, str_eqb (w_project_id w) project_id && named ids w &&
                            has_status w [WatchActive; WatchDegraded; WatchCompleted] && unclaimed w)
            (stop_row (coalesce ByHuman) keep (coalesce now) keep) db).

(** [_stop_watcher_for_loop]. *)
Definition _stop_watcher_for_loop (db : WatcherDb) (watcher_id : string) (now : Z) : WatcherDb :=
  set_watchers (alter (stop_row (coalesce ByLoop) keep (coalesce now) keep) watcher_id) db.

(** [detach_watchers_for_restore]. *)
Definition detach_watchers_for_restore (db : WatcherDb) (reason : string) (now : Z) : WatcherDb :=
  update_rows (λ w, has_status w [WatchActive; WatchDegraded] || (has_status w [WatchCompleted] && negb (w_notified w)))
    (stop_row (assign ByHuman) (assign reason) (coalesce now) keep) db.

(** [_settle_auto_research_watchers_in_connection]; an Auto-research episode has
    its row of [auto_research_episodes]. *)
Definition settle_auto_research_watchers (db : WatcherDb) (episode_id : string) : tx WatcherDb :=
  match db_episodes db !! episode_id with
  | None => Abort (StoreKeyError episode_id)
  | Some e =>
      _ ← check_that (str_eqb (ep_mode e) "auto_research") (StoreKeyError episode_id);
      _ ← check_that (is_some (ep_stop_requested_at e) || is_some (ep_ending e)) StoreValueError;
      let stopped_at := default (ep_updated_at e) (ep_stop_requested_at e) in
      let reason := if is_some (ep_stop_requested_at e) then "Auto-research episode stopped."
                    else "Auto-research episode ended (" +:+ default "None" (ep_ending e) +:+ ")." in
      Commit (update_rows (λ w, bool_decide (wb_episode_id (w_binding w) = Some episode_id) &&
                                bool_decide (wb_origin_task_kind (w_binding w) = OriginAutoResearch) &&
                                has_status w [WatchActive; WatchDegraded; WatchCompleted])
                (stop_row (coalesce ByLoop) (coalesce reason) (coalesce stopped_at) keep) db)
  end.

(** ** Episodes *)

(** [_experiment_episode_row]. *)
Definition _experiment_episode_row (db : WatcherDb) (episode_id : string) : option (EpisodeRow * EpisodeState) :=
  episode ← db_episodes db !! episode_id;
  if str_eqb (ep_mode episode) "experiment_loop" then pair episode <$> ep_state episode else None.

(** A root run of an Experiment's loop on one graph. *)
Definition loop_root (project_id control_node_id : string) (r : RunRow) : bool :=
  str_eqb (run_project_id r) project_id && negb (is_some (run_parent_operation_id r)) &&
  bool_decide (dget (run_request r) "patch_kind" = Some (PStr "experiment_loop")) &&
  bool_decide (dget (run_request r) "control_node_id" = Some (PStr control_node_id)).

(** [ORDER BY created_at DESC, rowid DESC LIMIT 1]. *)
Definition newest_run (l : list RunRow) : option RunRow :=
  fold_left (λ best r, match best with
                       | Some b => if (run_created_at r <? run_created_at b)%Z then Some b else Some r
                       | None => Some r
                       end) l None.

(** [_experiment_watcher_matches_current]. *)
Definition _experiment_watcher_matches_current (w : StoredWatcherRecord) (root_request : pydict)
    (episode : option (EpisodeRow * EpisodeState)) : bool :=
  let b := w_binding w in
  let control := default PNone (dget root_request "control_node_id") in
  let is_control (o : option string) := py_eqb (py_opt_str o) control in
  is_loop (wb_continuation b) && is_control (wc_control_node_id (wb_continuation b)) &&
  is_control (wb_node_id b) && is_some (wb_episode_id b) &&
  match episode with
  | Some (e, state) =>
      str_eqb (wb_project_id b) (ep_project_id e) && is_control (ep_control_node_id e) &&
      bool_decide (wb_graph_target b = ep_graph_target e) && str_eqb (wb_execution_host b) (es_execution_host state)
  | None => false
  end.

(** [_watcher_suppressed_by_current_stop]. *)
Definition _watcher_suppressed_by_current_stop (db : WatcherDb) (w : StoredWatcherRecord) : bool :=
  match wc_control_node_id (w_continuation w) with
  | Some node =>
      if negb (is_loop (w_continuation w)) || str_eqb node "" then false
      else match newest_run (bfilter (λ r, loop_root (w_project_id w) node r &&
                                           bool_decide (run_target r = w_graph_target w)) (db_runs db)) with
      | None => false
      | Some root =>
          match dget (run_request root) "control_episode_id" with
          | Some (PStr id) =>
              match _experiment_episode_row db id with
              | Some (e, state) =>
                  is_some (ep_stop_requested_at e) &&
                  _experiment_watcher_matches_current w (run_request root) (Some (e, state))
              | None => false
              end
          | _ => false
          end
      end
  | None => false
  end.

(** [pollable_watchers]. *)
Definition pollable_watchers (db : WatcherDb) (now : Z) : list StoredWatcherRecord :=
  bfilter (λ w, negb (_watcher_suppressed_by_current_stop db w))
    (merge_sort created_le
       (rows (λ w, watching w &&
                   match as_external w with
                   | Some x => match xc_next_check_at x with Some t => (t <=? now)%Z | None => true end
                   | None => false
                   end) db)).

(** ** Delivery *)

(** A degraded member of a group counts once its errors are worth a diagnosis. *)
Definition diagnosable (w : StoredWatcherRecord) : bool :=
  has_status w [WatchDegraded] && (WATCHER_GROUP_DIAGNOSTIC_ERROR_COUNT <=? w_error_count w)%Z.

Definition agent_stopped (w : StoredWatcherRecord) : bool :=
  has_status w [WatchStopped] && bool_decide (dl_stopped_by (w_delivery w) = Some ByAgent).

(** [_ready_group_members]. *)
Definition _ready_group_members (members : list StoredWatcherRecord) : option (list StoredWatcherRecord) :=
  match members with
  | [] => None
  | first :: _ =>
      let deliverable := bfilter (λ w, negb (agent_stopped w)) members in
      if forallb (λ w, is_some (w_group_id w)) members &&
         forallb (λ w, str_eqb (target_key (w_graph_target w)) (target_key (w_graph_target first))) members &&
         forallb (λ w, negb (has_status w [WatchStopped]) || agent_stopped w) members &&
         negb (is_nil deliverable) && forallb (λ w, negb (w_notified w)) deliverable &&
         forallb (λ w, has_status w [WatchCompleted] || diagnosable w) deliverable
      then Some deliverable else None
  end.

(** The members of a group, in a given order. *)
Definition group_members (le : relation StoredWatcherRecord) `{!RelDecision le} (db : WatcherDb) (id : string) :
    list StoredWatcherRecord :=
  merge_sort le (rows (λ w, bool_decide (w_group_id w = Some id)) db).

(** The groups in which one member is ready, in the order of the grouped rows. *)
Definition waking_groups (db : WatcherDb) : list string :=
  let waking := list_to_set (omap w_group_id
                  (rows (λ w, negb (w_notified w) && (has_status w [WatchCompleted] || diagnosable w)) db)) : gset string in
  stable_dedup ∅ (omap w_group_id
    (merge_sort completed_le (rows (λ w, match w_group_id w with Some g => bool_decide (g ∈ waking) | None => false end) db))).

(** The unit of one group, if it is ready and its Experiment is not stopping. *)
Definition group_unit (db : WatcherDb) (id : string) : list (list StoredWatcherRecord) :=
  match _ready_group_members (group_members completed_le db id) with
  | Some ((first :: _) as ready) => if _watcher_suppressed_by_current_stop db first then [] else [ready]
  | _ => []
  end.

(** [_ready_watcher_delivery_units]. *)
Definition _ready_watcher_delivery_units (db : WatcherDb) : list (list StoredWatcherRecord) :=
  ((λ w, [w]) <$> bfilter (λ w, negb (_watcher_suppressed_by_current_stop db w))
    (merge_sort completed_le
       (rows (λ w, negb (is_some (w_group_id w)) && has_status w [WatchCompleted] && negb (w_notified w)) db))) ++
  (waking_groups db ≫= group_unit db).

(** The key under which [completed_watcher_groups] joins units. *)
Inductive UnitKey :=
  | LoopUnit (project_id target : string) (node_id : option string) (host : string) (policy : AutomaticPolicy)
  | ChatUnit (project_id target : string) (kind : OriginTaskKind) (chat_id : string) (node_id : option string)
      (host : string) (policy : AutomaticPolicy).
#[export] Instance UnitKey_eq_dec : EqDecision UnitKey.
Proof. solve_decision. Defined.

Definition unit_key (w : StoredWatcherRecord) : UnitKey :=
  let b := w_binding w in
  let policy := _automatic_watcher_delivery_policy (wb_continuation b) in
  if is_loop (wb_continuation b)
  then LoopUnit (wb_project_id b) (target_key (wb_graph_target b)) (wb_node_id b) (wb_execution_host b) policy
  else ChatUnit (wb_project_id b) (target_key (wb_graph_target b)) (wb_origin_task_kind b) (wb_chat_id b)
         (wb_node_id b) (wb_execution_host b) policy.

(** [groups.setdefault(key, []).extend(unit)]. *)
Fixpoint extend_group (key : UnitKey) (unit : list StoredWatcherRecord)
    (groups : list (UnitKey * list StoredWatcherRecord)) : list (UnitKey * list StoredWatcherRecord) :=
  match groups with
  | [] => [(key, unit)]
  | (k, members) :: rest =>
      if decide (k = key) then (k, members ++ unit) :: rest else (k, members) :: extend_group key unit rest
  end.

(** [completed_watcher_groups]. *)
Definition completed_watcher_groups (db : WatcherDb) : list (list StoredWatcherRecord) :=
  (fold_left (λ groups unit, match unit with
                             | [] => groups
                             | first :: _ => extend_group (unit_key first) unit groups
                             end) (_ready_watcher_delivery_units db) []).*2.

(** [ready_graph_watcher_groups]. *)
Definition ready_graph_watcher_groups (db : WatcherDb) (project_id : string) : list (list StoredWatcherRecord) :=
  bfilter (λ group, match group with
                    | first :: _ => str_eqb (w_project_id first) project_id && existsb (λ w, is_some (as_graph w)) group
                    | [] => false
                    end) (completed_watcher_groups db).

(** ** Claims *)

(** A watcher that a wake may take. *)
Definition claimable (w : StoredWatcherRecord) : bool :=
  has_status w [WatchCompleted; WatchDegraded] && negb (w_notified w).

(** [{row ids} == set(ids)], for the rows that may be taken. *)
Definition all_claimable (db : WatcherDb) (P : StoredWatcherRecord → bool) (ids : list string) : bool :=
  forallb (λ id, match db_watchers db !! id with Some w => P w | None => false end) ids.

(** [_validate_watcher_notification_members]. *)
Definition _validate_watcher_notification_members (db : WatcherDb) (watchers : list StoredWatcherRecord) : bool :=
  forallb (λ w, is_some (w_group_id w) || has_status w [WatchCompleted]) watchers &&
  forallb (λ id, match _ready_group_members (group_members created_le db id) with
                 | Some ready => forallb (λ w, mem (w_watcher_id w) (w_watcher_id <$> watchers)) ready
                 | None => false
                 end) (omap w_group_id watchers).

(** The task a wake queues. *)
Record WakeTask := {
  wk_operation_id : string; wk_project_id : string; wk_parent_operation_id : option string;
  wk_episode_id : option string; wk_target : GraphTargetRef; wk_kind : string; wk_status : string;
  wk_request : pydict; wk_created_at : Z; wk_authorizer : option string * option string * option string }.

Definition request_str (request : pydict) (k : string) : option string :=
  match dget request k with Some (PStr s) => Some s | _ => None end.
(** [request["watcher_ids"]], a list of distinct strings. *)
Definition request_ids (request : pydict) : option (list string) :=
  match dget request "watcher_ids" with
  | Some (PList l) =>
      ids ← mapM (λ v, match v with PStr s => Some s | _ => None end) l;
      if no_dup ids then Some ids else None
  | _ => None
  end.

(** [_experiment_wake_is_stopped]. *)
Definition _experiment_wake_is_stopped (db : WatcherDb) (t : WakeTask) : bool :=
  bool_decide (request_str (wk_request t) "patch_kind" = Some "experiment_loop") &&
  bool_decide (request_str (wk_request t) "trigger" = Some "watcher") &&
  match request_str (wk_request t) "control_episode_id" ≫= λ id, db_episodes db !! id with
  | Some e => str_eqb (ep_mode e) "experiment_loop" &&
              (negb (str_eqb (ep_status e) "running") || is_some (ep_ending e) || is_some (ep_stop_requested_at e))
  | None => false
  end.

(** [_has_active_chat_overlap]. *)
Definition _has_active_chat_overlap (db : WatcherDb) (t : WakeTask) : bool :=
  mem (wk_kind t) ["node_chat"; "project_chat"] &&
  match request_str (wk_request t) "chat_id" with
  | Some chat =>
      truthy chat &&
      existsb (λ r, str_eqb (run_project_id r) (wk_project_id t) && str_eqb (run_kind r) (wk_kind t) &&
                    bool_decide (dget (run_request r) "chat_id" = Some (PStr chat)) &&
                    mem (run_status r) ["queued"; "running"; "pausing"]) (db_runs db)
  | None => false
  end.

(** The binding one notification may not mix. *)
Inductive WakeBinding :=
  | LoopBinding (node_id : option string) (target host : string) (policy : AutomaticPolicy)
  | ChatBinding (kind : OriginTaskKind) (chat_id : string) (node_id : option string) (host : string)
      (policy : DeliveryPolicy).
#[export] Instance WakeBinding_eq_dec : EqDecision WakeBinding.
Proof. solve_decision. Defined.
Definition wake_binding (w : StoredWatcherRecord) : WakeBinding :=
  let b := w_binding w in
  if is_loop (wb_continuation b)
  then LoopBinding (wb_node_id b) (target_key (wb_graph_target b)) (wb_execution_host b)
         (_automatic_watcher_delivery_policy (wb_continuation b))
  else ChatBinding (wb_origin_task_kind b) (wb_chat_id b) (wb_node_id b) (wb_execution_host b)
         (_watcher_delivery_policy (wb_continuation b)).

Definition insert_run (t : WakeTask) (db : WatcherDb) : WatcherDb :=
  {| db_watchers := db_watchers db; db_heads := db_heads db;
     db_runs := db_runs db ++
       [{| run_operation_id := wk_operation_id t; run_project_id := wk_project_id t;
           run_parent_operation_id := wk_parent_operation_id t; run_episode_id := wk_episode_id t;
           run_target := wk_target t; run_kind := wk_kind t; run_status := wk_status t;
           run_request := wk_request t; run_created_at := wk_created_at t; run_authorizer := wk_authorizer t |}];
     db_episodes := db_episodes db |}.

(** The claim inside a transaction ([_claim_experiment_watchers] has the same UPDATE). *)
Definition claim_rows (operation_id : string) (ids : list string) (db : WatcherDb) : WatcherDb :=
  update_rows (λ w, named ids w && claimable w) (claim_row operation_id) db.

(** [create_watcher_notification_task], on the tables of the watchers: the scope
    of the request and the admission of the task are not part of it.  [None]:
    nothing was written, because the wake was stopped or its conversation is busy. *)
Definition create_watcher_notification_task (db : WatcherDb) (t : WakeTask) (watcher_ids : list string) :
    tx (option WatcherDb) :=
  _ ← check_that (negb (is_nil watcher_ids) && no_dup watcher_ids) StoreValueError;
  _ ← check_that (str_eqb (wk_status t) "queued") StoreValueError;
  _ ← check_that (match request_ids (wk_request t) with
                  | Some ids => bool_decide ((list_to_set ids : gset string) = list_to_set watcher_ids)
                  | None => false
                  end) StoreValueError;
  _ ← check_that (all_claimable db claimable watcher_ids) StoreValueError;
  let watchers := rows (named watcher_ids) db in
  _ ← check_that (_validate_watcher_notification_members db watchers) StoreValueError;
  _ ← check_that (forallb (λ w, str_eqb (w_project_id w) (wk_project_id t)) watchers) StoreValueError;
  _ ← check_that (forallb (λ w, forallb (λ v, bool_decide (wake_binding w = wake_binding v)) watchers) watchers)
        StoreValueError;
  _ ← check_that (forallb (λ w, str_eqb (target_key (w_graph_target w)) (target_key (wk_target t))) watchers)
        StoreValueError;
  if _experiment_wake_is_stopped db t || _has_active_chat_overlap db t then Commit None
  else _ ← check_that (negb (mem (wk_operation_id t) (run_operation_id <$> db_runs db))) StoreValueError;
       Commit (Some (claim_rows (wk_operation_id t) watcher_ids (insert_run t db))).

(** [AuthorizedHuman.model_validate]: checked UUIDs and a normalized name. *)
Class HumanAdapter := validate_human : string → string → string → option AuthorizedHuman.

(** [_authorized_human_snapshot]; the outer [None] is its [RuntimeError]. *)
Definition _authorized_human_snapshot `{HumanAdapter} (r : RunRow) : option (option AuthorizedHuman) :=
  match run_authorizer r with
  | (None, None, None) => Some None
  | (Some space, Some user_, Some name) => Some <$> validate_human space user_ name
  | _ => None
  end.

(** Why no human authorizes a wake. *)
Inductive Diagnostic := OriginUnavailable | SnapshotInvalid | SnapshotMissing | AuthorizersDiffer.
Definition diagnostic_text (d : Diagnostic) : string :=
  match d with
  | OriginUnavailable => "Automatic watcher wake stopped: an originating task is unavailable, so RCP cannot prove who authorized the wake. Start a new Work turn or Experiment Run to continue."
  | SnapshotInvalid => "Automatic watcher wake stopped: an originating task has an invalid human authorizer snapshot, so RCP cannot prove who authorized the wake. Start a new Work turn or Experiment Run to continue."
  | SnapshotMissing => "Automatic watcher wake stopped: an originating task predates durable human attribution, so RCP cannot prove who authorized the wake. Start a new Work turn or Experiment Run to continue."
  | AuthorizersDiffer => "Automatic watcher wake stopped: the originating tasks have different human authorizers, so RCP cannot choose one. Start a new Work turn or Experiment Run to continue."
  end.

(** Who authorized the origin tasks of a delivery unit. *)
Definition unit_authorizer `{HumanAdapter} (db : WatcherDb) (watchers : list StoredWatcherRecord) : AuthorizedHuman + Diagnostic :=
  let origins := sorted_set (list_to_set ((wb_origin_operation_id ∘ w_binding) <$> watchers)) in
  match mapM (λ id, find (λ r, str_eqb (run_operation_id r) id) (db_runs db)) origins with
  | None => inr OriginUnavailable
  | Some runs =>
      match mapM _authorized_human_snapshot runs with
      | None => inr SnapshotInvalid
      | Some snapshots =>
          match mapM id snapshots with
          | None => inr SnapshotMissing
          | Some [] => inr SnapshotMissing
          | Some (human :: others) =>
              if forallb (λ h, bool_decide (h = human)) others then inl human else inr AuthorizersDiffer
          end
      end
  end.

Definition set_diagnostic (text : string) (now : Z) (e : EpisodeRow) : EpisodeRow :=
  {| ep_project_id := ep_project_id e; ep_mode := ep_mode e; ep_control_node_id := ep_control_node_id e;
     ep_graph_target := ep_graph_target e; ep_status := ep_status e; ep_ending := ep_ending e;
     ep_stop_requested_at := ep_stop_requested_at e; ep_ended_at := ep_ended_at e; ep_updated_at := ep_updated_at e;
     ep_state := (λ s, {| es_execution_host := es_execution_host s; es_session_diagnostic := Some text;
                          es_updated_at := now |}) <$> ep_state e |}.

(** [resolve_watcher_delivery_authorizer]: the human and the diagnostic, if any. *)
Definition resolve_watcher_delivery_authorizer `{HumanAdapter} (db : WatcherDb) (watcher_ids : list string) (now : Z) :
    tx (WatcherDb * (option AuthorizedHuman * option Diagnostic)) :=
  _ ← check_that (negb (is_nil watcher_ids) && no_dup watcher_ids) StoreValueError;
  let free w := claimable w && unclaimed w in
  if negb (all_claimable db free watcher_ids) then Commit (db, (None, None))
  else
    let watchers := rows (named watcher_ids) db in
    _ ← check_that (_validate_watcher_notification_members db watchers) StoreValueError;
    match unit_authorizer db watchers with
    | inl human => Commit (db, (Some human, None))
    | inr d =>
        let episodes := list_to_set (omap (λ w, if is_loop (w_continuation w) then wb_episode_id (w_binding w) else None)
                                       watchers) : gset string in
        Commit (set_episodes (map_imap (λ id e, Some (if decide (id ∈ episodes) then set_diagnostic (diagnostic_text d) now e else e)))
                  (update_rows (λ w, named watcher_ids w && free w)
                     (stop_row keep (assign (diagnostic_text d)) (coalesce now) keep) db),
                (None, Some d))
    end.

(** ** Stops an agent asks for *)

(** [_experiment_episode_root_request]. *)
Definition _experiment_episode_root_request (db : WatcherDb) (project_id control_node_id episode_id : string) :
    option pydict :=
  run_request <$> newest_run
    (bfilter (λ r, loop_root project_id control_node_id r &&
                   bool_decide (dget (run_request r) "control_episode_id" = Some (PStr episode_id))) (db_runs db)).

(** What one stop of [_validate_and_apply_agent_watcher_stops] asks for; [true]:
    the row is to be stopped, [false]: it is stopped already. *)
Definition agent_stop_applies (b : WatcherBinding) (node : string) (root_request : pydict)
    (episode : EpisodeRow * EpisodeState) (stop : WatcherStopRequest) (w : StoredWatcherRecord) : tx bool :=
  let d := w_delivery w in
  _ ← check_that (negb (is_some (as_graph w))) StoreValueError;
  if has_status w [WatchStopped]
  then if (bool_decide (dl_stopped_by d = Some ByAgent) &&
           bool_decide (dl_stop_operation_id d = Some (wb_origin_operation_id b)) &&
           bool_decide (dl_stop_reason d = Some (stop_request_reason stop)))
          || is_some (ep_stop_requested_at episode.1)
       then Commit false else Abort StoreValueError
  else
    _ ← check_that (negb (w_notified w || is_some (w_claim w))) WatcherClaimConflict;
    _ ← check_that (str_eqb (w_project_id w) (wb_project_id b) && bool_decide (wb_node_id (w_binding w) = Some node) &&
                    _experiment_watcher_matches_current w root_request (Some episode)) StoreValueError;
    Commit true.

(** [_validate_and_apply_agent_watcher_stops]: all stops are checked before any
    is applied. *)
Definition _validate_and_apply_agent_watcher_stops (db : WatcherDb) (b : WatcherBinding)
    (stops : list WatcherStopRequest) (episode : option (EpisodeRow * EpisodeState)) (now : Z) : tx WatcherDb :=
  match episode, wc_control_episode_id (wb_continuation b), wc_control_node_id (wb_continuation b) with
  | Some e, Some id, Some node =>
      _ ← check_that (truthy id && truthy node) StoreValueError;
      match _experiment_episode_root_request db (wb_project_id b) node id with
      | None => Abort StoreValueError
      | Some root =>
          applies ← tx_map (λ stop, match db_watchers db !! stop_watcher_id stop with
                                    | None => Abort StoreValueError
                                    | Some w => applied ← agent_stop_applies b node root e stop w; Commit (stop, applied)
                                    end) stops;
          tx_fold (λ db stop,
              match db_watchers db !! stop_watcher_id stop with
              | Some w =>
                  _ ← check_that (has_status w [WatchActive; WatchDegraded; WatchCompleted] && negb (w_notified w) &&
                                  unclaimed w) WatcherClaimConflict;
                  Commit (set_watchers (alter (stop_row (assign ByAgent) (assign (stop_request_reason stop)) (assign now)
                                          (assign (wb_origin_operation_id b))) (stop_watcher_id stop)) db)
              | None => Abort WatcherClaimConflict
              end) db (omap (λ x : WatcherStopRequest * bool, if x.2 then Some x.1 else None) applies)
      end
  | _, _, _ => Abort StoreValueError
  end.

(** ** Arming *)

Record WatcherCheckResult := { cr_state : CheckState; cr_checked_at : Z; cr_exit_code : option Z; cr_error : option string }.

Definition fresh_delivery (completed_at : option Z) : Delivery :=
  {| dl_status := if completed_at then WatchCompleted else WatchActive; dl_completed_at := completed_at;
     dl_notified := false; dl_notification_operation_id := None; dl_stopped_by := None; dl_stop_reason := None;
     dl_stopped_at := None; dl_stop_operation_id := None |}.

(** An external observer as [arm_watchers] builds it from its initial check. *)
Definition armed_external (b : WatcherBinding) (now : Z) (id : string) (spec : WatchSpec) (r : WatcherCheckResult) :
    StoredWatcherRecord :=
  {| w_watcher_id := id; w_binding := b; w_created_at := now;
     w_delivery := fresh_delivery match cr_state r with CheckComplete => Some (cr_checked_at r) | _ => None end;
     w_check := ExternalWatcher
       {| xc_check_command := ws_check_command spec; xc_log_path := ws_log_path spec; xc_cwd := ws_cwd spec;
          xc_last_checked_at := Some (cr_checked_at r); xc_last_exit_code := cr_exit_code r; xc_last_error := None;
          xc_next_check_at := None; xc_consecutive_error_count := 0; xc_group_id := None; xc_group_label := None |} |}.

(** A graph condition as [arm_watchers] builds it; its removal is refused. *)
Definition armed_graph (b : WatcherBinding) (now : Z) (st : GraphState) (id : string) (c : GraphCondition) :
    tx StoredWatcherRecord :=
  let result := graph_condition_result c st (gs_revision st) in
  _ ← check_that (negb (bool_decide (result = ResultRemoved))) StoreValueError;
  Commit {| w_watcher_id := id; w_binding := b; w_created_at := now;
            w_delivery := fresh_delivery (if decide (result = ResultCompleted) then Some now else None);
            w_check := GraphWatcher {| gk_condition := c; gk_armed_revision := Some (gs_revision st);
                                       gk_last_evaluated_at := Some now |} |}.

(** [arm_watchers], with the results of the initial checks. *)
Definition arm_watchers `{WatcherDigest, TextLib} (db : WatcherDb) (b : WatcherBinding) (now : Z) (ids : list string)
    (specs : list WatchSpec) (results : list WatcherCheckResult) (conditions : list GraphCondition)
    (st : option GraphState) : tx WatcherDb :=
  _ ← check_that (negb (is_nil specs && is_nil conditions)) StoreValueError;
  _ ← check_that (length ids =? length specs + length conditions) StoreValueError;
  _ ← check_that (forallb (λ id, negb (is_blank id)) ids && no_dup ids) StoreValueError;
  _ ← match st with
      | None => check_that (is_nil conditions) StoreValueError
      | Some st => if is_nil conditions then Commit tt else of_res (validate_graph_conditions conditions st)
      end;
  _ ← check_that (forallb (λ r, match cr_state r with CheckError => false | _ => true end) results) StoreValueError;
  let external := zip_with (λ id sr, armed_external b now id sr.1 sr.2) (take (length specs) ids) (zip specs results) in
  graph ← match st with
          | None => Commit []
          | Some st => tx_map (λ ic, armed_graph b now st ic.1 ic.2) (zip (drop (length specs) ids) conditions)
          end;
  create_watchers db (external ++ graph).
