(* ===== verification/WatcherLaws.v ===== *)
(** The life of a watcher: every operation of the store moves a watcher along one
    automaton, from watching to ready, from there to one claim, and from
    anywhere to stopped. *)

From S2P Require Export WatcherStore.

(** ** The automaton *)

Inductive Phase := Watching | Ready | Claimed (operation_id : string) | Ended (claim : option string).

Definition phase (w : StoredWatcherRecord) : Phase :=
  match w_status w, w_claim w with
  | WatchStopped, claim => Ended claim
  | _, Some operation_id => Claimed operation_id
  | WatchCompleted, None => Ready
  | _, None => Watching
  end.

Definition phase_claim (p : Phase) : option string :=
  match p with Claimed op => Some op | Ended claim => claim | _ => None end.

(** A watching watcher is claimed when it fails as a member of a ready group. *)
Inductive phase_step : Phase → Phase → Prop :=
  | phase_same p : phase_step p p
  | phase_ready : phase_step Watching Ready
  | phase_claimed p op : phase_claim p = None → p ≠ Ended None → phase_step p (Claimed op)
  | phase_ended p : phase_step p (Ended (phase_claim p)).

(** What the store keeps of every row. *)
Record watcher_wf (id : string) (w : StoredWatcherRecord) : Prop := {
  ww_id : w_watcher_id w = id;
  ww_notified : w_notified w = has_status w [WatchStopped] || is_some (w_claim w);
  ww_completed : w_status w = WatchCompleted → is_some (dl_completed_at (w_delivery w)) = true;
  ww_graph : is_some (as_graph w) = true → w_status w ≠ WatchDegraded }.
Definition db_wf (db : WatcherDb) : Prop := ∀ id w, db_watchers db !! id = Some w → watcher_wf id w.

(** What a row keeps for its whole life: its identity and where it belongs. *)
Definition same_watcher (w w' : StoredWatcherRecord) : Prop :=
  w_watcher_id w' = w_watcher_id w ∧ w_binding w' = w_binding w ∧ w_created_at w' = w_created_at w ∧
  w_group_id w' = w_group_id w ∧ gk_condition <$> as_graph w' = gk_condition <$> as_graph w.

(** One row moved along the automaton. *)
Definition row_moves (id : string) (w w' : StoredWatcherRecord) : Prop :=
  watcher_wf id w → watcher_wf id w' ∧ same_watcher w w' ∧ phase_step (phase w) (phase w').

(** ** Rows *)

Section rows.
Implicit Types (id : string) (w : StoredWatcherRecord) (db : WatcherDb).

Lemma has_status_true w l : has_status w l = true ↔ w_status w ∈ l.
Proof. apply bool_decide_eq_true. Qed.

Lemma row_moves_refl id w : row_moves id w w.
Proof. intros Hw. split; [done|]. split; [done|constructor]. Qed.

Lemma stop_moves id by_ reason at_ operation w : row_moves id w (stop_row by_ reason at_ operation w).
Proof.
  intros [Hid Hn ? ?]. destruct w as [i b c [st ? ? claim ? ? ? ?] [x|g]]; split_and!; try done.
  all: try by split.
  all: match goal with |- phase_step ?p _ => pose proof (phase_ended p) as Hp end; by destruct st, claim.
Qed.

Lemma arm_moves id rev at_ w : row_moves id w (arm_row rev at_ w).
Proof. intros [????]. destruct w as [i b c d [x|g]]; (split; [by split|]); (split; [done|constructor]). Qed.

(** A claim takes a row that is ready, or degraded, and not taken. *)
Lemma claim_moves id op w : claimable w = true → row_moves id w (claim_row op w).
Proof.
  unfold claimable. intros [Hs%has_status_true Hn%negb_true_iff]%andb_true_iff [Hid Hw Hc Hg].
  rewrite Hw in Hn. apply orb_false_iff in Hn as [Hns Hno].
  destruct w as [i b c [st ? ? [o|] ? ? ? ?] k]; [done|]. split.
  { split; [done| |done|done]. unfold w_notified, w_claim. cbn. by rewrite orb_true_r. }
  split; [done|]. cbn in Hs |- *. destruct st; try done; by constructor.
Qed.

(** A row that is watched: not stopped, not taken, not complete. *)
Lemma watching_phase id w : watcher_wf id w → watching w = true → phase w = Watching.
Proof.
  unfold watching. intros [_ Hw _ _] [Hs%has_status_true Hn%negb_true_iff]%andb_true_iff.
  rewrite Hw in Hn. apply orb_false_iff in Hn as [_ Hno].
  destruct w as [i b c [[] ? ? [o|] ? ? ? ?] k]; try done; cbn in Hs; set_solver.
Qed.

Lemma active_graph_watching w : active_graph w = true → watching w = true ∧ is_some (as_graph w) = true.
Proof.
  unfold active_graph, watching. rewrite !andb_true_iff, !has_status_true. set_solver.
Qed.

Lemma complete_moves id at_ w : watching w = true → row_moves id w (complete_row at_ (set_evaluated at_ w)).
Proof.
  intros Hwatch Hwf. rewrite (watching_phase id w Hwf Hwatch). destruct Hwf as [Hid Hn _ _].
  apply andb_true_iff in Hwatch as [Hs%has_status_true Hf%negb_true_iff].
  destruct w as [i b c [st ? ? [o|] ? ? ? ?] [x|g]]; cbn in *; try (by rewrite orb_true_r in Hn; congruence).
  all: (split; [split; cbn; try done|]); [..|split; [done|constructor]].
  all: unfold has_status; cbn; by rewrite Hf.
Qed.

Lemma evaluated_moves id at_ w : row_moves id w (set_evaluated at_ w).
Proof. intros [????]. destruct w as [i b c d [x|g]]; (split; [by split|]); (split; [done|constructor]). Qed.

Lemma record_result_moves id result at_ w : row_moves id w (record_result_row result at_ w).
Proof.
  unfold record_result_row. destruct (negb (active_graph w)) eqn:Ha; [apply row_moves_refl|].
  apply negb_false_iff, active_graph_watching in Ha as [Hw Hg]. destruct result.
  - apply evaluated_moves.
  - by apply complete_moves.
  - intros Hwf. destruct (evaluated_moves id at_ w Hwf) as (Hwf1 & Hsame & _).
    destruct (stop_moves id (assign ByLoop) (assign REMOVED_TARGET) (assign at_) keep _ Hwf1) as (? & Hs2 & Hp).
    split; [done|]. split; [by destruct w as [? ? ? ? [?|?]]|].
    by destruct w as [? ? ? [[] ? ? [?|] ? ? ? ?] [?|?]].
Qed.

Lemma checked_moves id w x s code error timestamp count next :
  as_external w = Some x → watching w = true →
  row_moves id w (checked_row x (checked_status s) code error timestamp count next w).
Proof.
  intros Hx Hwatch Hwf. rewrite (watching_phase id w Hwf Hwatch). destruct Hwf as [Hid Hn _ _].
  apply andb_true_iff in Hwatch as [Hs%has_status_true Hf%negb_true_iff].
  destruct w as [i b c [st done_at ? [o|] ? ? ? ?] [x'|g]]; cbn in *; try done.
  { by rewrite orb_true_r in Hn; congruence. }
  injection Hx as ->. split; [|split; [done|by destruct s; constructor]].
  split; cbn; [done| | |done].
  - unfold w_notified, has_status. cbn. rewrite Hf. by destruct s.
  - by destruct s, done_at.
Qed.
End rows.

(** ** Tables *)

Section tables.
Implicit Types (db : WatcherDb) (w : StoredWatcherRecord).

(** A table moves along the automaton: it stays well formed, and every row stays
    and moves. *)
Definition db_steps db db' : Prop :=
  db_wf db → db_wf db' ∧
  (∀ id w, db_watchers db !! id = Some w →
     ∃ w', db_watchers db' !! id = Some w' ∧ same_watcher w w' ∧ rtc phase_step (phase w) (phase w')).

Lemma claim_kept p p' : rtc phase_step p p' → phase_claim p ≠ None → phase_claim p' = phase_claim p.
Proof.
  induction 1 as [|p q p' Hs _ IH]; [done|]. intros Hc.
  assert (phase_claim q = phase_claim p) as Hq by by destruct Hs. rewrite IH; congruence.
Qed.

Lemma phase_claim_eq w : phase_claim (phase w) = w_claim w.
Proof. by destruct w as [? ? ? [[] ? ? [?|] ? ? ? ?] ?]. Qed.

Lemma same_watcher_trans w1 w2 w3 : same_watcher w1 w2 → same_watcher w2 w3 → same_watcher w1 w3.
Proof. unfold same_watcher. intros (?&?&?&?&?) (?&?&?&?&?). split_and!; congruence. Qed.

#[export] Instance db_steps_preorder : PreOrder db_steps.
Proof.
  split.
  - intros db Hwf. split; [done|]. intros id w Hw. by exists w.
  - intros db1 db2 db3 H12 H23 Hwf. destruct (H12 Hwf) as (Hwf2 & Hold). destruct (H23 Hwf2) as (Hwf3 & Hold').
    split; [done|]. intros id w Hw. destruct (Hold id w Hw) as (w2 & Hw2 & Hs2 & Hp2).
    destruct (Hold' id w2 Hw2) as (w3 & Hw3 & Hs3 & Hp3).
    exists w3. split; [done|]. split; [by eapply same_watcher_trans|by transitivity (phase w2)].
Qed.

Lemma db_steps_same db db' : db_watchers db' = db_watchers db → db_steps db db'.
Proof.
  intros Heq Hwf. unfold db_wf. rewrite Heq. split; [done|]. intros id w Hw. by exists w.
Qed.

(** A map of the rows. *)
Lemma db_steps_rows db db' :
  (∀ id, db_watchers db' !! id = None ↔ db_watchers db !! id = None) →
  (∀ id w w', db_watchers db !! id = Some w → db_watchers db' !! id = Some w' → row_moves id w w') →
  db_steps db db'.
Proof.
  intros Hdom Hrow Hwf. split.
  - intros id w' Hw'. destruct (db_watchers db !! id) as [w|] eqn:Hw; [by eapply Hrow; [| |apply Hwf]|].
    apply Hdom in Hw. congruence.
  - intros id w Hw. destruct (db_watchers db' !! id) as [w'|] eqn:Hw'; [|apply Hdom in Hw'; congruence].
    exists w'. destruct (Hrow id w w' Hw Hw' (Hwf id w Hw)) as (_ & ? & ?). split_and!; [done|done|by apply rtc_once].
Qed.

Lemma update_steps P f db :
  (∀ id w, db_watchers db !! id = Some w → P w = true → row_moves id w (f w)) → db_steps db (update_rows P f db).
Proof.
  intros Hrow. apply db_steps_rows; unfold update_rows, set_watchers; cbn; intros id; rewrite lookup_fmap.
  - by rewrite fmap_None.
  - intros w w' Hw. rewrite Hw. intros [= <-]. destruct (P w) eqn:HP; [by apply (Hrow id)|apply row_moves_refl].
Qed.

Lemma alter_steps id f db :
  (∀ w, db_watchers db !! id = Some w → row_moves id w (f w)) → db_steps db (set_watchers (alter f id) db).
Proof.
  intros Hrow. apply db_steps_rows; unfold set_watchers; cbn; intros i; rewrite lookup_alter.
  - case_decide as Hi; [subst i; by rewrite fmap_None|done].
  - intros w w' Hw. case_decide as Hi.
    + subst i. rewrite Hw. intros [= <-]. by apply Hrow.
    + rewrite Hw. intros [= <-]. apply row_moves_refl.
Qed.

(** A row a task leaves: well formed, and not claimed. *)
Definition fresh_watcher w : Prop := watcher_wf (w_watcher_id w) w ∧ w_claim w = None.

Lemma insert_steps w db :
  db_watchers db !! w_watcher_id w = None → fresh_watcher w → db_steps db (set_watchers <[w_watcher_id w := w]> db).
Proof.
  intros Hn [Hw _] Hwf. unfold set_watchers. split; cbn.
  - intros id v. cbn. rewrite lookup_insert. case_decide as Hi; [intros [= <-]; by subst id|apply Hwf].
  - intros id v Hv. exists v. rewrite lookup_insert_ne by congruence. done.
Qed.

Lemma stop_fresh by_ reason at_ operation w : fresh_watcher w → fresh_watcher (stop_row by_ reason at_ operation w).
Proof.
  intros [Hwf Hc]. destruct (stop_moves (w_watcher_id w) by_ reason at_ operation w Hwf) as (Hwf' & Hs & _).
  split.
  - assert (w_watcher_id (stop_row by_ reason at_ operation w) = w_watcher_id w) as -> by apply Hs. done.
  - by destruct w as [? ? ? ? [?|?]].
Qed.

Lemma insert_watcher_steps db db' w : fresh_watcher w → _insert_watcher db w = Commit db' → db_steps db db'.
Proof.
  intros Hf H. unfold _insert_watcher in H. cbv zeta in H. tx_inv H. injection H as <-.
  apply negb_true_iff in Hcheck1. apply insert_steps; [by destruct (db_watchers db !! _)|].
  destruct (stopped_origin db w); [|done]. destruct (has_status w [WatchStopped]); [done|by apply stop_fresh].
Qed.

Lemma prepare_fresh `{WatcherDigest} w w' : fresh_watcher w → _prepare_watcher_for_insert w = Commit w' → fresh_watcher w'.
Proof.
  intros [[Hid Hn Hc Hg] Hcl] H'. unfold _prepare_watcher_for_insert in H'. cbv zeta in H'.
  destruct w as [i b c d [x|g]], (is_loop _); cbn in H'.
  all: try (by injection H' as <-; split; [split|]).
  all: destruct (negb _ || _); [by injection H' as <-; split; [split|]|].
  all: apply tx_bind_ok in H' as (next & _ & [= <-]); by split; [split|].
Qed.

Lemma create_steps `{WatcherDigest} db db' records :
  Forall fresh_watcher records → create_watchers db records = Commit db' → db_steps db db'.
Proof.
  intros Hf H'. unfold create_watchers in H'. apply tx_bind_ok in H' as (prepared & Hp%tx_map_ok & H'). tx_inv H'.
  assert (Forall fresh_watcher prepared) as Hfp.
  { clear Hcheck H'. induction Hp; [done|]. apply Forall_cons in Hf as [? ?].
    constructor; [by eapply prepare_fresh|auto]. }
  rewrite Forall_forall in Hfp. refine (tx_fold_inv (db_steps db) _ _ _ _ _ _ H'); [|done].
  intros s w s' Hw Hs Hi. etrans; [done|]. eapply insert_watcher_steps; [by apply Hfp|done].
Qed.
End tables.

(** ** Operations *)

Section operations.
Context `{!WatcherDigest, !HumanAdapter}.
Implicit Types (db : WatcherDb) (w : StoredWatcherRecord).

(** One operation of the store; the other tables change as they may. *)
Inductive store_op : WatcherDb → WatcherDb → Prop :=
  | op_create db db' records :
      Forall fresh_watcher records → create_watchers db records = Commit db' → store_op db db'
  | op_baselines db project_id target revision now :
      store_op db (initialize_graph_watcher_target_baselines db project_id target revision now)
  | op_baseline db id revision now : store_op db (initialize_graph_watcher_baseline db id revision now)
  | op_result db db' id result now : record_graph_watcher_result db id result now = Commit db' → store_op db db'
  | op_boundary db db' project_id head evaluate now fresh :
      consume_graph_watcher_boundary db project_id head evaluate now = Commit (db', fresh) → store_op db db'
  | op_check db db' id s code error now :
      record_watcher_check db id (checked_status s) code error now = Commit db' → store_op db db'
  | op_stop db db' project_id ids now : stop_watchers db project_id ids now = Commit db' → store_op db db'
  | op_loop_stop db id now : store_op db (_stop_watcher_for_loop db id now)
  | op_agent_stops db db' b stops episode now :
      _validate_and_apply_agent_watcher_stops db b stops episode now = Commit db' → store_op db db'
  | op_wake db db' t ids : create_watcher_notification_task db t ids = Commit (Some db') → store_op db db'
  | op_resolve db db' ids now answer :
      resolve_watcher_delivery_authorizer db ids now = Commit (db', answer) → store_op db db'
  | op_settle db db' episode_id : settle_auto_research_watchers db episode_id = Commit db' → store_op db db'
  | op_detach db reason now : store_op db (detach_watchers_for_restore db reason now)
  | op_other db db' : db_watchers db' = db_watchers db → store_op db db'.

Lemma record_result_steps db id result now : db_steps db (_record_graph_watcher_result_locked db id result now).
Proof. apply alter_steps. intros w _. apply record_result_moves. Qed.

Lemma consume_row_steps head evaluate now db db' w : consume_row head evaluate now db w = Commit db' → db_steps db db'.
Proof.
  unfold consume_row. destruct (as_graph w) as [g|]; [|done]. destruct (negb _); [by intros [= <-]|].
  intros (result & _ & [= <-])%tx_bind_ok. apply record_result_steps.
Qed.

Lemma consume_steps db db' project_id head evaluate now fresh :
  consume_graph_watcher_boundary db project_id head evaluate now = Commit (db', fresh) → db_steps db db'.
Proof.
  unfold consume_graph_watcher_boundary. cbv zeta. intros Hr.
  assert (∀ m, m ≫= (λ db1, Commit (set_head (project_id, target_key (head_target head)) head db1, true)) = Commit (db', fresh) →
    (∀ db1, m = Commit db1 → db_steps db db1) → db_steps db db') as Hadv.
  { intros m (db1 & Hm & [= <- _])%tx_bind_ok Hsteps. etrans; [by apply Hsteps|by apply db_steps_same]. }
  assert (∀ db1, tx_fold (consume_row head evaluate now) db (active_graph_watchers db project_id) = Commit db1 →
    db_steps db db1) as Hfold.
  { intros db1 H1. refine (tx_fold_inv (db_steps db) _ _ _ _ _ _ H1); [|done].
    intros s w s' _ Hs Hw. etrans; [exact Hs|by eapply consume_row_steps]. }
  destruct (db_heads db !! _) as [stored|]; [|by eapply Hadv].
  tx_inv Hr. destruct (_ <? _)%Z; [by injection Hr as <- _|]. destruct (_ =? _)%Z; [|by eapply Hadv].
  tx_inv Hr. by injection Hr as <- _.
Qed.

Lemma check_steps db db' id s code error now :
  record_watcher_check db id (checked_status s) code error now = Commit db' → db_steps db db'.
Proof.
  unfold record_watcher_check. intros Hr. tx_inv Hr. cbv zeta in Hr.
  destruct (db_watchers db !! id) as [w|] eqn:Hw; [|done]. destruct (w_check w) as [x|g] eqn:Hx; [|done].
  destruct (watching w) eqn:Hwatch; cbn [negb] in Hr; [|by injection Hr as <-].
  apply tx_bind_ok in Hr as (next & _ & [= <-]). apply alter_steps. intros v Hv. rewrite Hw in Hv. injection Hv as <-.
  apply checked_moves; [|done]. unfold as_external. by rewrite Hx.
Qed.

Lemma agent_stops_steps db db' b stops episode now :
  _validate_and_apply_agent_watcher_stops db b stops episode now = Commit db' → db_steps db db'.
Proof.
  unfold _validate_and_apply_agent_watcher_stops. destruct episode as [e|]; [|done].
  destruct (wc_control_episode_id _) as [eid|]; [|done]. destruct (wc_control_node_id _) as [node|]; [|done].
  intros Hr. tx_inv Hr. destruct (_experiment_episode_root_request _ _ _ _) as [root|]; [|done].
  apply tx_bind_ok in Hr as (applies & _ & Hr). refine (tx_fold_inv (db_steps db) _ _ _ _ _ _ Hr); [|done].
  intros s stop s' _ Hs Hstop. etrans; [exact Hs|]. destruct (db_watchers s !! _); [|done].
  tx_inv Hstop. injection Hstop as <-. apply alter_steps. intros w _. apply stop_moves.
Qed.

Lemma claim_steps op ids db : db_steps db (claim_rows op ids db).
Proof. apply update_steps. intros id w _ [_ Hc]%andb_true_iff. by apply claim_moves. Qed.

Lemma wake_claims db db' t ids :
  create_watcher_notification_task db t ids = Commit (Some db') →
  all_claimable db claimable ids = true ∧ db' = claim_rows (wk_operation_id t) ids (insert_run t db).
Proof.
  unfold create_watcher_notification_task. intros Hr. tx_inv Hr. destruct (_ || _); [done|]. tx_inv Hr.
  by injection Hr as <-.
Qed.

Lemma store_op_steps db db' : store_op db db' → db_steps db db'.
Proof.
  destruct 1 as [db db' records Hf Hr|db project_id target revision now|db id revision now|db db' id result now Hr
    |db db' project_id head evaluate now fresh Hr|db db' id s code error now Hr|db db' project_id ids now Hr|db id now
    |db db' b stops episode now Hr|db db' t ids Hr|db db' ids now answer Hr|db db' episode_id Hr|db reason now
    |db db' Hr].
  - by eapply create_steps.
  - apply update_steps. intros i w _ _. apply arm_moves.
  - apply update_steps. intros i w _ _. apply arm_moves.
  - unfold record_graph_watcher_result in Hr. destruct (db_watchers db !! id); [|done]. tx_inv Hr.
    destruct (_ || _); injection Hr as <-; [done|apply record_result_steps].
  - by eapply consume_steps.
  - by eapply check_steps.
  - unfold stop_watchers in Hr. cbv zeta in Hr. tx_inv Hr. injection Hr as <-.
    apply update_steps. intros i w _ _. apply stop_moves.
  - apply alter_steps. intros w _. apply stop_moves.
  - by eapply agent_stops_steps.
  - apply wake_claims in Hr as [_ ->]. transitivity (insert_run t db); [by apply db_steps_same|apply claim_steps].
  - unfold resolve_watcher_delivery_authorizer in Hr. cbv zeta in Hr. tx_inv Hr.
    destruct (all_claimable _ _ _); cbn [negb] in Hr; [|by injection Hr as <- _]. tx_inv Hr.
    destruct (unit_authorizer _ _); injection Hr as <- _; [done|].
    etrans; [|by apply db_steps_same]. apply update_steps. intros i w _ _. apply stop_moves.
  - unfold settle_auto_research_watchers in Hr. destruct (db_episodes db !! episode_id); [|done]. tx_inv Hr. cbv zeta in Hr.
    injection Hr as <-. apply update_steps. intros i w _ _. apply stop_moves.
  - apply update_steps. intros i w _ _. apply stop_moves.
  - by apply db_steps_same.
Qed.

Lemma store_ops_steps db db' : rtc store_op db db' → db_steps db db'.
Proof. induction 1 as [|db1 db2 db3 H12 _ IH]; [done|]. etrans; [by apply store_op_steps|done]. Qed.

(** C18: every operation on watchers refines the life of a watcher.  However the
    operations of the store interleave, the table stays well formed, no watcher
    is lost or changes where it belongs, and each one goes from watching to
    ready, to one claim, to stopped, and never back. *)
Theorem store_refines_lifecycle db db' :
  db_wf db → rtc store_op db db' →
  db_wf db' ∧ ∀ id w, db_watchers db !! id = Some w →
    ∃ w', db_watchers db' !! id = Some w' ∧ same_watcher w w' ∧ rtc phase_step (phase w) (phase w').
Proof. intros Hwf Hops. by apply store_ops_steps. Qed.
End operations.
