(* ===== verification/WatcherDelivery.v ===== *)
(** Delivery of watchers: what is ready is claimable, and what is claimed stays
    with its wake. *)

From S2P Require Export WatcherLaws.

Section delivery.
Implicit Types (db : WatcherDb) (w v : StoredWatcherRecord).

(** ** Selections *)

Lemma elem_of_rows w P db : w ∈ rows P db ↔ P w = true ∧ ∃ id, db_watchers db !! id = Some w.
Proof.
  unfold rows. rewrite elem_of_bfilter, list_elem_of_fmap. split.
  - intros [HP ([id v] & -> & Hv%elem_of_map_to_list)]. split; [done|by exists id].
  - intros [HP [id Hid]]. split; [done|]. exists (id, w). split; [done|by apply elem_of_map_to_list].
Qed.

Lemma elem_of_sorted_rows le `{!RelDecision le} w P db :
  w ∈ merge_sort le (rows P db) ↔ P w = true ∧ ∃ id, db_watchers db !! id = Some w.
Proof. by rewrite merge_sort_Permutation, elem_of_rows. Qed.

Lemma stored db w : db_wf db → (∃ id, db_watchers db !! id = Some w) → db_watchers db !! w_watcher_id w = Some w.
Proof. intros Hwf [id Hw]. by rewrite (ww_id id w (Hwf id w Hw)). Qed.

Lemma NoDup_ids P db : db_wf db → NoDup (w_watcher_id <$> rows P db).
Proof.
  intros Hwf. unfold rows.
  assert (NoDup (w_watcher_id <$> (map_to_list (db_watchers db)).*2)) as Hall.
  { assert (w_watcher_id <$> (map_to_list (db_watchers db)).*2 = (map_to_list (db_watchers db)).*1) as ->.
    { rewrite <-list_fmap_compose. apply list_fmap_ext. intros i [id w] Hi.
      apply list_elem_of_lookup_2, elem_of_map_to_list in Hi. by apply Hwf. }
    apply NoDup_fst_map_to_list. }
  revert Hall. generalize ((map_to_list (db_watchers db)).*2). intros l. unfold bfilter.
  induction l as [|w l IH]; cbn; [done|]. intros [Hn Hl]%NoDup_cons. destruct (P w); [|by apply IH].
  cbn. apply NoDup_cons. split; [|by apply IH]. intros Hin. apply Hn.
  apply list_elem_of_fmap in Hin as (v & Hv & Hin). apply list_elem_of_fmap. exists v. split; [done|].
  apply list_elem_of_In, filter_In in Hin as [Hin _]. by apply list_elem_of_In.
Qed.

(** ** Units *)

Lemma forallb_perm {A} (f : A → bool) l1 l2 : l1 ≡ₚ l2 → forallb f l1 = forallb f l2.
Proof.
  intros Hp. apply eq_true_iff_eq. rewrite !forallb_forall. split; intros Hf x Hx; apply Hf.
  - apply list_elem_of_In. rewrite Hp. by apply list_elem_of_In.
  - apply list_elem_of_In. rewrite <-Hp. by apply list_elem_of_In.
Qed.

Lemma bfilter_perm {A} (f : A → bool) l1 l2 : l1 ≡ₚ l2 → bfilter f l1 ≡ₚ bfilter f l2.
Proof.
  unfold bfilter. induction 1 as [|x l1 l2 _ IH|x y l|l1 l2 l3 _ IH1 _ IH2]; cbn; [done| | |by rewrite IH1].
  - by destruct (f x); rewrite IH.
  - destruct (f x), (f y); try done. apply perm_swap.
Qed.

Record group_ready (members : list StoredWatcherRecord) : Prop := {
  gr_groups : forallb (λ w, is_some (w_group_id w)) members = true;
  gr_targets : ∀ w v, w ∈ members → v ∈ members → target_key (w_graph_target w) = target_key (w_graph_target v);
  gr_stopped : forallb (λ w, negb (has_status w [WatchStopped]) || agent_stopped w) members = true;
  gr_some : bfilter (λ w, negb (agent_stopped w)) members ≠ [];
  gr_free : forallb (λ w, negb (w_notified w)) (bfilter (λ w, negb (agent_stopped w)) members) = true;
  gr_done : forallb (λ w, has_status w [WatchCompleted] || diagnosable w)
              (bfilter (λ w, negb (agent_stopped w)) members) = true }.

(** Whether a group is ready does not depend on the order of its members. *)
Lemma ready_iff members ready :
  _ready_group_members members = Some ready ↔
  group_ready members ∧ ready = bfilter (λ w, negb (agent_stopped w)) members.
Proof.
  unfold _ready_group_members. split.
  - destruct members as [|first rest] eqn:Hm; [done|]. rewrite <-Hm.
    destruct (_ && _) eqn:Hc; [|done]. intros [= <-]. split; [|done].
    rewrite !andb_true_iff, negb_true_iff in Hc. destruct Hc as (((((H1 & H2) & H3) & H4) & H5) & H6).
    split; try done; [|by intros Hn; rewrite Hn in H4].
    rewrite forallb_forall in H2. intros w v Hw%list_elem_of_In Hv%list_elem_of_In.
    apply H2, bool_decide_eq_true in Hw. apply H2, bool_decide_eq_true in Hv. congruence.
  - intros [[H1 H2 H3 H4 H5 H6] ->]. destruct members as [|first rest]; [done|].
    assert (forallb (λ w, str_eqb (target_key (w_graph_target w)) (target_key (w_graph_target first)))
      (first :: rest) = true) as Ht.
    { apply forallb_forall. intros w Hw%list_elem_of_In. apply bool_decide_eq_true, H2; [done|by left]. }
    rewrite H1, Ht, H3, H5, H6. destruct (bfilter _ (first :: rest)); done.
Qed.

Lemma group_ready_perm m1 m2 : m1 ≡ₚ m2 → group_ready m1 → group_ready m2.
Proof.
  intros Hp [H1 H2 H3 H4 H5 H6]. pose proof (bfilter_perm (λ w, negb (agent_stopped w)) _ _ Hp) as Hb. split.
  - by rewrite <-(forallb_perm _ _ _ Hp).
  - intros w v. rewrite <-!Hp. apply H2.
  - by rewrite <-(forallb_perm _ _ _ Hp).
  - intros Hn. rewrite Hn in Hb. apply Permutation_nil_r in Hb. done.
  - by rewrite <-(forallb_perm _ _ _ Hb).
  - by rewrite <-(forallb_perm _ _ _ Hb).
Qed.

Lemma group_members_perm le1 le2 `{!RelDecision le1, !RelDecision le2} db id :
  group_members le1 db id ≡ₚ group_members le2 db id.
Proof. unfold group_members. by rewrite !merge_sort_Permutation. Qed.

(** A delivery unit: one complete watcher, or the members of one ready group. *)
Inductive is_unit db : list StoredWatcherRecord → Prop :=
  | unit_single w :
      db_watchers db !! w_watcher_id w = Some w → w_group_id w = None → w_status w = WatchCompleted →
      w_notified w = false → is_unit db [w]
  | unit_group id ready :
      _ready_group_members (group_members completed_le db id) = Some ready → is_unit db ready.

Lemma group_unit_ready db id unit :
  unit ∈ group_unit db id → _ready_group_members (group_members completed_le db id) = Some unit.
Proof.
  unfold group_unit. destruct (_ready_group_members _) as [[|first rest]|]; [set_solver| |set_solver].
  destruct (_watcher_suppressed_by_current_stop _ _); [set_solver|]. by intros ->%list_elem_of_singleton.
Qed.

Lemma units_are_units db unit : db_wf db → unit ∈ _ready_watcher_delivery_units db → is_unit db unit.
Proof.
  intros Hwf. unfold _ready_watcher_delivery_units. rewrite elem_of_app. intros [Hs|Hg].
  - apply list_elem_of_fmap in Hs as (w & -> & Hw). apply elem_of_bfilter in Hw as [_ Hw].
    apply elem_of_sorted_rows in Hw as [[[Hn Hst%has_status_true]%andb_true_iff Hnot%negb_true_iff]%andb_true_iff Hid].
    constructor; [by apply stored| |set_solver|done]. by destruct (w_group_id w).
  - apply list_elem_of_bind in Hg as (id & Hu & _). eapply unit_group. by apply group_unit_ready.
Qed.

(** Every member of a unit is stored, free, and complete or worth a diagnosis. *)
Lemma unit_members db unit w :
  db_wf db → is_unit db unit → w ∈ unit →
  db_watchers db !! w_watcher_id w = Some w ∧ w_notified w = false ∧
  (w_status w = WatchCompleted ∨ is_some (w_group_id w) = true ∧ w_status w = WatchDegraded).
Proof.
  intros Hwf [v Hv Hn Hs Hnot|id ready Hr] Hw.
  - apply list_elem_of_singleton in Hw as ->. split_and!; [done|done|by left].
  - apply ready_iff in Hr as [[H1 _ _ _ H5 H6] ->]. rewrite forallb_forall in H1, H5, H6.
    pose proof Hw as [_ Hm]%elem_of_bfilter. unfold group_members in Hm. pose proof Hm as [_ Hid]%elem_of_sorted_rows.
    split_and!; [by apply stored|by apply negb_true_iff, H5, list_elem_of_In|].
    specialize (H6 w ltac:(by apply list_elem_of_In)). apply orb_true_iff in H6 as [Hs%has_status_true|Hd].
    + left. set_solver.
    + right. split; [by apply H1, list_elem_of_In|]. unfold diagnosable in Hd.
      apply andb_true_iff in Hd as [Hs%has_status_true _]. set_solver.
Qed.

Lemma unit_claimable db unit w : db_wf db → is_unit db unit → w ∈ unit → claimable w = true.
Proof.
  intros Hwf Hu Hw. destruct (unit_members db unit w Hwf Hu Hw) as (_ & Hn & Hs).
  unfold claimable. rewrite Hn, andb_true_r. apply has_status_true. set_solver.
Qed.

(** A group's unit holds its members that no agent retired. *)
Lemma group_unit_member db id ready w :
  _ready_group_members (group_members completed_le db id) = Some ready → w ∈ ready → w_group_id w = Some id.
Proof.
  intros [_ ->]%ready_iff [_ Hm]%elem_of_bfilter. unfold group_members in Hm.
  apply elem_of_sorted_rows in Hm as [Hg _]. by apply bool_decide_eq_true in Hg.
Qed.

Lemma NoDup_bind {A B} (f : A → list B) l :
  NoDup l → (∀ x, x ∈ l → NoDup (f x)) → (∀ x y z, x ∈ l → y ∈ l → z ∈ f x → z ∈ f y → x = y) → NoDup (l ≫= f).
Proof.
  induction l as [|x l IH]; [intros; constructor|]. intros [Hx Hl]%NoDup_cons Hf Hdis. rewrite bind_cons.
  apply NoDup_app. split_and!; [apply Hf; left| |].
  - intros z Hz (y & Hzy & Hy)%list_elem_of_bind. apply Hx.
    by rewrite (Hdis x y z ltac:(left) ltac:(by right) Hz Hzy).
  - apply IH; [done|intros y Hy; apply Hf; by right|]. intros y1 y2 z H1 H2. apply Hdis; by right.
Qed.

Lemma NoDup_bfilter_ids P l : NoDup (w_watcher_id <$> l) → NoDup (w_watcher_id <$> bfilter P l).
Proof.
  unfold bfilter. induction l as [|w l IH]; cbn; [done|]. intros [Hn Hl]%NoDup_cons. destruct (P w); [|by apply IH].
  cbn. apply NoDup_cons. split; [|by apply IH]. intros (v & Hv & Hin)%list_elem_of_fmap. apply Hn, list_elem_of_fmap.
  exists v. split; [done|]. by apply list_elem_of_In, filter_In in Hin as [?%list_elem_of_In _].
Qed.

Lemma NoDup_sorted_ids le `{!RelDecision le} P db : db_wf db → NoDup (w_watcher_id <$> merge_sort le (rows P db)).
Proof. intros Hwf. rewrite merge_sort_Permutation. by apply NoDup_ids. Qed.

Lemma fmap_bind {A B C} (g : B → C) (f : A → list B) l : g <$> (l ≫= f) = l ≫= λ x, g <$> f x.
Proof. induction l as [|x l IH]; [done|]. by rewrite !bind_cons, fmap_app, IH. Qed.

Lemma bind_bind {A B C} (f : A → list B) (g : B → list C) l : (l ≫= f) ≫= g = l ≫= λ x, f x ≫= g.
Proof. induction l as [|x l IH]; [done|]. by rewrite !bind_cons, bind_app, IH. Qed.

Lemma singles_bind {A} (l : list A) : ((λ x, [x]) <$> l) ≫= id = l.
Proof. induction l as [|x l IH]; [done|]. cbn. by f_equal. Qed.

Lemma group_unit_bind db gid : group_unit db gid ≫= id = [] ∨
  ∃ ready, group_unit db gid ≫= id = ready ∧ _ready_group_members (group_members completed_le db gid) = Some ready.
Proof.
  destruct (group_unit db gid) as [|unit rest] eqn:Hu; [by left|]. right.
  assert (unit ∈ group_unit db gid) as Hin%group_unit_ready by (rewrite Hu; left).
  unfold group_unit in Hu. rewrite Hin in Hu. destruct unit as [|first others]; [done|].
  destruct (_watcher_suppressed_by_current_stop _ _); [done|]. injection Hu as <-.
  eexists. split; [cbn; by rewrite app_nil_r|done].
Qed.

(** No watcher is in two units. *)
Lemma NoDup_units db : db_wf db → NoDup (w_watcher_id <$> (_ready_watcher_delivery_units db ≫= id)).
Proof.
  intros Hwf. unfold _ready_watcher_delivery_units.
  rewrite bind_app, fmap_app, singles_bind, bind_bind, fmap_bind.
  assert (∀ gid i, i ∈ w_watcher_id <$> (group_unit db gid ≫= id) →
    ∃ w, db_watchers db !! i = Some w ∧ w_group_id w = Some gid) as Hgid.
  { intros gid i (v & -> & Hv)%list_elem_of_fmap. destruct (group_unit_bind db gid) as [Hu|(ready & Hu & Hr)]; rewrite Hu in Hv.
    - by apply elem_of_nil in Hv.
    - exists v. split; [by eapply unit_members; [|eapply unit_group|]|by eapply group_unit_member]. }
  apply NoDup_app. split_and!.
  - apply NoDup_bfilter_ids. by apply NoDup_sorted_ids.
  - intros i Hs Hg. apply list_elem_of_fmap in Hs as (w & -> & Hw).
    apply elem_of_bfilter in Hw as [_ [Hw Hid]%elem_of_sorted_rows].
    apply list_elem_of_bind in Hg as (gid & Hi & _). destruct (Hgid gid _ Hi) as (v & Hv & Hgv).
    rewrite (stored db w Hwf Hid) in Hv. injection Hv as ->. by rewrite Hgv in Hw.
  - apply NoDup_bind; [apply stable_dedup_NoDup| |].
    + intros gid _. destruct (group_unit_bind db gid) as [Hu|(ready & Hu & Hr)]; rewrite Hu; [constructor|].
      apply ready_iff in Hr as [_ ->]. apply NoDup_bfilter_ids. by apply NoDup_sorted_ids.
    + intros g1 g2 i _ _ H1 H2.
      destruct (Hgid _ _ H1) as (w1 & Hw1 & Hg1), (Hgid _ _ H2) as (w2 & Hw2 & Hg2). congruence.
Qed.

(** ** Groups of units *)

(** What a group of units is made of. *)
Record joined_units db (key : UnitKey) (group : list StoredWatcherRecord) : Prop := {
  ug_some : group ≠ [];
  ug_members : ∀ w, w ∈ group → ∃ unit first, is_unit db unit ∧ head unit = Some first ∧ unit_key first = key ∧
                 w ∈ unit ∧ ∀ v, v ∈ unit → v ∈ group }.

Lemma extend_group_concat key unit groups :
  (extend_group key unit groups).*2 ≫= id ≡ₚ (groups.*2 ≫= id) ++ unit.
Proof.
  induction groups as [|[k members] groups IH]; cbn; [by rewrite app_nil_r|].
  destruct (decide (k = key)) as [->|]; cbn.
  - rewrite <-!app_assoc. f_equiv. apply Permutation_app_comm.
  - by rewrite IH, app_assoc.
Qed.

Lemma extend_group_spec db key unit first groups :
  is_unit db unit → head unit = Some first → unit_key first = key →
  (∀ k g, (k, g) ∈ groups → joined_units db k g) → ∀ k g, (k, g) ∈ extend_group key unit groups → joined_units db k g.
Proof.
  intros Hu Hhead Hkey.
  assert (unit ≠ []) as Hne by by intros ->.
  induction groups as [|[k0 members] groups IH]; intros Hall k g Hin; cbn in Hin.
  - apply list_elem_of_singleton in Hin as [= -> ->]. split; [done|]. intros w Hw. by exists unit, first.
  - destruct (decide (k0 = key)) as [->|].
    + apply elem_of_cons in Hin as [[= -> ->]|Hin]; [|apply Hall; by right].
      destruct (Hall key members ltac:(left)) as [Hsome Hmem]. split; [by destruct members|].
      intros w [Hw|Hw]%elem_of_app.
      * destruct (Hmem w Hw) as (u & f & ? & ? & ? & ? & Hsub). exists u, f. split_and!; try done.
        intros v Hv. apply elem_of_app. left. by apply Hsub.
      * exists unit, first. split_and!; try done. intros v Hv. apply elem_of_app. by right.
    + apply elem_of_cons in Hin as [[= -> ->]|Hin]; [apply Hall; left|]. apply IH; [|done].
      intros k' g' Hin'. apply Hall. by right.
Qed.

Definition add_unit (groups : list (UnitKey * list StoredWatcherRecord)) (unit : list StoredWatcherRecord) :=
  match unit with [] => groups | first :: _ => extend_group (unit_key first) unit groups end.

Lemma fold_units db units groups :
  (∀ u, u ∈ units → is_unit db u) → (∀ k g, (k, g) ∈ groups → joined_units db k g) →
  (∀ k g, (k, g) ∈ fold_left add_unit units groups → joined_units db k g) ∧
  (fold_left add_unit units groups).*2 ≫= id ≡ₚ (groups.*2 ≫= id) ++ (units ≫= id).
Proof.
  revert groups. induction units as [|u units IH]; intros groups Hu Hg; [by cbn; rewrite app_nil_r|].
  cbn [fold_left]. destruct (IH (add_unit groups u)) as [IH1 IH2].
  - intros v Hv. apply Hu. by right.
  - destruct u as [|first rest]; [done|]. eapply extend_group_spec; [apply Hu; left|done|done|done].
  - split; [exact IH1|]. rewrite IH2, bind_cons. destruct u as [|first rest]; [done|].
    cbn [add_unit]. by rewrite extend_group_concat, <-app_assoc.
Qed.

Lemma completed_groups_spec db group :
  db_wf db → group ∈ completed_watcher_groups db →
  (∃ key, joined_units db key group) ∧ NoDup (w_watcher_id <$> group).
Proof.
  intros Hwf Hin. unfold completed_watcher_groups in Hin.
  destruct (fold_units db (_ready_watcher_delivery_units db) []) as [Hg Hp].
  { intros u. by apply units_are_units. }
  { by intros k g Hn%elem_of_nil. }
  change (group ∈ (fold_left add_unit (_ready_watcher_delivery_units db) []).*2) in Hin.
  apply list_elem_of_fmap in Hin as ([k g] & -> & Hin). split; [exists k; by apply Hg|].
  pose proof (NoDup_units db Hwf) as Hnd. cbn in Hp. rewrite <-Hp in Hnd.
  apply list_elem_of_split in Hin as (l1 & l2 & Heq). rewrite Heq in Hnd.
  rewrite fmap_app, fmap_cons, bind_app, bind_cons, !fmap_app in Hnd.
  by apply NoDup_app in Hnd as (_ & _ & [Hnd _]%NoDup_app).
Qed.

(** ** Claims *)

(** The members of a durable group come from one handoff. *)
Definition groups_bound db : Prop :=
  ∀ i j w v, db_watchers db !! i = Some w → db_watchers db !! j = Some v →
    is_some (w_group_id w) = true → w_group_id w = w_group_id v → w_binding w = w_binding v.

Lemma unit_key_binding w v : w_binding w = w_binding v → unit_key w = unit_key v.
Proof. unfold unit_key. by intros ->. Qed.

Lemma unit_key_wakes w v : unit_key w = unit_key v →
  wake_binding w = wake_binding v ∧ w_project_id w = w_project_id v ∧
  target_key (w_graph_target w) = target_key (w_graph_target v).
Proof.
  unfold unit_key, wake_binding, w_project_id, w_graph_target, _automatic_watcher_delivery_policy.
  generalize (_watcher_delivery_policy (wb_continuation (w_binding w))), (_watcher_delivery_policy (wb_continuation (w_binding v))).
  intros p q. destruct (is_loop (wb_continuation (w_binding w))), (is_loop (wb_continuation (w_binding v))); [|done..|];
    intros [=]; split_and!; congruence.
Qed.

Lemma group_keys db key group w :
  db_wf db → groups_bound db → joined_units db key group → w ∈ group → unit_key w = key.
Proof.
  intros Hwf Hb Hj Hw. destruct (ug_members _ _ _ Hj w Hw) as (unit & first & Hu & Hhead & <- & Hin & _).
  destruct unit as [|f rest]; [done|]. injection Hhead as ->. apply unit_key_binding.
  inversion Hu as [v Hv Hn Hs Hnot Heq|gid ready Hr Heq]; subst.
  - by apply list_elem_of_singleton in Hin as ->.
  - pose proof (group_unit_member _ _ _ _ Hr Hin) as Hg1.
    pose proof (group_unit_member _ _ _ first Hr ltac:(left)) as Hg2.
    eapply Hb; [by eapply unit_members|by eapply unit_members; [| |left]|by rewrite Hg1|congruence].
Qed.

(** The rows a claim selects are the group it names. *)
Lemma named_rows db group w :
  db_wf db → (∀ v, v ∈ group → db_watchers db !! w_watcher_id v = Some v) →
  w ∈ rows (named (w_watcher_id <$> group)) db ↔ w ∈ group.
Proof.
  intros Hwf Hst. rewrite elem_of_rows. unfold named. rewrite mem_true. split.
  - intros [(v & Hid & Hv)%list_elem_of_fmap Hw]. apply (stored db w Hwf) in Hw.
    pose proof (Hst v Hv) as Hv'. rewrite <-Hid, Hw in Hv'. by injection Hv' as <-.
  - intros Hw. split; [apply list_elem_of_fmap; by exists w|]. exists (w_watcher_id w). by apply Hst.
Qed.

Lemma check_passes {A} c e (k : unit → tx A) : c = true → check_that c e ≫= k = k tt.
Proof. by intros ->. Qed.

(** Every group of ready units passes the checks on its members. *)
Lemma group_members_valid db key group watchers :
  db_wf db → joined_units db key group → (∀ w, w ∈ watchers ↔ w ∈ group) →
  _validate_watcher_notification_members db watchers = true.
Proof.
  intros Hwf Hj Hrows. unfold _validate_watcher_notification_members. apply andb_true_iff. split; apply forallb_forall.
  - intros w Hw%list_elem_of_In%Hrows. destruct (ug_members _ _ _ Hj w Hw) as (unit & _ & Hu & _ & _ & Hin & _).
    destruct (unit_members db unit w Hwf Hu Hin) as (_ & _ & [Hs|[Hs _]]); [|by rewrite Hs].
    apply orb_true_iff. right. apply has_status_true. set_solver.
  - intros gid (w & Hw%Hrows & Hg)%list_elem_of_In%list_elem_of_omap.
    destruct (ug_members _ _ _ Hj w Hw) as (unit & _ & Hu & _ & _ & Hin & Hsub).
    inversion Hu as [v Hv Hn Hs Hnot Heq|gid' ready Hr Heq]; subst.
    { apply list_elem_of_singleton in Hin as ->. congruence. }
    pose proof (group_unit_member _ _ _ _ Hr Hin) as Hg'. rewrite Hg in Hg'. injection Hg' as <-.
    pose proof (group_members_perm completed_le created_le db gid) as Hp. apply ready_iff in Hr as [Hready ->].
    pose proof (proj2 (ready_iff (group_members created_le db gid) _) (conj (group_ready_perm _ _ Hp Hready) eq_refl)) as ->.
    apply forallb_forall. intros v Hv%list_elem_of_In. apply mem_true, list_elem_of_fmap. exists v. split; [done|].
    apply Hrows, Hsub. by rewrite (bfilter_perm _ _ _ Hp).
Qed.

(** A ready delivery is never stuck.  When the poller hands out a group of
    ready watchers, a queued task of their project and graph that names exactly
    these watchers passes every check of the claim on them; nothing is written if
    its Experiment is stopping or its conversation is busy, and otherwise every
    watcher of the group, and no other, is taken by this one task. *)
Theorem ready_group_is_claimable db group first t :
  db_wf db → groups_bound db → group ∈ completed_watcher_groups db → head group = Some first →
  wk_status t = "queued" → request_ids (wk_request t) = Some (w_watcher_id <$> group) →
  wk_project_id t = w_project_id first → wk_target t = w_graph_target first →
  wk_operation_id t ∉ run_operation_id <$> db_runs db →
  ∃ r, create_watcher_notification_task db t (w_watcher_id <$> group) = Commit r ∧
    (r = None ↔ _experiment_wake_is_stopped db t || _has_active_chat_overlap db t = true) ∧
    ∀ db', r = Some db' → ∀ id w, db_watchers db !! id = Some w →
      db_watchers db' !! id = Some (if decide (w ∈ group) then claim_row (wk_operation_id t) w else w).
Proof.
  intros Hwf Hb Hin Hhead Hst Hreq Hproj Htgt Hop.
  destruct (completed_groups_spec db group Hwf Hin) as [[key Hj] Hnd].
  assert (∀ v, v ∈ group → db_watchers db !! w_watcher_id v = Some v ∧ claimable v = true) as Hmem.
  { intros v Hv. destruct (ug_members _ _ _ Hj v Hv) as (unit & _ & Hu & _ & _ & Hvu & _).
    split; [by eapply unit_members|by eapply unit_claimable]. }
  assert (∀ w, w ∈ rows (named (w_watcher_id <$> group)) db ↔ w ∈ group) as Hrows.
  { intros w. apply named_rows; [done|]. intros v Hv. by apply Hmem. }
  assert (∀ w v, w ∈ group → v ∈ group → unit_key w = unit_key v) as Hkeys.
  { intros w v Hw Hv. by rewrite !(group_keys db key group) by done. }
  assert (first ∈ group) as Hfirst by (destruct group; [done|]; injection Hhead as ->; left).
  assert (create_watcher_notification_task db t (w_watcher_id <$> group) =
    if _experiment_wake_is_stopped db t || _has_active_chat_overlap db t then Commit None
    else Commit (Some (claim_rows (wk_operation_id t) (w_watcher_id <$> group) (insert_run t db)))) as Hrun.
  { unfold create_watcher_notification_task. cbv zeta. rewrite !check_passes; [done|..].
    - by apply negb_true_iff, bool_decide_eq_false.
    - apply forallb_forall. intros w Hw%list_elem_of_In%Hrows. rewrite Htgt.
      apply bool_decide_eq_true. by apply unit_key_wakes, Hkeys.
    - apply forallb_forall. intros w Hw%list_elem_of_In%Hrows. apply forallb_forall.
      intros v Hv%list_elem_of_In%Hrows. apply bool_decide_eq_true. by apply unit_key_wakes, Hkeys.
    - apply forallb_forall. intros w Hw%list_elem_of_In%Hrows. rewrite Hproj.
      apply bool_decide_eq_true. by apply unit_key_wakes, Hkeys.
    - by eapply group_members_valid.
    - apply forallb_forall. intros i (v & -> & Hv)%list_elem_of_In%list_elem_of_fmap.
      destruct (Hmem v Hv) as [Hs Hc]. by rewrite Hs.
    - by rewrite Hreq, bool_decide_eq_true_2.
    - by rewrite Hst.
    - apply andb_true_iff. split; [by destruct group|by apply bool_decide_eq_true]. }
  rewrite Hrun. destruct (_ || _).
  - exists None. split; [done|]. split; [by split|]. intros db' [=].
  - eexists. split; [done|]. split; [by split|]. intros db' [= <-] id w Hw.
    unfold claim_rows, update_rows, set_watchers. cbn. rewrite lookup_fmap, Hw. cbn. f_equal.
    assert (named (w_watcher_id <$> group) w = true ↔ w ∈ group) as Hnamed.
    { rewrite <-Hrows, elem_of_rows. split; [intros; split; [done|by exists id]|by intros [? _]]. }
    destruct (decide (w ∈ group)) as [Hwg|Hwg].
    + rewrite (proj2 Hnamed Hwg). by rewrite (proj2 (Hmem w Hwg)).
    + destruct (named _ w); [by destruct (Hwg (proj1 Hnamed eq_refl))|done].
Qed.

(** A watcher wakes one task.  Once a task has claimed a watcher, whatever the
    store does next, the watcher stays claimed by that task, is in no delivery
    unit, and no other task can claim it. *)
Theorem claimed_by_one_wake `{!WatcherDigest, !HumanAdapter} db db' id w op :
  db_wf db → rtc store_op db db' → db_watchers db !! id = Some w → w_claim w = Some op →
  ∃ w', db_watchers db' !! id = Some w' ∧ w_claim w' = Some op ∧
    (∀ unit, unit ∈ _ready_watcher_delivery_units db' → w' ∉ unit) ∧
    ∀ t ids db2, id ∈ ids → create_watcher_notification_task db' t ids ≠ Commit (Some db2).
Proof.
  intros Hwf Hops Hw Hc. destruct (store_ops_steps db db' Hops Hwf) as [Hwf' Hrows].
  destruct (Hrows id w Hw) as (w' & Hw' & _ & Hp). exists w'.
  assert (w_claim w' = Some op) as Hc'.
  { rewrite <-(phase_claim_eq w'), (claim_kept _ _ Hp), phase_claim_eq; [done|]. by rewrite phase_claim_eq, Hc. }
  assert (w_notified w' = true) as Hn.
  { rewrite (ww_notified _ _ (Hwf' id w' Hw')), Hc'. apply orb_true_r. }
  split; [done|]. split; [done|]. split.
  - intros unit Hu Hin. destruct (unit_members db' unit w' Hwf' (units_are_units _ _ Hwf' Hu) Hin) as (_ & Hf & _). congruence.
  - intros t ids db2 Hin Hr. apply wake_claims in Hr as [Hall _]. unfold all_claimable in Hall.
    rewrite forallb_forall in Hall. specialize (Hall id ltac:(by apply list_elem_of_In)). rewrite Hw' in Hall.
    unfold claimable in Hall. by rewrite Hn, andb_false_r in Hall.
Qed.
End delivery.
