(* ===== verification/Reconcile.v ===== *)
(** Reconciliation of graph watchers with the accepted history of a graph
    ([runs/transition_event_reconciliation.py], [watchers.py]): boundaries, their
    consumption in order, the boundaries a wake builds from a replay, and the
    registry of retries. *)

From S2P Require Export WatcherDelivery.

(** ** Boundaries *)

Record AcceptedGraphBoundary := {
  agb_target : GraphTargetRef; agb_revision : Z; agb_transition_id : option string; agb_state : GraphState;
  agb_lifecycle_events : list TransitionEvent }.

(** [AcceptedGraphBoundary.__post_init__]. *)
Definition boundary_ok (b : AcceptedGraphBoundary) : bool :=
  bool_decide (gs_replay_status (agb_state b) = ReplayComplete) &&
  (gs_revision (agb_state b) =? agb_revision b)%Z &&
  (is_nil (agb_lifecycle_events b) || is_some (agb_transition_id b)) &&
  no_dup (te_event_id <$> agb_lifecycle_events b).
Definition new_boundary (b : AcceptedGraphBoundary) : res AcceptedGraphBoundary := _ ← require (boundary_ok b); Ok b.

(** [AcceptedGraphBoundary.from_replay]. *)
Definition from_replay (pre_state : GraphState) (p : Patch) (post_state : GraphState) : res AcceptedGraphBoundary :=
  _ ← require (bool_decide (p_admission p = AdmissionAccepted));
  _ ← require (bool_decide (gs_replay_status pre_state = ReplayComplete) &&
               bool_decide (gs_replay_status post_state = ReplayComplete));
  _ ← require (p_revision p =? gs_revision pre_state + 1)%Z;
  _ ← require (gs_revision post_state =? p_revision p)%Z;
  match p_transition p with
  | None => new_boundary {| agb_target := main_target; agb_revision := gs_revision post_state;
                            agb_transition_id := None; agb_state := post_state; agb_lifecycle_events := [] |}
  | Some tr =>
      _ ← require (head_revision (tt_pre_head tr) =? gs_revision pre_state)%Z;
      new_boundary {| agb_target := head_target (tt_pre_head tr); agb_revision := gs_revision post_state;
                      agb_transition_id := Some (tt_transition_id tr); agb_state := post_state;
                      agb_lifecycle_events := tt_lifecycle_events tr |}
  end.

Definition boundary_head (b : AcceptedGraphBoundary) : GraphHeadRef :=
  {| head_target := agb_target b; head_revision := agb_revision b; head_transition_id := agb_transition_id b |}.
Definition boundary_evaluate (b : AcceptedGraphBoundary) (g : GraphCheck) : res GraphResult :=
  graph_watcher_boundary_result g (agb_state b) (agb_lifecycle_events b).

(** ** Reconciliation *)

(** The order check of [reconcile_accepted_graph_boundaries]: revisions rise for
    every target. *)
Fixpoint canonical_order (last : gmap string Z) (bs : list AcceptedGraphBoundary) : bool :=
  match bs with
  | [] => true
  | b :: bs =>
      let key := target_key (agb_target b) in
      match last !! key with Some previous => (previous <? agb_revision b)%Z | None => true end &&
      canonical_order (<[key := agb_revision b]> last) bs
  end.
Definition boundary_event_ids (bs : list AcceptedGraphBoundary) : list string :=
  bs ≫= λ b, te_event_id <$> agb_lifecycle_events b.

(** The loop over the boundaries.  Every boundary is a transaction of its own:
    a failure keeps what the boundaries before it wrote. *)
Fixpoint consume_all (db : WatcherDb) (project_id : string) (bs : list AcceptedGraphBoundary) (now : Z) :
    WatcherDb * option StoreError :=
  match bs with
  | [] => (db, None)
  | b :: bs =>
      match consume_graph_watcher_boundary db project_id (boundary_head b) (boundary_evaluate b) now with
      | Commit (db1, _) => consume_all db1 project_id bs now
      | Abort e => (db, Some e)
      end
  end.

(** The checks of the current head, with the baselines it gives. *)
Definition admit_head (db : WatcherDb) (project_id : string) (bs : list AcceptedGraphBoundary) (head_ : GraphHeadRef)
    (now : Z) : tx WatcherDb :=
  _ ← check_that (forallb (λ b, str_eqb (target_key (agb_target b)) (target_key (head_target head_))) bs) StoreValueError;
  _ ← check_that (match last bs with Some b => (agb_revision b <=? head_revision head_)%Z | None => true end)
        StoreValueError;
  consumed ← graph_watcher_reconciliation_head db project_id (head_target head_);
  _ ← check_that (match consumed with Some h => (head_revision h <=? head_revision head_)%Z | None => true end)
        StoreRuntimeError;
  Commit (initialize_graph_watcher_target_baselines db project_id (head_target head_) (head_revision head_) now).

(** [reconcile_accepted_graph_boundaries], without the ready groups it returns. *)
Definition reconcile_accepted_graph_boundaries (db : WatcherDb) (project_id : string)
    (bs : list AcceptedGraphBoundary) (current_head : option GraphHeadRef) (now : Z) : WatcherDb * option StoreError :=
  if negb (canonical_order ∅ bs && no_dup (boundary_event_ids bs)) then (db, Some StoreValueError)
  else match current_head with
  | None => consume_all db project_id bs now
  | Some head_ =>
      match admit_head db project_id bs head_ now with
      | Abort e => (db, Some e)
      | Commit db1 => consume_all db1 project_id bs now
      end
  end.

(** [evaluate_graph_watchers]: one boundary, without its durable head. *)
Definition evaluate_graph_watcher (db : WatcherDb) (st : GraphState) (events : list TransitionEvent)
    (target : GraphTargetRef) (now : Z) (record : StoredWatcherRecord) : tx WatcherDb :=
  if negb (bool_decide (w_graph_target record = target)) then Commit db
  else match as_graph record with
  | None => Abort StoreRuntimeError
  | Some g =>
      match gk_armed_revision g with
      | None => Commit (initialize_graph_watcher_baseline db (w_watcher_id record) (gs_revision st) now)
      | Some armed =>
          if (gs_revision st <=? armed)%Z then Commit db
          else result ← of_res (graph_watcher_boundary_result g st events);
               record_graph_watcher_result db (w_watcher_id record) result now
      end
  end.
Definition evaluate_graph_watchers (db : WatcherDb) (project_id : string) (st : GraphState)
    (events : list TransitionEvent) (target : GraphTargetRef) (now : Z) : tx WatcherDb :=
  if negb (bool_decide (gs_replay_status st = ReplayComplete)) then Commit db
  else tx_fold (λ db record, evaluate_graph_watcher db st events target now record) db (active_graph_watchers db project_id).

(** ** Wakes *)

Inductive WakeFailure := ReplayDegradedFault | WakeFailed (e : StoreError).

(** The boundary [evaluate_graph_wake_boundary] builds for an accepted state, with
    the trace of its Patch. *)
Definition boundary_at (target : GraphTargetRef) (trace_at : Z → option TransitionTrace) (st : GraphState) :
    AcceptedGraphBoundary :=
  {| agb_target := target; agb_revision := gs_revision st;
     agb_transition_id := tt_transition_id <$> trace_at (gs_revision st); agb_state := st;
     agb_lifecycle_events := from_option tt_lifecycle_events [] (trace_at (gs_revision st)) |}.
Definition wake_boundary (target : GraphTargetRef) (trace_at : Z → option TransitionTrace) (st : GraphState) :
    WakeFailure + AcceptedGraphBoundary :=
  if match trace_at (gs_revision st) with
     | Some tr => negb (bool_decide (head_target (tt_pre_head tr) = target))
     | None => false
     end then inl ReplayDegradedFault
  else if boundary_ok (boundary_at target trace_at st) then inr (boundary_at target trace_at st)
       else inl (WakeFailed StoreValueError).
Fixpoint wake_boundaries (target : GraphTargetRef) (trace_at : Z → option TransitionTrace) (states : list GraphState) :
    WakeFailure + list AcceptedGraphBoundary :=
  match states with
  | [] => inr []
  | st :: states =>
      match wake_boundary target trace_at st, wake_boundaries target trace_at states with
      | inl e, _ => inl e
      | _, inl e => inl e
      | inr b, inr bs => inr (b :: bs)
      end
  end.

(** One target of [evaluate_graph_wake_boundary]: the replayed state, the accepted
    states before it, and the traces of the log. *)
Definition wake_target (db : WatcherDb) (project_id : string) (target : GraphTargetRef) (replayed : GraphState)
    (accepted : list GraphState) (trace_at : Z → option TransitionTrace) (now : Z) : WatcherDb * option WakeFailure :=
  if negb (bool_decide (gs_replay_status replayed = ReplayComplete)) then (db, Some ReplayDegradedFault)
  else match graph_watcher_reconciliation_head db project_id target with
  | Abort e => (db, Some (WakeFailed e))
  | Commit consumed =>
      if match consumed with Some h => (gs_revision replayed <? head_revision h)%Z | None => false end
      then (db, Some ReplayDegradedFault)
      else
        let pending := bfilter (λ st, match consumed with
                                      | Some h => negb (gs_revision st <? head_revision h)%Z
                                      | None => true
                                      end) accepted in
        match wake_boundaries target trace_at pending with
        | inl e => (db, Some e)
        | inr bs =>
            let result := reconcile_accepted_graph_boundaries db project_id bs
                            (Some {| head_target := target; head_revision := gs_revision replayed;
                                     head_transition_id := None |}) now in
            (result.1, WakeFailed <$> result.2)
        end
  end.

(** ** Retries ([GraphWatcherRetryRegistry]) *)

Record RetryRegistry := { rr_failures : gmap string Z; rr_passes : gmap string Z }.

Definition RETRY_MAX_PASSES : Z := Z.max 1 (60 / WATCHER_POLL_INTERVAL_SECONDS).

(** [schedule]. *)
Definition retry_schedule (project_id : string) (r : RetryRegistry) : RetryRegistry :=
  let failures := (default 0 (rr_failures r !! project_id) + 1)%Z in
  {| rr_failures := <[project_id := failures]> (rr_failures r);
     rr_passes := <[project_id := Z.min (2 ^ Z.min (failures - 1) 6) RETRY_MAX_PASSES]> (rr_passes r) |}.
(** [clear]. *)
Definition retry_clear (project_id : string) (r : RetryRegistry) : RetryRegistry :=
  {| rr_failures := delete project_id (rr_failures r); rr_passes := delete project_id (rr_passes r) |}.
(** [due]: due work stays due until it is cleared or scheduled again. *)
Definition retry_due (r : RetryRegistry) : RetryRegistry * list string :=
  ({| rr_failures := rr_failures r;
      rr_passes := (λ passes, if (passes <=? 1)%Z then 0%Z else (passes - 1)%Z) <$> rr_passes r |},
   sorted_set (list_to_set (omap (λ kv : string * Z, if (kv.2 <=? 1)%Z then Some kv.1 else None)
                              (map_to_list (rr_passes r))))).
