(* ===== verification/ReconcileLaws.v ===== *)
(** What reconciliation promises: a watcher ends up as the first boundary that
    decides its condition says, a pass can be repeated after a crash, and the
    accepted history of a graph is never refused.  At the end, when
    watchers are looked at again: the due time of an external check
    ([watcher_next_check_at]) and the passes a failed project waits
    ([GraphWatcherRetryRegistry]). *)

From S2P Require Export Reconcile.

Section reconcile.
Implicit Types (db : WatcherDb) (w v : StoredWatcherRecord) (b : AcceptedGraphBoundary) (bs : list AcceptedGraphBoundary).

(** ** One boundary *)

Lemma boundary_verdict_total g st events armed :
  gk_armed_revision g = Some armed → ∃ r, graph_watcher_boundary_result g st events = Ok r.
Proof.
  intros Ha. unfold graph_watcher_boundary_result. rewrite Ha. cbv zeta.
  repeat case_decide; [by eexists..|]. destruct (is_ok _); by eexists.
Qed.

(** What the loop of a boundary does to the rows it selected. *)
Lemma consume_rows_spec head evaluate now L db db' :
  NoDup (w_watcher_id <$> L) → (∀ v, v ∈ L → db_watchers db !! w_watcher_id v = Some v) →
  tx_fold (consume_row head evaluate now) db L = Commit db' →
  db_heads db' = db_heads db ∧
  (∀ id, id ∉ w_watcher_id <$> L → db_watchers db' !! id = db_watchers db !! id) ∧
  ∀ v, v ∈ L → ∃ g, as_graph v = Some g ∧
    if boundary_applies head v
    then ∃ r, evaluate g = Ok r ∧ db_watchers db' !! w_watcher_id v = Some (record_result_row r now v)
    else db_watchers db' !! w_watcher_id v = Some v.
Proof.
  revert db. induction L as [|x L IH]; intros db Hnd Hst Hr; cbn in Hr.
  { injection Hr as <-. split; [done|]. split; [done|]. by intros v Hv%elem_of_nil. }
  rewrite fmap_cons in Hnd. apply NoDup_cons in Hnd as [Hx Hnd].
  apply tx_bind_ok in Hr as (db1 & H1 & Hr).
  assert (db_heads db1 = db_heads db ∧ (∀ id, id ≠ w_watcher_id x → db_watchers db1 !! id = db_watchers db !! id) ∧
    ∃ g, as_graph x = Some g ∧
      if boundary_applies head x
      then ∃ r, evaluate g = Ok r ∧ db_watchers db1 !! w_watcher_id x = Some (record_result_row r now x)
      else db_watchers db1 !! w_watcher_id x = Some x) as (Hh1 & Ho1 & g & Hg & Hx1).
  { unfold consume_row in H1. destruct (as_graph x) as [g|]; [|done]. destruct (boundary_applies head x); cbn [negb] in H1.
    - apply tx_bind_ok in H1 as (r & He%of_res_ok & [= <-]). split; [done|]. split.
      + intros id Hid. cbn. by rewrite lookup_alter_ne.
      + exists g. split; [done|]. exists r. split; [done|]. cbn. by rewrite lookup_alter_eq, Hst by left.
    - injection H1 as <-. split; [done|]. split; [done|]. exists g. split; [done|]. apply Hst. left. }
  destruct (IH db1 Hnd) as (Hh & Ho & Hrows); [|done|].
  { intros v Hv. rewrite Ho1; [apply Hst; by right|]. intros Heq. apply Hx. rewrite <-Heq. by apply list_elem_of_fmap_2. }
  split; [congruence|]. split.
  - intros id Hid. rewrite fmap_cons, not_elem_of_cons in Hid. rewrite Ho by tauto. apply Ho1. tauto.
  - intros v [->|Hv]%elem_of_cons; [|by apply Hrows]. exists g. split; [done|]. by rewrite Ho.
Qed.

(** The rows a boundary decides. *)
Definition reached (project_id : string) (head : GraphHeadRef) w : bool :=
  str_eqb (w_project_id w) project_id && active_graph w && boundary_applies head w.

(** A boundary that is newer than the consumed head decides every row it reaches,
    leaves the others alone, and becomes the consumed head. *)
Lemma consume_fresh_spec db db' project_id b now :
  db_wf db → consume_graph_watcher_boundary db project_id (boundary_head b) (boundary_evaluate b) now = Commit (db', true) →
  db_heads db' = <[(project_id, target_key (agb_target b)) := boundary_head b]> (db_heads db) ∧
  ∀ id w, db_watchers db !! id = Some w →
    if reached project_id (boundary_head b) w
    then ∃ g r, as_graph w = Some g ∧ boundary_evaluate b g = Ok r ∧
           db_watchers db' !! id = Some (record_result_row r now w)
    else db_watchers db' !! id = Some w.
Proof.
  intros Hwf Hr.
  assert (∃ db1, tx_fold (consume_row (boundary_head b) (boundary_evaluate b) now) db (active_graph_watchers db project_id) =
    Commit db1 ∧ db' = set_head (project_id, target_key (agb_target b)) (boundary_head b) db1) as (db1 & Hf & ->).
  { unfold consume_graph_watcher_boundary in Hr. cbv zeta in Hr. cbn [head_target boundary_head] in Hr.
    destruct (db_heads db !! _) as [stored|]; [tx_inv Hr; destruct (_ <? _)%Z; [done|]; destruct (_ =? _)%Z; [by tx_inv Hr|]|];
      by apply tx_bind_ok in Hr as (db1 & Hf & [= <-]); exists db1. }
  assert (∀ v, v ∈ active_graph_watchers db project_id ↔
    str_eqb (w_project_id v) project_id && active_graph v = true ∧ ∃ id, db_watchers db !! id = Some v) as Hin.
  { intros v. apply elem_of_sorted_rows. }
  destruct (consume_rows_spec _ _ _ _ _ _ (NoDup_sorted_ids created_le _ db Hwf) (λ v Hv, stored db v Hwf (proj2 (proj1 (Hin v) Hv))) Hf)
    as (Hh & Ho & Hrows).
  cbn [set_head db_heads db_watchers]. split; [by rewrite Hh|]. intros id w Hw.
  pose proof (ww_id _ _ (Hwf id w Hw)) as Hid. unfold reached.
  destruct (str_eqb (w_project_id w) project_id && active_graph w) eqn:Hsel; cbn [andb].
  - destruct (Hrows w) as (g & Hg & Hx); [apply Hin; split; [done|by exists id]|]. rewrite Hid in Hx.
    destruct (boundary_applies _ w); [|done]. destruct Hx as (r & He & Hx). by exists g, r.
  - rewrite Ho; [done|]. intros (v & -> & [Hv [i Hi]]%Hin)%list_elem_of_fmap.
    pose proof (ww_id _ _ (Hwf i v Hi)) as <-. congruence.
Qed.

(** ** Repetition *)

(** The consumed head of a target is at or past a boundary. *)
Definition covers db (project_id : string) b : Prop :=
  ∃ stored, db_heads db !! (project_id, target_key (agb_target b)) = Some stored ∧
    head_target stored = agb_target b ∧ (agb_revision b ≤ head_revision stored)%Z ∧
    (head_revision stored = agb_revision b → head_transition_id stored = agb_transition_id b).

(** A boundary that is not new writes nothing; it was covered. *)
Lemma consume_stale db db' project_id b now :
  consume_graph_watcher_boundary db project_id (boundary_head b) (boundary_evaluate b) now = Commit (db', false) →
  db' = db ∧ covers db project_id b.
Proof.
  unfold consume_graph_watcher_boundary, covers. cbv zeta. cbn [head_target boundary_head head_revision head_transition_id].
  destruct (db_heads db !! _) as [stored|]; intros Hr; [|by apply tx_bind_ok in Hr as (? & _ & ?)].
  tx_inv Hr. apply bool_decide_eq_true in Hcheck. destruct (_ <? _)%Z eqn:Hlt.
  { injection Hr as <-. split; [done|]. exists stored. split_and!; [done|done|lia|lia]. }
  destruct (_ =? _)%Z eqn:Heq; [|by apply tx_bind_ok in Hr as (? & _ & ?)].
  tx_inv Hr. apply bool_decide_eq_true in Hcheck0. injection Hr as <-. split; [done|]. exists stored. split_and!; [done|done|lia|done].
Qed.

(** A new boundary is past the consumed head of its target. *)
Lemma consume_new db db' project_id b now stored :
  consume_graph_watcher_boundary db project_id (boundary_head b) (boundary_evaluate b) now = Commit (db', true) →
  db_heads db !! (project_id, target_key (agb_target b)) = Some stored →
  head_target stored = agb_target b ∧ (head_revision stored < agb_revision b)%Z.
Proof.
  unfold consume_graph_watcher_boundary. cbv zeta. cbn [head_target boundary_head head_revision]. intros Hr Hs.
  rewrite Hs in Hr. tx_inv Hr. apply bool_decide_eq_true in Hcheck. destruct (_ <? _)%Z eqn:Hlt; [done|].
  destruct (_ =? _)%Z eqn:Heq; [by tx_inv Hr|]. split; [done|lia].
Qed.

Lemma consume_covered db project_id b now :
  covers db project_id b →
  consume_graph_watcher_boundary db project_id (boundary_head b) (boundary_evaluate b) now = Commit (db, false).
Proof.
  intros (stored & Hs & Ht & Hle & Hid). unfold consume_graph_watcher_boundary. cbv zeta. cbn [head_target boundary_head].
  rewrite Hs. cbn [head_revision head_transition_id]. rewrite Ht, (bool_decide_eq_true_2 (agb_target b = agb_target b)) by done.
  cbn [check_that mbind tx_bind boundary_head head_revision head_transition_id].
  destruct (agb_revision b <? head_revision stored)%Z eqn:Hlt; [done|].
  assert (head_revision stored = agb_revision b) as Heq by lia. rewrite Heq, Z.eqb_refl, (Hid Heq).
  by rewrite bool_decide_eq_true_2.
Qed.

(** Consuming a boundary covers it, and keeps what is covered. *)
Lemma consume_covers db db' project_id b now fresh :
  db_wf db → consume_graph_watcher_boundary db project_id (boundary_head b) (boundary_evaluate b) now = Commit (db', fresh) →
  covers db' project_id b.
Proof.
  intros Hwf Hr. destruct fresh; [|by apply consume_stale in Hr as [-> ?]].
  destruct (consume_fresh_spec _ _ _ _ _ Hwf Hr) as [Hh _]. exists (boundary_head b). by rewrite Hh, lookup_insert_eq.
Qed.

Lemma covers_kept db db' project_id b c now fresh :
  db_wf db → covers db project_id b →
  consume_graph_watcher_boundary db project_id (boundary_head c) (boundary_evaluate c) now = Commit (db', fresh) →
  covers db' project_id b.
Proof.
  intros Hwf Hc Hr. destruct fresh; [|by apply consume_stale in Hr as [-> ?]].
  destruct Hc as (stored & Hs & Ht & Hle & Hid). destruct (consume_fresh_spec _ _ _ _ _ Hwf Hr) as [Hh _].
  destruct (decide (target_key (agb_target b) = target_key (agb_target c))) as [Hk|Hk].
  - rewrite Hk in Hs. destruct (consume_new _ _ _ _ _ _ Hr Hs) as [Ht' Hlt]. exists (boundary_head c).
    rewrite Hh, Hk, lookup_insert_eq. cbn. split_and!; [done|congruence|lia|lia].
  - exists stored. by rewrite Hh, lookup_insert_ne by congruence.
Qed.

Lemma consume_wf db db' project_id b now fresh :
  db_wf db → consume_graph_watcher_boundary db project_id (boundary_head b) (boundary_evaluate b) now = Commit (db', fresh) →
  db_wf db'.
Proof. intros Hwf Hr. by apply (consume_steps _ _ _ _ _ _ _ Hr). Qed.

Lemma consume_all_steps db db' project_id bs now : consume_all db project_id bs now = (db', None) → db_steps db db'.
Proof.
  revert db. induction bs as [|b bs IH]; intros db Hr; cbn in Hr; [by injection Hr as <-|].
  destruct (consume_graph_watcher_boundary _ _ _ _ _) as [[db1 fresh]|e] eqn:Hb; [|done].
  etrans; [by eapply consume_steps|by apply IH].
Qed.

Lemma consume_all_app db project_id bs1 bs2 now :
  consume_all db project_id (bs1 ++ bs2) now =
    match consume_all db project_id bs1 now with
    | (db1, None) => consume_all db1 project_id bs2 now
    | failed => failed
    end.
Proof.
  revert db. induction bs1 as [|b bs1 IH]; intros db; cbn.
  - destruct bs2; done.
  - destruct (consume_graph_watcher_boundary _ _ _ _ _) as [[db1 ?]|e]; [apply IH|done].
Qed.

Lemma consume_all_covers db db' project_id bs now :
  db_wf db → consume_all db project_id bs now = (db', None) →
  db_wf db' ∧ (∀ b, b ∈ bs → covers db' project_id b) ∧ ∀ b, covers db project_id b → covers db' project_id b.
Proof.
  revert db. induction bs as [|c bs IH]; intros db Hwf Hr; cbn in Hr.
  { injection Hr as <-. split_and!; [done|by intros b Hb%elem_of_nil|done]. }
  destruct (consume_graph_watcher_boundary _ _ _ _ _) as [[db1 fresh]|e] eqn:H1; [|done].
  pose proof (consume_wf _ _ _ _ _ _ Hwf H1) as Hwf1. destruct (IH db1 Hwf1 Hr) as (Hwf' & Hall & Hkeep).
  split; [done|]. split.
  - intros b [->|Hb]%elem_of_cons; [|by apply Hall]. apply Hkeep. exact (consume_covers _ _ _ _ _ _ Hwf H1).
  - intros b Hb. apply Hkeep. exact (covers_kept _ _ _ _ _ _ _ Hwf Hb H1).
Qed.

Lemma consume_all_covered db project_id bs now :
  (∀ b, b ∈ bs → covers db project_id b) → consume_all db project_id bs now = (db, None).
Proof.
  induction bs as [|b bs IH]; intros Hall; [done|]. cbn. rewrite consume_covered by (apply Hall; left).
  apply IH. intros c Hc. apply Hall. by right.
Qed.

(** C19: a pass can be repeated after a crash.  When the process stops after any
    prefix of the boundaries was consumed, running the whole pass again gives the
    tables, and the outcome, of the pass that was not interrupted. *)
Theorem reconciliation_restarts db db1 project_id bs1 bs2 now :
  db_wf db → consume_all db project_id bs1 now = (db1, None) →
  consume_all db1 project_id (bs1 ++ bs2) now = consume_all db project_id (bs1 ++ bs2) now.
Proof.
  intros Hwf H1. destruct (consume_all_covers _ _ _ _ _ Hwf H1) as (_ & Hall & _).
  by rewrite !consume_all_app, H1, consume_all_covered.
Qed.

(** ** The fate of a watcher *)

(** What the boundaries after the consumed head decide, in order. *)
Fixpoint fate (g : GraphCheck) bs : GraphResult :=
  match bs with
  | [] => ResultActive
  | b :: bs =>
      match gk_armed_revision g with
      | Some armed =>
          if (armed <? agb_revision b)%Z
          then match boundary_evaluate b g with
               | Ok ResultActive => fate g bs
               | Ok r => r
               | Raise _ => ResultActive
               end
          else fate g bs
      | None => ResultActive
      end
  end.

(** The boundaries of a target that were not consumed yet. *)
Definition pending db (project_id : string) (target : GraphTargetRef) bs : list AcceptedGraphBoundary :=
  bfilter (λ b, match db_heads db !! (project_id, target_key target) with
                | Some stored => (head_revision stored <? agb_revision b)%Z
                | None => true
                end) bs.

(** Revisions rise along the boundaries of one target. *)
Fixpoint rising (from : option Z) bs : bool :=
  match bs with
  | [] => true
  | b :: bs => match from with Some r => (r <? agb_revision b)%Z | None => true end && rising (Some (agb_revision b)) bs
  end.

Lemma rising_all from bs b : rising (Some from) bs = true → b ∈ bs → (from < agb_revision b)%Z.
Proof.
  revert from. induction bs as [|c bs IH]; intros from Hr Hb; [by apply elem_of_nil in Hb|].
  cbn in Hr. apply andb_true_iff in Hr as [Hlt%Z.ltb_lt Hr].
  apply elem_of_cons in Hb as [->|Hb]; [done|]. pose proof (IH _ Hr Hb). lia.
Qed.

Lemma bfilter_all {A} (f : A → bool) l : (∀ x, x ∈ l → f x = true) → bfilter f l = l.
Proof.
  unfold bfilter. induction l as [|x l IH]; intros Hall; [done|]. cbn. rewrite (Hall x) by left.
  f_equal. apply IH. intros y Hy. apply Hall. by right.
Qed.

(** A row no condition decides any more is left alone. *)
Lemma settled_kept db db' project_id bs now id w :
  db_wf db → db_watchers db !! id = Some w → active_graph w = false →
  consume_all db project_id bs now = (db', None) → db_watchers db' !! id = Some w.
Proof.
  revert db. induction bs as [|b bs IH]; intros db Hwf Hw Ha Hr; cbn in Hr; [by injection Hr as <-|].
  destruct (consume_graph_watcher_boundary _ _ _ _ _) as [[db1 fresh]|e] eqn:H1; [|done].
  apply (IH db1); [by eapply consume_wf| |done|done]. destruct fresh; [|by apply consume_stale in H1 as [-> _]].
  destruct (consume_fresh_spec _ _ _ _ _ Hwf H1) as [_ Hrows]. specialize (Hrows id w Hw).
  unfold reached in Hrows. by rewrite Ha, andb_false_r in Hrows.
Qed.

(** How a row shows what was decided about it. *)
Definition decided (r : GraphResult) w : Prop :=
  match r with
  | ResultActive => active_graph w = true
  | ResultCompleted => w_status w = WatchCompleted ∧ w_notified w = false
  | ResultRemoved => w_status w = WatchStopped
  end.

(** A row that waits for a condition from an armed revision on. *)
Record waits (project_id : string) (target : GraphTargetRef) (g : GraphCheck) (armed : Z) w : Prop := {
  wt_active : active_graph w = true;
  wt_project : w_project_id w = project_id;
  wt_target : w_graph_target w = target;
  wt_check : ∃ g', as_graph w = Some g' ∧ gk_condition g' = gk_condition g ∧ gk_armed_revision g' = Some armed;
  wt_armed : gk_armed_revision g = Some armed }.

Lemma evaluate_same b g g' :
  gk_condition g' = gk_condition g → gk_armed_revision g' = gk_armed_revision g → boundary_evaluate b g' = boundary_evaluate b g.
Proof. unfold boundary_evaluate, graph_watcher_boundary_result. by intros -> ->. Qed.

Lemma record_decided r now w : active_graph w = true → decided r (record_result_row r now w).
Proof.
  intros Ha. unfold record_result_row. rewrite Ha. cbn [negb].
  unfold active_graph in Ha. destruct w as [i bd c [st ? nt ? ? ? ? ?] [x|g]]; [done|].
  destruct r; cbn in *; [done| |done]. unfold w_notified in Ha. cbn in Ha.
  by apply andb_true_iff in Ha as [_ ->%negb_true_iff].
Qed.

Lemma evaluated_waits project_id target g armed now w :
  waits project_id target g armed w → waits project_id target g armed (record_result_row ResultActive now w).
Proof.
  intros [Ha Hp Ht (g' & Hg & Hc & Harm) Hga]. unfold record_result_row. rewrite Ha. cbn [negb].
  destruct w as [i bd c d [x|g0]]; [done|]. cbn in Hg. injection Hg as ->.
  split; [done|done|done| |done]. by eexists.
Qed.

Lemma fate_reached db db' project_id target g armed from bs now id w :
  db_wf db → db_watchers db !! id = Some w → waits project_id target g armed w →
  (∀ b, b ∈ bs → agb_target b = target) → rising from bs = true →
  consume_all db project_id bs now = (db', None) →
  ∃ w', db_watchers db' !! id = Some w' ∧ decided (fate g (pending db project_id target bs)) w'.
Proof.
  revert db w from. induction bs as [|b bs IH]; intros db w from Hwf Hw Hwait Htgt Hrise Hr; cbn in Hr.
  { injection Hr as <-. exists w. split; [done|apply Hwait]. }
  destruct (consume_graph_watcher_boundary _ _ _ _ _) as [[db1 fresh]|e] eqn:H1; [|done].
  cbn in Hrise. apply andb_true_iff in Hrise as [_ Hrise].
  assert (agb_target b = target) as Hb by (apply Htgt; left).
  assert (∀ c, c ∈ bs → agb_target c = target) as Htgt' by (intros c Hc; apply Htgt; by right).
  pose proof (consume_wf _ _ _ _ _ _ Hwf H1) as Hwf1. destruct fresh.
  2: { apply consume_stale in H1 as [-> (stored & Hs & _ & Hle & _)].
       assert (pending db project_id target (b :: bs) = pending db project_id target bs) as ->; [|by eapply IH].
       unfold pending, bfilter. cbn. rewrite <-Hb, Hs. by replace (head_revision stored <? agb_revision b)%Z with false by lia. }
  destruct (consume_fresh_spec _ _ _ _ _ Hwf H1) as [Hh Hrows]. specialize (Hrows id w Hw).
  assert (pending db1 project_id target bs = bs) as Hp1.
  { apply bfilter_all. intros c Hc. rewrite Hh, <-Hb, lookup_insert_eq. cbn. apply Z.ltb_lt. by eapply rising_all. }
  assert (pending db project_id target (b :: bs) = b :: bs) as ->.
  { apply bfilter_all. intros c Hc. destruct (db_heads db !! _) as [stored|] eqn:Hs; [|done].
    rewrite <-Hb in Hs. destruct (consume_new _ _ _ _ _ _ H1 Hs) as [_ Hlt]. apply Z.ltb_lt.
    apply elem_of_cons in Hc as [->|Hc]; [done|]. pose proof (rising_all _ _ _ Hrise Hc). lia. }
  cbn [fate]. rewrite (wt_armed _ _ _ _ _ Hwait).
  assert (reached project_id (boundary_head b) w = (armed <? agb_revision b)%Z) as Hreach.
  { destruct Hwait as [Ha Hp Ht (g' & Hg & _ & Harm) _]. unfold reached, boundary_applies. cbn.
    rewrite Ha, Hg. cbn. rewrite Harm. unfold str_eqb. by rewrite !bool_decide_eq_true_2 by congruence. }
  rewrite Hreach in Hrows. destruct (armed <? agb_revision b)%Z.
  - destruct Hrows as (g' & r & Hg & He & Hw1).
    assert (boundary_evaluate b g = Ok r) as ->.
    { rewrite <-He. destruct Hwait as [_ _ _ (g2 & Hg2 & Hc & Harm) Hga]. rewrite Hg in Hg2. injection Hg2 as <-.
      symmetry. apply evaluate_same; congruence. }
    destruct r.
    + rewrite <-Hp1. eapply IH; [done|exact Hw1|by apply evaluated_waits|done|done|done].
    + exists (record_result_row ResultCompleted now w).
      assert (decided ResultCompleted (record_result_row ResultCompleted now w)) as Hd by apply record_decided, Hwait.
      split; [|done]. eapply settled_kept; [exact Hwf1|exact Hw1| |exact Hr].
      unfold active_graph, has_status. destruct Hd as [-> _]. by rewrite andb_false_r.
    + exists (record_result_row ResultRemoved now w).
      assert (decided ResultRemoved (record_result_row ResultRemoved now w)) as Hd by apply record_decided, Hwait.
      split; [|done]. eapply settled_kept; [exact Hwf1|exact Hw1| |exact Hr].
      unfold active_graph, has_status. cbn in Hd. rewrite Hd. by rewrite andb_false_r.
  - rewrite <-Hp1. eapply IH; [done|exact Hrows|done|done|done|done].
Qed.

(** ** Progress *)

(** A boundary is only refused when the consumed head contradicts it. *)
Lemma consume_total db project_id b now :
  db_wf db →
  (∀ stored, db_heads db !! (project_id, target_key (agb_target b)) = Some stored →
     head_target stored = agb_target b ∧
     (head_revision stored = agb_revision b → head_transition_id stored = agb_transition_id b)) →
  ∃ db' fresh, consume_graph_watcher_boundary db project_id (boundary_head b) (boundary_evaluate b) now = Commit (db', fresh).
Proof.
  intros Hwf Hhead.
  assert (∀ L db0, (∀ v, v ∈ L → active_graph v = true) →
    ∃ db1, tx_fold (consume_row (boundary_head b) (boundary_evaluate b) now) db0 L = Commit db1) as Hfold.
  { induction L as [|v L IH]; intros db0 Hall; [by eexists|]. cbn.
    assert (∃ db1, consume_row (boundary_head b) (boundary_evaluate b) now db0 v = Commit db1) as [db1 ->].
    { pose proof (Hall v ltac:(left)) as Hv. unfold active_graph in Hv. unfold consume_row, boundary_applies.
      destruct (as_graph v) as [g|]; [|done]. clear Hv. cbn. destruct (gk_armed_revision g) as [armed|] eqn:Ha.
      - destruct (boundary_verdict_total g (agb_state b) (agb_lifecycle_events b) armed Ha) as [r Hr].
        unfold boundary_evaluate. rewrite Hr. destruct (negb _); by eexists.
      - rewrite andb_false_r. by eexists. }
    apply IH. intros u Hu. apply Hall. by right. }
  destruct (Hfold (active_graph_watchers db project_id) db) as [db1 Hdb1].
  { intros v [[_ Hv]%andb_true_iff _]%elem_of_sorted_rows. done. }
  unfold consume_graph_watcher_boundary. cbv zeta. cbn [head_target boundary_head head_revision head_transition_id].
  rewrite Hdb1. destruct (db_heads db !! _) as [stored|] eqn:Hs; [|by do 2 eexists].
  destruct (Hhead stored eq_refl) as [Ht Hid]. unfold check_that. rewrite (bool_decide_eq_true_2 _ Ht). cbn [mbind tx_bind].
  destruct (_ <? _)%Z; [by do 2 eexists|]. destruct (head_revision stored =? agb_revision b)%Z eqn:Heq; [|by do 2 eexists].
  rewrite bool_decide_eq_true_2 by (apply Hid; lia). by do 2 eexists.
Qed.

(** Boundaries of one target that agree with its consumed head are all consumed. *)
Lemma consume_all_total db project_id target from bs now :
  db_wf db → (∀ b, b ∈ bs → agb_target b = target) → rising from bs = true →
  (∀ stored, db_heads db !! (project_id, target_key target) = Some stored →
     head_target stored = target ∧
     ∀ b, b ∈ bs → head_revision stored = agb_revision b → head_transition_id stored = agb_transition_id b) →
  ∃ db', consume_all db project_id bs now = (db', None).
Proof.
  revert db from. induction bs as [|b bs IH]; intros db from Hwf Htgt Hrise Hhead; [by eexists|].
  cbn in Hrise. apply andb_true_iff in Hrise as [_ Hrise].
  assert (agb_target b = target) as Hb by (apply Htgt; left).
  destruct (consume_total db project_id b now Hwf) as (db1 & fresh & H1).
  { rewrite Hb. intros stored Hs. destruct (Hhead stored Hs) as [? Hid]. split; [done|]. apply Hid. left. }
  cbn. rewrite H1. apply (IH db1 (Some (agb_revision b))); [by eapply consume_wf|intros c Hc; apply Htgt; by right|done|].
  destruct fresh.
  - destruct (consume_fresh_spec _ _ _ _ _ Hwf H1) as [Hh _]. rewrite Hh, Hb, lookup_insert_eq. intros stored [= <-].
    split; [done|]. cbn. intros c Hc Heq. pose proof (rising_all _ _ _ Hrise Hc). lia.
  - apply consume_stale in H1 as [-> _]. intros stored Hs. destruct (Hhead stored Hs) as [? Hid].
    split; [done|]. intros c Hc. apply Hid. by right.
Qed.

(** A condition that some boundary completes, before any that removes its node. *)
Lemma fate_fires g armed from bs b :
  gk_armed_revision g = Some armed → rising from bs = true → b ∈ bs → (armed < agb_revision b)%Z →
  boundary_evaluate b g = Ok ResultCompleted →
  (∀ c, c ∈ bs → (armed < agb_revision c < agb_revision b)%Z → boundary_evaluate c g ≠ Ok ResultRemoved) →
  fate g bs = ResultCompleted.
Proof.
  intros Ha Hrise Hb Hlt Hdone Hkeep. revert from Hrise. induction bs as [|c bs IH]; intros from Hrise; [by apply elem_of_nil in Hb|].
  cbn in Hrise. apply andb_true_iff in Hrise as [_ Hrise]. cbn [fate]. rewrite Ha.
  destruct (armed <? agb_revision c)%Z eqn:Hac.
  - destruct (boundary_verdict_total g (agb_state c) (agb_lifecycle_events c) armed Ha) as [r Hr].
    change (boundary_evaluate c g = Ok r) in Hr. rewrite Hr.
    apply elem_of_cons in Hb as [->|Hb]; [by rewrite Hdone in Hr; injection Hr as <-|].
    pose proof (rising_all _ _ _ Hrise Hb) as Hcb. destruct r; [|done|].
    + eapply IH; [done| |done]. intros d Hd. apply Hkeep. by right.
    + exfalso. apply (Hkeep c); [left|lia|done].
  - apply elem_of_cons in Hb as [->|Hb]; [lia|]. eapply IH; [done| |done]. intros d Hd. apply Hkeep. by right.
Qed.

(** ** Wakes *)

(** What a replay of the log promises about its accepted states. *)
Record history_ok (target : GraphTargetRef) (replayed : GraphState) (accepted : list GraphState)
    (trace_at : Z → option TransitionTrace) : Prop := {
  ho_complete : gs_replay_status replayed = ReplayComplete;
  ho_states : ∀ st, st ∈ accepted → gs_replay_status st = ReplayComplete ∧ (gs_revision st ≤ gs_revision replayed)%Z;
  ho_rising : rising None (boundary_at target trace_at <$> accepted) = true;
  ho_targets : ∀ st tr, st ∈ accepted → trace_at (gs_revision st) = Some tr → head_target (tt_pre_head tr) = target;
  ho_events : NoDup (boundary_event_ids (boundary_at target trace_at <$> accepted)) }.

(** The consumed head of the target is a point of that history. *)
Definition head_ok db (project_id : string) (target : GraphTargetRef) (replayed : GraphState)
    (accepted : list GraphState) (trace_at : Z → option TransitionTrace) : Prop :=
  ∀ stored, db_heads db !! (project_id, target_key target) = Some stored →
    head_target stored = target ∧ (head_revision stored ≤ gs_revision replayed)%Z ∧
    ∀ st, st ∈ accepted → head_revision stored = gs_revision st →
      head_transition_id stored = tt_transition_id <$> trace_at (gs_revision st).

Lemma rising_weaken from bs : rising from bs = true → rising None bs = true.
Proof. destruct bs; [done|]. cbn. by intros [_ ?]%andb_true_iff. Qed.

Lemma rising_bfilter from P bs : rising from bs = true → rising from (bfilter P bs) = true.
Proof.
  unfold bfilter. revert from. induction bs as [|b bs IH]; intros from Hr; [done|]. cbn in Hr |- *.
  apply andb_true_iff in Hr as [Hb Hr]. destruct (P b); cbn; [by rewrite Hb, IH|].
  specialize (IH _ Hr). destruct (List.filter P bs) as [|c cs]; [done|]. cbn in IH |- *.
  apply andb_true_iff in IH as [Hc ->]. destruct from; [|done]. rewrite andb_true_r. lia.
Qed.

Lemma bfilter_fmap {A B} (P : B → bool) (f : A → B) l : bfilter P (f <$> l) = f <$> bfilter (λ x, P (f x)) l.
Proof. unfold bfilter. induction l as [|x l IH]; [done|]. cbn. destruct (P (f x)); cbn; by rewrite <-IH. Qed.

Lemma bfilter_bind_sublist {A B} (P : A → bool) (f : A → list B) l : (bfilter P l ≫= f) `sublist_of` (l ≫= f).
Proof.
  unfold bfilter. induction l as [|x l IH]; [done|]. cbn [List.filter]. rewrite bind_cons.
  destruct (P x); [rewrite bind_cons; by apply sublist_app|by apply sublist_inserts_l].
Qed.

Lemma canonical_rising last target bs :
  (∀ b, b ∈ bs → agb_target b = target) → rising (last !! target_key target) bs = true → canonical_order last bs = true.
Proof.
  revert last. induction bs as [|b bs IH]; intros last Ht Hr; [done|]. cbn in Hr |- *. rewrite (Ht b) by left.
  apply andb_true_iff in Hr as [-> Hr]. apply IH; [intros c Hc; apply Ht; by right|]. by rewrite lookup_insert_eq.
Qed.

(** The boundaries a wake builds from such a history. *)
Lemma wake_boundaries_ok target replayed accepted trace_at P :
  history_ok target replayed accepted trace_at →
  wake_boundaries target trace_at (bfilter P accepted) = inr (boundary_at target trace_at <$> bfilter P accepted).
Proof.
  intros [_ Hst _ Ht He].
  assert (∀ st, st ∈ bfilter P accepted → wake_boundary target trace_at st = inr (boundary_at target trace_at st)) as Hone.
  { intros st [_ Hin]%elem_of_bfilter. unfold wake_boundary.
    assert (boundary_ok (boundary_at target trace_at st) = true) as ->.
    { unfold boundary_ok. cbn. rewrite bool_decide_eq_true_2 by by apply Hst. rewrite Z.eqb_refl. cbn.
      apply andb_true_iff. split; [by destruct (trace_at _); [rewrite orb_true_r|]|].
      apply bool_decide_eq_true. unfold boundary_event_ids in He.
      apply list_elem_of_split in Hin as (l1 & l2 & ->).
      rewrite fmap_app, fmap_cons, bind_app, bind_cons in He. by apply NoDup_app in He as (_ & _ & [? _]%NoDup_app). }
    destruct (trace_at (gs_revision st)) as [tr|] eqn:Htr; [|done].
    by rewrite bool_decide_eq_true_2 by by eapply Ht. }
  revert Hone. generalize (bfilter P accepted). intros l. induction l as [|st l IH]; intros Hone; [done|].
  cbn. rewrite Hone by left. rewrite IH; [done|]. intros x Hx. apply Hone. by right.
Qed.

(** The head of a wake is admitted, and arms no watcher that is armed already. *)
Lemma admit_head_ok db project_id target replayed accepted trace_at bs head_ now :
  db_wf db → head_ok db project_id target replayed accepted trace_at →
  head_target head_ = target → head_revision head_ = gs_revision replayed →
  (∀ b, b ∈ bs → agb_target b = target ∧ (agb_revision b ≤ gs_revision replayed)%Z) →
  ∃ db1, admit_head db project_id bs head_ now = Commit db1 ∧ db_steps db db1 ∧ db_heads db1 = db_heads db ∧
    ∀ id w g armed, db_watchers db !! id = Some w → waits project_id target g armed w → db_watchers db1 !! id = Some w.
Proof.
  intros Hwf Hhead Ht Hrev Hbs.
  exists (initialize_graph_watcher_target_baselines db project_id target (gs_revision replayed) now). split_and!.
  - unfold admit_head. rewrite Ht, Hrev, !check_passes; [|by destruct (last bs) as [b|] eqn:Hl; [apply Z.leb_le, Hbs, last_Some_elem_of|]|].
    + unfold graph_watcher_reconciliation_head. destruct (db_heads db !! _) as [stored|] eqn:Hs; [|done].
      destruct (Hhead stored Hs) as (Hst & Hle & _). rewrite check_passes by by apply bool_decide_eq_true.
      cbn [mbind tx_bind]. by rewrite check_passes by by apply Z.leb_le.
    + apply forallb_forall. intros b Hb%list_elem_of_In. apply bool_decide_eq_true. by destruct (Hbs b Hb) as [-> _].
  - apply (update_steps _ _ db). intros i v _ _. apply arm_moves.
  - done.
  - intros id w g armed Hw [_ _ _ (g' & Hg & _ & Ha) _]. unfold initialize_graph_watcher_target_baselines, update_rows, set_watchers.
    cbn. rewrite lookup_fmap, Hw. cbn. unfold unarmed. by rewrite Hg, Ha, !andb_false_r.
Qed.

(** A wake of one target runs to its end, and every waiting watcher meets the
    fate its pending boundaries have for it. *)
Lemma wake_target_ok db project_id target replayed accepted trace_at now :
  db_wf db → history_ok target replayed accepted trace_at →
  head_ok db project_id target replayed accepted trace_at →
  ∃ db' bs, wake_target db project_id target replayed accepted trace_at now = (db', None) ∧ db_steps db db' ∧
    (∀ st, st ∈ accepted → covers db' project_id (boundary_at target trace_at st)) ∧ rising None bs = true ∧
    (∀ b, b ∈ bs ↔ ∃ st, b = boundary_at target trace_at st ∧ st ∈ accepted ∧
       ∀ stored, db_heads db !! (project_id, target_key target) = Some stored → (head_revision stored < gs_revision st)%Z) ∧
    ∀ id w g armed, db_watchers db !! id = Some w → waits project_id target g armed w →
      ∃ w', db_watchers db' !! id = Some w' ∧ decided (fate g bs) w'.
Proof.
  intros Hwf Hho Hhead.
  set (P st := match db_heads db !! (project_id, target_key target) with
               | Some h => negb (gs_revision st <? head_revision h)%Z | None => true end).
  set (bs := boundary_at target trace_at <$> bfilter P accepted).
  set (head_ := {| head_target := target; head_revision := gs_revision replayed; head_transition_id := None |}).
  assert (rising None bs = true) as Hrise.
  { unfold bs. rewrite <-(bfilter_fmap (λ b, P (agb_state b))). apply rising_bfilter, Hho. }
  assert (∀ b, b ∈ bs → ∃ st, b = boundary_at target trace_at st ∧ st ∈ accepted) as Hbs.
  { intros b (st & -> & [_ Hst]%elem_of_bfilter)%list_elem_of_fmap. by exists st. }
  destruct (admit_head_ok db project_id target replayed accepted trace_at bs head_ now) as (db1 & Hadmit & Hsteps & Hh1 & Hkept);
    [done..| |].
  { intros b (st & -> & Hst)%Hbs. split; [done|]. by apply (ho_states _ _ _ _ Hho). }
  destruct (Hsteps Hwf) as [Hwf1 _].
  destruct (consume_all_total db1 project_id target None bs now) as [db' Hrun]; [done| |done| |].
  { by intros b (st & -> & _)%Hbs. }
  { rewrite Hh1. intros stored Hs. destruct (Hhead stored Hs) as (? & _ & Hid). split; [done|].
    intros b (st & -> & Hst)%Hbs. by apply Hid. }
  exists db', (pending db1 project_id target bs). split_and!.
  - unfold wake_target. rewrite bool_decide_eq_true_2 by apply Hho. cbn [negb]. unfold graph_watcher_reconciliation_head.
    assert (reconcile_accepted_graph_boundaries db project_id bs (Some head_) now = (db', None)) as Hrec.
    { unfold reconcile_accepted_graph_boundaries. rewrite (canonical_rising ∅ target bs); [| |done].
      - unfold no_dup. rewrite bool_decide_eq_true_2; [by cbn; rewrite Hadmit|].
        eapply sublist_NoDup; [apply (ho_events _ _ _ _ Hho)|]. unfold bs, boundary_event_ids.
        rewrite <-(bfilter_fmap (λ b, P (agb_state b))). apply bfilter_bind_sublist.
      - by intros b (st & -> & _)%Hbs. }
    pose proof (wake_boundaries_ok _ _ _ _ P Hho) as Hwake. fold bs in Hwake. unfold P in Hwake.
    destruct (db_heads db !! _) as [stored|] eqn:Hs.
    + destruct (Hhead stored Hs) as (Ht & Hle & _). rewrite check_passes by by apply bool_decide_eq_true.
      replace (gs_revision replayed <? head_revision stored)%Z with false by lia. rewrite Hwake. fold head_. by rewrite Hrec.
    + rewrite Hwake. fold head_. by rewrite Hrec.
  - etrans; [exact Hsteps|by eapply consume_all_steps].
  - destruct (consume_all_covers db1 db' project_id bs now Hwf1 Hrun) as (_ & Hall & Hcov). intros st Hst.
    destruct (P st) eqn:HP; [apply Hall, list_elem_of_fmap; exists st; split; [done|by apply elem_of_bfilter]|].
    apply Hcov. unfold P in HP. destruct (db_heads db !! _) as [stored|] eqn:Hs; [|done]. exists stored.
    destruct (Hhead stored Hs) as (Ht & _ & _). rewrite Hh1. apply negb_false_iff, Z.ltb_lt in HP. cbn.
    split_and!; [exact Hs|done|lia|lia].
  - by apply rising_bfilter.
  - intros b. unfold pending. rewrite elem_of_bfilter, Hh1. unfold bs. rewrite list_elem_of_fmap. split.
    + intros [Hp (st & -> & [_ Hst]%elem_of_bfilter)]. exists st. split_and!; [done..|].
      intros stored Hs. rewrite Hs in Hp. by apply Z.ltb_lt in Hp.
    + intros (st & -> & Hst & Hnew). split.
      * destruct (db_heads db !! _) as [stored|]; [|done]. by apply Z.ltb_lt, Hnew.
      * exists st. split; [done|]. apply elem_of_bfilter. split; [|done]. unfold P.
        destruct (db_heads db !! _) as [stored|]; [|done]. specialize (Hnew _ eq_refl). lia.
  - intros id w g armed Hw Hwait. eapply fate_reached; [done|by eapply Hkept|done| |done|done].
    by intros b (st & -> & _)%Hbs.
Qed.

(** C17: a condition that comes true is delivered.  When an accepted state of the
    graph, after the revision a watcher was armed at and after the consumed head,
    satisfies its condition, and no state in between removed its node, one wake
    of the target succeeds and completes the watcher; unless its loop is stopping,
    the poller then hands it out. *)
Theorem condition_fires db project_id target replayed accepted trace_at now id w g armed st :
  db_wf db → history_ok target replayed accepted trace_at → head_ok db project_id target replayed accepted trace_at →
  db_watchers db !! id = Some w → waits project_id target g armed w →
  st ∈ accepted → (armed < gs_revision st)%Z →
  (∀ stored, db_heads db !! (project_id, target_key target) = Some stored → (head_revision stored < gs_revision st)%Z) →
  boundary_evaluate (boundary_at target trace_at st) g = Ok ResultCompleted →
  (∀ st', st' ∈ accepted → (armed < gs_revision st' < gs_revision st)%Z →
     boundary_evaluate (boundary_at target trace_at st') g ≠ Ok ResultRemoved) →
  ∃ db' w', wake_target db project_id target replayed accepted trace_at now = (db', None) ∧
    db_watchers db' !! id = Some w' ∧ w_status w' = WatchCompleted ∧ w_notified w' = false ∧
    (_watcher_suppressed_by_current_stop db' w' = false → [w'] ∈ _ready_watcher_delivery_units db').
Proof.
  intros Hwf Hho Hhead Hw Hwait Hst Harmed Hnew Htrue Hkeep.
  destruct (wake_target_ok db project_id target replayed accepted trace_at now Hwf Hho Hhead) as (db' & bs & Hrun & Hsteps & _ & Hrise & Hbs & Hfate).
  destruct (Hfate id w g armed Hw Hwait) as (w' & Hw' & Hd). exists db', w'.
  rewrite (fate_fires g armed None bs (boundary_at target trace_at st)) in Hd; [|by eapply wt_armed|done| |done|done|].
  - destruct Hd as [Hs Hn]. split_and!; try done. intros Hsup.
    assert (w_group_id w' = None) as Hg.
    { destruct (proj2 (Hsteps Hwf) id w Hw) as (v & Hv & (_ & _ & _ & Hg & _) & _). rewrite Hw' in Hv. injection Hv as <-. rewrite Hg.
      destruct Hwait as [_ _ _ (g' & Hg' & _) _]. unfold w_group_id, as_graph, as_external in *. by destruct (w_check w). }
    unfold _ready_watcher_delivery_units.
    apply elem_of_app. left. apply list_elem_of_fmap. exists w'. split; [done|].
    apply elem_of_bfilter. split; [by rewrite Hsup|]. apply elem_of_sorted_rows. split; [|by exists id].
    rewrite Hg, Hn. unfold has_status. by rewrite Hs.
  - apply Hbs. by exists st.
  - intros c (st' & -> & Hst' & _)%Hbs Hbetween. by apply Hkeep.
Qed.
End reconcile.

(** ** External checks *)

Lemma watcher_delay_range n : (120 ≤ watcher_delay n ≤ 1800)%Z.
Proof.
  unfold watcher_delay. destruct (n =? 0)%Z; [unfold WATCHER_HEALTHY_INTERVAL_SECONDS; lia|].
  set (k := Z.to_nat _). assert (k ≤ 4) as Hk by (subst k; cbn; lia).
  clearbody k. do 5 (destruct k as [|k]; [cbn; lia|]). lia.
Qed.

Lemma watcher_delay_mono n m : (0 ≤ n ≤ m)%Z → (watcher_delay n ≤ watcher_delay m)%Z.
Proof.
  intros Hnm. destruct (decide (n = 0)%Z) as [->|Hn]; [apply watcher_delay_range|].
  unfold watcher_delay. destruct (n =? 0)%Z eqn:?; [lia|]. destruct (m =? 0)%Z eqn:?; [lia|].
  set (j := Z.to_nat _). set (k := Z.to_nat (Z.min (m - 1) _)).
  assert (j ≤ k ≤ 4) as Hjk by (subst j k; cbn; lia). clearbody j k.
  do 5 (destruct k as [|k]; [do 5 (destruct j as [|j]; [cbn; lia|]); lia|]). lia.
Qed.

(** Rounding a value between two whole numbers stays between them. *)
Lemma rounded_between n d lo hi :
  (0 < d → lo * d ≤ n ≤ hi * d → lo ≤ (2 * n + d) / (2 * d) ≤ hi)%Z.
Proof.
  intros Hd [Hlo Hhi]. split; [apply Z.div_le_lower_bound; nia|].
  apply Z.lt_succ_r, Z.div_lt_upper_bound; nia.
Qed.

(** The next check of an external watcher is due within a tenth of its delay,
    which is between two minutes and half an hour and never shrinks with more
    errors; a negative count is refused. *)
Theorem next_check_bounds `{WatcherDigest} id checked_at n :
  if decide (0 ≤ n)%Z
  then ∃ due, watcher_next_check_at id checked_at n = Ok due ∧
         (checked_at + 900000 * watcher_delay n ≤ due ≤ checked_at + 1100000 * watcher_delay n)%Z ∧
         (120 ≤ watcher_delay n ≤ 1800)%Z ∧ (watcher_delay n ≤ watcher_delay (n + 1))%Z
  else watcher_next_check_at id checked_at n = Raise ValueError.
Proof.
  unfold watcher_next_check_at. destruct (decide (0 ≤ n)%Z) as [Hn|Hn].
  - rewrite (proj2 (Z.leb_le 0 n) Hn). cbn [mbind require]. eexists. split; [done|].
    split; [|split; [apply watcher_delay_range|apply watcher_delay_mono; lia]].
    pose proof (watcher_fraction_bounds id) as Hf. pose proof (watcher_delay_range n) as Hd.
    revert Hf Hd. generalize (watcher_fraction id), (watcher_delay n). change (2 ^ 64)%Z with 18446744073709551616%Z.
    intros f d Hf Hd.
    assert (0 ≤ d * f ≤ d * 18446744073709551615)%Z as Hdf by (split; [lia|apply Z.mul_le_mono_nonneg_l; lia]).
    pose proof (rounded_between (d * 1000000 * (9 * (18446744073709551616 - 1) + 2 * f)) (10 * (18446744073709551616 - 1))
      (900000 * d) (1100000 * d) ltac:(lia) ltac:(lia)) as Hr. lia.
  - by rewrite (proj2 (Z.leb_gt 0 n)) by lia.
Qed.

(** ** Retries *)

Inductive retry_op := RetrySchedule (project_id : string) | RetryClear (project_id : string) | RetryDue.
#[export] Instance retry_op_eq_dec : EqDecision retry_op.
Proof. solve_decision. Defined.

Definition retry_step (r : RetryRegistry) (o : retry_op) : RetryRegistry :=
  match o with
  | RetrySchedule p => retry_schedule p r
  | RetryClear p => retry_clear p r
  | RetryDue => (retry_due r).1
  end.
Definition retry_run (r : RetryRegistry) (ops : list retry_op) : RetryRegistry := fold_left retry_step ops r.
Definition retry_empty : RetryRegistry := {| rr_failures := ∅; rr_passes := ∅ |}.

(** The failures of a project in a row: since it was last cleared. *)
Definition count_failure (p : string) (n : Z) (o : retry_op) : Z :=
  if decide (o = RetrySchedule p) then (n + 1)%Z else if decide (o = RetryClear p) then 0%Z else n.
Definition failures_in_a_row (p : string) (ops : list retry_op) : Z := fold_left (count_failure p) ops 0%Z.
(** The passes a project waits after so many failures. *)
Definition retry_delay (failures : Z) : Z := Z.min (2 ^ Z.min (failures - 1) 6) RETRY_MAX_PASSES.

Lemma retry_delay_range n : (1 ≤ n → 1 ≤ retry_delay n ≤ 12)%Z.
Proof.
  intros Hn. unfold retry_delay. assert (RETRY_MAX_PASSES = 12%Z) as -> by done.
  pose proof (Z.pow_pos_nonneg 2 (Z.min (n - 1) 6)). lia.
Qed.

Lemma failures_nonneg p ops n : (0 ≤ n → 0 ≤ fold_left (count_failure p) ops n)%Z.
Proof.
  revert n. induction ops as [|o ops IH]; intros n Hn; cbn; [done|]. apply IH. unfold count_failure. repeat case_decide; lia.
Qed.

Lemma failures_run p ops r :
  default 0%Z (rr_failures (retry_run r ops) !! p) = fold_left (count_failure p) ops (default 0%Z (rr_failures r !! p)).
Proof.
  revert r. induction ops as [|o ops IH]; intros r; [done|].
  change (retry_run r (o :: ops)) with (retry_run (retry_step r o) ops). rewrite IH. cbn [fold_left]. f_equal.
  unfold count_failure.
  destruct o as [q|q|]; cbn; [| |done].
  - rewrite lookup_insert. repeat case_decide; simplify_eq; done.
  - rewrite lookup_delete. repeat case_decide; simplify_eq; done.
Qed.

Definition not_about (p : string) (o : retry_op) : Prop := o ≠ RetrySchedule p ∧ o ≠ RetryClear p.
Definition dues (ops : list retry_op) : nat := length (filter (λ o, o = RetryDue) ops).

(** The passes a project still waits: each poll takes one off, down to none. *)
Lemma passes_run p ops r k :
  Forall (not_about p) ops → rr_passes r !! p = Some k → (0 ≤ k)%Z →
  ∃ k', rr_passes (retry_run r ops) !! p = Some k' ∧ ((k' ≤ 1)%Z ↔ (k ≤ 1 + Z.of_nat (dues ops))%Z).
Proof.
  intros Hops. revert r k. induction Hops as [|o ops [Hs Hc] _ IH]; intros r k Hk Hpos; [exists k; split; [done|cbn; lia]|].
  cbn [retry_run fold_left]. destruct o as [q|q|].
  - apply (IH (retry_schedule q r)); [|done]. cbn. rewrite lookup_insert_ne; [done|congruence].
  - apply (IH (retry_clear q r)); [|done]. cbn. rewrite lookup_delete_ne; [done|congruence].
  - destruct (IH (retry_due r).1 (if (k <=? 1)%Z then 0 else k - 1)%Z) as (k' & Hk' & Hiff).
    + cbn. by rewrite lookup_fmap, Hk.
    + destruct (k <=? 1)%Z eqn:?; lia.
    + exists k'. split; [exact Hk'|]. rewrite Hiff. unfold dues. rewrite filter_cons_True by done. cbn [length].
      destruct (k <=? 1)%Z eqn:?; lia.
Qed.

Lemma elem_of_due p r : p ∈ (retry_due r).2 ↔ ∃ k, rr_passes r !! p = Some k ∧ (k ≤ 1)%Z.
Proof.
  cbn. rewrite elem_of_sorted_set, elem_of_list_to_set, list_elem_of_omap. split.
  - intros ([q k] & Hin%elem_of_map_to_list & Hd). cbn in Hd. destruct (k <=? 1)%Z eqn:?; [|done].
    injection Hd as ->. exists k. split; [done|lia].
  - intros (k & Hk & Hle). exists (p, k). split; [by apply elem_of_map_to_list|]. cbn.
    by rewrite (proj2 (Z.leb_le k 1) Hle).
Qed.

(** A failed project is tried again.  After its [n]th failure in a row, a
    project that nothing else schedules or clears is due at exactly the polls
    from the [retry_delay n]th on, however the other projects fare; that is
    within twelve polls. *)
Theorem retry_comes_due p before after :
  Forall (not_about p) after →
  let n := (failures_in_a_row p before + 1)%Z in
  (p ∈ (retry_due (retry_run (retry_schedule p (retry_run retry_empty before)) after)).2 ↔
   (retry_delay n ≤ 1 + Z.of_nat (dues after))%Z) ∧
  (1 ≤ retry_delay n ≤ 12)%Z.
Proof.
  intros Hafter n. pose proof (failures_nonneg p before 0 ltac:(done)) as Hn0. fold (failures_in_a_row p before) in Hn0.
  assert (1 ≤ retry_delay n ≤ 12)%Z as Hr by (apply retry_delay_range; lia). split; [|done].
  destruct (passes_run p after (retry_schedule p (retry_run retry_empty before)) (retry_delay n) Hafter) as (k & Hk & Hiff); [|lia|].
  { cbn [retry_schedule rr_passes]. cbv zeta. by rewrite lookup_insert_eq, failures_run. }
  rewrite elem_of_due, <-Hiff. split; [|by exists k]. intros (k' & Hk' & Hle). rewrite Hk in Hk'. by injection Hk' as <-.
Qed.
