(* ===== verification/MainHistory.v ===== *)
(** The history a wake reconciles: the accepted states the replay of the main
    log observed, and the traces its files hold. *)

From S2P Require Export HealthyLog ReconcileLaws.

#[local] Arguments replay_step : simpl never.

(** [accepted_boundary_states]. *)
Definition accepted_boundary_states (r : MaterializationResult) : list GraphState := (accepted_patch_boundaries r).*2.

Section observed.
Context `{NodeAdapterLaws} `{!RecordAdapter, !TextLib, !CanonicalHash}.
Context (cfg : Settings).
Implicit Types (m : Materialization) (p : Patch) (l : list Patch) (o : GraphState * Patch * GraphState).

(** What a replay observed so far: each accepted Patch with the complete state it
    led to, at its own revision, in rising order. *)
Record observed_ok m l : Prop := {
  oo_rising : StronglySorted Z.lt ((λ o, gs_revision o.2) <$> mat_observed m);
  oo_each o : o ∈ mat_observed m → o.1.2 ∈ l ∧ p_admission o.1.2 = AdmissionAccepted ∧
    gs_revision o.2 = p_revision o.1.2 ∧ gs_replay_status o.2 = ReplayComplete ∧
    (gs_revision o.2 ≤ gs_revision (mat_state m))%Z }.

Lemma StronglySorted_snoc (l : list Z) x : StronglySorted Z.lt l → (∀ y, y ∈ l → (y < x)%Z) → StronglySorted Z.lt (l ++ [x]).
Proof.
  induction 1 as [|y l Hs IH Hy]; intros Hx; cbn; [by repeat constructor|]. constructor.
  - apply IH. intros z Hz. apply Hx. by right.
  - apply Forall_app. split; [done|]. constructor; [apply Hx; left|done].
Qed.

Lemma observed_weaken m l p : observed_ok m l → observed_ok m (l ++ [p]).
Proof.
  intros [Hs He]. split; [done|]. intros o Ho. destruct (He o Ho) as (Hin & ?). split; [|done].
  apply elem_of_app. by left.
Qed.

(** What one Patch adds to the observations. *)
Lemma step_observed m p l :
  graph_wf (mat_state m) → gs_replay_status (mat_state m) = ReplayComplete → p_revision p ≠ 0%Z → observed_ok m l →
  observed_ok (replay_step cfg m p).1 (l ++ [p]).
Proof.
  intros Hwf Hc Hp Hm. pose proof (replay_step_status cfg m p Hwf) as Hst. pose proof (replay_step_revision cfg m p Hwf) as Hrev.
  destruct (observed_weaken m l p Hm) as [Hs He].
  assert (∀ m', mat_observed m' = mat_observed m → (gs_revision (mat_state m) ≤ gs_revision (mat_state m'))%Z →
    observed_ok m' (l ++ [p])) as Hkeep.
  { intros m' Ho Hle. split; rewrite Ho; [done|]. intros o Hin. destruct (He o Hin) as (?&?&?&?&?). split_and!; try done. lia. }
  unfold replay_step in Hst, Hrev |- *. destruct (p_admission p) eqn:Ha.
  2: { apply Hkeep; [done|]. cbn. lia. }
  destruct (rejected _); [by apply Hkeep|]. destruct (_apply_patch _ _ _ _) as [[st ds]|]; [|by apply Hkeep].
  cbn [fst snd mat_state mat_observed] in Hst, Hrev |- *. destruct (Hrev eq_refl) as [Hmax Hnext]. cbn in Hmax. specialize (Hnext eq_refl Hp).
  split; cbn [mat_observed mat_state].
  - rewrite fmap_app. apply StronglySorted_snoc; [done|]. intros y (o & -> & Ho)%list_elem_of_fmap. cbn.
    destruct (He o Ho) as (_ & _ & _ & _ & Hle). cbn. lia.
  - intros o [Ho| ->%list_elem_of_singleton]%elem_of_app.
    + destruct (He o Ho) as (?&?&?&?&?). split_and!; try done. cbn. lia.
    + cbn. split_and!; [apply elem_of_app; right; left|done|lia|by rewrite <-Hc, <-Hst|done].
Qed.

Lemma replay_observed m l0 l :
  graph_wf (mat_state m) → gs_replay_status (mat_state m) = ReplayComplete → observed_ok m l0 → (∀ p, p ∈ l → p_revision p ≠ 0%Z) →
  observed_ok (replay cfg m l) (l0 ++ l).
Proof.
  revert m l0. induction l as [|p l IH]; intros m l0 Hwf Hc Hm Hl; [by rewrite app_nil_r|].
  pose proof (step_observed m p l0 Hwf Hc (Hl p ltac:(left)) Hm) as Hstep.
  pose proof (replay_step_wf cfg m p Hwf) as Hw. pose proof (replay_step_status cfg m p Hwf) as Hst.
  replace (l0 ++ p :: l) with ((l0 ++ [p]) ++ l) by by rewrite <-app_assoc.
  cbn [replay]. destruct (replay_step cfg m p) as [m' []]; cbn [fst snd] in *.
  - apply IH; [done|by rewrite Hst|done|]. intros q Hq. apply Hl. by right.
  - destruct Hstep as [Hs He]. split; [done|]. intros o Ho. destruct (He o Ho) as (Hin & ?). split; [|done].
    apply elem_of_app. by left.
Qed.
End observed.

(** ** The main log *)

Section main.
Context `{NodeAdapterLaws} `{!RecordAdapter, !TextLib, !CanonicalHash}.
Implicit Types (m : Manifest) (s : Store) (p : Patch).

(** Every file of the log holds the Patch of the revision in its name. *)
Definition log_named s : Prop :=
  ∀ e p, e ∈ st_log s → load_entry e = inl p → p_revision p = le_revision e ∧ (0 < le_revision e)%Z.

(** The trace of a revision, as the wake reads it. *)
Definition main_trace s (revision : Z) : option TransitionTrace :=
  match transition_trace_at_revision s revision with Done t => t | Failed _ => None end.

Lemma decode_log_all l patches :
  decode_log l = (patches, None) →
  (∀ e, e ∈ l → ∃ p, load_entry e = inl p ∧ p ∈ patches) ∧ ∀ p, p ∈ patches → ∃ e, e ∈ l ∧ load_entry e = inl p.
Proof.
  revert patches. induction l as [|e l IH]; intros patches; cbn; [intros [= <-]; set_solver|].
  destruct (load_entry e) as [p|] eqn:He; [|done]. destruct (decode_log l) as [ps f]. cbn. intros [= <- ->].
  destruct (IH ps eq_refl) as [Hl Hp]. split.
  - intros e' [->|Hin]%elem_of_cons; [exists p; split; [done|left]|]. destruct (Hl e' Hin) as (q & ? & ?). exists q. split; [done|by right].
  - intros q [->|Hin]%elem_of_cons; [exists e; split; [left|done]|]. destruct (Hp q Hin) as (e' & ? & ?). exists e'. split; [by right|done].
Qed.

Lemma chain_targets patches target id p tr :
  accepted_transition_head_chain_failure patches target id = None → p ∈ patches →
  p_admission p = AdmissionAccepted → p_transition p = Some tr → head_target (tt_pre_head tr) = target.
Proof.
  revert id. induction patches as [|q patches IH]; intros id Hc Hp Ha Ht; [by apply elem_of_nil in Hp|].
  cbn in Hc. apply elem_of_cons in Hp as [<-|Hp].
  - rewrite Ha, Ht in Hc. destruct (bool_decide _) eqn:Hb; [by apply bool_decide_eq_true in Hb|done].
  - destruct (p_admission q); [|by eapply IH]. destruct (p_transition q); [|by eapply IH].
    destruct (_ && _); [by eapply IH|done].
Qed.

(** A trace of a healthy log is that of one of its accepted Patches. *)
Lemma main_trace_ok m s patches scope revision :
  healthy m s patches scope →
  ∃ t, transition_trace_at_revision s revision = Done t ∧
    ∀ tr, t = Some tr → head_target (tt_pre_head tr) = main_target.
Proof.
  intros [Hd _ Hc _]. destruct (decode_log_all _ _ Hd) as [Hall _]. unfold transition_trace_at_revision.
  destruct (find _ _) as [e|] eqn:Hf; [|by exists None]. apply find_some in Hf as [He%list_elem_of_In _].
  destruct (Hall e He) as (p & -> & Hp). eexists. split; [done|]. intros tr. case_decide as Ha; [|done].
  by apply (chain_targets patches main_target None p).
Qed.

Lemma sorted_rising bs : StronglySorted Z.lt (agb_revision <$> bs) → ∀ from, (∀ r, from = Some r → ∀ b, b ∈ bs → (r < agb_revision b)%Z) →
  rising from bs = true.
Proof.
  induction bs as [|b bs IH]; intros Hs from Hf; [done|]. cbn in Hs |- *. apply StronglySorted_inv in Hs as [Hs Hb].
  apply andb_true_iff. split.
  - destruct from as [r|]; [|done]. apply Z.ltb_lt. apply (Hf r eq_refl). left.
  - apply IH; [done|]. intros r [= <-] c Hc. rewrite Forall_forall in Hb. apply Hb. by apply list_elem_of_fmap_2.
Qed.

Lemma start_complete scope : gs_replay_status (mat_state (replay_start scope)) = ReplayComplete.
Proof. done. Qed.

Lemma start_observed scope : observed_ok (replay_start scope) [].
Proof. split; [constructor|]. by intros o Ho%elem_of_nil. Qed.

(** A complete replay of the main log is a history that can be reconciled, and
    its traces can be read. *)
Lemma main_history_ok m s :
  let r := _replay m s in
  gs_replay_status (mr_state r) = ReplayComplete → log_named s →
  NoDup (boundary_event_ids (boundary_at main_target (main_trace s) <$> accepted_boundary_states r)) →
  history_ok main_target (mr_state r) (accepted_boundary_states r) (main_trace s) ∧
  ∀ revision, transition_trace_at_revision s revision = Done (main_trace s revision).
Proof.
  intros r Hc Hnamed Hev. destruct (replay_healthy m s Hc) as (patches & scope & Hh).
  assert (r = replay_result m patches scope) as Hr by by apply healthy_replay.
  clearbody r.
  assert (observed_ok (mr_materialization r) patches) as [Hs He].
  { rewrite Hr. unfold replay_result, materialize_patches. cbn [mr_materialization].
    apply (replay_observed _ _ []); [apply replay_start_wf|apply start_complete|apply start_observed|].
    intros p Hp. destruct (proj2 (decode_log_all _ _ (hl_decode _ _ _ _ Hh)) p Hp) as (e & Hin & Hl).
    destruct (Hnamed e p Hin Hl). lia. }
  split.
  - split.
    + done.
    + intros st (o & -> & Ho)%list_elem_of_fmap. by destruct (He o Ho) as (_ & _ & _ & ? & ?).
    + apply sorted_rising; [|done]. unfold accepted_boundary_states, accepted_patch_boundaries.
      rewrite <-!list_fmap_compose. exact Hs.
    + intros st tr _ Htr. unfold main_trace in Htr. destruct (main_trace_ok m s patches scope (gs_revision st) Hh) as (t & Ht & Htgt).
      rewrite Ht in Htr. by apply Htgt.
    + done.
  - intros revision. unfold main_trace. by destruct (main_trace_ok m s patches scope revision Hh) as (t & -> & _).
Qed.

(** C39: a wake of main catches up. Let the main log replay completely, its files be
    named for their Patches, and the events of its boundaries have distinct ids; and
    let the head that was consumed last, if any, be a point of this history, without
    which the wake reports a degraded replay ([head_ok]). Then a wake of main finds
    no fault in the history: whatever watchers there are in well-formed tables, it
    ends with the tables well formed and every accepted revision consumed. *)
Theorem main_wake_catches_up m s db project_id now :
  let r := _replay m s in
  gs_replay_status (mr_state r) = ReplayComplete → log_named s →
  NoDup (boundary_event_ids (boundary_at main_target (main_trace s) <$> accepted_boundary_states r)) →
  db_wf db → head_ok db project_id main_target (mr_state r) (accepted_boundary_states r) (main_trace s) →
  ∃ db', wake_target db project_id main_target (mr_state r) (accepted_boundary_states r) (main_trace s) now = (db', None) ∧
    db_wf db' ∧
    ∀ st, st ∈ accepted_boundary_states r →
      transition_trace_at_revision s (gs_revision st) = Done (main_trace s (gs_revision st)) ∧
      covers db' project_id (boundary_at main_target (main_trace s) st).
Proof.
  intros r Hc Hnamed Hev Hwf Hhead. destruct (main_history_ok m s Hc Hnamed Hev) as [Hho Htr].
  destruct (wake_target_ok db project_id _ _ _ _ now Hwf Hho Hhead) as (db' & bs & Hrun & Hsteps & Hcov & _).
  exists db'. split_and!; [exact Hrun|by apply Hsteps|]. intros st Hst. split; [apply Htr|by apply Hcov].
Qed.
End main.
