(* ===== verification/MergeOnce.v ===== *)
(** The resolution of merges: main and the receipts of branches are written by
    different managers; a branch head is merged into main or settled without a
    change, never both. *)

From S2P Require Export BranchWriters MainHistory.

#[local] Arguments replay_step : simpl never.
#[local] Arguments load_manifest : simpl never.
#[local] Arguments _replay : simpl never.
#[local] Arguments _replay_branch : simpl never.

(** ** The writers of main leave the branches alone *)

Definition keeps_branches {A} (c : HM A) : Prop := ∀ s, st_branches (c s).1 = st_branches s.

Lemma keeps_lift {A} (o : outcome A) : keeps_branches (lift o).
Proof. done. Qed.
Lemma keeps_guard c e : keeps_branches (guard_hm c e).
Proof. done. Qed.
Lemma keeps_ret {A} (a : A) : keeps_branches (mret a).
Proof. done. Qed.
Lemma keeps_store : keeps_branches get_store.
Proof. done. Qed.
Lemma keeps_reload : keeps_branches _reload_manifest.
Proof. done. Qed.
Lemma keeps_modify f : (∀ s, st_branches (f s) = st_branches s) → keeps_branches (modify f).
Proof. intros Hf s. apply Hf. Qed.
Lemma keeps_bind {A B} (c : HM A) (k : A → HM B) :
  keeps_branches c → (∀ a, keeps_branches (k a)) → keeps_branches (c ≫= k).
Proof.
  intros Hc Hk s. unfold mbind, hm_bind. specialize (Hc s). destruct (c s) as [s1 [a|e]]; cbn in *; [|done].
  by rewrite Hk.
Qed.

Create HintDb branches discriminated.
#[export] Hint Resolve keeps_lift keeps_guard keeps_ret keeps_store keeps_reload : branches.

(** Goes through a computation, one call at a time. *)
Ltac keep_branches :=
  repeat first
    [ progress auto with branches
    | apply keeps_bind; [|intros]
    | apply keeps_modify; intros []; cbn; repeat case_match; reflexivity
    | case_match ].

Section main.
Context `{NodeAdapterLaws} `{!RecordAdapter, !TextLib, !CanonicalHash}.
Implicit Types (m : Manifest) (s : Store) (p : Patch).

Lemma keeps_materialize m : keeps_branches (materialize m).
Proof. done. Qed.
#[local] Hint Resolve keeps_materialize : branches.

Lemma keeps_layout m : keeps_branches (ensure_layout m).
Proof. apply keeps_modify. intros s. by destruct (st_scope_base s). Qed.
#[local] Hint Resolve keeps_layout : branches.

Lemma keeps_outputs m : keeps_branches (materialize_outputs m).
Proof. unfold materialize_outputs. keep_branches. Qed.
#[local] Hint Resolve keeps_outputs : branches.

Lemma keeps_write_scope m scope d : keeps_branches (write_scope m scope d).
Proof. unfold write_scope. keep_branches. Qed.
#[local] Hint Resolve keeps_write_scope : branches.

Lemma keeps_repair env m : keeps_branches (_repair_materializations_locked env m).
Proof. unfold _repair_materializations_locked, _synchronize_manifest_from_history. keep_branches. Qed.
#[local] Hint Resolve keeps_repair : branches.

Lemma keeps_open cfg claim : keeps_branches (open_log cfg claim).
Proof. unfold open_log. keep_branches. Qed.
#[local] Hint Resolve keeps_open : branches.

Lemma keeps_settle env m current : keeps_branches (settle env m current).
Proof. unfold settle. keep_branches. Qed.
#[local] Hint Resolve keeps_settle : branches.

Lemma keeps_write_patch now revision p : keeps_branches (write_patch now revision p).
Proof. apply keeps_modify. intros s. by destruct (_ <? _)%Z. Qed.
#[local] Hint Resolve keeps_write_patch : branches.

Lemma keeps_reconcile status revision changed d : keeps_branches (_reconcile_remote_publish_failure status revision changed d).
Proof. unfold _reconcile_remote_publish_failure. keep_branches. Qed.
#[local] Hint Resolve keeps_reconcile : branches.

Lemma keeps_commit env m revision p matters : keeps_branches (commit_patch env m revision p matters).
Proof. unfold commit_patch, publish_commit, _synchronize_manifest_scope, _remember_accepted_revision. keep_branches. Qed.
#[local] Hint Resolve keeps_commit : branches.

Lemma append_keeps_branches cfg env p o : keeps_branches (_append_locked cfg env p o).
Proof. unfold _append_locked. keep_branches. Qed.

Lemma batch_keeps_branches cfg env build expected auth : keeps_branches (append_batch_from_state cfg env build expected auth).
Proof. unfold append_batch_from_state. keep_branches. Qed.
End main.

(** ** What an append to main adds *)

Section once.
Context `{NodeAdapterLaws} `{!RecordAdapter, !TextLib, !CanonicalHash}.
Implicit Types (m : Manifest) (s : Store) (p : Patch).

Lemma prepared_branch_merge cfg m d current raw revision auth pre_head target q report graph :
  _prepare_transition_locked cfg m d current raw revision auth pre_head target = Done (q, report, graph) →
  (∀ first, head raw = Some first → one_producer first raw) → rejected report = false →
  ∃ first, head raw = Some first ∧ p_branch_merge q = p_branch_merge first.
Proof.
  unfold _prepare_transition_locked. intros (u & _ & Hp)%outcome_bind_done Hone Hrej.
  apply outcome_bind_done in Hp as ([q0 r0|sources r0] & Hprep & Hp).
  { injection Hp as <- <- <-. apply refused_rejected in Hprep. congruence. }
  pose proof Hprep as (Hall & _)%staged_sources. cbv zeta in Hp. destruct (prepare_validated _ _ sources _) as [r|[| | | |]] eqn:Hpv; try done.
  2: { destruct sources as [|first sources]; [done|]. injection Hp as <- <- <-. by rewrite rejected_app, orb_true_r in Hrej. }
  injection Hp as <- <- <-.
  pose proof Hpv as (first & rest & hd & t & g & generated & final & events & tr & -> & Hpr)%prepare_prepared.
  inversion Hall as [|x y xs ys Hxy Hall']; subst. exists x. split; [done|].
  assert (one_producer first (first :: rest)) as Hof.
  { eapply prepared_one_producer; [exact Hall|done|by apply Hone|done]. }
  destruct (combined_envelope _ _ _ _ _ Hof (pre_combined _ _ _ _ _ _ _ _ _ _ _ _ Hpr)) as (Henv & _).
  apply prepares_keeps in Hxy as (_ & _ & _ & _ & _ & Hb & _). rewrite <-Hb.
  exact (f_equal p_branch_merge Henv).
Qed.

Lemma candidate_branch_merge cfg m d current p revision auth q report graph :
  _validate_candidate_locked cfg m d current p revision auth = Done (q, report, graph) →
  submission current p → rejected report = false → p_branch_merge q = p_branch_merge p.
Proof.
  unfold submission, _validate_candidate_locked. intros Hv Hs Hrej. destruct (_ && _) eqn:Hb.
  - apply outcome_bind_done in Hv as (stamped & Hst%kernel_done & Hv). apply stamp_same_work in Hst. unfold same_work in Hst.
    assert (p_branch_merge (at_revision revision stamped) = p_branch_merge p) as Heq by (rewrite Hst; done).
    cbv zeta in Hv. destruct (rejected (validate_patch _ _ _)); [by injection Hv as <- _ _|].
    apply outcome_bind_done in Hv as (c & _ & Hv). by injection Hv as <- _ _.
  - rewrite decide_False in Hs.
    2: { intros [Hk Ho]. by rewrite bool_decide_eq_true_2, Ho in Hb. }
    destruct Hs as [Hone _ _]. eapply prepared_branch_merge in Hv as (first & [= <-] & Hm); done.
Qed.

(** The file an append adds, if any, and the merge it holds once it is accepted. *)
Definition adds_merge s s' (merge : option BranchMergeProvenance) : Prop :=
  st_log s' = st_log s ∨ ∃ e w, st_log s' = st_log s ++ [e] ∧ load_entry e = inl w ∧
    (p_admission w = AdmissionAccepted → p_branch_merge w = merge).

Lemma ends_adds env m s s' r patches scope q report merge :
  commit_ends env m s patches scope (admitted q report) s' r → decodable (admitted q report) →
  (rejected report = false → p_branch_merge q = merge) → adds_merge s s' merge.
Proof.
  intros Hends Hd Hm. destruct Hends as [s' r m' Hl|s' status _ _ Hl]; [right|by left].
  eexists _, (admitted q report). split; [exact Hl|]. split; [unfold load_entry; cbn; by rewrite Hd|].
  intros Ha. apply Hm. unfold admitted in Ha. destruct (rejected report); done.
Qed.

Lemma existing_receipt_none cfg m s main prov :
  existing_receipt_for_main_append cfg m s main prov = Done None →
  bs_receipts (branch_dir s (bmp_branch_id prov)) !! bmp_merge_id prov = None.
Proof.
  unfold existing_receipt_for_main_append, branch_dir. intros (u & _ & He)%outcome_bind_done.
  destruct (st_branches s !! bmp_branch_id prov) as [b|]; [|done]. cbn.
  destruct (bs_receipts b !! bmp_merge_id prov); [|done]. cbn in He. destruct (bs_metadata b); [|done].
  by repeat (apply outcome_bind_done in He as (? & _ & He)).
Qed.

Lemma append_merge_run cfg env p o s s' r m patches scope :
  log_at s m patches scope → (_next_revision s < 1000000)%Z → submission (replay_result m patches scope) p →
  _append_locked cfg env p o s = (s', r) →
  st_log s' = st_log s ∨ adds_merge s s' (p_branch_merge p) ∧
    ∀ prov, p_branch_merge p = Some prov → bs_receipts (branch_dir s (bmp_branch_id prov)) !! bmp_merge_id prov = None.
Proof.
  intros Hlog Hlt Hsub Hr.
  destruct (opened_settled cfg env _ s s' m patches scope _ r Hlog Hr) as [(_ & Hl & _)|(s1 & m1 & Hset & _ & _ & Hk)]; [by left|].
  clear Hr. cbn beta iota in Hk. destruct Hset as [Hlog1 Hrec1 Hf Hbr _ Hst]. rewrite <-Hf. rewrite <-(next_revision_files s s1 Hf) in Hlt.
  assert (submission (replay_result m1 patches scope) p) as Hsub1 by by apply (submission_same (replay_result m patches scope)).
  run_bind Hk; [done|]. injection Hrun as <- <-.
  run_bind Hk; apply lift_run in Hrun as [-> Hun]; [by left|].
  assert (∀ prov, p_branch_merge p = Some prov → bs_receipts (branch_dir s (bmp_branch_id prov)) !! bmp_merge_id prov = None) as Hfree.
  { intros prov Hm. symmetry in Hun. unfold require_unmerged in Hun. rewrite Hm in Hun.
    destruct (matching_merges _ _) as [|? [|? ?]]; try done.
    apply outcome_bind_done in Hun as ([?|] & Hex & Hun); [done|]. apply existing_receipt_none in Hex.
    unfold branch_dir in *. by rewrite <-Hbr. }
  run_bind Hk; apply guard_run in Hrun as [-> _]; [by left|].
  cbv zeta in Hk. run_bind Hk; apply lift_run in Hrun as [-> Hcand]; [by left|].
  destruct a1 as [[q report] graph]. symmetry in Hcand.
  pose proof (candidate_committable _ _ _ _ _ _ _ _ _ _ Hcand Hsub1) as Hcm.
  pose proof (candidate_branch_merge _ _ _ _ _ _ _ _ _ _ Hcand Hsub1) as Hmerge.
  run_bind Hk; apply guard_run in Hrun as [-> _]; [by left|].
  right. split; [|exact Hfree].
  assert (∀ s3 r3, commit_patch env m1 (_next_revision s1) (admitted q report) true s1 = (s3, r3) → adds_merge s s3 (p_branch_merge p)) as Hc.
  { intros s3 r3 Hc. pose proof (ends_adds _ _ _ _ _ _ _ _ _ (p_branch_merge p) (commit_run _ _ _ _ _ _ _ _ _ _ _ Hlog1 Hrec1 Hlt Hcm Hc)) as Ha.
    unfold adds_merge in *. rewrite <-Hf. apply Ha; [apply Hcm|exact Hmerge]. }
  run_bind Hk; [by eapply Hc|]. apply Hc in Hrun as Ha.
  run_bind Hk; apply lift_run in Hrun0 as [-> _]; [done|].
  run_bind Hk; apply guard_run in Hrun0 as [-> _]; [done|]. by injection Hk as <- <-.
Qed.

Lemma batch_merge_run cfg env build expected auth s s' r m patches scope :
  log_at s m patches scope → (_next_revision s < 1000000)%Z →
  submittable (replay_result m patches scope) (build (mr_state (replay_result m patches scope))) →
  (∀ q, q ∈ build (mr_state (replay_result m patches scope)) → p_branch_merge q = None) →
  append_batch_from_state cfg env build expected auth s = (s', r) → adds_merge s s' None.
Proof.
  intros Hlog Hlt Hsub Hnone Hr.
  destruct (opened_settled cfg env _ s s' m patches scope _ r Hlog Hr) as [(_ & Hl & _)|(s1 & m1 & Hset & _ & _ & Hk)]; [by left|].
  clear Hr. cbn beta iota in Hk. destruct Hset as [Hlog1 Hrec1 Hf Hbr _ Hst]. rewrite <-(next_revision_files s s1 Hf) in Hlt.
  rewrite <-Hst in Hsub, Hnone. unfold adds_merge. rewrite <-Hf.
  assert (submittable (replay_result m1 patches scope) (build (mr_state (replay_result m1 patches scope)))) as Hsub1.
  { destruct Hsub as [? ? Hm]. split; try done. by rewrite (main_pre_head_same _ (replay_result m patches scope)). }
  run_bind Hk; [done|]. injection Hrun as <- <-.
  run_bind Hk; apply guard_run in Hrun as [-> _]; [by left|].
  destruct (build _) as [|raw raws] eqn:Hb; [injection Hk as <- <-; by left|].
  cbv zeta in Hk. run_bind Hk; apply lift_run in Hrun as [-> Hcand]; [by left|].
  destruct a0 as [[q report] graph]. symmetry in Hcand.
  pose proof (transition_committable _ _ _ _ _ _ _ _ _ _ Hcand Hsub1) as Hcm.
  assert (rejected report = false → p_branch_merge q = None) as Hmerge.
  { intros Hrej. destruct (prepared_branch_merge _ _ _ _ _ _ _ _ _ _ _ _ Hcand (sub_producer _ _ Hsub1) Hrej) as (first & [= <-] & ->).
    apply Hnone. by left. }
  run_bind Hk; apply guard_run in Hrun as [-> _]; [by left|].
  assert (∀ s3 r3, commit_patch env m1 (_next_revision s1) (admitted q report) false s1 = (s3, r3) → adds_merge s1 s3 None) as Hc.
  { intros s3 r3 Hc. by eapply ends_adds; [exact (commit_run _ _ _ _ _ _ _ _ _ _ _ Hlog1 Hrec1 Hlt Hcm Hc)|apply Hcm|]. }
  run_bind Hk; [by eapply Hc|]. apply Hc in Hrun. by injection Hk as <- <-.
Qed.

(** ** What a receipt adds *)

Lemma main_receipts_all seen patches all : main_receipts seen patches = Done all →
  ∀ p prov, p ∈ patches → p_admission p = AdmissionAccepted → p_branch_merge p = Some prov →
    ∃ r, r ∈ all ∧ bmr_provenance r = prov.
Proof.
  revert seen all. induction patches as [|q patches IH]; intros seen all Hall p prov Hp Ha Hm; [by apply elem_of_nil in Hp|].
  cbn in Hall. apply elem_of_cons in Hp as [<-|Hp].
  - rewrite Ha, Hm in Hall. apply outcome_bind_done in Hall as (u & _ & (r & Hr & (rest & _ & Hrest)%outcome_bind_done)%outcome_bind_done).
    injection Hrest as <-. exists r. split; [by left|]. unfold derived_receipt in Hr. destruct (p_transition p), (p_authorized_by p); try done.
    by injection Hr as <-.
  - destruct (p_admission q), (p_branch_merge q); try by eapply IH.
    apply outcome_bind_done in Hall as (u & _ & (r & _ & (rest & Hrest & Hx)%outcome_bind_done)%outcome_bind_done).
    injection Hx as <-. destruct (IH _ _ Hrest p prov Hp Ha Hm) as (r' & ? & ?). exists r'. split; [by right|done].
Qed.

Lemma derived_none main meta merge_id : derived_for main meta merge_id = Done [] →
  ∀ p prov, p ∈ mr_patches main → p_admission p = AdmissionAccepted → p_branch_merge p = Some prov →
    bmp_branch_id prov = gbm_branch_id meta → bmp_merge_id prov ≠ merge_id.
Proof.
  unfold derived_for, _main_merge_receipts. intros Hd p prov Hp Ha Hm Hid Heq.
  apply outcome_bind_done in Hd as (l & (all & Hall & Hl)%outcome_bind_done & Hd). injection Hl as <-. injection Hd as Hd.
  destruct (main_receipts_all _ _ _ Hall p prov Hp Ha Hm) as (r & Hr & Hprov).
  assert (r ∈ bfilter (λ r, str_eqb (bmp_merge_id (bmr_provenance r)) merge_id)
    (merge_sort earlier_receipt (bfilter (λ r, str_eqb (bmp_branch_id (bmr_provenance r)) (gbm_branch_id meta)) all))) as Hin.
  { apply elem_of_bfilter. unfold str_eqb. rewrite Hprov, bool_decide_eq_true. split; [done|].
    rewrite merge_sort_Permutation. apply elem_of_bfilter. by rewrite Hprov, bool_decide_eq_true. }
  rewrite Hd in Hin. by apply elem_of_nil in Hin.
Qed.

Lemma no_change_underived meta r branch main live : _validate_merge_receipt meta r branch main live = Done tt →
  bmr_outcome r = NoChange → derived_for main meta (bmp_merge_id (bmr_provenance r)) = Done [].
Proof.
  unfold _validate_merge_receipt. intros (u & _ & (l & Hl & Hv)%outcome_bind_done)%outcome_bind_done Hn.
  rewrite Hn in Hv. rewrite Hl. destruct l; done.
Qed.

Lemma validate_settled meta r branch main live : _validate_merge_receipt meta r branch main live = Done tt →
  _validate_merge_receipt meta r branch main None = Done tt.
Proof.
  unfold _validate_merge_receipt. destruct (_validate_merge_receipt_source _ _ _ _); [|done]. cbn.
  destruct (derived_for _ _ _) as [l|]; [|done]. cbn. destruct (bmr_outcome r); [done|]. by destruct (negb _).
Qed.

Lemma read_receipt_done meta merge_id b branch main r :
  _read_validated_merge_receipt meta merge_id b branch main = Done r →
  bs_receipts b !! merge_id = Some r ∧ bmp_merge_id (bmr_provenance r) = merge_id ∧
  _validate_merge_receipt meta r branch main None = Done tt.
Proof.
  unfold _read_validated_merge_receipt. destruct (bs_receipts b !! merge_id) as [x|]; [|done].
  intros (u & Hn%ensure_done & ([] & Hv & Hx)%outcome_bind_done)%outcome_bind_done. injection Hx as ->.
  by apply bool_decide_eq_true in Hn.
Qed.

Lemma settle_winner_done winner receipt r : settle_winner winner receipt = Done r → r = winner.
Proof. unfold settle_winner. destruct (_ || _); [|done]. by intros [= <-]. Qed.

(** What the call returned: the receipt on disk, valid as it was found. *)
Definition kept_receipt m main_m identity s s' (y : BranchMergeReceipt) : Prop :=
  bs_receipts (branch_dir s' (gbm_branch_id identity)) !! bmp_merge_id (bmr_provenance y) = Some y ∧
  ∃ meta, _read_metadata identity (branch_dir s (gbm_branch_id identity)) = Done meta ∧
    _validate_merge_receipt meta y (_replay_branch m meta (branch_dir s (gbm_branch_id identity)) s) (_replay main_m s)
      None = Done tt.

(** The host has the commit but the publication raised: the mirror is refreshed,
    and what is returned is what the refreshed mirror holds. *)
Definition refreshed env m main_m identity s2 s' (r : outcome BranchMergeReceipt) : Prop :=
  env_publication (be_env env) = PublishRaises true CommitPresent ∧ s' = be_refresh env s2 ∧
  ∀ y, r = Done y → kept_receipt m main_m identity s' s' y.

Lemma publish_receipt_run env m main_m identity x s2 s' r :
  publish_receipt env m main_m identity x s2 = (s', r) →
  (s' = s2 ∧ ∀ y, r = Done y → y = x) ∨ refreshed env m main_m identity s2 s' r ∨
  branch_frame (gbm_branch_id identity) s2 s' ∧ (∃ e, r = Failed e) ∧
    branch_dir s' (gbm_branch_id identity) =
      set_bs_receipts (delete (bmp_merge_id (bmr_provenance x))) (branch_dir s2 (gbm_branch_id identity)).
Proof.
  intros Hr. unfold publish_receipt in Hr. destruct (env_publication (be_env env)) as [|[|] status] eqn:Hpub.
  - injection Hr as <- <-. left. split; [done|]. by intros y [= <-].
  - destruct status.
    + right. left. assert (∀ e, refreshed env m main_m identity s2 (be_refresh env s2) (Failed e)) as Hfail by done.
      run_bind Hr; [done|]. injection Hrun as <- <-.
      run_bind Hr; destruct (read_metadata_run _ _ _ _ Hrun) as [-> Hread]; [done|]. clear Hrun. symmetry in Hread.
      pose proof (read_metadata_done _ _ _ Hread) as (_ & Hid & _).
      run_bind Hr; [done|]. apply branch_materialize_run in Hrun as [-> Hb]. injection Hb as ->. rewrite Hid in Hr.
      run_bind Hr; [done|]. injection Hrun as <- <-.
      run_bind Hr; [done|]. injection Hrun as <- <-. run_bind Hr; apply lift_run in Hrun as [-> Hw]; [done|].
      symmetry in Hw. apply read_receipt_done in Hw as (Hw & Hname & Hv).
      apply lift_run in Hr as [-> ->]. split; [done|]. split; [done|]. intros y ->%settle_winner_done.
      unfold kept_receipt. rewrite Hname. split; [done|]. eexists. by split.
    + right. right. run_bind Hr; [by apply on_branch_run in Hrun as [? _]|]. apply on_branch_run in Hrun as (_ & Hd & Hf).
      apply lift_run in Hr as [-> ->]. split; [done|]. split; [by eexists|done].
    + right. right. run_bind Hr; [by apply on_branch_run in Hrun as [? _]|]. apply on_branch_run in Hrun as (_ & Hd & Hf).
      apply lift_run in Hr as [-> ->]. split; [done|]. split; [by eexists|done].
  - injection Hr as <- <-. left. by split.
Qed.

(** A receipt that was written: a new one, valid where it was written. *)
Definition new_receipt cfg m main_m identity s (x : BranchMergeReceipt) : Prop :=
  ∃ meta, gbm_branch_id meta = gbm_branch_id identity ∧
    bs_receipts (branch_dir s (gbm_branch_id identity)) !! bmp_merge_id (bmr_provenance x) = None ∧
    _validate_merge_receipt meta x (_replay_branch m meta (branch_dir s (gbm_branch_id identity)) s) (_replay main_m s)
      (Some cfg) = Done tt.

Lemma frame_replay id m s s' : branch_frame id s s' → _replay m s' = _replay m s.
Proof. intros []. unfold _replay. by rewrite bf_log, bf_scope. Qed.

(** How a write of a receipt may end. *)
Record receipt_ends cfg m main_m identity s s' (r : outcome BranchMergeReceipt) : Prop := {
  re_frame : branch_frame (gbm_branch_id identity) s s';
  re_log : bs_log (branch_dir s' (gbm_branch_id identity)) = bs_log (branch_dir s (gbm_branch_id identity));
  re_receipts :
    bs_receipts (branch_dir s' (gbm_branch_id identity)) = bs_receipts (branch_dir s (gbm_branch_id identity)) ∨
    ∃ x, new_receipt cfg m main_m identity s x ∧
      bs_receipts (branch_dir s' (gbm_branch_id identity)) =
        <[bmp_merge_id (bmr_provenance x) := x]> (bs_receipts (branch_dir s (gbm_branch_id identity)));
  re_result : ∀ y, r = Done y → kept_receipt m main_m identity s s' y }.

(** Whatever happens, what this host wrote is one of these ends; when the mirror
    was refreshed, the store is the refreshed one. *)
Definition receipt_run cfg env m main_m identity s s' r : Prop :=
  receipt_ends cfg m main_m identity s s' r ∨
  ∃ local e, receipt_ends cfg m main_m identity s local (Failed e) ∧ refreshed env m main_m identity local s' r.

Lemma write_receipt_run cfg env m main_m identity receipt s s' r :
  write_merge_receipt cfg env m main_m identity receipt s = (s', r) →
  receipt_run cfg env m main_m identity s s' r.
Proof.
  intros Hr. unfold write_merge_receipt in Hr. unfold receipt_run.
  assert (∀ e, s' = s → r = Failed e → receipt_ends cfg m main_m identity s s' r) as Hstop0
    by (intros e -> ->; by split; [reflexivity|done|left|done]).
  run_bind Hr; apply lift_run in Hrun as [-> _]; [left; by eapply Hstop0|].
  run_bind Hr; destruct (read_metadata_run _ _ _ _ Hrun) as [-> Hread]; [left; by eapply Hstop0|]. clear Hrun.
  symmetry in Hread. rename a0 into meta. pose proof (read_metadata_done _ _ _ Hread) as (_ & Hid & _).
  run_bind Hr; apply guard_run in Hrun as [-> _]; [left; by eapply Hstop0|].
  run_bind Hr; [done|]. apply branch_materialize_run in Hrun as [-> Ha]. injection Ha as ->. rewrite Hid in Hr.
  set (branch := _replay_branch m meta (branch_dir s (gbm_branch_id identity)) s) in *.
  run_bind Hr; destruct (branch_repair_run _ _ _ _ _ _ Hrun) as (Hf & Hl & Hrc & _); rewrite Hid in Hf, Hl, Hrc;
    [left; by split; [done|done|left|done]|]. clear Hrun Hstop0.
  assert (∀ r0 e, s' = s1 → r0 = Failed e → receipt_ends cfg m main_m identity s s' r0 ∨
    ∃ local e, receipt_ends cfg m main_m identity s local (Failed e) ∧ refreshed env m main_m identity local s' r0) as Hstop
    by (intros r0 e -> ->; left; by split; [done|done|left|done]).
  run_bind Hr; apply lift_run in Hrun as [-> _]; [by eapply Hstop|].
  run_bind Hr; apply guard_run in Hrun as [-> _]; [by eapply Hstop|].
  run_bind Hr; [done|]. injection Hrun as <- <-. rewrite (frame_replay _ _ _ _ Hf) in Hr.
  run_bind Hr; apply lift_run in Hrun as [-> _]; [by eapply Hstop|].
  run_bind Hr; apply lift_run in Hrun as [-> _]; [by eapply Hstop|].
  run_bind Hr; apply lift_run in Hrun as [-> _]; [by eapply Hstop|].
  run_bind Hr.
  { destruct a6 as [|r0 l]; [done|]. run_bind Hrun; apply lift_run in Hrun0 as [-> _]; [by eapply Hstop|done]. }
  assert (s0 = s1) as ->.
  { destruct a6 as [|r0 l]; [by injection Hrun|]. apply hm_bind_run in Hrun as [(e & _ & ?)|(s2 & u & Hv & Hrun)]; [done|].
    apply lift_run in Hv as [-> _]. by injection Hrun. }
  clear Hrun. rename a7 into x. run_bind Hr; [done|]. injection Hrun as <- <-.
  destruct (bs_receipts (branch_dir s1 (gbm_branch_id identity)) !! _) as [old|] eqn:Hold; cbn [is_some] in Hr.
  - run_bind Hr; apply lift_run in Hrun as [-> Hw]; [by eapply Hstop|]. apply lift_run in Hr as [-> ->].
    symmetry in Hw. apply read_receipt_done in Hw as (Hw & Hname & Hv). left. split; [done|done|by left|].
    intros y ->%settle_winner_done. unfold kept_receipt. rewrite Hname. split; [done|]. by exists meta.
  - run_bind Hr; apply lift_run in Hrun as [-> Hv]; [by eapply Hstop|]. symmetry in Hv. destruct a7.
    run_bind Hr; [by apply on_branch_run in Hrun as [? _]|]. apply on_branch_run in Hrun as (_ & Hdir & Hf2).
    rewrite Hrc in Hold. assert (new_receipt cfg m main_m identity s x) as Hnew by (by exists meta).
    destruct (publish_receipt_run env m main_m identity x s0 s' r Hr) as [[-> Hy]|[Hre|(Hf3 & [e ->] & Hdel)]].
    + left. split; [by etrans|by rewrite Hdir|right; exists x; split; [done|by rewrite Hdir; cbn; rewrite Hrc]|].
      intros y ->%Hy. split; [by rewrite Hdir; cbn; rewrite lookup_insert_eq|]. exists meta. split; [done|].
      by eapply validate_settled.
    + right. exists s0, PublishFailed. split; [|done].
      split; [by etrans|by rewrite Hdir|right; exists x; split; [done|by rewrite Hdir; cbn; rewrite Hrc]|done].
    + left. split; [by do 2 (etrans; [done|])|by rewrite Hdel, Hdir|left|done]. rewrite Hdel, Hdir. cbn.
      rewrite delete_insert_id; [done|]. by rewrite Hrc.
Qed.

(** How the creation of a branch may end: its directory is what changed, and the
    mirror was refreshed or not. *)
Definition create_ends env meta s s' : Prop :=
  ∃ local, (s' = local ∨ env_publication (be_env env) = PublishRaises true CommitPresent ∧ s' = be_refresh env local) ∧
    branch_frame (gbm_branch_id meta) s local ∧
    bs_receipts (branch_dir local (gbm_branch_id meta)) = bs_receipts (branch_dir s (gbm_branch_id meta)).

Lemma create_branch_run cfg env meta s s' r :
  create_auto_research_branch cfg env meta s = (s', r) → create_ends env meta s s'.
Proof.
  intros Hr. unfold create_auto_research_branch in Hr. unfold create_ends.
  assert (∃ local, (s = local ∨ env_publication (be_env env) = PublishRaises true CommitPresent ∧ s = be_refresh env local) ∧
    branch_frame (gbm_branch_id meta) s local ∧ bs_receipts (branch_dir local (gbm_branch_id meta)) =
      bs_receipts (branch_dir s (gbm_branch_id meta))) as Hsame by (exists s; split; [by left|split; [reflexivity|done]]).
  run_bind Hr; apply lift_run in Hrun as [-> _]; [exact Hsame|].
  run_bind Hr; apply lift_run in Hrun as [-> _]; [exact Hsame|].
  run_bind Hr; apply guard_run in Hrun as [-> _]; [exact Hsame|].
  run_bind Hr; [by injection Hrun as <- _|]. injection Hrun as <- _. run_bind Hr; [done|]. injection Hrun as <- <-.
  destruct (st_branches s !! gbm_branch_id meta) as [b|] eqn:Hb.
  { run_bind Hr; apply lift_run in Hrun as [-> _]; [exact Hsame|]. run_bind Hr; apply guard_run in Hrun as [-> _]; [exact Hsame|].
    by injection Hr as <- _. }
  run_bind Hr; [done|]. injection Hrun as <- <-. run_bind Hr; apply lift_run in Hrun as [-> _]; [exact Hsame|].
  run_bind Hr; apply lift_run in Hrun as [-> _]; [exact Hsame|]. run_bind Hr; apply lift_run in Hrun as [-> _]; [exact Hsame|].
  run_bind Hr; apply guard_run in Hrun as [-> _]; [exact Hsame|].
  run_bind Hr; [by apply on_branch_run in Hrun as [? _]|]. apply on_branch_run in Hrun as (_ & Hdir & Hf).
  assert (∀ s2, branch_dir s2 (gbm_branch_id meta) = set_bs_metadata meta (branch_dir s (gbm_branch_id meta)) →
    bs_receipts (branch_dir s2 (gbm_branch_id meta)) = bs_receipts (branch_dir s (gbm_branch_id meta))) as Hrc by by intros s2 ->.
  assert (∀ s1 s2 (o : outcome GraphBranchMetadata), (_ ← modify (set_branches (delete (gbm_branch_id meta))); lift (Failed PublishFailed) : HM GraphBranchMetadata) s1 = (s2, o) →
    branch_frame (gbm_branch_id meta) s s1 → ∃ local, (s2 = local ∨ env_publication (be_env env) = PublishRaises true CommitPresent ∧ s2 = be_refresh env local) ∧
    branch_frame (gbm_branch_id meta) s local ∧
    bs_receipts (branch_dir local (gbm_branch_id meta)) = bs_receipts (branch_dir s (gbm_branch_id meta))) as Hback.
  { intros s1' s2 o [= <- _] [? ? ? ? ? Hbr ?]. eexists. split; [by left|]. split; [split; try done|].
    - intros other Ho. cbn. by rewrite lookup_delete_ne, Hbr.
    - unfold branch_dir. cbn. by rewrite lookup_delete_eq, Hb. }
  destruct (env_publication (be_env env)) as [|[|] [| |]].
  1: { injection Hr as <- _. eexists. split; [by left|]. auto. }
  2-6: by eapply Hback.
  run_bind Hr; [done|]. injection Hrun as <- _. run_bind Hr; [done|]. injection Hrun as <- <-.
  run_bind Hr; apply guard_run in Hrun as [-> _]; [|injection Hr as <- _]; eexists; (split; [by right|]; auto).
Qed.

(** ** One resolution *)

(** No file of main holds an accepted merge that a branch settled without a
    change. *)
Definition resolved_once s : Prop :=
  ∀ e p prov r, e ∈ st_log s → load_entry e = inl p → p_admission p = AdmissionAccepted → p_branch_merge p = Some prov →
    bs_receipts (branch_dir s (bmp_branch_id prov)) !! bmp_merge_id prov = Some r → bmr_outcome r = Committed.

Lemma resolved_main s s' merge :
  resolved_once s → st_branches s' = st_branches s → adds_merge s s' merge →
  (∀ prov, merge = Some prov → bs_receipts (branch_dir s (bmp_branch_id prov)) !! bmp_merge_id prov = None) →
  resolved_once s'.
Proof.
  intros Hres Hb Ha Hfree e p prov r He Hp Hacc Hm Hr. unfold branch_dir in *. rewrite Hb in Hr.
  destruct Ha as [Hl|(e' & w & Hl & Hw & Hmw)]; rewrite Hl in He; [by eapply Hres|].
  apply elem_of_app in He as [He| ->%list_elem_of_singleton]; [by eapply Hres|].
  rewrite Hw in Hp. injection Hp as ->. specialize (Hmw Hacc). rewrite Hm in Hmw.
  rewrite (Hfree prov (eq_sym Hmw)) in Hr. done.
Qed.

Lemma resolved_branch s s' id :
  resolved_once s → branch_frame id s s' → bs_receipts (branch_dir s' id) = bs_receipts (branch_dir s id) → resolved_once s'.
Proof.
  intros Hres Hf Hrc e p prov r He Hp Hacc Hm Hr. rewrite (bf_log _ _ _ Hf) in He. eapply Hres; [done..|].
  destruct (decide (id = bmp_branch_id prov)) as [->|Hne]; [by rewrite <-Hrc|].
  unfold branch_dir in *. by rewrite <-(bf_branches _ _ _ Hf).
Qed.

Lemma resolved_receipt cfg m main_m identity s s' r patches scope :
  log_at s main_m patches scope → resolved_once s → receipt_ends cfg m main_m identity s s' r → resolved_once s'.
Proof.
  intros Hlog Hres [Hf _ [Hrc|(x & (meta & Hid & Hnone & Hv) & Hrc)] _]; [by eapply resolved_branch|].
  intros e p prov y He Hp Hacc Hm Hy. rewrite (bf_log _ _ _ Hf) in He.
  destruct (decide (bmp_branch_id prov = gbm_branch_id identity)) as [Hb|Hne].
  2: { eapply Hres; [done..|]. unfold branch_dir in *. by rewrite <-(bf_branches _ _ _ Hf). }
  rewrite Hb, Hrc in Hy. destruct (decide (bmp_merge_id prov = bmp_merge_id (bmr_provenance x))) as [Heq|Hne].
  2: { rewrite lookup_insert_ne in Hy by done. eapply Hres; [done..|]. by rewrite Hb. }
  rewrite Heq, lookup_insert_eq in Hy. injection Hy as <-. destruct (bmr_outcome x) eqn:Hx; [done|exfalso].
  pose proof (derived_none _ _ _ (no_change_underived _ _ _ _ _ Hv Hx)) as Hd.
  destruct (decode_log_all _ _ (hl_decode _ _ _ _ (la_healthy _ _ _ _ Hlog))) as [Hall _].
  destruct (Hall e He) as (q & Hq & Hin). rewrite Hp in Hq. injection Hq as <-.
  apply (Hd p prov); try done; [by rewrite (log_at_replay _ _ _ _ Hlog)|congruence].
Qed.

(** A refresh brings what the host holds.  The other writers of the host are held
    to what is shown here of this one: they leave the log replayable and resolve a
    merge once. *)
Definition refresh_sound env : Prop :=
  ∀ s, log_ok s → resolved_once s → log_ok (be_refresh env s) ∧ resolved_once (be_refresh env s).

(** One operation of a manager of main or of a branch, whatever its outcome: what
    is submitted to it is as [submission] and [branch_submittable] say, a batch
    carries no merge, for which its writer does not look, and the manager of a
    receipt holds the manifest in force. *)
Inductive merge_step : Store → Store → Prop :=
  | step_append cfg env p o s s' r :
      (_next_revision s < 1000000)%Z → (∀ m, load_manifest (st_document s) = Ok m → submission (_replay m s) p) →
      _append_locked cfg env p o s = (s', r) → merge_step s s'
  | step_batch cfg env build expected auth s s' r :
      (_next_revision s < 1000000)%Z →
      (∀ m, load_manifest (st_document s) = Ok m → submittable (_replay m s) (build (mr_state (_replay m s)))) →
      (∀ st q, q ∈ build st → p_branch_merge q = None) →
      append_batch_from_state cfg env build expected auth s = (s', r) → merge_step s s'
  | step_create cfg env meta s s' r :
      refresh_sound env → create_auto_research_branch cfg env meta s = (s', r) → merge_step s s'
  | step_branch cfg env identity p raising discarding expected auth s s' r :
      branch_ok s identity → branch_submittable [p] →
      (∀ meta, _read_metadata identity (branch_dir s (gbm_branch_id identity)) = Done meta →
         (branch_next_revision meta (branch_dir s (gbm_branch_id identity)) < 1000000)%Z) →
      branch_append_locked cfg env identity p raising discarding expected auth s = (s', r) → merge_step s s'
  | step_receipt cfg env m main_m identity receipt s s' r :
      load_manifest (st_document s) = Ok main_m → refresh_sound env →
      write_merge_receipt cfg env m main_m identity receipt s = (s', r) → merge_step s s'.

Lemma frame_log_ok id s s' : branch_frame id s s' → log_ok s → log_ok s'.
Proof. intros [] (m & patches & scope & Hlog). exists m, patches, scope. by eapply log_at_same. Qed.

Lemma merge_step_keeps s s' : merge_step s s' → log_ok s → resolved_once s → log_ok s' ∧ resolved_once s'.
Proof.
  intros Hstep Hok Hres. destruct Hok as (m & patches & scope & Hlog). pose proof (la_manifest _ _ _ _ Hlog) as Hm.
  assert (log_ok s) as Hok by by exists m, patches, scope. destruct Hstep as [cfg env p o s s' r Hlt Hsub Hr|cfg env build expected auth s s' r Hlt Hsub Hnone Hr
    |cfg env meta s s' r Hre Hr|cfg env identity p raising discarding expected auth s s' r Hb Hsub Hlt Hr
    |cfg env m' main_m identity receipt s s' r Hm' Hre Hr].
  - specialize (Hsub m Hm). rewrite (log_at_replay _ _ _ _ Hlog) in Hsub.
    destruct (append_run _ _ _ _ _ _ _ _ _ _ Hlog Hlt Hsub Hr) as (written & [Ho _ _] & _). split; [exact Ho|].
    pose proof (append_keeps_branches cfg env p o s) as Hbr. rewrite Hr in Hbr. cbn in Hbr.
    destruct (append_merge_run _ _ _ _ _ _ _ _ _ _ Hlog Hlt Hsub Hr) as [Hl|[Ha Hfree]].
    + eapply (resolved_main s s' None); [done..|by left|done].
    + by eapply resolved_main.
  - specialize (Hsub m Hm). rewrite (log_at_replay _ _ _ _ Hlog) in Hsub.
    destruct (batch_run _ _ _ _ _ _ _ _ _ _ _ Hlog Hlt Hsub Hr) as (written & [Ho _ _] & _). split; [exact Ho|].
    pose proof (batch_keeps_branches cfg env build expected auth s) as Hbr. rewrite Hr in Hbr. cbn in Hbr.
    eapply resolved_main; [done|done|eapply batch_merge_run; [exact Hlog|exact Hlt|exact Hsub| |exact Hr]; apply Hnone|done].
  - destruct (create_branch_run _ _ _ _ _ _ Hr) as (local & Hl & Hf & Hrc).
    assert (log_ok local ∧ resolved_once local) as [Hok' Hres'] by (split; [by eapply frame_log_ok|by eapply resolved_branch]).
    destruct Hl as [->|[_ ->]]; [done|by apply Hre].
  - destruct (branch_append_run _ _ _ _ _ _ _ _ _ _ _ Hb Hsub Hlt Hr) as (written & [Hf _ _ Hrc _] & _).
    split; [by eapply frame_log_ok|by eapply resolved_branch].
  - assert (main_m = m) as -> by congruence. assert (∀ s2 o, receipt_ends cfg m' m identity s s2 o → log_ok s2 ∧ resolved_once s2) as Hlocal.
    { intros s2 o Hends. split; [eapply frame_log_ok; [apply Hends|done]|by eapply resolved_receipt]. }
    destruct (write_receipt_run _ _ _ _ _ _ _ _ _ Hr) as [Hends|(local & e & Hends & _ & -> & _)]; [by eapply Hlocal|].
    destruct (Hlocal _ _ Hends). by apply Hre.
Qed.

(** C22: a merge is resolved once. However appends and batches to main, new
    branches, appends to branches that replay and receipts interleave, and whatever
    fails on their way (a refusal, a repair, a publication), main stays replayable
    and no branch head is both merged into main and settled without a change. The
    submissions are well formed for their writer ([submission], [submittable],
    [branch_submittable]), a batch carries no merge, revisions stay below one
    million, receipts are written under the manifest in force, and where a mirror is
    refreshed, what the other writers of the host left there keeps the same two
    promises ([refresh_sound]). *)
Theorem merge_resolved_once s s' :
  rtc merge_step s s' → log_ok s → resolved_once s → log_ok s' ∧ resolved_once s'.
Proof. induction 1 as [|s1 s2 s3 Hstep _ IH]; [done|]. intros Hok Hres. destruct (merge_step_keeps _ _ Hstep Hok Hres). by apply IH. Qed.

(** C23: receipts are final.  Whatever comes of writing a receipt, what this host
    writes changes nothing but the receipts and the recorded head of its branch, and
    loses or replaces no receipt.  The store is then that one, and a receipt that is
    returned is in it, and valid where the call found the branch and main: the
    merge that main records, or none.  Only where the publication raised although
    the host has the commit is the mirror refreshed, to whatever the host holds; a
    receipt that is then returned is in the refreshed mirror, and valid there. *)
Theorem receipts_are_final cfg env m main_m identity receipt s s' r :
  write_merge_receipt cfg env m main_m identity receipt s = (s', r) →
  ∃ local,
    branch_frame (gbm_branch_id identity) s local ∧
    bs_receipts (branch_dir s (gbm_branch_id identity)) ⊆ bs_receipts (branch_dir local (gbm_branch_id identity)) ∧
    ((s' = local ∧ ∀ y, r = Done y → kept_receipt m main_m identity s s' y) ∨
     (env_publication (be_env env) = PublishRaises true CommitPresent ∧ s' = be_refresh env local ∧
      ∀ y, r = Done y → kept_receipt m main_m identity s' s' y)).
Proof.
  assert (∀ s2 o, receipt_ends cfg m main_m identity s s2 o → branch_frame (gbm_branch_id identity) s s2 ∧
    bs_receipts (branch_dir s (gbm_branch_id identity)) ⊆ bs_receipts (branch_dir s2 (gbm_branch_id identity))) as Hlocal.
  { intros s2 o [Hf _ Hrc _]. split; [done|].
    destruct Hrc as [->|(x & (meta & _ & Hnone & _) & ->)]; [done|by apply insert_subseteq]. }
  intros [Hends|(local & e & Hends & Href)]%write_receipt_run.
  - exists s'. destruct (Hlocal _ _ Hends). split_and!; [done..|]. left. split; [done|apply Hends].
  - exists local. destruct (Hlocal _ _ Hends). split_and!; [done..|]. by right.
Qed.
End once.
