(* ===== verification/BranchSnapshots.v ===== *)
(** Reading branches from one replay of main: the graph a snapshot starts a
    branch from, and the graph and head it finds, are those of the branch's own
    replay; so are those of a branch that was just created. *)

From S2P Require Export BranchWriters MainHistory.

#[local] Arguments replay_step : simpl never.
#[local] Arguments load_manifest : simpl never.
#[local] Arguments _replay : simpl never.
#[local] Arguments _replay_branch : simpl never.

(** ** Prefixes of main *)

Lemma numbered_take start l ps k : numbered start l ps → numbered start (take k l) (take k ps).
Proof.
  revert ps start k. induction l as [|e l IH]; intros [|p ps] start [|k]; cbn; try done.
  intros (He & Hp & Hn). split_and!; [done..|by apply IH].
Qed.

Lemma numbered_filter start l ps k : numbered start l ps →
  bfilter (λ e, (le_revision e <=? start + Z.of_nat k - 1)%Z) l = take k l.
Proof.
  revert l ps start. induction k as [|k IH]; intros l ps start Hn.
  - apply bfilter_nil. intros x Hx. apply Z.leb_gt. apply (numbered_bounds _ _ _ Hn) in Hx. lia.
  - destruct l as [|e l], ps as [|p ps]; try done. cbn in Hn. destruct Hn as (He & _ & Hn). cbn.
    destruct (Z.leb_spec (le_revision e) (start + Z.of_nat (S k) - 1)); [|lia]. f_equal.
    replace (start + Z.of_nat (S k) - 1)%Z with (start + 1 + Z.of_nat k - 1)%Z by lia. by eapply IH.
Qed.

Lemma decode_paths_decode l patches : decode_log l = (patches, None) → _decode_paths l = (patches, None).
Proof.
  revert patches. induction l as [|e l IH]; intros patches; cbn; [done|]. destruct (load_entry e); [|done].
  destruct (decode_log l) as [ps f]. cbn. intros [= <- ->]. by rewrite (IH ps).
Qed.

Lemma decode_paths_take l patches k : _decode_paths l = (patches, None) → _decode_paths (take k l) = (take k patches, None).
Proof.
  revert patches k. induction l as [|e l IH]; intros patches k; cbn.
  { intros [= <-]. by rewrite !take_nil. }
  destruct (load_entry e) as [p|] eqn:He; [|done]. destruct (_decode_paths l) as [ps f]. cbn. intros [= <- ->].
  destruct k as [|k]; cbn; [done|]. rewrite He. by rewrite (IH ps k).
Qed.

Lemma chain_take ps target id k :
  accepted_transition_head_chain_failure ps target id = None → accepted_transition_head_chain_failure (take k ps) target id = None.
Proof.
  revert id k. induction ps as [|p ps IH]; intros id k; cbn; [by rewrite take_nil|]. destruct k as [|k]; [done|]. cbn.
  destruct (p_admission p); [|apply IH]. destruct (p_transition p); [|apply IH]. destruct (_ && _); [apply IH|done].
Qed.

(** ** The graphs of main, revision by revision *)

Section states.
Context `{NodeAdapterLaws} `{!RecordAdapter, !TextLib, !CanonicalHash}.
Context (cfg : Settings).
Implicit Types (c : Materialization) (p : Patch).

Notation status c := (gs_replay_status (mat_state c)).

(** Every step of a complete replay succeeded. *)
Lemma replay_cons c p l : graph_wf (mat_state c) → status c = ReplayComplete → status (replay cfg c (p :: l)) = ReplayComplete →
  (replay_step cfg c p).2 = true ∧ status (replay_step cfg c p).1 = ReplayComplete ∧
  replay cfg c (p :: l) = replay cfg (replay_step cfg c p).1 l ∧ graph_wf (mat_state (replay_step cfg c p).1).
Proof.
  intros Hwf Hc Hs. pose proof (replay_step_status cfg c p Hwf) as Hst. cbn [replay] in Hs |- *.
  pose proof (replay_step_wf cfg c p Hwf) as Hw. destruct (replay_step cfg c p) as [c' []]; cbn [fst snd] in *.
  - split_and!; try done. by rewrite Hst.
  - congruence.
Qed.

Lemma step_rejected c p : p_admission p = AdmissionRejected → replay_step cfg c p = (replay_rejected c p, true).
Proof. intros Ha. unfold replay_step. by rewrite Ha. Qed.

(** An accepted step is observed with the graph it leaves. *)
Lemma step_observed_accepted c p : p_admission p = AdmissionAccepted → (replay_step cfg c p).2 = true →
  mat_observed (replay_step cfg c p).1 =
    mat_observed c ++ [(mat_state c, p, mat_state (replay_step cfg c p).1)].
Proof.
  unfold replay_step. intros ->. destruct (rejected _); [done|]. by destruct (_apply_patch _ _ _ _) as [[st ds]|].
Qed.

(** What the observer has collected by revision. *)
Definition collected (observed : list (GraphState * Patch * GraphState)) (d : gmap Z GraphState) : gmap Z GraphState :=
  foldl (λ d o, <[p_revision o.1.2 := o.2]> d) d observed.

Lemma collected_other observed d revision : (∀ o, o ∈ observed → p_revision o.1.2 ≠ revision) →
  collected observed d !! revision = d !! revision.
Proof.
  revert d. induction observed as [|o l IH]; intros d Ho; cbn; [done|]. unfold collected in IH. rewrite IH.
  - apply lookup_insert_ne, Ho. left.
  - intros x Hx. apply Ho. by right.
Qed.

(** The observer meets the accepted Patches of the rest of a numbered log. *)
Lemma replay_observes c l start ls :
  numbered start ls l → graph_wf (mat_state c) → status c = ReplayComplete → status (replay cfg c l) = ReplayComplete →
  ∃ more, mat_observed (replay cfg c l) = mat_observed c ++ more ∧
    (∀ o, o ∈ more → (start ≤ p_revision o.1.2)%Z).
Proof.
  revert c start ls. induction l as [|p l IH]; intros c start ls Hn Hwf Hc Hs.
  { exists []. rewrite app_nil_r. split; [done|]. set_solver. }
  destruct ls as [|e ls]; [done|]. cbn in Hn. destruct Hn as (_ & Hp & Hn).
  destruct (replay_cons c p l Hwf Hc Hs) as (Hstep & Hc1 & Heq & Hwf1). rewrite Heq in Hs |- *.
  destruct (IH _ _ _ Hn Hwf1 Hc1 Hs) as (more & Hm & Hge). destruct (p_admission p) eqn:Ha.
  - rewrite (step_observed_accepted c p Ha Hstep) in Hm. eexists (_ :: more). rewrite Hm, <-app_assoc. split; [done|].
    intros o [->|Ho]%elem_of_cons; [cbn; lia|]. specialize (Hge o Ho). lia.
  - rewrite (step_rejected c p Ha) in Hm. exists more. rewrite (step_rejected c p Ha) , Hm. split; [done|].
    intros o Ho. specialize (Hge o Ho). lia.
Qed.

(** The loop over main computes the graph after every file. *)
Lemma main_states_run l c start ls states :
  numbered start ls l → graph_wf (mat_state c) → status c = ReplayComplete → status (replay cfg c l) = ReplayComplete →
  (0 < start)%Z → gs_revision (mat_state c) = (start - 1)%Z →
  ∃ states', main_states_loop (collected (mat_observed (replay cfg c l)) ∅) (mat_state c) states l = Done states' ∧
    (∀ k, (k < start)%Z → states' !! k = states !! k) ∧
    ∀ j, j < length l → states' !! (start + Z.of_nat j)%Z = Some (mat_state (replay cfg c (take (S j) l))).
Proof.
  revert c start ls states. induction l as [|p l IH]; intros c start ls states Hn Hwf Hc Hs Hpos Hrev.
  { exists states. split_and!; [done|done|]. cbn. lia. }
  destruct ls as [|e ls]; [done|]. cbn in Hn. destruct Hn as (_ & Hp & Hn).
  destruct (replay_cons c p l Hwf Hc Hs) as (Hstep & Hc1 & Heq & Hwf1). rewrite Heq in Hs |- *.
  pose proof (replay_step_revision cfg c p Hwf Hstep) as [Hr1 _].
  set (c1 := (replay_step cfg c p).1) in *.
  assert (gs_revision (mat_state c1) = (start + 1 - 1)%Z) as Hrev1 by (rewrite Hr1; lia).
  destruct (replay_observes c1 l _ _ Hn Hwf1 Hc1 Hs) as (more & Hm & Hge).
  destruct (IH c1 (start + 1)%Z ls (<[start := mat_state c1]> states) Hn Hwf1 Hc1 Hs ltac:(lia) Hrev1) as (states' & Hrun & Hold & Hnew).
  exists states'. split_and!.
  - cbn [main_states_loop]. rewrite Hp. destruct (p_admission p) eqn:Ha.
    + assert (collected (mat_observed (replay cfg c1 l)) ∅ !! start = Some (mat_state c1)) as ->; [|exact Hrun].
      rewrite Hm. unfold c1 in *. rewrite (step_observed_accepted c p Ha Hstep). unfold collected. rewrite !foldl_app. cbn [foldl fst snd].
      fold (collected (mat_observed c) ∅). etransitivity; [apply collected_other|rewrite Hp; apply lookup_insert_eq].
      intros o Ho. specialize (Hge o Ho). lia.
    + cbn. replace (add_messages (p_admission_messages p) (set_revision start (mat_state c))) with (mat_state c1); [exact Hrun|].
      unfold c1. rewrite (step_rejected c p Ha). cbn. do 2 f_equal. lia.
  - intros k Hk. rewrite Hold by lia. apply lookup_insert_ne. lia.
  - intros j Hj. destruct j as [|j].
    + rewrite Z.add_0_r, Hold by lia. rewrite lookup_insert_eq. cbn. rewrite Hstep. by rewrite take_0.
    + replace (start + Z.of_nat (S j))%Z with (start + 1 + Z.of_nat j)%Z by lia. rewrite Hnew by (cbn in Hj; lia).
      cbn [take]. f_equal. f_equal. cbn [replay]. by rewrite Hstep.
Qed.
End states.

(** ** Heads of main *)

Lemma main_heads_run l start ls acc :
  numbered start ls l →
  (foldl main_head_step acc l).1 = chain_head acc.1 l ∧
  (∀ k, (k < start)%Z → (foldl main_head_step acc l).2 !! k = acc.2 !! k) ∧
  ∀ j, j < length l → (foldl main_head_step acc l).2 !! (start + Z.of_nat j)%Z =
    Some {| head_target := main_target; head_revision := start + Z.of_nat j; head_transition_id := chain_head acc.1 (take (S j) l) |}.
Proof.
  revert start ls acc. induction l as [|p l IH]; intros start ls acc Hn; [split_and!; [done|done|cbn; lia]|].
  destruct ls as [|e ls]; [done|]. cbn in Hn. destruct Hn as (_ & Hp & Hn). cbn [foldl].
  destruct (IH _ _ (main_head_step acc p) Hn) as (H1 & H2 & H3). split_and!.
  - by rewrite H1.
  - intros k Hk. rewrite H2 by lia. unfold main_head_step. cbn. rewrite lookup_insert_ne by lia. done.
  - intros [|j] Hj.
    + rewrite Z.add_0_r, H2 by lia. unfold main_head_step. cbn. by rewrite Hp, lookup_insert_eq, take_0.
    + replace (start + Z.of_nat (S j))%Z with (start + 1 + Z.of_nat j)%Z by lia. rewrite H3 by (cbn in Hj; lia). done.
Qed.

Section snapshots.
Context `{NodeAdapterLaws} `{!RecordAdapter, !TextLib, !CanonicalHash}.
Implicit Types (m : Manifest) (meta : GraphBranchMetadata) (s : Store) (p : Patch).

Notation complete r := (gs_replay_status (mr_state r) = ReplayComplete).

(** The head of main after its first files. *)
Definition main_head_at (patches : list Patch) (k : nat) : GraphHeadRef :=
  {| head_target := main_target; head_revision := Z.of_nat k; head_transition_id := chain_head None (take k patches) |}.

Lemma main_heads_lookup r ls revision h :
  numbered 1 ls (mr_patches r) → _main_heads_by_revision r !! revision = Some h →
  ∃ k, k ≤ length (mr_patches r) ∧ revision = Z.of_nat k ∧ h = main_head_at (mr_patches r) k.
Proof.
  intros Hn Hh. unfold _main_heads_by_revision in Hh.
  set (acc := (None, {[0%Z := {| head_target := main_target; head_revision := 0; head_transition_id := None |}]}) : option string * gmap Z GraphHeadRef) in *.
  destruct (main_heads_run _ _ _ acc Hn) as (_ & Hlow & Hhigh).
  destruct (decide (revision < 1)%Z) as [Hlt|Hge].
  - rewrite Hlow in Hh by done. cbn in Hh. apply lookup_singleton_Some in Hh as [<- <-]. exists 0. by split_and!; [lia|..].
  - destruct (decide (Z.to_nat (revision - 1) < length (mr_patches r))) as [Hj|Hj].
    + specialize (Hhigh _ Hj). rewrite Z2Nat.id in Hhigh by lia. replace (1 + (revision - 1))%Z with revision in Hhigh by lia.
      rewrite Hhigh in Hh. injection Hh as <-. exists (S (Z.to_nat (revision - 1))). split_and!; [lia..|].
      unfold main_head_at. f_equal. lia.
    + exfalso. assert (∀ l start ls acc, numbered start ls l → (start + Z.of_nat (length l) ≤ revision)%Z →
        (foldl main_head_step acc l).2 !! revision = acc.2 !! revision) as Hout.
      { clear. intros l. induction l as [|p l IH]; intros start ls acc Hn Hle; [done|]. destruct ls as [|e ls]; [done|].
        cbn in Hn. destruct Hn as (_ & Hp & Hn). cbn in Hle. cbn [foldl]. rewrite (IH _ _ _ Hn) by lia. cbn. apply lookup_insert_ne. lia. }
      rewrite (Hout _ _ _ _ Hn) in Hh by lia. cbn in Hh. apply lookup_singleton_Some in Hh as [? _]. lia.
Qed.

(** The revision of main counts its files. *)
Lemma replay_numbered_revision cfg c l start ls :
  numbered start ls l → graph_wf (mat_state c) → gs_replay_status (mat_state c) = ReplayComplete →
  gs_replay_status (mat_state (replay cfg c l)) = ReplayComplete → gs_revision (mat_state c) = (start - 1)%Z →
  gs_revision (mat_state (replay cfg c l)) = (start - 1 + Z.of_nat (length l))%Z.
Proof.
  revert c start ls. induction l as [|p l IH]; intros c start ls Hn Hwf Hc Hs Hrev; [cbn; lia|].
  destruct ls as [|e ls]; [done|]. cbn in Hn. destruct Hn as (_ & Hp & Hn).
  destruct (replay_cons cfg c p l Hwf Hc Hs) as (Hstep & Hc1 & Heq & Hwf1). rewrite Heq in Hs |- *.
  pose proof (replay_step_revision cfg c p Hwf Hstep) as [Hr1 _].
  rewrite (IH _ _ _ Hn Hwf1 Hc1 Hs) by lia. cbn. lia.
Qed.

(** A complete log has complete prefixes. *)
Lemma prefix_complete cfg patches scope k :
  gs_replay_status (mat_state (materialize_patches cfg patches scope)) = ReplayComplete →
  gs_replay_status (mat_state (materialize_patches cfg (take k patches) scope)) = ReplayComplete.
Proof.
  intros Hs. rewrite <-(take_drop k patches), replay_is_incremental in Hs. by case_decide.
Qed.

Lemma start_revision scope : gs_revision (mat_state (replay_start scope)) = 0%Z.
Proof. done. Qed.

Lemma prefix_revision cfg patches scope ls k :
  numbered 1 ls patches → k ≤ length patches →
  gs_replay_status (mat_state (materialize_patches cfg patches scope)) = ReplayComplete →
  gs_revision (mat_state (materialize_patches cfg (take k patches) scope)) = Z.of_nat k.
Proof.
  intros Hn Hk Hs. apply (prefix_complete _ _ _ k) in Hs. unfold materialize_patches in *.
  rewrite (replay_numbered_revision _ _ _ 1 (take k ls)); [rewrite length_take; lia|by apply numbered_take|apply replay_start_wf|done|done|done].
Qed.

(** Main as it was at the head of one of its files is a base for a branch. *)
Lemma main_is_base s m patches scope meta k :
  log_at s m patches scope → numbered 1 (st_log s) patches → k ≤ length patches →
  gbm_base_head meta = main_head_at patches k → base_healthy m meta s (take k patches) scope.
Proof.
  intros [_ [Hd Hsc Hch Hc] _] Hn Hk Hbase.
  assert (base_log meta s = take k (st_log s)) as Hlog.
  { unfold base_log. rewrite Hbase. cbn [main_head_at head_revision].
    replace (Z.of_nat k) with (1 + Z.of_nat k - 1)%Z by lia. by eapply numbered_filter. }
  split.
  - unfold _initial_truth_scope, initial_scope in *. rewrite Hbase. destruct (st_scope_base s) as [| |l]; [|done|by injection Hsc as <-].
    destruct (is_nil (st_log s)) eqn:Hnil; [|done]. destruct (st_log s); [|done].
    apply numbered_length in Hn. cbn in Hn. replace k with 0 by lia. by injection Hsc as <-.
  - rewrite Hlog. apply decode_paths_take. by apply decode_paths_decode.
  - rewrite Hlog. by apply numbered_take.
  - by apply chain_take.
  - by apply prefix_complete.
  - rewrite Hbase. unfold _head_for_patches, main_head_at, mr_state. cbn [replay_result mr_materialization mr_patches].
    f_equal. by eapply prefix_revision.
Qed.

(** The graph a snapshot looks up is the graph of that prefix. *)
Lemma main_states_lookup s m patches scope :
  log_at s m patches scope → numbered 1 (st_log s) patches →
  ∃ states, _main_states_by_revision m (st_scope_base s) (_replay m s) = Done states ∧
    ∀ k, k ≤ length patches → states !! Z.of_nat k = Some (mat_state (materialize_patches (replay_manifest m) (take k patches) scope)).
Proof.
  intros Hat Hn. pose proof Hat as [_ [Hd Hsc Hch Hc] _]. rewrite (log_at_replay _ _ _ _ Hat).
  unfold _main_states_by_revision.
  assert ((match st_scope_base s with
     | ScopeRecorded scope => Done scope | ScopeInvalid _ => Failed (Raised ValueError)
     | ScopeMissing => Done (mf_truth_scope m) end : outcome (list string)) = Done scope) as ->.
  { unfold initial_scope in Hsc. destruct (st_scope_base s); [|done|]; by injection Hsc as <-. }
  cbn [mbind outcome_bind replay_result mr_patches]. cbv zeta.
  destruct (main_states_run (replay_manifest m) patches (replay_start scope) 1 (st_log s)
    {[0%Z := mat_state (materialize_patches (replay_manifest m) [] scope)]} Hn (replay_start_wf scope) eq_refl Hc eq_refl eq_refl)
    as (states & Hrun & Hold & Hnew).
  exists states. split; [exact Hrun|]. intros [|k] Hk.
  - rewrite Hold by done. rewrite take_0. apply lookup_singleton_eq.
  - replace (Z.of_nat (S k)) with (1 + Z.of_nat k)%Z by lia. apply Hnew. lia.
Qed.

(** ** The tail of a branch *)

Lemma tail_step_state m c c' p : mat_state c' = mat_state c → p_revision p = (gs_revision (mat_state c) + 1)%Z →
  mat_state (tail_step m c' p).1 = mat_state (replay_step (replay_manifest m) c p).1 ∧
  (tail_step m c' p).2 = (replay_step (replay_manifest m) c p).2.
Proof.
  intros Hst Hp. unfold tail_step, replay_step. rewrite Hst. destruct (p_admission p).
  - destruct (rejected _); [done|]. unfold apply_valid_patch. by destruct (_apply_patch _ _ _ _) as [[st ds]|].
  - cbn. split; [|done]. do 2 f_equal. lia.
Qed.

Lemma tail_replay_state m l c c' start ls :
  numbered start ls l → graph_wf (mat_state c) → mat_state c' = mat_state c → gs_revision (mat_state c) = (start - 1)%Z →
  mat_state (tail_replay m c' l) = mat_state (replay (replay_manifest m) c l).
Proof.
  revert c c' start ls. induction l as [|p l IH]; intros c c' start ls Hn Hwf Hst Hrev; [done|].
  destruct ls as [|e ls]; [done|]. cbn in Hn. destruct Hn as (_ & Hp & Hn). cbn [tail_replay replay].
  destruct (tail_step_state m c c' p Hst) as [Hs1 Hs2]; [lia|].
  pose proof (replay_step_wf (replay_manifest m) c p Hwf) as Hw. pose proof (replay_step_revision (replay_manifest m) c p Hwf) as Hr.
  rewrite Hs2. destruct (replay_step (replay_manifest m) c p) as [c1 []]; cbn [fst snd] in *; [|done].
  eapply (IH _ _ (start + 1)%Z); [exact Hn|done|exact Hs1|]. destruct (Hr eq_refl) as [Hmax _]. lia.
Qed.

(** A branch replays the same from its base as from a snapshot of main. *)
Lemma tail_is_branch s m patches scope meta k b branch_patches st :
  log_at s m patches scope → numbered 1 (st_log s) patches → k ≤ length patches → gbm_base_head meta = main_head_at patches k →
  st = mat_state (materialize_patches (replay_manifest m) (take k patches) scope) →
  _decode_paths (bs_log b) = (branch_patches, None) →
  numbered (head_revision (gbm_base_head meta) + 1) (bs_log b) branch_patches →
  accepted_transition_head_chain_failure branch_patches (branch_target (gbm_branch_id meta)) (head_transition_id (gbm_base_head meta)) = None →
  mr_state (_replay_branch_tail m st branch_patches) = mr_state (_replay_branch m meta b s) ∧
  (complete (_replay_branch m meta b s) → branch_healthy m meta b s (take k patches) branch_patches scope).
Proof.
  intros Hat Hn Hk Hbase -> Hd Hnum Hch. pose proof (main_is_base _ _ _ _ _ _ Hat Hn Hk Hbase) as Hb.
  pose proof (prefix_revision (replay_manifest m) patches scope (st_log s) k Hn Hk (hl_complete _ _ _ _ (la_healthy _ _ _ _ Hat))) as Hrev.
  assert (mr_state (_replay_branch_tail m (mat_state (materialize_patches (replay_manifest m) (take k patches) scope)) branch_patches) =
    mr_state (replay_result m (take k patches ++ branch_patches) scope)) as Hst.
  { unfold mr_state, _replay_branch_tail. cbn [mr_materialization replay_result]. rewrite replay_is_incremental, decide_True by apply Hb.
    eapply tail_replay_state; [exact Hnum|apply replayed_graph_wf|done|]. rewrite Hrev, Hbase. cbn. lia. }
  assert (_replay_branch m meta b s = replay_result m (take k patches ++ branch_patches) scope) as Heq.
  { unfold _replay_branch. rewrite (healthy_base _ _ _ _ _ Hb), (bb_scope _ _ _ _ _ Hb), Hd.
    rewrite decide_False by (rewrite (bb_complete _ _ _ _ _ Hb); done). cbn [is_some first_failure].
    rewrite (proj2 (sequence_numbered _ _ _ (decode_paths_length _ _ Hd))) by done. by rewrite Hch. }
  rewrite Heq. split; [exact Hst|]. intros Hc. by split.
Qed.

(** ** Receipts of a snapshot *)

Notation merge_of r := (bmp_merge_id (bmr_provenance r)).

Lemma elem_of_put r x l : r ∈ put_receipt x l → r = x ∨ r ∈ l.
Proof.
  induction l as [|y l IH]; cbn; [set_solver|]. destruct (str_eqb _ _); set_solver.
Qed.

Lemma put_ids x l i : i ∈ ((λ r, merge_of r) <$> put_receipt x l) ↔ i = merge_of x ∨ i ∈ ((λ r, merge_of r) <$> l).
Proof.
  induction l as [|y l IH]; cbn; [set_solver|]. unfold str_eqb. case_bool_decide as Hid; cbn; rewrite !elem_of_cons.
  - rewrite Hid. tauto.
  - rewrite IH. tauto.
Qed.

Lemma put_unique x l : NoDup ((λ r, merge_of r) <$> l) →
  NoDup ((λ r, merge_of r) <$> put_receipt x l) ∧ ∀ r, r ∈ put_receipt x l → merge_of r = merge_of x → r = x.
Proof.
  induction l as [|y l IH]; cbn.
  { intros _. split; [apply NoDup_singleton|]. intros r Hr _. set_solver. }
  intros [Hy Hl]%NoDup_cons. destruct (IH Hl) as [Hn Hu]. unfold str_eqb. case_bool_decide as Hid.
  - split; [cbn; apply NoDup_cons; by rewrite <-Hid|]. intros r [->|Hr]%elem_of_cons Heq; [done|].
    exfalso. apply Hy. rewrite Hid, <-Heq. by apply (list_elem_of_fmap_2 (λ r, merge_of r)).
  - split.
    + cbn. apply NoDup_cons. split; [|exact Hn]. intros [Hx|Hx]%put_ids; [by apply Hid|by apply Hy].
    + intros r [->|Hr]%elem_of_cons Heq; [by apply Hid in Heq|by apply Hu].
Qed.

(** What the two loops establish: every receipt was validated, and those of main
    stand for their merges. *)
Record gathered (P : BranchMergeReceipt → Prop) (main by_id : list BranchMergeReceipt) : Prop := {
  ga_valid : ∀ r, r ∈ by_id → P r;
  ga_unique : NoDup ((λ r, merge_of r) <$> by_id);
  ga_main : ∀ r, r ∈ by_id → merge_of r ∈ ((λ r, merge_of r) <$> main) → r ∈ main }.

Lemma persisted_gathered branch meta heads by_id receipts out :
  persisted_receipts branch meta heads by_id receipts = Done out →
  gathered (λ r, _validate_summary_receipt branch meta r heads = Done tt) [] by_id →
  gathered (λ r, _validate_summary_receipt branch meta r heads = Done tt) [] out.
Proof.
  revert by_id. induction receipts as [|x receipts IH]; intros by_id; cbn; [by intros [= <-]|].
  intros ([] & Hv & Hp)%outcome_bind_done [Hval Hun _]. apply (IH _ Hp). destruct (put_unique x by_id Hun) as [Hn _].
  split; [|exact Hn|]. { intros r [->|Hr]%elem_of_put; [done|by apply Hval]. }
  intros r _ Hr. by apply elem_of_nil in Hr.
Qed.

Lemma accepted_gathered branch meta heads seen by_id receipts out :
  accepted_receipts branch meta heads by_id receipts = Done out →
  gathered (λ r, _validate_summary_receipt branch meta r heads = Done tt) seen by_id →
  gathered (λ r, _validate_summary_receipt branch meta r heads = Done tt) (seen ++ receipts) out.
Proof.
  revert by_id seen. induction receipts as [|x receipts IH]; intros by_id seen; cbn; [rewrite app_nil_r; by intros [= <-]|].
  intros ([] & Hv & (u & _ & Hp)%outcome_bind_done)%outcome_bind_done [Hval Hun Hmain].
  replace (seen ++ x :: receipts) with ((seen ++ [x]) ++ receipts) by by rewrite <-app_assoc.
  apply (IH _ _ Hp). destruct (put_unique x by_id Hun) as [Hn Hu]. split; [|exact Hn|].
  - intros r [->|Hr]%elem_of_put; [done|by apply Hval].
  - intros r Hr Hid. rewrite fmap_app in Hid. apply elem_of_app. apply elem_of_app in Hid as [Hid|Hid%list_elem_of_singleton].
    + destruct (elem_of_put _ _ _ Hr) as [->|Hold]; [right; left|left; by apply Hmain].
    + right. apply list_elem_of_singleton. by apply Hu.
Qed.

Lemma main_receipts_unique seen patches all : main_receipts seen patches = Done all →
  NoDup ((λ r, merge_of r) <$> all) ∧ (∀ r, r ∈ all → merge_of r ∉ seen ∧ bmr_outcome r = Committed).
Proof.
  revert seen all. induction patches as [|p patches IH]; intros seen all; cbn.
  { intros [= <-]. split; [constructor|]. intros r Hr. by apply elem_of_nil in Hr. }
  destruct (p_admission p), (p_branch_merge p) as [prov|]; try apply IH.
  intros (u & Hs%ensure_done%bool_decide_eq_true & (r & Hr & (rest & Hrest & Hall)%outcome_bind_done)%outcome_bind_done)%outcome_bind_done.
  injection Hall as <-. destruct (IH _ _ Hrest) as [Hn Hin].
  assert (bmr_provenance r = prov ∧ bmr_outcome r = Committed) as [Hprov Hout].
  { unfold derived_receipt in Hr. destruct (p_transition p), (p_authorized_by p); try done. by injection Hr as <-. }
  cbn. split.
  - apply NoDup_cons. split; [|exact Hn]. intros (y & Hy & Hiny)%list_elem_of_fmap. apply Hin in Hiny as [Hne _].
    rewrite <-Hy, Hprov in Hne. set_solver.
  - intros y [->|Hy]%elem_of_cons; [by rewrite Hprov|]. apply Hin in Hy as [Hne ?]. split; [set_solver|done].
Qed.

Lemma fmap_bfilter_nodup {A B} (f : A → bool) (g : A → B) l : NoDup (g <$> l) → NoDup (g <$> bfilter f l).
Proof.
  unfold bfilter. induction l as [|x l IH]; cbn; [done|]. intros [Hx Hl]%NoDup_cons. destruct (f x); [|by apply IH].
  cbn. apply NoDup_cons. split; [|by apply IH]. intros (y & Hy & Hin)%list_elem_of_fmap. apply Hx.
  rewrite Hy. apply list_elem_of_fmap_2. by apply elem_of_bfilter in Hin as [_ ?].
Qed.

Lemma merges_of_branch main branch_id receipts : _main_merge_receipts main branch_id = Done receipts →
  NoDup ((λ r, merge_of r) <$> receipts) ∧ ∀ r, r ∈ receipts → bmr_outcome r = Committed.
Proof.
  unfold _main_merge_receipts. intros (all & Hall & Hr)%outcome_bind_done. injection Hr as <-.
  destruct (main_receipts_unique _ _ _ Hall) as [Hn Hin]. split.
  - rewrite merge_sort_Permutation. by apply fmap_bfilter_nodup.
  - intros r. rewrite merge_sort_Permutation. intros [_ Hr]%elem_of_bfilter. by apply Hin.
Qed.

Lemma filter_unique r l : r ∈ l → NoDup ((λ r, merge_of r) <$> l) →
  bfilter (λ x, str_eqb (merge_of x) (merge_of r)) l = [r].
Proof.
  unfold bfilter, str_eqb. induction l as [|x l IH]; cbn; [by intros ?%elem_of_nil|].
  intros Hr [Hx Hl]%NoDup_cons. case_bool_decide as Hid.
  - assert (r = x) as ->.
    { apply elem_of_cons in Hr as [->|Hr]; [done|]. exfalso. apply Hx. rewrite Hid. by apply (list_elem_of_fmap_2 (λ r, merge_of r)). }
    f_equal. apply bfilter_nil. intros y Hy. apply bool_decide_eq_false. intros Heq. apply Hx. rewrite <-Heq.
    by apply (list_elem_of_fmap_2 (λ r, merge_of r)).
  - apply IH; [|exact Hl]. apply elem_of_cons in Hr as [->|Hr]; [done|exact Hr].
Qed.

(** The head at a revision does not look at the base. *)
Lemma transition_through meta base l through :
  (∀ p, p ∈ base → (p_revision p ≤ head_revision (gbm_base_head meta))%Z) →
  branch_transition meta (Some through) (base ++ l) = branch_transition meta (Some through) l.
Proof.
  unfold branch_transition. generalize (head_transition_id (gbm_base_head meta)) as id. induction base as [|p base IH]; intros id Hb; [done|].
  cbn [app]. rewrite (proj2 (Z.leb_le _ _)) by (apply Hb; left). cbn [foldl]. rewrite (proj2 (Z.leb_le _ _)) by (apply Hb; left).
  apply IH. intros q Hq. apply Hb. by right.
Qed.

Lemma transition_all meta base l :
  (∀ p, p ∈ base → (p_revision p ≤ head_revision (gbm_base_head meta))%Z) →
  branch_transition meta None (base ++ l) = branch_transition meta None l.
Proof.
  unfold branch_transition. generalize (head_transition_id (gbm_base_head meta)) as id. induction base as [|p base IH]; intros id Hb; [done|].
  cbn [app foldl]. rewrite (proj2 (Z.leb_le _ _)) by (apply Hb; left). apply IH. intros q Hq. apply Hb. by right.
Qed.

(** A receipt is valid against the tail exactly when it is against the branch. *)
Lemma summary_on_branch meta exact_meta base l tail branch r heads :
  (∀ p, p ∈ base → (p_revision p ≤ head_revision (gbm_base_head meta))%Z) → exact_meta = with_head meta (gbm_head exact_meta) →
  mr_state tail = mr_state branch → mr_patches tail = l → mr_patches branch = base ++ l →
  _validate_summary_receipt tail exact_meta r heads = _validate_summary_receipt branch exact_meta r heads.
Proof.
  intros Hb Hexact Hst Hl Hbl. unfold _validate_summary_receipt, _head_at_revision. rewrite Hst, Hl, Hbl.
  by rewrite transition_through by (rewrite Hexact; exact Hb).
Qed.

(** ** Snapshots *)

(** What a snapshot says of a branch, by the branch's own replay. *)
Definition snapshot_of m s (branch_id : string) (snap : BranchReadSnapshot) : Prop :=
  ∃ meta, bs_metadata (branch_dir s branch_id) = Some meta ∧ gbm_branch_id meta = branch_id ∧
    let branch := _replay_branch m meta (branch_dir s branch_id) s in
    complete branch ∧ brs_metadata snap = with_head meta (branch_head_ref meta branch) ∧
    ∀ r, r ∈ brs_receipts snap → _validate_merge_receipt meta r branch (_replay m s) None = Done tt.

Lemma log_at_head s m patches scope : log_at s m patches scope →
  require_writable (mr_state (_replay m s)) = Done (mr_state (_replay m s)) ∧ ∃ h, head_ref (_replay m s) = Done h.
Proof.
  intros Hat. rewrite (log_at_replay _ _ _ _ Hat). destruct Hat as [_ [_ _ Hch Hc] _].
  assert (complete (replay_result m patches scope)) as Hcomplete by exact Hc. split.
  - unfold require_writable. rewrite decide_False; [done|]. by rewrite Hcomplete.
  - unfold head_ref. rewrite (bool_decide_eq_true_2 _ Hcomplete). cbn [mr_patches replay_result]. rewrite Hch. by eexists.
Qed.

Lemma writable_complete st st' : require_writable st = Done st' → gs_replay_status st = ReplayComplete.
Proof. unfold require_writable. case_decide; [done|]. intros _. by destruct (status_cases st). Qed.

(** The receipts that the two loops gathered are exactly those main agrees with. *)
Lemma gathered_valid m s patches scope meta branch receipts by_id r :
  log_at s m patches scope → complete branch → _main_merge_receipts (_replay m s) (gbm_branch_id meta) = Done receipts →
  gathered (λ r, _validate_summary_receipt branch (with_head meta (branch_head_ref meta branch)) r
    (_main_heads_by_revision (_replay m s)) = Done tt) receipts by_id →
  existsb (λ r, bool_decide (bmr_outcome r = Committed) && negb (mem (merge_of r) ((λ r, merge_of r) <$> receipts))) by_id = false →
  r ∈ by_id → _validate_merge_receipt meta r branch (_replay m s) None = Done tt.
Proof.
  intros Hat Hc Hrec [Hval Hun Hmain] Hex Hr. destruct (log_at_head _ _ _ _ Hat) as [Hw [h Hh]].
  destruct (merges_of_branch _ _ _ Hrec) as [Hn Hcommitted].
  unfold _validate_merge_receipt, _validate_merge_receipt_source.
  assert (require_writable (mr_state branch) = Done (mr_state branch)) as ->.
  { unfold require_writable. rewrite decide_False; [done|]. by rewrite Hc. }
  rewrite Hw, Hh. cbn [mbind outcome_bind]. rewrite (Hval r Hr). cbn [mbind outcome_bind].
  unfold derived_for. rewrite Hrec. cbn [mbind outcome_bind].
  assert (merge_of r ∈ ((λ r, merge_of r) <$> receipts) → bmr_outcome r = Committed ∧
    bfilter (λ x, str_eqb (merge_of x) (merge_of r)) receipts = [r]) as Hin.
  { intros Hi. apply Hmain in Hi; [|done]. split; [by apply Hcommitted|by apply filter_unique]. }
  destruct (bmr_outcome r) eqn:Ho.
  - destruct Hin as [_ ->]; [|by rewrite bool_decide_eq_true_2].
    assert (bool_decide (bmr_outcome r = Committed) && negb (mem (merge_of r) ((λ r, merge_of r) <$> receipts)) = false) as Hf.
    { apply not_true_is_false. intros Ht. apply not_true_iff_false in Hex. apply Hex. apply existsb_exists. exists r.
      split; [by apply list_elem_of_In|done]. }
    rewrite Ho in Hf. cbn in Hf. apply negb_false_iff, mem_true in Hf. exact Hf.
  - assert (bfilter (λ x, str_eqb (merge_of x) (merge_of r)) receipts = []) as ->; [|done].
    apply bfilter_nil. intros x Hx. apply bool_decide_eq_false. intros Heq.
    destruct Hin as [Hbad _]; [|done]. rewrite <-Heq. by apply (list_elem_of_fmap_2 (λ r, merge_of r)).
Qed.

Lemma snapshot_run cfg m s patches scope states branch_id episode_id project_id receipts snap :
  log_at s m patches scope → numbered 1 (st_log s) patches →
  (∀ k, k ≤ length patches → states !! Z.of_nat k = Some (mat_state (materialize_patches (replay_manifest m) (take k patches) scope))) →
  _main_merge_receipts (_replay m s) branch_id = Done receipts →
  _read_branch_snapshot cfg m s branch_id episode_id project_id (_replay m s) (_main_heads_by_revision (_replay m s)) states receipts =
    Done (Some snap) → snapshot_of m s branch_id snap.
Proof.
  intros Hat Hn Hstates Hrec Hr. unfold _read_branch_snapshot in Hr. set (b := branch_dir s branch_id) in *.
  destruct (bs_metadata b) as [meta|] eqn:Hmeta; [|done].
  apply outcome_bind_done in Hr as (u1 & Hid%ensure_done%bool_decide_eq_true & Hr). apply outcome_bind_done in Hr as (u2 & _ & Hr).
  apply outcome_bind_done in Hr as (u3 & _ & Hr). apply outcome_bind_done in Hr as (u4 & _ & Hr). cbv zeta in Hr.
  apply outcome_bind_done in Hr as (u5 & Hhead%ensure_done%bool_decide_eq_true & Hr).
  pose proof (log_at_replay _ _ _ _ Hat) as Hrep. pose proof Hn as Hn2. replace patches with (mr_patches (_replay m s)) in Hn2 by by rewrite Hrep.
  destruct (main_heads_lookup _ _ _ _ Hn2 Hhead) as (k & Hk & Hrev & Hbase). rewrite Hrep in Hk, Hbase. cbn [replay_result mr_patches] in Hk, Hbase.
  rewrite Hrev, (Hstates k Hk), <-Hrev in Hr. destruct (_decode_paths (bs_log b)) as [branch_patches df] eqn:Hd.
  destruct (first_failure _ _) as [f|] eqn:Hf; [done|]. rewrite !first_failure_none in Hf. destruct Hf as [[-> Hseq] Hch]. cbn [is_some] in Hseq.
  apply sequence_numbered in Hseq; [|by apply decode_paths_length]. rewrite <-Hid in Hch.
  destruct (tail_is_branch _ _ _ _ meta k b branch_patches _ Hat Hn Hk Hbase eq_refl Hd Hseq Hch) as [Hst Hhealthy].
  set (tail := _replay_branch_tail m _ branch_patches) in *.
  apply outcome_bind_done in Hr as (st & Hw%writable_complete & Hr). rewrite Hst in Hw. specialize (Hhealthy Hw).
  apply outcome_bind_done in Hr as (on_disk & _ & Hr). apply outcome_bind_done in Hr as (by_id1 & Hp & Hr).
  apply outcome_bind_done in Hr as (by_id & Ha & Hr). apply outcome_bind_done in Hr as (u6 & Hex%ensure_done%negb_true_iff & Hr).
  injection Hr as <-.
  assert (∀ p, p ∈ take k patches → (p_revision p ≤ head_revision (gbm_base_head meta))%Z) as Hbr.
  { intros p. eapply base_revisions, bh_base, Hhealthy. }
  pose proof (healthy_branch_replay _ _ _ _ _ _ _ Hhealthy) as Hbrep.
  assert (branch_head_ref meta tail = branch_head_ref meta (_replay_branch m meta b s)) as Hheads.
  { unfold branch_head_ref. rewrite Hst, Hbrep. f_equal. symmetry. by apply transition_all. }
  exists meta. split; [done|]. split; [done|]. fold b. split; [exact Hw|]. split; [by cbn; rewrite Hheads|].
  intros r. cbn [brs_receipts]. rewrite merge_sort_Permutation. intros Hr. rewrite <-Hid in Hrec.
  eapply gathered_valid; [exact Hat|exact Hw|exact Hrec| |exact Hex|exact Hr].
  apply (persisted_gathered _ _ _ _ _ _) in Hp.
  2: { split; [by intros ? ?%elem_of_nil|constructor|by intros ? ?%elem_of_nil]. }
  apply (accepted_gathered _ _ _ [] _ _ _ Ha) in Hp. destruct Hp as [Hval Hun Hmain]. split; [|done|done].
  intros x Hx. specialize (Hval x Hx). rewrite <-Hheads.
  rewrite <-(summary_on_branch meta _ (take k patches) branch_patches tail); [exact Hval|exact Hbr|done|exact Hst|done|by rewrite Hbrep].
Qed.

(** The loop over the branches asked for. *)
Lemma snapshots_loop_done read expected l : snapshots_loop read expected = Done l →
  ∀ branch_id snap, (branch_id, snap) ∈ l → ∃ episode_id project_id, read branch_id episode_id project_id = Done snap.
Proof.
  revert l. induction expected as [|[b [ep pr]] expected IH]; intros l; cbn.
  { intros [= <-] ? ? ?%elem_of_nil. done. }
  intros (sn & Hs & (rest & Hrest & Hl)%outcome_bind_done)%outcome_bind_done. injection Hl as <-.
  intros id snap [[= -> ->]|Hin]%elem_of_cons; [by exists ep, pr|by eapply IH].
Qed.


(** ** Creation *)

Lemma hm_bind_done {A B} (c : HM A) (k : A → HM B) s s1 a : c s = (s1, Done a) → (c ≫= k) s = k a s1.
Proof. unfold mbind, hm_bind. by intros ->. Qed.

Tactic Notation "hm_step" tactic3(t) := etransitivity; [eapply hm_bind_done; t|cbv beta].

(** What a successful creation of a new branch did. *)
Lemma created_run cfg env meta s s' meta' m patches scope :
  log_at s m patches scope → st_branches s !! gbm_branch_id meta = None →
  (env_publication (be_env env) = PublishRaises true CommitPresent → ∀ s, be_refresh env s = s) →
  create_auto_research_branch cfg env meta s = (s', Done meta') →
  meta' = meta ∧ branch_frame (gbm_branch_id meta) s s' ∧ branch_dir s' (gbm_branch_id meta) = set_bs_metadata meta empty_branch ∧
  is_Some (st_branches s' !! gbm_branch_id meta) ∧
  kernel (canonical_branch_id (gbm_branch_id meta)) = Done (gbm_branch_id meta) ∧ _require_parent_identity cfg meta None = Done tt ∧
  gbm_head meta = {| head_target := branch_target (gbm_branch_id meta); head_revision := head_revision (gbm_base_head meta);
                     head_transition_id := head_transition_id (gbm_base_head meta) |} ∧
  gbm_base_head meta = {| head_target := main_target; head_revision := gs_revision (mr_state (replay_result m patches scope));
                          head_transition_id := last_transition patches |}.
Proof.
  intros Hat Hnone Hre Hr. unfold create_auto_research_branch in Hr.
  apply hm_bind_run in Hr as [(e & _ & ?)|(s1 & cid & Hc & Hr)]; [done|]. apply lift_run in Hc as [-> Hc].
  apply hm_bind_run in Hr as [(e & _ & ?)|(s1 & [] & Hp & Hr)]; [done|]. apply lift_run in Hp as [-> Hp].
  apply hm_bind_run in Hr as [(e & _ & ?)|(s1 & u & Hg & Hr)]; [done|]. apply guard_run in Hg as [-> [[Hg%bool_decide_eq_true _]|[_ ?]]]; [|done].
  apply hm_bind_run in Hr as [(e & _ & ?)|(s1 & m1 & Hm & Hr)]; [done|]. apply (reload_run _ _ _ _ _ _ Hat) in Hm as [-> Hm]. injection Hm as ->.
  apply hm_bind_run in Hr as [(e & _ & ?)|(s1 & s0 & Hs & Hr)]; [done|]. injection Hs as <- <-. rewrite Hnone in Hr.
  apply hm_bind_run in Hr as [(e & _ & ?)|(s1 & x & Hx & Hr)]; [done|]. injection Hx as <- <-. rewrite (log_at_replay _ _ _ _ Hat) in Hr.
  apply hm_bind_run in Hr as [(e & _ & ?)|(s1 & st & Hw & Hr)]; [done|]. apply lift_run in Hw as [-> _].
  apply hm_bind_run in Hr as [(e & _ & ?)|(s1 & u1 & Hw & Hr)]; [done|]. apply lift_run in Hw as [-> _].
  apply hm_bind_run in Hr as [(e & _ & ?)|(s1 & base & Hh & Hr)]; [done|]. apply lift_run in Hh as [-> Hh].
  apply hm_bind_run in Hr as [(e & _ & ?)|(s1 & u2 & Hb & Hr)]; [done|]. apply guard_run in Hb as [-> [[Hb%bool_decide_eq_true _]|[_ ?]]]; [|done].
  apply hm_bind_run in Hr as [(e & _ & ?)|(s1 & u3 & Hd & Hr)]; [done|]. pose proof Hd as (_ & Hdir & Hf)%on_branch_run.
  assert (is_Some (st_branches s1 !! gbm_branch_id meta)) as Hsome.
  { injection Hd as <- _. cbn. rewrite lookup_partial_alter_eq. by eexists. }
  assert (branch_dir s (gbm_branch_id meta) = empty_branch) as Hempty by (unfold branch_dir; by rewrite Hnone).
  rewrite Hempty in Hdir.
  assert (cid = gbm_branch_id meta) as ->.
  { symmetry in Hc. apply kernel_done in Hc. unfold canonical_branch_id in Hc. apply res_bind_ok in Hc as (? & _ & Hc). by injection Hc. }
  symmetry in Hh. apply outcome_bind_done in Hh as (u4 & _ & (u5 & _ & Hh)%outcome_bind_done). injection Hh as <-.
  assert (s' = s1 ∧ meta' = meta) as [-> ->].
  { destruct (env_publication (be_env env)) as [|[|] [| |]]; try done; [by injection Hr|].
    apply hm_bind_run in Hr as [(e & _ & ?)|(s2 & u6 & Hm & Hr)]; [done|]. injection Hm as <- _. rewrite (Hre eq_refl) in Hr.
    apply hm_bind_run in Hr as [(e & _ & ?)|(s2 & s3 & Hm & Hr)]; [done|]. injection Hm as <- <-.
    apply hm_bind_run in Hr as [(e & _ & ?)|(s2 & u7 & Hm & Hr)]; [done|]. apply guard_run in Hm as [-> _]. by injection Hr. }
  split_and!; done.
Qed.

(** C25: a new branch is main.  A branch that was created starts from the graph and
    the head of main, replays to them from its own files, leaves main and every
    other branch alone, and is found again, unchanged, when it is created once more;
    where the mirror is refreshed on the way, it is taken to hold what was written. *)
Theorem created_branch_is_main cfg env env' meta s s' meta' m :
  log_ok s → load_manifest (st_document s) = Ok m → numbered 1 (st_log s) (mr_patches (_replay m s)) →
  st_branches s !! gbm_branch_id meta = None →
  (env_publication (be_env env) = PublishRaises true CommitPresent → ∀ s, be_refresh env s = s) →
  create_auto_research_branch cfg env meta s = (s', Done meta') →
  meta' = meta ∧ branch_frame (gbm_branch_id meta) s s' ∧ branch_ok s' meta ∧
  mr_state (_replay_branch m meta (branch_dir s' (gbm_branch_id meta)) s') = mr_state (_replay m s) ∧
  gbm_head meta = branch_head_ref meta (_replay_branch m meta (branch_dir s' (gbm_branch_id meta)) s') ∧
  create_auto_research_branch cfg env' meta s' = (s', Done meta).
Proof.
  intros (m0 & patches & scope & Hat) Hm Hn Hnone Hre Hr. assert (m0 = m) as -> by (destruct Hat; congruence).
  rewrite (log_at_replay _ _ _ _ Hat) in *. cbn [replay_result mr_patches] in Hn.
  destruct (created_run _ _ _ _ _ _ _ _ _ Hat Hnone Hre Hr) as (-> & Hf & Hdir & [b Hb] & Hcid & Hparent & Hhead & Hbase).
  pose proof (hl_complete _ _ _ _ (la_healthy _ _ _ _ Hat)) as Hc.
  pose proof (prefix_revision (replay_manifest m) patches scope (st_log s) (length patches) Hn (le_n _) Hc) as Hrev.
  rewrite firstn_all in Hrev.
  assert (gbm_base_head meta = main_head_at patches (length patches)) as Hbase'.
  { rewrite Hbase. unfold main_head_at, mr_state. cbn [replay_result mr_materialization]. by rewrite Hrev, firstn_all. }
  pose proof (main_is_base _ _ _ _ meta (length patches) Hat Hn (le_n _) Hbase') as Hbh. rewrite firstn_all in Hbh.
  assert (branch_healthy m meta (branch_dir s' (gbm_branch_id meta)) s' patches [] scope) as Hh.
  { replace meta with (with_head meta (gbm_head meta)) at 1 by by destruct meta. destruct Hf.
    eapply (branch_healthy_same m meta _ empty_branch _ s); [by rewrite Hdir|done|done|]. split; try done. rewrite app_nil_r. exact Hc. }
  pose proof (healthy_branch_replay _ _ _ _ _ _ _ Hh) as Hrep. rewrite app_nil_r in Hrep.
  assert (_read_metadata meta (branch_dir s' (gbm_branch_id meta)) = Done meta) as Hread.
  { unfold _read_metadata. rewrite Hdir. cbn. unfold str_eqb. rewrite (bool_decide_eq_true_2 _ eq_refl). cbn.
    rewrite bool_decide_eq_true_2; [done|]. by destruct meta. }
  split_and!; try done.
  - exists m, meta. split; [by rewrite (bf_document _ _ _ Hf)|]. split; [exact Hread|]. rewrite Hrep. exact Hc.
  - by rewrite Hrep.
  - pose proof (healthy_branch_head _ _ _ _ _ _ _ Hh) as Hbr. rewrite app_nil_r in Hbr. rewrite Hrep, Hbr, Hhead, Hbase. done.
  - unfold create_auto_research_branch. hm_step (unfold lift; by rewrite Hcid). hm_step (unfold lift; by rewrite Hparent).
    hm_step (unfold guard_hm, lift; by rewrite (bool_decide_eq_true_2 _ Hhead)).
    hm_step (unfold _reload_manifest; by rewrite (bf_document _ _ _ Hf), Hm). hm_step reflexivity.
    unfold branch_dir in Hread. rewrite Hb in Hread |- *. cbn in Hread. hm_step (unfold lift; by rewrite Hread).
    hm_step (unfold guard_hm, lift; rewrite bool_decide_eq_true_2; [done|by destruct meta]). done.
Qed.
End snapshots.
