(* ===== verification/TaskModels.v ===== *)
(** Tasks and episodes as the store keeps them ([storage/models.py]): the
    statuses, the records with the validators that relate their fields, and the
    text libraries behind the columns that hold JSON.

    A time is an instant in microseconds; a column of JSON text is kept as the
    value it holds, except the receipt of a wrap-up, whose text is signed. *)

From S2P Require Export Authority Manifest Watchers Transactions.
From Stdlib Require Import Ascii.
From coqutil Require Export Datatypes.RecordSettersUsingExistingGetters.

(** ** Tasks *)

Inductive AgentTaskKind :=
  | TaskSeed | TaskRefresh | TaskNodeChat | TaskProjectChat | TaskPaperCoach | TaskAutoResearch
  | TaskBranchMerge | TaskEpisodeReport.
#[export] Instance AgentTaskKind_eq_dec : EqDecision AgentTaskKind.
Proof. solve_decision. Defined.
Definition task_kind_str (k : AgentTaskKind) : string :=
  match k with
  | TaskSeed => "seed" | TaskRefresh => "refresh" | TaskNodeChat => "node_chat" | TaskProjectChat => "project_chat"
  | TaskPaperCoach => "paper_coach" | TaskAutoResearch => "auto_research" | TaskBranchMerge => "branch_merge"
  | TaskEpisodeReport => "episode_report"
  end.

Inductive AgentTaskStatus :=
  | TaskQueued | TaskRunning | TaskPausing | TaskPaused | TaskSucceeded | TaskFailed | TaskInterrupted.
#[export] Instance AgentTaskStatus_eq_dec : EqDecision AgentTaskStatus.
Proof. solve_decision. Defined.
Definition task_status_str (s : AgentTaskStatus) : string :=
  match s with
  | TaskQueued => "queued" | TaskRunning => "running" | TaskPausing => "pausing" | TaskPaused => "paused"
  | TaskSucceeded => "succeeded" | TaskFailed => "failed" | TaskInterrupted => "interrupted"
  end.

Definition ACTIVE_AGENT_TASK_STATUSES : list AgentTaskStatus := [TaskQueued; TaskRunning; TaskPausing].
Definition AWAITING_HUMAN_AGENT_TASK_STATUSES : list AgentTaskStatus := [TaskPaused; TaskFailed; TaskInterrupted].

(** The statuses a task may leave for each status; [queued] is not a key. *)
Definition AGENT_TASK_TRANSITIONS (target : AgentTaskStatus) : list AgentTaskStatus :=
  match target with
  | TaskQueued => []
  | TaskRunning => [TaskQueued]
  | TaskPausing => [TaskQueued; TaskRunning]
  | TaskPaused | TaskSucceeded | TaskFailed | TaskInterrupted => [TaskQueued; TaskRunning; TaskPausing]
  end.

Definition among {A} `{EqDecision A} (x : A) (l : list A) : bool := bool_decide (x ∈ l).

Inductive ReceiptTier := TierSummary | TierDiagnostic | TierTrace.
#[export] Instance ReceiptTier_eq_dec : EqDecision ReceiptTier.
Proof. solve_decision. Defined.

Inductive EventLevel := EventInfo | EventWarning | EventError.
#[export] Instance EventLevel_eq_dec : EqDecision EventLevel.
Proof. solve_decision. Defined.

(** [AgentTaskEventRecord]; an event without a command is a message. *)
Record AgentTaskEventRecord := {
  evr_event_id : Z; evr_operation_id : string; evr_created_at : Z; evr_level : EventLevel; evr_message : string;
  evr_command : option string; evr_episode_id : option string }.
#[export] Instance AgentTaskEventRecord_eq_dec : EqDecision AgentTaskEventRecord.
Proof. solve_decision. Defined.

Record AgentTaskReceiptRecord := {
  rct_receipt_id : Z; rct_operation_id : string; rct_created_at : Z; rct_tier : ReceiptTier; rct_category : string;
  rct_payload : pydict }.
#[export] Instance AgentTaskReceiptRecord_eq_dec : EqDecision AgentTaskReceiptRecord.
Proof. solve_decision. Defined.

#[export] Instance AgentDispatchScope_eq_dec : EqDecision AgentDispatchScope.
Proof. solve_decision. Defined.
#[export] Instance AgentDispatchAuthority_eq_dec : EqDecision AgentDispatchAuthority.
Proof. solve_decision. Defined.

(** The stored columns of a task.  The estimate and the fields the row mapper
    computes ([AGENT_TASK_PROJECTION_FIELDS]) are not columns of the model. *)
Record AgentTaskRecord := {
  task_operation_id : string; task_project_id : string; task_kind : AgentTaskKind; task_status : AgentTaskStatus;
  task_request : pydict; task_created_at : Z; task_updated_at : Z; task_started_at : option Z;
  task_finished_at : option Z; task_status_message : string; task_error : option string;
  task_applied_revision : option Z; task_result : option pydict; task_attempt : Z;
  task_parent_operation_id : option string; task_episode_id : option string; task_runtime_id : string;
  task_native_session_id : option string; task_history_only : bool; task_stage_host : option string;
  task_stage_root : option string; task_graph_target : GraphTargetRef; task_write_scope : option string;
  task_phase : string; task_last_activity_at : option Z; task_authorized_by : option AuthorizedHuman;
  task_authority : option AgentDispatchAuthority; task_visible : bool }.
#[export] Instance AgentTaskRecord_eq_dec : EqDecision AgentTaskRecord.
Proof. solve_decision. Defined.

(** A string the request holds under a key. *)
Definition req_str (t : AgentTaskRecord) (key : string) : option string :=
  match dget (task_request t) key with Some (PStr s) => Some s | _ => None end.
(** An integer that is not a boolean. *)
Definition req_int (t : AgentTaskRecord) (key : string) : option Z :=
  match dget (task_request t) key with Some (PInt n) => Some n | _ => None end.

(** ** Episodes *)

Inductive EpisodeMode := ModeAutoResearch | ModeExperimentLoop.
#[export] Instance EpisodeMode_eq_dec : EqDecision EpisodeMode.
Proof. solve_decision. Defined.
Definition mode_str (m : EpisodeMode) : string :=
  match m with ModeAutoResearch => "auto_research" | ModeExperimentLoop => "experiment_loop" end.

Inductive EpisodeStatus :=
  | EpQueued | EpRunning | EpStopping | EpWrappingUp | EpNeedsAction | EpCompleted | EpStopped | EpFailed.
#[export] Instance EpisodeStatus_eq_dec : EqDecision EpisodeStatus.
Proof. solve_decision. Defined.
Definition episode_status_str (s : EpisodeStatus) : string :=
  match s with
  | EpQueued => "queued" | EpRunning => "running" | EpStopping => "stopping" | EpWrappingUp => "wrapping_up"
  | EpNeedsAction => "needs_action" | EpCompleted => "completed" | EpStopped => "stopped" | EpFailed => "failed"
  end.

Inductive EpisodeEnding := EndCompleted | EndExhausted | EndStopped | EndFailed | EndHumanPause.
#[export] Instance EpisodeEnding_eq_dec : EqDecision EpisodeEnding.
Proof. solve_decision. Defined.
Definition ending_str (e : EpisodeEnding) : string :=
  match e with
  | EndCompleted => "completed" | EndExhausted => "exhausted" | EndStopped => "stopped" | EndFailed => "failed"
  | EndHumanPause => "human_pause"
  end.

Inductive EpisodeWrapupState :=
  | WrapNotStarted | WrapPending | WrapRunning | WrapReady | WrapFailed | WrapSkipped | WrapLegacyUnavailable.
#[export] Instance EpisodeWrapupState_eq_dec : EqDecision EpisodeWrapupState.
Proof. solve_decision. Defined.

Inductive EpisodeReportAttemptStatus := AttemptQueued | AttemptRunning | AttemptSucceeded | AttemptFailed.
#[export] Instance EpisodeReportAttemptStatus_eq_dec : EqDecision EpisodeReportAttemptStatus.
Proof. solve_decision. Defined.

Record EpisodeRecord := {
  epi_episode_id : string; epi_project_id : string; epi_mode : EpisodeMode; epi_control_node_id : option string;
  epi_graph_target : GraphTargetRef; epi_graph_base_head : option GraphHeadRef;
  epi_root_operation_id : option string; epi_status : EpisodeStatus; epi_invocation_ceiling : Z;
  epi_invocations_used : Z; epi_authorized_by : option AuthorizedHuman; epi_stop_requested_at : option Z;
  epi_stop_settled_at : option Z; epi_ending : option EpisodeEnding; epi_ending_diagnostic : option string;
  epi_wrapup_state : EpisodeWrapupState; epi_wrapup_error : option string; epi_report_attempts_used : Z;
  epi_created_at : Z; epi_updated_at : Z; epi_ended_at : option Z }.
#[export] Instance EpisodeRecord_eq_dec : EqDecision EpisodeRecord.
Proof. solve_decision. Defined.

Definition targets_main (t : GraphTargetRef) : bool := bool_decide (tgt_kind t = TargetMain).

(** [EpisodeRecord.lifecycle_is_coherent], with the bounds of its fields. *)
Definition lifecycle_is_coherent (e : EpisodeRecord) : bool :=
  (1 <=? epi_invocation_ceiling e)%Z && (0 <=? epi_invocations_used e)%Z &&
  (0 <=? epi_report_attempts_used e)%Z && (epi_report_attempts_used e <=? 3)%Z &&
  (epi_invocations_used e <=? epi_invocation_ceiling e)%Z &&
  Bool.eqb (bool_decide (epi_ending e = Some EndStopped)) (bool_decide (epi_wrapup_state e = WrapSkipped)) &&
  match epi_mode e with
  | ModeExperimentLoop => truthy_opt (epi_control_node_id e)
  | ModeAutoResearch => negb (is_some (epi_control_node_id e))
  end &&
  (if targets_main (epi_graph_target e) then negb (is_some (epi_graph_base_head e))
   else match epi_graph_base_head e with Some h => targets_main (head_target h) | None => false end &&
        (negb (bool_decide (epi_mode e = ModeAutoResearch)) ||
         bool_decide (tgt_branch_id (epi_graph_target e) = Some (epi_episode_id e)))) &&
  (negb (among (epi_wrapup_state e) [WrapReady; WrapFailed]) || is_some (epi_ending e)).

Definition invocations_remaining (e : EpisodeRecord) : Z :=
  Z.max 0 (epi_invocation_ceiling e - epi_invocations_used e).

Record EpisodeInvocationRecord := {
  inv_episode_id : string; inv_operation_id : string; inv_number : Z; inv_created_at : Z }.
#[export] Instance EpisodeInvocationRecord_eq_dec : EqDecision EpisodeInvocationRecord.
Proof. solve_decision. Defined.

Record EpisodeReportAttemptRecord := {
  rat_attempt_id : string; rat_episode_id : string; rat_number : Z; rat_allocation_operation_id : string;
  rat_status : EpisodeReportAttemptStatus; rat_error : option string; rat_created_at : Z; rat_updated_at : Z;
  rat_finished_at : option Z }.
#[export] Instance EpisodeReportAttemptRecord_eq_dec : EqDecision EpisodeReportAttemptRecord.
Proof. solve_decision. Defined.

Record EpisodeReportRecord := {
  rpt_report_id : string; rpt_episode_id : string; rpt_attempt_id : string; rpt_allocation_operation_id : string;
  rpt_ending : EpisodeEnding; rpt_sha256 : string; rpt_html : string; rpt_created_at : Z }.
#[export] Instance EpisodeReportRecord_eq_dec : EqDecision EpisodeReportRecord.
Proof. solve_decision. Defined.

(** The immutable fields of a wrap-up ([_wrapup_fence_matches]). *)
Record WrapupFence := {
  wf_episode_id : string; wf_ending : option EpisodeEnding; wf_partial : bool;
  wf_concluding_operation_id : option string; wf_allocation_operation_id : option string;
  wf_provider : option string; wf_run_on : option string; wf_execution_host : option string;
  wf_native_session_id : option string; wf_stage_host : option string; wf_stage_root : option string;
  wf_skill_id : option string; wf_skill_version : option string; wf_output_name : option string;
  wf_output_path : option string; wf_receipt_json : string; wf_receipt_sha256 : string; wf_created_at : Z }.
#[export] Instance WrapupFence_eq_dec : EqDecision WrapupFence.
Proof. solve_decision. Defined.

Record EpisodeWrapupRecord := {
  wrap_fence : WrapupFence; wrap_state : EpisodeWrapupState; wrap_diagnostic : option string; wrap_updated_at : Z;
  wrap_finished_at : option Z }.
#[export] Instance EpisodeWrapupRecord_eq_dec : EqDecision EpisodeWrapupRecord.
Proof. solve_decision. Defined.
Definition wrap_ending (w : EpisodeWrapupRecord) : option EpisodeEnding := wf_ending (wrap_fence w).
Definition wrap_allocation (w : EpisodeWrapupRecord) : option string := wf_allocation_operation_id (wrap_fence w).

(** [json], [hashlib] and [uuid.uuid5]: the object a text holds, the compact text of an object
    with sorted keys, the size in bytes of a compact and of an indented text
    ([None]: it has no JSON form), the digest of a text, the UUID of a name, and
    whether [uuid.UUID] reads a text. *)
Class JsonText := {
  json_object : string → option pydict;
  json_compact : pydict → string;
  json_bytes : pydict → option Z;
  json_indented_bytes : pydict → option Z;
  sha256_hex : string → string;
  uuid5_url : string → string;
  parses_uuid : string → bool }.

(** [_plain_html_name]; a suffix starts at the last dot of a name that does not
    begin there, and only ASCII letters fold to those of [.html]. *)
Fixpoint name_has (c : Ascii.ascii) (s : string) : bool :=
  match s with EmptyString => false | String c' s => bool_decide (c = c') || name_has c s end.
Fixpoint last_suffix (s : string) : string :=
  match s with
  | EmptyString => ""
  | String c rest => if bool_decide (c = "."%char) && negb (name_has "."%char rest) then s else last_suffix rest
  end.
Definition path_suffix (name : string) : string :=
  match name with EmptyString => "" | String _ rest => last_suffix rest end.
Definition fold_char (c : Ascii.ascii) : Ascii.ascii :=
  let n := Ascii.nat_of_ascii c in if (65 <=? n) && (n <=? 90) then Ascii.ascii_of_nat (n + 32) else c.
Fixpoint casefold (s : string) : string :=
  match s with EmptyString => "" | String c s => String (fold_char c) (casefold s) end.
Definition _plain_html_name (value : string) : bool :=
  negb (mem value [""; "."; ".."] || name_has "/"%char value || name_has "000"%char value) &&
  str_eqb (casefold (path_suffix value)) ".html".

(** [EpisodeWrapupRecord.restart_fence_is_coherent]. *)
Definition restart_fence_is_coherent `{JsonText} (w : EpisodeWrapupRecord) : bool :=
  let f := wrap_fence w in
  match json_object (wf_receipt_json f) with
  | Some receipt => str_eqb (json_compact receipt) (wf_receipt_json f)
  | None => false
  end &&
  str_eqb (sha256_hex (wf_receipt_json f)) (wf_receipt_sha256 f) &&
  Bool.eqb (bool_decide (wrap_state w = WrapSkipped)) (bool_decide (wf_ending f = Some EndStopped)) &&
  (bool_decide (wrap_state w = WrapLegacyUnavailable) || is_some (wf_ending f)) &&
  match wf_output_name f with Some name => _plain_html_name name | None => true end.

(** [compact_episode_receipt]. *)
Definition compact_episode_receipt `{JsonText} (receipt : pydict) : string * string :=
  (json_compact receipt, sha256_hex (json_compact receipt)).

(** [EpisodeReportRecord.digest_matches_html]. *)
Definition digest_matches_html `{JsonText} (r : EpisodeReportRecord) : bool :=
  str_eqb (sha256_hex (rpt_html r)) (rpt_sha256 r).

(** ** What an Auto-research parent keeps of its children *)

Inductive AutoResearchRole := RoleOrchestrator | RoleWorker.
#[export] Instance AutoResearchRole_eq_dec : EqDecision AutoResearchRole.
Proof. solve_decision. Defined.

Record AutoResearchInvocationRecord := {
  ari_episode_id : string; ari_operation_id : string; ari_allocation_operation_id : string;
  ari_role : AutoResearchRole; ari_actor_operation_id : string; ari_control_node_id : option string;
  ari_created_at : Z }.

(** The route of a worker. *)
Record ChildWork := { cw_episode_id : string; cw_stop_requested_at : option Z }.

Inductive ChildExperimentState := RoutePending | RouteRunning | RouteCancelled | RouteTerminal.
#[export] Instance ChildExperimentState_eq_dec : EqDecision ChildExperimentState.
Proof. solve_decision. Defined.
Record AutoResearchChildExperimentRecord := {
  route_child_episode_id : string; route_parent_episode_id : string; route_project_id : string;
  route_control_node_id : string; route_state : ChildExperimentState; route_terminal_diagnostic : option string;
  route_created_at : Z; route_updated_at : Z }.
#[export] Instance AutoResearchChildExperimentRecord_eq_dec : EqDecision AutoResearchChildExperimentRecord.
Proof. solve_decision. Defined.

Record AutoResearchLifecycleNoticeRecord := {
  not_episode_id : string; not_source_kind : string; not_source_id : string; not_source_event : string;
  not_source_attempt : Z; not_payload : pydict; not_created_at : Z; not_delivered : option (Z * string);
  not_acknowledged : option (Z * string) }.
#[export] Instance AutoResearchLifecycleNoticeRecord_eq_dec : EqDecision AutoResearchLifecycleNoticeRecord.
Proof. solve_decision. Defined.

(** The mode-specific row of an Experiment episode. *)
Record ExperimentEpisodeState := {
  xes_provider : option string; xes_execution_machine : option string; xes_execution_host : string;
  xes_native_session_id : option string; xes_stage_host : option string; xes_stage_root : option string;
  xes_chat_id : option string; xes_last_turn_operation_id : option string; xes_session_diagnostic : option string;
  xes_created_at : Z; xes_updated_at : Z }.
