(* ===== verification/TaskTables.v ===== *)
(** The tables of tasks and episodes, and the rows every transaction on them
    leaves behind: events, receipts and the notices of an Auto-research parent
    ([storage/base.py], [storage/agent_tasks.py],
    [storage/auto_research_children.py]). *)

From stdpp Require Import pretty.
From S2P Require Export TaskModels WatcherStore.

(** ** Tables *)

(** A row of [project_transfer_requests]. *)
Record TransferRow := { tfr_side : string; tfr_project_id : string; tfr_phase : string }.

(** [graph_runs] by operation, with the operations in the order of their rows;
    reports by episode, which is unique; what the code reads of the others. *)
Record TaskDb := {
  td_tasks : gmap string AgentTaskRecord; td_order : list string;
  td_events : list AgentTaskEventRecord; td_event_seq : Z;
  td_receipts : list AgentTaskReceiptRecord; td_receipt_seq : Z;
  td_outputs : gmap string (Z * string);  (* created at, patch_json *)
  td_episodes : gmap string EpisodeRecord; td_invocations : list EpisodeInvocationRecord;
  td_wrapups : gmap string EpisodeWrapupRecord; td_attempts : gmap string EpisodeReportAttemptRecord;
  td_reports : gmap string EpisodeReportRecord; td_loops : gmap string ExperimentEpisodeState;
  td_auto_research : gset string; td_auto_invocations : gmap string AutoResearchInvocationRecord;
  td_child_work : gmap string ChildWork; td_child_work_attempts : gmap string string;
  td_child_experiments : gmap string AutoResearchChildExperimentRecord;
  td_notices : list AutoResearchLifecycleNoticeRecord;
  td_transfers : list TransferRow; td_watchers : gmap string StoredWatcherRecord;
  td_heads : gmap (string * string) GraphHeadRef }.

(** [UPDATE .. WHERE <key> = ..]. *)
Definition update_task (f : AgentTaskRecord → AgentTaskRecord) (operation_id : string) (db : TaskDb) : TaskDb :=
  db <| td_tasks ::= alter f operation_id |>.
Definition update_episode (f : EpisodeRecord → EpisodeRecord) (episode_id : string) (db : TaskDb) : TaskDb :=
  db <| td_episodes ::= alter f episode_id |>.
Definition update_wrapup (f : EpisodeWrapupRecord → EpisodeWrapupRecord) (episode_id : string) (db : TaskDb) : TaskDb :=
  db <| td_wrapups ::= alter f episode_id |>.
Definition update_attempt (f : EpisodeReportAttemptRecord → EpisodeReportAttemptRecord) (attempt_id : string)
    (db : TaskDb) : TaskDb :=
  db <| td_attempts ::= alter f attempt_id |>.

(** [SELECT .. FROM graph_runs WHERE ..], in the order of the rows. *)
Definition tasks_where (P : AgentTaskRecord → bool) (db : TaskDb) : list AgentTaskRecord :=
  bfilter P (omap (λ id, td_tasks db !! id) (td_order db)).

(** [_episode_record]: reading a row validates it. *)
Definition _episode_record (row : EpisodeRecord) : tx EpisodeRecord :=
  _ ← check_that (lifecycle_is_coherent row) StoreValueError; Commit row.
Definition load_episode (db : TaskDb) (episode_id : string) : tx EpisodeRecord :=
  row ← found (td_episodes db !! episode_id) (StoreKeyError episode_id); _episode_record row.
(** [_load_auto_research_episode]. *)
Definition _load_auto_research_episode (db : TaskDb) (episode_id : string) : tx EpisodeRecord :=
  row ← found (td_episodes db !! episode_id) (StoreKeyError episode_id);
  _ ← check_that (bool_decide (epi_mode row = ModeAutoResearch) && bool_decide (episode_id ∈ td_auto_research db))
        (StoreKeyError episode_id);
  _episode_record row.

(** [_require_project_accepts_new_work]. *)
Definition _require_project_accepts_new_work (db : TaskDb) (project_id : string) : tx unit :=
  check_that (negb (existsb (λ r, str_eqb (tfr_side r) "source" && str_eqb (tfr_project_id r) project_id &&
                mem (tfr_phase r) ["source_released"; "source_fenced"; "archive_bound"; "cleanup_acknowledged";
                                   "completed"]) (td_transfers db))) StoreValueError.

(** ** What the watchers see of the tables *)

Definition run_view (t : AgentTaskRecord) : RunRow :=
  {| run_operation_id := task_operation_id t; run_project_id := task_project_id t;
     run_parent_operation_id := task_parent_operation_id t; run_episode_id := task_episode_id t;
     run_target := task_graph_target t; run_kind := task_kind_str (task_kind t);
     run_status := task_status_str (task_status t); run_request := task_request t; run_created_at := task_created_at t;
     run_authorizer := (ah_space_id <$> task_authorized_by t, ah_user_id <$> task_authorized_by t,
                        ah_display_name <$> task_authorized_by t) |}.
Definition episode_view (e : EpisodeRecord) (state : option ExperimentEpisodeState) : EpisodeRow :=
  {| ep_project_id := epi_project_id e; ep_mode := mode_str (epi_mode e); ep_control_node_id := epi_control_node_id e;
     ep_graph_target := epi_graph_target e; ep_status := episode_status_str (epi_status e);
     ep_ending := ending_str <$> epi_ending e; ep_stop_requested_at := epi_stop_requested_at e;
     ep_ended_at := epi_ended_at e; ep_updated_at := epi_updated_at e;
     ep_state := (λ s, {| es_execution_host := xes_execution_host s;
                          es_session_diagnostic := xes_session_diagnostic s; es_updated_at := xes_updated_at s |}) <$> state |}.
(** The tables of [WatcherStore] are these tables, read by fewer columns. *)
Definition watcher_view (db : TaskDb) : WatcherDb :=
  {| db_watchers := td_watchers db; db_heads := td_heads db; db_runs := run_view <$> tasks_where (λ _, true) db;
     db_episodes := map_imap (λ id e, Some (episode_view e (td_loops db !! id))) (td_episodes db) |}.
Definition wake_task (t : AgentTaskRecord) : WakeTask :=
  {| wk_operation_id := task_operation_id t; wk_project_id := task_project_id t;
     wk_parent_operation_id := task_parent_operation_id t; wk_episode_id := task_episode_id t;
     wk_target := task_graph_target t; wk_kind := task_kind_str (task_kind t);
     wk_status := task_status_str (task_status t); wk_request := task_request t; wk_created_at := task_created_at t;
     wk_authorizer := (ah_space_id <$> task_authorized_by t, ah_user_id <$> task_authorized_by t,
                       ah_display_name <$> task_authorized_by t) |}.
Definition chat_overlaps (db : TaskDb) (t : AgentTaskRecord) : bool :=
  _has_active_chat_overlap (watcher_view db) (wake_task t).

(** ** Retention *)

Definition AGENT_TASK_EVENT_RETENTION_COUNT : nat := 200.
Definition AGENT_TASK_RECEIPT_RETENTION_COUNTS (tier : ReceiptTier) : nat :=
  match tier with TierSummary => 64 | TierDiagnostic => 32 | TierTrace => 16 end.
Definition AGENT_TASK_RECEIPT_MAX_BYTES : Z := 8 * 1024.
Definition AGENT_COMMAND_EVENT_MAX_BYTES : Z := 32 * 1024.

Definition count {A} (f : A → bool) (l : list A) : nat := length (bfilter f l).
(** Deletes the first [excess] of the selected rows. *)
Fixpoint delete_first {A} (selected : A → bool) (excess : nat) (l : list A) : list A :=
  match l, excess with
  | x :: l, S n => if selected x then delete_first selected n l else x :: delete_first selected excess l
  | _, _ => l
  end.
(** [DELETE .. WHERE selected AND id NOT IN (the last limit selected)]. *)
Definition keep_last {A} (selected : A → bool) (limit : nat) (l : list A) : list A :=
  delete_first selected (count selected l - limit) l.

Definition is_message_of (operation_id : string) (e : AgentTaskEventRecord) : bool :=
  str_eqb (evr_operation_id e) operation_id && negb (is_some (evr_command e)).

(** [_insert_agent_task_event]. *)
Definition _insert_agent_task_event (db : TaskDb) (operation_id detail : string) (level : EventLevel)
    (created_at : Z) : TaskDb :=
  let db := match td_tasks db !! operation_id with
            | Some t => db <| td_event_seq ::= Z.succ |> <| td_events ::= (.++
                [{| evr_event_id := td_event_seq db; evr_operation_id := operation_id; evr_created_at := created_at;
                    evr_level := level; evr_message := detail; evr_command := None;
                    evr_episode_id := task_episode_id t |}]) |>
            | None => db
            end in
  db <| td_events ::= keep_last (is_message_of operation_id) AGENT_TASK_EVENT_RETENTION_COUNT |>.

(** What a dispatch leaves must stay: its absence is a proof. *)
Definition PROTECTED_CATEGORIES : list string :=
  ["operation_admitted"; "operation_dispatch_attempt"; "operation_dispatch_failed_before_start";
   "operation_dispatch_started"; "operation_dispatch_reset"].
Definition protected (r : AgentTaskReceiptRecord) : bool := mem (rct_category r) PROTECTED_CATEGORIES.
Definition receipt_of (operation_id : string) (tier : ReceiptTier) (r : AgentTaskReceiptRecord) : bool :=
  str_eqb (rct_operation_id r) operation_id && bool_decide (rct_tier r = tier).

Definition protected_of (id : string) (tier : ReceiptTier) (r : AgentTaskReceiptRecord) : bool :=
  receipt_of id tier r && protected r.
Definition ordinary (id : string) (tier : ReceiptTier) (r : AgentTaskReceiptRecord) : bool :=
  receipt_of id tier r && negb (protected r).
(** [_insert_agent_task_receipt]. *)
Definition _insert_agent_task_receipt (db : TaskDb) (operation_id category : string) (payload : pydict)
    (tier : ReceiptTier) (created_at : Z) : TaskDb :=
  let receipts := td_receipts db ++
    [{| rct_receipt_id := td_receipt_seq db; rct_operation_id := operation_id; rct_created_at := created_at;
        rct_tier := tier; rct_category := category; rct_payload := payload |}] in
  let protected_count := count (protected_of operation_id tier) receipts in
  let ordinary_limit := AGENT_TASK_RECEIPT_RETENTION_COUNTS tier - protected_count in
  db <| td_receipt_seq ::= Z.succ |> <| td_receipts := keep_last (ordinary operation_id tier) ordinary_limit receipts |>.

Section text.
Context `{JsonText, TextLib}.

(** [_bounded_receipt_payload]. *)
Definition _bounded_receipt_payload (payload : pydict) : pydict :=
  let keys := PList ((λ k, PStr (String.substring 0 80 k)) <$> take 32 (dkeys payload)) in
  match json_bytes payload with
  | None => [("omitted", PBool true); ("reason", PStr "payload_not_json_serializable"); ("keys", keys)]
  | Some byte_length =>
      if (byte_length <=? AGENT_TASK_RECEIPT_MAX_BYTES)%Z then payload
      else [("omitted", PBool true); ("reason", PStr "payload_exceeded_limit"); ("byte_length", PInt byte_length);
            ("keys", keys)]
  end.

(** [" ".join(text.split())[:2000]]. *)
Definition one_line (text : string) : string := String.substring 0 2000 (join " " (split_words text)).

(** [record_agent_task_event]. *)
Definition record_agent_task_event (db : TaskDb) (operation_id message : string) (level : EventLevel) (now : Z) :
    TaskDb :=
  let detail := one_line message in
  if str_eqb detail "" then db else _insert_agent_task_event db operation_id detail level now.

(** [record_agent_task_receipt]. *)
Definition record_agent_task_receipt (db : TaskDb) (operation_id category : string) (payload : pydict)
    (tier : ReceiptTier) (now : Z) : tx TaskDb :=
  let safe_category := String.substring 0 100 (join " " (split_words category)) in
  if str_eqb safe_category "" then Commit db
  else
    _ ← check_that (negb (mem safe_category ["operation_admitted"; "operation_dispatch_reset"])) StoreValueError;
    Commit (_insert_agent_task_receipt db operation_id safe_category (_bounded_receipt_payload payload) tier now).

(** ** Notices to an Auto-research parent *)

(** [auto_research_inbox_projection], of the harvest of one notice. *)
Definition harvest_result (n : AutoResearchLifecycleNoticeRecord) : pydict :=
  [("action", PStr "harvest"); ("count", PInt 1);
   ("notices", PList [PDict
      [("notice_id", PStr (uuid5_url (String.concat ":"
          ["rcp"; "auto-research-lifecycle"; not_episode_id n; not_source_kind n; not_source_id n; not_source_event n;
           pretty (not_source_attempt n)])));
       ("source_kind", PStr (not_source_kind n)); ("source_id", PStr (not_source_id n));
       ("source_event", PStr (not_source_event n)); ("source_attempt", PInt (not_source_attempt n));
       ("payload", PDict (not_payload n)); ("created_at", PTime (not_created_at n))]])].
Definition HARVESTED : string := "Harvested and acknowledged 1 lifecycle notice(s).".

(** [_auto_research_inbox_effect_fits], of the harvest of one notice. *)
Definition _auto_research_inbox_effect_fits (n : AutoResearchLifecycleNoticeRecord) : bool :=
  let result := PDict (harvest_result n) in
  match json_bytes [("status", PStr "ok"); ("result", result); ("diagnostic", PStr HARVESTED)],
        json_indented_bytes [("version", PInt 1); ("request_id", PStr "00000000000000000000000000000000");
                             ("status", PStr "ok"); ("message", PStr HARVESTED); ("result", result)] with
  | Some exit_bytes, Some response_bytes => (Z.max exit_bytes (response_bytes + 1) <=? AGENT_COMMAND_EVENT_MAX_BYTES)%Z
  | _, _ => false
  end.

(** [_bounded_auto_research_lifecycle_notice]. *)
Definition _bounded_auto_research_lifecycle_notice (n : AutoResearchLifecycleNoticeRecord) :
    tx AutoResearchLifecycleNoticeRecord :=
  if _auto_research_inbox_effect_fits n then Commit n
  else match dget (not_payload n) "diagnostic" with
  | Some (PStr diagnostic) =>
      let payload := dset (dset (not_payload n) "diagnostic" (PStr (String.substring 0 2000 diagnostic)))
                       "diagnostic_truncated" (PBool true) in
      let bounded := n <| not_payload := payload |> in
      if _auto_research_inbox_effect_fits bounded then Commit bounded else Abort StoreValueError
  | _ => Abort StoreValueError
  end.

Definition same_source (n m : AutoResearchLifecycleNoticeRecord) : bool :=
  str_eqb (not_episode_id n) (not_episode_id m) && str_eqb (not_source_kind n) (not_source_kind m) &&
  str_eqb (not_source_id n) (not_source_id m) && str_eqb (not_source_event n) (not_source_event m) &&
  (not_source_attempt n =? not_source_attempt m)%Z.
Definition same_payload (n m : AutoResearchLifecycleNoticeRecord) : bool :=
  py_eqb (PDict (not_payload n)) (PDict (not_payload m)).

(** [_insert_auto_research_lifecycle_notice]. *)
Definition _insert_auto_research_lifecycle_notice (db : TaskDb) (n : AutoResearchLifecycleNoticeRecord) : tx TaskDb :=
  _ ← check_that (negb (is_some (not_delivered n)) && negb (is_some (not_acknowledged n))) StoreValueError;
  _ ← _load_auto_research_episode db (not_episode_id n);
  match find (same_source n) (td_notices db) with
  | Some stored =>
      if same_payload stored n then Commit db
      else match _bounded_auto_research_lifecycle_notice n with
           | Commit bounded => if same_payload stored bounded then Commit db else Abort StoreValueError
           | Abort _ => Abort StoreValueError
           end
  | None =>
      n ← _bounded_auto_research_lifecycle_notice n;
      Commit (db <| td_notices ::= (.++ [n]) |>)
  end.

Fixpoint contains_text (part s : string) : bool :=
  String.prefix part s || match s with EmptyString => false | String _ s => contains_text part s end.

(** [classify_terminal_error]: is it a session limit? *)
Definition is_session_limit (text : string) : bool :=
  let folded := join " " (split_words (casefold text)) in
  existsb (λ marker, contains_text marker folded)
    ["session limit"; "usage limit"; "hit your limit"; "quota exceeded"; "out of credits"; "weighted tokens left"].

(** A receipt that says the session of the task cannot be resumed. *)
Definition session_lost (operation_id : string) (r : AgentTaskReceiptRecord) : bool :=
  str_eqb (rct_operation_id r) operation_id &&
  ((str_eqb (rct_category r) "provider_terminal_error" &&
    bool_decide (dget (rct_payload r) "classification" = Some (PStr "session_limit"))) ||
   (str_eqb (rct_category r) "continuation_context_unavailable" &&
    bool_decide (dget (rct_payload r) "retry_required" = Some (PBool true)))).

(** Where the lifecycle facts of a task go: to the parent of its worker, or to
    the parent of its routed Experiment. *)
Inductive NoticeRoute :=
  | WorkerRoute (worker_id : string) (work : ChildWork)
  | ExperimentRoute (child : AutoResearchChildExperimentRecord).
Definition notice_route (db : TaskDb) (t : AgentTaskRecord) : option NoticeRoute :=
  match worker_id ← td_child_work_attempts db !! task_operation_id t;
        work ← td_child_work db !! worker_id; Some (worker_id, work) with
  | Some (worker_id, work) => Some (WorkerRoute worker_id work)
  | None =>
      child_id ← task_episode_id t; child ← td_child_experiments db !! child_id; _ ← td_episodes db !! child_id;
      if decide (route_state child = RouteRunning) then Some (ExperimentRoute child) else None
  end.

(** What the notice says beside its status. *)
Definition notice_facts (db : TaskDb) (t : AgentTaskRecord) (route : NoticeRoute) (status : AgentTaskStatus)
    (diagnostic : option string) : pydict :=
  let operation_id := task_operation_id t in
  let payload := match route with
    | WorkerRoute worker_id _ =>
        [("kind", PStr "work"); ("worker_id", PStr worker_id); ("operation_id", PStr operation_id);
         ("status", PStr (task_status_str status))]
    | ExperimentRoute child =>
        [("kind", PStr "experiment"); ("episode_id", PStr (route_child_episode_id child));
         ("operation_id", PStr operation_id); ("status", PStr (task_status_str status))]
    end in
  let payload := if truthy_opt diagnostic then dset payload "diagnostic" (PStr (default "" diagnostic)) else payload in
  if negb (among status [TaskPaused; TaskFailed; TaskInterrupted]) then payload
  else
    let unavailable := (negb (bool_decide (status = TaskPaused)) && is_session_limit (default "" diagnostic)) ||
                       existsb (session_lost operation_id) (td_receipts db) in
    let stopped := match route with WorkerRoute _ work => is_some (cw_stop_requested_at work) | _ => false end in
    let resume_available := truthy_opt (task_native_session_id t) && truthy_opt (task_stage_root t) &&
                            negb unavailable && negb stopped in
    let payload := dset payload "resume_available" (PBool resume_available) in
    if resume_available then payload
    else dset payload "replacement_command"
           (PStr match route with WorkerRoute _ _ => "spawn" | _ => "episode --kick-off-experiment" end).

(** [_insert_auto_research_task_lifecycle_notice]. *)
Definition _insert_auto_research_task_lifecycle_notice (db : TaskDb) (operation_id : string)
    (status : AgentTaskStatus) (created_at : Z) (diagnostic : option string) : tx TaskDb :=
  t ← found (td_tasks db !! operation_id) (StoreKeyError operation_id);
  match notice_route db t with
  | None => Commit db
  | Some route =>
      let '(parent, kind, id) := match route with
        | WorkerRoute worker_id work => (cw_episode_id work, "worker", worker_id)
        | ExperimentRoute child => (route_parent_episode_id child, "experiment_task", operation_id)
        end in
      if match route with ExperimentRoute _ => bool_decide (status = TaskSucceeded) | _ => false end then Commit db
      else _insert_auto_research_lifecycle_notice db
        {| not_episode_id := parent; not_source_kind := kind; not_source_id := id;
           not_source_event := task_status_str status; not_source_attempt := Z.max 1 (task_attempt t);
           not_payload := notice_facts db t route status diagnostic; not_created_at := created_at;
           not_delivered := None; not_acknowledged := None |}
  end.

(** The event of [_terminalize_auto_research_child_experiment_with_notice]. *)
Definition ending_event (ending : EpisodeEnding) : string :=
  match ending with
  | EndCompleted => "completed" | EndExhausted => "exhausted" | EndHumanPause => "needs_action"
  | EndFailed => "failed" | EndStopped => "stopped"
  end.

(** [_terminalize_auto_research_child_experiment_with_notice]. *)
Definition _terminalize_child_experiment (db : TaskDb) (child_episode_id : string) (status : EpisodeStatus)
    (ending : EpisodeEnding) (diagnostic : option string) (created_at : Z) : tx TaskDb :=
  match td_child_experiments db !! child_episode_id with
  | None => Commit db
  | Some route =>
      _ ← check_that (among (route_state route) [RouteRunning; RouteTerminal]) StoreValueError;
      let db := if decide (route_state route = RouteRunning)
                then db <| td_child_experiments ::= <[child_episode_id := route <| route_state := RouteTerminal |>
                           <| route_terminal_diagnostic := diagnostic |> <| route_updated_at := created_at |>]> |>
                else db in
      let payload := [("episode_id", PStr child_episode_id); ("status", PStr (episode_status_str status));
                      ("ending", PStr (ending_str ending))] ++
                     (if truthy_opt diagnostic then [("diagnostic", PStr (default "" diagnostic))] else []) in
      _insert_auto_research_lifecycle_notice db
        {| not_episode_id := route_parent_episode_id route; not_source_kind := "experiment_episode";
           not_source_id := child_episode_id; not_source_event := ending_event ending; not_source_attempt := 1;
           not_payload := payload; not_created_at := created_at; not_delivered := None; not_acknowledged := None |}
  end.
End text.
