(* ===== verification/TaskLife.v ===== *)
(** The life of a task ([storage/agent_tasks.py]): the guarded transitions of its
    status, its checkpoints, what a restart of the server does to the tasks it
    finds, and how their outputs, events and receipts age out. *)

From stdpp Require Import pretty.
From S2P Require Export TaskTables.

(** ** Transitions *)

(** [_AgentTaskTransitionResult]. *)
Inductive TransitionResult := TransitionMissing | TransitionRefused (observed : AgentTaskStatus) | TransitionApplied.

(** [_transition_agent_task]. *)
Definition _transition_agent_task (db : TaskDb) (operation_id : string) (target : AgentTaskStatus)
    (assignments : AgentTaskRecord → AgentTaskRecord) : TaskDb * TransitionResult :=
  match td_tasks db !! operation_id with
  | None => (db, TransitionMissing)
  | Some t =>
      if among (task_status t) (AGENT_TASK_TRANSITIONS target)
      then (update_task (λ t, (assignments t) <| task_status := target |>) operation_id db, TransitionApplied)
      else (db, TransitionRefused (task_status t))
  end.

(** [_agent_task_refusal_message]. *)
Definition _agent_task_refusal_message (label : string) (status : AgentTaskStatus) : string :=
  label +:+ " refused: this task already " +:+ task_status_str status +:+ ".".

(** What every guarded operation does with the result of its transition. *)
Definition settle_transition (operation_id label : string) (now : Z) (r : TaskDb * TransitionResult)
    (applied : TaskDb → tx TaskDb) : tx TaskDb :=
  match r with
  | (_, TransitionMissing) => Abort (StoreKeyError operation_id)
  | (db, TransitionRefused observed) =>
      Commit (_insert_agent_task_event db operation_id (_agent_task_refusal_message label observed) EventWarning now)
  | (db, TransitionApplied) => applied db
  end.

(** [mark_agent_task_running]. *)
Definition mark_agent_task_running (db : TaskDb) (operation_id : string) (now : Z) : tx TaskDb :=
  settle_transition operation_id "Start" now
    (_transition_agent_task db operation_id TaskRunning (λ t,
       t <| task_started_at := Some now |> <| task_updated_at := now |> <| task_last_activity_at := Some now |>
         <| task_phase := "preparing" |> <| task_status_message := "Preparing agent task." |>))
    (λ db, Commit (_insert_agent_task_event db operation_id "Preparing agent task." EventInfo now)).

(** [update_agent_task_message]. *)
Definition update_agent_task_message (db : TaskDb) (operation_id message : string) (phase : option string)
    (event : bool) (now : Z) : tx TaskDb :=
  t ← found (td_tasks db !! operation_id) (StoreKeyError operation_id);
  if among (task_status t) [TaskRunning; TaskPausing]
  then let db := update_task (λ t, t <| task_status_message := message |> <| task_updated_at := now |>
                                     <| task_last_activity_at := Some now |>
                                     <| task_phase ::= λ p, default p phase |>) operation_id db in
       Commit (if event then _insert_agent_task_event db operation_id message EventInfo now else db)
  else Commit db.

(** [COALESCE(?, column)]. *)
Definition or_column {A} (value column : option A) : option A := match value with Some _ => value | None => column end.

(** [checkpoint_agent_task]. *)
Definition checkpoint_agent_task (db : TaskDb) (operation_id : string)
    (native_session_id stage_host stage_root : option string) (now : Z) : tx TaskDb :=
  t ← found (td_tasks db !! operation_id) (StoreKeyError operation_id);
  _ ← check_that (negb (is_some native_session_id) || negb (is_some (task_native_session_id t)) ||
                  bool_decide (task_native_session_id t = native_session_id)) StoreValueError;
  Commit (update_task (λ t, t <| task_native_session_id ::= or_column native_session_id |>
                              <| task_stage_host ::= or_column stage_host |>
                              <| task_stage_root ::= or_column stage_root |>
                              <| task_updated_at := now |> <| task_last_activity_at := Some now |>) operation_id db).

(** [require_runtime_id]. *)
Definition require_runtime_id (provider runtime_id : string) : res string :=
  p ← profile_for provider; _ ← require (supports_runtime p runtime_id); Ok runtime_id.

Definition receipts_of (db : TaskDb) (operation_id : string) (categories : list string) : list AgentTaskReceiptRecord :=
  bfilter (λ r, str_eqb (rct_operation_id r) operation_id && mem (rct_category r) categories) (td_receipts db).

Section operations.
Context `{JsonText, TextLib}.

(** [checkpoint_agent_task_runtime]. *)
Definition checkpoint_agent_task_runtime (db : TaskDb) (operation_id provider runtime_id : string) (now : Z) :
    tx TaskDb :=
  _ ← of_res (require_runtime_id provider runtime_id);
  t ← found (td_tasks db !! operation_id) (StoreKeyError operation_id);
  _ ← check_that (get_is (dget (task_request t) "provider") provider) StoreValueError;
  match receipts_of db operation_id ["provider_runtime_selected"] with
  | [] =>
      let db := update_task (λ t, t <| task_runtime_id := runtime_id |> <| task_updated_at := now |>
                                    <| task_last_activity_at := Some now |>) operation_id db in
      Commit (_insert_agent_task_receipt db operation_id "provider_runtime_selected"
                (_bounded_receipt_payload [("provider", PStr provider); ("runtime_id", PStr runtime_id)])
                TierSummary now)
  | [receipt] =>
      _ ← check_that (get_is (dget (rct_payload receipt) "runtime_id") runtime_id) StoreValueError;
      Commit db
  | _ => Abort StoreValueError
  end.

(** The tasks whose saved scope a task inherits: its stage or its session. *)
Definition scope_relative (t : AgentTaskRecord) (host root : string) (r : AgentTaskRecord) : bool :=
  negb (str_eqb (task_operation_id r) (task_operation_id t)) && bool_decide (task_kind r = task_kind t) &&
  is_some (task_write_scope r) &&
  (str_eqb (default "" (task_stage_host r)) host && bool_decide (task_stage_root r = Some root) ||
   truthy_opt (task_native_session_id t) && bool_decide (task_native_session_id r = task_native_session_id t)).

(** [bind_agent_task_write_scope]. *)
Definition bind_agent_task_write_scope (db : TaskDb) (operation_id project_id host root fingerprint : string)
    (now : Z) : tx TaskDb :=
  _ ← check_that (is_sha256 fingerprint) StoreValueError;
  t ← found (td_tasks db !! operation_id) (StoreKeyError operation_id);
  _ ← check_that (str_eqb (task_project_id t) project_id) StoreValueError;
  _ ← check_that (str_eqb (default "" (task_stage_host t)) host && bool_decide (task_stage_root t = Some root))
        StoreValueError;
  _ ← check_that (match task_write_scope t with Some existing => str_eqb existing fingerprint | None => true end)
        StoreValueError;
  _ ← check_that (forallb (λ r, bool_decide (task_write_scope r = Some fingerprint))
                    (tasks_where (scope_relative t host root) db)) StoreValueError;
  Commit (update_task (λ t, t <| task_write_scope := Some fingerprint |> <| task_updated_at := now |>) operation_id db).

(** [clear_agent_task_stage]. *)
Definition clear_agent_task_stage (db : TaskDb) (operation_id : string) (now : Z) : TaskDb :=
  update_task (λ t, t <| task_stage_host := None |> <| task_stage_root := None |> <| task_updated_at := now |>)
    operation_id db.

Inductive PauseRequester := RequestedByHuman | RequestedByShutdown | RequestedByMemberRemoval.
Definition pause_message (requested_by : PauseRequester) : string :=
  match requested_by with
  | RequestedByHuman => "Pause requested by the human."
  | RequestedByShutdown => "Paused for RCP shutdown or reload."
  | RequestedByMemberRemoval => "Pause requested because the authorizing member is being removed."
  end.

(** [request_agent_task_pause]: the only transition that raises when refused. *)
Definition request_agent_task_pause (db : TaskDb) (operation_id : string) (requested_by : PauseRequester) (now : Z) :
    tx TaskDb :=
  match _transition_agent_task db operation_id TaskPausing (λ t,
          t <| task_updated_at := now |> <| task_last_activity_at := Some now |> <| task_phase := "pausing" |>
            <| task_status_message := "Pausing at the current checkpoint." |>) with
  | (_, TransitionMissing) => Abort (StoreKeyError operation_id)
  | (_, TransitionRefused _) => Abort StoreValueError
  | (db, TransitionApplied) =>
      Commit (_insert_agent_task_event db operation_id (pause_message requested_by) EventInfo now)
  end.

Definition PAUSED_MESSAGE : string :=
  "Paused. Resume from the saved agent session, or retry from the beginning.".

(** The three rows a settled task leaves: its event, its receipt, its notice. *)
Definition record_settlement (db : TaskDb) (operation_id message : string) (level : EventLevel) (category : string)
    (payload : pydict) (status : AgentTaskStatus) (diagnostic : option string) (now : Z) : tx TaskDb :=
  let db := _insert_agent_task_event db operation_id message level now in
  let db := _insert_agent_task_receipt db operation_id category (_bounded_receipt_payload payload) TierSummary now in
  _insert_auto_research_task_lifecycle_notice db operation_id status now diagnostic.

(** [pause_agent_task]; [result] is what [_bounded_result_json] kept. *)
Definition pause_agent_task (db : TaskDb) (operation_id : string) (detail : option string) (result : option pydict)
    (now : Z) : tx TaskDb :=
  let detail := or_else detail PAUSED_MESSAGE in
  settle_transition operation_id "Pause" now
    (_transition_agent_task db operation_id TaskPaused (λ t,
       t <| task_updated_at := now |> <| task_finished_at := Some now |> <| task_last_activity_at := Some now |>
         <| task_phase := "paused" |> <| task_status_message := detail |> <| task_error := None |>
         <| task_result ::= or_column result |>))
    (λ db, record_settlement db operation_id detail EventWarning "operation_paused" [("status", PStr "paused")]
             TaskPaused (Some detail) now).

(** The graph update a result reports: its own, or the last of its list. *)
Definition result_graph_update (result : pydict) : option pydict :=
  match dget result "graph_update" with
  | Some (PDict d) => Some d
  | _ => match dget result "graph_updates" with
         | Some (PList updates) => last (omap (λ v, match v with PDict d => Some d | _ => None end) updates)
         | _ => None
         end
  end.

(** [complete_agent_task]. *)
Definition complete_agent_task (db : TaskDb) (operation_id : string) (applied_revision : option Z) (result : pydict)
    (now : Z) : tx TaskDb :=
  let graph_update := result_graph_update result in
  let status_of d := dget d "status" in
  let graph_rejected := get_is (graph_update ≫= status_of) "rejected" in
  let message := match applied_revision with
    | Some revision => "Project graph updated to revision " +:+ pretty revision +:+ "."
    | None => if graph_rejected then "Operational work completed, but its graph update was rejected."
              else "Agent task completed."
    end in
  let payload := [("status", PStr "succeeded")] ++
    (match applied_revision with Some revision => [("applied_revision", PInt revision)] | None => [] end) ++
    (match graph_update with
     | Some d => [("graph_update_status",
                   PStr match status_of d with Some v => if py_truthy v then py_str v else "none" | None => "none" end)]
     | None => []
     end) in
  settle_transition operation_id "Completion" now
    (_transition_agent_task db operation_id TaskSucceeded (λ t,
       t <| task_updated_at := now |> <| task_finished_at := Some now |>
         <| task_status_message := if graph_rejected then "Completed; graph update rejected."
                                   else "Agent task completed." |>
         <| task_error := None |> <| task_applied_revision := applied_revision |> <| task_result := Some result |>
         <| task_phase := "complete" |> <| task_last_activity_at := Some now |>))
    (λ db, let db := if graph_rejected then db else db <| td_outputs ::= delete operation_id |> in
           record_settlement db operation_id message EventInfo "operation_completed" payload TaskSucceeded None now).

(** [fail_agent_task]; [interrupted] chooses between its two statuses. *)
Definition fail_agent_task (db : TaskDb) (operation_id error : string) (interrupted : bool) (result : option pydict)
    (now : Z) : tx TaskDb :=
  let detail := or_else (Some (one_line error)) "The background agent task failed." in
  let status := if interrupted then TaskInterrupted else TaskFailed in
  settle_transition operation_id (if interrupted then "Interruption" else "Failure") now
    (_transition_agent_task db operation_id status (λ t,
       t <| task_updated_at := now |> <| task_finished_at := Some now |> <| task_status_message := detail |>
         <| task_error := Some detail |> <| task_phase := task_status_str status |>
         <| task_last_activity_at := Some now |> <| task_result ::= or_column result |>))
    (λ db, record_settlement db operation_id detail EventError "operation_failed"
             [("status", PStr (task_status_str status)); ("error_length", PInt (Z.of_nat (String.length detail)))]
             status (Some detail) now).

(** ** Admission and dispatch, as receipts *)

Definition CONTINUATION_CAUSES : list string :=
  ["fresh"; "resume"; "retry"; "handoff"; "graph_repair"; "watcher_wake"; "graph_condition_wake"; "message_wake";
   "lifecycle_wake"; "auto_research_continuation"; "episode_report"].

(** [_validated_agent_task_admission_payload]. *)
Definition _validated_agent_task_admission_payload (payload : pydict) (legacy : bool) : bool :=
  let keys := if legacy
    then ["kind"; "attempt"; "has_parent"; "continuation_cause"; "resumed"; "admission_committed"]
    else ["kind"; "attempt"; "parent_operation_id"; "continuation_cause"; "admission_committed"] in
  bool_decide ((list_to_set (dkeys payload) : gset string) = list_to_set keys) &&
  match dget payload "kind" with Some (PStr kind) => truthy kind | _ => false end &&
  match dget payload "attempt" with Some (PInt n) => (1 <=? n)%Z | _ => false end &&
  get_in (dget payload "continuation_cause") CONTINUATION_CAUSES &&
  bool_decide (dget payload "admission_committed" = Some (PBool true)) &&
  if legacy
  then match dget payload "has_parent", dget payload "resumed" with Some (PBool _), Some (PBool _) => true | _, _ => false end
  else match dget payload "parent_operation_id" with
       | Some PNone => true | Some (PStr s) => truthy s | _ => false
       end.

(** Whether an intent is about the task: [agent_task_admission_intent]'s last check. *)
Definition intent_matches (intent : pydict) (t : AgentTaskRecord) : bool :=
  get_is (dget intent "kind") (task_kind_str (task_kind t)) &&
  bool_decide (dget intent "attempt" = Some (PInt (task_attempt t))) &&
  match dget intent "parent_operation_id" with
  | Some parent => bool_decide (parent = py_opt_str (task_parent_operation_id t)) | None => true
  end &&
  match dget intent "has_parent" with
  | Some parent => bool_decide (parent = PBool (is_some (task_parent_operation_id t))) | None => true
  end.

(** [agent_task_admission_intent]; the [ValueError] of a malformed, repeated or
    foreign intent is an [Abort]. *)
Definition agent_task_admission_intent (db : TaskDb) (operation_id : string) : tx (option pydict) :=
  let payloads category := rct_payload <$> receipts_of db operation_id [category] in
  intent ← match payloads "operation_admitted" with
    | [payload] =>
        _ ← check_that (_validated_agent_task_admission_payload payload false) StoreValueError; Commit (Some payload)
    | _ :: _ :: _ => Abort StoreValueError
    | [] =>
        let committed := bfilter (λ payload, bool_decide (dget payload "admission_committed" = Some (PBool true)))
                           (payloads "operation_created") in
        _ ← check_that (forallb (λ payload, _validated_agent_task_admission_payload payload true) committed)
              StoreValueError;
        _ ← check_that (length committed <=? 1) StoreValueError;
        Commit (head committed)
    end;
  match intent with
  | None => Commit None
  | Some intent =>
      _ ← check_that (match td_tasks db !! operation_id with Some t => intent_matches intent t | None => false end)
            StoreValueError;
      Commit (Some intent)
  end.

(** [_dispatch_attempt_id]. *)
Definition _dispatch_attempt_id (payload : pydict) : option string :=
  match dget payload "dispatch_attempt_id" with
  | Some (PStr id) => if is_blank id then None else Some id
  | _ => None
  end.

(** A receipt no older than every one of the others. *)
Definition newer_than (r : AgentTaskReceiptRecord) (other : option AgentTaskReceiptRecord) : bool :=
  match other with Some o => (rct_receipt_id o <? rct_receipt_id r)%Z | None => true end.

(** [agent_task_dispatch_was_proven_not_started]. *)
Definition agent_task_dispatch_was_proven_not_started (db : TaskDb) (operation_id : string) : bool :=
  match agent_task_admission_intent db operation_id with
  | Abort _ | Commit None => false
  | Commit (Some admission_intent) =>
      if negb (bool_decide (task_status <$> td_tasks db !! operation_id = Some TaskQueued)) then false
      else
        let latest_attempt := last (receipts_of db operation_id ["operation_dispatch_attempt"]) in
        let latest_outcome := last (receipts_of db operation_id
              ["operation_dispatch_failed_before_start"; "operation_dispatch_started"]) in
        let latest_reset := last (receipts_of db operation_id ["operation_dispatch_reset"]) in
        if match latest_reset with
           | Some reset => newer_than reset latest_attempt && newer_than reset latest_outcome | None => false
           end then true
        else match latest_attempt, latest_outcome with
        | None, Some _ => false
        | None, None => dmem admission_intent "parent_operation_id"
        | Some _, None => false
        | Some attempt, Some outcome =>
            match _dispatch_attempt_id (rct_payload attempt), _dispatch_attempt_id (rct_payload outcome) with
            | Some attempt_id, Some outcome_id =>
                str_eqb (rct_category outcome) "operation_dispatch_failed_before_start" && str_eqb outcome_id attempt_id
            | _, _ => false
            end
        end
  end.

(** ** Restart *)

Definition RESTART_DETAIL : string :=
  "RCP restarted before this operation finished. Resume from its saved session when available, or retry from the beginning.".

Definition interrupt_row (detail : string) (finished : option Z → option Z) (now : Z) (t : AgentTaskRecord) : AgentTaskRecord :=
  t <| task_status := TaskInterrupted |> <| task_updated_at := now |> <| task_finished_at ::= finished |>
    <| task_status_message := detail |> <| task_error := Some detail |> <| task_phase := "interrupted" |>
    <| task_last_activity_at := Some now |>.

(** [UPDATE graph_runs SET status = 'interrupted', .. WHERE operation_id IN (ids)]. *)
Definition interrupt_rows (detail : string) (finished : option Z → option Z) (now : Z) (ids : list string)
    (db : TaskDb) : TaskDb :=
  db <| td_tasks ::= fmap (λ t, if mem (task_operation_id t) ids then interrupt_row detail finished now t else t) |>.

(** [interrupt_active_agent_tasks]. *)
Definition interrupt_active_agent_tasks (db : TaskDb) (preserve_operation_ids : gset string) (now : Z) : tx TaskDb :=
  let preserved := bfilter (agent_task_dispatch_was_proven_not_started db) (sorted_set preserve_operation_ids) in
  let interrupted := task_operation_id <$> tasks_where (λ t,
        among (task_status t) (AGENT_TASK_TRANSITIONS TaskInterrupted) && negb (mem (task_operation_id t) preserved)) db in
  let db := interrupt_rows RESTART_DETAIL (λ _, Some now) now interrupted db in
  tx_fold (λ db operation_id,
      db ← _insert_auto_research_task_lifecycle_notice db operation_id TaskInterrupted now (Some RESTART_DETAIL);
      let db := _insert_agent_task_event db operation_id RESTART_DETAIL EventWarning now in
      Commit (_insert_agent_task_receipt db operation_id "operation_interrupted"
        (_bounded_receipt_payload [("status", PStr "interrupted"); ("reason", PStr "process_restart")]) TierSummary now))
    db interrupted.

(** ** Ageing out *)

Definition PATCH_OUTPUT_RETENTION_DAYS : Z := 7.
Definition RUN_TRACE_RETENTION_DAYS : Z := 90.
Definition DAY : Z := 24 * 60 * 60 * 1000000.

(** [operation_id NOT IN (SELECT .. WHERE status IN ('queued', 'running', 'pausing'))]. *)
Definition inactive (db : TaskDb) (operation_id : string) : bool :=
  match td_tasks db !! operation_id with
  | Some t => negb (among (task_status t) [TaskQueued; TaskRunning; TaskPausing]) | None => true
  end.
Definition aged_event (db : TaskDb) (cutoff : Z) (e : AgentTaskEventRecord) : bool :=
  negb (is_some (evr_command e)) && (evr_created_at e <? cutoff)%Z && inactive db (evr_operation_id e).
Definition aged_receipt (db : TaskDb) (cutoff : Z) (r : AgentTaskReceiptRecord) : bool :=
  (rct_created_at r <? cutoff)%Z && negb (bool_decide (rct_tier r = TierSummary)) && inactive db (rct_operation_id r).

(** [prune_operational_storage], on the outputs, events and receipts; the result
    views and writing sessions it also ages out are not among the tables. *)
Definition prune_operational_storage (db : TaskDb) (now : Z) : TaskDb :=
  let patch_cutoff := (now - PATCH_OUTPUT_RETENTION_DAYS * DAY)%Z in
  let cutoff := (now - RUN_TRACE_RETENTION_DAYS * DAY)%Z in
  db <| td_outputs ::= filter (λ o, negb ((o.2.1 <? patch_cutoff)%Z && inactive db o.1) = true) |>
     <| td_events ::= bfilter (λ e, negb (aged_event db cutoff e)) |>
     <| td_receipts ::= bfilter (λ r, negb (aged_receipt db cutoff r)) |>.

(** ** Tasks that become history *)

Definition task_settled (t : AgentTaskRecord) : bool := among (task_status t) [TaskSucceeded; TaskFailed; TaskInterrupted].

(** A task that stays live and shares the native session of a selected one. *)
Definition shares_session (db : TaskDb) (selected : list string) (t : AgentTaskRecord) : bool :=
  negb (task_history_only t) && negb (mem (task_operation_id t) selected) &&
  match task_native_session_id t with
  | Some session => existsb (λ s, bool_decide (task_native_session_id s = Some session))
                      (tasks_where (λ s, mem (task_operation_id s) selected) db)
  | None => false
  end.

(** [detach_agent_tasks_for_history], on the tasks; the writing and chat sessions
    it deletes are not among the tables. *)
Definition detach_agent_tasks_for_history (db : TaskDb) (operation_ids : list string) : tx TaskDb :=
  let selected := stable_dedup ∅ operation_ids in
  if is_nil selected then Commit db
  else
    _ ← check_that (forallb truthy selected) StoreValueError;
    _ ← match bfilter (λ id, negb (is_some (td_tasks db !! id))) (py_sorted selected) with
        | missing :: _ => Abort (StoreKeyError missing) | [] => Commit tt
        end;
    _ ← check_that (forallb task_settled (tasks_where (λ t, mem (task_operation_id t) selected) db)) StoreValueError;
    _ ← check_that (is_nil (tasks_where (shares_session db selected) db)) StoreValueError;
    Commit (db <| td_tasks ::= fmap (λ t, if mem (task_operation_id t) selected then t <| task_history_only := true |> else t) |>).

(** [detach_agent_tasks_for_restore]. *)
Definition detach_agent_tasks_for_restore (db : TaskDb) (diagnostic : string) (now : Z) : tx TaskDb :=
  let detail := one_line diagnostic in
  _ ← check_that (truthy detail) StoreValueError;
  let all := task_operation_id <$> tasks_where (λ _, true) db in
  let interrupted := py_sorted (task_operation_id <$> tasks_where (λ t, negb (task_settled t)) db) in
  let db := interrupt_rows detail (coalesce now) now interrupted db in
  let db := foldl (λ db operation_id,
      let db := _insert_agent_task_event db operation_id detail EventWarning now in
      _insert_agent_task_receipt db operation_id "operation_interrupted"
        (_bounded_receipt_payload [("status", PStr "interrupted"); ("reason", PStr "restore")]) TierSummary now)
    db interrupted in
  detach_agent_tasks_for_history db (py_sorted all).
End operations.
