(* ===== verification/TaskAdmission.v ===== *)
(** Admission of a task ([storage/agent_tasks.py], [storage/experiments.py]): the
    checks that bind a new row of [graph_runs] to its conversation, its parent,
    its episode and its authority, and the transactions that insert one. *)

From S2P Require Export TaskLife.

Section admission.
Context `{JsonText, TextLib}.

(** ** The request *)

(** [_contains_legacy_lineage_key]. *)
Fixpoint _contains_legacy_lineage_key (v : pyval) : bool :=
  match v with
  | PDict d => dmem d "campaign_id" || existsb (λ kv, _contains_legacy_lineage_key kv.2) d
  | PList l => existsb _contains_legacy_lineage_key l
  | _ => false
  end.

(** The strings of [sorted(set(request.get(key) or ()))]. *)
Definition request_scope (t : AgentTaskRecord) : tx (list string) :=
  match dget (task_request t) "run_truth_scope" with
  | None => Commit []
  | Some v =>
      if negb (py_truthy v) then Commit []
      else items ← of_res (py_iter v);
           names ← tx_map (λ i, match i with PStr s => Commit s | _ => Abort StoreValueError end) items;
           Commit (sorted_set (list_to_set names))
  end.

Definition role_of (v : option pyval) : tx AutoResearchRole :=
  if get_is v "orchestrator" then Commit RoleOrchestrator
  else if get_is v "worker" then Commit RoleWorker else Abort StoreValueError.

(** ** Authority *)

(** The authority the server owns for an Auto-research task. *)
Definition auto_research_authority (role : AutoResearchRole) (scope : list string) (episode_id : string) :
    AgentDispatchAuthority :=
  {| ada_profile := match role with RoleOrchestrator => Orchestrator | RoleWorker => Ordinary end;
     ada_task_contract := match role with RoleOrchestrator => Orchestrate | RoleWorker => WorkAuto end;
     ada_scope := {| ads_run_truth_scope := scope; ads_episode_id := Some episode_id; ads_chat_scope := None;
                     ads_chat_id := None; ads_node_id := None; ads_patch_kind := Some KWork;
                     ads_control_node_id := None; ads_control_episode_id := None |} |}.

(** A task of the episode with its Auto-research invocation. *)
Definition auto_research_run (db : TaskDb) (episode_id operation_id : string) :
    option (AgentTaskRecord * AutoResearchInvocationRecord) :=
  run ← td_tasks db !! operation_id; invocation ← td_auto_invocations db !! operation_id;
  if decide (task_episode_id run = Some episode_id) then Some (run, invocation) else None.

(** A continuation of an Auto-research actor: of [_validate_dispatch_authority_insert]. *)
Definition validate_auto_research_continuation (db : TaskDb) (t : AgentTaskRecord) (episode_id parent_id actor : string)
    (role : AutoResearchRole) : tx unit :=
  parent ← found (auto_research_run db episode_id parent_id) StoreValueError;
  _ ← check_that (str_eqb (task_project_id parent.1) (task_project_id t) &&
                  bool_decide (task_kind parent.1 = task_kind t)) StoreValueError;
  if str_eqb actor (task_operation_id t) then
    _ ← check_that (bool_decide (role = RoleWorker) && bool_decide (ari_role parent.2 = RoleOrchestrator)) StoreValueError;
    authority ← found (task_authority parent.1) StoreValueError;
    check_that (bool_decide (ada_profile authority = Orchestrator) &&
                bool_decide (ada_task_contract authority = Orchestrate) &&
                match task_authority t with
                | Some own => bool_decide (ads_episode_id (ada_scope own) = ads_episode_id (ada_scope authority)) &&
                              bool_decide (ads_run_truth_scope (ada_scope own) = ads_run_truth_scope (ada_scope authority))
                | None => false
                end) StoreValueError
  else
    origin ← found (auto_research_run db episode_id actor) StoreValueError;
    _ ← check_that (bool_decide (ari_role origin.2 = role)) StoreValueError;
    match task_authority origin.1 with
    | Some authority => check_that (bool_decide (task_authority t = Some authority)) StoreValueError
    | None => check_that ((task_attempt t =? task_attempt parent.1 + 1)%Z &&
                          str_eqb (ari_actor_operation_id parent.2) actor &&
                          negb (is_some (task_authority parent.1))) StoreValueError
    end.

(** The Auto-research case of [_validate_dispatch_authority_insert]. *)
Definition validate_auto_research_authority (db : TaskDb) (t : AgentTaskRecord) : tx unit :=
  episode_id ← found (task_episode_id t) StoreValueError;
  _ ← check_that (bool_decide (episode_id ∈ td_auto_research db)) StoreValueError;
  role ← role_of (dget (task_request t) "role");
  raw_actor ← found (req_str t "actor_operation_id") StoreValueError;
  let actor := strip raw_actor in
  _ ← check_that (truthy actor) StoreValueError;
  scope ← request_scope t;
  let expected := auto_research_authority role scope episode_id in
  _ ← check_that (require_normalized_scope (ada_scope expected)) StoreValueError;
  _ ← of_res (require_dispatch expected);
  _ ← check_that (bool_decide (task_authority t = Some expected)) StoreValueError;
  match task_parent_operation_id t with
  | None => check_that (bool_decide (role = RoleOrchestrator) && str_eqb actor (task_operation_id t)) StoreValueError
  | Some parent_id => validate_auto_research_continuation db t episode_id parent_id actor role
  end.

(** [_validate_dispatch_authority_insert]. *)
Definition _validate_dispatch_authority_insert (db : TaskDb) (t : AgentTaskRecord) : tx unit :=
  match task_kind t with
  | TaskEpisodeReport =>
      episode_id ← found (task_episode_id t) StoreValueError;
      parent_id ← found (task_parent_operation_id t) StoreValueError;
      _ ← check_that (negb (is_some (task_authority t))) StoreValueError;
      parent ← found (td_tasks db !! parent_id) StoreValueError;
      check_that (bool_decide (task_episode_id parent = Some episode_id) && task_visible parent &&
                  negb (bool_decide (task_kind parent = TaskEpisodeReport)) &&
                  str_eqb (task_project_id parent) (task_project_id t)) StoreValueError
  | TaskAutoResearch => validate_auto_research_authority db t
  | _ =>
      match task_parent_operation_id t with
      | None => Commit tt
      | Some parent_id =>
          parent ← found (td_tasks db !! parent_id) StoreValueError;
          _ ← check_that (str_eqb (task_project_id parent) (task_project_id t) &&
                          bool_decide (task_kind parent = task_kind t)) StoreValueError;
          match task_authority parent with
          | None => Commit tt
          | Some authority => check_that (bool_decide (task_authority t = Some authority)) StoreValueError
          end
      end
  end.

(** ** The conversation *)

Definition is_chat (k : AgentTaskKind) : bool := among k [TaskNodeChat; TaskProjectChat].
Definition in_chat (t : AgentTaskRecord) (chat_id : string) (r : AgentTaskRecord) : bool :=
  str_eqb (task_project_id r) (task_project_id t) && bool_decide (task_kind r = task_kind t) &&
  get_is (dget (task_request r) "chat_id") chat_id.

(** The request names completed watchers: [trigger] and [watcher_ids]. *)
Definition waking_watchers (t : AgentTaskRecord) : option (list string) :=
  if negb (get_is (dget (task_request t) "trigger") "watcher") then None
  else match dget (task_request t) "watcher_ids" with
  | Some (PList (_ :: _ as items)) =>
      mapM (λ i, match i with PStr s => if truthy s then Some s else None | _ => None end) items
  | _ => None
  end.

(** The stage of a task: the host and the root of its scratch directory. *)
Definition saved_stage (r : AgentTaskRecord) : option (string * string) :=
  match task_stage_root r with
  | Some root => if truthy root then Some (default "" (task_stage_host r), root) else None
  | None => None
  end.

Definition origin_kind_str (k : OriginTaskKind) : string :=
  match k with OriginNodeChat => "node_chat" | OriginProjectChat => "project_chat" | OriginAutoResearch => "auto_research" end.

(** The stages of the tasks the woken watchers come from. *)
Definition watcher_stages (db : TaskDb) (t : AgentTaskRecord) (chat_id : string) (ids : list string) :
    list (string * string) :=
  omap (λ w, let b := w_binding w in
      run ← td_tasks db !! wb_origin_operation_id b;
      if str_eqb (wb_project_id b) (task_project_id t) &&
         str_eqb (origin_kind_str (wb_origin_task_kind b)) (task_kind_str (task_kind t)) &&
         str_eqb (wb_chat_id b) chat_id then saved_stage run else None)
    (rows (named ids) (watcher_view db)).

(** The workspaces saved for the conversation, when it may continue in one. *)
Definition saved_bindings (db : TaskDb) (t : AgentTaskRecord) (chat_id : string) : tx (list (string * string)) :=
  let session := default "" (req_str t "session_id") in
  if truthy session then
    let same := tasks_where (λ r, str_eqb (task_project_id r) (task_project_id t) &&
          bool_decide (task_kind r = task_kind t) && bool_decide (task_native_session_id r = Some session)) db in
    _ ← check_that (forallb (λ r, bool_decide (task_graph_target r = task_graph_target t) &&
          get_is (dget (task_request r) "chat_id") chat_id) same) StoreValueError;
    Commit (omap saved_stage same)
  else match waking_watchers t with Some ids => Commit (watcher_stages db t chat_id ids) | None => Commit [] end.

(** [_bind_chat_stage]: the record with the stage it inherits. *)
Definition _bind_chat_stage (db : TaskDb) (t : AgentTaskRecord) : tx AgentTaskRecord :=
  let chat_id := default "" (req_str t "chat_id") in
  if negb (is_chat (task_kind t)) || is_some (task_stage_root t) || negb (truthy chat_id) then Commit t
  else
    _ ← check_that (forallb (λ r, bool_decide (task_graph_target r = task_graph_target t))
                      (tasks_where (in_chat t chat_id) db)) StoreValueError;
    bindings ← saved_bindings db t chat_id;
    match bindings with
    | [] => Commit t
    | (host, root) :: others =>
        _ ← check_that (forallb (λ b, bool_decide (b = (host, root))) others) StoreValueError;
        Commit (t <| task_stage_host := if truthy host then Some host else None |> <| task_stage_root := Some root |>)
    end.

(** ** The graph target *)

(** [_validate_graph_target_insert]. *)
Definition _validate_graph_target_insert (db : TaskDb) (t : AgentTaskRecord) : tx unit :=
  _ ← match task_episode_id t with
      | None => check_that (targets_main (task_graph_target t)) StoreValueError
      | Some episode_id =>
          episode ← found (td_episodes db !! episode_id) StoreValueError;
          check_that (str_eqb (epi_project_id episode) (task_project_id t) &&
                      bool_decide (epi_graph_target episode = task_graph_target t)) StoreValueError
      end;
  match task_parent_operation_id t ≫= λ id, td_tasks db !! id with
  | None => Commit tt
  | Some parent => check_that (bool_decide (task_graph_target parent = task_graph_target t)) StoreValueError
  end.

(** ** Experiment loops *)

Definition _EXPERIMENT_EPISODE_PINNED_FIELDS : list string :=
  ["run_on"; "run_truth_scope"; "chat_id"; "control_node_id"; "control_revision"; "control_episode_id";
   "control_invocation_ceiling"; "control_decision_bundle"; "control_completion_criteria"].

(** [_experiment_pinned_value]. *)
Definition _experiment_pinned_value (request : pydict) (field : string) : pyval :=
  match dget request field with
  | Some (PList items) =>
      if str_eqb field "run_truth_scope" then py_strs (sorted_set (list_to_set (py_str <$> items))) else PList items
  | Some v => v
  | None => PNone
  end.
Definition same_pins (fields : list string) (a b : pydict) : bool :=
  forallb (λ f, py_eqb (_experiment_pinned_value a f) (_experiment_pinned_value b f)) fields.

(** A task of the loop of a control node. *)
Definition loop_task (project_id node_id : string) (r : AgentTaskRecord) : bool :=
  str_eqb (task_project_id r) project_id && get_is (dget (task_request r) "patch_kind") "experiment_loop" &&
  get_is (dget (task_request r) "control_node_id") node_id.
Definition is_root_task (r : AgentTaskRecord) : bool := negb (is_some (task_parent_operation_id r)).
(** [ORDER BY created_at DESC, rowid DESC LIMIT 1]. *)
Definition newest_task (l : list AgentTaskRecord) : option AgentTaskRecord :=
  fold_left (λ best r, match best with
                       | Some b => if (task_created_at r <? task_created_at b)%Z then Some b else Some r
                       | None => Some r
                       end) l None.
(** [ORDER BY invocation DESC, attempt DESC, created_at DESC, rowid DESC LIMIT 1]. *)
Definition attempt_before (a b : AgentTaskRecord) : bool :=
  let n r := default 0%Z (req_int r "control_invocation") in
  (n a <? n b)%Z || (n a =? n b)%Z &&
  ((task_attempt a <? task_attempt b)%Z || (task_attempt a =? task_attempt b)%Z &&
   (task_created_at a <? task_created_at b)%Z).
Definition latest_attempt_of (l : list AgentTaskRecord) : option AgentTaskRecord :=
  fold_left (λ best r, match best with
                       | Some b => if attempt_before r b then Some b else Some r
                       | None => Some r
                       end) l None.

(** [_validate_current_experiment_graph_repair]. *)
Definition _validate_current_experiment_graph_repair (db : TaskDb) (project_id node_id episode_id : string)
    (invocation : Z) (operation_id : string) : tx unit :=
  newest_root ← found (newest_task (tasks_where (λ r, loop_task project_id node_id r && is_root_task r) db))
    StoreValueError;
  _ ← check_that (get_is (dget (task_request newest_root) "control_episode_id") episode_id) StoreValueError;
  _ ← check_that (match td_episodes db !! episode_id with
                  | Some e => negb (bool_decide (epi_mode e = ModeExperimentLoop) && is_some (epi_stop_requested_at e))
                  | None => true
                  end) StoreValueError;
  latest ← found (latest_attempt_of (tasks_where (λ r, loop_task project_id node_id r &&
                    get_is (dget (task_request r) "control_episode_id") episode_id) db)) StoreValueError;
  check_that (bool_decide (req_int latest "control_invocation" = Some invocation) &&
              str_eqb (task_operation_id latest) operation_id) StoreValueError.

(** [_validate_experiment_recovery_claim]. *)
Definition _validate_experiment_recovery_claim (db : TaskDb) (t parent : AgentTaskRecord) : tx unit :=
  let parent_id := task_operation_id parent in
  let node_id := default "" (req_str parent "control_node_id") in
  _ ← check_that (is_nil (receipts_of db parent_id ["experiment_recovery_abandoned"])) StoreValueError;
  _ ← check_that (among (task_status parent) [TaskPaused; TaskInterrupted; TaskFailed]) StoreValueError;
  _ ← check_that (task_attempt t =? task_attempt parent + 1)%Z StoreValueError;
  _ ← check_that (is_nil (tasks_where (λ r, bool_decide (task_parent_operation_id r = Some parent_id)) db))
        StoreValueError;
  newest_root ← found (newest_task (tasks_where (λ r, loop_task (task_project_id t) node_id r && is_root_task r) db))
    StoreValueError;
  let value (r : AgentTaskRecord) key := default PNone (dget (task_request r) key) in
  let same (r : AgentTaskRecord) key := py_eqb (value r key) (value parent key) in
  _ ← check_that (same newest_root "control_episode_id" && same newest_root "control_invocation") StoreValueError;
  check_that (is_nil (tasks_where (λ r, loop_task (task_project_id t) node_id r &&
      same r "control_episode_id" && same r "control_invocation" && (task_attempt parent <? task_attempt r)%Z) db)) StoreValueError.

(** [_validate_experiment_wake_binding]. *)
Definition _validate_experiment_wake_binding (db : TaskDb) (t : AgentTaskRecord) (episode_id : string) : tx unit :=
  session ← found (req_str t "session_id") StoreValueError;
  _ ← check_that (truthy session) StoreValueError;
  _ ← check_that (bool_decide (task_native_session_id t = Some session) && truthy_opt (task_stage_root t)) StoreValueError;
  episode ← found (td_episodes db !! episode_id) StoreValueError;
  state ← found (td_loops db !! episode_id) StoreValueError;
  _ ← check_that (bool_decide (epi_mode episode = ModeExperimentLoop) && negb (is_some (epi_stop_requested_at episode)))
        StoreValueError;
  binding ← found (xes_last_turn_operation_id state ≫= λ id, td_tasks db !! id) StoreValueError;
  let value (r : AgentTaskRecord) key := default PNone (dget (task_request r) key) in
  let asks key (column : option string) := py_eqb (value t key) (py_opt_str column) in
  let same key := py_eqb (value t key) (value binding key) in
  check_that (str_eqb (epi_project_id episode) (task_project_id t) &&
              asks "control_node_id" (epi_control_node_id episode) && asks "provider" (xes_provider state) &&
              asks "run_on" (xes_execution_machine state) && asks "chat_id" (xes_chat_id state) &&
              bool_decide (xes_native_session_id state = Some session) &&
              str_eqb (default "" (xes_stage_host state)) (default "" (task_stage_host t)) &&
              bool_decide (xes_stage_root state = task_stage_root t) && same "model" && same "reasoning" &&
              str_eqb (xes_execution_host state) (default "" (task_stage_host t))) StoreValueError.

(** What a loop task pins: the fields of its request, checked. *)
Record LoopPins := { lp_node_id : string; lp_episode_id : string; lp_invocation : Z }.
Definition loop_pins (t : AgentTaskRecord) : tx LoopPins :=
  node_id ← found (req_str t "control_node_id") StoreValueError;
  _ ← check_that (truthy node_id) StoreValueError;
  _ ← found (req_int t "control_revision") StoreValueError;
  _ ← check_that (match dget (task_request t) "control_decision_bundle" with Some (PList _) => true | _ => false end)
        StoreValueError;
  _ ← check_that (match dget (task_request t) "control_completion_criteria" with
                  | Some (PList items) => forallb is_str items | _ => false end) StoreValueError;
  episode_id ← found (req_str t "control_episode_id") StoreValueError;
  _ ← check_that (parses_uuid episode_id) StoreValueError;
  _ ← check_that (bool_decide (task_episode_id t = Some episode_id)) StoreValueError;
  invocation ← found (req_int t "control_invocation") StoreValueError;
  _ ← check_that (1 <=? invocation)%Z StoreValueError;
  ceiling ← found (req_int t "control_invocation_ceiling") StoreValueError;
  _ ← check_that ((1 <=? ceiling)%Z && (invocation <=? ceiling)%Z) StoreValueError;
  Commit {| lp_node_id := node_id; lp_episode_id := episode_id; lp_invocation := invocation |}.

(** A patch-only repair of a turn whose graph update was rejected and claimed. *)
Definition is_patch_repair (t parent : AgentTaskRecord) : bool :=
  match dget (task_request t) "message" with Some PNone | None => true | _ => false end &&
  bool_decide (task_status parent = TaskSucceeded) &&
  match task_result parent ≫= λ r, dget r "graph_update" with
  | Some (PDict update) => get_is (dget update "status") "rejected" &&
                           bool_decide (dget update "repairable" = Some (PBool false))
  | _ => false
  end.

(** The recovery half of [_validate_experiment_task_insert]. *)
Definition validate_loop_recovery (db : TaskDb) (t : AgentTaskRecord) (pins : LoopPins) (parent_id : string) : tx unit :=
  parent ← found (td_tasks db !! parent_id) StoreValueError;
  _ ← check_that (str_eqb (task_project_id parent) (task_project_id t) && bool_decide (task_kind parent = task_kind t))
        StoreValueError;
  _ ← check_that (same_pins (_EXPERIMENT_EPISODE_PINNED_FIELDS ++ ["control_invocation"]) (task_request parent)
                    (task_request t)) StoreValueError;
  if is_patch_repair t parent
  then _validate_current_experiment_graph_repair db (task_project_id t) (lp_node_id pins) (lp_episode_id pins)
         (lp_invocation pins) parent_id
  else _validate_experiment_recovery_claim db t parent.

(** The root tasks of the episode of a loop task. *)
Definition loop_root_of (project_id node_id episode_id : string) (r : AgentTaskRecord) : bool :=
  loop_task project_id node_id r && is_root_task r && get_is (dget (task_request r) "control_episode_id") episode_id.
Definition loop_roots (db : TaskDb) (project_id node_id episode_id : string) : list AgentTaskRecord :=
  tasks_where (loop_root_of project_id node_id episode_id) db.

(** The root half of [_validate_experiment_task_insert]. *)
Definition validate_loop_root (db : TaskDb) (t : AgentTaskRecord) (pins : LoopPins) : tx unit :=
  let trigger := dget (task_request t) "trigger" in
  _ ← check_that (get_in trigger ["experiment_run"; "orchestrator"; "watcher"]) StoreValueError;
  _ ← check_that (negb (get_is trigger "orchestrator") ||
                  match td_child_experiments db !! lp_episode_id pins with
                  | Some route => str_eqb (route_project_id route) (task_project_id t) &&
                                  str_eqb (route_control_node_id route) (lp_node_id pins) &&
                                  bool_decide (route_state route = RouteRunning)
                  | None => false
                  end) StoreValueError;
  let prior := loop_roots db (task_project_id t) (lp_node_id pins) (lp_episode_id pins) in
  _ ← check_that (forallb (λ r, same_pins _EXPERIMENT_EPISODE_PINNED_FIELDS (task_request r) (task_request t)) prior)
        StoreValueError;
  invocations ← tx_map (λ r, found (req_int r "control_invocation") StoreValueError) prior;
  let expected := (foldr Z.max 0 invocations + 1)%Z in
  _ ← check_that (lp_invocation pins =? expected)%Z StoreValueError;
  _ ← check_that (negb ((lp_invocation pins =? 1)%Z && negb (is_nil prior))) StoreValueError;
  _ ← check_that (negb (get_in trigger ["experiment_run"; "orchestrator"]) || (lp_invocation pins =? 1)%Z)
        StoreValueError;
  if get_is trigger "watcher"
  then _ ← check_that (negb (is_nil prior)) StoreValueError;
       _validate_experiment_wake_binding db t (lp_episode_id pins)
  else Commit tt.

(** [_validate_experiment_task_insert]. *)
Definition _validate_experiment_task_insert (db : TaskDb) (t : AgentTaskRecord) : tx unit :=
  if negb (get_is (dget (task_request t) "patch_kind") "experiment_loop") then Commit tt
  else
    pins ← loop_pins t;
    if truthy_opt (task_parent_operation_id t)
    then validate_loop_recovery db t pins (default "" (task_parent_operation_id t))
    else validate_loop_root db t pins.

(** ** Insertion *)

(** [INSERT INTO graph_runs], with its primary key and the index that keeps one
    merge of a branch active. *)
Definition insert_task_row (db : TaskDb) (t : AgentTaskRecord) : tx TaskDb :=
  let active_merge r := bool_decide (task_kind r = TaskBranchMerge) && among (task_status r) ACTIVE_AGENT_TASK_STATUSES in
  _ ← check_that (negb (is_some (td_tasks db !! task_operation_id t))) StoreIntegrityError;
  _ ← check_that (negb (active_merge t && is_some (task_episode_id t)) ||
                  is_nil (tasks_where (λ r, active_merge r && bool_decide (task_episode_id r = task_episode_id t)) db))
        StoreIntegrityError;
  Commit (db <| td_tasks ::= <[task_operation_id t := t]> |> <| td_order ::= (.++ [task_operation_id t]) |>).

(** [_insert_agent_task]; the result of the record is already bounded. *)
Definition _insert_agent_task (db : TaskDb) (t : AgentTaskRecord) (continuation_cause : string) : tx TaskDb :=
  _ ← check_that (mem continuation_cause CONTINUATION_CAUSES) StoreValueError;
  _ ← check_that (negb (_contains_legacy_lineage_key (PDict (task_request t)))) StoreValueError;
  _ ← _validate_dispatch_authority_insert db t;
  t ← _bind_chat_stage db t;
  _ ← _validate_experiment_task_insert db t;
  _ ← _validate_graph_target_insert db t;
  db ← insert_task_row db t;
  Commit (_insert_agent_task_receipt db (task_operation_id t) "operation_admitted"
    (_bounded_receipt_payload
       [("kind", PStr (task_kind_str (task_kind t))); ("attempt", PInt (task_attempt t));
        ("parent_operation_id", py_opt_str (task_parent_operation_id t)); ("continuation_cause", PStr continuation_cause);
        ("admission_committed", PBool true)]) TierSummary (task_created_at t)).

(** [create_agent_task]. *)
Definition create_agent_task (db : TaskDb) (t : AgentTaskRecord) (continuation_cause : string) : tx TaskDb :=
  _ ← check_that (negb (bool_decide (task_kind t = TaskEpisodeReport))) StoreValueError;
  _ ← check_that (negb (is_some (task_episode_id t))) StoreValueError;
  _ ← (if str_eqb continuation_cause "fresh" then _require_project_accepts_new_work db (task_project_id t) else Commit tt);
  _ ← check_that (negb (chat_overlaps db t)) StoreValueError;
  integrity_as_value_error (_insert_agent_task db t continuation_cause).

(** A stored task as the row mapper reads it: retired fields of the request are
    dropped, and a historical task shows no session ([_agent_task_record]). *)
Definition read_task (t : AgentTaskRecord) : AgentTaskRecord :=
  let t := if decide (task_kind t = TaskAutoResearch) then t <| task_request ::= λ d, ddel d "ending" |> else t in
  if task_history_only t then t <| task_native_session_id := None |> else t.

(** The authority of a human-dispatched merge. *)
Definition merge_authority_ok (t : AgentTaskRecord) : bool :=
  match task_authority t with
  | Some a => bool_decide (ada_profile a = Orchestrator) && bool_decide (ada_task_contract a = Orchestrate) &&
              bool_decide (ads_episode_id (ada_scope a) = task_episode_id t) &&
              bool_decide (ads_patch_kind (ada_scope a) = Some KWork) && is_ok (require_dispatch a)
  | None => false
  end.

(** [create_branch_merge_task], after the branch was found quiescent. *)
Definition create_branch_merge_task (db : TaskDb) (t : AgentTaskRecord) : tx TaskDb :=
  _ ← check_that (bool_decide (task_kind t = TaskBranchMerge) && is_some (task_episode_id t) &&
                  bool_decide (task_status t = TaskQueued) && task_visible t && is_root_task t &&
                  is_some (task_authorized_by t) && negb (targets_main (task_graph_target t))) StoreValueError;
  _ ← check_that (merge_authority_ok t) StoreValueError;
  match td_tasks db !! task_operation_id t with
  | Some stored => _ ← check_that (bool_decide (read_task stored = t)) StoreValueError; Commit db
  | None =>
      _ ← _require_project_accepts_new_work db (task_project_id t);
      episode ← load_episode db (default "" (task_episode_id t));
      _ ← check_that (bool_decide (epi_mode episode = ModeAutoResearch) &&
                      str_eqb (epi_project_id episode) (task_project_id t) &&
                      bool_decide (epi_graph_target episode = task_graph_target t) && is_some (epi_ending episode) &&
                      among (epi_status episode) [EpNeedsAction; EpCompleted; EpStopped; EpFailed]) StoreValueError;
      _ ← check_that (is_nil (tasks_where (λ r, str_eqb (task_project_id r) (task_project_id t) &&
                        bool_decide (task_graph_target r = task_graph_target t) &&
                        negb (among (task_kind r) [TaskBranchMerge; TaskEpisodeReport]) &&
                        among (task_status r) [TaskQueued; TaskRunning; TaskPausing; TaskPaused]) db)) StoreValueError;
      integrity_as_value_error (_insert_agent_task db t "fresh")
  end.
End admission.
