(* ===== verification/Episodes.v ===== *)
(** The ledger of episodes ([storage/episodes.py]): one bounded parent, the
    invocations it spends, its ending, and the report that closes it.  A record
    passed as an argument is a validated instance of its model. *)

From S2P Require Export TaskAdmission.

Definition _LIVE_EPISODE_STATUSES : list EpisodeStatus := [EpQueued; EpRunning; EpStopping; EpWrappingUp].
Definition _REPORT_ATTEMPT_LIMIT : Z := 3.

Definition is_live (e : EpisodeRecord) : bool := among (epi_status e) _LIVE_EPISODE_STATUSES.

(** [_status_for_ending]; no ending is no valid ending. *)
Definition _status_for_ending (ending : EpisodeEnding) : EpisodeStatus :=
  match ending with
  | EndCompleted => EpCompleted | EndExhausted | EndHumanPause => EpNeedsAction | EndFailed => EpFailed
  | EndStopped => EpStopped
  end.

(** Where an episode competes: [_live_episode_row], and the two unique indexes. *)
Definition same_owner (a b : EpisodeRecord) : bool :=
  str_eqb (epi_project_id a) (epi_project_id b) && bool_decide (epi_mode a = epi_mode b) &&
  (bool_decide (epi_mode b = ModeAutoResearch) || bool_decide (epi_control_node_id a = epi_control_node_id b)).
Definition episodes_where (P : EpisodeRecord → bool) (db : TaskDb) : list EpisodeRecord :=
  bfilter P ((map_to_list (td_episodes db)).*2).
Definition _live_episode_row (db : TaskDb) (e : EpisodeRecord) : option EpisodeRecord :=
  head (episodes_where (λ r, same_owner r e && is_live r) db).

(** ** Rows *)

(** [_insert_episode], with the keys and checks of its table. *)
Definition _insert_episode (db : TaskDb) (e : EpisodeRecord) : tx TaskDb :=
  _ ← check_that (negb (is_some (td_episodes db !! epi_episode_id e)) &&
                  negb (is_live e && is_some (_live_episode_row db e)) &&
                  (1 <=? epi_invocation_ceiling e)%Z && (0 <=? epi_invocations_used e)%Z &&
                  (epi_invocations_used e <=? epi_invocation_ceiling e)%Z &&
                  (0 <=? epi_report_attempts_used e)%Z && (epi_report_attempts_used e <=? 3)%Z) StoreIntegrityError;
  Commit (db <| td_episodes ::= <[epi_episode_id e := e]> |>).

(** [INSERT INTO episode_invocations]. *)
Definition insert_invocation (db : TaskDb) (i : EpisodeInvocationRecord) : tx TaskDb :=
  _ ← check_that (forallb (λ j, negb (str_eqb (inv_operation_id j) (inv_operation_id i)) &&
                    negb (str_eqb (inv_episode_id j) (inv_episode_id i) && (inv_number j =? inv_number i)%Z))
                    (td_invocations db) && (1 <=? inv_number i)%Z) StoreIntegrityError;
  Commit (db <| td_invocations ::= (.++ [i]) |>).
Definition invocations_of (db : TaskDb) (episode_id : string) : list EpisodeInvocationRecord :=
  bfilter (λ i, str_eqb (inv_episode_id i) episode_id) (td_invocations db).
(** [ORDER BY invocation_number DESC LIMIT 1]. *)
Definition concluding_operation (db : TaskDb) (episode_id : string) : option string :=
  inv_operation_id <$> fold_left (λ best i, match best with
    | Some b => if (inv_number i <? inv_number b)%Z then Some b else Some i
    | None => Some i
    end) (invocations_of db episode_id) None.

(** [_insert_episode_wrapup]. *)
Definition _insert_episode_wrapup (db : TaskDb) (w : EpisodeWrapupRecord) : tx TaskDb :=
  let id := wf_episode_id (wrap_fence w) in
  _ ← check_that (negb (is_some (td_wrapups db !! id)) &&
                  forallb (λ v, negb (is_some (wrap_allocation w) && bool_decide (wrap_allocation v = wrap_allocation w)))
                    ((map_to_list (td_wrapups db)).*2)) StoreIntegrityError;
  Commit (db <| td_wrapups ::= <[id := w]> |>).

Definition attempts_where (P : EpisodeReportAttemptRecord → bool) (db : TaskDb) : list EpisodeReportAttemptRecord :=
  bfilter P ((map_to_list (td_attempts db)).*2).
Definition is_open (a : EpisodeReportAttemptRecord) : bool := among (rat_status a) [AttemptQueued; AttemptRunning].
(** The open attempt of an episode with the highest number. *)
Definition current_attempt (db : TaskDb) (episode_id : string) : option EpisodeReportAttemptRecord :=
  fold_left (λ best a, match best with
    | Some b => if (rat_number a <? rat_number b)%Z then Some b else Some a
    | None => Some a
    end) (attempts_where (λ a, str_eqb (rat_episode_id a) episode_id && is_open a) db) None.

(** [INSERT INTO episode_report_attempts]. *)
Definition insert_attempt (db : TaskDb) (a : EpisodeReportAttemptRecord) : tx TaskDb :=
  _ ← check_that (negb (is_some (td_attempts db !! rat_attempt_id a)) &&
                  is_nil (attempts_where (λ b, str_eqb (rat_episode_id b) (rat_episode_id a) &&
                                               (rat_number b =? rat_number a)%Z) db) &&
                  (1 <=? rat_number a)%Z && (rat_number a <=? 3)%Z) StoreIntegrityError;
  Commit (db <| td_attempts ::= <[rat_attempt_id a := a]> |>).
Definition finish_attempt (status : EpisodeReportAttemptStatus) (error : option string) (now : Z)
    (a : EpisodeReportAttemptRecord) : EpisodeReportAttemptRecord :=
  a <| rat_status := status |> <| rat_error := error |> <| rat_updated_at := now |> <| rat_finished_at := Some now |>.

(** The row of an episode whose report is settled. *)
Definition settle_episode (status : EpisodeStatus) (state : EpisodeWrapupState) (error : option string) (now : Z)
    (e : EpisodeRecord) : EpisodeRecord :=
  e <| epi_status := status |> <| epi_wrapup_state := state |> <| epi_wrapup_error := error |>
    <| epi_updated_at := now |> <| epi_ended_at ::= coalesce now |>.
(** The row of an episode whose Stop is settled. *)
Definition stop_episode (diagnostic : option string) (now : Z) (e : EpisodeRecord) : EpisodeRecord :=
  settle_episode EpStopped WrapSkipped None now
    (e <| epi_stop_requested_at ::= coalesce now |> <| epi_stop_settled_at ::= coalesce now |>
       <| epi_ending := Some EndStopped |> <| epi_ending_diagnostic := diagnostic |>).
Definition settle_wrapup (state : EpisodeWrapupState) (diagnostic : option string) (now : Z)
    (w : EpisodeWrapupRecord) : EpisodeWrapupRecord :=
  w <| wrap_state := state |> <| wrap_diagnostic := diagnostic |> <| wrap_updated_at := now |>
    <| wrap_finished_at := Some now |>.
(** The hidden report task, failed with its episode. *)
Definition fail_allocation (diagnostic : string) (finished : option Z → option Z) (now : Z) (t : AgentTaskRecord) :
    AgentTaskRecord :=
  t <| task_status := TaskFailed |> <| task_status_message := diagnostic |> <| task_error := Some diagnostic |>
    <| task_updated_at := now |> <| task_finished_at ::= finished |> <| task_phase := "failed" |>.

Section ledger.
Context `{JsonText, TextLib}.

(** [_episode_wrapup_record]. *)
Definition _episode_wrapup_record (w : EpisodeWrapupRecord) : tx EpisodeWrapupRecord :=
  _ ← check_that (restart_fence_is_coherent w) StoreValueError; Commit w.

(** ** Creation *)

(** [_validate_new_episode]. *)
Definition _validate_new_episode (e : EpisodeRecord) : bool :=
  is_some (epi_authorized_by e) &&
  negb (bool_decide (epi_mode e = ModeAutoResearch) && targets_main (epi_graph_target e)) &&
  bool_decide (epi_status e = EpQueued) && negb (is_some (epi_root_operation_id e)) &&
  (epi_invocations_used e =? 0)%Z && negb (is_some (epi_ending e)) &&
  bool_decide (epi_wrapup_state e = WrapNotStarted) && (epi_report_attempts_used e =? 0)%Z &&
  negb (is_some (epi_stop_requested_at e)) && negb (is_some (epi_stop_settled_at e)) && negb (is_some (epi_ended_at e)).

(** [create_episode]. *)
Definition create_episode (db : TaskDb) (e : EpisodeRecord) : tx TaskDb :=
  _ ← check_that (lifecycle_is_coherent e && _validate_new_episode e) StoreValueError;
  _ ← _require_project_accepts_new_work db (epi_project_id e);
  _ ← check_that (negb (is_some (_live_episode_row db e))) StoreValueError;
  integrity_as_value_error (_insert_episode db e).

(** The parent as its first invocation leaves it. *)
Definition started_episode (e : EpisodeRecord) (root : AgentTaskRecord) : EpisodeRecord :=
  e <| epi_root_operation_id := Some (task_operation_id root) |> <| epi_status := EpRunning |>
    <| epi_invocations_used := 1%Z |> <| epi_updated_at := task_created_at root |>.

(** [_created_episode_pair_matches]. *)
Definition _created_episode_pair_matches (db : TaskDb) (stored e : EpisodeRecord) (root : AgentTaskRecord) : bool :=
  bool_decide (stored = started_episode e root) &&
  match find (λ i, str_eqb (inv_episode_id i) (epi_episode_id e) && (inv_number i =? 1)%Z) (td_invocations db) with
  | Some i => str_eqb (inv_operation_id i) (task_operation_id root) && (inv_created_at i =? task_created_at root)%Z
  | None => false
  end &&
  match td_tasks db !! task_operation_id root with
  | Some t => bool_decide (read_task t = root)
  | None => false
  end.

(** [create_episode_with_invocation]. *)
Definition create_episode_with_invocation (db : TaskDb) (e : EpisodeRecord) (root : AgentTaskRecord) : tx TaskDb :=
  _ ← check_that (lifecycle_is_coherent e && _validate_new_episode e) StoreValueError;
  _ ← check_that (negb (bool_decide (epi_mode e = ModeAutoResearch))) StoreValueError;
  _ ← check_that (bool_decide (task_episode_id root = Some (epi_episode_id e)) &&
                  str_eqb (task_project_id root) (epi_project_id e) &&
                  bool_decide (task_graph_target root = epi_graph_target e) &&
                  negb (bool_decide (task_kind root = TaskEpisodeReport)) &&
                  bool_decide (task_status root = TaskQueued) && task_visible root && is_root_task root) StoreValueError;
  match td_episodes db !! epi_episode_id e with
  | Some row =>
      stored ← _episode_record row;
      _ ← check_that (_created_episode_pair_matches db stored e root) EpisodeReportConflict;
      Commit db
  | None =>
      _ ← _require_project_accepts_new_work db (epi_project_id e);
      _ ← check_that (negb (is_some (_live_episode_row db e))) StoreValueError;
      db ← _insert_episode db (started_episode e root);
      db ← _insert_agent_task db root "fresh";
      insert_invocation db {| inv_episode_id := epi_episode_id e; inv_operation_id := task_operation_id root;
                              inv_number := 1; inv_created_at := task_created_at root |}
  end.

(** ** Stop and ending *)

(** [request_episode_stop]. *)
Definition request_episode_stop (db : TaskDb) (episode_id : string) (now : Z) : tx TaskDb :=
  e ← load_episode db episode_id;
  if bool_decide (epi_ending e = Some EndStopped) && bool_decide (epi_wrapup_state e = WrapSkipped) then Commit db
  else
    _ ← check_that (among (epi_status e) [EpQueued; EpRunning; EpStopping]) EpisodeNotRunning;
    _ ← check_that (negb (is_some (td_wrapups db !! episode_id))) EpisodeNotRunning;
    if is_some (epi_stop_requested_at e) then Commit db
    else Commit (update_episode (λ e, e <| epi_status := EpStopping |> <| epi_stop_requested_at := Some now |>
                                        <| epi_updated_at := now |>) episode_id db).

(** [fence_episode_ending]. *)
Definition fence_episode_ending (db : TaskDb) (episode_id : string) (ending : EpisodeEnding)
    (diagnostic : option string) (now : Z) : tx TaskDb :=
  _ ← check_that (negb (bool_decide (ending = EndStopped))) StoreValueError;
  e ← load_episode db episode_id;
  match epi_ending e with
  | Some fenced =>
      _ ← check_that (bool_decide (fenced = ending) && bool_decide (epi_ending_diagnostic e = diagnostic))
            EpisodeReportConflict;
      Commit db
  | None =>
      _ ← check_that (negb (is_some (epi_stop_requested_at e) || bool_decide (epi_status e = EpStopping)))
            EpisodeNotRunning;
      _ ← check_that (among (epi_status e) [EpQueued; EpRunning]) EpisodeNotRunning;
      Commit (update_episode (λ e, e <| epi_status := EpWrappingUp |> <| epi_ending := Some ending |>
                <| epi_ending_diagnostic := diagnostic |> <| epi_updated_at := now |>) episode_id db)
  end.

(** ** Invocations *)

(** [allocate_episode_invocation]. *)
Definition allocate_episode_invocation (db : TaskDb) (episode_id : string) (t : AgentTaskRecord)
    (continuation_cause : string) (now : Z) : tx TaskDb :=
  _ ← check_that (negb (bool_decide (task_kind t = TaskEpisodeReport)) && task_visible t) StoreValueError;
  _ ← check_that (bool_decide (task_episode_id t = Some episode_id)) StoreValueError;
  match find (λ i, str_eqb (inv_operation_id i) (task_operation_id t)) (td_invocations db) with
  | Some existing =>
      _ ← check_that (str_eqb (inv_episode_id existing) episode_id) StoreValueError;
      _ ← check_that (is_some (td_tasks db !! task_operation_id t)) StoreRuntimeError;
      Commit db
  | None =>
      e ← load_episode db episode_id;
      _ ← check_that (negb (bool_decide (epi_mode e = ModeAutoResearch))) StoreValueError;
      _ ← check_that (among (epi_status e) [EpQueued; EpRunning]) EpisodeNotRunning;
      _ ← check_that (epi_invocations_used e <? epi_invocation_ceiling e)%Z EpisodeInvocationCeilingReached;
      _ ← check_that (str_eqb (task_project_id t) (epi_project_id e)) StoreValueError;
      db ← _insert_agent_task db t continuation_cause;
      let number := (epi_invocations_used e + 1)%Z in
      db ← insert_invocation db {| inv_episode_id := episode_id; inv_operation_id := task_operation_id t;
                                   inv_number := number; inv_created_at := task_created_at t |};
      Commit (update_episode (λ e, e <| epi_root_operation_id ::= coalesce (task_operation_id t) |>
                <| epi_status := EpRunning |> <| epi_invocations_used := number |> <| epi_updated_at := now |>)
                episode_id db)
  end.

(** ** Wrap-up *)

(** The query for the task a report continues. *)
Definition concluding_is_visible (db : TaskDb) (episode_id operation_id : string) : bool :=
  match td_tasks db !! operation_id with
  | Some t => bool_decide (task_episode_id t = Some episode_id) && task_visible t &&
              negb (bool_decide (task_kind t = TaskEpisodeReport))
  | None => false
  end.
Definition conclusion_ok (db : TaskDb) (episode_id : string) (w : EpisodeWrapupRecord) : bool :=
  match wf_concluding_operation_id (wrap_fence w) with
  | Some operation_id => concluding_is_visible db episode_id operation_id | None => true
  end.

(** [_validate_new_wrapup]. *)
Definition _validate_new_wrapup (episode_id : string) (w : EpisodeWrapupRecord) (t : AgentTaskRecord) : bool :=
  let f := wrap_fence w in
  let frozen key (column : option string) := py_eqb (default PNone (dget (task_request t) key)) (py_opt_str column) in
  str_eqb (wf_episode_id f) episode_id && negb (bool_decide (wf_ending f = Some EndStopped)) &&
  bool_decide (wrap_state w = WrapPending) && negb (is_some (wrap_finished_at w)) &&
  truthy_opt (wf_allocation_operation_id f) && truthy_opt (wf_provider f) && truthy_opt (wf_run_on f) &&
  truthy_opt (wf_native_session_id f) && truthy_opt (wf_stage_root f) && truthy_opt (wf_skill_id f) &&
  truthy_opt (wf_skill_version f) && truthy_opt (wf_output_name f) && truthy_opt (wf_output_path f) &&
  is_some (wf_execution_host f) &&
  bool_decide (task_kind t = TaskEpisodeReport) && negb (task_visible t) &&
  bool_decide (wf_allocation_operation_id f = Some (task_operation_id t)) &&
  is_some (wf_concluding_operation_id f) &&
  bool_decide (task_parent_operation_id t = wf_concluding_operation_id f) &&
  bool_decide (task_native_session_id t = wf_native_session_id f) &&
  str_eqb (default "" (task_stage_host t)) (default "" (wf_stage_host f)) &&
  bool_decide (task_stage_root t = wf_stage_root f) && bool_decide (task_episode_id t = Some episode_id) &&
  frozen "provider" (wf_provider f) && frozen "run_on" (wf_run_on f) && frozen "execution_host" (wf_execution_host f).

(** [begin_episode_wrapup]. *)
Definition begin_episode_wrapup (db : TaskDb) (episode_id : string) (w : EpisodeWrapupRecord)
    (allocation : AgentTaskRecord) (now : Z) : tx TaskDb :=
  _ ← check_that (restart_fence_is_coherent w && _validate_new_wrapup episode_id w allocation) StoreValueError;
  e ← load_episode db episode_id;
  _ ← check_that (among (epi_status e) [EpQueued; EpRunning; EpWrappingUp]) EpisodeNotRunning;
  _ ← check_that (str_eqb (task_project_id allocation) (epi_project_id e)) StoreValueError;
  match td_wrapups db !! episode_id with
  | Some row =>
      stored ← _episode_wrapup_record row;
      _ ← check_that (bool_decide (wrap_fence stored = wrap_fence w)) EpisodeReportConflict;
      Commit db
  | None =>
      _ ← check_that (match epi_ending e with
                      | Some ending => bool_decide (wrap_ending w = Some ending) &&
                                       bool_decide (epi_ending_diagnostic e = wrap_diagnostic w)
                      | None => true
                      end) EpisodeReportConflict;
      _ ← check_that (conclusion_ok db episode_id w) StoreValueError;
      db ← _insert_agent_task db allocation "episode_report";
      db ← _insert_episode_wrapup db w;
      Commit (update_episode (λ e, e <| epi_status := EpWrappingUp |> <| epi_ending := wrap_ending w |>
                <| epi_ending_diagnostic := wrap_diagnostic w |> <| epi_wrapup_state := WrapPending |>
                <| epi_wrapup_error := None |> <| epi_updated_at := now |>) episode_id db)
  end.

(** [end_episode_without_report]. *)
Definition end_episode_without_report (db : TaskDb) (episode_id : string) (ending : EpisodeEnding)
    (diagnostic : option string) (now : Z) : tx TaskDb :=
  _ ← check_that (negb (bool_decide (ending = EndStopped))) StoreValueError;
  e ← load_episode db episode_id;
  _ ← check_that (negb (is_some (td_wrapups db !! episode_id))) EpisodeReportConflict;
  _ ← check_that (match epi_ending e with
                  | Some fenced => bool_decide (fenced = ending) && bool_decide (epi_ending_diagnostic e = diagnostic)
                  | None => true
                  end) EpisodeReportConflict;
  _ ← check_that (negb (is_some (epi_stop_requested_at e) || bool_decide (epi_status e = EpStopping))) EpisodeNotRunning;
  let final := _status_for_ending ending in
  if bool_decide (epi_status e = final) then Commit db
  else
    _ ← check_that (among (epi_status e) [EpQueued; EpRunning; EpWrappingUp]) EpisodeNotRunning;
    let db := update_episode (λ e, settle_episode final WrapNotStarted None now
                (e <| epi_ending := Some ending |> <| epi_ending_diagnostic := diagnostic |>)) episode_id db in
    _terminalize_child_experiment db episode_id final ending diagnostic now.

(** [fail_episode_wrapup_unlaunchable]. *)
Definition fail_episode_wrapup_unlaunchable (db : TaskDb) (episode_id : string) (w : EpisodeWrapupRecord)
    (ending_diagnostic : option string) (now : Z) : tx TaskDb :=
  let f := wrap_fence w in
  _ ← check_that (restart_fence_is_coherent w && str_eqb (wf_episode_id f) episode_id && is_some (wf_ending f) &&
                  negb (bool_decide (wf_ending f = Some EndStopped)) && bool_decide (wrap_state w = WrapFailed) &&
                  negb (is_some (wf_allocation_operation_id f)) && truthy_opt (wrap_diagnostic w) &&
                  is_some (wrap_finished_at w)) StoreValueError;
  e ← load_episode db episode_id;
  match td_wrapups db !! episode_id with
  | Some row =>
      stored ← _episode_wrapup_record row;
      _ ← check_that (bool_decide (stored = w)) EpisodeReportConflict;
      Commit db
  | None =>
      _ ← check_that (among (epi_status e) [EpQueued; EpRunning; EpWrappingUp]) EpisodeNotRunning;
      _ ← check_that (conclusion_ok db episode_id w) StoreValueError;
      db ← _insert_episode_wrapup db w;
      ending ← found (wf_ending f) StoreValueError;
      let final := _status_for_ending ending in
      let db := update_episode (λ e, settle_episode final WrapFailed (wrap_diagnostic w) now
                  (e <| epi_ending := Some ending |> <| epi_ending_diagnostic := ending_diagnostic |>)) episode_id db in
      _terminalize_child_experiment db episode_id final ending
        (if truthy_opt (wrap_diagnostic w) then wrap_diagnostic w else ending_diagnostic) now
  end.

(** The wrap-up of a Stop, which has no report. *)
Definition skipped_wrapup (db : TaskDb) (episode_id : string) (receipt : pydict) (diagnostic : option string)
    (now : Z) : EpisodeWrapupRecord :=
  let '(json, digest) := compact_episode_receipt receipt in
  {| wrap_fence :=
       {| wf_episode_id := episode_id; wf_ending := Some EndStopped; wf_partial := true;
          wf_concluding_operation_id := concluding_operation db episode_id; wf_allocation_operation_id := None;
          wf_provider := None; wf_run_on := None; wf_execution_host := None; wf_native_session_id := None;
          wf_stage_host := None; wf_stage_root := None; wf_skill_id := None; wf_skill_version := None;
          wf_output_name := None; wf_output_path := None; wf_receipt_json := json; wf_receipt_sha256 := digest;
          wf_created_at := now |};
     wrap_state := WrapSkipped; wrap_diagnostic := diagnostic; wrap_updated_at := now; wrap_finished_at := Some now |}.

(** [mark_episode_stop_skipped]. *)
Definition mark_episode_stop_skipped (db : TaskDb) (episode_id : string) (diagnostic : option string) (now : Z) :
    tx TaskDb :=
  e ← load_episode db episode_id;
  if bool_decide (epi_ending e = Some EndStopped) && bool_decide (epi_wrapup_state e = WrapSkipped) then Commit db
  else
    _ ← check_that (negb (is_some (td_wrapups db !! episode_id))) EpisodeNotRunning;
    _ ← check_that (among (epi_status e) [EpQueued; EpRunning; EpStopping]) EpisodeNotRunning;
    let w := skipped_wrapup db episode_id
               [("diagnostic", py_opt_str diagnostic); ("ending", PStr "stopped"); ("episode_id", PStr episode_id)]
               diagnostic now in
    db ← _insert_episode_wrapup db w;
    let db := update_episode (stop_episode diagnostic now) episode_id db in
    _terminalize_child_experiment db episode_id EpStopped EndStopped diagnostic now.

(** ** Report attempts *)

Definition reporting (state : EpisodeWrapupState) : bool := among state [WrapPending; WrapRunning].

(** [allocate_episode_report_attempt]. *)
Definition allocate_episode_report_attempt (db : TaskDb) (episode_id attempt_id : string) (now : Z) : tx TaskDb :=
  e ← load_episode db episode_id;
  row ← found (td_wrapups db !! episode_id) EpisodeNotRunning;
  w ← _episode_wrapup_record row;
  _ ← check_that (bool_decide (epi_status e = EpWrappingUp) && reporting (epi_wrapup_state e) &&
                  reporting (wrap_state w)) EpisodeNotRunning;
  allocation ← found (wrap_allocation w) EpisodeNotRunning;
  if is_some (current_attempt db episode_id) then Commit db
  else
    _ ← check_that (epi_report_attempts_used e <? _REPORT_ATTEMPT_LIMIT)%Z EpisodeReportAttemptLimitReached;
    let number := (epi_report_attempts_used e + 1)%Z in
    db ← insert_attempt db
      {| rat_attempt_id := attempt_id; rat_episode_id := episode_id; rat_number := number;
         rat_allocation_operation_id := allocation; rat_status := AttemptQueued; rat_error := None;
         rat_created_at := now; rat_updated_at := now; rat_finished_at := None |};
    let db := update_episode (λ e, e <| epi_wrapup_state := WrapRunning |> <| epi_report_attempts_used := number |>
                                     <| epi_updated_at := now |>) episode_id db in
    Commit (update_wrapup (λ w, w <| wrap_state := WrapRunning |> <| wrap_updated_at := now |>) episode_id db).

(** [mark_episode_report_attempt_running]. *)
Definition mark_episode_report_attempt_running (db : TaskDb) (attempt_id : string) (now : Z) : tx TaskDb :=
  a ← found (td_attempts db !! attempt_id) (StoreKeyError attempt_id);
  _ ← check_that (is_open a) EpisodeNotRunning;
  let db := update_attempt (λ a, a <| rat_status := AttemptRunning |> <| rat_updated_at := now |>) attempt_id db in
  Commit (update_task (λ t, t <| task_status := TaskRunning |> <| task_started_at ::= coalesce now |>
            <| task_updated_at := now |> <| task_phase := "running" |>) (rat_allocation_operation_id a) db).

(** The rows a report that failed for good leaves. *)
Definition close_failed_report (db : TaskDb) (episode_id : string) (ending : EpisodeEnding)
    (error allocation : string) (finished : option Z → option Z) (now : Z) : tx TaskDb :=
  let final := _status_for_ending ending in
  let db := update_episode (settle_episode final WrapFailed (Some error) now) episode_id db in
  let db := update_wrapup (settle_wrapup WrapFailed (Some error) now) episode_id db in
  let db := update_task (fail_allocation error finished now) allocation db in
  _terminalize_child_experiment db episode_id final ending (Some error) now.

(** [_finish_episode_report_attempt_error]. *)
Definition _finish_episode_report_attempt_error (db : TaskDb) (attempt_id error : string) (force_final : bool)
    (now : Z) : tx TaskDb :=
  _ ← check_that (negb (is_blank error)) StoreValueError;
  a ← found (td_attempts db !! attempt_id) (StoreKeyError attempt_id);
  _ ← check_that (negb (bool_decide (rat_status a = AttemptSucceeded))) EpisodeReportConflict;
  let episode_id := rat_episode_id a in
  let db := if decide (rat_status a = AttemptFailed) then db
            else update_attempt (finish_attempt AttemptFailed (Some error) now) attempt_id db in
  if force_final || (_REPORT_ATTEMPT_LIMIT <=? rat_number a)%Z then
    e ← found (td_episodes db !! episode_id) StoreRuntimeError;
    ending ← found (epi_ending e) StoreValueError;
    close_failed_report db episode_id ending error (rat_allocation_operation_id a) (λ _, Some now) now
  else
    let db := update_episode (λ e, e <| epi_wrapup_state := WrapPending |> <| epi_wrapup_error := None |>
                                     <| epi_updated_at := now |>) episode_id db in
    Commit (update_wrapup (λ w, w <| wrap_state := WrapPending |> <| wrap_updated_at := now |>) episode_id db).
Definition record_episode_report_attempt_error (db : TaskDb) (attempt_id error : string) (now : Z) : tx TaskDb :=
  _finish_episode_report_attempt_error db attempt_id error false now.
Definition finish_episode_report_error (db : TaskDb) (attempt_id error : string) (now : Z) : tx TaskDb :=
  _finish_episode_report_attempt_error db attempt_id error true now.

(** [INSERT INTO episode_reports]. *)
Definition insert_report (db : TaskDb) (r : EpisodeReportRecord) : tx TaskDb :=
  _ ← check_that (forallb (λ s, negb (str_eqb (rpt_report_id s) (rpt_report_id r) ||
                    str_eqb (rpt_episode_id s) (rpt_episode_id r) || str_eqb (rpt_attempt_id s) (rpt_attempt_id r) ||
                    str_eqb (rpt_allocation_operation_id s) (rpt_allocation_operation_id r)))
                    ((map_to_list (td_reports db)).*2)) StoreIntegrityError;
  Commit (db <| td_reports ::= <[rpt_episode_id r := r]> |>).

(** [finish_episode_report_ready]. *)
Definition finish_episode_report_ready (db : TaskDb) (attempt_id : string) (r : EpisodeReportRecord) (now : Z) :
    tx TaskDb :=
  _ ← check_that (digest_matches_html r) StoreValueError;
  a ← found (td_attempts db !! attempt_id) (StoreKeyError attempt_id);
  let episode_id := rat_episode_id a in
  row ← found (td_episodes db !! episode_id) StoreRuntimeError;
  wrapup_row ← found (td_wrapups db !! episode_id) StoreRuntimeError;
  e ← _episode_record row;
  w ← _episode_wrapup_record wrapup_row;
  _ ← check_that (str_eqb (rpt_attempt_id r) attempt_id && str_eqb (rpt_episode_id r) (epi_episode_id e) &&
                  str_eqb (rpt_allocation_operation_id r) (rat_allocation_operation_id a) &&
                  bool_decide (wrap_allocation w = Some (rpt_allocation_operation_id r)) &&
                  bool_decide (epi_ending e = Some (rpt_ending r))) EpisodeReportConflict;
  _ ← check_that (negb (bool_decide (rpt_ending r = EndStopped))) EpisodeReportConflict;
  match td_reports db !! episode_id with
  | Some stored =>
      _ ← check_that (digest_matches_html stored) StoreValueError;
      _ ← check_that (bool_decide (stored = r)) EpisodeReportConflict;
      Commit db
  | None =>
      _ ← check_that (is_open a) EpisodeReportConflict;
      db ← insert_report db r;
      let final := _status_for_ending (rpt_ending r) in
      let db := update_attempt (finish_attempt AttemptSucceeded None now) attempt_id db in
      let db := update_task (λ t, t <| task_status := TaskSucceeded |> <| task_status_message := "Report ready" |>
                  <| task_error := None |> <| task_updated_at := now |> <| task_finished_at := Some now |>
                  <| task_phase := "completed" |>) (rpt_allocation_operation_id r) db in
      let db := update_wrapup (settle_wrapup WrapReady None now) episode_id db in
      let db := update_episode (settle_episode final WrapReady None now) episode_id db in
      _terminalize_child_experiment db episode_id final (rpt_ending r) (epi_ending_diagnostic e) now
  end.

(** ** Restart of a report *)

(** The episode, its wrap-up and the operation of its hidden allocation. *)
Definition report_allocation (db : TaskDb) (episode_id : string) : tx (EpisodeRecord * EpisodeWrapupRecord * string) :=
  row ← found (td_episodes db !! episode_id) (StoreKeyError episode_id);
  w ← found (td_wrapups db !! episode_id) EpisodeNotRunning;
  allocation ← found (wrap_allocation w) EpisodeNotRunning;
  e ← _episode_record row;
  Commit (e, w, allocation).
Definition restart_fence_holds (episode_id : string) (t : AgentTaskRecord) : bool :=
  bool_decide (task_episode_id t = Some episode_id) && bool_decide (task_kind t = TaskEpisodeReport) &&
  negb (task_visible t).

Definition restart_diagnostic (prior : AgentTaskStatus) : string :=
  if decide (prior = TaskInterrupted) then "The report provider call was interrupted by an RCP restart."
  else "The report provider call was paused during RCP shutdown.".

(** [requeue_interrupted_episode_report_allocation]. *)
Definition requeue_interrupted_episode_report_allocation (db : TaskDb) (episode_id : string) (now : Z) : tx TaskDb :=
  '(e, w, operation_id) ← report_allocation db episode_id;
  _ ← check_that (bool_decide (epi_status e = EpWrappingUp) && reporting (epi_wrapup_state e)) EpisodeNotRunning;
  t ← found (td_tasks db !! operation_id) EpisodeReportConflict;
  _ ← check_that (restart_fence_holds episode_id t) EpisodeReportConflict;
  if bool_decide (task_status t = TaskQueued) then Commit db
  else
    _ ← check_that (among (task_status t) [TaskInterrupted; TaskPaused]) EpisodeNotRunning;
    let diagnostic := restart_diagnostic (task_status t) in
    let current := current_attempt db episode_id in
    let current_is s := bool_decide (rat_status <$> current = Some s) in
    let fail_current db := match current with
      | Some a => update_attempt (finish_attempt AttemptFailed (Some diagnostic) now) (rat_attempt_id a) db | None => db
      end in
    if (_REPORT_ATTEMPT_LIMIT <=? epi_report_attempts_used e)%Z && negb (current_is AttemptQueued) then
      _ ← check_that (current_is AttemptRunning) EpisodeNotRunning;
      ending ← found (epi_ending e) StoreValueError;
      close_failed_report (fail_current db) episode_id ending diagnostic operation_id (coalesce now) now
    else
      let db := if current_is AttemptRunning then fail_current db else db in
      let db := update_task (λ t, t <| task_status := TaskQueued |>
                  <| task_status_message := "Wrapping up visualization and report" |> <| task_error := None |>
                  <| task_updated_at := now |> <| task_started_at := None |> <| task_finished_at := None |>
                  <| task_last_activity_at := None |> <| task_phase := "queued" |> <| task_write_scope := None |>)
                  operation_id db in
      let db := _insert_agent_task_receipt db operation_id "operation_dispatch_reset"
                  (_bounded_receipt_payload [("status", PStr "queued"); ("reason", PStr "episode_report_restart");
                     ("previous_status", PStr (task_status_str (task_status t)))]) TierSummary now in
      let db := update_episode (λ e, e <| epi_wrapup_state := WrapPending |> <| epi_wrapup_error := None |>
                                       <| epi_updated_at := now |>) episode_id db in
      Commit (update_wrapup (λ w, w <| wrap_state := WrapPending |> <| wrap_diagnostic := None |>
                                    <| wrap_updated_at := now |> <| wrap_finished_at := None |>) episode_id db).

(** [fail_episode_report_allocation_unlaunchable]. *)
Definition fail_episode_report_allocation_unlaunchable (db : TaskDb) (episode_id diagnostic : string) (now : Z) :
    tx TaskDb :=
  let diagnostic := strip diagnostic in
  _ ← check_that (truthy diagnostic) StoreValueError;
  '(e, w, operation_id) ← report_allocation db episode_id;
  t ← found (td_tasks db !! operation_id) EpisodeReportConflict;
  _ ← check_that (restart_fence_holds episode_id t) EpisodeReportConflict;
  let own := attempts_where (λ a, str_eqb (rat_episode_id a) episode_id) db in
  let count s := length (bfilter (λ a, among (rat_status a) s) own) in
  _ ← check_that ((Z.of_nat (length own) =? epi_report_attempts_used e)%Z && (count [AttemptQueued] <=? 1) &&
                  (count [AttemptRunning; AttemptSucceeded] =? 0)) EpisodeNotRunning;
  if bool_decide (epi_wrapup_state e = WrapFailed) && bool_decide (wrap_state w = WrapFailed) &&
     bool_decide (task_status t = TaskFailed) then
    _ ← check_that (bool_decide (epi_wrapup_error e = Some diagnostic) && bool_decide (wrap_diagnostic w = Some diagnostic))
          EpisodeReportConflict;
    Commit db
  else
    _ ← check_that (bool_decide (epi_status e = EpWrappingUp) && reporting (epi_wrapup_state e) &&
                    reporting (wrap_state w) &&
                    among (task_status t) [TaskQueued; TaskRunning; TaskPausing; TaskPaused; TaskInterrupted])
          EpisodeNotRunning;
    let db := db <| td_attempts ::= fmap (λ a, if str_eqb (rat_episode_id a) episode_id &&
                      bool_decide (rat_status a = AttemptQueued)
                    then finish_attempt AttemptFailed (Some diagnostic) now a else a) |> in
    ending ← found (epi_ending e) StoreValueError;
    close_failed_report db episode_id ending diagnostic operation_id (coalesce now) now.

(** [episodes_awaiting_report]: the wrap-ups startup must reconcile. *)
Definition awaiting_report (db : TaskDb) (e : EpisodeRecord) : bool :=
  bool_decide (epi_status e = EpWrappingUp) && reporting (epi_wrapup_state e) &&
  match td_wrapups db !! epi_episode_id e with
  | Some w => reporting (wrap_state w) && is_some (wrap_allocation w)
  | None => false
  end.
Definition episodes_awaiting_report (db : TaskDb) : list EpisodeRecord := episodes_where (awaiting_report db) db.

(** ** Restore *)

(** [detach_episode_reports_for_restore]. *)
Definition detach_episode_reports_for_restore (db : TaskDb) (diagnostic : string) (now : Z) : tx TaskDb :=
  let detail := one_line diagnostic in
  _ ← check_that (truthy detail) StoreValueError;
  let detach_fence f := f <| wf_native_session_id := None |> <| wf_stage_host := None |> <| wf_stage_root := None |> in
  Commit (db <| td_attempts ::= fmap (λ a, if is_open a
                  then a <| rat_status := AttemptFailed |> <| rat_error := Some detail |> <| rat_updated_at := now |>
                         <| rat_finished_at ::= coalesce now |> else a) |>
             <| td_wrapups ::= fmap (λ w, let f := wrap_fence w in
                  if reporting (wrap_state w) &&
                     (is_some (wf_native_session_id f) || is_some (wf_stage_host f) || is_some (wf_stage_root f))
                  then w <| wrap_fence ::= detach_fence |> <| wrap_updated_at := now |> else w) |>).

(** The Stop of one captured Experiment, in [detach_experiment_episodes_for_restore]. *)
Definition detach_experiment (detail : string) (now : Z) (db : TaskDb) (episode_id : string) : tx TaskDb :=
  let stopped := skipped_wrapup db episode_id
        [("diagnostic", PStr detail); ("ending", PStr "stopped"); ("episode_id", PStr episode_id);
         ("reason", PStr "restore")] (Some detail) now in
  db ← match td_wrapups db !! episode_id with
       | None => _insert_episode_wrapup db stopped
       | Some w =>
           _ ← check_that (reporting (wrap_state w)) EpisodeReportConflict;
           Commit (update_wrapup (λ w, w
             <| wrap_fence ::= λ f, f <| wf_ending := Some EndStopped |> <| wf_partial := true |>
                  <| wf_native_session_id := None |> <| wf_stage_host := None |> <| wf_stage_root := None |>
                  <| wf_receipt_json := wf_receipt_json (wrap_fence stopped) |>
                  <| wf_receipt_sha256 := wf_receipt_sha256 (wrap_fence stopped) |> |>
             <| wrap_state := WrapSkipped |> <| wrap_diagnostic := Some detail |> <| wrap_updated_at := now |>
             <| wrap_finished_at ::= coalesce now |>) episode_id db)
       end;
  Commit (update_episode (stop_episode (Some detail) now) episode_id db).

(** [detach_experiment_episodes_for_restore]. *)
Definition detach_experiment_episodes_for_restore (db : TaskDb) (diagnostic : string) (now : Z) : tx TaskDb :=
  let detail := one_line diagnostic in
  _ ← check_that (truthy detail) StoreValueError;
  let db := db <| td_loops ::= fmap (λ s,
      if is_some (xes_native_session_id s) || is_some (xes_stage_host s) || is_some (xes_stage_root s)
      then s <| xes_native_session_id := None |> <| xes_stage_host := None |> <| xes_stage_root := None |>
             <| xes_updated_at := now |> else s) |> in
  tx_fold (detach_experiment detail now) db
    (py_sorted (epi_episode_id <$> episodes_where (λ e, bool_decide (epi_mode e = ModeExperimentLoop) && is_live e) db)).

(** The transaction of [detach_restored_lifecycle], as far as tasks and episodes go;
    both texts are given cut to their bounds. *)
Definition detach_restored_lifecycle (db : TaskDb) (diagnostic confirmed_by : string) (now : Z) : tx TaskDb :=
  let detail := String.substring 0 1400 (join " " (split_words diagnostic)) in
  let confirmer := String.substring 0 400 (join " " (split_words confirmed_by)) in
  _ ← check_that (truthy detail && truthy confirmer) StoreValueError;
  let recorded_detail := String.substring 0 2000 (detail +:+ " Restore confirmed by " +:+ confirmer +:+ ".") in
  db ← detach_agent_tasks_for_restore db recorded_detail now;
  db ← detach_episode_reports_for_restore db recorded_detail now;
  detach_experiment_episodes_for_restore db recorded_detail now.
End ledger.

(** ** The store as one machine *)

(** Every operation on the tables that [TaskModels] and [TaskTables] model, the
    ageing out of traces included.  Not among them: what changes a result after
    the task is over (kept artifacts, contracts, outputs, usage), claims of graph
    repairs, the other writers of the Auto-research ledger, the deletion and the
    transfer of a project, and migrations of the schema. *)
Inductive StoreOp :=
  | OpRunning (operation_id : string)
  | OpMessage (operation_id message : string) (phase : option string) (event : bool)
  | OpCheckpoint (operation_id : string) (session host root : option string)
  | OpRuntime (operation_id provider runtime_id : string)
  | OpWriteScope (operation_id project_id host root fingerprint : string)
  | OpClearStage (operation_id : string)
  | OpPauseRequest (operation_id : string) (requested_by : PauseRequester)
  | OpPause (operation_id : string) (detail : option string) (result : option pydict)
  | OpComplete (operation_id : string) (applied_revision : option Z) (result : pydict)
  | OpFail (operation_id error : string) (interrupted : bool) (result : option pydict)
  | OpEvent (operation_id message : string) (level : EventLevel)
  | OpReceipt (operation_id category : string) (payload : pydict) (tier : ReceiptTier)
  | OpInterruptActive (preserve_operation_ids : gset string)
  | OpPrune
  | OpDetachHistory (operation_ids : list string)
  | OpCreateTask (t : AgentTaskRecord) (continuation_cause : string)
  | OpCreateMerge (t : AgentTaskRecord)
  | OpCreateEpisode (e : EpisodeRecord)
  | OpCreateWithInvocation (e : EpisodeRecord) (root : AgentTaskRecord)
  | OpRequestStop (episode_id : string)
  | OpFence (episode_id : string) (ending : EpisodeEnding) (diagnostic : option string)
  | OpInvocation (episode_id : string) (t : AgentTaskRecord) (continuation_cause : string)
  | OpBeginWrapup (episode_id : string) (w : EpisodeWrapupRecord) (allocation : AgentTaskRecord)
  | OpEndWithoutReport (episode_id : string) (ending : EpisodeEnding) (diagnostic : option string)
  | OpWrapupUnlaunchable (episode_id : string) (w : EpisodeWrapupRecord) (ending_diagnostic : option string)
  | OpStopSkipped (episode_id : string) (diagnostic : option string)
  | OpAttempt (episode_id attempt_id : string)
  | OpAttemptRunning (attempt_id : string)
  | OpAttemptError (attempt_id error : string) (force_final : bool)
  | OpReportReady (attempt_id : string) (r : EpisodeReportRecord)
  | OpRequeue (episode_id : string)
  | OpAllocationUnlaunchable (episode_id diagnostic : string)
  | OpRestore (diagnostic confirmed_by : string).

Definition run_op `{JsonText, TextLib} (db : TaskDb) (op : StoreOp) (now : Z) : tx TaskDb :=
  match op with
  | OpRunning id => mark_agent_task_running db id now
  | OpMessage id message phase event => update_agent_task_message db id message phase event now
  | OpCheckpoint id session host root => checkpoint_agent_task db id session host root now
  | OpRuntime id provider runtime_id => checkpoint_agent_task_runtime db id provider runtime_id now
  | OpWriteScope id project_id host root fingerprint => bind_agent_task_write_scope db id project_id host root fingerprint now
  | OpClearStage id => Commit (clear_agent_task_stage db id now)
  | OpPauseRequest id who => request_agent_task_pause db id who now
  | OpPause id detail result => pause_agent_task db id detail result now
  | OpComplete id revision result => complete_agent_task db id revision result now
  | OpFail id error interrupted result => fail_agent_task db id error interrupted result now
  | OpEvent id message level => Commit (record_agent_task_event db id message level now)
  | OpReceipt id category payload tier => record_agent_task_receipt db id category payload tier now
  | OpInterruptActive ids => interrupt_active_agent_tasks db ids now
  | OpPrune => Commit (prune_operational_storage db now)
  | OpDetachHistory ids => detach_agent_tasks_for_history db ids
  | OpCreateTask t cause => create_agent_task db t cause
  | OpCreateMerge t => create_branch_merge_task db t
  | OpCreateEpisode e => create_episode db e
  | OpCreateWithInvocation e root => create_episode_with_invocation db e root
  | OpRequestStop id => request_episode_stop db id now
  | OpFence id ending diagnostic => fence_episode_ending db id ending diagnostic now
  | OpInvocation id t cause => allocate_episode_invocation db id t cause now
  | OpBeginWrapup id w allocation => begin_episode_wrapup db id w allocation now
  | OpEndWithoutReport id ending diagnostic => end_episode_without_report db id ending diagnostic now
  | OpWrapupUnlaunchable id w diagnostic => fail_episode_wrapup_unlaunchable db id w diagnostic now
  | OpStopSkipped id diagnostic => mark_episode_stop_skipped db id diagnostic now
  | OpAttempt id attempt_id => allocate_episode_report_attempt db id attempt_id now
  | OpAttemptRunning id => mark_episode_report_attempt_running db id now
  | OpAttemptError id error force_final => _finish_episode_report_attempt_error db id error force_final now
  | OpReportReady id r => finish_episode_report_ready db id r now
  | OpRequeue id => requeue_interrupted_episode_report_allocation db id now
  | OpAllocationUnlaunchable id diagnostic => fail_episode_report_allocation_unlaunchable db id diagnostic now
  | OpRestore diagnostic confirmed_by => detach_restored_lifecycle db diagnostic confirmed_by now
  end.

(** A transaction that raises leaves the store as it was. *)
Definition step_op `{JsonText, TextLib} (db : TaskDb) (op : StoreOp * Z) : TaskDb :=
  match run_op db op.1 op.2 with Commit db' => db' | Abort _ => db end.
Definition run_ops `{JsonText, TextLib} : TaskDb → list (StoreOp * Z) → TaskDb := foldl step_op.
