(* ===== verification/Wrapup.v ===== *)
(** The wrap-up of an episode as a service ([runs/episodes/wrapup.py]): from the
    facts of an ending to the one hidden report allocation, through transactions
    of the store, each committed before the next begins. *)

From S2P Require Export Episodes.
From Stdlib Require Import Ascii.

(** ** Services *)

(** A service leaves what its transactions committed, also when it raises. *)
Definition svc (A : Type) : Type := TaskDb → TaskDb * tx A.
#[export] Instance svc_ret : MRet svc := λ A a db, (db, Commit a).
#[export] Instance svc_bind : MBind svc := λ A B f m db,
  match m db with (db', Commit a) => f a db' | (db', Abort e) => (db', Abort e) end.
Definition transact (f : TaskDb → tx TaskDb) : svc unit := λ db,
  match f db with Commit db' => (db', Commit tt) | Abort e => (db, Abort e) end.
Definition ask {A} (f : TaskDb → tx A) : svc A := λ db, (db, f db).

(** [AppStore.episode], [AppStore.agent_task]. *)
Definition store_episode (db : TaskDb) (episode_id : string) : tx (option EpisodeRecord) :=
  match td_episodes db !! episode_id with
  | Some row => e ← _episode_record row; Commit (Some e) | None => Commit None
  end.
Definition store_agent_task (db : TaskDb) (operation_id : string) : option AgentTaskRecord :=
  read_task <$> td_tasks db !! operation_id.

(** ** The request of a report *)

(** [legacy_runtime_id]: the runtime of the records that name none. *)
Definition legacy_runtime_id (provider : string) : res string :=
  p ← profile_for provider;
  Ok (if str_eqb (pp_id p) "codex" then "codex.exec-json.v1"
      else if str_eqb (pp_id p) "claude" then "claude.stream-json.v1" else "rcp-demo.jsonl.v1").

(** [EpisodeReportRunRequest]. *)
Record EpisodeReportRunRequest := {
  rrq_episode_id : string; rrq_provider : string; rrq_model : string; rrq_reasoning : string; rrq_run_on : string;
  rrq_execution_host : string; rrq_session_id : string }.
#[export] Instance EpisodeReportRunRequest_eq_dec : EqDecision EpisodeReportRunRequest.
Proof. solve_decision. Defined.
Definition report_request_ok (r : EpisodeReportRunRequest) : bool :=
  truthy (rrq_episode_id r) && is_ok (profile_for (rrq_provider r)) && truthy (rrq_run_on r) && truthy (rrq_session_id r).
Definition REPORT_REQUEST_FIELDS : list string :=
  ["episode_id"; "provider"; "model"; "reasoning"; "run_on"; "execution_host"; "session_id"].
(** [EpisodeReportRunRequest.model_validate], strict and without extra fields. *)
Definition validate_report_request (d : pydict) : tx EpisodeReportRunRequest :=
  let field key := match dget d key with Some (PStr s) => Commit s | _ => Abort StoreValueError end in
  _ ← check_that (forallb (λ key, mem key REPORT_REQUEST_FIELDS) (dkeys d)) StoreValueError;
  episode_id ← field "episode_id"; provider ← field "provider"; model ← field "model"; reasoning ← field "reasoning";
  run_on ← field "run_on"; execution_host ← field "execution_host"; session_id ← field "session_id";
  let r := {| rrq_episode_id := episode_id; rrq_provider := provider; rrq_model := model; rrq_reasoning := reasoning;
              rrq_run_on := run_on; rrq_execution_host := execution_host; rrq_session_id := session_id |} in
  _ ← check_that (report_request_ok r) StoreValueError; Commit r.
(** [model_dump(mode="json")]. *)
Definition dump_report_request (r : EpisodeReportRunRequest) : pydict :=
  [("episode_id", PStr (rrq_episode_id r)); ("provider", PStr (rrq_provider r)); ("model", PStr (rrq_model r));
   ("reasoning", PStr (rrq_reasoning r)); ("run_on", PStr (rrq_run_on r));
   ("execution_host", PStr (rrq_execution_host r)); ("session_id", PStr (rrq_session_id r))].

(** ** Paths *)

(** [str(PurePosixPath(base, *rest))], for names without slashes in [rest]. *)
Fixpoint leading_slashes (s : string) : nat :=
  match s with String c s => if bool_decide (c = "/"%char) then S (leading_slashes s) else 0 | EmptyString => 0 end.
Definition posix_root (s : string) : string :=
  match leading_slashes s with 0 => "" | 2 => "//" | _ => "/" end.
Definition posix_parts (s : string) : list string :=
  bfilter (λ part, truthy part && negb (str_eqb part ".")) (split_on "/"%char s).
Definition posix_path (base : string) (rest : list string) : string :=
  posix_root base +:+ join "/" (posix_parts base ++ rest).

Definition _REPORT_SKILL_ID : string := "episode-report".
Definition _REPORT_OUTPUT_NAME : string := "episode-report.html".

(** [_report_output_path]. *)
Definition _report_output_path (stage_root : string) (stage_host : option string) : tx string :=
  if truthy_opt stage_host then Commit (posix_path stage_root ["workspace"; _REPORT_OUTPUT_NAME])
  else _ ← check_that (truthy (posix_root stage_root)) StoreValueError;
       Commit (posix_path stage_root [_REPORT_OUTPUT_NAME]).

(** ** Admission of a wrap-up *)

(** [EpisodeWrapupSpec], a validated instance. *)
Record EpisodeWrapupSpec := {
  ews_episode_id : string; ews_ending : EpisodeEnding; ews_partial : bool; ews_continuation_operation_id : string;
  ews_receipt : pydict; ews_diagnostic : option string }.

(** [EpisodeWrapupAdmission]. *)
Record EpisodeWrapupAdmission := {
  ewa_episode : EpisodeRecord; ewa_wrapup : option EpisodeWrapupRecord; ewa_task : option AgentTaskRecord;
  ewa_request : option EpisodeReportRunRequest }.
#[export] Instance EpisodeWrapupAdmission_eq_dec : EqDecision EpisodeWrapupAdmission.
Proof. solve_decision. Defined.
Definition launchable (a : EpisodeWrapupAdmission) : bool := is_some (ewa_task a) && is_some (ewa_request a).

(** [_never_bound_a_session]. *)
Definition _never_bound_a_session (continuation : option AgentTaskRecord) : bool :=
  match continuation with
  | Some t => negb (truthy_opt (task_native_session_id t) && truthy_opt (task_stage_root t)) | None => false
  end.

(** [_binding_diagnostic]. *)
Definition _binding_diagnostic (e : EpisodeRecord) (continuation : option AgentTaskRecord) : option string :=
  match continuation with
  | None => Some "Episode report generation cannot find its exact continuation task."
  | Some t =>
      if negb (str_eqb (task_project_id t) (epi_project_id e)) ||
         negb (bool_decide (task_episode_id t = Some (epi_episode_id e)))
      then Some "Episode report generation cannot prove its continuation task lineage."
      else if negb (task_visible t) || bool_decide (task_kind t = TaskEpisodeReport)
      then Some "Episode report generation cannot continue from an internal task."
      else if _never_bound_a_session (Some t)
      then Some "Episode report generation has no exact saved native session and stage."
      else if existsb (λ key, negb (is_some (req_str t key))) ["provider"; "model"; "reasoning"; "run_on"]
      then Some "Episode report generation lost its frozen provider profile."
      else None
  end.

(** The skill that writes reports, in the registry of packages. *)
Class ReportSkill := { report_skill_version : string }.

Section service.
Context `{JsonText, TextLib, ReportSkill}.

(** [AppStore.episode_wrapup]. *)
Definition store_episode_wrapup (db : TaskDb) (episode_id : string) : tx (option EpisodeWrapupRecord) :=
  match td_wrapups db !! episode_id with
  | Some row => w ← _episode_wrapup_record row; Commit (Some w) | None => Commit None
  end.

(** The episode after a transaction on it. *)
Definition episode_now (episode_id : string) : svc EpisodeRecord :=
  ask (λ db, e ← store_episode db episode_id; found e (StoreKeyError episode_id)).

(** The receipt of an ending, with its digest. *)
Definition ending_receipt (spec : EpisodeWrapupSpec) (e : EpisodeRecord) : string * string :=
  let d := ews_receipt spec in
  let d := match ews_diagnostic spec with Some text => dset d "diagnostic" (PStr text) | None => d end in
  let d := dset d "ending" (PStr (ending_str (ews_ending spec))) in
  let d := dset d "episode_id" (PStr (ews_episode_id spec)) in
  let d := dset d "mode" (PStr (mode_str (epi_mode e))) in
  compact_episode_receipt (dset d "partial" (PBool (ews_partial spec))).

(** [_existing_admission]. *)
Definition _existing_admission (e : EpisodeRecord) (w : EpisodeWrapupRecord) : svc EpisodeWrapupAdmission :=
  match wrap_allocation w with
  | None => mret {| ewa_episode := e; ewa_wrapup := Some w; ewa_task := None; ewa_request := None |}
  | Some operation_id =>
      t ← ask (λ db, found (store_agent_task db operation_id) StoreRuntimeError);
      r ← ask (λ _, validate_report_request (task_request t));
      mret {| ewa_episode := e; ewa_wrapup := Some w; ewa_task := Some t; ewa_request := Some r |}
  end.

(** [_fail_unlaunchable]. *)
Definition unlaunchable_wrapup (spec : EpisodeWrapupSpec) (receipt_json receipt_sha256 diagnostic : string) (now : Z) :
    EpisodeWrapupRecord :=
  {| wrap_fence :=
       {| wf_episode_id := ews_episode_id spec; wf_ending := Some (ews_ending spec); wf_partial := ews_partial spec;
          wf_concluding_operation_id := Some (ews_continuation_operation_id spec); wf_allocation_operation_id := None;
          wf_provider := None; wf_run_on := None; wf_execution_host := None; wf_native_session_id := None;
          wf_stage_host := None; wf_stage_root := None; wf_skill_id := None; wf_skill_version := None;
          wf_output_name := None; wf_output_path := None; wf_receipt_json := receipt_json;
          wf_receipt_sha256 := receipt_sha256; wf_created_at := now |};
     wrap_state := WrapFailed; wrap_diagnostic := Some diagnostic; wrap_updated_at := now; wrap_finished_at := Some now |}.
Definition _fail_unlaunchable (spec : EpisodeWrapupSpec) (receipt_json receipt_sha256 diagnostic : string)
    (now settle_at : Z) : svc EpisodeWrapupAdmission :=
  let failed := unlaunchable_wrapup spec receipt_json receipt_sha256 diagnostic now in
  _ ← transact (λ db, fail_episode_wrapup_unlaunchable db (ews_episode_id spec) failed (ews_diagnostic spec) settle_at);
  e ← episode_now (ews_episode_id spec);
  mret {| ewa_episode := e; ewa_wrapup := Some failed; ewa_task := None; ewa_request := None |}.

(** The request, the output and the records of a report that can be launched. *)
Definition report_request_of (spec : EpisodeWrapupSpec) (t : AgentTaskRecord) : tx EpisodeReportRunRequest :=
  let asked key := default PNone (dget (task_request t) key) in
  validate_report_request
    [("episode_id", PStr (ews_episode_id spec)); ("provider", asked "provider"); ("model", asked "model");
     ("reasoning", asked "reasoning"); ("run_on", asked "run_on");
     ("execution_host", PStr (default "" (task_stage_host t)));
     ("session_id", py_opt_str (task_native_session_id t))].
Definition report_operation_id (episode_id : string) : string :=
  uuid5_url ("rcp:episode-report-allocation:" +:+ episode_id).
Definition report_wrapup_of (spec : EpisodeWrapupSpec) (t : AgentTaskRecord) (r : EpisodeReportRunRequest)
    (output_path receipt_json receipt_sha256 : string) (now : Z) : EpisodeWrapupRecord :=
  {| wrap_fence :=
       {| wf_episode_id := ews_episode_id spec; wf_ending := Some (ews_ending spec); wf_partial := ews_partial spec;
          wf_concluding_operation_id := Some (task_operation_id t);
          wf_allocation_operation_id := Some (report_operation_id (ews_episode_id spec));
          wf_provider := Some (rrq_provider r); wf_run_on := Some (rrq_run_on r);
          wf_execution_host := Some (rrq_execution_host r); wf_native_session_id := Some (rrq_session_id r);
          wf_stage_host := task_stage_host t; wf_stage_root := task_stage_root t;
          wf_skill_id := Some _REPORT_SKILL_ID; wf_skill_version := Some report_skill_version;
          wf_output_name := Some _REPORT_OUTPUT_NAME; wf_output_path := Some output_path;
          wf_receipt_json := receipt_json; wf_receipt_sha256 := receipt_sha256; wf_created_at := now |};
     wrap_state := WrapPending; wrap_diagnostic := ews_diagnostic spec; wrap_updated_at := now; wrap_finished_at := None |}.
Definition report_task_of (spec : EpisodeWrapupSpec) (e : EpisodeRecord) (t : AgentTaskRecord)
    (r : EpisodeReportRunRequest) (now : Z) : AgentTaskRecord :=
  {| task_operation_id := report_operation_id (ews_episode_id spec); task_project_id := epi_project_id e;
     task_kind := TaskEpisodeReport; task_status := TaskQueued; task_request := dump_report_request r;
     task_created_at := now; task_updated_at := now; task_started_at := None; task_finished_at := None;
     task_status_message := "Wrapping up visualization and report"; task_error := None; task_applied_revision := None;
     task_result := None; task_attempt := 1; task_parent_operation_id := Some (task_operation_id t);
     task_episode_id := Some (epi_episode_id e);
     task_runtime_id := match legacy_runtime_id (rrq_provider r) with Ok id => id | Raise _ => "" end;
     task_native_session_id := task_native_session_id t; task_history_only := false;
     task_stage_host := task_stage_host t; task_stage_root := task_stage_root t; task_graph_target := epi_graph_target e;
     task_write_scope := None; task_phase := "queued"; task_last_activity_at := None;
     task_authorized_by := epi_authorized_by e; task_authority := None; task_visible := false |}.

(** What a new wrap-up needs from its continuation, or why it cannot have it. *)
Definition report_binding (spec : EpisodeWrapupSpec) (e : EpisodeRecord) (continuation : option AgentTaskRecord) :
    AgentTaskRecord * EpisodeReportRunRequest * string + string :=
  match _binding_diagnostic e continuation, continuation with
  | Some diagnostic, _ => inr diagnostic
  | None, None => inr ""
  | None, Some t =>
      match r ← report_request_of spec t; path ← _report_output_path (default "" (task_stage_root t)) (task_stage_host t);
            Commit (r, path) with
      | Commit (r, path) => inl (t, r, path)
      | Abort _ => inr "Episode report generation lost its frozen provider profile or stage."
      end
  end.

(** [begin_episode_report_wrapup]; the instants are those of its fence, of its
    records and of its last transaction. *)
Definition begin_episode_report_wrapup (spec : EpisodeWrapupSpec) (fence_at now settle_at : Z) :
    svc EpisodeWrapupAdmission :=
  let episode_id := ews_episode_id spec in
  _ ← ask (λ _, check_that (negb (bool_decide (ews_ending spec = EndStopped))) StoreValueError);
  _ ← episode_now episode_id;
  wrapup ← ask (λ db, store_episode_wrapup db episode_id);
  continuation ← ask (λ db, Commit (store_agent_task db (ews_continuation_operation_id spec)));
  if negb (is_some wrapup) && _never_bound_a_session continuation then
    _ ← transact (λ db, end_episode_without_report db episode_id (ews_ending spec) (ews_diagnostic spec) settle_at);
    ended ← episode_now episode_id;
    mret {| ewa_episode := ended; ewa_wrapup := None; ewa_task := None; ewa_request := None |}
  else
    _ ← transact (λ db, fence_episode_ending db episode_id (ews_ending spec) (ews_diagnostic spec) fence_at);
    e ← episode_now episode_id;
    let '(receipt_json, receipt_sha256) := ending_receipt spec e in
    existing ← ask (λ db, store_episode_wrapup db episode_id);
    match existing with
    | Some w =>
        let f := wrap_fence w in
        _ ← ask (λ _, check_that (bool_decide (wf_ending f = Some (ews_ending spec)) &&
                       Bool.eqb (wf_partial f) (ews_partial spec) &&
                       bool_decide (wf_concluding_operation_id f = Some (ews_continuation_operation_id spec)) &&
                       str_eqb (wf_receipt_json f) receipt_json && str_eqb (wf_receipt_sha256 f) receipt_sha256)
                      StoreValueError);
        _existing_admission e w
    | None =>
        continuation ← ask (λ db, Commit (store_agent_task db (ews_continuation_operation_id spec)));
        match report_binding spec e continuation with
        | inr diagnostic => _fail_unlaunchable spec receipt_json receipt_sha256 diagnostic now settle_at
        | inl (t, r, path) =>
            let w := report_wrapup_of spec t r path receipt_json receipt_sha256 now in
            let hidden := report_task_of spec e t r now in
            _ ← transact (λ db, begin_episode_wrapup db (epi_episode_id e) w hidden settle_at);
            stored ← episode_now (epi_episode_id e);
            task ← ask (λ db, found (store_agent_task db (task_operation_id hidden)) StoreRuntimeError);
            mret {| ewa_episode := stored; ewa_wrapup := Some w; ewa_task := Some task; ewa_request := Some r |}
        end
    end.
End service.
