(* ===== verification/TaskLaws.v ===== *)
(** The life of a task, for every operation of the store: a task is never lost,
    keeps its identity, and moves along the transitions of its status; what a
    restart interrupts; how much of its trace is retained. *)

From S2P Require Export TaskAdmission.

(** ** Retention *)

Lemma delete_first_sublist {A} (selected : A → bool) n l : delete_first selected n l `sublist_of` l.
Proof.
  revert n. induction l as [|x l IH]; intros [|n]; [done..|]. cbn.
  destruct (selected x); [by constructor|by constructor].
Qed.

Lemma delete_first_length {A} (selected : A → bool) n l :
  length (bfilter selected (delete_first selected n l)) = length (bfilter selected l) - n.
Proof.
  revert n. induction l as [|x l IH]; intros [|n]; [done|done|cbn; lia|]. cbn.
  destruct (selected x) eqn:Hx; cbn; [apply IH|]. rewrite Hx. apply IH.
Qed.

Lemma delete_first_others {A} (selected other : A → bool) n l :
  (∀ x, other x = true → selected x = false) → bfilter other (delete_first selected n l) = bfilter other l.
Proof.
  intros Ho. revert n. induction l as [|x l IH]; intros [|n]; [done..|]. cbn.
  destruct (selected x) eqn:Hx.
  - rewrite IH. destruct (other x) eqn:Hox; [by rewrite (Ho _ Hox) in Hx|done].
  - cbn. destruct (other x); [f_equal|]; apply IH.
Qed.

Lemma sublist_of_bfilter {A} (f : A → bool) l : bfilter f l `sublist_of` l.
Proof. induction l as [|x l IH]; [done|]. cbn. destruct (f x); by constructor. Qed.

Lemma sublist_bfilter {A} (f : A → bool) l l' : l `sublist_of` l' → bfilter f l `sublist_of` bfilter f l'.
Proof. induction 1; [done|..]; cbn; destruct (f x); by try constructor. Qed.

Lemma fmap_sublist {A B} (f : A → B) l l' : l `sublist_of` l' → f <$> l `sublist_of` f <$> l'.
Proof. induction 1; [done|..]; cbn; by constructor. Qed.

Lemma sorted_sublist (R : relation Z) l l' : l `sublist_of` l' → StronglySorted R l' → StronglySorted R l.
Proof.
  induction 1 as [|x l l' Hl IH|x l l' Hl IH]; [done|..]; intros [Hs Hx]%StronglySorted_inv; [|by apply IH].
  constructor; [by apply IH|]. rewrite Forall_forall in *. intros y Hy. apply Hx. by apply (sublist_subseteq _ _ Hl).
Qed.

(** The trace of the tasks: receipts in the order of their ids, the ordinary
    ones of a task within what the protected leave of their tier, and at most as
    many messages as are retained. *)
Record trace_ok (db : TaskDb) : Prop := {
  tr_sorted : StronglySorted Z.lt (rct_receipt_id <$> td_receipts db);
  tr_fresh r : r ∈ td_receipts db → (rct_receipt_id r < td_receipt_seq db)%Z;
  tr_ordinary id tier : count (ordinary id tier) (td_receipts db) ≤
    AGENT_TASK_RECEIPT_RETENTION_COUNTS tier - count (protected_of id tier) (td_receipts db);
  tr_messages id : count (is_message_of id) (td_events db) ≤ AGENT_TASK_EVENT_RETENTION_COUNT }.

(** A trace that grows keeps what proves a dispatch. *)
Definition trace_grows (db db' : TaskDb) : Prop :=
  trace_ok db → trace_ok db' ∧ ∀ r, r ∈ td_receipts db → protected r = true → r ∈ td_receipts db'.
#[export] Instance trace_grows_preorder : PreOrder trace_grows.
Proof.
  split; [by intros db|]. intros db1 db2 db3 H12 H23 Hok. destruct (H12 Hok) as [Hok2 K12].
  destruct (H23 Hok2) as [Hok3 K23]. split; [done|]. auto.
Qed.

Lemma trace_same db db' :
  td_receipts db' = td_receipts db → td_receipt_seq db' = td_receipt_seq db → td_events db' = td_events db →
  trace_grows db db'.
Proof. intros Hr Hs He [Ho Hf Hc Hm]. split; [split|]; rewrite ?Hr, ?Hs, ?He; done. Qed.

(** Ageing out keeps a trace well formed. *)
Lemma prune_trace db now : trace_ok db → trace_ok (prune_operational_storage db now).
Proof.
  intros [Ho Hf Hc Hm]. unfold prune_operational_storage. cbv zeta.
  generalize (now - RUN_TRACE_RETENTION_DAYS * DAY)%Z. intros cutoff.
  assert (Hsub : ∀ f, count f (bfilter (λ r, negb (aged_receipt db cutoff r)) (td_receipts db)) ≤ count f (td_receipts db)).
  { intros f. apply sublist_length, sublist_bfilter, sublist_of_bfilter. }
  split; cbn.
  - eapply sorted_sublist; [|exact Ho]. apply fmap_sublist, sublist_of_bfilter.
  - intros r [_ Hr]%elem_of_bfilter. by apply Hf.
  - intros id tier. specialize (Hc id tier). pose proof (Hsub (ordinary id tier)). pose proof (Hsub (protected_of id tier)).
    unfold count, bfilter in *. lia.
  - intros id. etransitivity; [|apply Hm]. apply sublist_length, sublist_bfilter, sublist_of_bfilter.
Qed.

Lemma event_trace db id detail level at_ : trace_grows db (_insert_agent_task_event db id detail level at_).
Proof.
  intros [Ho Hf Hc Hm]. unfold _insert_agent_task_event. set (db1 := match td_tasks db !! id with Some _ => _ | None => _ end).
  assert (td_receipts db1 = td_receipts db ∧ td_receipt_seq db1 = td_receipt_seq db) as [Hr Hs] by (unfold db1; by case_match).
  split; [|by intros r; cbn; rewrite Hr]. split; cbn; rewrite ?Hr, ?Hs; [done..|].
  intros id'. unfold keep_last, count. destruct (decide (id' = id)) as [->|Hne].
  - rewrite delete_first_length. lia.
  - transitivity (length (bfilter (is_message_of id') (td_events db1))).
    + apply sublist_length, sublist_bfilter, delete_first_sublist.
    + specialize (Hm id'). unfold count in Hm. unfold db1. case_match; cbn; [|done].
      unfold bfilter. rewrite List.filter_app, length_app. cbn. unfold is_message_of at 2. cbn.
      unfold str_eqb. rewrite bool_decide_eq_false_2 by congruence. cbn. unfold bfilter in Hm. lia.
Qed.

Lemma receipt_trace db id category payload tier at_ :
  trace_grows db (_insert_agent_task_receipt db id category payload tier at_).
Proof.
  intros [Ho Hf Hc Hm]. unfold _insert_agent_task_receipt. set (r := {| rct_tier := tier |}).
  set (l := td_receipts db ++ [r]). set (n := _ - _).
  assert (Hsub : keep_last (ordinary id tier) n l `sublist_of` l) by apply delete_first_sublist.
  assert (Hkeep : ∀ other, (∀ x, other x = true → protected x = true) →
            bfilter other (keep_last (ordinary id tier) n l) = bfilter other l).
  { intros other Hp. apply delete_first_others. intros x Hx%Hp. unfold ordinary. by rewrite Hx, andb_false_r. }
  split.
  - split; cbn.
    + assert (Hl : StronglySorted Z.lt (rct_receipt_id <$> l)).
      { unfold l. rewrite fmap_app. apply StronglySorted_app_2; [|done|by repeat constructor].
        intros x y (r0 & -> & Hr0)%list_elem_of_fmap ->%list_elem_of_singleton. by apply Hf. }
      eapply sorted_sublist; [|exact Hl]. by apply fmap_sublist.
    + intros r0 Hr0. apply (sublist_subseteq _ _ Hsub) in Hr0. unfold l in Hr0.
      apply elem_of_app in Hr0 as [Hr0%Hf| ->%list_elem_of_singleton]; cbn; lia.
    + intros id' tier'.
      change (count (ordinary id' tier') (keep_last (ordinary id tier) n l) ≤
        AGENT_TASK_RECEIPT_RETENTION_COUNTS tier' - count (protected_of id' tier') (keep_last (ordinary id tier) n l)).
      unfold count. rewrite (Hkeep (protected_of id' tier')) by (by intros x [_ ?]%andb_prop).
      destruct (decide (id' = id ∧ tier' = tier)) as [[-> ->]|Hne].
      * unfold keep_last. rewrite delete_first_length. fold (count (ordinary id tier) l). unfold n, count. lia.
      * transitivity (length (bfilter (ordinary id' tier') l)); [by apply sublist_length, sublist_bfilter|].
        unfold l, bfilter. rewrite !List.filter_app, !length_app. cbn.
        assert (Hr : receipt_of id' tier' r = false).
        { unfold receipt_of, str_eqb. cbn. apply andb_false_iff. rewrite !bool_decide_eq_false.
          destruct (decide (id = id')) as [->|]; [right; intros ->; by apply Hne|by left]. }
        unfold ordinary at 2, protected_of at 2. rewrite Hr. cbn. specialize (Hc id' tier').
        unfold count, bfilter in Hc. lia.
    + done.
  - intros r0 Hr0 Hp. change (r0 ∈ keep_last (ordinary id tier) n l). assert (r0 ∈ bfilter protected l) as Hin.
    { apply elem_of_bfilter. split; [done|]. unfold l. apply elem_of_app. by left. }
    rewrite <- (Hkeep protected) in Hin by done. by apply elem_of_bfilter in Hin as [_ Hin].
Qed.

(** ** Frames: which tables an operation leaves alone *)

Definition task_tables (db : TaskDb) := (td_tasks db, td_order db).
Definition episode_tables (db : TaskDb) :=
  (td_episodes db, td_invocations db, td_wrapups db, td_attempts db, td_reports db).

(** Only events, receipts, outputs, notices and routes may differ. *)
Definition same_state (db db' : TaskDb) : Prop :=
  task_tables db' = task_tables db ∧ episode_tables db' = episode_tables db ∧ trace_grows db db'.
#[export] Instance same_state_preorder : PreOrder same_state.
Proof.
  split; [by intros db|]. intros db1 db2 db3 (? & ? & ?) (? & ? & ?). split; [congruence|]. split; [congruence|].
  by transitivity db2.
Qed.

Lemma same_frame db db' :
  task_tables db' = task_tables db → episode_tables db' = episode_tables db → td_receipts db' = td_receipts db →
  td_receipt_seq db' = td_receipt_seq db → td_events db' = td_events db → same_state db db'.
Proof. intros Ht He Hr Hs Hv. split; [done|]. split; [done|by apply trace_same]. Qed.

Section frames.
Context `{JsonText, TextLib}.

Lemma event_frame db id detail level at_ : same_state db (_insert_agent_task_event db id detail level at_).
Proof.
  split; [|split; [|apply event_trace]]; unfold _insert_agent_task_event; by destruct (td_tasks db !! id).
Qed.

Lemma receipt_frame db id category payload tier at_ :
  same_state db (_insert_agent_task_receipt db id category payload tier at_).
Proof. split; [done|]. split; [done|apply receipt_trace]. Qed.

Lemma notice_frame db n db' : _insert_auto_research_lifecycle_notice db n = Commit db' → same_state db db'.
Proof.
  unfold _insert_auto_research_lifecycle_notice. intros Hn. tx_inv Hn.
  apply tx_bind_ok in Hn as (e & _ & Hn). destruct (find _ _) as [stored|].
  - tx_if Hn; [by injection Hn as <-|].
    destruct (_bounded_auto_research_lifecycle_notice n) as [b|]; [|done]. tx_if Hn; [by injection Hn as <-|done].
  - apply tx_bind_ok in Hn as (b & _ & [= <-]). by apply same_frame.
Qed.

Lemma task_notice_frame db id status at_ diagnostic db' :
  _insert_auto_research_task_lifecycle_notice db id status at_ diagnostic = Commit db' → same_state db db'.
Proof.
  unfold _insert_auto_research_task_lifecycle_notice. intros (t & _ & Hn)%tx_bind_ok.
  destruct (notice_route db t) as [route|]; [|by injection Hn as <-].
  destruct route; [exact (notice_frame _ _ _ Hn)|].
  case_bool_decide; [by injection Hn as <-|exact (notice_frame _ _ _ Hn)].
Qed.

Lemma terminalize_frame db id status ending diagnostic at_ db' :
  _terminalize_child_experiment db id status ending diagnostic at_ = Commit db' → same_state db db'.
Proof.
  unfold _terminalize_child_experiment. destruct (td_child_experiments db !! id) as [route|]; [|by intros [= <-]].
  intros Hn. tx_inv Hn. apply notice_frame in Hn. etransitivity; [|exact Hn]. case_decide; [|done]. by apply same_frame.
Qed.
End frames.

(** ** Evolution *)

(** What a task is for its whole life. *)
Definition task_identity (t : AgentTaskRecord) :=
  (task_operation_id t, task_project_id t, task_kind t, task_request t, task_created_at t, task_attempt t,
   task_parent_operation_id t, task_episode_id t, task_graph_target t, task_authorized_by t, task_authority t,
   task_visible t).

(** The table of transitions, and the interruption of a paused task by a restore. *)
Inductive status_step : AgentTaskStatus → AgentTaskStatus → Prop :=
  | status_moves s target : s ∈ AGENT_TASK_TRANSITIONS target → status_step s target
  | status_restored : status_step TaskPaused TaskInterrupted.

Definition is_report (t : AgentTaskRecord) : bool := bool_decide (task_kind t = TaskEpisodeReport).

(** The hidden allocation of a report is restarted by its episode, so its status
    and its scope are not the task's own. *)
Record evolves (t t' : AgentTaskRecord) : Prop := {
  ev_identity : task_identity t' = task_identity t;
  ev_status : is_report t = false → rtc status_step (task_status t) (task_status t');
  ev_session s : task_native_session_id t = Some s → task_native_session_id t' = Some s;
  ev_scope s : is_report t = false → task_write_scope t = Some s → task_write_scope t' = Some s;
  ev_history : task_history_only t = true → task_history_only t' = true }.

Lemma identity_columns t t' : task_identity t' = task_identity t →
  task_operation_id t' = task_operation_id t ∧ is_report t' = is_report t ∧ task_visible t' = task_visible t.
Proof. unfold task_identity, is_report. intros [= -> _ -> _ _ _ _ _ _ _ _ ->]. done. Qed.

#[export] Instance evolves_preorder : PreOrder evolves.
Proof.
  split.
  - intros t. by split.
  - intros t1 t2 t3 [Hi1 Hs1 Hn1 Hw1 Hh1] [Hi2 Hs2 Hn2 Hw2 Hh2].
    destruct (identity_columns _ _ Hi1) as (_ & Hr & _). split; [congruence|..].
    + intros Hf. transitivity (task_status t2); [by apply Hs1|by apply Hs2; rewrite Hr].
    + auto.
    + intros s Hf Hs. apply Hw2; [by rewrite Hr|by apply Hw1].
    + auto.
Qed.

(** Every task of a table is in the next, evolved. *)
Definition tasks_evolve (db db' : TaskDb) : Prop :=
  ∀ id t, td_tasks db !! id = Some t → ∃ t', td_tasks db' !! id = Some t' ∧ evolves t t'.

#[export] Instance tasks_evolve_preorder : PreOrder tasks_evolve.
Proof.
  split; [intros db id t Ht; by exists t|].
  intros db1 db2 db3 H12 H23 id t Ht. destruct (H12 id t Ht) as (t2 & Ht2 & H2).
  destruct (H23 id t2 Ht2) as (t3 & Ht3 & H3). exists t3. split; [done|by transitivity t2].
Qed.

Lemma same_evolve db db' : same_state db db' → tasks_evolve db db'.
Proof. intros [[= Ht _] _] id t. rewrite Ht. intros Hid. by exists t. Qed.

(** ** One row *)

Lemma update_evolves f id db :
  (∀ t, td_tasks db !! id = Some t → evolves t (f t)) → tasks_evolve db (update_task f id db).
Proof.
  intros Hf id' t Ht. unfold update_task. cbn. destruct (decide (id' = id)) as [->|Hne].
  - rewrite lookup_alter_eq, Ht. exists (f t). split; [done|by apply Hf].
  - rewrite lookup_alter_ne by done. by exists t.
Qed.

Lemma fmap_evolves (f : AgentTaskRecord → AgentTaskRecord) db :
  (∀ id t, td_tasks db !! id = Some t → evolves t (f t)) → tasks_evolve db (db <| td_tasks ::= fmap f |>).
Proof.
  intros Hf id t Ht. cbn. rewrite lookup_fmap, Ht. exists (f t). split; [done|by eapply Hf].
Qed.

(** The columns the operations of a task may write, beside its status. *)
Lemma row_evolves t t' :
  task_identity t' = task_identity t → (is_report t = false → rtc status_step (task_status t) (task_status t')) →
  task_native_session_id t' = task_native_session_id t → task_write_scope t' = task_write_scope t →
  task_history_only t' = task_history_only t → evolves t t'.
Proof. intros Hi Hs Hn Hw Hh. split; [done|done|..]; congruence. Qed.

(** ** Well-formed tables *)

(** The task a wrap-up or an attempt works in. *)
Definition allocated (db : TaskDb) (id : string) : Prop :=
  (∃ e w, td_wrapups db !! e = Some w ∧ wrap_allocation w = Some id) ∨
  (∃ k a, td_attempts db !! k = Some a ∧ rat_allocation_operation_id a = id).

(** What a task inherits from the task it continues: the project, the target,
    and the authority, which a continuation never widens. *)
Definition inherits (p t : AgentTaskRecord) : Prop :=
  task_project_id p = task_project_id t ∧ task_graph_target p = task_graph_target t ∧
  if is_report t
  then task_authority t = None ∧ task_episode_id p = task_episode_id t ∧ task_visible p = true ∧ is_report p = false
  else task_kind p = task_kind t ∧ ∀ a, task_authority p = Some a → task_authority t = Some a.

Definition lineage (db : TaskDb) (t : AgentTaskRecord) : Prop :=
  if decide (task_kind t = TaskAutoResearch)
  then ∃ role scope episode_id, task_episode_id t = Some episode_id ∧
         task_authority t = Some (auto_research_authority role scope episode_id)
  else ∀ pid, task_parent_operation_id t = Some pid → ∃ p, td_tasks db !! pid = Some p ∧ inherits p t.

Lemma lineage_evolves db db' t t' : tasks_evolve db db' → evolves t t' → lineage db t → lineage db' t'.
Proof.
  intros Hdb Ht. pose proof (ev_identity _ _ Ht) as Hi. destruct (identity_columns _ _ Hi) as (_ & Hr & _).
  unfold task_identity in Hi. injection Hi as _ Hp Hk _ _ _ Hpar He Hg _ Ha _.
  unfold lineage. rewrite Hk, He, Ha, Hpar. case_decide; [done|]. intros Hl pid Hpid.
  destruct (Hl pid Hpid) as (p & Hpp & Hin). destruct (Hdb _ _ Hpp) as (p' & Hp' & Hev). exists p'. split; [done|].
  pose proof (ev_identity _ _ Hev) as Hi. destruct (identity_columns _ _ Hi) as (_ & Hr' & Hv').
  unfold task_identity in Hi. injection Hi as _ Hpp' Hk' _ _ _ _ He' Hg' _ Ha' _.
  unfold inherits. rewrite Hr, Hr', Hv', Hpp', Hp, Hk', Hk, He', He, Hg', Hg, Ha', Ha. done.
Qed.

(** ** Loops *)

Section laws.
Context `{JsonText, TextLib}.

(** The requests of the root tasks of a loop, in the order of their admission. *)
Definition loop_requests (db : TaskDb) (project_id node_id episode_id : string) : list pydict :=
  task_request <$> loop_roots db project_id node_id episode_id.

(** A loop is admitted one invocation after the other, under the pins of its first
    task, and within the ceiling they name. *)
Record loop_ok (l : list pydict) : Prop := {
  lo_numbers : (λ d, dget d "control_invocation") <$> l = (λ n, Some (PInt n)) <$> seqZ 1 (Z.of_nat (length l));
  lo_pins : StronglySorted (λ a b, same_pins _EXPERIMENT_EPISODE_PINNED_FIELDS a b = true) l;
  lo_ceiling d : d ∈ l → ∃ n c, dget d "control_invocation" = Some (PInt n) ∧
    dget d "control_invocation_ceiling" = Some (PInt c) ∧ (n ≤ c)%Z }.

Lemma loop_requests_evolve db db' p n e :
  td_order db' = td_order db → (∀ id, is_Some (td_tasks db' !! id) → is_Some (td_tasks db !! id)) →
  tasks_evolve db db' → loop_requests db' p n e = loop_requests db p n e.
Proof.
  intros Ho Hdom He. unfold loop_requests, loop_roots, tasks_where. rewrite Ho.
  generalize (td_order db). induction l as [|id l IH]; [done|]. csimpl.
  destruct (td_tasks db !! id) as [t|] eqn:Ht.
  - destruct (He id t Ht) as (t' & -> & Hev). pose proof (ev_identity _ _ Hev) as Hi.
    unfold task_identity in Hi. injection Hi as _ Hp _ Hrq _ _ Hpar _ _ _ _ _.
    assert (loop_root_of p n e t' = loop_root_of p n e t) as Hr.
    { unfold loop_root_of, loop_task, is_root_task. by rewrite Hp, Hrq, Hpar. }
    unfold bfilter in *. csimpl. rewrite Hr. destruct (loop_root_of p n e t); [|exact IH]. csimpl. by rewrite Hrq, IH.
  - destruct (td_tasks db' !! id) as [t'|] eqn:Ht'; [|exact IH]. destruct (Hdom id) as [t0 Ht0]; [by exists t'|congruence].
Qed.

Lemma foldr_max_seqZ m n : (0 ≤ m)%Z →
  foldr Z.max 0%Z (seqZ m (Z.of_nat n)) = match n with O => 0 | S n => m + Z.of_nat n end%Z.
Proof.
  revert m. induction n as [|n IH]; intros m Hm; [done|]. rewrite Nat2Z.inj_succ, seqZ_cons, Z.pred_succ by lia.
  cbn [foldr]. rewrite IH by lia. destruct n; lia.
Qed.

Record store_wf (db : TaskDb) : Prop := {
  sw_keyed id t : td_tasks db !! id = Some t → task_operation_id t = id;
  sw_order id : id ∈ td_order db ↔ is_Some (td_tasks db !! id);
  sw_nodup : NoDup (td_order db);
  sw_allocated id : allocated db id → ∃ t, td_tasks db !! id = Some t ∧ is_report t = true ∧ task_visible t = false;
  sw_lineage id t : td_tasks db !! id = Some t → lineage db t;
  sw_loops p n e : loop_ok (loop_requests db p n e) }.

(** What every operation does to a well-formed store. *)
Definition keeps (db db' : TaskDb) : Prop :=
  (store_wf db → store_wf db' ∧ tasks_evolve db db') ∧ trace_grows db db'.
#[export] Instance keeps_preorder : PreOrder keeps.
Proof.
  split; [by intros db|]. intros db1 db2 db3 [H12 T12] [H23 T23]. split; [|by transitivity db2].
  intros Hwf. destruct (H12 Hwf) as [Hwf2 E12]. destruct (H23 Hwf2) as [Hwf3 E23]. split; [done|by transitivity db2].
Qed.

Lemma keeps_frame db db' :
  task_tables db' = task_tables db → trace_grows db db' → (store_wf db → ∀ id, allocated db' id → allocated db id) →
  keeps db db'.
Proof.
  intros [= Ht Ho] Htr Ha. split; [|done]. intros Hwf.
  assert (He : tasks_evolve db db') by (intros id t Hid; rewrite Ht; by exists t). split; [|done].
  destruct Hwf as [Hk Hor Hn Hal Hl Hlo]. split.
  - rewrite Ht. exact Hk.
  - intros id. rewrite Ht, Ho. apply Hor.
  - by rewrite Ho.
  - intros id Hid. rewrite Ht. apply Hal, Ha; [by split|done].
  - intros id t. rewrite Ht. intros Hid. eapply lineage_evolves; [exact He|reflexivity|by eapply Hl].
  - intros p n e. rewrite (loop_requests_evolve db) by (done || by rewrite Ht). apply Hlo.
Qed.

Lemma keeps_same db db' : same_state db db' → keeps db db'.
Proof.
  intros (Ht & [= _ _ Hw Ha _] & Htr). apply keeps_frame; [done..|]. intros _ id. unfold allocated. by rewrite Hw, Ha.
Qed.

(** Rows that evolve in place. *)
Lemma keeps_rows db db' :
  td_order db' = td_order db → td_wrapups db' = td_wrapups db → td_attempts db' = td_attempts db →
  td_receipts db' = td_receipts db → td_receipt_seq db' = td_receipt_seq db → td_events db' = td_events db →
  (∀ id, is_Some (td_tasks db' !! id) → is_Some (td_tasks db !! id)) → (store_wf db → tasks_evolve db db') → keeps db db'.
Proof.
  intros Ho Hw Ha Hrc Hsq Hvt Hdom Hev. split; [|by apply trace_same]. intros Hwf. specialize (Hev Hwf). split; [|done].
  destruct Hwf as [Hk Hor Hn Hal Hl Hlo].
  assert (Hback : ∀ id t', td_tasks db' !! id = Some t' → ∃ t, td_tasks db !! id = Some t ∧ evolves t t').
  { intros id t' Ht'. destruct (Hdom id) as [t Ht]; [by exists t'|]. exists t. split; [done|].
    destruct (Hev id t Ht) as (t2 & Ht2 & He). by simplify_eq. }
  split.
  - intros id t' Ht'. destruct (Hback _ _ Ht') as (t & Ht & He).
    destruct (identity_columns _ _ (ev_identity _ _ He)) as (-> & _). by apply Hk.
  - intros id. rewrite Ho, Hor. split; [|apply Hdom]. intros [t Ht]. destruct (Hev _ _ Ht) as (t' & Ht' & _). by exists t'.
  - by rewrite Ho.
  - intros id. unfold allocated. rewrite Hw, Ha. intros (t & Ht & Hr & Hv)%Hal.
    destruct (Hev _ _ Ht) as (t' & Ht' & He). exists t'. destruct (identity_columns _ _ (ev_identity _ _ He)) as (_ & -> & ->). done.
  - intros id t' Ht'. destruct (Hback _ _ Ht') as (t & Ht & He). eapply lineage_evolves; [exact Hev|exact He|by eapply Hl].
  - intros p n e. by rewrite (loop_requests_evolve db).
Qed.

Lemma keeps_update f id db :
  (store_wf db → ∀ t, td_tasks db !! id = Some t → evolves t (f t)) → keeps db (update_task f id db).
Proof.
  intros Hf. apply keeps_rows; [done..| |].
  - intros id'. unfold update_task. cbn. rewrite lookup_alter_is_Some. done.
  - intros Hwf. apply update_evolves. by apply Hf.
Qed.

Lemma keeps_fmap f db :
  (store_wf db → ∀ id t, td_tasks db !! id = Some t → evolves t (f t)) → keeps db (db <| td_tasks ::= fmap f |>).
Proof.
  intros Hf. apply keeps_rows; [done..| |].
  - intros id'. cbn. by rewrite lookup_fmap, fmap_is_Some.
  - intros Hwf. apply fmap_evolves. by apply Hf.
Qed.

(** The hidden task of a report, rewritten by its episode. *)
Lemma keeps_allocation f id db :
  (store_wf db → allocated db id) →
  (∀ t, task_identity (f t) = task_identity t ∧ task_native_session_id (f t) = task_native_session_id t ∧
        task_history_only (f t) = task_history_only t) → keeps db (update_task f id db).
Proof.
  intros Ha Hf. apply keeps_update. intros Hwf t Ht.
  destruct (sw_allocated _ Hwf id (Ha Hwf)) as (t0 & Ht0 & Hr & _). simplify_eq.
  destruct (Hf t) as (Hi & Hn & Hh). split; [done|congruence..].
Qed.

(** The task continues every loop it is a root of. *)
Definition loop_admits (db : TaskDb) (t : AgentTaskRecord) : Prop :=
  ∀ p n e, loop_root_of p n e t = true → loop_ok (loop_requests db p n e) →
    loop_ok (loop_requests db p n e ++ [task_request t]).

Lemma keeps_insert db t :
  td_tasks db !! task_operation_id t = None → lineage db t → loop_admits db t →
  keeps db (db <| td_tasks ::= <[task_operation_id t := t]> |> <| td_order ::= (.++ [task_operation_id t]) |>).
Proof.
  intros Hnew Hlin Hadm. split; [|by apply trace_same]. intros [Hk Hor Hn Hal Hl Hlo]. set (db' := db <| td_tasks ::= _ |> <| td_order ::= _ |>).
  assert (He : tasks_evolve db db').
  { intros id t0 Ht0. cbn. exists t0. rewrite lookup_insert_ne; [done|congruence]. }
  split; [|done].
  - split; cbn.
    + intros id t0. rewrite lookup_insert_Some. intros [[<- <-]|[_ Ht]]; [done|by apply Hk].
    + intros id. rewrite elem_of_app, list_elem_of_singleton, lookup_insert_is_Some, Hor.
      destruct (decide (task_operation_id t = id)); naive_solver.
    + apply NoDup_app. split; [done|]. split; [|apply NoDup_singleton].
      intros id Hid ->%list_elem_of_singleton. apply Hor in Hid as [t0 Ht0]. congruence.
    + intros id (t0 & Ht0 & Hr & Hv)%Hal. exists t0. rewrite lookup_insert_ne; [done|congruence].
    + intros id t0 Ht0. apply (lineage_evolves db _ t0); [exact He|done|].
      apply lookup_insert_Some in Ht0 as [[_ <-]|[_ Ht0]]; [done|by eapply Hl].
    + intros p n e. change (loop_ok (loop_requests db' p n e)).
      assert (loop_requests db' p n e = loop_requests db p n e ++ if loop_root_of p n e t then [task_request t] else []) as ->.
      { unfold loop_requests, loop_roots, tasks_where.
        change (td_order db') with (td_order db ++ [task_operation_id t]).
        change (td_tasks db') with (<[task_operation_id t := t]> (td_tasks db)).
        rewrite omap_app. unfold bfilter. rewrite List.filter_app, fmap_app. cbn. rewrite lookup_insert_eq. cbn.
        f_equal; [|by destruct (loop_root_of p n e t)]. do 2 f_equal. apply list_omap_ext.
        apply Forall2_same_length_lookup_2; [done|]. intros i id1 id2 H1 H2. simplify_eq.
        rewrite lookup_insert_ne; [done|]. intros <-. apply list_elem_of_lookup_2, Hor in H1 as [t0 H1]. congruence. }
      destruct (loop_root_of p n e t) eqn:Hr; [by apply Hadm|by rewrite app_nil_r].
Qed.

Lemma keeps_episode f id db : keeps db (update_episode f id db).
Proof. apply keeps_frame; [done|by apply trace_same|done]. Qed.

Lemma keeps_wrapup f id db :
  (∀ w, td_wrapups db !! id = Some w → wrap_allocation (f w) = wrap_allocation w) → keeps db (update_wrapup f id db).
Proof.
  intros Hf. apply keeps_frame; [done|by apply trace_same|]. intros _ op [(e & w & Hw & Ho)|Ha]; [left|by right].
  unfold update_wrapup in Hw. cbn in Hw. apply lookup_alter_Some in Hw as [(<- & w0 & Hw0 & ->)|[_ Hw]].
  - exists id, w0. by rewrite <- Hf.
  - by exists e, w.
Qed.

Lemma keeps_attempt f id db :
  (∀ a, rat_allocation_operation_id (f a) = rat_allocation_operation_id a) → keeps db (update_attempt f id db).
Proof.
  intros Hf. apply keeps_frame; [done|by apply trace_same|]. intros _ op [Hw|(k & a & Hk & Ho)]; [by left|right].
  unfold update_attempt in Hk. cbn in Hk. apply lookup_alter_Some in Hk as [(<- & a0 & Ha0 & ->)|[_ Hk]].
  - exists id, a0. by rewrite <- Hf.
  - by exists k, a.
Qed.

(** ** Transitions *)

Definition untouched (f : AgentTaskRecord → AgentTaskRecord) : Prop :=
  ∀ t, task_identity (f t) = task_identity t ∧ task_native_session_id (f t) = task_native_session_id t ∧
       task_write_scope (f t) = task_write_scope t ∧ task_history_only (f t) = task_history_only t.

Lemma untouched_evolves f t :
  untouched f → (is_report t = false → rtc status_step (task_status t) (task_status (f t))) → evolves t (f t).
Proof. intros Hf Hs. destruct (Hf t) as (Hi & Hn & Hw & Hh). split; [done|done|congruence..]. Qed.

Lemma untouched_keeps f id db :
  untouched f → (∀ t, task_status (f t) = task_status t) → keeps db (update_task f id db).
Proof. intros Hf Hs. apply keeps_update. intros _ t _. apply untouched_evolves; [done|]. by rewrite Hs. Qed.

Lemma transition_keeps db id target f :
  untouched f → keeps db (_transition_agent_task db id target f).1.
Proof.
  intros Hf. unfold _transition_agent_task. destruct (td_tasks db !! id) as [t|] eqn:Ht; [|done].
  destruct (among _ _) eqn:Hin; [|done]. cbn. apply keeps_update. intros _ t0 Ht0. simplify_eq.
  apply (untouched_evolves (λ t, (f t) <| task_status := target |>)); [exact Hf|].
  intros _. apply rtc_once. constructor. by apply bool_decide_eq_true in Hin.
Qed.

Lemma settle_keeps db id label now target f applied db' :
  untouched f →
  (∀ db1 db2, applied db1 = Commit db2 → keeps db1 db2) →
  settle_transition id label now (_transition_agent_task db id target f) applied = Commit db' → keeps db db'.
Proof.
  intros Hf Hk. pose proof (transition_keeps db id target f Hf) as Ht.
  destruct (_transition_agent_task db id target f) as [db1 [|observed|]]; cbn in *; [done| |].
  - intros [= <-]. etransitivity; [exact Ht|]. apply keeps_same, event_frame.
  - intros Hc. etransitivity; [exact Ht|by apply Hk].
Qed.

Lemma event_keeps db id detail level at_ : keeps db (_insert_agent_task_event db id detail level at_).
Proof. apply keeps_same, event_frame. Qed.

Lemma receipt_keeps db id category payload tier at_ : keeps db (_insert_agent_task_receipt db id category payload tier at_).
Proof. apply keeps_same, receipt_frame. Qed.

Lemma task_notice_keeps db id status at_ diagnostic db' :
  _insert_auto_research_task_lifecycle_notice db id status at_ diagnostic = Commit db' → keeps db db'.
Proof. intros Hn. by eapply keeps_same, task_notice_frame. Qed.

Lemma terminalize_keeps db id status ending diagnostic at_ db' :
  _terminalize_child_experiment db id status ending diagnostic at_ = Commit db' → keeps db db'.
Proof. intros Ht. by eapply keeps_same, terminalize_frame. Qed.

Lemma settlement_keeps db id message level category payload status diagnostic now db' :
  record_settlement db id message level category payload status diagnostic now = Commit db' → keeps db db'.
Proof.
  unfold record_settlement. intros Hs. etransitivity; [apply event_keeps|]. etransitivity; [apply receipt_keeps|].
  by eapply task_notice_keeps.
Qed.

Lemma mark_running_keeps db id now db' : mark_agent_task_running db id now = Commit db' → keeps db db'.
Proof. apply settle_keeps; [done|]. intros db1 db2 [= <-]. apply event_keeps. Qed.

Lemma pause_request_keeps db id who now db' : request_agent_task_pause db id who now = Commit db' → keeps db db'.
Proof.
  unfold request_agent_task_pause. set (f := λ t, _). pose proof (transition_keeps db id TaskPausing f) as Ht.
  destruct (_transition_agent_task _ _ _ _) as [db1 [|observed|]]; [done..|]. intros [= <-].
  etransitivity; [by apply Ht|apply event_keeps].
Qed.

Lemma pause_keeps db id detail result now db' : pause_agent_task db id detail result now = Commit db' → keeps db db'.
Proof. apply settle_keeps; [done|]. intros db1 db2. apply settlement_keeps. Qed.

Lemma complete_keeps db id revision result now db' :
  complete_agent_task db id revision result now = Commit db' → keeps db db'.
Proof.
  apply settle_keeps; [done|]. intros db1 db2 Hs. etransitivity; [|by eapply settlement_keeps].
  destruct (get_is _ _); [done|]. by apply keeps_same, same_frame.
Qed.

Lemma fail_keeps db id error interrupted result now db' :
  fail_agent_task db id error interrupted result now = Commit db' → keeps db db'.
Proof. apply settle_keeps; [done|]. intros db1 db2. apply settlement_keeps. Qed.

(** ** Checkpoints *)

Lemma message_keeps db id message phase event now db' :
  update_agent_task_message db id message phase event now = Commit db' → keeps db db'.
Proof.
  unfold update_agent_task_message. intros (t & _ & Hm)%tx_bind_ok. destruct (among _ _); [|by injection Hm as <-].
  injection Hm as <-. destruct event; [etransitivity; [|apply event_keeps]|]; by apply untouched_keeps.
Qed.

Lemma checkpoint_keeps db id session host root now db' :
  checkpoint_agent_task db id session host root now = Commit db' → keeps db db'.
Proof.
  unfold checkpoint_agent_task. intros (t & Ht%found_ok & Hc)%tx_bind_ok. tx_inv Hc. injection Hc as <-.
  apply keeps_update. intros _ t0 Ht0. simplify_eq. split; [done|by intros _|..|done|done].
  intros s Hs. cbn. rewrite Hs in *. destruct session as [s'|]; [|done]. cbn in Hcheck.
  by apply bool_decide_eq_true in Hcheck as [= ->].
Qed.

Lemma runtime_keeps db id provider runtime now db' :
  checkpoint_agent_task_runtime db id provider runtime now = Commit db' → keeps db db'.
Proof.
  unfold checkpoint_agent_task_runtime. intros (_ & _ & (t & _ & Hc)%tx_bind_ok)%tx_bind_ok. tx_inv Hc.
  destruct (receipts_of _ _ _) as [|r [|? ?]]; [|tx_inv Hc|done]; injection Hc as <-; [|done].
  etransitivity; [|apply receipt_keeps]. by apply untouched_keeps.
Qed.

Lemma write_scope_keeps db id project host root fingerprint now db' :
  bind_agent_task_write_scope db id project host root fingerprint now = Commit db' → keeps db db'.
Proof.
  unfold bind_agent_task_write_scope. intros Hb. tx_inv Hb. apply tx_bind_ok in Hb as (t & Ht%found_ok & Hb).
  tx_inv Hb. injection Hb as <-. apply keeps_update. intros _ t0 Ht0. simplify_eq.
  split; [done|by intros _|done| |done]. intros s _ Hs. cbn. rewrite Hs in *. by apply bool_decide_eq_true in Hcheck2 as <-.
Qed.

Lemma clear_stage_keeps db id now : keeps db (clear_agent_task_stage db id now).
Proof. by apply untouched_keeps. Qed.
(** ** Restart and history *)

Lemma elem_of_tasks_where P db t :
  t ∈ tasks_where P db ↔ P t = true ∧ ∃ id, id ∈ td_order db ∧ td_tasks db !! id = Some t.
Proof. unfold tasks_where. rewrite elem_of_bfilter, list_elem_of_omap. done. Qed.

(** The operations a query selects. *)
Lemma selected_operation db P id t :
  store_wf db → td_tasks db !! id = Some t →
  mem (task_operation_id t) (task_operation_id <$> tasks_where P db) = P t.
Proof.
  intros Hwf Ht. apply Bool.eq_iff_eq_true. rewrite mem_true, list_elem_of_fmap. split.
  - intros (t' & Hid & (HP & id' & _ & Ht')%elem_of_tasks_where).
    rewrite (sw_keyed _ Hwf _ _ Ht), (sw_keyed _ Hwf _ _ Ht') in Hid. subst. by simplify_eq.
  - intros HP. exists t. split; [done|]. apply elem_of_tasks_where. split; [done|]. exists id. split; [|done].
    apply (sw_order _ Hwf). by exists t.
Qed.

Lemma interrupt_rows_keeps detail finished now ids db :
  (store_wf db → ∀ id t, td_tasks db !! id = Some t → mem (task_operation_id t) ids = true → is_report t = false →
     status_step (task_status t) TaskInterrupted) →
  keeps db (interrupt_rows detail finished now ids db).
Proof.
  intros Hs. apply keeps_fmap. intros Hwf id t Ht. destruct (mem _ _) eqn:Hm; [|done].
  apply (untouched_evolves (interrupt_row detail finished now)); [done|]. intros Hr. apply rtc_once.
  by apply (Hs Hwf id).
Qed.

Lemma tx_fold_keeps {A} (f : TaskDb → A → tx TaskDb) l db db' :
  (∀ db x db', x ∈ l → f db x = Commit db' → keeps db db') → tx_fold f db l = Commit db' → keeps db db'.
Proof.
  intros Hf. apply (tx_fold_inv (keeps db)); [|done]. intros db1 x db2 Hx H1 H2. etransitivity; [exact H1|by eapply Hf].
Qed.

Lemma interrupt_keeps db preserve now db' :
  interrupt_active_agent_tasks db preserve now = Commit db' → keeps db db'.
Proof.
  unfold interrupt_active_agent_tasks. set (ids := task_operation_id <$> _). intros Hf.
  etransitivity; [apply (interrupt_rows_keeps RESTART_DETAIL (λ _, Some now) now ids)|].
  - intros Hwf id t Ht. unfold ids. rewrite (selected_operation db _ id t Hwf Ht). intros [Hst _]%andb_prop _.
    constructor. by apply bool_decide_eq_true in Hst.
  - eapply tx_fold_keeps; [|exact Hf]. intros db1 id db2 _ (db3 & Hn & [= <-])%tx_bind_ok.
    etransitivity; [by eapply task_notice_keeps|]. etransitivity; [apply event_keeps|apply receipt_keeps].
Qed.

Lemma history_keeps db ids db' : detach_agent_tasks_for_history db ids = Commit db' → keeps db db'.
Proof.
  unfold detach_agent_tasks_for_history. destruct (is_nil _); [by intros [= <-]|]. intros Hd. tx_inv Hd.
  apply tx_bind_ok in Hd as (_ & _ & Hd). tx_inv Hd. injection Hd as <-.
  apply keeps_fmap. intros _ id t _. destruct (mem _ _); [|done]. by split.
Qed.

Lemma foldl_keeps {A} (f : TaskDb → A → TaskDb) l db : (∀ db x, keeps db (f db x)) → keeps db (foldl f db l).
Proof. intros Hf. revert db. induction l as [|x l IH]; intros db; [done|]. cbn. etransitivity; [apply Hf|apply IH]. Qed.

Lemma restore_keeps db diagnostic now db' :
  detach_agent_tasks_for_restore db diagnostic now = Commit db' → keeps db db'.
Proof.
  unfold detach_agent_tasks_for_restore. intros Hd. tx_inv Hd. etransitivity; [|by eapply history_keeps].
  etransitivity; [|apply foldl_keeps; intros db1 id; etransitivity; [apply event_keeps|apply receipt_keeps]].
  apply interrupt_rows_keeps. intros Hwf id t Ht. rewrite mem_true, elem_of_py_sorted, <- mem_true.
  rewrite (selected_operation db _ id t Hwf Ht). unfold task_settled, among. intros Hn _.
  destruct (task_status t) eqn:Hst; try done; (apply status_restored || (constructor; set_solver)).
Qed.

(** ** Admission *)

Lemma bind_chat_stage_identity db t t' :
  _bind_chat_stage db t = Commit t' →
  task_identity t' = task_identity t ∧ task_status t' = task_status t ∧
  task_native_session_id t' = task_native_session_id t ∧ task_history_only t' = task_history_only t.
Proof.
  unfold _bind_chat_stage. destruct (_ || _); [by intros [= <-]|]. intros Hb. tx_inv Hb.
  apply tx_bind_ok in Hb as ([|[host root] others] & _ & Hb); [by injection Hb as <-|].
  tx_inv Hb. by injection Hb as <-.
Qed.

Lemma insert_row_ok db t db' :
  insert_task_row db t = Commit db' →
  td_tasks db !! task_operation_id t = None ∧
  db' = db <| td_tasks ::= <[task_operation_id t := t]> |> <| td_order ::= (.++ [task_operation_id t]) |>.
Proof.
  unfold insert_task_row. intros Hi. tx_inv Hi. injection Hi as <-. by destruct (td_tasks db !! _).
Qed.

(** What an admitted task went through. *)
Lemma insert_task_ok db t cause db' :
  _insert_agent_task db t cause = Commit db' →
  ∃ t' db1, _validate_dispatch_authority_insert db t = Commit tt ∧ _bind_chat_stage db t = Commit t' ∧
    _validate_experiment_task_insert db t' = Commit tt ∧ _validate_graph_target_insert db t' = Commit tt ∧
    insert_task_row db t' = Commit db1 ∧ same_state db1 db'.
Proof.
  unfold _insert_agent_task. intros Hi. tx_inv Hi.
  apply tx_bind_ok in Hi as ([] & Ha & (t' & Hb & ([] & He & ([] & Hg & (db1 & Hr & Hi)%tx_bind_ok)%tx_bind_ok)%tx_bind_ok)%tx_bind_ok).
  exists t', db1. injection Hi as <-. split_and!; try done. apply receipt_frame.
Qed.

Lemma tx_map_found (f : pydict → option Z) (g : AgentTaskRecord → option Z) l ns :
  (∀ r, g r = f (task_request r)) → tx_map (λ r, found (g r) StoreValueError) l = Commit ns →
  f <$> (task_request <$> l) = Some <$> ns.
Proof.
  intros Hg Hm%tx_map_ok. induction Hm as [|r n l ns Hr%found_ok _ IH]; [done|]. cbn. f_equal; [by rewrite <- Hg|exact IH].
Qed.

Lemma strongly_sorted_snoc {A} (R : relation A) l x : StronglySorted R l → (∀ y, y ∈ l → R y x) → StronglySorted R (l ++ [x]).
Proof. intros Hl Hx. apply StronglySorted_app_2; [|done|by repeat constructor]. intros y z Hy ->%list_elem_of_singleton. by apply Hx. Qed.

(** The validation of a loop task admits it to its loop. *)
Lemma experiment_admits db t : _validate_experiment_task_insert db t = Commit tt → loop_admits db t.
Proof.
  intros Hv p n e Hr [Hnum Hpin Hceil]. unfold loop_root_of, loop_task in Hr. rewrite !andb_true_iff in Hr.
  destruct Hr as ((((Hp & Hkind) & Hn) & Hroot) & He). unfold _validate_experiment_task_insert in Hv. rewrite Hkind in Hv.
  cbn [negb] in Hv. apply tx_bind_ok in Hv as (pins & Hpins & Hv).
  apply get_is_true in Hn, He. apply bool_decide_eq_true in Hp. unfold is_root_task in Hroot.
  destruct (task_parent_operation_id t); [done|]. cbn in Hv.
  unfold loop_pins, req_str, req_int in Hpins. rewrite Hn, He in Hpins. cbn [found] in Hpins.
  apply tx_bind_ok in Hpins as (node & [= <-] & Hpins). tx_inv Hpins. apply tx_bind_ok in Hpins as (rev & _ & Hpins).
  tx_inv Hpins. apply tx_bind_ok in Hpins as (ep & [= <-] & Hpins). tx_inv Hpins.
  apply tx_bind_ok in Hpins as (inv & Hinv%found_ok & Hpins). tx_inv Hpins.
  apply tx_bind_ok in Hpins as (ceil & Hceilv%found_ok & Hpins). tx_inv Hpins. injection Hpins as <-.
  unfold validate_loop_root in Hv. cbn zeta in Hv. tx_inv Hv. cbn [lp_node_id lp_episode_id lp_invocation] in *.
  apply tx_bind_ok in Hv as (ns & Hns & Hv). cbn zeta in Hv. tx_inv Hv. clear Hv.
  rewrite Hp in *. fold (loop_requests db p n e) in *.
  apply (tx_map_found (λ d, match dget d "control_invocation" with Some (PInt n) => Some n | _ => None end)) in Hns; [|done].
  fold (loop_requests db p n e) in Hns. set (l := loop_requests db p n e) in *.
  assert (ns = seqZ 1 (Z.of_nat (length l))) as ->.
  { apply (inj (fmap Some)). rewrite <- Hns. apply (f_equal (fmap (λ v, match v with Some (PInt n) => Some n | _ => None end))) in Hnum.
    rewrite <- !list_fmap_compose in Hnum. exact Hnum. }
  rewrite foldr_max_seqZ in Hcheck9 by lia. apply Z.eqb_eq in Hcheck9.
  assert (Hinv' : dget (task_request t) "control_invocation" = Some (PInt (1 + Z.of_nat (length l)))).
  { destruct (dget _ "control_invocation") as [[]|]; try done. injection Hinv as ->. do 2 f_equal. destruct l; cbn in *; lia. }
  split.
  - rewrite length_app, Nat2Z.inj_add, seqZ_app, !fmap_app, Hnum by lia. f_equal. cbn. by rewrite Hinv'.
  - apply strongly_sorted_snoc; [done|]. intros d (r & -> & Hrl)%list_elem_of_fmap.
    rewrite forallb_forall in Hcheck8. apply Hcheck8. by apply list_elem_of_In.
  - intros d [Hd| ->%list_elem_of_singleton]%elem_of_app; [by apply Hceil|].
    apply andb_prop in Hcheck5 as [_ Hle]. exists (1 + Z.of_nat (length l))%Z, ceil. split; [done|].
    destruct (dget _ "control_invocation") as [[]|]; try done. injection Hinv as ->. injection Hinv' as ->.
    destruct (dget _ "control_invocation_ceiling") as [[]|]; try done. injection Hceilv as ->. split; [done|lia].
Qed.

(** The validation of its authority binds a task to the one it continues. *)
Lemma authority_lineage db t t' :
  _validate_dispatch_authority_insert db t = Commit tt → _validate_graph_target_insert db t' = Commit tt →
  task_identity t' = task_identity t → lineage db t'.
Proof.
  intros Ha Hg Hi. destruct (identity_columns _ _ Hi) as (_ & Hr & _). unfold task_identity in Hi.
  injection Hi as _ Hp Hk _ _ _ Hpar He Htg _ Hau _. unfold lineage, inherits. rewrite Hr, Hp, Hk, Hpar, He, Hau.
  assert (Htarget : ∀ pid p, task_parent_operation_id t = Some pid → td_tasks db !! pid = Some p →
            task_graph_target p = task_graph_target t').
  { intros pid p Hpid Hpp. unfold _validate_graph_target_insert in Hg. apply tx_bind_ok in Hg as (_ & _ & Hg).
    rewrite Hpar, Hpid in Hg. cbn in Hg. rewrite Hpp in Hg. by apply check_that_ok, bool_decide_eq_true in Hg. }
  unfold _validate_dispatch_authority_insert in Ha. unfold is_report.
  destruct (task_kind t) eqn:Hkind.
  6: { rewrite decide_True by done. apply tx_bind_ok in Ha as (ep & Hep%found_ok & Ha). tx_inv Ha.
       apply tx_bind_ok in Ha as (role & _ & (actor & _ & Ha)%tx_bind_ok). cbn zeta in Ha. tx_inv Ha.
       apply tx_bind_ok in Ha as (scope & _ & Ha). cbn zeta in Ha. tx_inv Ha.
       apply tx_bind_ok in Ha as (dispatch & _ & Ha). tx_inv Ha.
       exists role, scope, ep. split; [done|]. by eapply bool_decide_eq_true. }
  7: { rewrite decide_False by done. rewrite bool_decide_eq_true_2 by done.
       apply tx_bind_ok in Ha as (ep & Hep%found_ok & (pid & Hpid%found_ok & Ha)%tx_bind_ok). tx_inv Ha.
       apply tx_bind_ok in Ha as (p & Hpp%found_ok & Hok%check_that_ok). rename Hok into Ha. rewrite Hpid. intros pid0 Hpid0. simplify_eq.
       exists p. split; [done|]. rewrite !andb_true_iff, !negb_true_iff in Ha. unfold str_eqb in Ha.
       rewrite !bool_decide_eq_true in Ha. destruct Ha as (((Hpe & Hvis) & Hnr) & Hproj). rewrite Hep.
       split; [done|]. split; [by eapply Htarget|]. split; [by destruct (task_authority t)|]. done. }
  all: rewrite decide_False by done; rewrite bool_decide_eq_false_2 by done; intros pid Hpid; rewrite Hpid in Ha;
    apply tx_bind_ok in Ha as (p & Hpp%found_ok & Ha); tx_inv Ha; apply andb_prop in Hcheck as [Hproj Hpk];
    apply bool_decide_eq_true in Hproj, Hpk; exists p; split; [done|]; split; [done|]; split; [by eapply Htarget|];
    split; [done|]; intros a Hpa; rewrite Hpa in Ha; by apply check_that_ok, bool_decide_eq_true in Ha.
Qed.

Lemma insert_task_keeps db t cause db' : _insert_agent_task db t cause = Commit db' → keeps db db'.
Proof.
  intros (t' & db1 & Ha & [Hi _]%bind_chat_stage_identity & He & Hg & [Hnew ->]%insert_row_ok & Hs)%insert_task_ok.
  etransitivity; [apply keeps_insert; [done|by eapply authority_lineage|by apply experiment_admits]|by apply keeps_same].
Qed.

Lemma create_task_keeps db t cause db' : create_agent_task db t cause = Commit db' → keeps db db'.
Proof.
  unfold create_agent_task. intros Hc. tx_inv Hc. apply tx_bind_ok in Hc as (_ & _ & Hc). tx_inv Hc.
  by eapply insert_task_keeps, integrity_as_value_error_ok.
Qed.

Lemma create_merge_keeps db t db' : create_branch_merge_task db t = Commit db' → keeps db db'.
Proof.
  unfold create_branch_merge_task. intros Hc. tx_inv Hc. destruct (td_tasks db !! _) as [stored|].
  - tx_inv Hc. by injection Hc as <-.
  - apply tx_bind_ok in Hc as (_ & _ & (e & _ & Hc)%tx_bind_ok). tx_inv Hc.
    by eapply insert_task_keeps, integrity_as_value_error_ok.
Qed.

Lemma record_receipt_keeps db id category payload tier now db' :
  record_agent_task_receipt db id category payload tier now = Commit db' → keeps db db'.
Proof.
  unfold record_agent_task_receipt. destruct (str_eqb _ _); [by intros [= <-]|]. intros Hr. tx_inv Hr.
  injection Hr as <-. apply receipt_keeps.
Qed.

Lemma record_event_keeps db id message level now : keeps db (record_agent_task_event db id message level now).
Proof. unfold record_agent_task_event. cbn zeta. destruct (str_eqb _ _); [done|apply event_keeps]. Qed.
End laws.
