(* ===== verification/StoreLaws.v ===== *)
(** The store as one machine: every operation on tasks and episodes, and the
    refinement they share: no task is lost, each evolves along the life of a task,
    and its receipts of dispatch go only by ageing out. *)

From S2P Require Export TaskLaws Episodes.

Section episodes.
Context `{JsonText, TextLib}.

(** ** What the episodes do to the tasks *)

Lemma insert_episode_keeps db e db' : _insert_episode db e = Commit db' → keeps db db'.
Proof. unfold _insert_episode. intros Hi. tx_inv Hi. injection Hi as <-. apply keeps_frame; [done|by apply trace_same|done]. Qed.

Lemma insert_invocation_keeps db i db' : insert_invocation db i = Commit db' → keeps db db'.
Proof. unfold insert_invocation. intros Hi. tx_inv Hi. injection Hi as <-. apply keeps_frame; [done|by apply trace_same|done]. Qed.

Lemma insert_wrapup_keeps db w db' :
  (∀ id, wrap_allocation w = Some id → store_wf db → ∃ t, td_tasks db !! id = Some t ∧ is_report t = true ∧ task_visible t = false) →
  _insert_episode_wrapup db w = Commit db' → keeps db db'.
Proof.
  unfold _insert_episode_wrapup. intros Hw Hi. tx_inv Hi. injection Hi as <-. split; [|by apply trace_same].
  intros Hwf. split; [|intros id t Ht; by exists t]. pose proof Hwf as [Hk Ho Hn Ha Hl Hlo]. split; [done..| |done|done].
  intros id [(e & v & Hv & Hid)|Hid]; [|apply Ha; by right].
  cbn in Hv. apply lookup_insert_Some in Hv as [[_ <-]|[_ Hv]]; [by apply Hw|].
  apply Ha. left. by exists e, v.
Qed.

Lemma insert_attempt_keeps db a db' :
  (store_wf db → allocated db (rat_allocation_operation_id a)) → insert_attempt db a = Commit db' → keeps db db'.
Proof.
  unfold insert_attempt. intros Hal Hi. tx_inv Hi. injection Hi as <-. apply keeps_frame; [done|by apply trace_same|].
  intros Hwf id [Hid|(k & b & Hb & <-)]; [by left|]. cbn in Hb.
  apply lookup_insert_Some in Hb as [[_ <-]|[_ Hb]]; [by apply Hal|]. right. by exists k, b.
Qed.

Lemma load_episode_ok db id e : load_episode db id = Commit e → td_episodes db !! id = Some e ∧ lifecycle_is_coherent e = true.
Proof.
  unfold load_episode, _episode_record. intros (row & Hr%found_ok & Hc)%tx_bind_ok. tx_inv Hc. by injection Hc as <-.
Qed.

Lemma close_failed_keeps db id ending error allocation finished now db' :
  allocated db allocation →
  close_failed_report db id ending error allocation finished now = Commit db' → keeps db db'.
Proof.
  unfold close_failed_report. intros Ha Hc. set (db1 := update_wrapup _ _ _) in Hc.
  transitivity db1; [etransitivity; [apply keeps_episode|by apply keeps_wrapup]|].
  etransitivity; [|by eapply terminalize_keeps]. apply keeps_allocation; [|done].
  intros _. destruct Ha as [(e & w & Hw & Hid)|Ha']; [|by right].
  left. unfold db1, update_wrapup. cbn. destruct (decide (e = id)) as [->|Hne].
  - exists id, (settle_wrapup WrapFailed (Some error) now w). by rewrite lookup_alter_eq, Hw.
  - exists e, w. by rewrite lookup_alter_ne.
Qed.

Lemma create_episode_keeps db e db' : create_episode db e = Commit db' → keeps db db'.
Proof.
  unfold create_episode. intros Hc. tx_inv Hc. apply tx_bind_ok in Hc as (_ & _ & Hc). tx_inv Hc.
  by eapply insert_episode_keeps, integrity_as_value_error_ok.
Qed.

Lemma create_with_invocation_keeps db e root db' : create_episode_with_invocation db e root = Commit db' → keeps db db'.
Proof.
  unfold create_episode_with_invocation. intros Hc. tx_inv Hc. destruct (td_episodes db !! _) as [row|].
  - apply tx_bind_ok in Hc as (stored & _ & Hc). tx_inv Hc. by injection Hc as <-.
  - apply tx_bind_ok in Hc as (_ & _ & Hc). tx_inv Hc.
    apply tx_bind_ok in Hc as (db1 & H1 & (db2 & H2 & H3)%tx_bind_ok).
    etransitivity; [by eapply insert_episode_keeps|]. etransitivity; [by eapply insert_task_keeps|].
    by eapply insert_invocation_keeps.
Qed.

Lemma request_stop_keeps db id now db' : request_episode_stop db id now = Commit db' → keeps db db'.
Proof.
  unfold request_episode_stop. intros (e & _ & Hr)%tx_bind_ok. tx_if Hr; [by injection Hr as <-|].
  tx_inv Hr. destruct (is_some (epi_stop_requested_at e)); injection Hr as <-; [done|apply keeps_episode].
Qed.

Lemma fence_keeps db id ending diagnostic now db' :
  fence_episode_ending db id ending diagnostic now = Commit db' → keeps db db'.
Proof.
  unfold fence_episode_ending. intros Hf. tx_inv Hf. apply tx_bind_ok in Hf as (e & _ & Hf).
  destruct (epi_ending e); tx_inv Hf; injection Hf as <-; [done|apply keeps_episode].
Qed.

Lemma allocate_invocation_keeps db id t cause now db' :
  allocate_episode_invocation db id t cause now = Commit db' → keeps db db'.
Proof.
  unfold allocate_episode_invocation. intros Ha. tx_inv Ha. destruct (find _ _).
  - tx_inv Ha. by injection Ha as <-.
  - apply tx_bind_ok in Ha as (e & _ & Ha). tx_inv Ha. apply tx_bind_ok in Ha as (db1 & H1 & (db2 & H2 & [= <-])%tx_bind_ok).
    etransitivity; [by eapply insert_task_keeps|]. etransitivity; [by eapply insert_invocation_keeps|apply keeps_episode].
Qed.

(** The task a wrap-up was validated with is hidden. *)
Lemma inserted_allocation db t cause db' id :
  task_kind t = TaskEpisodeReport → task_visible t = false → task_operation_id t = id →
  _insert_agent_task db t cause = Commit db' →
  ∃ t', td_tasks db' !! id = Some t' ∧ is_report t' = true ∧ task_visible t' = false.
Proof.
  intros Hk Hv Hid (t' & db1 & _ & [Hi _]%bind_chat_stage_identity & _ & _ & [_ ->]%insert_row_ok & [[= Ht _] _])%insert_task_ok.
  destruct (identity_columns _ _ Hi) as (Ho & Hr & Hvis). exists t'. rewrite Ht. cbn.
  split; [by rewrite <- Hid, <- Ho, lookup_insert_eq|].
  rewrite Hr, Hvis. split; [unfold is_report; by rewrite Hk, bool_decide_eq_true_2|done].
Qed.

Lemma new_wrapup_allocation id w t : _validate_new_wrapup id w t = true →
  task_kind t = TaskEpisodeReport ∧ task_visible t = false ∧ wrap_allocation w = Some (task_operation_id t) ∧
  wrap_state w = WrapPending ∧ wf_episode_id (wrap_fence w) = id ∧ wrap_ending w ≠ Some EndStopped ∧
  task_episode_id t = Some id.
Proof.
  unfold _validate_new_wrapup, wrap_allocation, wrap_ending. cbv zeta. rewrite !andb_true_iff, !negb_true_iff, !bool_decide_eq_true, bool_decide_eq_false.
  unfold str_eqb. rewrite bool_decide_eq_true. tauto.
Qed.

Lemma begin_wrapup_keeps db id w t now db' : begin_episode_wrapup db id w t now = Commit db' → keeps db db'.
Proof.
  unfold begin_episode_wrapup. intros Hb. tx_inv Hb. apply andb_prop in Hcheck as [_ Hv].
  destruct (new_wrapup_allocation _ _ _ Hv) as (Hk & Hvis & Hal & _).
  apply tx_bind_ok in Hb as (e & _ & Hb). tx_inv Hb. destruct (td_wrapups db !! id) as [row|].
  - apply tx_bind_ok in Hb as (stored & _ & Hb). tx_inv Hb. by injection Hb as <-.
  - tx_inv Hb. apply tx_bind_ok in Hb as (db1 & H1 & (db2 & H2 & [= <-])%tx_bind_ok).
    etransitivity; [by eapply insert_task_keeps|]. etransitivity; [|apply keeps_episode].
    eapply insert_wrapup_keeps; [|exact H2]. intros op Hop _. rewrite Hal in Hop. injection Hop as <-.
    by eapply inserted_allocation.
Qed.

Lemma end_without_report_keeps db id ending diagnostic now db' :
  end_episode_without_report db id ending diagnostic now = Commit db' → keeps db db'.
Proof.
  unfold end_episode_without_report. intros He. tx_inv He. apply tx_bind_ok in He as (e & _ & He). tx_inv He.
  case_bool_decide; [by injection He as <-|]. tx_inv He.
  etransitivity; [|by eapply terminalize_keeps]. apply keeps_episode.
Qed.

Lemma wrapup_unlaunchable_keeps db id w diagnostic now db' :
  fail_episode_wrapup_unlaunchable db id w diagnostic now = Commit db' → keeps db db'.
Proof.
  unfold fail_episode_wrapup_unlaunchable. intros Hf. tx_inv Hf. apply tx_bind_ok in Hf as (e & _ & Hf).
  destruct (td_wrapups db !! id).
  - apply tx_bind_ok in Hf as (stored & _ & Hf). tx_inv Hf. by injection Hf as <-.
  - tx_inv Hf. apply tx_bind_ok in Hf as (db1 & H1 & (ending & _ & Hf)%tx_bind_ok).
    etransitivity; [|etransitivity; [apply keeps_episode|by eapply terminalize_keeps]].
    eapply insert_wrapup_keeps; [|exact H1]. intros op Hop _. exfalso.
    rewrite !andb_true_iff, negb_true_iff in Hcheck. unfold wrap_allocation in Hop. rewrite Hop in Hcheck. naive_solver.
Qed.

Lemma stop_skipped_keeps db id diagnostic now db' :
  mark_episode_stop_skipped db id diagnostic now = Commit db' → keeps db db'.
Proof.
  unfold mark_episode_stop_skipped. intros (e & _ & Hm)%tx_bind_ok. tx_if Hm; [by injection Hm as <-|].
  tx_inv Hm. apply tx_bind_ok in Hm as (db1 & H1 & Hm).
  etransitivity; [eapply insert_wrapup_keeps; [|exact H1]; by intros op Hop|].
  etransitivity; [apply keeps_episode|by eapply terminalize_keeps].
Qed.

Lemma allocate_attempt_keeps db id attempt now db' :
  allocate_episode_report_attempt db id attempt now = Commit db' → keeps db db'.
Proof.
  unfold allocate_episode_report_attempt. intros (e & _ & (row & Hrow%found_ok & (w & Hw & Ha)%tx_bind_ok)%tx_bind_ok)%tx_bind_ok.
  tx_inv Ha. apply tx_bind_ok in Ha as (allocation & Hal%found_ok & Ha).
  unfold _episode_wrapup_record in Hw. tx_inv Hw. injection Hw as <-.
  destruct (is_some (current_attempt db id)); [by injection Ha as <-|]. tx_inv Ha. apply tx_bind_ok in Ha as (db1 & H1 & [= <-]).
  etransitivity; [eapply insert_attempt_keeps; [|exact H1]|].
  - intros _. left. by exists id, row.
  - etransitivity; [apply keeps_episode|]. by apply keeps_wrapup.
Qed.

Lemma attempt_allocated db id a : td_attempts db !! id = Some a → allocated db (rat_allocation_operation_id a).
Proof. right. by exists id, a. Qed.

Lemma attempt_running_keeps db id now db' : mark_episode_report_attempt_running db id now = Commit db' → keeps db db'.
Proof.
  unfold mark_episode_report_attempt_running. intros (a & Ha%found_ok & Hm)%tx_bind_ok. tx_inv Hm. injection Hm as <-.
  set (start := λ a, a <| rat_status := AttemptRunning |> <| rat_updated_at := now |>).
  etransitivity; [by apply (keeps_attempt start)|]. apply keeps_allocation; [|done].
  intros _. eapply (attempt_allocated _ id (start a)). unfold update_attempt. cbn. by rewrite lookup_alter_eq, Ha.
Qed.

(** An allocation stays one when its wrap-up or its attempt is only updated. *)
Lemma allocated_frame db db' id :
  td_wrapups db' = td_wrapups db →
  (∀ k a, td_attempts db !! k = Some a → ∃ a', td_attempts db' !! k = Some a' ∧
     rat_allocation_operation_id a' = rat_allocation_operation_id a) →
  allocated db id → allocated db' id.
Proof.
  intros Hw Ha [Hx|(k & a & Hk & <-)]; [left; by rewrite Hw|right].
  destruct (Ha _ _ Hk) as (a' & Ha' & Hid). by exists k, a'.
Qed.

Lemma update_attempt_allocated f k db id :
  (∀ a, rat_allocation_operation_id (f a) = rat_allocation_operation_id a) →
  allocated db id → allocated (update_attempt f k db) id.
Proof.
  intros Hf. apply allocated_frame; [done|]. intros k' a Ha. unfold update_attempt. cbn.
  destruct (decide (k' = k)) as [->|Hne]; [rewrite lookup_alter_eq, Ha; eexists; split; [done|apply Hf]|].
  rewrite lookup_alter_ne by done. by exists a.
Qed.

Lemma attempt_error_keeps db id error final now db' :
  _finish_episode_report_attempt_error db id error final now = Commit db' → keeps db db'.
Proof.
  unfold _finish_episode_report_attempt_error. intros Hf. tx_inv Hf. apply tx_bind_ok in Hf as (a & Ha%found_ok & Hf).
  tx_inv Hf. pose proof (attempt_allocated _ _ _ Ha) as Hal. match type of Hf with context [if decide ?c then ?x else ?y] => set (db1 := if decide c then x else y) in Hf end.
  set (finish := finish_attempt AttemptFailed (Some error) now) in db1.
  assert (keeps db db1 ∧ allocated db1 (rat_allocation_operation_id a)) as [H1 Hal1].
  { unfold db1. destruct (decide (rat_status a = AttemptFailed)); [done|]. split; [by apply (keeps_attempt finish)|by apply (update_attempt_allocated finish)]. }
  etransitivity; [exact H1|]. tx_if Hf.
  - apply tx_bind_ok in Hf as (e & _ & (ending & _ & Hf)%tx_bind_ok). by eapply close_failed_keeps.
  - injection Hf as <-. etransitivity; [apply keeps_episode|]. by apply keeps_wrapup.
Qed.

Lemma report_ready_keeps db id r now db' : finish_episode_report_ready db id r now = Commit db' → keeps db db'.
Proof.
  unfold finish_episode_report_ready. intros Hf. tx_inv Hf.
  apply tx_bind_ok in Hf as (a & Ha%found_ok & (row & _ & (wrow & _ & (e & _ & (w & _ & Hf)%tx_bind_ok)%tx_bind_ok)%tx_bind_ok)%tx_bind_ok).
  tx_inv Hf. destruct (td_reports db !! _).
  - tx_inv Hf. by injection Hf as <-.
  - tx_inv Hf. apply tx_bind_ok in Hf as (db1 & H1 & Hf). unfold insert_report in H1. tx_inv H1. injection H1 as <-.
    etransitivity; [|by eapply terminalize_keeps]. etransitivity; [|apply keeps_episode].
    etransitivity; [|by apply keeps_wrapup]. set (finish := finish_attempt AttemptSucceeded None now).
    set (db1 := db <| td_reports ::= _ |>). transitivity db1; [apply keeps_frame; [done|by apply trace_same|done]|].
    etransitivity; [by apply (keeps_attempt finish)|]. apply keeps_allocation; [|done]. intros _.
    apply (update_attempt_allocated finish); [done|]. right. exists id, a. split; [done|].
    rewrite !andb_true_iff in Hcheck0. unfold str_eqb in Hcheck0. rewrite !bool_decide_eq_true in Hcheck0. naive_solver.
Qed.

Lemma report_allocation_ok db id e w op : report_allocation db id = Commit (e, w, op) →
  td_episodes db !! id = Some e ∧ lifecycle_is_coherent e = true ∧ td_wrapups db !! id = Some w ∧ wrap_allocation w = Some op.
Proof.
  unfold report_allocation, _episode_record.
  intros (row & Hr%found_ok & (w' & Hw%found_ok & (al & Hal%found_ok & (e' & He & [= <- <- <-])%tx_bind_ok)%tx_bind_ok)%tx_bind_ok)%tx_bind_ok.
  tx_inv He. injection He as <-. by split_and!.
Qed.

Lemma requeue_keeps db id now db' : requeue_interrupted_episode_report_allocation db id now = Commit db' → keeps db db'.
Proof.
  unfold requeue_interrupted_episode_report_allocation. intros ([[e w] op] & Hrep & Hq)%tx_bind_ok.
  apply report_allocation_ok in Hrep as (_ & _ & Hw & Hop). tx_inv Hq. apply tx_bind_ok in Hq as (t & _ & Hq). tx_inv Hq.
  assert (Hal : allocated db op) by (left; by exists id, w).
  case_bool_decide; [by injection Hq as <-|]. tx_inv Hq. cbn zeta in Hq.
  set (diag := restart_diagnostic (task_status t)) in Hq. set (finish := finish_attempt AttemptFailed (Some diag) now) in Hq.
  set (fail := match current_attempt db id with Some a => update_attempt finish (rat_attempt_id a) db | None => db end) in Hq.
  assert (keeps db fail ∧ allocated fail op) as [Hfail Hal'].
  { unfold fail. destruct (current_attempt db id); [|done].
    split; [by apply (keeps_attempt finish)|by apply (update_attempt_allocated finish)]. }
  tx_if Hq.
  - tx_inv Hq. apply tx_bind_ok in Hq as (ending & _ & Hq). etransitivity; [exact Hfail|]. by eapply close_failed_keeps.
  - injection Hq as <-. set (db1 := if bool_decide (rat_status <$> current_attempt db id = Some AttemptRunning) then fail else db).
    assert (keeps db db1 ∧ allocated db1 op) as [Hk1 Hal1] by (unfold db1; clear - Hfail Hal Hal'; by case_bool_decide).
    etransitivity; [exact Hk1|]. etransitivity; [|by apply keeps_wrapup]. etransitivity; [|apply keeps_episode].
    etransitivity; [|apply receipt_keeps]. by apply keeps_allocation.
Qed.

Lemma allocation_unlaunchable_keeps db id diagnostic now db' :
  fail_episode_report_allocation_unlaunchable db id diagnostic now = Commit db' → keeps db db'.
Proof.
  unfold fail_episode_report_allocation_unlaunchable. intros Hf. tx_inv Hf.
  apply tx_bind_ok in Hf as ([[e w] op] & Hrep & Hf). apply report_allocation_ok in Hrep as (_ & _ & Hw & Hop).
  apply tx_bind_ok in Hf as (t & _ & Hf). tx_inv Hf. tx_if Hf; [tx_inv Hf; by injection Hf as <-|].
  tx_inv Hf. apply tx_bind_ok in Hf as (ending & _ & Hf). etransitivity; [|eapply close_failed_keeps; [|exact Hf]].
  - apply keeps_frame; [done|by apply trace_same|]. intros _ id' [Hx|(k & a & Hk & <-)]; [by left|right]. cbn in Hk.
    apply lookup_fmap_Some in Hk as (a0 & <- & Ha0). exists k, a0. split; [done|]. by case_match.
  - left. by exists id, w.
Qed.

Lemma restore_reports_keeps db diagnostic now db' :
  detach_episode_reports_for_restore db diagnostic now = Commit db' → keeps db db'.
Proof.
  unfold detach_episode_reports_for_restore. intros Hd. tx_inv Hd. injection Hd as <-.
  apply keeps_frame; [done|by apply trace_same|]. intros _ id [(k & w & Hk & Hid)|(k & a & Hk & <-)]; cbn in Hk.
  - apply lookup_fmap_Some in Hk as (w0 & <- & Hw0). left. exists k, w0. split; [done|]. by destruct (_ && _).
  - apply lookup_fmap_Some in Hk as (a0 & <- & Ha0). right. exists k, a0. split; [done|]. by destruct (is_open a0).
Qed.

Lemma restore_experiments_keeps db diagnostic now db' :
  detach_experiment_episodes_for_restore db diagnostic now = Commit db' → keeps db db'.
Proof.
  unfold detach_experiment_episodes_for_restore. intros Hd. tx_inv Hd.
  etransitivity; [|eapply tx_fold_keeps; [|exact Hd]]; [apply keeps_frame; [done|by apply trace_same|done]|].
  intros db1 id db2 _ Hx. unfold detach_experiment in Hx. apply tx_bind_ok in Hx as (db3 & H3 & [= <-]).
  etransitivity; [|apply keeps_episode]. destruct (td_wrapups db1 !! id) as [w|].
  - tx_inv H3. injection H3 as <-. by apply keeps_wrapup.
  - eapply insert_wrapup_keeps; [|exact H3]. by intros op Hop.
Qed.

Lemma restore_all_keeps db diagnostic confirmed_by now db' :
  detach_restored_lifecycle db diagnostic confirmed_by now = Commit db' → keeps db db'.
Proof.
  unfold detach_restored_lifecycle. intros Hd. tx_inv Hd. apply tx_bind_ok in Hd as (db1 & H1 & (db2 & H2 & H3)%tx_bind_ok).
  etransitivity; [by eapply restore_keeps|]. etransitivity; [by eapply restore_reports_keeps|].
  by eapply restore_experiments_keeps.
Qed.

(** ** Every operation *)

(** What every operation keeps of the tasks and of the form of their traces. *)
Definition advances (db db' : TaskDb) : Prop :=
  (store_wf db → store_wf db' ∧ tasks_evolve db db') ∧ (trace_ok db → trace_ok db').
#[export] Instance advances_preorder : PreOrder advances.
Proof.
  split; [by intros db|]. intros db1 db2 db3 [H12 T12] [H23 T23]. split; [|auto].
  intros Hwf. destruct (H12 Hwf) as [Hwf2 E12]. destruct (H23 Hwf2) as [Hwf3 E23]. split; [done|by transitivity db2].
Qed.

Lemma keeps_advances db db' : keeps db db' → advances db db'.
Proof. intros [Hk Ht]. split; [done|]. intros Hok. by destruct (Ht Hok). Qed.

(** Ageing out touches no task. *)
Lemma prune_advances db now : advances db (prune_operational_storage db now).
Proof.
  split; [|apply prune_trace].
  intros [Hk Ho Hn Ha Hl Hlo]. split; [by split|]. intros id t Ht. by exists t.
Qed.

Lemma run_op_keeps db op now db' : op ≠ OpPrune → run_op db op now = Commit db' → keeps db db'.
Proof.
  intros Hne. destruct op; cbn [run_op].
  - apply mark_running_keeps.
  - apply message_keeps.
  - apply checkpoint_keeps.
  - apply runtime_keeps.
  - apply write_scope_keeps.
  - intros [= <-]. apply clear_stage_keeps.
  - apply pause_request_keeps.
  - apply pause_keeps.
  - apply complete_keeps.
  - apply fail_keeps.
  - intros [= <-]. apply record_event_keeps.
  - apply record_receipt_keeps.
  - apply interrupt_keeps.
  - done.
  - apply history_keeps.
  - apply create_task_keeps.
  - apply create_merge_keeps.
  - apply create_episode_keeps.
  - apply create_with_invocation_keeps.
  - apply request_stop_keeps.
  - apply fence_keeps.
  - apply allocate_invocation_keeps.
  - apply begin_wrapup_keeps.
  - apply end_without_report_keeps.
  - apply wrapup_unlaunchable_keeps.
  - apply stop_skipped_keeps.
  - apply allocate_attempt_keeps.
  - apply attempt_running_keeps.
  - apply attempt_error_keeps.
  - apply report_ready_keeps.
  - apply requeue_keeps.
  - apply allocation_unlaunchable_keeps.
  - apply restore_all_keeps.
Qed.

Lemma prune_or op : op = OpPrune ∨ op ≠ OpPrune.
Proof. destruct op; (by left) || by right. Qed.

Lemma run_op_advances db op now db' : run_op db op now = Commit db' → advances db db'.
Proof.
  intros Hop. destruct (prune_or op) as [->|Hne]; [|by eapply keeps_advances, run_op_keeps].
  injection Hop as <-. apply prune_advances.
Qed.

Lemma step_op_advances db op : advances db (step_op db op).
Proof.
  unfold step_op. destruct (run_op db op.1 op.2) as [db2|] eqn:Hop; [by eapply run_op_advances|done].
Qed.

Lemma run_ops_advances ops db : advances db (run_ops db ops).
Proof.
  revert db. induction ops as [|op ops IH]; intros db; [done|]. cbn.
  transitivity (step_op db op); [apply step_op_advances|apply IH].
Qed.

(** A receipt goes only when it ages out: it is not a summary, it is older than the
    retention, and its task is not active. *)
Definition aged_out (db : TaskDb) (now : Z) (r : AgentTaskReceiptRecord) : Prop :=
  rct_tier r ≠ TierSummary ∧ (rct_created_at r < now - RUN_TRACE_RETENTION_DAYS * DAY)%Z ∧
  ∀ t, td_tasks db !! rct_operation_id r = Some t → task_status t ∉ [TaskQueued; TaskRunning; TaskPausing].

Lemma step_op_receipts db op r :
  trace_ok db → r ∈ td_receipts db → protected r = true →
  r ∈ td_receipts (step_op db op) ∨ op.1 = OpPrune ∧ aged_out db op.2 r.
Proof.
  intros Htr Hr Hp. destruct op as [op now]. unfold step_op. cbn [fst snd]. destruct (prune_or op) as [->|Hne].
  - cbn [run_op]. destruct (aged_receipt db (now - RUN_TRACE_RETENTION_DAYS * DAY) r) eqn:Ha.
    + right. split; [done|]. unfold aged_receipt in Ha. rewrite !andb_true_iff, negb_true_iff, bool_decide_eq_false in Ha.
      destruct Ha as [[Hlt%Z.ltb_lt Ht] Hi]. split_and!; [done..|]. intros t Hid. unfold inactive in Hi. rewrite Hid in Hi.
      apply negb_true_iff in Hi. unfold among in Hi. by apply bool_decide_eq_false in Hi.
    + left. cbn. apply elem_of_bfilter. by rewrite Ha.
  - left. destruct (run_op db op now) as [db2|] eqn:Hop; [|done].
    destruct (run_op_keeps _ _ _ _ Hne Hop) as [_ Ht]. by apply Ht.
Qed.

Lemma run_ops_receipts ops db r :
  trace_ok db → r ∈ td_receipts db → protected r = true →
  r ∈ td_receipts (run_ops db ops) ∨
  ∃ before now after, ops = before ++ (OpPrune, now) :: after ∧ aged_out (run_ops db before) now r.
Proof.
  revert db. induction ops as [|[op now] ops IH]; intros db Htr Hr Hp; [by left|].
  destruct (step_op_receipts db (op, now) r Htr Hr Hp) as [Hin|[Hop Ha]]; [|cbn in Hop; subst op; right; by exists [], now, ops].
  destruct (step_op_advances db (op, now)) as [_ Ht].
  destruct (IH (step_op db (op, now)) (Ht Htr) Hin Hp) as [Hrest|(before & now' & after & -> & Ha)]; [by left|].
  right. by exists ((op, now) :: before), now', after.
Qed.
End episodes.

(** A settled task stays as it ended. *)
Lemma settled_status s s' : s ∈ [TaskSucceeded; TaskFailed; TaskInterrupted] → rtc status_step s s' → s' = s.
Proof.
  intros Hs Hrtc. destruct Hrtc as [|x y z Hstep _]; [done|]. destruct Hstep as [x target Hin|]; [|set_solver].
  destruct target; set_solver.
Qed.

(** C11: whatever operations of the store run ([StoreOp]), in whatever order, each
    committing or rolled back: no task is lost or changes its identity, an ordinary
    task moves along the transitions of its status and stays as it ended once
    settled, its session, its scope and its withdrawal to history are final, and
    the trace of every task stays within the retained counts.  A receipt of its
    admission or dispatch goes only when traces are aged out, and then it is no
    summary, it is older than the retention, and its task is neither queued nor
    running nor pausing; so the trace of an active task keeps them all. *)
Theorem tasks_follow_their_life `{JsonText, TextLib} db ops :
  store_wf db → trace_ok db →
  let db' := run_ops db ops in
  store_wf db' ∧ trace_ok db' ∧ tasks_evolve db db' ∧
  (∀ r, r ∈ td_receipts db → protected r = true →
     r ∈ td_receipts db' ∨
     ∃ before now after, ops = before ++ (OpPrune, now) :: after ∧ aged_out (run_ops db before) now r) ∧
  (∀ id t, td_tasks db !! id = Some t → is_report t = false → task_settled t = true →
     ∃ t', td_tasks db' !! id = Some t' ∧ task_status t' = task_status t).
Proof.
  intros Hwf Htr db'. destruct (run_ops_advances ops db) as [Hk Ht]. destruct (Hk Hwf) as [Hwf' He].
  split_and!; [done|by apply Ht|done|by intros; apply run_ops_receipts|]. intros id t Hid Hr Hterm.
  destruct (He id t Hid) as (t' & Ht' & Hev). exists t'. split; [done|].
  apply settled_status; [by apply bool_decide_eq_true in Hterm|by apply (ev_status _ _ Hev)].
Qed.

(** ** From an empty store *)

Definition fresh_store (db : TaskDb) : Prop :=
  td_tasks db = ∅ ∧ td_order db = [] ∧ td_wrapups db = ∅ ∧ td_attempts db = ∅ ∧ td_receipts db = [] ∧ td_events db = [].

Lemma fresh_store_wf `{TextLib} db : fresh_store db → store_wf db ∧ trace_ok db.
Proof.
  intros (Ht & Ho & Hw & Ha & Hr & He). split; split; rewrite ?Ht, ?Ho, ?Hr, ?He; cbn.
  - intros id t. by rewrite lookup_empty.
  - intros id. rewrite lookup_empty. split; [by intros ?%not_elem_of_nil|by intros [? Hx]].
  - constructor.
  - intros id [(e & w & Hx & _)|(k & a & Hx & _)]; [rewrite Hw in Hx|rewrite Ha in Hx]; by rewrite lookup_empty in Hx.
  - intros id t. by rewrite lookup_empty.
  - intros p n e. unfold loop_requests, loop_roots, tasks_where. rewrite Ho. cbn. split; [done|constructor|].
    intros d Hd. by apply not_elem_of_nil in Hd.
  - constructor.
  - intros r Hx. by apply not_elem_of_nil in Hx.
  - intros id tier. apply Nat.le_0_l.
  - intros id. apply Nat.le_0_l.
Qed.

(** The task another continues. *)
Definition continues (db : TaskDb) (t p : AgentTaskRecord) : Prop :=
  ∃ pid, task_parent_operation_id t = Some pid ∧ td_tasks db !! pid = Some p.

Lemma inherits_trans p q t : inherits p q → inherits q t → is_report t = false → is_report q = false → inherits p t.
Proof.
  unfold inherits. intros Hp Hq Ht Hqr. rewrite Ht in *. rewrite Hqr in Hp.
  destruct Hp as (? & ? & ? & Hpa), Hq as (? & ? & ? & Hqa). split_and!; try congruence. auto.
Qed.

Lemma chain_inherits `{TextLib} db t p :
  store_wf db → rtc (continues db) t p → (∃ id, td_tasks db !! id = Some t) →
  task_kind t ≠ TaskAutoResearch → is_report t = false → p = t ∨ inherits p t.
Proof.
  intros Hwf Hrtc. induction Hrtc as [t|t q p (pid & Hpid & Hq) _ IH]; [by left|]. intros [id Ht] Hk Hr. right.
  pose proof (sw_lineage _ Hwf _ _ Ht) as Hl. unfold lineage in Hl. rewrite decide_False in Hl by done.
  destruct (Hl pid Hpid) as (q' & Hq' & Hin). simplify_eq. pose proof Hin as (Hproj & Htg & Hrest).
  rewrite Hr in Hrest. destruct Hrest as [Hkq Hauth].
  assert (Hqr : is_report q = false) by (unfold is_report in *; by rewrite Hkq).
  destruct IH as [->|Hpq]; [by exists pid|congruence|done|done|]. by eapply inherits_trans.
Qed.

(** C14: in a store that only the operations of [StoreOp] built, no chain of
    continuations widens an authority.  A task that continues another, through any
    number of resumes, retries or wakes, works in its project, on its graph target,
    as the same kind of task, and under exactly the authority that task was
    dispatched with, if it had one.  Two kinds of tasks have rules of their own: a
    task of Auto-research has the authority of a role of its own episode, and the
    hidden allocation of a report has none; it stays in the project, on the target
    and in the episode of the task it continues. *)
Theorem continuations_keep_authority `{JsonText, TextLib} db ops t :
  fresh_store db →
  let db' := run_ops db ops in
  (∃ id, td_tasks db' !! id = Some t) →
  (task_kind t = TaskAutoResearch →
     ∃ role scope episode_id, task_episode_id t = Some episode_id ∧
       task_authority t = Some (auto_research_authority role scope episode_id)) ∧
  (is_report t = true → ∀ p, continues db' t p →
     task_project_id p = task_project_id t ∧ task_graph_target p = task_graph_target t ∧
     task_episode_id p = task_episode_id t ∧ is_report p = false ∧ task_authority t = None) ∧
  (task_kind t ≠ TaskAutoResearch → is_report t = false → ∀ p, rtc (continues db') t p →
     task_project_id p = task_project_id t ∧ task_kind p = task_kind t ∧ task_graph_target p = task_graph_target t ∧
     ∀ a, task_authority p = Some a → task_authority t = Some a).
Proof.
  intros Hf db' Ht. destruct (fresh_store_wf _ Hf) as [Hwf _].
  destruct (run_ops_advances ops db) as [Hkeep _]. destruct (Hkeep Hwf) as [Hwf' _]. pose proof Ht as [id Hid].
  pose proof (sw_lineage _ Hwf' _ _ Hid) as Hl. split_and!.
  - intros Hk. unfold lineage in Hl. by rewrite decide_True in Hl.
  - intros Hr p (pid & Hpid & Hp). unfold lineage in Hl.
    rewrite decide_False in Hl by (unfold is_report in Hr; apply bool_decide_eq_true in Hr; by rewrite Hr).
    destruct (Hl pid Hpid) as (p' & Hp' & Hproj & Htg & Hrest). rewrite Hr in Hrest.
    destruct Hrest as (Ha & He & _ & Hrp). unfold db' in Hp. rewrite Hp in Hp'. injection Hp' as <-. by split_and!.
  - intros Hk Hr p Hc. destruct (chain_inherits _ _ _ Hwf' Hc Ht Hk Hr) as [->|(Hproj & Htg & Hrest)]; [done|].
    rewrite Hr in Hrest. destruct Hrest as [Hkp Ha]. auto.
Qed.

(** ** Restart *)

Lemma last_newest (l : list AgentTaskReceiptRecord) r s :
  StronglySorted Z.lt (rct_receipt_id <$> l) → r ∈ l → last l = Some s → r = s ∨ (rct_receipt_id r < rct_receipt_id s)%Z.
Proof.
  intros Hs Hr (l' & ->)%last_Some. rewrite fmap_app in Hs. apply elem_of_app in Hr as [Hr| ->%list_elem_of_singleton]; [|by left].
  right. eapply (StronglySorted_app_1_elem_of Z.lt); [exact Hs|by apply list_elem_of_fmap_2|by left].
Qed.

Lemma receipts_of_sorted db id categories :
  trace_ok db → StronglySorted Z.lt (rct_receipt_id <$> receipts_of db id categories).
Proof.
  intros Htr. eapply sorted_sublist; [|exact (tr_sorted _ Htr)]. apply fmap_sublist.
  unfold receipts_of. generalize (td_receipts db). induction l as [|r l IH]; [done|]. cbn. destruct (_ && _); by constructor.
Qed.

Lemma elem_of_receipts_of db id categories r :
  r ∈ receipts_of db id categories ↔ r ∈ td_receipts db ∧ rct_operation_id r = id ∧ rct_category r ∈ categories.
Proof.
  unfold receipts_of. rewrite elem_of_bfilter, andb_true_iff, mem_true. unfold str_eqb. rewrite bool_decide_eq_true. tauto.
Qed.

(** The newest receipt of some categories. *)
Definition newest (db : TaskDb) (id : string) (categories : list string) (r : AgentTaskReceiptRecord) : Prop :=
  r ∈ receipts_of db id categories ∧
  ∀ s, s ∈ receipts_of db id categories → s = r ∨ (rct_receipt_id s < rct_receipt_id r)%Z.

Lemma newest_last db id categories r :
  trace_ok db → last (receipts_of db id categories) = Some r ↔ newest db id categories r.
Proof.
  intros Htr. pose proof (receipts_of_sorted db id categories Htr) as Hs. split.
  - intros Hl. split; [by apply last_Some_elem_of|]. intros s Hin. by eapply last_newest.
  - intros [Hin Hnew]. destruct (last (receipts_of db id categories)) as [l|] eqn:Hl.
    + destruct (last_newest _ _ _ Hs Hin Hl) as [->|Hlt]; [done|].
      destruct (Hnew l) as [->|]; [by apply last_Some_elem_of|done|lia].
    + apply last_None in Hl. rewrite Hl in Hin. by apply not_elem_of_nil in Hin.
Qed.

Lemma newer_than_all db id categories reset :
  trace_ok db → newer_than reset (last (receipts_of db id categories)) = true ↔
  ∀ r, r ∈ receipts_of db id categories → (rct_receipt_id r < rct_receipt_id reset)%Z.
Proof.
  intros Htr. pose proof (receipts_of_sorted db id categories Htr) as Hs. unfold newer_than.
  destruct (last (receipts_of db id categories)) as [l|] eqn:Hl.
  - rewrite Z.ltb_lt. split; [|intros Hall; by apply Hall, last_Some_elem_of].
    intros Hlt r Hr. destruct (last_newest _ _ _ Hs Hr Hl) as [->|]; lia.
  - apply last_None in Hl. split; [|done]. intros _ r. rewrite Hl. by intros ?%not_elem_of_nil.
Qed.

Definition ATTEMPT : list string := ["operation_dispatch_attempt"].
Definition OUTCOME : list string := ["operation_dispatch_failed_before_start"; "operation_dispatch_started"].

(** What a trace shows of a dispatch that has not begun: a reset after every attempt
    and outcome; or neither an attempt nor an outcome, under an admission that
    records every attempt; or that the newest attempt is the one whose failure
    before the start is the newest outcome. *)
Inductive not_begun `{TextLib} (db : TaskDb) (id : string) (intent : pydict) : Prop :=
  | reset_since reset :
      newest db id ["operation_dispatch_reset"] reset →
      (∀ r, r ∈ receipts_of db id ATTEMPT ∨ r ∈ receipts_of db id OUTCOME → (rct_receipt_id r < rct_receipt_id reset)%Z) →
      not_begun db id intent
  | never_attempted :
      receipts_of db id ATTEMPT = [] → receipts_of db id OUTCOME = [] → dmem intent "parent_operation_id" = true →
      not_begun db id intent
  | failed_before_start attempt outcome x :
      newest db id ATTEMPT attempt → newest db id OUTCOME outcome →
      rct_category outcome = "operation_dispatch_failed_before_start" →
      _dispatch_attempt_id (rct_payload attempt) = Some x → _dispatch_attempt_id (rct_payload outcome) = Some x →
      not_begun db id intent.

Definition spared `{JsonText, TextLib} (db : TaskDb) (id : string) : Prop :=
  task_status <$> td_tasks db !! id = Some TaskQueued ∧
  ∃ intent, agent_task_admission_intent db id = Commit (Some intent) ∧ not_begun db id intent.

(** The check finds exactly the tasks whose trace shows that. *)
Lemma proven_not_started `{JsonText, TextLib} db id :
  trace_ok db → agent_task_dispatch_was_proven_not_started db id = true ↔ spared db id.
Proof.
  intros Htr. unfold agent_task_dispatch_was_proven_not_started, spared. fold ATTEMPT OUTCOME.
  destruct (agent_task_admission_intent db id) as [[intent|]|]; [|by split; [|intros (_ & ? & ? & _)]..].
  case_bool_decide as Hq; cbn [negb]; [|by split; [|intros [? _]]].
  transitivity (not_begun db id intent);
    [|split; [intros Hb; split; [done|by exists intent]|by intros (_ & ? & [= <-] & ?)]].
  set (reset_holds := match last (receipts_of db id ["operation_dispatch_reset"]) with Some _ => _ | None => _ end).
  assert (Hreset : reset_holds = true ↔ ∃ reset, newest db id ["operation_dispatch_reset"] reset ∧
    ∀ r, r ∈ receipts_of db id ATTEMPT ∨ r ∈ receipts_of db id OUTCOME → (rct_receipt_id r < rct_receipt_id reset)%Z).
  { unfold reset_holds. destruct (last _) as [reset|] eqn:Hl.
    - rewrite andb_true_iff, !newer_than_all by done. apply newest_last in Hl; [|done]. split.
      + intros [Ha Ho]. exists reset. split; [done|]. intros r [Hr|Hr]; auto.
      + intros (reset' & Hn & Hall). apply newest_last in Hl, Hn; [|done..]. rewrite Hl in Hn. injection Hn as <-. auto.
    - split; [done|]. intros (reset & Hn & _). apply newest_last in Hn; [|done]. by rewrite Hl in Hn. }
  destruct reset_holds.
  - split; [|done]. intros _. destruct Hreset as [(reset & Hn & Hall) _]; [done|]. by eapply reset_since.
  - assert (Hno : ∀ reset, newest db id ["operation_dispatch_reset"] reset →
      ¬ ∀ r, r ∈ receipts_of db id ATTEMPT ∨ r ∈ receipts_of db id OUTCOME → (rct_receipt_id r < rct_receipt_id reset)%Z).
    { intros reset Hn Hall. destruct Hreset as [_ Hc]. discriminate Hc. by exists reset. }
    destruct (last (receipts_of db id ATTEMPT)) as [a|] eqn:Ha, (last (receipts_of db id OUTCOME)) as [o|] eqn:Ho.
    + apply newest_last in Ha as Hna, Ho as Hno'; [|done..]. split.
      * destruct (_dispatch_attempt_id (rct_payload a)) as [x|] eqn:Hx, (_dispatch_attempt_id (rct_payload o)) as [y|] eqn:Hy; try done.
        unfold str_eqb. rewrite andb_true_iff, !bool_decide_eq_true. intros [Hf ->]. by eapply failed_before_start.
      * intros [reset Hn Hall|Hn _ _|a' o' x Hna' Hno'' Hf Hx Hy]; [by destruct (Hno reset)|by rewrite Hn in Ha|].
        apply newest_last in Hna', Hno''; [|done..]. rewrite Ha in Hna'. rewrite Ho in Hno''. injection Hna' as <-. injection Hno'' as <-.
        rewrite Hx, Hy, Hf. unfold str_eqb. by rewrite !bool_decide_eq_true_2.
    + split; [done|]. intros [reset Hn Hall|Hn _ _|a' o' x _ Hn _ _ _]; [by destruct (Hno reset)|by rewrite Hn in Ha|].
      apply newest_last in Hn; [|done]. by rewrite Ho in Hn.
    + split; [done|]. intros [reset Hn Hall|_ Hn _|a' o' x Hn _ _ _ _]; [by destruct (Hno reset)|by rewrite Hn in Ho|].
      apply newest_last in Hn; [|done]. by rewrite Ha in Hn.
    + apply last_None in Ha, Ho. split; [by apply never_attempted|].
      intros [reset Hn Hall|_ _ ?|a' o' x [Hn _] _ _ _ _]; [by destruct (Hno reset)|done|].
      rewrite Ha in Hn. by apply not_elem_of_nil in Hn.
Qed.

Lemma tx_fold_same {A} (f : TaskDb → A → tx TaskDb) l db db' :
  (∀ db x db', f db x = Commit db' → td_tasks db' = td_tasks db) → tx_fold f db l = Commit db' → td_tasks db' = td_tasks db.
Proof.
  intros Hf. apply (tx_fold_inv (λ db1, td_tasks db1 = td_tasks db)); [|done]. intros db1 x db2 _ H1 H2. by rewrite (Hf _ _ _ H2).
Qed.

Definition active (t : AgentTaskRecord) : bool := among (task_status t) ACTIVE_AGENT_TASK_STATUSES.


(** ** Loops *)

Lemma pinned_ceiling `{TextLib} a b m k :
  same_pins _EXPERIMENT_EPISODE_PINNED_FIELDS a b = true →
  dget a "control_invocation_ceiling" = Some (PInt m) → dget b "control_invocation_ceiling" = Some (PInt k) → m = k.
Proof.
  intros Hs Ha Hb. unfold same_pins in Hs. rewrite forallb_forall in Hs.
  specialize (Hs "control_invocation_ceiling" ltac:(do 6 right; by left)).
  unfold _experiment_pinned_value in Hs. rewrite Ha, Hb in Hs. cbn in Hs. apply Z.eqb_eq in Hs. change (2 ^ (0 - 0))%Z with 1%Z in Hs. lia.
Qed.

(** C16: in a store that only these operations built, the root tasks of an Experiment
    loop carry the invocations 1, 2, 3, .. in the order of their admission, all
    under the pins of the first (its revision, its decision bundle, its criteria,
    its ceiling), and there are never more of them than the ceiling each of them
    names. *)
Theorem loops_are_sequential_and_bounded `{JsonText, TextLib} db ops p n e :
  fresh_store db →
  let l := loop_requests (run_ops db ops) p n e in
  (λ d, dget d "control_invocation") <$> l = (λ n, Some (PInt n)) <$> seqZ 1 (Z.of_nat (length l)) ∧
  StronglySorted (λ a b, same_pins _EXPERIMENT_EPISODE_PINNED_FIELDS a b = true) l ∧
  ∀ d, d ∈ l → ∃ c, dget d "control_invocation_ceiling" = Some (PInt c) ∧ (Z.of_nat (length l) ≤ c)%Z.
Proof.
  intros Hf l. destruct (fresh_store_wf _ Hf) as [Hwf _]. destruct (run_ops_advances ops db) as [Hkeep _].
  destruct (Hkeep Hwf) as [Hwf' _]. destruct (sw_loops _ Hwf' p n e) as [Hnum Hpin Hceil]. fold l in Hnum, Hpin, Hceil.
  split; [done|]. split; [done|]. intros d Hd. clearbody l.
  destruct l as [|last l _] using rev_ind; [by apply not_elem_of_nil in Hd|].
  destruct (Hceil last) as (m & c & Hm & Hc & Hle); [apply elem_of_app; right; by left|].
  assert (m = Z.of_nat (length (l ++ [last]))) as ->.
  { rewrite length_app, Nat2Z.inj_add, seqZ_app, !fmap_app in Hnum by lia. apply app_inj_2 in Hnum as [_ Hnum]; [|done].
    cbn in Hnum. rewrite Hm in Hnum. injection Hnum as ->. rewrite length_app. cbn. lia. }
  apply elem_of_app in Hd as [Hd| ->%list_elem_of_singleton]; [|by exists c].
  destruct (Hceil d) as (_ & c' & _ & Hc' & _); [apply elem_of_app; by left|]. exists c'. split; [done|].
  assert (same_pins _EXPERIMENT_EPISODE_PINNED_FIELDS d last = true) as Hs.
  { eapply (StronglySorted_app_1_elem_of _ _ _ _ _ Hpin); [done|by left]. }
  by rewrite (pinned_ceiling _ _ _ _ Hs Hc' Hc).
Qed.
