(* ===== verification/EpisodeLife.v ===== *)
(** The life of an episode, for the ledger of [Episodes]: the stages it goes
    through, what the tables owe to each, and how one row may move. *)

From S2P Require Export StoreLaws.

(** ** Stages *)

Inductive ReportOutcome := NoReport | ReportFailed | ReportReady.
#[export] Instance ReportOutcome_eq_dec : EqDecision ReportOutcome.
Proof. solve_decision. Defined.

Inductive LifeStage :=
  | StageOpen | StageStopping | StageStopped
  | StageFenced (ending : EpisodeEnding)
  | StageReporting (ending : EpisodeEnding)
  | StageClosed (ending : EpisodeEnding) (outcome : ReportOutcome).

Inductive stage_step : LifeStage → LifeStage → Prop :=
  | stop_is_requested : stage_step StageOpen StageStopping
  | open_stops : stage_step StageOpen StageStopped
  | stop_settles : stage_step StageStopping StageStopped
  | ending_is_fenced x : stage_step StageOpen (StageFenced x)
  | open_reports x : stage_step StageOpen (StageReporting x)
  | fenced_reports x : stage_step (StageFenced x) (StageReporting x)
  | open_closes x o : o ≠ ReportReady → stage_step StageOpen (StageClosed x o)
  | fenced_closes x o : o ≠ ReportReady → stage_step (StageFenced x) (StageClosed x o)
  | report_closes x o : o ≠ NoReport → stage_step (StageReporting x) (StageClosed x o)
  | restore_stops_fenced x : stage_step (StageFenced x) StageStopped
  | restore_stops_report x : stage_step (StageReporting x) StageStopped.

(** What the row of an episode and the row of its wrap-up say together. *)
Definition life_stage (e : EpisodeRecord) (w : option EpisodeWrapupRecord) : option LifeStage :=
  let status s := bool_decide (epi_status e = s) in
  let row state x := match w with
    | Some w => bool_decide (wrap_state w = state) && bool_decide (wrap_ending w = Some x) | None => false
    end in
  match epi_wrapup_state e, epi_ending e with
  | WrapNotStarted, None =>
      if is_some w then None
      else if among (epi_status e) [EpQueued; EpRunning] && negb (is_some (epi_stop_requested_at e)) then Some StageOpen
      else if status EpStopping && is_some (epi_stop_requested_at e) then Some StageStopping else None
  | WrapNotStarted, Some x =>
      if is_some w || is_some (epi_stop_requested_at e) then None
      else if status EpWrappingUp then Some (StageFenced x)
      else if status (_status_for_ending x) && is_some (epi_ended_at e) then Some (StageClosed x NoReport) else None
  | WrapPending, Some x | WrapRunning, Some x =>
      if status EpWrappingUp && (row WrapPending x || row WrapRunning x) then Some (StageReporting x) else None
  | WrapReady, Some x =>
      if status (_status_for_ending x) && is_some (epi_ended_at e) && row WrapReady x
      then Some (StageClosed x ReportReady) else None
  | WrapFailed, Some x =>
      if status (_status_for_ending x) && is_some (epi_ended_at e) && row WrapFailed x
      then Some (StageClosed x ReportFailed) else None
  | WrapSkipped, Some EndStopped =>
      if status EpStopped && is_some (epi_ended_at e) && row WrapSkipped EndStopped then Some StageStopped else None
  | _, _ => None
  end.

(** What an episode is for its whole life. *)
Definition episode_identity (e : EpisodeRecord) :=
  (epi_episode_id e, epi_project_id e, epi_mode e, epi_control_node_id e, epi_graph_target e, epi_graph_base_head e,
   epi_invocation_ceiling e, epi_authorized_by e, epi_created_at e).

Definition stage_of (db : TaskDb) (id : string) : option LifeStage :=
  e ← td_episodes db !! id; life_stage e (td_wrapups db !! id).

(** ** The ledger *)

Record ledger_ok (db : TaskDb) : Prop := {
  lg_episode id e : td_episodes db !! id = Some e →
    epi_episode_id e = id ∧ lifecycle_is_coherent e = true ∧ is_Some (stage_of db id);
  lg_owner i j e f : td_episodes db !! i = Some e → td_episodes db !! j = Some f →
    is_live e = true → is_live f = true → same_owner e f = true → i = j;
  lg_wrapup id : is_Some (td_wrapups db !! id) → is_Some (td_episodes db !! id);
  lg_attempt k a : td_attempts db !! k = Some a →
    rat_attempt_id a = k ∧ ∃ e, td_episodes db !! rat_episode_id a = Some e ∧
      (1 ≤ rat_number a ≤ epi_report_attempts_used e)%Z ∧
      (is_open a = true → rat_number a = epi_report_attempts_used e ∧
         ∃ x, stage_of db (rat_episode_id a) = Some (StageReporting x));
  lg_number k l a b : td_attempts db !! k = Some a → td_attempts db !! l = Some b →
    rat_episode_id a = rat_episode_id b → rat_number a = rat_number b → k = l;
  lg_report id r : td_reports db !! id = Some r →
    rpt_episode_id r = id ∧ stage_of db id = Some (StageClosed (rpt_ending r) ReportReady);
  lg_invocations id e : td_episodes db !! id = Some e →
    inv_number <$> invocations_of db id = seqZ 1 (epi_invocations_used e);
  lg_operations : NoDup (inv_operation_id <$> td_invocations db);
  lg_invoked i : i ∈ td_invocations db → is_Some (td_episodes db !! inv_episode_id i) ∧
    ∃ t, td_tasks db !! inv_operation_id i = Some t ∧ task_episode_id t = Some (inv_episode_id i) ∧
      task_visible t = true ∧ is_report t = false }.

(** How the ledger moves: every episode keeps its identity, advances along the
    stages, spends and never refunds, spends only while it is open, and keeps its
    report. *)
Definition ledger_moves (db db' : TaskDb) : Prop :=
  ledger_ok db' ∧
  ∀ id e s, td_episodes db !! id = Some e → stage_of db id = Some s →
    ∃ e' s', td_episodes db' !! id = Some e' ∧ stage_of db' id = Some s' ∧ rtc stage_step s s' ∧
      episode_identity e' = episode_identity e ∧
      (epi_invocations_used e ≤ epi_invocations_used e')%Z ∧
      (epi_report_attempts_used e ≤ epi_report_attempts_used e')%Z ∧
      (s ≠ StageOpen → epi_invocations_used e' = epi_invocations_used e) ∧
      (∀ r, td_reports db !! id = Some r → td_reports db' !! id = Some r).

Lemma never_reopens s s' : rtc stage_step s s' → s ≠ StageOpen → s' ≠ StageOpen.
Proof. induction 1 as [|s1 s2 s3 Hstep _ IH]; [done|]. intros _. apply IH. by destruct Hstep. Qed.

Lemma ledger_moves_trans db1 db2 db3 : ledger_moves db1 db2 → ledger_moves db2 db3 → ledger_moves db1 db3.
Proof.
  intros [_ H12] [Hok H23]. split; [done|]. intros id e s He Hs.
  destruct (H12 id e s He Hs) as (e2 & s2 & He2 & Hs2 & R & I & U & A & S & P).
  destruct (H23 id e2 s2 He2 Hs2) as (e3 & s3 & He3 & Hs3 & R' & I' & U' & A' & S' & P').
  exists e3, s3. split_and!; try done; [by etransitivity|congruence|lia|lia| |auto].
  intros Hne. rewrite (S' (never_reopens _ _ R Hne)). by apply S.
Qed.

Lemma ledger_moves_refl db : ledger_ok db → ledger_moves db db.
Proof. intros Hok. split; [done|]. intros id e s He Hs. by exists e, s. Qed.

(** A closed stage moves no further. *)
Definition ended (s : LifeStage) : bool :=
  match s with StageStopped | StageClosed _ _ => true | _ => false end.

Lemma ended_stays s s' : ended s = true → rtc stage_step s s' → s' = s.
Proof. intros He Hr. destruct Hr as [|x y z Hstep _]; [done|]. by destruct Hstep. Qed.

(** ** Moves *)

Lemma stage_frame db db' id :
  td_episodes db' !! id = td_episodes db !! id → td_wrapups db' !! id = td_wrapups db !! id → stage_of db' id = stage_of db id.
Proof. unfold stage_of. by intros -> ->. Qed.

Lemma invoked_evolves db db' i t :
  tasks_evolve db db' → td_tasks db !! inv_operation_id i = Some t →
  task_episode_id t = Some (inv_episode_id i) ∧ task_visible t = true ∧ is_report t = false →
  ∃ t', td_tasks db' !! inv_operation_id i = Some t' ∧ task_episode_id t' = Some (inv_episode_id i) ∧
    task_visible t' = true ∧ is_report t' = false.
Proof.
  intros He Ht (H1 & H2 & H3). destruct (He _ _ Ht) as (t' & Ht' & Hev). exists t'. split; [done|].
  pose proof (ev_identity _ _ Hev) as Hi. destruct (identity_columns _ _ Hi) as (_ & -> & ->).
  split; [|done]. unfold task_identity in Hi. injection Hi as _ _ _ _ _ _ _ -> _ _ _ _. done.
Qed.

(** The attempts when some of them close. *)
Definition attempts_close (m m' : gmap string EpisodeReportAttemptRecord) : Prop :=
  ∀ k a', m' !! k = Some a' → ∃ a, m !! k = Some a ∧ rat_attempt_id a' = rat_attempt_id a ∧
    rat_episode_id a' = rat_episode_id a ∧ rat_number a' = rat_number a ∧ (is_open a' = true → is_open a = true).
#[export] Instance attempts_close_refl : Reflexive attempts_close.
Proof. intros m k a Ha. by exists a. Qed.

Lemma attempts_close_fmap f m :
  (∀ a, rat_attempt_id (f a) = rat_attempt_id a ∧ rat_episode_id (f a) = rat_episode_id a ∧ rat_number (f a) = rat_number a ∧
        (is_open (f a) = true → is_open a = true)) → attempts_close m (f <$> m).
Proof. intros Hf k a' (a & <- & Ha)%lookup_fmap_Some. exists a. destruct (Hf a) as (? & ? & ? & ?). done. Qed.

Lemma attempts_close_alter f k m :
  (∀ a, rat_attempt_id (f a) = rat_attempt_id a ∧ rat_episode_id (f a) = rat_episode_id a ∧ rat_number (f a) = rat_number a) →
  (∀ a, m !! k = Some a → is_open (f a) = true → is_open a = true) → attempts_close m (alter f k m).
Proof.
  intros Hf Ho j a' [(<- & a & Ha & ->)|[Hne Ha]]%lookup_alter_Some; [|by exists a'].
  exists a. destruct (Hf a) as (? & ? & ?). split_and!; auto.
Qed.

(** What a stage reads of a wrap-up. *)
Definition wrapup_face (w : EpisodeWrapupRecord) := (wrap_state w, wrap_ending w).

Lemma stage_face e w w' : wrapup_face <$> w' = wrapup_face <$> w → life_stage e w' = life_stage e w.
Proof.
  destruct w as [w|], w' as [w'|]; try done. intros [= Hs He]. unfold life_stage. by rewrite Hs, He.
Qed.

(** Nothing but the tasks, the closing of attempts, and what no episode reads. *)
Lemma ledger_wide db db' :
  tasks_evolve db db' → td_episodes db' = td_episodes db → td_invocations db' = td_invocations db →
  td_reports db' = td_reports db → (∀ id, wrapup_face <$> td_wrapups db' !! id = wrapup_face <$> td_wrapups db !! id) →
  attempts_close (td_attempts db) (td_attempts db') → ledger_ok db → ledger_moves db db'.
Proof.
  intros Hev He Hi Hr Hw Ha Hok.
  assert (Hst : ∀ id, stage_of db' id = stage_of db id).
  { intros id. unfold stage_of. rewrite He. destruct (td_episodes db !! id); [|done]. by apply stage_face. }
  split.
  - destruct Hok as [L1 L2 L3 L4 L5 L6 L7 L8 L9]. split; unfold invocations_of in *; rewrite ?He, ?Hi, ?Hr; try done.
    + intros id e. rewrite Hst. apply L1.
    + intros id. rewrite <- (fmap_is_Some wrapup_face), Hw, fmap_is_Some. apply L3.
    + intros k a' Hk. destruct (Ha k a' Hk) as (a & Hka & -> & -> & -> & Ho).
      destruct (L4 k a Hka) as (Hkey & e & L4e & L4n & L4o). split; [done|]. exists e. rewrite Hst. auto.
    + intros k l a' b' Hk Hl. destruct (Ha k a' Hk) as (a & Hka & _ & -> & -> & _), (Ha l b' Hl) as (b & Hlb & _ & -> & -> & _).
      by apply L5.
    + intros id r. rewrite Hst. apply L6.
    + intros i Hin. destruct (L9 i Hin) as (Hep & t & Ht & Hrest). split; [done|by eapply invoked_evolves].
  - intros id e s. rewrite He, Hst, Hr. intros Hid Hs. by exists e, s.
Qed.

Lemma ledger_frame db db' :
  tasks_evolve db db' → episode_tables db' = episode_tables db → ledger_ok db → ledger_moves db db'.
Proof. intros Hev [= He Hi Hw Ha Hr] Hok. apply ledger_wide; rewrite ?He, ?Hi, ?Hw, ?Ha, ?Hr; try done. Qed.

(** The attempts while the row of one episode moves: they keep their episode and
    their number, none reopens, at most the attempt [new] is added. *)
Record attempts_move (db db' : TaskDb) (id new : string) (e e' : EpisodeRecord) (s' : LifeStage) : Prop := {
  am_row k a' : td_attempts db' !! k = Some a' →
    rat_attempt_id a' = k ∧
    ((∃ a, td_attempts db !! k = Some a ∧ rat_episode_id a' = rat_episode_id a ∧ rat_number a' = rat_number a ∧
        (is_open a' = true → is_open a = true)) ∨
     (k = new ∧ rat_episode_id a' = id ∧ rat_number a' = epi_report_attempts_used e' ∧
      (1 ≤ epi_report_attempts_used e')%Z ∧ (epi_report_attempts_used e < epi_report_attempts_used e')%Z));
  am_open k a' : td_attempts db' !! k = Some a' → rat_episode_id a' = id → is_open a' = true →
    rat_number a' = epi_report_attempts_used e' ∧ ∃ x, s' = StageReporting x }.

Lemma attempts_same db db' id new e e' s s' :
  ledger_ok db → td_episodes db !! id = Some e → stage_of db id = Some s →
  td_attempts db' = td_attempts db → epi_report_attempts_used e' = epi_report_attempts_used e →
  (∀ x, s = StageReporting x → s' = StageReporting x) → attempts_move db db' id new e e' s'.
Proof.
  intros Hok He Hs Ha Hu Hstay. split; intros k a'; rewrite Ha; intros Hk.
  - split; [by apply (lg_attempt _ Hok)|]. left. by exists a'.
  - intros Hid Ho. destruct (lg_attempt _ Hok _ _ Hk) as (_ & e0 & He0 & _ & Hopen). rewrite Hid in *. simplify_eq.
    destruct (Hopen Ho) as (Hn & x & Hx). split; [congruence|]. exists x. apply Hstay. congruence.
Qed.

(** The invocations while one episode moves: it spends those that are added. *)
Record invocations_move (db db' : TaskDb) (id : string) (used used' : Z) (added : list EpisodeInvocationRecord) : Prop := {
  im_rows : td_invocations db' = td_invocations db ++ added;
  im_used : (0 ≤ used ≤ used')%Z;
  im_numbers : inv_number <$> added = seqZ (1 + used) (used' - used);
  im_fresh : NoDup (inv_operation_id <$> td_invocations db ++ added);
  im_named i : i ∈ added → inv_episode_id i = id ∧
    ∃ t, td_tasks db' !! inv_operation_id i = Some t ∧ task_episode_id t = Some id ∧ task_visible t = true ∧ is_report t = false }.

Lemma coherent_bounds e : lifecycle_is_coherent e = true →
  (0 ≤ epi_invocations_used e ≤ epi_invocation_ceiling e)%Z ∧ (0 ≤ epi_report_attempts_used e ≤ 3)%Z.
Proof. unfold lifecycle_is_coherent. rewrite !andb_true_iff, !Z.leb_le. tauto. Qed.

Lemma invocations_same db db' id e e' :
  ledger_ok db → td_episodes db !! id = Some e → td_invocations db' = td_invocations db →
  epi_invocations_used e' = epi_invocations_used e →
  invocations_move db db' id (epi_invocations_used e) (epi_invocations_used e') [].
Proof.
  intros Hok He Hi Hu. destruct (lg_episode _ Hok _ _ He) as (_ & Hc & _). apply coherent_bounds in Hc.
  split; rewrite ?app_nil_r, ?Hi, ?Hu; try done; [lia|by rewrite Z.sub_diag|by apply lg_operations|].
  intros i Hin. by apply not_elem_of_nil in Hin.
Qed.

Lemma invocations_of_move db db' id used used' added j :
  invocations_move db db' id used used' added →
  invocations_of db' j = invocations_of db j ++ if decide (j = id) then added else [].
Proof.
  intros [Hr _ _ _ Hn]. unfold invocations_of, bfilter. rewrite Hr, List.filter_app. f_equal.
  assert (Ha : ∀ i, i ∈ added → inv_episode_id i = id) by (intros i Hi; by apply Hn).
  clear Hr Hn. case_decide as Hj.
  - subst j. induction added as [|i l IH]; [done|]. cbn. unfold str_eqb. rewrite bool_decide_eq_true_2 by (apply Ha; by left).
    f_equal. apply IH. intros k Hk. apply Ha. by right.
  - induction added as [|i l IH]; [done|]. cbn. unfold str_eqb.
    rewrite bool_decide_eq_false_2 by (rewrite (Ha i) by (by left); congruence). apply IH. intros k Hk. apply Ha. by right.
Qed.

Lemma moved_numbers db db' id used used' added :
  invocations_move db db' id used used' added → inv_number <$> invocations_of db id = seqZ 1 used →
  inv_number <$> invocations_of db' id = seqZ 1 used'.
Proof.
  intros Hm Hn. rewrite (invocations_of_move _ _ _ _ _ _ id Hm), decide_True, fmap_app, Hn by done.
  destruct Hm as [_ Hu -> _ _]. rewrite <- seqZ_app by lia. f_equal. lia.
Qed.

Lemma moved_attempts db db' id new e e' s' :
  ledger_ok db → td_episodes db !! id = Some e → td_episodes db' !! id = Some e' → stage_of db' id = Some s' →
  (∀ j, j ≠ id → td_episodes db' !! j = td_episodes db !! j) → (∀ j, j ≠ id → stage_of db' j = stage_of db j) →
  (epi_report_attempts_used e ≤ epi_report_attempts_used e')%Z → attempts_move db db' id new e e' s' →
  ∀ k a, td_attempts db' !! k = Some a →
    rat_attempt_id a = k ∧ ∃ f, td_episodes db' !! rat_episode_id a = Some f ∧
      (1 ≤ rat_number a ≤ epi_report_attempts_used f)%Z ∧
      (is_open a = true → rat_number a = epi_report_attempts_used f ∧
         ∃ x, stage_of db' (rat_episode_id a) = Some (StageReporting x)).
Proof.
  intros Hok He Hhere Hs' Hother Hst Hatt [Arow Aopen]. pose proof (lg_attempt _ Hok) as L4.
  intros k a' Hk. destruct (Arow k a' Hk) as [Hkey Hcase]. split; [done|].
  destruct Hcase as [(a & Ha & Hep & Hnum & Ho)|(Hknew & Hep & Hnum & H1 & _)].
  * destruct (L4 k a Ha) as (_ & e0 & He0 & Hb & Hopen). rewrite Hep. destruct (decide (rat_episode_id a = id)) as [Haid|Hne].
    -- rewrite Haid in *. rewrite He in He0. injection He0 as <-. exists e'. split; [done|]. split; [lia|]. intros Ha'.
       destruct (Aopen k a' Hk) as (? & x & ->); [congruence|done|]. split; [done|]. by exists x.
    -- exists e0. rewrite Hother, Hst, Hnum by done. split; [done|]. split; [done|]. intros Ha'. apply Hopen. auto.
  * exists e'. rewrite Hep. split; [done|]. split; [lia|]. intros Ha'.
    destruct (Aopen k a' Hk Hep Ha') as (? & x & ->). split; [done|]. by exists x.
Qed.

Lemma moved_attempt_numbers db db' id new e e' s' :
  ledger_ok db → td_episodes db !! id = Some e → attempts_move db db' id new e e' s' →
  ∀ k l a b, td_attempts db' !! k = Some a → td_attempts db' !! l = Some b →
    rat_episode_id a = rat_episode_id b → rat_number a = rat_number b → k = l.
Proof.
  intros Hok He [Arow _]. pose proof (lg_attempt _ Hok) as L4. pose proof (lg_number _ Hok) as L5.
  intros k l a b Hk Hl Heq Hn. destruct (Arow k a Hk) as [_ Ck], (Arow l b Hl) as [_ Cl].
  destruct Ck as [(a0 & Ha0 & Ea & Na & _)|(Ek & Ea & Na & _ & Ua)], Cl as [(b0 & Hb0 & Eb & Nb & _)|(El & Eb & Nb & _ & Ub)]; [..|congruence].
  * apply (L5 k l a0 b0); congruence.
  * destruct (L4 k a0 Ha0) as (_ & e0 & He0 & Hb & _). assert (rat_episode_id a0 = id) as Hx by congruence.
    rewrite Hx in He0. simplify_eq. lia.
  * destruct (L4 l b0 Hb0) as (_ & e0 & He0 & Hb & _). assert (rat_episode_id b0 = id) as Hx by congruence.
    rewrite Hx in He0. simplify_eq. lia.
Qed.

Lemma ledger_row db db' id new added e e' s s' :
  ledger_ok db → tasks_evolve db db' → td_episodes db !! id = Some e → stage_of db id = Some s →
  td_episodes db' = <[id := e']> (td_episodes db) →
  (∀ j, j ≠ id → td_wrapups db' !! j = td_wrapups db !! j) →
  stage_of db' id = Some s' → rtc stage_step s s' →
  episode_identity e' = episode_identity e → lifecycle_is_coherent e' = true → (is_live e' = true → is_live e = true) →
  invocations_move db db' id (epi_invocations_used e) (epi_invocations_used e') added →
  (s ≠ StageOpen → epi_invocations_used e' = epi_invocations_used e) →
  (epi_report_attempts_used e ≤ epi_report_attempts_used e')%Z → attempts_move db db' id new e e' s' →
  (∀ j r, td_reports db' !! j = Some r → td_reports db !! j = Some r ∨
     (j = id ∧ rpt_episode_id r = id ∧ s' = StageClosed (rpt_ending r) ReportReady)) →
  (∀ j r, td_reports db !! j = Some r → td_reports db' !! j = Some r) →
  ledger_moves db db'.
Proof.
  intros Hok Hev He Hs Heps Hwr Hs' Hstep Hid Hcoh Hlive Him Hspent Hatt Ham Hrep Hkept.
  pose proof Hok as [L1 L2 L3 L4 L5 L6 L7 L8 L9].
  assert (Hother : ∀ j, j ≠ id → td_episodes db' !! j = td_episodes db !! j) by (intros j Hj; by rewrite Heps, lookup_insert_ne).
  assert (Hhere : td_episodes db' !! id = Some e') by (by rewrite Heps, lookup_insert_eq).
  assert (Hst : ∀ j, j ≠ id → stage_of db' j = stage_of db j) by (intros j Hj; apply stage_frame; [by apply Hother|by apply Hwr]).
  assert (Hsome : ∀ j, is_Some (td_episodes db' !! j) ↔ is_Some (td_episodes db !! j)).
  { intros j. destruct (decide (j = id)) as [->|Hj]; [|by rewrite Hother]. rewrite Hhere, He. split; by eexists. }
  assert (Hids : epi_episode_id e' = epi_episode_id e ∧ same_owner e' e = true ∧ ∀ f, same_owner f e' = same_owner f e ∧ same_owner e' f = same_owner e f).
  { unfold episode_identity in Hid. injection Hid as Hi1 Hi2 Hi3 Hi4 _ _ _ _ _. unfold same_owner, str_eqb.
    rewrite Hi1, Hi2, Hi3, Hi4. split; [done|]. split; [|done]. rewrite !andb_true_iff, orb_true_iff, !bool_decide_eq_true. auto. }
  destruct Hids as (Hi1 & Hself & Hown). split.
  - split.
    + intros j f Hj. destruct (decide (j = id)) as [->|Hne].
      * rewrite Hhere in Hj. injection Hj as <-. destruct (L1 id e He) as (Hkey & _ & _). split; [congruence|].
        split; [done|]. rewrite Hs'. by eexists.
      * rewrite Hother in Hj by done. rewrite Hst by done. by apply L1.
    + intros i j a b Hi Hj Ha Hb Hab. destruct (decide (i = id)) as [->|Hni], (decide (j = id)) as [->|Hnj]; [done|..].
      * rewrite Hhere in Hi. injection Hi as <-. rewrite Hother in Hj by done. rewrite (proj2 (Hown b)) in Hab.
        apply (L2 id j e b); auto.
      * rewrite Hhere in Hj. injection Hj as <-. rewrite Hother in Hi by done. rewrite (proj1 (Hown a)) in Hab.
        apply (L2 i id a e); auto.
      * rewrite Hother in Hi, Hj by done. by apply (L2 i j a b).
    + intros j Hj. apply Hsome. destruct (decide (j = id)) as [->|Hne]; [by eexists|]. apply L3. by rewrite <- Hwr.
    + by apply (moved_attempts db db' id new e e' s').
    + by apply (moved_attempt_numbers db db' id new e e' s').
    + intros j r Hr. destruct (Hrep j r Hr) as [Hold|(-> & Hrid & ->)]; [|done].
      destruct (L6 j r Hold) as [Hrid Hcl]. split; [done|]. destruct (decide (j = id)) as [->|Hne]; [|by rewrite Hst].
      rewrite Hcl in Hs. injection Hs as <-. rewrite Hs'. by rewrite (ended_stays (StageClosed (rpt_ending r) ReportReady) _ eq_refl Hstep).
    + intros j f Hj. destruct (decide (j = id)) as [->|Hne].
      * rewrite Hhere in Hj. injection Hj as <-. by apply (moved_numbers _ _ _ _ _ _ Him), L7.
      * rewrite Hother in Hj by done. rewrite (invocations_of_move _ _ _ _ _ _ j Him), decide_False, app_nil_r by done. by apply L7.
    + rewrite (im_rows _ _ _ _ _ _ Him). apply (im_fresh _ _ _ _ _ _ Him).
    + intros i. rewrite (im_rows _ _ _ _ _ _ Him). intros [Hin|Hin]%elem_of_app.
      * destruct (L9 i Hin) as (Hep & t & Ht & Hrest). split; [by apply Hsome|by eapply invoked_evolves].
      * destruct (im_named _ _ _ _ _ _ Him i Hin) as (-> & Hnamed). split; [by eexists|done].
  - intros j f sj Hj Hsj. destruct (decide (j = id)) as [->|Hne].
    + rewrite He in Hj. injection Hj as <-. rewrite Hs in Hsj. injection Hsj as <-. exists e', s'.
      pose proof (im_used _ _ _ _ _ _ Him). split_and!; try done; [lia|by apply Hkept].
    + exists f, sj. rewrite Hother, Hst by done. split_and!; try done. by apply Hkept.
Qed.

(** A new episode. *)
Lemma ledger_insert db db' e added s :
  let id := epi_episode_id e in
  ledger_ok db → tasks_evolve db db' → td_episodes db !! id = None →
  td_episodes db' = <[id := e]> (td_episodes db) → td_wrapups db' = td_wrapups db → td_attempts db' = td_attempts db →
  td_reports db' = td_reports db → lifecycle_is_coherent e = true → life_stage e None = Some s →
  (is_live e = true → ∀ j f, td_episodes db !! j = Some f → is_live f = true → same_owner f e = false) →
  invocations_move db db' id 0 (epi_invocations_used e) added →
  ledger_moves db db'.
Proof.
  intros id Hok Hev Hnew Heps Hw Ha Hr Hcoh Hs Hlive Him. pose proof Hok as [L1 L2 L3 L4 L5 L6 L7 L8 L9].
  assert (Hold : ∀ j f, td_episodes db !! j = Some f → td_episodes db' !! j = Some f).
  { intros j f Hj. rewrite Heps, lookup_insert_ne; [done|congruence]. }
  assert (Hst : ∀ j, is_Some (td_episodes db !! j) → stage_of db' j = stage_of db j).
  { intros j [f Hj]. apply stage_frame; [by rewrite (Hold _ _ Hj), Hj|by rewrite Hw]. }
  assert (Hwn : td_wrapups db !! id = None).
  { destruct (td_wrapups db !! id) eqn:Hx; [|done]. destruct (L3 id) as [f Hf]; [by eexists|congruence]. }
  assert (Hsym : ∀ a b, same_owner a b = true → same_owner b a = true).
  { intros a b. unfold same_owner, str_eqb. rewrite !andb_true_iff, !orb_true_iff, !bool_decide_eq_true. intuition congruence. }
  split; [|intros j f sj Hj Hsj; exists f, sj; rewrite Hst by (by eexists); rewrite Hr; split_and!; try done; by apply Hold].
  split.
  - intros j f. rewrite Heps. intros [[<- <-]|[Hne Hj]]%lookup_insert_Some.
    + split; [done|]. split; [done|]. unfold stage_of. rewrite Heps, lookup_insert_eq, Hw. cbn. rewrite Hwn, Hs. by eexists.
    + rewrite Hst by (by eexists). by apply L1.
  - intros i j a b. rewrite Heps. intros [[<- <-]|[Hni Hi]]%lookup_insert_Some [[<- <-]|[Hnj Hj]]%lookup_insert_Some; [done|..].
    + intros La Lb Hown%Hsym. by rewrite (Hlive La j b Hj Lb) in Hown.
    + intros La Lb Hown. by rewrite (Hlive Lb i a Hi La) in Hown.
    + intros. by apply (L2 i j a b).
  - intros j. rewrite Hw. intros [f Hj]%L3. exists f. by apply Hold.
  - intros k a. rewrite Ha. intros Hk. destruct (L4 k a Hk) as (Hkey & e0 & He0 & Hb & Ho). split; [done|].
    exists e0. rewrite Hst by (by eexists). split; [by apply Hold|done].
  - rewrite Ha. apply L5.
  - intros j r. rewrite Hr. intros Hj. destruct (L6 j r Hj) as [Hk Hcl]. split; [done|]. rewrite Hst; [done|].
    unfold stage_of in Hcl. destruct (td_episodes db !! j); [by eexists|done].
  - intros j f. rewrite Heps. intros [[<- <-]|[Hne Hj]]%lookup_insert_Some.
    + apply (moved_numbers _ _ _ _ _ _ Him). assert (invocations_of db id = []) as ->; [|done].
      apply bfilter_nil. intros i Hi. unfold str_eqb. apply bool_decide_eq_false. intros Hx.
      destruct (L9 i Hi) as ([f Hf] & _). congruence.
    + rewrite (invocations_of_move _ _ _ _ _ _ j Him), decide_False, app_nil_r by congruence. by apply L7.
  - rewrite (im_rows _ _ _ _ _ _ Him). apply (im_fresh _ _ _ _ _ _ Him).
  - intros i. rewrite (im_rows _ _ _ _ _ _ Him). intros [Hin|Hin]%elem_of_app.
    + destruct (L9 i Hin) as ([f Hf] & t & Ht & Hrest). split; [exists f; by apply Hold|by eapply invoked_evolves].
    + destruct (im_named _ _ _ _ _ _ Him i Hin) as (-> & Hnamed). split; [|done]. rewrite Heps, lookup_insert_eq. by eexists.
Qed.

(** ** Reading a stage *)

Definition stage_spec (s : LifeStage) (e : EpisodeRecord) (w : option EpisodeWrapupRecord) : Prop :=
  match s with
  | StageOpen => w = None ∧ epi_wrapup_state e = WrapNotStarted ∧ epi_ending e = None ∧
      epi_stop_requested_at e = None ∧ epi_status e ∈ [EpQueued; EpRunning]
  | StageStopping => w = None ∧ epi_wrapup_state e = WrapNotStarted ∧ epi_ending e = None ∧
      is_Some (epi_stop_requested_at e) ∧ epi_status e = EpStopping
  | StageFenced x => w = None ∧ epi_wrapup_state e = WrapNotStarted ∧ epi_ending e = Some x ∧
      epi_stop_requested_at e = None ∧ epi_status e = EpWrappingUp
  | StageReporting x => ∃ v, w = Some v ∧ epi_wrapup_state e ∈ [WrapPending; WrapRunning] ∧ epi_ending e = Some x ∧
      epi_status e = EpWrappingUp ∧ wrap_state v ∈ [WrapPending; WrapRunning] ∧ wrap_ending v = Some x
  | StageClosed x NoReport => w = None ∧ epi_wrapup_state e = WrapNotStarted ∧ epi_ending e = Some x ∧
      epi_stop_requested_at e = None ∧ epi_status e = _status_for_ending x ∧ is_Some (epi_ended_at e)
  | StageClosed x o => ∃ v, w = Some v ∧
      epi_wrapup_state e = (if decide (o = ReportReady) then WrapReady else WrapFailed) ∧ epi_ending e = Some x ∧
      epi_status e = _status_for_ending x ∧ is_Some (epi_ended_at e) ∧ wrap_state v = epi_wrapup_state e ∧ wrap_ending v = Some x
  | StageStopped => ∃ v, w = Some v ∧ epi_wrapup_state e = WrapSkipped ∧ epi_ending e = Some EndStopped ∧
      epi_status e = EpStopped ∧ is_Some (epi_ended_at e) ∧ wrap_state v = WrapSkipped ∧ wrap_ending v = Some EndStopped
  end.

Lemma is_some_Some {A} (o : option A) : is_some o = true ↔ is_Some o.
Proof. by destruct o. Qed.

Ltac stage_bools := rewrite ?andb_true_iff, ?orb_true_iff, ?andb_true_iff, ?negb_true_iff, ?bool_decide_eq_true, ?is_some_Some in *.
Ltac stage_if := match goal with |- (if ?c then _ else _) = _ → _ => let Hc := fresh "Hc" in destruct c eqn:Hc; [|try done] end.

Lemma is_some_false {A} (o : option A) : is_some o = false ↔ o = None.
Proof. by destruct o. Qed.

Lemma stage_sound e w s : life_stage e w = Some s → stage_spec s e w.
Proof.
  unfold life_stage, stage_spec, among. cbn zeta.
  destruct (epi_wrapup_state e) eqn:Hws, (epi_ending e) as [x|] eqn:Hx; try done.
  - destruct (is_some w || _) eqn:Hn; [done|]. apply orb_false_iff in Hn as [->%is_some_false Hn%is_some_false].
    stage_if; [intros [= <-]; by stage_bools|]. stage_if. intros [= <-]. by stage_bools.
  - destruct (is_some w) eqn:Hn; [done|]. apply is_some_false in Hn as ->.
    stage_if; [intros [= <-]; stage_bools; destruct Hc; by rewrite is_some_false in *|].
    stage_if. intros [= <-]. stage_bools. intuition.
  - stage_if. intros [= <-]. destruct w as [v|]; stage_bools; [|naive_solver]. exists v.
    destruct Hc as (Hst & [[Hv He]|[Hv He]]); rewrite Hv; split_and!; try done; by_decide.
  - stage_if. intros [= <-]. destruct w as [v|]; stage_bools; [|naive_solver]. exists v.
    destruct Hc as (Hst & [[Hv He]|[Hv He]]); rewrite Hv; split_and!; try done; by_decide.
  - stage_if. intros [= <-]. destruct w as [v|]; stage_bools; [|naive_solver]. exists v. naive_solver.
  - stage_if. intros [= <-]. destruct w as [v|]; stage_bools; [|naive_solver]. exists v. naive_solver.
  - destruct x; try done. stage_if. intros [= <-]. destruct w as [v|]; stage_bools; [|naive_solver]. exists v. naive_solver.
Qed.

Lemma stage_complete e w s : stage_spec s e w → life_stage e w = Some s.
Proof.
  unfold life_stage, stage_spec, among. cbn zeta. destruct s as [| | |x|x|x o].
  - intros (-> & -> & -> & -> & Hs). by rewrite (bool_decide_eq_true_2 _ Hs).
  - intros (-> & -> & -> & [? ->] & ->). done.
  - intros (v & -> & -> & -> & -> & [? ->] & -> & ->). cbn. by rewrite !bool_decide_eq_true_2.
  - intros (-> & -> & -> & -> & ->). done.
  - intros (v & -> & Hw & -> & -> & Hv & ->). rewrite (bool_decide_eq_true_2 (Some x = Some x)), !andb_true_r by done.
    assert (bool_decide (wrap_state v = WrapPending) || bool_decide (wrap_state v = WrapRunning) = true) as ->.
    { rewrite orb_true_iff, !bool_decide_eq_true. set_solver. }
    apply elem_of_cons in Hw as [->| ->%list_elem_of_singleton]; done.
  - destruct o.
    + intros (-> & -> & -> & -> & -> & [? ->]). by destruct x.
    + intros (v & -> & Hw & -> & -> & [? ->] & Hv & ->). rewrite decide_False in Hw by done. rewrite Hv, Hw.
      by rewrite !bool_decide_eq_true_2.
    + intros (v & -> & Hw & -> & -> & [? ->] & Hv & ->). rewrite decide_True in Hw by done. rewrite Hv, Hw.
      by rewrite !bool_decide_eq_true_2.
Qed.

Lemma stage_iff e w s : life_stage e w = Some s ↔ stage_spec s e w.
Proof. split; [apply stage_sound|apply stage_complete]. Qed.

Definition stage_ending (s : LifeStage) : option EpisodeEnding :=
  match s with StageFenced x | StageReporting x | StageClosed x _ => Some x | _ => None end.

Lemma stage_live s e w : stage_spec s e w → is_live e = negb (ended s).
Proof.
  unfold is_live. destruct s as [| | |x|x|x o]; cbn.
  - intros (_ & _ & _ & _ & Hs). by apply elem_of_cons in Hs as [->| ->%list_elem_of_singleton].
  - by intros (_ & _ & _ & _ & ->).
  - by intros (v & _ & _ & _ & -> & _).
  - by intros (_ & _ & _ & _ & ->).
  - by intros (v & _ & _ & _ & -> & _).
  - destruct o; [intros (_ & _ & _ & _ & -> & _)|intros (v & _ & _ & _ & -> & _)..]; by destruct x.
Qed.

Lemma coherent_ending e : lifecycle_is_coherent e = true → epi_ending e = Some EndStopped ↔ epi_wrapup_state e = WrapSkipped.
Proof.
  unfold lifecycle_is_coherent. rewrite !andb_true_iff. intros ((((_ & H) & _) & _) & _). apply Bool.eqb_prop in H.
  rewrite <- (bool_decide_eq_true (epi_ending e = _)), H. apply bool_decide_eq_true.
Qed.

Lemma coherent_stage_ending s e w : lifecycle_is_coherent e = true → stage_spec s e w → stage_ending s ≠ Some EndStopped.
Proof.
  intros Hc%coherent_ending Hs Hx. destruct s as [| | |x|x|x o]; try done; cbn in *; injection Hx as ->.
  - destruct Hs as (_ & Hw & He & _). apply Hc in He. congruence.
  - destruct Hs as (v & _ & Hw & He & _). apply Hc in He. rewrite He in Hw. by apply (bool_decide_pack _) in Hw.
  - destruct o; [destruct Hs as (_ & Hw & He & _)|destruct Hs as (v & _ & Hw & He & _)..]; apply Hc in He; by rewrite Hw in He.
Qed.

(** The row of a stage keeps the coherence of its episode. *)
Lemma coherent_row s' e e' w' :
  lifecycle_is_coherent e = true → episode_identity e' = episode_identity e → stage_spec s' e' w' →
  stage_ending s' ≠ Some EndStopped →
  (0 ≤ epi_invocations_used e' ≤ epi_invocation_ceiling e)%Z → (0 ≤ epi_report_attempts_used e' ≤ 3)%Z →
  lifecycle_is_coherent e' = true.
Proof.
  unfold episode_identity. intros Hc [= Hi _ Hm Hn Ht Hh Hcl _ _] Hs Hne Hu Ha.
  unfold lifecycle_is_coherent in *. rewrite Hi, Hm, Hn, Ht, Hh, Hcl. rewrite !andb_true_iff, !Z.leb_le in *.
  destruct Hc as ((((((((H1 & _) & _) & _) & _) & _) & H7) & H8) & _). split_and!; try done; try lia.
  - apply Bool.eqb_true_iff, bool_decide_ext. destruct s' as [| | |x|x|x o]; cbn in *.
    + by destruct Hs as (_ & -> & -> & _).
    + by destruct Hs as (_ & -> & -> & _).
    + by destruct Hs as (v & _ & -> & -> & _).
    + destruct Hs as (_ & -> & -> & _). by split; intros [= ->].
    + destruct Hs as (v & _ & Hw & -> & _). split; [by intros [= ->]|]. intros Hsk. rewrite Hsk in Hw. by apply (bool_decide_pack _) in Hw.
    + destruct o; [destruct Hs as (_ & -> & -> & _)|destruct Hs as (v & _ & -> & -> & _)..]; by split; intros [= ->].
  - rewrite orb_true_iff. destruct (epi_ending e') eqn:He; [by right|]. left.
    unfold among. apply negb_true_iff, bool_decide_eq_false. intros Hw.
    destruct s' as [| | |x|x|x o]; cbn in Hs; [..|destruct o]; try (destruct Hs as (_ & Hw' & He' & _)); try (destruct Hs as (v & _ & Hw' & He' & _));
      try congruence; rewrite Hw' in Hw; by apply (bool_decide_pack _) in Hw.
Qed.

Lemma stage_of_spec db id e s : td_episodes db !! id = Some e → stage_of db id = Some s → stage_spec s e (td_wrapups db !! id).
Proof. intros He. unfold stage_of. rewrite He. cbn. apply stage_iff. Qed.

(** ** One row moves *)

Lemma ledger_step db db' id new added e e' s s' :
  ledger_ok db → tasks_evolve db db' → td_episodes db !! id = Some e → stage_of db id = Some s →
  td_episodes db' = <[id := e']> (td_episodes db) →
  (∀ j, j ≠ id → td_wrapups db' !! j = td_wrapups db !! j) →
  stage_spec s' e' (td_wrapups db' !! id) → rtc stage_step s s' → stage_ending s' ≠ Some EndStopped →
  episode_identity e' = episode_identity e →
  invocations_move db db' id (epi_invocations_used e) (epi_invocations_used e') added →
  (s ≠ StageOpen → epi_invocations_used e' = epi_invocations_used e) →
  (epi_invocations_used e' ≤ epi_invocation_ceiling e)%Z →
  (epi_report_attempts_used e ≤ epi_report_attempts_used e' ≤ 3)%Z → attempts_move db db' id new e e' s' →
  (∀ j r, td_reports db' !! j = Some r → td_reports db !! j = Some r ∨
     (j = id ∧ rpt_episode_id r = id ∧ s' = StageClosed (rpt_ending r) ReportReady)) →
  (∀ j r, td_reports db !! j = Some r → td_reports db' !! j = Some r) →
  ledger_moves db db'.
Proof.
  intros Hok Hev He Hs Heps Hwr Hs' Hstep Hne Hid Him Hspent Hceil Hatt Ham Hrep Hkept.
  destruct (lg_episode _ Hok _ _ He) as (_ & Hc & _). pose proof (coherent_bounds _ Hc) as [Hb1 Hb2].
  pose proof (stage_of_spec _ _ _ _ He Hs) as Hspec.
  eapply ledger_row; try done; [| | |lia].
  - unfold stage_of. rewrite Heps, lookup_insert_eq. by apply stage_iff.
  - pose proof (im_used _ _ _ _ _ _ Him). eapply coherent_row; try done; lia.
  - rewrite (stage_live _ _ _ Hs'), (stage_live _ _ _ Hspec), !negb_true_iff. intros Hs0. apply not_true_is_false. intros Hend.
    rewrite (ended_stays _ _ Hend Hstep) in Hs0. congruence.
Qed.

Lemma alter_insert_eq {A} (f : A → A) k (m : gmap string A) a : m !! k = Some a → alter f k m = <[k := f a]> m.
Proof.
  intros Hk. apply map_eq. intros j. destruct (decide (j = k)) as [->|Hne].
  - by rewrite lookup_alter_eq, lookup_insert_eq, Hk.
  - by rewrite lookup_alter_ne, lookup_insert_ne.
Qed.

(** The attempts, the invocations and the reports stay. *)
Lemma ledger_quiet db db' id f e s s' w' :
  ledger_ok db → tasks_evolve db db' → td_episodes db !! id = Some e → stage_of db id = Some s →
  episode_tables db' = (alter f id (td_episodes db), td_invocations db, w', td_attempts db, td_reports db) →
  (∀ j, j ≠ id → w' !! j = td_wrapups db !! j) →
  stage_spec s' (f e) (w' !! id) → rtc stage_step s s' → stage_ending s' ≠ Some EndStopped →
  episode_identity (f e) = episode_identity e → epi_invocations_used (f e) = epi_invocations_used e →
  epi_report_attempts_used (f e) = epi_report_attempts_used e →
  (∀ x, s = StageReporting x → s' = StageReporting x) → ledger_moves db db'.
Proof.
  intros Hok Hev He Hs [= Heps Hi Hw Ha Hr] Hwr Hs' Hstep Hne Hid Hu Hau Hstay.
  destruct (lg_episode _ Hok _ _ He) as (_ & Hc & _). pose proof (coherent_bounds _ Hc) as [Hb1 Hb2].
  eapply (ledger_step db db' id ""); try done.
  - rewrite Heps. by apply alter_insert_eq.
  - intros j Hj. rewrite Hw. by apply Hwr.
  - by rewrite Hw.
  - by eapply invocations_same.
  - lia.
  - lia.
  - eapply attempts_same; try done.
  - intros j r. rewrite Hr. by left.
  - intros j r. by rewrite Hr.
Qed.

Lemma is_some_None {A} (o : option A) : negb (is_some o) = true → o = None.
Proof. by destruct o. Qed.

(** The stages in which an episode admits work or an ending. *)
Lemma stage_admits e w s :
  stage_spec s e w → among (epi_status e) [EpQueued; EpRunning] = true →
  s = StageOpen.
Proof.
  unfold among. rewrite bool_decide_eq_true. intros Hs Hin. pose proof (stage_live _ _ _ Hs) as Hl.
  destruct s as [| | |x|x|x o]; [done|..]; exfalso.
  - destruct Hs as (_ & _ & _ & _ & Hst). rewrite Hst in Hin. by apply (bool_decide_pack _) in Hin.
  - destruct Hs as (v & _ & _ & _ & Hst & _). rewrite Hst in Hin. by apply (bool_decide_pack _) in Hin.
  - destruct Hs as (_ & _ & _ & _ & Hst). rewrite Hst in Hin. by apply (bool_decide_pack _) in Hin.
  - destruct Hs as (v & _ & _ & _ & Hst & _). rewrite Hst in Hin. by apply (bool_decide_pack _) in Hin.
  - cbn in Hl. unfold is_live in Hl. apply elem_of_cons in Hin as [Hst|Hst%list_elem_of_singleton]; by rewrite Hst in Hl.
Qed.

Lemma stage_not_ended e w s statuses :
  stage_spec s e w → among (epi_status e) statuses = true → forallb (λ t, among t _LIVE_EPISODE_STATUSES) statuses = true →
  ended s = false.
Proof.
  unfold among at 1. rewrite bool_decide_eq_true, forallb_forall. intros Hs Hin Hall.
  pose proof (stage_live _ _ _ Hs) as Hl. unfold is_live in Hl. rewrite (Hall (epi_status e)) in Hl by (by apply list_elem_of_In).
  by destruct (ended s).
Qed.

(** ** Reports *)

Lemma open_attempt db k a :
  ledger_ok db → td_attempts db !! k = Some a → is_open a = true →
  ∃ e x, td_episodes db !! rat_episode_id a = Some e ∧ stage_of db (rat_episode_id a) = Some (StageReporting x) ∧
    rat_number a = epi_report_attempts_used e.
Proof.
  intros Hok Hk Ho. destruct (lg_attempt _ Hok _ _ Hk) as (_ & e & He & _ & Hopen).
  destruct (Hopen Ho) as (Hn & x & Hx). by exists e, x.
Qed.

(** An episode has at most one open attempt. *)
Lemma one_open db k l a b :
  ledger_ok db → td_attempts db !! k = Some a → td_attempts db !! l = Some b →
  is_open a = true → is_open b = true → rat_episode_id a = rat_episode_id b → k = l.
Proof.
  intros Hok Hk Hl Ha Hb He. destruct (open_attempt _ _ _ Hok Hk Ha) as (e & x & Hea & _ & Hna).
  destruct (open_attempt _ _ _ Hok Hl Hb) as (f & y & Hfb & _ & Hnb). rewrite He in Hea. simplify_eq.
  eapply (lg_number _ Hok); try done. congruence.
Qed.

(** A step of an episode whose report is being written. *)
Lemma report_step db db' id x e f g s' :
  ledger_ok db → tasks_evolve db db' → td_episodes db !! id = Some e → stage_of db id = Some (StageReporting x) →
  td_episodes db' = alter f id (td_episodes db) → td_invocations db' = td_invocations db →
  td_wrapups db' = alter g id (td_wrapups db) → attempts_close (td_attempts db) (td_attempts db') →
  (∀ j r, td_reports db' !! j = Some r → td_reports db !! j = Some r ∨
     (j = id ∧ rpt_episode_id r = id ∧ s' = StageClosed (rpt_ending r) ReportReady)) →
  (∀ j r, td_reports db !! j = Some r → td_reports db' !! j = Some r) →
  (∀ v, td_wrapups db !! id = Some v → stage_spec (StageReporting x) e (Some v) → stage_spec s' (f e) (Some (g v))) →
  rtc stage_step (StageReporting x) s' → stage_ending s' ≠ Some EndStopped →
  episode_identity (f e) = episode_identity e → epi_invocations_used (f e) = epi_invocations_used e →
  epi_report_attempts_used (f e) = epi_report_attempts_used e →
  (s' = StageReporting x ∨ ∀ k a, td_attempts db' !! k = Some a → rat_episode_id a = id → is_open a = false) →
  ledger_moves db db'.
Proof.
  intros Hok Hev He Hs Heps Hi Hw Ha Hr Hrk Hspec Hstep Hne Hid Hu Hau Hopen.
  destruct (lg_episode _ Hok _ _ He) as (_ & Hc & _). pose proof (coherent_bounds _ Hc) as [Hb1 Hb2].
  pose proof (stage_of_spec _ _ _ _ He Hs) as Hsp. destruct Hsp as (v & Hv & Hsp).
  eapply (ledger_step db db' id ""); try done.
  - rewrite Heps. by apply alter_insert_eq.
  - intros j Hj. rewrite Hw. by rewrite lookup_alter_ne.
  - rewrite Hw, lookup_alter_eq, Hv. apply Hspec; [done|]. by exists v.
  - by eapply invocations_same.
  - lia.
  - lia.
  - split.
    + intros k a' (a & Hk & Hkey & Hep & Hn & Ho)%Ha. destruct (lg_attempt _ Hok _ _ Hk) as (Hkk & _).
      split; [congruence|]. left. by exists a.
    + intros k a' Hk Hep Ho. destruct Hopen as [->|Hopen]; [|by rewrite (Hopen k a') in Ho].
      destruct (Ha k a' Hk) as (a & Hka & _ & Hepa & -> & Hoa).
      destruct (open_attempt _ _ _ Hok Hka (Hoa Ho)) as (e0 & y & He0 & _ & ->). rewrite <- Hepa, Hep in He0. simplify_eq.
      split; [done|by exists x].
Qed.
