(* ===== verification/EpisodeLaws.v ===== *)
(** The operations of the ledger, one by one: each moves its episode along the
    stages and keeps the ledger; the refinement they make together. *)

From S2P Require Export EpisodeLife.

(** ** The operations on tasks leave the ledger alone *)

Definition quiet (db db' : TaskDb) : Prop := episode_tables db' = episode_tables db.
#[export] Instance quiet_preorder : PreOrder quiet.
Proof. split; [by intros db|]. unfold quiet. intros db1 db2 db3. congruence. Qed.

Section quiet.
Context `{JsonText, TextLib}.

Lemma same_quiet db db' : same_state db db' → quiet db db'.
Proof. by intros (_ & He & _). Qed.

Lemma event_quiet db id detail level at_ : quiet db (_insert_agent_task_event db id detail level at_).
Proof. apply same_quiet, event_frame. Qed.

Lemma settlement_quiet db id message level category payload status diagnostic now db' :
  record_settlement db id message level category payload status diagnostic now = Commit db' → quiet db db'.
Proof.
  unfold record_settlement. intros Hs. etransitivity; [apply event_quiet|]. etransitivity; [apply same_quiet, receipt_frame|].
  by eapply same_quiet, task_notice_frame.
Qed.

Lemma transition_quiet db id target f : quiet db (_transition_agent_task db id target f).1.
Proof. unfold _transition_agent_task. destruct (td_tasks db !! id) as [t|]; [|done]. by destruct (among _ _). Qed.

Lemma settle_quiet db id label now target f applied db' :
  (∀ db1 db2, applied db1 = Commit db2 → quiet db1 db2) →
  settle_transition id label now (_transition_agent_task db id target f) applied = Commit db' → quiet db db'.
Proof.
  intros Hk. pose proof (transition_quiet db id target f) as Ht.
  destruct (_transition_agent_task db id target f) as [db1 [|observed|]]; cbn in *; [done| |].
  - intros [= <-]. etransitivity; [exact Ht|apply event_quiet].
  - intros Hc. etransitivity; [exact Ht|by apply Hk].
Qed.

Lemma insert_task_quiet db t cause db' : _insert_agent_task db t cause = Commit db' → quiet db db'.
Proof. unfold quiet. intros (t' & db1 & _ & _ & _ & _ & [_ ->]%insert_row_ok & [_ [-> _]])%insert_task_ok. done. Qed.

Lemma fold_quiet {A} (f : TaskDb → A → TaskDb) l db : (∀ db x, quiet db (f db x)) → quiet db (foldl f db l).
Proof. intros Hf. revert db. induction l as [|x l IH]; intros db; [done|]. cbn. etransitivity; [apply Hf|apply IH]. Qed.

Lemma history_quiet db ids db' : detach_agent_tasks_for_history db ids = Commit db' → quiet db db'.
Proof.
  unfold detach_agent_tasks_for_history. destruct (is_nil _); [by intros [= <-]|]. intros Hd. tx_inv Hd.
  apply tx_bind_ok in Hd as (_ & _ & Hd). tx_inv Hd. by injection Hd as <-.
Qed.

Lemma restore_tasks_quiet db diagnostic now db' : detach_agent_tasks_for_restore db diagnostic now = Commit db' → quiet db db'.
Proof.
  unfold detach_agent_tasks_for_restore. intros Hd. tx_inv Hd. etransitivity; [|by eapply history_quiet].
  etransitivity; [|apply fold_quiet; intros db1 id; etransitivity; [apply event_quiet|apply same_quiet, receipt_frame]]. done.
Qed.

Lemma interrupt_quiet db preserve now db' : interrupt_active_agent_tasks db preserve now = Commit db' → quiet db db'.
Proof.
  unfold interrupt_active_agent_tasks. set (ids := task_operation_id <$> _).
  apply (tx_fold_inv (quiet db)); [|done]. intros db1 id db2 _ Hq (db3 & Hn & [= <-])%tx_bind_ok.
  etransitivity; [exact Hq|]. etransitivity; [by eapply same_quiet, task_notice_frame|].
  etransitivity; [apply event_quiet|apply same_quiet, receipt_frame].
Qed.

(** The operations that work on tasks alone. *)
Definition on_tasks (op : StoreOp) : bool :=
  match op with
  | OpRunning _ | OpMessage _ _ _ _ | OpCheckpoint _ _ _ _ | OpRuntime _ _ _ | OpWriteScope _ _ _ _ _ | OpClearStage _
  | OpPauseRequest _ _ | OpPause _ _ _ | OpComplete _ _ _ | OpFail _ _ _ _ | OpEvent _ _ _ | OpReceipt _ _ _ _
  | OpInterruptActive _ | OpPrune | OpDetachHistory _ | OpCreateTask _ _ | OpCreateMerge _ => true
  | _ => false
  end.

Lemma run_op_quiet db op now db' : on_tasks op = true → run_op db op now = Commit db' → quiet db db'.
Proof.
  destruct op; try done; intros _; cbn [run_op].
  - apply settle_quiet. intros db1 db2 [= <-]. apply event_quiet.
  - unfold update_agent_task_message. intros (t & _ & Hm)%tx_bind_ok. destruct (among _ _); [|by injection Hm as <-].
    injection Hm as <-. destruct event; [etransitivity; [|apply event_quiet]|]; done.
  - unfold checkpoint_agent_task. intros (t & _ & Hc)%tx_bind_ok. tx_inv Hc. by injection Hc as <-.
  - unfold checkpoint_agent_task_runtime. intros (_ & _ & (t & _ & Hc)%tx_bind_ok)%tx_bind_ok. tx_inv Hc.
    by destruct (receipts_of _ _ _) as [|r [|? ?]]; [|tx_inv Hc|done]; injection Hc as <-.
  - unfold bind_agent_task_write_scope. intros Hb. tx_inv Hb. apply tx_bind_ok in Hb as (t & _ & Hb).
    tx_inv Hb. by injection Hb as <-.
  - by intros [= <-].
  - unfold request_agent_task_pause. set (f := λ t, _). pose proof (transition_quiet db operation_id TaskPausing f) as Ht.
    destruct (_transition_agent_task _ _ _ _) as [db1 [|observed|]]; [done..|]. intros [= <-].
    etransitivity; [exact Ht|apply event_quiet].
  - apply settle_quiet. intros db1 db2. apply settlement_quiet.
  - apply settle_quiet. intros db1 db2 Hs. etransitivity; [|by eapply settlement_quiet]. by destruct (get_is _ _).
  - apply settle_quiet. intros db1 db2. apply settlement_quiet.
  - intros [= <-]. unfold record_agent_task_event. cbn zeta. destruct (str_eqb _ _); [done|apply event_quiet].
  - unfold record_agent_task_receipt. destruct (str_eqb _ _); [by intros [= <-]|]. intros Hr. tx_inv Hr.
    injection Hr as <-. apply same_quiet, receipt_frame.
  - apply interrupt_quiet.
  - by intros [= <-].
  - apply history_quiet.
  - unfold create_agent_task. intros Hc. tx_inv Hc. apply tx_bind_ok in Hc as (_ & _ & Hc). tx_inv Hc.
    by eapply insert_task_quiet, integrity_as_value_error_ok.
  - unfold create_branch_merge_task. intros Hc. tx_inv Hc. destruct (td_tasks db !! _) as [stored|].
    + tx_inv Hc. by injection Hc as <-.
    + apply tx_bind_ok in Hc as (_ & _ & (e & _ & Hc)%tx_bind_ok). tx_inv Hc.
      by eapply insert_task_quiet, integrity_as_value_error_ok.
Qed.
End quiet.

Section operations.
Context `{JsonText, TextLib}.

Lemma stage_known db id e : ledger_ok db → td_episodes db !! id = Some e →
  lifecycle_is_coherent e = true ∧ ∃ s, stage_of db id = Some s ∧ stage_spec s e (td_wrapups db !! id) ∧ stage_ending s ≠ Some EndStopped.
Proof.
  intros Hok He. destruct (lg_episode _ Hok _ _ He) as (_ & Hc & s & Hs). split; [done|]. exists s. split; [done|].
  pose proof (stage_of_spec _ _ _ _ He Hs) as Hspec. split; [done|by eapply coherent_stage_ending].
Qed.

Lemma request_stop_moves db id now db' :
  ledger_ok db → tasks_evolve db db' → request_episode_stop db id now = Commit db' → ledger_moves db db'.
Proof.
  intros Hok Hev. unfold request_episode_stop. intros (e & [He _]%load_episode_ok & Hr)%tx_bind_ok.
  tx_if Hr; [injection Hr as <-; by apply ledger_moves_refl|]. tx_inv Hr.
  destruct (is_some (epi_stop_requested_at e)) eqn:Hstop; injection Hr as <-; [by apply ledger_moves_refl|].
  destruct (stage_known _ _ _ Hok He) as (_ & s & Hs & Hspec & _). apply is_some_None in Hcheck0. apply is_some_false in Hstop.
  assert (s = StageOpen) as ->.
  { pose proof (stage_not_ended _ _ _ _ Hspec Hcheck eq_refl) as Hend. destruct s as [| | |x|x|x o]; try done.
    - destruct Hspec as (_ & _ & _ & [? Hx] & _). congruence.
    - destruct Hspec as (_ & _ & _ & _ & Hst). rewrite Hst in Hcheck. done.
    - destruct Hspec as (v & Hv & _). congruence. }
  destruct Hspec as (Hw & Hws & Hend & _ & _).
  eapply (ledger_quiet db _ id _ e StageOpen StageStopping (td_wrapups db)); try done.
  apply rtc_once. constructor.
Qed.

Lemma fence_moves db id x d now db' :
  ledger_ok db → tasks_evolve db db' → fence_episode_ending db id x d now = Commit db' → ledger_moves db db'.
Proof.
  intros Hok Hev. unfold fence_episode_ending. intros Hf. tx_inv Hf. apply tx_bind_ok in Hf as (e & [He _]%load_episode_ok & Hf).
  destruct (epi_ending e) eqn:Hend; tx_inv Hf; injection Hf as <-; [by apply ledger_moves_refl|].
  destruct (stage_known _ _ _ Hok He) as (_ & s & Hs & Hspec & _).
  pose proof (stage_admits _ _ _ Hspec Hcheck1) as ->. destruct Hspec as (Hw & Hws & _ & Hstop & _).
  eapply (ledger_quiet db _ id _ e StageOpen (StageFenced x) (td_wrapups db)); try done.
  - apply rtc_once. constructor.
  - cbn. intros [= ->]. by rewrite bool_decide_eq_true_2 in Hcheck.
Qed.
(** ** Creation *)

Lemma no_live_owner db e : _live_episode_row db e = None →
  ∀ j f, td_episodes db !! j = Some f → is_live f = true → same_owner f e = false.
Proof.
  unfold _live_episode_row. intros Hh%head_None j f Hf Hl. unfold episodes_where in Hh. rewrite bfilter_nil in Hh.
  specialize (Hh f). rewrite Hl, andb_true_r in Hh. apply Hh. apply list_elem_of_fmap. exists (j, f). split; [done|].
  by apply elem_of_map_to_list.
Qed.

Lemma owner_sym a b : same_owner a b = true → same_owner b a = true.
Proof. unfold same_owner, str_eqb. rewrite !andb_true_iff, !orb_true_iff, !bool_decide_eq_true. intuition congruence. Qed.

Lemma insert_episode_ok db e db' : _insert_episode db e = Commit db' →
  td_episodes db !! epi_episode_id e = None ∧ db' = db <| td_episodes ::= <[epi_episode_id e := e]> |> ∧
  (is_live e = true → ∀ j f, td_episodes db !! j = Some f → is_live f = true → same_owner f e = false).
Proof.
  unfold _insert_episode. intros Hi. tx_inv Hi. injection Hi as <-. rewrite !andb_true_iff in Hcheck.
  destruct Hcheck as ((((((Hn & Hl) & _) & _) & _) & _) & _). split; [by apply is_some_None|]. split; [done|].
  intros Hlive. rewrite Hlive in Hl. apply no_live_owner. by apply is_some_None.
Qed.

Lemma insert_moves db db' e added s :
  ledger_ok db → tasks_evolve db db' → td_episodes db !! epi_episode_id e = None →
  episode_tables db' = (<[epi_episode_id e := e]> (td_episodes db), td_invocations db ++ added, td_wrapups db, td_attempts db, td_reports db) →
  lifecycle_is_coherent e = true → life_stage e None = Some s →
  (is_live e = true → ∀ j f, td_episodes db !! j = Some f → is_live f = true → same_owner f e = false) →
  invocations_move db db' (epi_episode_id e) 0 (epi_invocations_used e) added → ledger_moves db db'.
Proof.
  intros Hok Hev Hn [= He Hi Hw Ha Hr] Hc Hs Hl Him. by eapply ledger_insert.
Qed.

Lemma new_episode e : lifecycle_is_coherent e && _validate_new_episode e = true →
  lifecycle_is_coherent e = true ∧ epi_status e = EpQueued ∧ epi_wrapup_state e = WrapNotStarted ∧ epi_ending e = None ∧
  epi_stop_requested_at e = None ∧ epi_invocations_used e = 0%Z ∧ epi_report_attempts_used e = 0%Z.
Proof.
  intros [Hc Hv]%andb_prop. unfold _validate_new_episode in Hv. rewrite !andb_true_iff in Hv.
  destruct Hv as ((((((((((_ & _) & Hs) & _) & Hu) & He) & Hw) & Ha) & Hst) & _) & _).
  apply bool_decide_eq_true in Hs, Hw. apply is_some_None in He, Hst. apply Z.eqb_eq in Hu, Ha. done.
Qed.

Lemma create_episode_moves db e db' :
  ledger_ok db → tasks_evolve db db' → create_episode db e = Commit db' → ledger_moves db db'.
Proof.
  intros Hok Hev. unfold create_episode. intros Hc. tx_inv Hc. apply tx_bind_ok in Hc as (_ & _ & Hc). tx_inv Hc.
  apply integrity_as_value_error_ok, insert_episode_ok in Hc as (Hn & -> & Hl).
  destruct (new_episode _ Hcheck) as (Hco & Hs & Hw & He & Hst & Hu & _).
  eapply (insert_moves db _ e [] StageOpen); try done.
  - by rewrite app_nil_r.
  - apply stage_complete. cbn. rewrite Hs. split_and!; try done. by left.
  - rewrite Hu. split; rewrite ?app_nil_r; try done; [by apply lg_operations|]. intros i Hi. by apply not_elem_of_nil in Hi.
Qed.

Lemma coherent_ceiling e : lifecycle_is_coherent e = true → (0 ≤ 1 ≤ epi_invocation_ceiling e)%Z.
Proof. unfold lifecycle_is_coherent. rewrite !andb_true_iff, !Z.leb_le. lia. Qed.

Lemma insert_invocation_ok db i db' : insert_invocation db i = Commit db' →
  db' = db <| td_invocations ::= (.++ [i]) |> ∧ inv_operation_id i ∉ inv_operation_id <$> td_invocations db.
Proof.
  unfold insert_invocation. intros Hi. tx_inv Hi. injection Hi as <-. split; [done|]. apply andb_prop in Hcheck as [Hf _].
  rewrite forallb_forall in Hf. intros (j & Hj & Hin)%list_elem_of_fmap. apply list_elem_of_In, Hf in Hin.
  unfold str_eqb in Hin. by rewrite Hj, bool_decide_eq_true_2 in Hin.
Qed.

(** The task of an invocation, once inserted. *)
Lemma invoked_task db t cause db' id :
  negb (bool_decide (task_kind t = TaskEpisodeReport)) = true → task_visible t = true → task_episode_id t = Some id →
  _insert_agent_task db t cause = Commit db' →
  ∃ t', td_tasks db' !! task_operation_id t = Some t' ∧ task_episode_id t' = Some id ∧ task_visible t' = true ∧ is_report t' = false.
Proof.
  intros Hk Hv He (t' & db1 & _ & [Hi _]%bind_chat_stage_identity & _ & _ & [_ ->]%insert_row_ok & [[= Ht _] _])%insert_task_ok.
  destruct (identity_columns _ _ Hi) as (Ho & Hr & Hvis). exists t'. rewrite Ht. cbn. rewrite <- Ho, lookup_insert_eq.
  split; [done|]. rewrite Hr, Hvis. unfold task_identity in Hi. injection Hi as _ _ _ _ _ _ _ -> _ _ _ _.
  split; [done|]. split; [done|]. by apply negb_true_iff.
Qed.

(** Spending an invocation with the task just inserted. *)
Lemma spent db db0 db1 db2 db' id t cause used created :
  ledger_ok db → (0 ≤ used)%Z →
  negb (bool_decide (task_kind t = TaskEpisodeReport)) = true → task_visible t = true → task_episode_id t = Some id →
  _insert_agent_task db0 t cause = Commit db1 →
  insert_invocation db1 {| inv_episode_id := id; inv_operation_id := task_operation_id t; inv_number := used + 1;
                           inv_created_at := created |} = Commit db2 →
  td_invocations db0 = td_invocations db → td_tasks db' = td_tasks db1 → td_invocations db' = td_invocations db2 →
  ∃ i, invocations_move db db' id used (used + 1) [i].
Proof.
  intros Hok Hu Hk Hv He Hins [-> Hfresh]%insert_invocation_ok Hsame Ht Hi.
  pose proof (insert_task_quiet _ _ _ _ Hins) as [= _ Hinv _ _ _]. rewrite Hinv, Hsame in Hfresh. cbn in Hi. rewrite Hinv, Hsame in Hi.
  eexists. split; [exact Hi|lia| | |].
  - replace (used + 1 - used)%Z with 1%Z by lia. cbn. by rewrite Z.add_comm.
  - rewrite fmap_app. apply NoDup_app. split; [by apply lg_operations|]. split; [|apply NoDup_singleton].
    intros x Hx ->%list_elem_of_singleton. done.
  - intros i ->%list_elem_of_singleton. split; [done|]. cbn. rewrite Ht. by eapply invoked_task.
Qed.

Lemma create_with_invocation_moves db e root db' :
  ledger_ok db → tasks_evolve db db' → create_episode_with_invocation db e root = Commit db' → ledger_moves db db'.
Proof.
  intros Hok Hev. unfold create_episode_with_invocation. intros Hc. tx_inv Hc. destruct (td_episodes db !! _) as [row|] eqn:Hrow.
  - apply tx_bind_ok in Hc as (stored & _ & Hc). tx_inv Hc. injection Hc as <-. by apply ledger_moves_refl.
  - apply tx_bind_ok in Hc as (_ & _ & Hc). tx_inv Hc.
    apply tx_bind_ok in Hc as (db1 & (Hn & -> & Hl)%insert_episode_ok & (db2 & H2 & H3)%tx_bind_ok).
    destruct (new_episode _ Hcheck) as (Hco & Hs & Hw & He & Hst & Hu & Hau).
    rewrite !andb_true_iff in Hcheck1. destruct Hcheck1 as ((((((Hep & _) & _) & Hk) & _) & Hvis) & _).
    apply bool_decide_eq_true in Hep.
    destruct (spent db _ _ _ db' _ _ _ 0 _ Hok ltac:(done) Hk Hvis Hep H2 H3) as [i Him]; [done| |done|].
    { by apply insert_invocation_ok in H3 as [-> _]. }
    apply insert_invocation_ok in H3 as [-> _]. pose proof (insert_task_quiet _ _ _ _ H2) as Htab.
    pose proof (im_rows _ _ _ _ _ _ Him) as Hrows.
    assert (Hstage : stage_spec StageOpen (started_episode e root) None).
    { cbn. rewrite Hw, He, Hst. split_and!; try done. right. by left. }
    eapply (insert_moves db _ (started_episode e root) [i] StageOpen); try done.
    + injection Htab as T1 T2 T3 T4 T5. unfold episode_tables. rewrite Hrows. cbn. by rewrite T1, T3, T4, T5.
    + eapply (coherent_row StageOpen e); try done; cbn; [|lia]. by apply coherent_ceiling in Hco.
    + by apply stage_complete.
Qed.

Lemma same_moves db db1 db' :
  quiet db1 db' → ledger_moves db db1 → tasks_evolve db1 db' → ledger_moves db db'.
Proof. intros Hq Hm Hev. eapply ledger_moves_trans; [exact Hm|]. apply ledger_frame; [done|exact Hq|apply Hm]. Qed.

Lemma find_none_forall {A} (P : A → bool) l : find P l = None → ∀ x, x ∈ l → P x = false.
Proof. intros Hf x Hx%list_elem_of_In. by eapply find_none. Qed.

Lemma allocate_invocation_moves db id t cause now db' :
  ledger_ok db → tasks_evolve db db' → allocate_episode_invocation db id t cause now = Commit db' → ledger_moves db db'.
Proof.
  intros Hok Hev. unfold allocate_episode_invocation. intros Ha. tx_inv Ha. destruct (find _ _) as [existing|].
  - tx_inv Ha. injection Ha as <-. by apply ledger_moves_refl.
  - apply tx_bind_ok in Ha as (e & [He _]%load_episode_ok & Ha). tx_inv Ha.
    apply tx_bind_ok in Ha as (db1 & H1 & (db2 & H2 & [= <-])%tx_bind_ok).
    apply andb_prop in Hcheck as [Hk Hvis]. apply bool_decide_eq_true in Hcheck0. apply Z.ltb_lt in Hcheck3.
    destruct (stage_known _ _ _ Hok He) as (Hc & s & Hs & Hspec & _). pose proof (stage_admits _ _ _ Hspec Hcheck2) as ->.
    apply coherent_bounds in Hc as [Hu Hau].
    pose proof (insert_task_quiet _ _ _ _ H1) as [= T1 T2 T3 T4 T5]. pose proof (insert_invocation_ok _ _ _ H2) as [Hdb2 _].
    set (row := λ e, _) in Hev |- *. set (db' := update_episode row id db2) in *.
    destruct (spent db db db1 db2 db' id t _ _ _ Hok (proj1 Hu) Hk Hvis Hcheck0 H1 H2) as [i Him]; [done|by unfold db'; rewrite Hdb2|done|].
    eapply (ledger_step db db' id "" [i] e (row e) StageOpen StageOpen); try done; unfold db', update_episode; rewrite ?Hdb2; cbn.
    + rewrite T1. by apply alter_insert_eq.
    + by rewrite T3.
    + rewrite T3. destruct Hspec as (? & ? & ? & ? & _). split_and!; try done. right. by left.
    + unfold RecordSettersUsingExistingGetters.const. lia.
    + lia.
    + by eapply attempts_same.
    + intros j r. rewrite T5. by left.
    + intros j r. by rewrite T5.
Qed.

(** ** Endings *)

(** Where an episode without a wrap-up may end. *)
Lemma stage_may_end e s :
  stage_spec s e None → among (epi_status e) [EpQueued; EpRunning; EpWrappingUp] = true →
  (s = StageOpen ∧ epi_ending e = None) ∨ ∃ x, s = StageFenced x ∧ epi_ending e = Some x.
Proof.
  intros Hs Hin. pose proof (stage_not_ended _ _ _ _ Hs Hin eq_refl) as Hend. unfold among in Hin. apply bool_decide_eq_true in Hin.
  destruct s as [| | |x|x|x o]; try done.
  - left. by destruct Hs as (_ & _ & ? & _).
  - destruct Hs as (_ & _ & _ & _ & Hst). rewrite Hst in Hin. by apply (bool_decide_pack _) in Hin.
  - right. exists x. by destruct Hs as (_ & _ & ? & _).
  - by destruct Hs as (v & ? & _).
Qed.

Lemma insert_wrapup_ok db w db' : _insert_episode_wrapup db w = Commit db' →
  db' = db <| td_wrapups ::= <[wf_episode_id (wrap_fence w) := w]> |> ∧ td_wrapups db !! wf_episode_id (wrap_fence w) = None.
Proof.
  unfold _insert_episode_wrapup. intros Hi. tx_inv Hi. injection Hi as <-. split; [done|].
  apply andb_prop in Hcheck as [Hn _]. by apply is_some_None.
Qed.

Lemma begin_wrapup_moves db id w t now db' :
  ledger_ok db → tasks_evolve db db' → begin_episode_wrapup db id w t now = Commit db' → ledger_moves db db'.
Proof.
  intros Hok Hev. unfold begin_episode_wrapup. intros Hb. tx_inv Hb. apply andb_prop in Hcheck as [Hco Hv].
  destruct (new_wrapup_allocation _ _ _ Hv) as (_ & _ & _ & Hst & Hid & Hns & _).
  apply tx_bind_ok in Hb as (e & [He _]%load_episode_ok & Hb). tx_inv Hb. destruct (td_wrapups db !! id) as [row|] eqn:Hw.
  - apply tx_bind_ok in Hb as (stored & _ & Hb). tx_inv Hb. injection Hb as <-. by apply ledger_moves_refl.
  - tx_inv Hb. apply tx_bind_ok in Hb as (db1 & H1 & (db2 & [-> _]%insert_wrapup_ok & [= <-])%tx_bind_ok).
    pose proof (insert_task_quiet _ _ _ _ H1) as [= T1 T2 T3 T4 T5].
    destruct (stage_known _ _ _ Hok He) as (_ & s & Hs & Hspec & _). rewrite Hw in Hspec.
    assert (∃ x, wrap_ending w = Some x) as [x Hx].
    { unfold restart_fence_is_coherent in Hco. rewrite !andb_true_iff, orb_true_iff in Hco. rewrite Hst in Hco.
      unfold wrap_ending. destruct (wf_ending (wrap_fence w)); [by eexists|]. naive_solver. }
    eapply (ledger_quiet db _ id _ e s (StageReporting x) (<[id := w]> (td_wrapups db))); try done.
    + unfold episode_tables. cbn. by rewrite T1, T2, T3, T4, T5, Hid.
    + intros j Hj. by rewrite lookup_insert_ne.
    + rewrite lookup_insert_eq. exists w. split_and!; try done; [by left|by rewrite Hst; left].
    + destruct (stage_may_end _ _ Hspec Hcheck) as [[-> _]|(y & -> & Hy)]; apply rtc_once; [constructor|].
      rewrite Hy, Hx in Hcheck1. apply andb_prop in Hcheck1 as [[= ->]%bool_decide_eq_true _]. constructor.
    + cbn. congruence.
    + done.
    + done.
    + done.
    + intros y ->. by destruct Hspec as (v & ? & _).
Qed.

Lemma evolve_same db db' : td_tasks db' = td_tasks db → tasks_evolve db db'.
Proof. intros Ht id t. rewrite Ht. by exists t. Qed.

Lemma terminalize_moves db db1 id status ending diagnostic now db' :
  _terminalize_child_experiment db1 id status ending diagnostic now = Commit db' →
  tasks_evolve db db1 → (tasks_evolve db db1 → ledger_moves db db1) → ledger_moves db db'.
Proof.
  intros Ht Hev Hm. pose proof (terminalize_frame _ _ _ _ _ _ _ Ht) as Hs.
  eapply same_moves; [by apply same_quiet|by apply Hm|by apply same_evolve].
Qed.

Lemma end_without_report_moves db id x d now db' :
  ledger_ok db → end_episode_without_report db id x d now = Commit db' → ledger_moves db db'.
Proof.
  intros Hok. unfold end_episode_without_report. intros He. tx_inv He. apply tx_bind_ok in He as (e & [Hid _]%load_episode_ok & He).
  tx_inv He. case_bool_decide; [injection He as <-; by apply ledger_moves_refl|]. tx_inv He.
  eapply terminalize_moves; [exact He|by apply evolve_same|]. intros Hev. apply negb_true_iff, orb_false_iff in Hcheck2 as [Hstop _]. apply is_some_false in Hstop.
  destruct (stage_known _ _ _ Hok Hid) as (_ & s & Hs & Hspec & _). apply is_some_None in Hcheck0. rewrite Hcheck0 in Hspec.
  apply negb_true_iff, bool_decide_eq_false in Hcheck.
  eapply (ledger_quiet db _ id _ e s (StageClosed x NoReport) (td_wrapups db)); try done.
  - rewrite Hcheck0. cbn. split_and!; try done. by destruct (epi_ended_at e); eexists.
  - destruct (stage_may_end _ _ Hspec Hcheck3) as [[-> _]|(y & -> & Hy)]; apply rtc_once; [by constructor|].
    rewrite Hy in Hcheck1. apply andb_prop in Hcheck1 as [->%bool_decide_eq_true _]. by constructor.
  - by intros [= ->].
  - intros y ->. by destruct Hspec as (v & ? & _).
Qed.

Lemma wrapup_unlaunchable_moves db id w d now db' :
  ledger_ok db → (∀ e x, td_episodes db !! id = Some e → epi_ending e = Some x → wrap_ending w = Some x) →
  fail_episode_wrapup_unlaunchable db id w d now = Commit db' → ledger_moves db db'.
Proof.
  intros Hok Hagree. unfold fail_episode_wrapup_unlaunchable. intros Hf. tx_inv Hf. apply tx_bind_ok in Hf as (e & [He _]%load_episode_ok & Hf).
  destruct (td_wrapups db !! id) eqn:Hw.
  - apply tx_bind_ok in Hf as (stored & _ & Hf). tx_inv Hf. injection Hf as <-. by apply ledger_moves_refl.
  - tx_inv Hf. apply tx_bind_ok in Hf as (db1 & [-> _]%insert_wrapup_ok & (x & Hx%found_ok & Hf)%tx_bind_ok).
    eapply terminalize_moves; [exact Hf|by apply evolve_same|]. intros Hev. rewrite !andb_true_iff in Hcheck.
    destruct Hcheck as (((((((_ & Hid) & _) & Hns) & Hst) & _) & _) & _).
    apply bool_decide_eq_true in Hid, Hst. apply negb_true_iff, bool_decide_eq_false in Hns. rewrite Hx in Hns.
    destruct (stage_known _ _ _ Hok He) as (_ & s & Hs & Hspec & _). rewrite Hw in Hspec.
    eapply (ledger_quiet db _ id _ e s (StageClosed x ReportFailed) (<[id := w]> (td_wrapups db))); try done.
    + unfold episode_tables. cbn. by rewrite Hid.
    + intros j Hj. by rewrite lookup_insert_ne.
    + rewrite lookup_insert_eq. exists w. cbn. split_and!; try done. by destruct (epi_ended_at e); eexists.
    + destruct (stage_may_end _ _ Hspec Hcheck0) as [[-> _]|(y & -> & Hy)]; apply rtc_once; [by constructor|].
      pose proof (Hagree _ _ He Hy) as Hxy. unfold wrap_ending in Hxy. rewrite Hx in Hxy. injection Hxy as ->. by constructor.
    + done.
    + done.
    + done.
    + intros y ->. by destruct Hspec as (v & ? & _).
Qed.

Lemma stopped_wrapup db id receipt d now : let w := skipped_wrapup db id receipt d now in
  wf_episode_id (wrap_fence w) = id ∧ wrap_state w = WrapSkipped ∧ wrap_ending w = Some EndStopped.
Proof. unfold skipped_wrapup. by destruct (compact_episode_receipt receipt). Qed.

Lemma stopped_spec e d now w : wrap_state w = WrapSkipped → wrap_ending w = Some EndStopped →
  stage_spec StageStopped (stop_episode d now e) (Some w).
Proof. intros Hs He. exists w. split_and!; try done. cbn. by destruct (epi_ended_at e); eexists. Qed.

Lemma stop_skipped_moves db id d now db' :
  ledger_ok db → mark_episode_stop_skipped db id d now = Commit db' → ledger_moves db db'.
Proof.
  intros Hok. unfold mark_episode_stop_skipped. intros (e & [He _]%load_episode_ok & Hm)%tx_bind_ok.
  tx_if Hm; [injection Hm as <-; by apply ledger_moves_refl|]. tx_inv Hm.
  apply tx_bind_ok in Hm as (db1 & [-> _]%insert_wrapup_ok & Hm). eapply terminalize_moves; [exact Hm|by apply evolve_same|]. intros Hev.
  destruct (stage_known _ _ _ Hok He) as (_ & s & Hs & Hspec & _). apply is_some_None in Hcheck. rewrite Hcheck in Hspec.
  pose proof (stage_not_ended _ _ _ _ Hspec Hcheck0 eq_refl) as Hend. set (w := skipped_wrapup _ _ _ _ _) in Hev |- *.
  destruct (stopped_wrapup db id [("diagnostic", py_opt_str d); ("ending", PStr "stopped"); ("episode_id", PStr id)] d now) as (Hid & Hws & Hwe).
  fold w in Hid, Hws, Hwe. unfold among in Hcheck0. apply bool_decide_eq_true in Hcheck0.
  eapply (ledger_quiet db _ id (stop_episode d now) e s StageStopped (<[id := w]> (td_wrapups db))); try done.
  - intros j Hj. by rewrite lookup_insert_ne.
  - rewrite lookup_insert_eq. by apply stopped_spec.
  - destruct s as [| | |x|x|x o]; try done; try (apply rtc_once; constructor).
  - intros y ->. by destruct Hspec as (v & ? & _).
Qed.
End operations.
