(* ===== verification/LedgerLaws.v ===== *)
(** The report of an episode and its restore, on the ledger; then every operation
    of the store as one refinement of the life of an episode. *)

From S2P Require Export EpisodeLaws.

(** ** The open attempt *)

Lemma elem_of_attempts_where P db a : a ∈ attempts_where P db ↔ P a = true ∧ ∃ k, td_attempts db !! k = Some a.
Proof.
  unfold attempts_where. rewrite elem_of_bfilter. apply and_iff_compat_l. rewrite list_elem_of_fmap. split.
  - intros ([k b] & -> & Hk%elem_of_map_to_list). by exists k.
  - intros [k Hk]. exists (k, a). split; [done|]. by apply elem_of_map_to_list.
Qed.

Lemma fold_best_elem {A} (better : A → A → bool) l best :
  let r := fold_left (λ best a, match best with Some b => if better a b then Some b else Some a | None => Some a end) l best in
  (r = best ∨ ∃ a, a ∈ l ∧ r = Some a) ∧ (r = None → best = None ∧ l = []).
Proof.
  revert best. induction l as [|x l IH]; intros best; [by split; [left|]|]. cbn.
  set (best' := match best with Some b => if better x b then Some b else Some x | None => Some x end).
  assert (Hb : (best' = best ∨ best' = Some x) ∧ best' ≠ None).
  { unfold best'. destruct best as [b|]; [|split; [by right|done]]. destruct (better x b); (split; [|done]); [by left|by right]. }
  destruct Hb as [Hb Hn], (IH best') as [Hr Hnone]. cbn zeta in Hr, Hnone. split.
  - destruct Hr as [->|(a & Ha & ->)]; [destruct Hb as [->| ->]|]; [by left|right; exists x|right; exists a].
    + split; [by left|done].
    + split; [by right|done].
  - intros Hx. by destruct (Hnone Hx).
Qed.

Lemma current_attempt_Some db id a : current_attempt db id = Some a →
  ∃ k, td_attempts db !! k = Some a ∧ rat_episode_id a = id ∧ is_open a = true.
Proof.
  unfold current_attempt. intros Hc.
  destruct (fold_best_elem (λ a b, (rat_number a <? rat_number b)%Z)
    (attempts_where (λ a, str_eqb (rat_episode_id a) id && is_open a) db) None) as [Hr _]. cbn zeta in Hr. rewrite Hc in Hr.
  destruct Hr as [|(b & Hb & [= ->])]; [done|].
  apply elem_of_attempts_where in Hb as ([Hid%bool_decide_eq_true Ho]%andb_prop & k & Hk). by exists k.
Qed.

Lemma current_attempt_None db id : current_attempt db id = None →
  ∀ k a, td_attempts db !! k = Some a → rat_episode_id a = id → is_open a = false.
Proof.
  unfold current_attempt. intros Hc k a Hk Hid.
  destruct (fold_best_elem (λ a b, (rat_number a <? rat_number b)%Z)
    (attempts_where (λ a, str_eqb (rat_episode_id a) id && is_open a) db) None) as [_ Hn]. cbn zeta in Hn.
  destruct (Hn Hc) as [_ Hnil]. apply not_true_is_false. intros Ho.
  apply (not_elem_of_nil a). rewrite <- Hnil. apply elem_of_attempts_where. split; [|by exists k].
  rewrite Ho, andb_true_r. by apply bool_decide_eq_true.
Qed.

(** Once the open attempt of an episode is closed, it has none. *)
Lemma none_open db k f a :
  ledger_ok db → td_attempts db !! k = Some a → is_open a = true → is_open (f a) = false →
  ∀ l b, alter f k (td_attempts db) !! l = Some b → rat_episode_id b = rat_episode_id a → is_open b = false.
Proof.
  intros Hok Hk Ho Hf l b [(<- & c & Hc & ->)|[Hne Hl]]%lookup_alter_Some Hid; [by simplify_eq|].
  apply not_true_is_false. intros Hb. apply Hne. by eapply one_open.
Qed.

Section reports.
Context `{JsonText, TextLib}.

Lemma wrapup_record_ok w w' : _episode_wrapup_record w = Commit w' → w' = w.
Proof. unfold _episode_wrapup_record. intros Hw. tx_inv Hw. by injection Hw as <-. Qed.

(** The stage of an episode whose rows say that its report is awaited. *)
Lemma stage_reports e w s :
  stage_spec s e (Some w) → epi_status e = EpWrappingUp → ∃ x, s = StageReporting x ∧ epi_ending e = Some x.
Proof.
  intros Hs Hst. pose proof (stage_live _ _ _ Hs) as Hl. unfold is_live in Hl. rewrite Hst in Hl.
  destruct s as [| | |x|x|x o]; try done; try (by destruct Hs as (? & _)). exists x. by destruct Hs as (v & _ & _ & ? & _).
Qed.

Lemma allocate_attempt_moves db id attempt now db' :
  ledger_ok db → allocate_episode_report_attempt db id attempt now = Commit db' → ledger_moves db db'.
Proof.
  intros Hok. unfold allocate_episode_report_attempt.
  intros (e & [He _]%load_episode_ok & (row & Hrow%found_ok & (w & ->%wrapup_record_ok & Ha)%tx_bind_ok)%tx_bind_ok)%tx_bind_ok.
  tx_inv Ha. apply tx_bind_ok in Ha as (allocation & _ & Ha).
  destruct (current_attempt db id) eqn:Hcur; [injection Ha as <-; by apply ledger_moves_refl|]. cbn [is_some] in Ha. tx_inv Ha.
  apply tx_bind_ok in Ha as (db1 & H1 & [= <-]). unfold insert_attempt in H1. tx_inv H1. injection H1 as <-.
  rewrite !andb_true_iff in Hcheck. rewrite !andb_true_iff in Hcheck1.
  destruct Hcheck as [[Hst _] _], Hcheck1 as [[[Hnew _] _] _]. apply bool_decide_eq_true in Hst. apply is_some_None in Hnew.
  apply Z.ltb_lt in Hcheck0. cbn in Hnew. unfold _REPORT_ATTEMPT_LIMIT in Hcheck0.
  destruct (stage_known _ _ _ Hok He) as (Hc & s & Hs & Hspec & Hne). rewrite Hrow in Hspec.
  destruct (stage_reports _ _ _ Hspec Hst) as (x & -> & Hx). pose proof (coherent_bounds _ Hc) as [Hb1 Hb2].
  set (f := λ e : EpisodeRecord, _). set (g := λ w : EpisodeWrapupRecord, _). set (a := Build_EpisodeReportAttemptRecord _ _ _ _ _ _ _ _ _).
  eapply (ledger_step db _ id attempt [] e (f e) (StageReporting x) (StageReporting x)); try done.
  - by apply evolve_same.
  - cbn. by apply alter_insert_eq.
  - intros j Hj. cbn. by rewrite lookup_alter_ne.
  - cbn [td_wrapups update_wrapup update_episode set]. unfold update_wrapup. cbn. rewrite lookup_alter_eq, Hrow. cbn.
    destruct Hspec as (v & [= <-] & _ & _ & _ & _ & Hv). exists (g row). split_and!; try done; right; by left.
  - by eapply invocations_same.
  - cbn. lia.
  - cbn. unfold RecordSettersUsingExistingGetters.const. lia.
  - split; cbn.
    + intros k b [[<- <-]|[Hk Hb]]%lookup_insert_Some.
      * split; [done|]. right. cbn. unfold RecordSettersUsingExistingGetters.const. split_and!; try done; lia.
      * split; [by apply (lg_attempt _ Hok)|]. left. by exists b.
    + intros k b [[<- <-]|[Hk Hb]]%lookup_insert_Some Hid Ho; [split; [done|by exists x]|].
      exfalso. by rewrite (current_attempt_None _ _ Hcur k b) in Ho.
  - intros j r. by left.
Qed.

Lemma attempt_running_moves db id now db' :
  ledger_ok db → tasks_evolve db db' → mark_episode_report_attempt_running db id now = Commit db' → ledger_moves db db'.
Proof.
  intros Hok Hev. unfold mark_episode_report_attempt_running. intros (a & Ha%found_ok & Hm)%tx_bind_ok. tx_inv Hm. injection Hm as <-.
  apply ledger_wide; try done. cbn. apply attempts_close_alter; [done|]. intros a' Ha'. by simplify_eq.
Qed.

(** What settles a report settles its rows. *)
Lemma settled_ending db id e x : ledger_ok db → td_episodes db !! id = Some e → stage_of db id = Some (StageReporting x) →
  epi_ending e = Some x ∧ x ≠ EndStopped.
Proof.
  intros Hok He Hs. destruct (stage_known _ _ _ Hok He) as (_ & s & Hs' & Hspec & Hne). simplify_eq.
  split; [by destruct Hspec as (v & _ & _ & ? & _)|]. intros ->. by apply Hne.
Qed.

Lemma close_failed_moves db db1 id e x error allocation finished now db' :
  ledger_ok db → td_episodes db !! id = Some e → stage_of db id = Some (StageReporting x) → tasks_evolve db db' →
  td_episodes db1 = td_episodes db → td_invocations db1 = td_invocations db → td_wrapups db1 = td_wrapups db →
  td_reports db1 = td_reports db → attempts_close (td_attempts db) (td_attempts db1) →
  (∀ k a, td_attempts db1 !! k = Some a → rat_episode_id a = id → is_open a = false) →
  close_failed_report db1 id x error allocation finished now = Commit db' → ledger_moves db db'.
Proof.
  intros Hok He Hs Hev E1 E2 E3 E4 Hclose Hnone Hc. unfold close_failed_report in Hc.
  apply terminalize_frame in Hc as (_ & [= T1 T2 T3 T4 T5] & _). destruct (settled_ending _ _ _ _ Hok He Hs) as [Hx Hns].
  eapply (report_step db db' id x e (settle_episode (_status_for_ending x) WrapFailed (Some error) now)
    (settle_wrapup WrapFailed (Some error) now) (StageClosed x ReportFailed)); try done.
  - by rewrite T1, E1.
  - by rewrite T2, E2.
  - by rewrite T3, E3.
  - by rewrite T4.
  - intros j r. rewrite T5, E4. by left.
  - intros j r. by rewrite T5, E4.
  - intros v Hv (v' & [= <-] & _ & _ & _ & _ & Hend). exists (settle_wrapup WrapFailed (Some error) now v).
    split_and!; try done. cbn. by destruct (epi_ended_at e); eexists.
  - apply rtc_once. by constructor.
  - cbn. congruence.
  - right. rewrite T4. exact Hnone.
Qed.

Lemma close_open a status error now : status ∈ [AttemptSucceeded; AttemptFailed] → is_open (finish_attempt status error now a) = false.
Proof. intros [->| ->%list_elem_of_singleton]%elem_of_cons; done. Qed.

(** The report goes back to its queue: its open attempts are closed, the others stay. *)
Lemma pending_moves db db' id e x m :
  ledger_ok db → td_episodes db !! id = Some e → stage_of db id = Some (StageReporting x) → tasks_evolve db db' →
  (∃ now g, (∀ w, wrap_state (g w) = WrapPending ∧ wrap_ending (g w) = wrap_ending w) ∧
   episode_tables db' = (alter (λ e, e <| epi_wrapup_state := WrapPending |> <| epi_wrapup_error := None |> <| epi_updated_at := now |>) id
     (td_episodes db), td_invocations db, alter g id (td_wrapups db), m, td_reports db)) →
  attempts_close (td_attempts db) m → ledger_moves db db'.
Proof.
  intros Hok He Hs Hev (now & g & Hg & [= T1 T2 T3 T4 T5]) Hclose. destruct (settled_ending _ _ _ _ Hok He Hs) as [Hx Hns].
  eapply (report_step db db' id x e _ _ (StageReporting x)); try done.
  - by rewrite T4.
  - intros j r. rewrite T5. by left.
  - intros j r. by rewrite T5.
  - intros v Hv (v' & [= <-] & _ & _ & Hst & _ & Hend). destruct (Hg v) as [G1 G2]. exists (g v). rewrite G1, G2.
    split_and!; try done; by left.
  - cbn. congruence.
  - by left.
Qed.

Lemma attempt_error_moves db k error final now db' :
  ledger_ok db → tasks_evolve db db' → (∀ a, td_attempts db !! k = Some a → is_open a = true) →
  _finish_episode_report_attempt_error db k error final now = Commit db' → ledger_moves db db'.
Proof.
  intros Hok Hev Hopen. unfold _finish_episode_report_attempt_error. intros Hf. tx_inv Hf.
  apply tx_bind_ok in Hf as (a & Ha%found_ok & Hf). tx_inv Hf. pose proof (Hopen _ Ha) as Ho.
  destruct (open_attempt _ _ _ Hok Ha Ho) as (e & x & He & Hs & _).
  rewrite decide_False in Hf by (intros Hst; unfold is_open in Ho; by rewrite Hst in Ho).
  set (f := finish_attempt AttemptFailed (Some error) now) in Hf.
  assert (Hclose : attempts_close (td_attempts db) (alter f k (td_attempts db))).
  { apply attempts_close_alter; [done|]. intros b Hb. by simplify_eq. }
  tx_if Hf.
  - apply tx_bind_ok in Hf as (e' & He'%found_ok & (ending & Hx%found_ok & Hf)%tx_bind_ok). cbn in He'. rewrite He in He'. injection He' as <-.
    destruct (settled_ending _ _ _ _ Hok He Hs) as [Hx' _]. rewrite Hx in Hx'. injection Hx' as ->.
    eapply (close_failed_moves db (update_attempt f k db)); try done. by apply none_open.
  - injection Hf as <-. eapply (pending_moves db _ _ e x); try done. eexists now, _. split; [|done]. done.
Qed.

Lemma report_ready_moves db k r now db' :
  ledger_ok db → tasks_evolve db db' → finish_episode_report_ready db k r now = Commit db' → ledger_moves db db'.
Proof.
  intros Hok Hev. unfold finish_episode_report_ready. intros Hf. tx_inv Hf.
  apply tx_bind_ok in Hf as (a & Ha%found_ok & (e & He%found_ok & (w0 & Hw%found_ok & (e0 & He0 & (w & ->%wrapup_record_ok & Hf)%tx_bind_ok)%tx_bind_ok)%tx_bind_ok)%tx_bind_ok).
  unfold _episode_record in He0. tx_inv He0. injection He0 as <-. tx_inv Hf. rewrite !andb_true_iff in Hcheck1.
  destruct Hcheck1 as ((((_ & Hid) & _) & _) & Hending). apply bool_decide_eq_true in Hid, Hending.
  destruct (lg_episode _ Hok _ _ He) as (Hkey & _). rewrite Hkey in Hid.
  destruct (td_reports db !! _) eqn:Hrep.
  - tx_inv Hf. injection Hf as <-. by apply ledger_moves_refl.
  - tx_inv Hf. apply tx_bind_ok in Hf as (db1 & H1 & Hf). unfold insert_report in H1. tx_inv H1. injection H1 as <-.
    destruct (open_attempt _ _ _ Hok Ha Hcheck1) as (e' & x & He' & Hs & _). rewrite He in He'. injection He' as <-.
    destruct (settled_ending _ _ _ _ Hok He Hs) as [Hx Hns]. rewrite Hending in Hx. injection Hx as Hrx.
    apply terminalize_frame in Hf as (_ & [= T1 T2 T3 T4 T5] & _). rewrite Hid in T5.
    eapply (report_step db db' (rat_episode_id a) x e (settle_episode (_status_for_ending x) WrapReady None now)
      (settle_wrapup WrapReady None now) (StageClosed x ReportReady)); try done.
    + by rewrite T1, Hrx.
    + rewrite T4. apply attempts_close_alter; [done|]. intros b Hb. by simplify_eq.
    + intros j s. rewrite T5. intros [[<- <-]|[_ Hj]]%lookup_insert_Some; [right|by left].
      split; [done|]. split; [done|]. by rewrite Hrx.
    + intros j s Hj. rewrite T5. rewrite lookup_insert_ne; [done|]. intros <-. congruence.
    + intros v Hv (v' & [= <-] & _ & _ & _ & _ & Hend). exists (settle_wrapup WrapReady None now v).
      split_and!; try done; cbn; [congruence|]. by destruct (epi_ended_at e); eexists.
    + apply rtc_once. by constructor.
    + cbn. congruence.
    + right. rewrite T4. by apply none_open.
Qed.

(** The wrap-up that awaits its report. *)
Lemma awaited db id e w :
  ledger_ok db → td_episodes db !! id = Some e → td_wrapups db !! id = Some w → epi_status e = EpWrappingUp →
  ∃ x, stage_of db id = Some (StageReporting x) ∧ epi_ending e = Some x.
Proof.
  intros Hok He Hw Hst. destruct (stage_known _ _ _ Hok He) as (_ & s & Hs & Hspec & _). rewrite Hw in Hspec.
  destruct (stage_reports _ _ _ Hspec Hst) as (x & -> & Hx). by exists x.
Qed.

Lemma requeue_moves db id now db' :
  ledger_ok db → tasks_evolve db db' → requeue_interrupted_episode_report_allocation db id now = Commit db' → ledger_moves db db'.
Proof.
  intros Hok Hev. unfold requeue_interrupted_episode_report_allocation. intros ([[e w] op] & Hrep & Hq)%tx_bind_ok.
  apply report_allocation_ok in Hrep as (He & _ & Hw & _). tx_inv Hq. apply andb_prop in Hcheck as [Hst%bool_decide_eq_true _].
  destruct (awaited _ _ _ _ Hok He Hw Hst) as (x & Hs & Hx). apply tx_bind_ok in Hq as (t & _ & Hq). tx_inv Hq.
  case_bool_decide; [injection Hq as <-; by apply ledger_moves_refl|]. tx_inv Hq. cbn zeta in Hq.
  set (diag := restart_diagnostic (task_status t)) in Hq. set (finish := finish_attempt AttemptFailed (Some diag) now) in Hq.
  set (fail := match current_attempt db id with Some a => update_attempt finish (rat_attempt_id a) db | None => db end) in Hq.
  assert (∃ m, fail = db <| td_attempts := m |> ∧ attempts_close (td_attempts db) m ∧
    (∀ k a, m !! k = Some a → rat_episode_id a = id → is_open a = false)) as (m & Hfail & Hclose & Hnone).
  { unfold fail. destruct (current_attempt db id) as [a|] eqn:Hcur.
    - destruct (current_attempt_Some _ _ _ Hcur) as (k & Hk & Hid & Ho).
      destruct (lg_attempt _ Hok _ _ Hk) as [-> _]. exists (alter finish k (td_attempts db)). split; [done|].
      split; [apply attempts_close_alter; [done|]; intros b Hb; by simplify_eq|]. rewrite <- Hid. by apply none_open.
    - exists (td_attempts db). split; [by destruct db|]. split; [done|]. by apply current_attempt_None. }
  clearbody fail. subst fail. tx_if Hq.
  - tx_inv Hq. apply tx_bind_ok in Hq as (ending & Hy%found_ok & Hq). rewrite Hx in Hy. injection Hy as <-.
    by eapply (close_failed_moves db (db <| td_attempts := m |>)).
  - injection Hq as <-.
    eapply (pending_moves db _ id e x (if bool_decide (rat_status <$> current_attempt db id = Some AttemptRunning) then m else td_attempts db)); try done.
    + eexists now, _. split; [|destruct (bool_decide (rat_status <$> current_attempt db id = Some AttemptRunning)); reflexivity]. done.
    + by destruct (bool_decide (rat_status <$> current_attempt db id = Some AttemptRunning)).
Qed.

Lemma allocation_unlaunchable_moves db id diagnostic now db' :
  ledger_ok db → tasks_evolve db db' → fail_episode_report_allocation_unlaunchable db id diagnostic now = Commit db' → ledger_moves db db'.
Proof.
  intros Hok Hev. unfold fail_episode_report_allocation_unlaunchable. intros Hf. tx_inv Hf.
  apply tx_bind_ok in Hf as ([[e w] op] & Hrep & Hf). apply report_allocation_ok in Hrep as (He & _ & Hw & _).
  apply tx_bind_ok in Hf as (t & _ & Hf). tx_inv Hf. tx_if Hf; [tx_inv Hf; injection Hf as <-; by apply ledger_moves_refl|].
  tx_inv Hf. rewrite !andb_true_iff in Hcheck2. destruct Hcheck2 as [[[Hst%bool_decide_eq_true _] _] _].
  destruct (awaited _ _ _ _ Hok He Hw Hst) as (x & Hs & Hx).
  apply tx_bind_ok in Hf as (ending & Hy%found_ok & Hf). rewrite Hx in Hy. injection Hy as <-.
  set (f := λ a : EpisodeReportAttemptRecord, _) in Hf.
  eapply (close_failed_moves db (db <| td_attempts ::= fmap f |>)); try done.
  - apply attempts_close_fmap. intros a. unfold f. by destruct (str_eqb (rat_episode_id a) id && bool_decide (rat_status a = AttemptQueued)).
  - intros k b Hk Hid. cbn in Hk. apply lookup_fmap_Some in Hk as (a & <- & Ha). unfold f in *.
    destruct (str_eqb (rat_episode_id a) id && bool_decide (rat_status a = AttemptQueued)) eqn:Hq; [done|].
    rewrite !andb_true_iff in Hcheck1. destruct Hcheck1 as [_ Hzero]. apply Nat.eqb_eq, nil_length_inv in Hzero.
    apply not_true_is_false. intros Ho. unfold is_open, among in Ho. apply bool_decide_eq_true in Ho.
    assert (str_eqb (rat_episode_id a) id = true) as Hs1 by by apply bool_decide_eq_true. rewrite Hs1 in Hq. cbn in Hq.
    apply bool_decide_eq_false in Hq. apply elem_of_cons in Ho as [|Ho%list_elem_of_singleton]; [done|].
    apply (not_elem_of_nil a). rewrite <- Hzero. apply elem_of_bfilter. unfold among. rewrite Ho. split; [done|].
    apply elem_of_attempts_where. split; [done|by exists k].
Qed.

(** ** Restore *)

Definition none_open_at_all (db : TaskDb) : Prop := ∀ k a, td_attempts db !! k = Some a → is_open a = false.

Lemma restore_reports_moves db diagnostic now db' :
  ledger_ok db → detach_episode_reports_for_restore db diagnostic now = Commit db' →
  ledger_moves db db' ∧ none_open_at_all db' ∧ td_tasks db' = td_tasks db.
Proof.
  intros Hok. unfold detach_episode_reports_for_restore. intros Hd. tx_inv Hd. injection Hd as <-. split; [|split; [|done]].
  - apply ledger_wide; try done.
    + by apply evolve_same.
    + intros id. cbn. rewrite lookup_fmap. destruct (td_wrapups db !! id) as [w|]; [|done]. cbn.
      by destruct (reporting (wrap_state w) && _).
    + apply attempts_close_fmap. intros a. destruct (is_open a) eqn:Ho; rewrite ?Ho; done.
  - intros k a' Hk. cbn in Hk. apply lookup_fmap_Some in Hk as (a & <- & _). by destruct (is_open a) eqn:Ho.
Qed.

(** The Stop of one episode, whose report nobody writes. *)
Lemma detach_experiment_moves detail now db id db' :
  ledger_ok db → none_open_at_all db →
  (∃ e, td_episodes db !! id = Some e ∧ (is_live e = true ∨ is_Some (td_wrapups db !! id))) →
  detach_experiment detail now db id = Commit db' →
  ledger_moves db db' ∧ none_open_at_all db' ∧ td_tasks db' = td_tasks db ∧ is_Some (td_wrapups db' !! id) ∧
  (∀ j, j ≠ id → td_episodes db' !! j = td_episodes db !! j ∧ td_wrapups db' !! j = td_wrapups db !! j) ∧
  is_Some (td_episodes db' !! id).
Proof.
  intros Hok Hnone (e & He & Hlive). unfold detach_experiment. set (w := skipped_wrapup _ _ _ _ _).
  destruct (stopped_wrapup db id [("diagnostic", PStr detail); ("ending", PStr "stopped"); ("episode_id", PStr id);
    ("reason", PStr "restore")] (Some detail) now) as (Hwid & Hws & Hwe). fold w in Hwid, Hws, Hwe. clearbody w.
  destruct (stage_known _ _ _ Hok He) as (Hc & s & Hs & Hspec & _). intros (db1 & H1 & [= <-])%tx_bind_ok.
  assert (∃ v, td_wrapups db1 = <[id := v]> (td_wrapups db) ∧ wrap_state v = WrapSkipped ∧ wrap_ending v = Some EndStopped ∧
    td_episodes db1 = td_episodes db ∧ td_invocations db1 = td_invocations db ∧ td_attempts db1 = td_attempts db ∧
    td_reports db1 = td_reports db ∧ td_tasks db1 = td_tasks db ∧ rtc stage_step s StageStopped)
    as (v & E3 & Hv1 & Hv2 & E1 & E2 & E4 & E5 & E6 & Hstep).
  { revert Hspec. destruct (td_wrapups db !! id) as [row|] eqn:Hrow; intros Hspec.
    - tx_inv H1. injection H1 as <-. eexists. split; [cbn; by apply alter_insert_eq|]. split_and!; try done.
      destruct s as [| | |x|x|x o]; try (by destruct Hspec as (? & _)); [apply rtc_once; constructor|].
      exfalso. destruct o; [by destruct Hspec as (? & _)|destruct Hspec as (u1 & [= <-] & Hu & _ & _ & _ & Hst & _)..];
        rewrite Hst, Hu in Hcheck; discriminate.
    - apply insert_wrapup_ok in H1 as [-> _]. exists w. rewrite Hwid. split_and!; try done.
      destruct Hlive as [Hlive|[? Hx]]; [|done]. rewrite (stage_live _ _ _ Hspec) in Hlive.
      destruct s as [| | |x|x|x o]; try done; apply rtc_once; constructor. }
  pose proof (coherent_bounds _ Hc) as [Hb1 Hb2]. split_and!; cbn; try congruence.
  - eapply (ledger_step db _ id "" [] e (stop_episode (Some detail) now e) s StageStopped); try done; cbn; try lia.
    + by apply evolve_same.
    + rewrite E1. by apply alter_insert_eq.
    + intros j Hj. by rewrite E3, lookup_insert_ne.
    + rewrite E3, lookup_insert_eq. by apply (stopped_spec e (Some detail) now).
    + by eapply invocations_same.
    + split; cbn; rewrite E4; intros k b Hk; [|by rewrite (Hnone k b Hk)].
      split; [by apply (lg_attempt _ Hok)|]. left. by exists b.
    + intros j r. rewrite E5. by left.
    + intros j r. by rewrite E5.
  - intros k b. cbn. rewrite E4. apply Hnone.
  - rewrite E3, lookup_insert_eq. by eexists.
  - intros j Hj. by rewrite E1, E3, lookup_alter_ne, lookup_insert_ne.
  - rewrite E1, lookup_alter_eq, He. by eexists.
Qed.

Lemma detach_fold_moves detail now l db db' :
  ledger_ok db → none_open_at_all db →
  (∀ id, id ∈ l → ∃ e, td_episodes db !! id = Some e ∧ (is_live e = true ∨ is_Some (td_wrapups db !! id))) →
  tx_fold (detach_experiment detail now) db l = Commit db' → ledger_moves db db' ∧ td_tasks db' = td_tasks db.
Proof.
  revert db. induction l as [|id l IH]; intros db Hok Hnone Hl; cbn.
  - intros [= <-]. split; [by apply ledger_moves_refl|done].
  - intros (db1 & H1 & H2)%tx_bind_ok.
    destruct (detach_experiment_moves _ _ _ _ _ Hok Hnone (Hl id ltac:(by left)) H1) as (Hm & Hn1 & Ht1 & Hw1 & Hother & [e1 He1]).
    destruct (IH db1 (proj1 Hm) Hn1) as [Hm' Ht']; [|done|].
    + intros j Hj. destruct (decide (j = id)) as [->|Hne]; [exists e1; by split; [|right]|].
      destruct (Hother j Hne) as [-> ->]. apply Hl. by right.
    + split; [by eapply ledger_moves_trans|congruence].
Qed.

Lemma restore_experiments_moves db diagnostic now db' :
  ledger_ok db → none_open_at_all db → detach_experiment_episodes_for_restore db diagnostic now = Commit db' →
  ledger_moves db db' ∧ td_tasks db' = td_tasks db.
Proof.
  intros Hok Hnone. unfold detach_experiment_episodes_for_restore. intros Hd. tx_inv Hd.
  set (db1 := set td_loops _ db) in Hd. set (ids := py_sorted _) in Hd.
  assert (Hm : ledger_moves db db1) by (apply ledger_frame; [by apply evolve_same|done|done]).
  destruct (detach_fold_moves (one_line diagnostic) now ids db1 db') as [Hm' Ht]; [apply Hm|exact Hnone| |exact Hd|].
  - intros id Hid. unfold ids in Hid. rewrite elem_of_py_sorted in Hid.
    apply list_elem_of_fmap in Hid as (e & -> & Hin%elem_of_bfilter). destruct Hin as [[_ Hlive]%andb_prop Hin].
    apply list_elem_of_fmap in Hin as ([k f] & -> & Hk%elem_of_map_to_list). cbn in *.
    destruct (lg_episode _ Hok _ _ Hk) as [-> _]. exists f. by split; [|left].
  - split; [exact (ledger_moves_trans _ _ _ Hm Hm')|done].
Qed.

Lemma restore_moves db diagnostic confirmed_by now db' :
  ledger_ok db → store_wf db → detach_restored_lifecycle db diagnostic confirmed_by now = Commit db' → ledger_moves db db'.
Proof.
  intros Hok Hwf. unfold detach_restored_lifecycle. intros Hd. tx_inv Hd.
  apply tx_bind_ok in Hd as (db1 & H1 & (db2 & H2 & H3)%tx_bind_ok).
  assert (Hm1 : ledger_moves db db1).
  { apply ledger_frame; [|by eapply restore_tasks_quiet|done]. by apply (proj1 (restore_keeps _ _ _ _ H1)). }
  destruct (restore_reports_moves _ _ _ _ (proj1 Hm1) H2) as (Hm2 & Hnone & _).
  destruct (restore_experiments_moves _ _ _ _ (proj1 Hm2) Hnone H3) as [Hm3 _].
  exact (ledger_moves_trans _ _ _ Hm1 (ledger_moves_trans _ _ _ Hm2 Hm3)).
Qed.

(** ** Every operation *)

(** The two operations that trust their caller: a failed attempt is reported while
    it is open, and a wrap-up that could not be launched names the ending that was
    fenced. *)
Definition disciplined (db : TaskDb) (op : StoreOp) : Prop :=
  match op with
  | OpAttemptError id _ _ => ∀ a, td_attempts db !! id = Some a → is_open a = true
  | OpWrapupUnlaunchable id w _ =>
      ∀ e x, td_episodes db !! id = Some e → epi_ending e = Some x → wrap_ending w = Some x
  | _ => True
  end.

Lemma run_op_moves db op now db' :
  store_wf db → ledger_ok db → disciplined db op → run_op db op now = Commit db' → ledger_moves db db'.
Proof.
  intros Hwf Hok Hd Hop. destruct (proj1 (run_op_advances _ _ _ _ Hop) Hwf) as [_ Hev].
  destruct (on_tasks op) eqn:Ht; [by apply ledger_frame; [|by eapply run_op_quiet|]|].
  destruct op; try done; cbn [run_op] in Hop.
  - by eapply create_episode_moves.
  - by eapply create_with_invocation_moves.
  - by eapply request_stop_moves.
  - by eapply fence_moves.
  - by eapply allocate_invocation_moves.
  - by eapply begin_wrapup_moves.
  - by eapply end_without_report_moves.
  - by eapply wrapup_unlaunchable_moves.
  - by eapply stop_skipped_moves.
  - by eapply allocate_attempt_moves.
  - by eapply attempt_running_moves.
  - by eapply attempt_error_moves.
  - by eapply report_ready_moves.
  - by eapply requeue_moves.
  - by eapply allocation_unlaunchable_moves.
  - by eapply restore_moves.
Qed.
End reports.
