(* ===== verification/Lifecycle.v ===== *)
(** What the ledger of episodes promises: the refinement of the life of an episode
    by every operation of the store, the bounds it keeps, and the report that
    closes after its last attempt. *)

From S2P Require Export LedgerLaws.

(** ** Runs *)

(** A run in which the two trusting operations get what they trust. *)
Fixpoint disciplined_run `{JsonText, TextLib} (db : TaskDb) (ops : list (StoreOp * Z)) : Prop :=
  match ops with
  | [] => True
  | op :: ops => disciplined db op.1 ∧ disciplined_run (step_op db op) ops
  end.

Lemma run_ops_moves `{JsonText, TextLib} db ops :
  store_wf db → ledger_ok db → disciplined_run db ops → ledger_moves db (run_ops db ops).
Proof.
  revert db. induction ops as [|[op now] ops IH]; intros db Hwf Hok; cbn; [by intros _; apply ledger_moves_refl|].
  intros [Hd Hrest]. assert (Hm : store_wf (step_op db (op, now)) ∧ ledger_moves db (step_op db (op, now))).
  { unfold step_op. cbn. destruct (run_op db op now) as [db1|] eqn:Hop; [|by split; [|apply ledger_moves_refl]].
    split; [by apply (proj1 (run_op_advances _ _ _ _ Hop))|by eapply run_op_moves]. }
  destruct Hm as [Hwf1 Hm]. eapply ledger_moves_trans; [exact Hm|]. by apply IH; [|apply Hm|].
Qed.

Definition fresh_ledger (db : TaskDb) : Prop :=
  fresh_store db ∧ td_episodes db = ∅ ∧ td_invocations db = [] ∧ td_reports db = ∅.

Lemma fresh_ledger_ok db : fresh_ledger db → ledger_ok db.
Proof.
  intros ((_ & _ & Hw & Ha & _ & _) & He & Hi & Hr). split; unfold invocations_of; rewrite ?He, ?Hi, ?Hw, ?Ha, ?Hr.
  - by intros id e ?%lookup_empty_Some.
  - by intros i j e f ?%lookup_empty_Some.
  - intros id [w ?%lookup_empty_Some]. done.
  - by intros k a ?%lookup_empty_Some.
  - by intros k l a b ?%lookup_empty_Some.
  - by intros id r ?%lookup_empty_Some.
  - by intros id e ?%lookup_empty_Some.
  - constructor.
  - intros i Hin. by apply not_elem_of_nil in Hin.
Qed.


(** ** Budgets *)

Lemma NoDup_bounded (l : list Z) (n : Z) : NoDup l → (∀ x, x ∈ l → (1 ≤ x ≤ n)%Z) → (Z.of_nat (length l) ≤ Z.max 0 n)%Z.
Proof.
  intros Hn Hb. assert (l ⊆+ seqZ 1 n) as Hs.
  { apply NoDup_submseteq; [done|]. intros x Hx%Hb. apply elem_of_seqZ. lia. }
  apply submseteq_length in Hs. rewrite length_seqZ in Hs. lia.
Qed.

Definition attempts_of (db : TaskDb) (id : string) : list EpisodeReportAttemptRecord :=
  attempts_where (λ a, str_eqb (rat_episode_id a) id) db.

Lemma attempts_numbered db id : ledger_ok db → NoDup (rat_number <$> attempts_of db id).
Proof.
  intros Hok. unfold attempts_of, attempts_where. pose proof (NoDup_map_to_list (td_attempts db)) as Hnd.
  assert (Hin : ∀ kb, kb ∈ map_to_list (td_attempts db) → td_attempts db !! kb.1 = Some kb.2).
  { intros [k b]. by rewrite elem_of_map_to_list. }
  revert Hin Hnd. generalize (map_to_list (td_attempts db)). induction l as [|[k b] l IH]; intros Hin Hnd; [constructor|].
  cbn. apply NoDup_cons in Hnd as [Hnot Hnd]. assert (Hrest : ∀ kb, kb ∈ l → td_attempts db !! kb.1 = Some kb.2).
  { intros kb Hkb. apply Hin. by right. }
  destruct (str_eqb (rat_episode_id b) id) eqn:Hid; [|by apply IH]. cbn. constructor; [|by apply IH].
  intros (c & Hn & Hc)%list_elem_of_fmap. apply elem_of_bfilter in Hc as [Hidc ([l' c'] & -> & Hc)%list_elem_of_fmap]. cbn in *.
  apply bool_decide_eq_true in Hid, Hidc. pose proof (Hin (k, b) ltac:(by left)) as Hkb. pose proof (Hrest (l', c') Hc) as Hlc. cbn in *.
  assert (k = l') as -> by (eapply (lg_number _ Hok); [done..| |done]; congruence). rewrite Hkb in Hlc. injection Hlc as ->. done.
Qed.


(** ** A report that keeps failing *)

(** A report that nobody is writing, after [used] attempts. *)
Record report_awaited `{JsonText, TextLib} (db : TaskDb) (id : string) (x : EpisodeEnding) (used : Z) : Prop := {
  ra_wf : store_wf db;
  ra_ok : ledger_ok db;
  ra_episode : ∃ e, td_episodes db !! id = Some e ∧ epi_report_attempts_used e = used;
  ra_wrapup : ∃ w, td_wrapups db !! id = Some w ∧ restart_fence_is_coherent w = true ∧ is_Some (wrap_allocation w);
  ra_stage : stage_of db id = Some (StageReporting x);
  ra_idle : current_attempt db id = None }.

Section failing.
Context `{JsonText, TextLib}.

(** An attempt that fails: when it was allocated, when it failed and with what. *)
Record FailedAttempt := { fa_attempt : string; fa_allocated_at : Z; fa_error : string; fa_failed_at : Z }.
Definition fail_round (id : string) (f : FailedAttempt) : list (StoreOp * Z) :=
  [(OpAttempt id (fa_attempt f), fa_allocated_at f); (OpAttemptError (fa_attempt f) (fa_error f) false, fa_failed_at f)].

(** The notice a routed child Experiment owes its parent when it ends. *)
Definition closing_notice (id : string) (x : EpisodeEnding) (f : FailedAttempt)
    (route : AutoResearchChildExperimentRecord) : AutoResearchLifecycleNoticeRecord :=
  {| not_episode_id := route_parent_episode_id route; not_source_kind := "experiment_episode"; not_source_id := id;
     not_source_event := ending_event x; not_source_attempt := 1;
     not_payload := [("episode_id", PStr id); ("status", PStr (episode_status_str (_status_for_ending x)));
                     ("ending", PStr (ending_str x))] ++
                    (if truthy_opt (Some (fa_error f)) then [("diagnostic", PStr (fa_error f))] else []);
     not_created_at := fa_failed_at f; not_delivered := None; not_acknowledged := None |}.

(** The parent of a routed child Experiment can be told: the route is running, the
    parent is an Auto-research episode, and its one notice fits. *)
Definition parent_hears (db : TaskDb) (id : string) (x : EpisodeEnding) (f : FailedAttempt) : Prop :=
  ∀ route, td_child_experiments db !! id = Some route →
    route_state route = RouteRunning ∧ route_parent_episode_id route ≠ id ∧
    (∃ e, _load_auto_research_episode db (route_parent_episode_id route) = Commit e) ∧
    find (same_source (closing_notice id x f route)) (td_notices db) = None ∧
    ∃ n, _bounded_auto_research_lifecycle_notice (closing_notice id x f route) = Commit n.
(** What the parent is told, and the end of the route. *)
Definition parent_told (db db' : TaskDb) (id : string) (x : EpisodeEnding) (f : FailedAttempt) : Prop :=
  ∀ route, td_child_experiments db !! id = Some route →
    (∃ n, _bounded_auto_research_lifecycle_notice (closing_notice id x f route) = Commit n ∧ n ∈ td_notices db') ∧
    route_state <$> td_child_experiments db' !! id = Some RouteTerminal.

Definition queued_attempt (id attempt allocation : string) (number now : Z) : EpisodeReportAttemptRecord :=
  {| rat_attempt_id := attempt; rat_episode_id := id; rat_number := number; rat_allocation_operation_id := allocation;
     rat_status := AttemptQueued; rat_error := None; rat_created_at := now; rat_updated_at := now; rat_finished_at := None |}.

Definition attempting (id attempt allocation : string) (number now : Z) (db : TaskDb) : TaskDb :=
  update_wrapup (λ w, w <| wrap_state := WrapRunning |> <| wrap_updated_at := now |>) id
    (update_episode (λ e, e <| epi_wrapup_state := WrapRunning |> <| epi_report_attempts_used := number |>
                            <| epi_updated_at := now |>) id
      (db <| td_attempts ::= <[attempt := queued_attempt id attempt allocation number now]> |>)).

Lemma attempt_is_allocated db id x used attempt now :
  report_awaited db id x used → (used < 3)%Z → td_attempts db !! attempt = None →
  ∃ allocation, allocate_episode_report_attempt db id attempt now = Commit (attempting id attempt allocation (used + 1) now db).
Proof.
  intros [Hwf Hok (e & He & Hu) (w & Hw & Hco & [al Hal]) Hs Hcur] Hlt Hnew. exists al.
  destruct (lg_episode _ Hok _ _ He) as (_ & Hc & _). pose proof (coherent_bounds _ Hc) as [_ Hb].
  pose proof (stage_of_spec _ _ _ _ He Hs) as (v & Hv & He1 & He2 & He3 & Hv1 & Hv2). rewrite Hw in Hv. injection Hv as <-.
  unfold allocate_episode_report_attempt, load_episode, _episode_record, _episode_wrapup_record.
  rewrite He. cbn. rewrite Hc. cbn. rewrite Hw. cbn. rewrite Hco. cbn.
  assert (bool_decide (epi_status e = EpWrappingUp) && reporting (epi_wrapup_state e) && reporting (wrap_state w) = true) as ->.
  { unfold reporting, among. by rewrite !andb_true_iff, !bool_decide_eq_true. }
  cbn. rewrite Hal. cbn. rewrite Hcur. cbn. rewrite Hu, (proj2 (Z.ltb_lt used _REPORT_ATTEMPT_LIMIT)) by done. cbn.
  unfold insert_attempt. cbn. rewrite Hnew. cbn.
  assert (attempts_where (λ b, str_eqb (rat_episode_id b) id && (rat_number b =? used + 1)%Z) db = []) as ->.
  { destruct (attempts_where _ db) as [|b l] eqn:Hl; [done|]. exfalso.
    assert (b ∈ b :: l) as Hb1 by by left. rewrite <- Hl in Hb1.
    apply elem_of_attempts_where in Hb1 as ([Hid%bool_decide_eq_true Hn%Z.eqb_eq]%andb_prop & k & Hk).
    destruct (lg_attempt _ Hok _ _ Hk) as (_ & e' & He' & Hbound & _). rewrite Hid, He in He'. injection He' as <-. lia. }
  cbn. rewrite (proj2 (Z.leb_le 1 (used + 1))), (proj2 (Z.leb_le (used + 1) 3)) by lia. done.
Qed.

Lemma attempt_fails db id x used attempt allocation error began now :
  report_awaited db id x used → is_blank error = false →
  let f := finish_attempt AttemptFailed (Some error) now in
  let db1 := attempting id attempt allocation (used + 1) began db in
  run_op db1 (OpAttemptError attempt error false) now =
  if (3 <=? used + 1)%Z
  then close_failed_report (update_attempt f attempt db1) id x error allocation (λ _, Some now) now
  else Commit (update_wrapup (λ w, w <| wrap_state := WrapPending |> <| wrap_updated_at := now |>) id
         (update_episode (λ e, e <| epi_wrapup_state := WrapPending |> <| epi_wrapup_error := None |> <| epi_updated_at := now |>) id
           (update_attempt f attempt db1))).
Proof.
  intros [Hwf Hok (e & He & Hu) _ Hs _] Hb f db1. destruct (settled_ending _ _ _ _ Hok He Hs) as [Hx _].
  cbn [run_op]. unfold _finish_episode_report_attempt_error. rewrite Hb. cbn [negb check_that mbind tx_bind].
  assert (td_attempts db1 !! attempt = Some (queued_attempt id attempt allocation (used + 1) began)) as -> by apply lookup_insert_eq.
  cbn [found mbind tx_bind]. cbn -[close_failed_report finish_attempt db1 update_attempt Z.leb Z.add]. fold f.
  rewrite !(decide_False (P := AttemptQueued = AttemptFailed)) by done.
  unfold _REPORT_ATTEMPT_LIMIT. destruct (3 <=? used + 1)%Z; [|done].
  assert (td_episodes (update_attempt f attempt db1) !! id = Some (e <| epi_wrapup_state := WrapRunning |>
    <| epi_report_attempts_used := (used + 1)%Z |> <| epi_updated_at := began |>)) as ->.
  { cbn. by rewrite lookup_alter_eq, He. }
  cbn -[close_failed_report finish_attempt db1 update_attempt Z.leb Z.add]. by rewrite Hx.
Qed.

(** What a round leaves of a report that may be tried again. *)
Definition retried (id : string) (now : Z) (db : TaskDb) : TaskDb :=
  update_wrapup (λ w, w <| wrap_state := WrapPending |> <| wrap_updated_at := now |>) id
    (update_episode (λ e, e <| epi_wrapup_state := WrapPending |> <| epi_wrapup_error := None |> <| epi_updated_at := now |>) id db).

Lemma round_is db id x used attempt error began now :
  report_awaited db id x used → (used < 3)%Z → td_attempts db !! attempt = None → is_blank error = false →
  ∃ allocation, let db1 := attempting id attempt allocation (used + 1) began db in
    let f := finish_attempt AttemptFailed (Some error) now in
    run_op db (OpAttempt id attempt) began = Commit db1 ∧ disciplined db1 (OpAttemptError attempt error false) ∧
    run_op db1 (OpAttemptError attempt error false) now =
      if (3 <=? used + 1)%Z
      then close_failed_report (update_attempt f attempt db1) id x error allocation (λ _, Some now) now
      else Commit (retried id now (update_attempt f attempt db1)).
Proof.
  intros Ha Hlt Hnew Hb. destruct (attempt_is_allocated _ _ _ _ attempt began Ha Hlt Hnew) as [al Hal]. exists al. cbn zeta.
  split; [done|]. split; [|by eapply attempt_fails].
  intros a. unfold attempting. cbn. rewrite lookup_insert_eq. by intros [= <-].
Qed.

Lemma fence_of_report w w' :
  wrap_fence w' = wrap_fence w → wrap_state w ∈ [WrapPending; WrapRunning] → wrap_state w' ∈ [WrapPending; WrapRunning] →
  restart_fence_is_coherent w = true → restart_fence_is_coherent w' = true.
Proof.
  unfold restart_fence_is_coherent. intros -> Hw Hw'.
  assert (∀ v, v ∈ [WrapPending; WrapRunning] → bool_decide (v = WrapSkipped) = false ∧ bool_decide (v = WrapLegacyUnavailable) = false) as Hv.
  { by intros v [->| ->%list_elem_of_singleton]%elem_of_cons. }
  by destruct (Hv _ Hw) as [-> ->], (Hv _ Hw') as [-> ->].
Qed.

(** The rows after the failure of an attempt. *)
Lemma round_rows db id x used attempt allocation error began now :
  report_awaited db id x used →
  let db2 := update_attempt (finish_attempt AttemptFailed (Some error) now) attempt (attempting id attempt allocation (used + 1) began db) in
  (∀ k, k ≠ attempt → td_attempts db2 !! k = td_attempts db !! k) ∧
  (∃ a, td_attempts db2 !! attempt = Some a ∧ is_open a = false) ∧
  ∃ e w, td_episodes db2 !! id = Some e ∧ epi_report_attempts_used e = (used + 1)%Z ∧ epi_ending e = Some x ∧
    td_wrapups db2 !! id = Some w ∧ restart_fence_is_coherent w = true ∧ is_Some (wrap_allocation w) ∧ wrap_ending w = Some x ∧
    epi_status e = EpWrappingUp ∧ wrap_state w ∈ [WrapPending; WrapRunning].
Proof.
  intros [Hwf Hok (e & He & Hu) (w & Hw & Hco & Hal) Hs Hcur] db2.
  pose proof (stage_of_spec _ _ _ _ He Hs) as (v & Hv & He1 & He2 & He3 & Hv1 & Hv2). rewrite Hw in Hv. injection Hv as <-.
  split_and!.
  - intros k Hk. cbn. by rewrite lookup_alter_ne, lookup_insert_ne.
  - cbn. rewrite lookup_alter_eq, lookup_insert_eq. by eexists.
  - eexists _, _. cbn. rewrite !lookup_alter_eq, He, Hw. split_and!; try done.
    + by eapply fence_of_report; [..|exact Hco]; [|exact Hv1|right; left].
    + right; by left.
Qed.

(** How a report that failed for good is recorded. *)
Definition closed_by_failure (db : TaskDb) (id : string) (x : EpisodeEnding) (error : string) : Prop :=
  ∃ e, td_episodes db !! id = Some e ∧ stage_of db id = Some (StageClosed x ReportFailed) ∧
    epi_status e = _status_for_ending x ∧ epi_report_attempts_used e = 3%Z ∧ epi_wrapup_error e = Some error.

(** What the notice to a parent reads. *)
Definition same_parents (id : string) (db db0 : TaskDb) : Prop :=
  td_child_experiments db = td_child_experiments db0 ∧ td_notices db = td_notices db0 ∧
  td_auto_research db = td_auto_research db0 ∧ ∀ j, j ≠ id → td_episodes db !! j = td_episodes db0 !! j.

Lemma load_same id j db db0 : same_parents id db db0 → j ≠ id →
  _load_auto_research_episode db j = _load_auto_research_episode db0 j.
Proof. intros (_ & _ & Ha & He) Hj. unfold _load_auto_research_episode. by rewrite Ha, He. Qed.

Lemma notice_inserted db n b e :
  not_delivered n = None → not_acknowledged n = None → _load_auto_research_episode db (not_episode_id n) = Commit e →
  find (same_source n) (td_notices db) = None → _bounded_auto_research_lifecycle_notice n = Commit b →
  _insert_auto_research_lifecycle_notice db n = Commit (db <| td_notices ::= (.++ [b]) |>).
Proof.
  intros Hd Ha Hl Hf Hb. unfold _insert_auto_research_lifecycle_notice. rewrite Hd, Ha. cbn [is_some negb andb check_that mbind tx_bind].
  rewrite Hl. cbn [mbind tx_bind]. rewrite Hf, Hb. done.
Qed.

(** Telling the parent of a routed child goes through. *)
Lemma told db db0 id x f :
  same_parents id db db0 → parent_hears db0 id x f →
  ∃ db', _terminalize_child_experiment db id (_status_for_ending x) x (Some (fa_error f)) (fa_failed_at f) = Commit db' ∧
    parent_told db0 db' id x f ∧ td_episodes db' = td_episodes db ∧ td_wrapups db' = td_wrapups db.
Proof.
  intros Hsame Hh. pose proof Hsame as (Hc & Hn & _). unfold _terminalize_child_experiment, parent_told. rewrite Hc.
  destruct (td_child_experiments db0 !! id) as [route|] eqn:Hr; [|by exists db].
  destruct (Hh route Hr) as (Hs & Hne & [e Hload] & Hfresh & [n Hb]). rewrite Hs. cbn [among].
  rewrite decide_True by done. match goal with |- context [db <| td_child_experiments ::= ?g |>] => set (db1 := db <| td_child_experiments ::= g |>) end.
  assert (Hins : _insert_auto_research_lifecycle_notice db1 (closing_notice id x f route) =
    Commit (db1 <| td_notices ::= (.++ [n]) |>)).
  { apply (notice_inserted db1 _ n e); [done|done| |by cbn; rewrite Hn|done].
    rewrite <-Hload, <-(load_same id _ db db0 Hsame Hne). done. }
  eexists. split; [exact Hins|]. split; [|done]. intros route' [= <-]. split.
  - exists n. split; [done|]. cbn. apply elem_of_app. right. by left.
  - cbn. by rewrite lookup_insert_eq.
Qed.

Lemma closing_round db db0 id x f allocation :
  same_parents id db db0 → parent_hears db0 id x f →
  (∃ e w, td_episodes db !! id = Some e ∧ epi_report_attempts_used e = 3%Z ∧ epi_ending e = Some x ∧
     td_wrapups db !! id = Some w ∧ wrap_ending w = Some x) →
  ∃ db', close_failed_report db id x (fa_error f) allocation (λ _, Some (fa_failed_at f)) (fa_failed_at f) = Commit db' ∧
    closed_by_failure db' id x (fa_error f) ∧ parent_told db0 db' id x f.
Proof.
  intros (Hc & Hn & Har & Hother) Hh (e & w & He & Hu & Hx & Hw & Hwx). unfold close_failed_report.
  match goal with |- context [_terminalize_child_experiment ?d _ _ _ _ _] => set (db1 := d) end.
  destruct (told db1 db0 id x f) as (db' & Ht & Htold & Hep & Hwr); [|done|].
  { split_and!; [done..|]. intros j Hj. rewrite <-Hother by done. cbn. by rewrite lookup_alter_ne. }
  exists db'. split; [exact Ht|]. split; [|done].
  set (e' := settle_episode (_status_for_ending x) WrapFailed (Some (fa_error f)) (fa_failed_at f) e).
  assert (td_episodes db' !! id = Some e') as He' by (rewrite Hep; cbn; by rewrite lookup_alter_eq, He).
  exists e'. split; [done|]. split; [|done]. unfold stage_of. rewrite He'. cbn [mbind option_bind]. apply stage_complete.
  exists (settle_wrapup WrapFailed (Some (fa_error f)) (fa_failed_at f) w). split; [rewrite Hwr; cbn; by rewrite lookup_alter_eq, Hw|].
  split_and!; try done. cbn. by destruct (epi_ended_at e); eexists.
Qed.

Lemma retried_rows id now db e w :
  td_episodes db !! id = Some e → td_wrapups db !! id = Some w →
  td_episodes (retried id now db) !! id =
    Some (e <| epi_wrapup_state := WrapPending |> <| epi_wrapup_error := None |> <| epi_updated_at := now |>) ∧
  td_wrapups (retried id now db) !! id = Some (w <| wrap_state := WrapPending |> <| wrap_updated_at := now |>) ∧
  td_attempts (retried id now db) = td_attempts db.
Proof. intros He Hw. unfold retried. cbn. by rewrite !lookup_alter_eq, He, Hw. Qed.

Lemma failed_round db id x used f :
  report_awaited db id x used → (used < 3)%Z → td_attempts db !! fa_attempt f = None → is_blank (fa_error f) = false →
  let db' := run_ops db (fail_round id f) in
  (∀ k, k ≠ fa_attempt f → td_attempts db' !! k = td_attempts db !! k) ∧
  if (3 <=? used + 1)%Z then parent_hears db id x f → closed_by_failure db' id x (fa_error f) ∧ parent_told db db' id x f
  else report_awaited db' id x (used + 1) ∧ same_parents id db' db.
Proof.
  destruct f as [attempt began error now]. cbn [fa_attempt fa_error]. intros Ha Hlt Hnew Hb.
  destruct (round_is _ _ _ _ _ error began now Ha Hlt Hnew Hb) as (al & H1 & Hd & H2). cbn zeta in H1, Hd, H2.
  destruct (round_rows db id x used attempt al error began now Ha) as (Hother & (a & Hat & Hao) & e & w & He & Hu & Hx & Hw & Hco & Hal & Hwx & Hst & Hws).
  set (db1 := attempting _ _ _ _ _ _) in *. set (db2 := update_attempt _ _ _) in *.
  assert (Hsame : same_parents id db2 db).
  { split_and!; [done..|]. intros j Hj. cbn. by rewrite lookup_alter_ne. }
  cbn zeta.
  assert (Hrun : run_ops db (fail_round id {| fa_attempt := attempt; fa_allocated_at := began; fa_error := error; fa_failed_at := now |})
    = step_op db1 (OpAttemptError attempt error false, now)).
  { unfold run_ops, fail_round. cbn [foldl fa_attempt fa_allocated_at fa_error fa_failed_at].
    unfold step_op at 2. cbn [fst snd]. by rewrite H1. }
  rewrite Hrun. unfold step_op. cbn [fst snd]. destruct Ha as [Hwf Hok _ _ Hs Hcur].
  pose proof (proj1 (proj1 (run_op_advances _ _ _ _ H1) Hwf)) as Hwf1.
  pose proof (run_op_moves db (OpAttempt id attempt) began db1 Hwf Hok I H1) as [Hok1 _]. destruct (Z.leb_spec 3 (used + 1)).
  - rewrite H2. split.
    + destruct (close_failed_report db2 id x error al (λ _, Some now) now) as [db'|] eqn:Hc.
      * intros k Hk. unfold close_failed_report in Hc.
        apply terminalize_frame in Hc as (_ & [= _ _ _ -> _] & _). by apply Hother.
      * intros k Hk. cbn. by rewrite lookup_insert_ne.
    + intros Hh. destruct (closing_round db2 db id x _ al Hsame Hh) as (db' & Hc & Hclosed);
        [exists e, w; split_and!; try done; lia|]. cbn [fa_error fa_failed_at] in Hc. by rewrite Hc.
  - rewrite H2. destruct (retried_rows id now db2 e w He Hw) as (Re & Rw & Ra).
    assert (Hop : run_op db1 (OpAttemptError attempt error false) now = Commit (retried id now db2)) by exact H2.
    split; [intros k Hk; rewrite Ra; by apply Hother|].
    split; [|split_and!; [done..|]; intros j Hj; destruct Hsame as (_ & _ & _ & <-); [|done]; cbn; by rewrite lookup_alter_ne].
    split.
    + by apply (proj1 (run_op_advances _ _ _ _ Hop)).
    + by apply (run_op_moves _ _ _ _ Hwf1 Hok1 Hd Hop).
    + eexists. by split; [exact Re|].
    + eexists. split; [exact Rw|]. split; [|done].
      eapply fence_of_report; [..|exact Hco]; [done|done|by left].
    + unfold stage_of. rewrite Re. cbn [mbind option_bind]. apply stage_complete. rewrite Rw. eexists. split; [done|].
      split_and!; try done; by left.
    + destruct (current_attempt (retried id now db2) id) as [b|] eqn:Hb'; [|done]. exfalso.
      destruct (current_attempt_Some _ _ _ Hb') as (k & Hk & Hid & Ho). rewrite Ra in Hk.
      destruct (decide (k = attempt)) as [->|Hne]; [congruence|]. rewrite Hother in Hk by done.
      by rewrite (current_attempt_None _ _ Hcur k b Hk Hid) in Ho.
Qed.

Lemma parent_hears_same db db' id x f : same_parents id db' db → parent_hears db id x f → parent_hears db' id x f.
Proof.
  intros Hsame Hh route. pose proof Hsame as (Hc & Hn & _). rewrite Hc, Hn. intros Hr.
  destruct (Hh route Hr) as (? & Hne & [e Hload] & ? & ?). split_and!; try done. exists e. by rewrite (load_same id _ db' db).
Qed.
End failing.

