(* ===== verification/WrapupLaws.v ===== *)
(** What the wrap-up service makes of the store: whatever it meets, it moves the
    ledger as the transactions may; it settles the ending or has its report
    written; it can be repeated; and where it gets stuck. *)

From S2P Require Export Wrapup Lifecycle.

(** ** Services *)

Lemma svc_bind_eq {A B} (m : svc A) (k : A → svc B) db db' r : (m ≫= k) db = (db', r) →
  (∃ db1 a, m db = (db1, Commit a) ∧ k a db1 = (db', r)) ∨ (∃ e, m db = (db', Abort e) ∧ r = Abort e).
Proof.
  unfold mbind, svc_bind. destruct (m db) as [db1 [a|e]]; [by left; exists db1, a|]. intros [= <- <-]. right. by exists e.
Qed.

Lemma svc_bind_commit {A B} (m : svc A) (k : A → svc B) db db1 a : m db = (db1, Commit a) → (m ≫= k) db = k a db1.
Proof. unfold mbind, svc_bind. by intros ->. Qed.

Lemma ask_eq {A} (f : TaskDb → tx A) db db' r : ask f db = (db', r) → db' = db ∧ f db = r.
Proof. by intros [= <- <-]. Qed.

Lemma transact_eq f db db' r : transact f db = (db', r) →
  (f db = Commit db' ∧ r = Commit tt) ∨ (db' = db ∧ ∃ e, f db = Abort e ∧ r = Abort e).
Proof. unfold transact. destruct (f db) as [db1|e]; intros [= <- <-]; [by left|right]. split; [done|by exists e]. Qed.

Section laws.
Context `{JsonText, TextLib, ReportSkill}.

(** ** The transactions *)

Lemma fence_ok db id x d now db' : fence_episode_ending db id x d now = Commit db' →
  x ≠ EndStopped ∧ td_wrapups db' = td_wrapups db ∧ td_tasks db' = td_tasks db ∧
  ∃ e, td_episodes db' !! id = Some e ∧ epi_ending e = Some x ∧ epi_ending_diagnostic e = d.
Proof.
  unfold fence_episode_ending. intros Hf. tx_inv Hf. apply negb_true_iff, bool_decide_eq_false in Hcheck.
  apply tx_bind_ok in Hf as (e & [He _]%load_episode_ok & Hf). destruct (epi_ending e) eqn:Hend; tx_inv Hf; injection Hf as <-.
  - apply andb_prop in Hcheck0 as [->%bool_decide_eq_true Hd%bool_decide_eq_true]. split_and!; try done. by exists e.
  - split_and!; try done. eexists. split; [cbn; by rewrite lookup_alter_eq, He|done].
Qed.

(** A fence that holds is not written again. *)
Lemma fence_again db id x d now e :
  x ≠ EndStopped → td_episodes db !! id = Some e → lifecycle_is_coherent e = true → epi_ending e = Some x →
  epi_ending_diagnostic e = d → fence_episode_ending db id x d now = Commit db.
Proof.
  intros Hx He Hc Hend Hd. unfold fence_episode_ending, load_episode, _episode_record. rewrite bool_decide_eq_false_2 by done.
  cbn. rewrite He. cbn. rewrite Hc. cbn. rewrite Hend. by rewrite !bool_decide_eq_true_2.
Qed.

Lemma run_moves db op now db' :
  store_wf db → ledger_ok db → disciplined db op → run_op db op now = Commit db' → store_wf db' ∧ ledger_moves db db'.
Proof. intros Hwf Hok Hd Hop. split; [by apply (proj1 (run_op_advances _ _ _ _ Hop))|by eapply run_op_moves]. Qed.

(** A wrap-up fixes the ending of its episode. *)
Lemma stage_with_wrapup db id w x :
  ledger_ok db → td_wrapups db !! id = Some w → wrap_ending w = Some x → x ≠ EndStopped →
  stage_of db id = Some (StageReporting x) ∨ ∃ o, stage_of db id = Some (StageClosed x o).
Proof.
  intros Hok Hw Hx Hns. destruct (lg_wrapup _ Hok id) as [e He]; [by eexists|].
  destruct (stage_known _ _ _ Hok He) as (_ & s & Hs & Hspec & _). rewrite Hw in Hspec. rewrite Hs.
  destruct s as [| | |y|y|y o]; try (by destruct Hspec as (? & _)).
  - destruct Hspec as (v & [= <-] & _ & _ & _ & _ & _ & Hy). congruence.
  - destruct Hspec as (v & [= <-] & _ & _ & _ & _ & Hy). left. congruence.
  - right. exists o. destruct o; [by destruct Hspec as (? & _)|destruct Hspec as (v & [= <-] & _ & _ & _ & _ & _ & Hy)..]; congruence.
Qed.

(** The episode that ended without a report. *)
Lemma ended_without_report db id x d now db' :
  ledger_ok db → end_episode_without_report db id x d now = Commit db' →
  td_tasks db' = td_tasks db ∧ td_wrapups db' !! id = None ∧ td_wrapups db !! id = None ∧ stage_of db' id = Some (StageClosed x NoReport) ∧
  x ≠ EndStopped ∧ ∃ e, td_episodes db' !! id = Some e ∧ epi_ending e = Some x ∧ epi_ending_diagnostic e = d ∧
    epi_status e = _status_for_ending x ∧ epi_stop_requested_at e = None.
Proof.
  intros Hok. unfold end_episode_without_report. intros He. tx_inv He. apply negb_true_iff, bool_decide_eq_false in Hcheck.
  apply tx_bind_ok in He as (e & [Hid _]%load_episode_ok & He). tx_inv He. apply is_some_None in Hcheck0.
  apply negb_true_iff, orb_false_iff in Hcheck2 as [Hstop _]. apply is_some_false in Hstop.
  destruct (stage_known _ _ _ Hok Hid) as (_ & s & Hs & Hspec & _). rewrite Hcheck0 in Hspec.
  case_bool_decide as Hfin.
  - injection He as <-. assert (∃ y, s = StageClosed y NoReport ∧ epi_ending e = Some y) as (y & -> & Hy).
    { destruct s as [| | |y|y|y o]; cbn in Hspec.
      - destruct Hspec as (_ & _ & _ & _ & Hst). rewrite Hfin in Hst. by destruct x; apply (bool_decide_pack _) in Hst.
      - destruct Hspec as (_ & _ & _ & _ & Hst). rewrite Hfin in Hst. by destruct x.
      - by destruct Hspec as (v & ? & _).
      - destruct Hspec as (_ & _ & _ & _ & Hst). rewrite Hfin in Hst. by destruct x.
      - by destruct Hspec as (v & ? & _).
      - destruct o; [|by destruct Hspec as (v & ? & _)..]. exists y. by destruct Hspec as (_ & _ & ? & _). }
    rewrite Hy in Hcheck1. apply andb_prop in Hcheck1 as [->%bool_decide_eq_true Hd%bool_decide_eq_true].
    split_and!; try done. by exists e.
  - tx_inv He. apply terminalize_frame in He as ([= Ht _] & [= T1 T2 T3 T4 T5] & _). cbn in T1, T3, Ht.
    rewrite T3, Hcheck0. split_and!; try done.
    + unfold stage_of. rewrite T1, T3, lookup_alter_eq, Hid, Hcheck0. cbn [fmap option_fmap option_map mbind option_bind].
      apply stage_complete. split_and!; try done. cbn. by destruct (epi_ended_at e); eexists.
    + eexists. rewrite T1, lookup_alter_eq, Hid. split; [done|]. done.
Qed.

Lemma end_again db id x d now e :
  x ≠ EndStopped → td_episodes db !! id = Some e → lifecycle_is_coherent e = true → td_wrapups db !! id = None →
  epi_ending e = Some x → epi_ending_diagnostic e = d → epi_status e = _status_for_ending x → epi_stop_requested_at e = None →
  end_episode_without_report db id x d now = Commit db.
Proof.
  intros Hx He Hc Hw Hend Hd Hst Hstop. unfold end_episode_without_report, load_episode, _episode_record.
  rewrite bool_decide_eq_false_2 by done. cbn. rewrite He. cbn. rewrite Hc. cbn. rewrite Hw. cbn. rewrite Hend, Hd.
  rewrite !bool_decide_eq_true_2 by done. cbn. rewrite Hstop, Hst. cbn. rewrite bool_decide_eq_false_2 by (by destruct x). cbn.
  by rewrite !bool_decide_eq_true_2.
Qed.

(** ** The four ways to an admission *)

Lemma episode_now_ok id db db' e : episode_now id db = (db', Commit e) →
  db' = db ∧ td_episodes db !! id = Some e ∧ lifecycle_is_coherent e = true.
Proof.
  unfold episode_now. intros [-> Hq]%ask_eq. split; [done|]. apply tx_bind_ok in Hq as (o & Ho & ->%found_ok).
  unfold store_episode in Ho. destruct (td_episodes db !! id) as [row|]; [|done].
  apply tx_bind_ok in Ho as (e' & He' & [= ->]). unfold _episode_record in He'. tx_inv He'. by injection He' as ->.
Qed.

Lemma episode_now_here id db e :
  td_episodes db !! id = Some e → lifecycle_is_coherent e = true → episode_now id db = (db, Commit e).
Proof. intros He Hc. unfold episode_now, ask, store_episode, _episode_record. rewrite He. cbn. by rewrite Hc. Qed.

Lemma store_wrapup_ok db id o : store_episode_wrapup db id = Commit o →
  td_wrapups db !! id = o ∧ (∀ w, o = Some w → restart_fence_is_coherent w = true).
Proof.
  unfold store_episode_wrapup. destruct (td_wrapups db !! id) as [w|]; [|by intros [= <-]].
  intros (w' & Hw & [= <-])%tx_bind_ok. unfold _episode_wrapup_record in Hw. tx_inv Hw. injection Hw as <-.
  split; [done|]. by intros v [= <-].
Qed.

Lemma store_wrapup_here db id :
  (∀ w, td_wrapups db !! id = Some w → restart_fence_is_coherent w = true) →
  store_episode_wrapup db id = Commit (td_wrapups db !! id).
Proof.
  intros Hc. unfold store_episode_wrapup, _episode_wrapup_record. destruct (td_wrapups db !! id) as [w|]; [|done].
  by rewrite (Hc w eq_refl).
Qed.

Definition admits_existing (spec : EpisodeWrapupSpec) (e : EpisodeRecord) (w : EpisodeWrapupRecord) : Prop :=
  wrap_ending w = Some (ews_ending spec) ∧ wf_partial (wrap_fence w) = ews_partial spec ∧
  wf_concluding_operation_id (wrap_fence w) = Some (ews_continuation_operation_id spec) ∧
  (wf_receipt_json (wrap_fence w), wf_receipt_sha256 (wrap_fence w)) = ending_receipt spec e.

Inductive admission (spec : EpisodeWrapupSpec) (fence_at now settle_at : Z) (db db' : TaskDb) : EpisodeWrapupAdmission → Prop :=
  | settled_without_report e :
      td_wrapups db !! ews_episode_id spec = None →
      _never_bound_a_session (store_agent_task db (ews_continuation_operation_id spec)) = true →
      end_episode_without_report db (ews_episode_id spec) (ews_ending spec) (ews_diagnostic spec) settle_at = Commit db' →
      td_episodes db' !! ews_episode_id spec = Some e → lifecycle_is_coherent e = true →
      admission spec fence_at now settle_at db db' {| ewa_episode := e; ewa_wrapup := None; ewa_task := None; ewa_request := None |}
  | wrapup_exists e w a :
      fence_episode_ending db (ews_episode_id spec) (ews_ending spec) (ews_diagnostic spec) fence_at = Commit db' →
      td_episodes db' !! ews_episode_id spec = Some e → lifecycle_is_coherent e = true →
      td_wrapups db !! ews_episode_id spec = Some w → restart_fence_is_coherent w = true → admits_existing spec e w →
      _existing_admission e w db' = (db', Commit a) → admission spec fence_at now settle_at db db' a
  | report_is_unlaunchable db1 e e' diagnostic :
      fence_episode_ending db (ews_episode_id spec) (ews_ending spec) (ews_diagnostic spec) fence_at = Commit db1 →
      td_episodes db1 !! ews_episode_id spec = Some e → td_wrapups db !! ews_episode_id spec = None →
      let w := unlaunchable_wrapup spec (ending_receipt spec e).1 (ending_receipt spec e).2 diagnostic now in
      fail_episode_wrapup_unlaunchable db1 (ews_episode_id spec) w (ews_diagnostic spec) settle_at = Commit db' →
      td_episodes db' !! ews_episode_id spec = Some e' → lifecycle_is_coherent e' = true →
      admission spec fence_at now settle_at db db' {| ewa_episode := e'; ewa_wrapup := Some w; ewa_task := None; ewa_request := None |}
  | report_is_allocated db1 e e' t r path task :
      fence_episode_ending db (ews_episode_id spec) (ews_ending spec) (ews_diagnostic spec) fence_at = Commit db1 →
      td_episodes db1 !! ews_episode_id spec = Some e → lifecycle_is_coherent e = true →
      td_wrapups db !! ews_episode_id spec = None →
      store_agent_task db1 (ews_continuation_operation_id spec) = Some t →
      report_binding spec e (Some t) = inl (t, r, path) →
      let w := report_wrapup_of spec t r path (ending_receipt spec e).1 (ending_receipt spec e).2 now in
      begin_episode_wrapup db1 (epi_episode_id e) w (report_task_of spec e t r now) settle_at = Commit db' →
      td_episodes db' !! epi_episode_id e = Some e' → lifecycle_is_coherent e' = true →
      store_agent_task db' (report_operation_id (ews_episode_id spec)) = Some task →
      admission spec fence_at now settle_at db db' {| ewa_episode := e'; ewa_wrapup := Some w; ewa_task := Some task; ewa_request := Some r |}.

Lemma binding_of spec e c t r path : report_binding spec e c = inl (t, r, path) → c = Some t.
Proof.
  unfold report_binding. destruct (_binding_diagnostic e c); [done|]. destruct c as [u|]; [|done].
  destruct (_ ≫= _) as [[r' path']|]; [|done]. by intros [= -> _ _].
Qed.

Ltac svc_step H db1 a Ha :=
  let e := fresh "err" in apply svc_bind_eq in H as [(db1 & a & Ha & H)|(e & _ & H)]; [|discriminate H].

Lemma begin_admits spec fence_at now settle_at db db' a :
  begin_episode_report_wrapup spec fence_at now settle_at db = (db', Commit a) → admission spec fence_at now settle_at db db' a.
Proof.
  unfold begin_episode_report_wrapup. intros Hb. svc_step Hb db1 u Ha. apply ask_eq in Ha as [-> _].
  svc_step Hb db1 e0 Ha. apply episode_now_ok in Ha as (-> & _). svc_step Hb db1 w0 Ha. apply ask_eq in Ha as [-> [Hw _]%store_wrapup_ok].
  svc_step Hb db1 c Ha. apply ask_eq in Ha as [-> [= <-]].
  destruct (negb (is_some w0) && _never_bound_a_session _) eqn:Hcase.
  - apply andb_prop in Hcase as [Hn%is_some_None Hnb]. subst w0. svc_step Hb db1 v Ha.
    apply transact_eq in Ha as [[He _]|(_ & e & _ & ?)]; [|done]. svc_step Hb db2 e Ha. apply episode_now_ok in Ha as (-> & Hep & Hc).
    injection Hb as <- <-. by econstructor.
  - svc_step Hb db1 v Ha. apply transact_eq in Ha as [[Hf _]|(_ & e & _ & ?)]; [|done].
    destruct (fence_ok _ _ _ _ _ _ Hf) as (_ & Hwf & _).
    svc_step Hb db2 e Ha. apply episode_now_ok in Ha as (-> & Hep & Hc). destruct (ending_receipt spec e) as [json sha] eqn:Hrec.
    svc_step Hb db2 o Ha. apply ask_eq in Ha as [-> [Hw1 Hco]%store_wrapup_ok]. rewrite Hwf in Hw1.
    destruct o as [w|].
    + svc_step Hb db2 u1 Ha. apply ask_eq in Ha as [-> Hchk%check_that_ok]. rewrite !andb_true_iff in Hchk.
      destruct Hchk as ((((H1' & H2') & H3') & H4') & H5'). apply bool_decide_eq_true in H1', H3', H4', H5'. apply Bool.eqb_prop in H2'.
      assert (db' = db1) as ->.
      { unfold _existing_admission in Hb. destruct (wrap_allocation w); [|by injection Hb].
        svc_step Hb db2 t Ha. apply ask_eq in Ha as [-> _]. svc_step Hb db2 r Ha. apply ask_eq in Ha as [-> _]. by injection Hb. }
      eapply wrapup_exists; [exact Hf|exact Hep|exact Hc|exact Hw1|by apply Hco| |exact Hb].
      split_and!; try done. by rewrite Hrec, H4', H5'.
    + svc_step Hb db2 c Ha. apply ask_eq in Ha as [-> [= <-]].
      destruct (report_binding spec e _) as [[[t r] path]|diagnostic] eqn:Hbind.
      * pose proof (binding_of _ _ _ _ _ _ Hbind) as Ht. rewrite Ht in Hbind.
        svc_step Hb db2 u1 Ha. apply transact_eq in Ha as [[Hbg _]|(_ & err & _ & ?)]; [|done].
        svc_step Hb db3 e' Ha. apply episode_now_ok in Ha as (-> & Hep' & Hc'). svc_step Hb db3 task Ha. apply ask_eq in Ha as [-> Htask%found_ok].
        injection Hb as <- <-. pose proof (report_is_allocated spec fence_at now settle_at db db2 db1 e e' t r path task Hf Hep Hc Hw1 Ht Hbind) as Hadm.
        rewrite Hrec in Hadm. by apply Hadm.
      * unfold _fail_unlaunchable in Hb. svc_step Hb db2 u1 Ha. apply transact_eq in Ha as [[Hbg _]|(_ & err & _ & ?)]; [|done].
        svc_step Hb db3 e' Ha. apply episode_now_ok in Ha as (-> & Hep' & Hc'). injection Hb as <- <-.
        pose proof (report_is_unlaunchable spec fence_at now settle_at db db2 db1 e e' diagnostic Hf Hep Hw1) as Hadm.
        rewrite Hrec in Hadm. by apply Hadm.
Qed.

(** ** Every outcome moves the ledger *)

Definition lawful_at {A} (m : svc A) (db : TaskDb) : Prop :=
  store_wf db → ledger_ok db → store_wf (m db).1 ∧ ledger_moves db (m db).1.

Lemma lawful_ask {A} (f : TaskDb → tx A) db : lawful_at (ask f) db.
Proof. intros Hwf Hok. split; [done|by apply ledger_moves_refl]. Qed.

Lemma lawful_ret {A} (a : A) db : lawful_at (mret a) db.
Proof. intros Hwf Hok. split; [done|by apply ledger_moves_refl]. Qed.

Lemma lawful_transact f db :
  (∀ db', f db = Commit db' → ∃ op now, disciplined db op ∧ run_op db op now = Commit db') → lawful_at (transact f) db.
Proof.
  intros Hf Hwf Hok. unfold transact. destruct (f db) as [db'|e]; cbn; [|by split; [|apply ledger_moves_refl]].
  destruct (Hf db' eq_refl) as (op & now & Hd & Hop). by eapply run_moves.
Qed.

Lemma lawful_bind {A B} (m : svc A) (k : A → svc B) db :
  lawful_at m db → (∀ db1 a, m db = (db1, Commit a) → lawful_at (k a) db1) → lawful_at (m ≫= k) db.
Proof.
  intros Hm Hk Hwf Hok. destruct (Hm Hwf Hok) as [Hwf1 Hm1]. unfold mbind, svc_bind.
  destruct (m db) as [db1 [a|e]] eqn:Hdb; cbn in *; [|done].
  destruct (Hk db1 a eq_refl Hwf1 (proj1 Hm1)) as [Hwf2 Hm2]. split; [done|by eapply ledger_moves_trans].
Qed.

Lemma begin_lawful spec fence_at now settle_at db : lawful_at (begin_episode_report_wrapup spec fence_at now settle_at) db.
Proof.
  unfold begin_episode_report_wrapup. apply lawful_bind; [apply lawful_ask|intros db0 _ [-> _]%ask_eq].
  apply lawful_bind; [apply lawful_ask|intros db0 _ [-> _]%ask_eq].
  apply lawful_bind; [apply lawful_ask|intros db0 w [-> _]%ask_eq].
  apply lawful_bind; [apply lawful_ask|intros db0 c [-> _]%ask_eq]. destruct (_ && _).
  { apply lawful_bind; [|intros db1 _ _; apply lawful_bind; [apply lawful_ask|intros; apply lawful_ret]].
    apply lawful_transact. intros db' He. by exists (OpEndWithoutReport (ews_episode_id spec) (ews_ending spec) (ews_diagnostic spec)), settle_at. }
  apply lawful_bind.
  { apply lawful_transact. intros db' He. by exists (OpFence (ews_episode_id spec) (ews_ending spec) (ews_diagnostic spec)), fence_at. }
  intros db1 u Hf. apply transact_eq in Hf as [[Hf _]|(_ & e & _ & ?)]; [|done].
  destruct (fence_ok _ _ _ _ _ _ Hf) as (_ & _ & _ & e1 & He1 & Hend1 & _).
  apply lawful_bind; [apply lawful_ask|intros db0 e [-> _]%ask_eq]. destruct (ending_receipt spec e) as [json sha].
  apply lawful_bind; [apply lawful_ask|intros db0 [v|] [-> _]%ask_eq].
  { apply lawful_bind; [apply lawful_ask|intros db0 _ [-> _]%ask_eq]. unfold _existing_admission.
    destruct (wrap_allocation v); [|apply lawful_ret]. apply lawful_bind; [apply lawful_ask|intros db0 t [-> _]%ask_eq].
    apply lawful_bind; [apply lawful_ask|intros; apply lawful_ret]. }
  apply lawful_bind; [apply lawful_ask|intros db0 c' [-> _]%ask_eq].
  destruct (report_binding spec e c') as [[[t r] path]|diagnostic].
  - apply lawful_bind.
    + apply lawful_transact. intros db' He.
      by exists (OpBeginWrapup (epi_episode_id e) (report_wrapup_of spec t r path json sha now) (report_task_of spec e t r now)), settle_at.
    + intros. apply lawful_bind; [apply lawful_ask|intros; apply lawful_bind; [apply lawful_ask|intros; apply lawful_ret]].
  - unfold _fail_unlaunchable. apply lawful_bind.
    + apply lawful_transact. intros db' He.
      exists (OpWrapupUnlaunchable (ews_episode_id spec) (unlaunchable_wrapup spec json sha diagnostic now) (ews_diagnostic spec)), settle_at.
      split; [|done]. intros e2 x He2 Hx. rewrite He1 in He2. injection He2 as <-. rewrite Hend1 in Hx. by injection Hx as <-.
    + intros. apply lawful_bind; [apply lawful_ask|intros; apply lawful_ret].
Qed.

(** ** Where the episode stands *)

Lemma fail_unlaunchable_ok db id w d now db' :
  td_wrapups db !! id = None → fail_episode_wrapup_unlaunchable db id w d now = Commit db' →
  td_wrapups db' !! id = Some w ∧ restart_fence_is_coherent w = true ∧ wf_ending (wrap_fence w) ≠ Some EndStopped ∧
  conclusion_ok db id w = true ∧
  ∃ e0 e, td_episodes db !! id = Some e0 ∧ td_episodes db' !! id = Some e ∧ epi_mode e = epi_mode e0 ∧
    epi_ending e = wf_ending (wrap_fence w) ∧ epi_ending_diagnostic e = d.
Proof.
  intros Hw. unfold fail_episode_wrapup_unlaunchable. intros Hf. tx_inv Hf. apply tx_bind_ok in Hf as (e & [He _]%load_episode_ok & Hf).
  rewrite Hw in Hf. tx_inv Hf. apply tx_bind_ok in Hf as (db1 & [-> _]%insert_wrapup_ok & (x & Hx%found_ok & Hf)%tx_bind_ok).
  rewrite !andb_true_iff in Hcheck. destruct Hcheck as (((((((Hco & Hid) & _) & Hns) & _) & _) & _) & _).
  apply bool_decide_eq_true in Hid. apply negb_true_iff, bool_decide_eq_false in Hns.
  apply terminalize_frame in Hf as (_ & [= T1 _ T3 _ _] & _). rewrite T3. cbn. rewrite Hid, lookup_insert_eq.
  split_and!; try done. exists e. eexists. rewrite T1. cbn. rewrite lookup_alter_eq, He. by rewrite Hx.
Qed.

Lemma begin_wrapup_ok db id w t now db' :
  td_wrapups db !! id = None → begin_episode_wrapup db id w t now = Commit db' →
  restart_fence_is_coherent w = true ∧ _validate_new_wrapup id w t = true ∧ td_wrapups db' !! id = Some w ∧
  (∃ db1, _insert_agent_task db t "episode_report" = Commit db1 ∧ td_tasks db' = td_tasks db1) ∧
  ∃ e0 e, td_episodes db !! id = Some e0 ∧ td_episodes db' !! id = Some e ∧ epi_mode e = epi_mode e0 ∧
    epi_ending e = wrap_ending w ∧ epi_ending_diagnostic e = wrap_diagnostic w.
Proof.
  intros Hw. unfold begin_episode_wrapup. intros Hb. tx_inv Hb. apply andb_prop in Hcheck as [Hco Hv].
  destruct (new_wrapup_allocation _ _ _ Hv) as (_ & _ & _ & _ & Hid & _ & _).
  apply tx_bind_ok in Hb as (e & [He _]%load_episode_ok & Hb). tx_inv Hb. rewrite Hw in Hb. tx_inv Hb.
  apply tx_bind_ok in Hb as (db1 & Hi & (db2 & [-> _]%insert_wrapup_ok & [= <-])%tx_bind_ok).
  pose proof (insert_task_quiet _ _ _ _ Hi) as [= T1 _ T3 _ _]. split_and!; try done.
  - cbn. by rewrite Hid, lookup_insert_eq.
  - by exists db1.
  - exists e. eexists. cbn. rewrite T1, lookup_alter_eq, He. done.
Qed.


Lemma read_task_columns t : task_kind (read_task t) = task_kind t ∧ task_visible (read_task t) = task_visible t ∧
  task_project_id (read_task t) = task_project_id t ∧ task_episode_id (read_task t) = task_episode_id t.
Proof. unfold read_task. destruct (decide _), (task_history_only _); done. Qed.

(** What an allocation of a wrap-up reads as. *)
Lemma allocation_is_hidden db id w op t :
  store_wf db → td_wrapups db !! id = Some w → wrap_allocation w = Some op → store_agent_task db op = Some t →
  is_report t = true ∧ task_visible t = false.
Proof.
  intros Hwf Hw Hop Ht. destruct (sw_allocated _ Hwf op) as (row & Hrow & Hr & Hv); [left; by exists id, w|].
  unfold store_agent_task in Ht. rewrite Hrow in Ht. injection Ht as <-.
  destruct (read_task_columns row) as (Hk & -> & _). unfold is_report in *. by rewrite Hk.
Qed.

Lemma existing_ok e w db a : _existing_admission e w db = (db, Commit a) →
  ewa_episode a = e ∧ ewa_wrapup a = Some w ∧
  (∀ t, ewa_task a = Some t → ∃ op, wrap_allocation w = Some op ∧ store_agent_task db op = Some t).
Proof.
  unfold _existing_admission. destruct (wrap_allocation w) as [op|]; [|by intros [= <-]]. intros Hb.
  svc_step Hb db1 t Ha. apply ask_eq in Ha as [-> Ht%found_ok]. svc_step Hb db1 r Ha. apply ask_eq in Ha as [-> _].
  injection Hb as <-. split_and!; try done. intros t' [= <-]. by exists op.
Qed.

Lemma fenced_key db id x d now db1 e :
  ledger_ok db → fence_episode_ending db id x d now = Commit db1 → td_episodes db1 !! id = Some e → epi_episode_id e = id.
Proof.
  intros Hok Hf He. destruct (fence_ok _ _ _ _ _ _ Hf) as (_ & _ & Ht & _).
  destruct (fence_moves _ _ _ _ _ _ Hok (evolve_same _ _ Ht) Hf) as [Hok1 _]. by apply (lg_episode _ Hok1).
Qed.

Lemma admission_stands spec fence_at now settle_at db db' a :
  store_wf db' → ledger_ok db → ledger_ok db' → admission spec fence_at now settle_at db db' a →
  td_wrapups db' !! ews_episode_id spec = ewa_wrapup a ∧ td_episodes db' !! ews_episode_id spec = Some (ewa_episode a) ∧
  (stage_of db' (ews_episode_id spec) = Some (StageReporting (ews_ending spec)) ∨
   ∃ o, stage_of db' (ews_episode_id spec) = Some (StageClosed (ews_ending spec) o)) ∧
  (∀ t, ewa_task a = Some t → is_report t = true ∧ task_visible t = false).
Proof.
  intros Hwf Hok Hok' Hadm.
  destruct Hadm as [e Hn Hnb He Hep Hc|e w a Hf Hep Hc Hw Hco Hex Ha|db1 e e' d Hf Hep Hw w Hfail Hep' Hc'|db1 e e' t r path task Hf Hep Hc Hw Ht Hbind w Hbg Hep' Hc' Htask].
  - destruct (ended_without_report _ _ _ _ _ _ Hok He) as (_ & Hw & _ & Hs & _). split_and!; try done. right. by exists NoReport.
  - destruct (fence_ok _ _ _ _ _ _ Hf) as (Hns & Hweq & _). rewrite <- Hweq in Hw. destruct Hex as (Hend & _).
    destruct (existing_ok _ _ _ _ Ha) as (-> & -> & Htask). split_and!; try done; [by eapply stage_with_wrapup|].
    intros t (op & Hop & Ht)%Htask. by eapply allocation_is_hidden.
  - destruct (fence_ok _ _ _ _ _ _ Hf) as (Hns & Hweq & _). rewrite <- Hweq in Hw.
    destruct (fail_unlaunchable_ok _ _ _ _ _ _ Hw Hfail) as (Hw' & _). split_and!; try done. by eapply stage_with_wrapup.
  - destruct (fence_ok _ _ _ _ _ _ Hf) as (Hns & Hweq & _). rewrite <- Hweq in Hw.
    assert (epi_episode_id e = ews_episode_id spec) as Hid.
    { exact (fenced_key _ _ _ _ _ _ _ Hok Hf Hep). }
    rewrite Hid in *. destruct (begin_wrapup_ok _ _ _ _ _ _ Hw Hbg) as (_ & _ & Hw' & _). split_and!; try done; [by eapply stage_with_wrapup|].
    intros t' [= <-]. by eapply (allocation_is_hidden db' (ews_episode_id spec) w).
Qed.

(** C9: the service that ends an episode, whatever it meets on its way, moves the
    ledger only as the life of an episode allows, without trusting its caller; when
    it returns, the episode is being reported on, or closed, with exactly the ending
    that was asked for, the stored wrap-up is the one it returns, and the task it
    hands out to be launched is a hidden report allocation. *)
Theorem endings_reach_their_report spec fence_at now settle_at db db' r :
  store_wf db → ledger_ok db → begin_episode_report_wrapup spec fence_at now settle_at db = (db', r) →
  store_wf db' ∧ ledger_moves db db' ∧
  ∀ a, r = Commit a →
    td_wrapups db' !! ews_episode_id spec = ewa_wrapup a ∧ td_episodes db' !! ews_episode_id spec = Some (ewa_episode a) ∧
    (stage_of db' (ews_episode_id spec) = Some (StageReporting (ews_ending spec)) ∨
     ∃ o, stage_of db' (ews_episode_id spec) = Some (StageClosed (ews_ending spec) o)) ∧
    (∀ t, ewa_task a = Some t → is_report t = true ∧ task_visible t = false).
Proof.
  intros Hwf Hok Hb. destruct (begin_lawful spec fence_at now settle_at db Hwf Hok) as [Hwf' Hm].
  rewrite Hb in Hwf', Hm. split; [exact Hwf'|]. split; [exact Hm|]. intros a ->.
  eapply admission_stands; [exact Hwf'|exact Hok|apply Hm|by eapply begin_admits].
Qed.

(** ** Again *)

Tactic Notation "svc_run" tactic3(t) := etransitivity; [eapply svc_bind_commit; t|cbv beta].

Lemma begin_existing spec fence_at now settle_at db e w a :
  ews_ending spec ≠ EndStopped → td_episodes db !! ews_episode_id spec = Some e → lifecycle_is_coherent e = true →
  epi_ending e = Some (ews_ending spec) → epi_ending_diagnostic e = ews_diagnostic spec →
  td_wrapups db !! ews_episode_id spec = Some w → restart_fence_is_coherent w = true → admits_existing spec e w →
  _existing_admission e w db = (db, Commit a) →
  begin_episode_report_wrapup spec fence_at now settle_at db = (db, Commit a).
Proof.
  intros Hns He Hc Hend Hd Hw Hco (Hx & Hp & Hcont & Hrec) Ha. unfold begin_episode_report_wrapup.
  assert (Hsw : ask (λ db, store_episode_wrapup db (ews_episode_id spec)) db = (db, Commit (Some w))).
  { unfold ask. rewrite store_wrapup_here, Hw; [done|]. rewrite Hw. by intros w' [= <-]. }
  assert (Hnow : episode_now (ews_episode_id spec) db = (db, Commit e)) by by apply episode_now_here.
  svc_run (unfold ask; by rewrite bool_decide_eq_false_2).
  svc_run (exact Hnow). svc_run (exact Hsw). svc_run reflexivity.
  cbn [is_some negb andb].
  svc_run (unfold transact; by erewrite fence_again).
  svc_run (exact Hnow). destruct (ending_receipt spec e) as [json sha]. injection Hrec as Hj Hs.
  svc_run (exact Hsw). etransitivity; [eapply svc_bind_commit|exact Ha].
  unfold ask. unfold wrap_ending in Hx. rewrite Hx, Hp, Hcont, Hj, Hs. unfold str_eqb.
  by rewrite !bool_decide_eq_true_2, Bool.eqb_reflx by done.
Qed.

Lemma receipt_mode spec e e' : epi_mode e' = epi_mode e → ending_receipt spec e' = ending_receipt spec e.
Proof. unfold ending_receipt. by intros ->. Qed.

Lemma request_round_trip r : report_request_ok r = true → validate_report_request (dump_report_request r) = Commit r.
Proof.
  intros Hr. transitivity (_ ← check_that (report_request_ok r) StoreValueError; Commit r); [by destruct r|]. by rewrite Hr.
Qed.

Lemma request_ok d r : validate_report_request d = Commit r → report_request_ok r = true.
Proof.
  unfold validate_report_request. intros Hv. tx_inv Hv.
  do 7 (apply tx_bind_ok in Hv as (? & _ & Hv)). tx_inv Hv. by injection Hv as <-.
Qed.

Lemma binding_request spec e t u r path : report_binding spec e (Some t) = inl (u, r, path) → report_request_ok r = true.
Proof.
  unfold report_binding. destruct (_binding_diagnostic e (Some t)); [done|]. destruct (_ ≫= _) as [[r' path']|] eqn:Hb; [|done].
  intros [= _ <- _]. apply tx_bind_ok in Hb as (r0 & Hr & Hb). apply tx_bind_ok in Hb as (p & _ & [= -> _]).
  by eapply request_ok.
Qed.

Lemma inserted_report db t cause db' :
  task_kind t = TaskEpisodeReport → task_history_only t = false → _insert_agent_task db t cause = Commit db' →
  store_agent_task db' (task_operation_id t) = Some t.
Proof.
  intros Hk Hh (t' & db1 & _ & Hb & _ & _ & [_ ->]%insert_row_ok & [[= Ht _] _])%insert_task_ok.
  unfold _bind_chat_stage in Hb. unfold is_chat, among in Hb. rewrite Hk in Hb. cbn in Hb. injection Hb as <-.
  unfold store_agent_task. rewrite Ht. cbn. rewrite lookup_insert_eq. cbn. unfold read_task. rewrite decide_False by (by rewrite Hk).
  by rewrite Hh.
Qed.

(** C10: the service can be repeated. Once it returned, a second call with the same
    ending on the store it left, at any later time, changes nothing and returns the
    same episode, wrap-up, task and request. *)
Theorem ending_can_be_repeated spec fence_at now settle_at fence_at' now' settle_at' db db' a :
  store_wf db → ledger_ok db →
  begin_episode_report_wrapup spec fence_at now settle_at db = (db', Commit a) →
  begin_episode_report_wrapup spec fence_at' now' settle_at' db' = (db', Commit a).
Proof.
  intros Hwf Hok Hb%begin_admits.
  destruct Hb as [e Hn Hnb He Hep Hc|e w a Hf Hep Hc Hw Hco Hex Ha|db1 e e' d Hf Hep Hw w Hfail Hep' Hc'|db1 e e' t r path task Hf Hep Hc Hw Ht Hbind w Hbg Hep' Hc' Htask].
  - destruct (ended_without_report _ _ _ _ _ _ Hok He) as (Ht & Hw & _ & _ & Hns & e1 & He1 & Hend & Hd & Hst & Hstop).
    rewrite Hep in He1. injection He1 as <-. unfold begin_episode_report_wrapup.
    assert (Hnow : episode_now (ews_episode_id spec) db' = (db', Commit e)) by by apply episode_now_here.
    svc_run (unfold ask; by rewrite bool_decide_eq_false_2).
    svc_run (exact Hnow).
    svc_run (unfold ask; rewrite store_wrapup_here, Hw; [done|by rewrite Hw]).
    svc_run reflexivity. cbn [is_some negb andb].
    assert (store_agent_task db' (ews_continuation_operation_id spec) = store_agent_task db (ews_continuation_operation_id spec)) as ->
      by (unfold store_agent_task; by rewrite Ht).
    rewrite Hnb. svc_run (unfold transact; by erewrite end_again).
    svc_run (exact Hnow). done.
  - destruct (fence_ok _ _ _ _ _ _ Hf) as (Hns & Hweq & _ & e1 & He1 & Hend & Hd). rewrite Hep in He1. injection He1 as <-.
    rewrite <- Hweq in Hw. by eapply begin_existing.
  - destruct (fence_ok _ _ _ _ _ _ Hf) as (Hns & Hweq & _). rewrite <- Hweq in Hw.
    destruct (fail_unlaunchable_ok _ _ _ _ _ _ Hw Hfail) as (Hw' & Hco & _ & _ & e0 & e2 & He0 & He2 & Hm & Hend & Hd).
    rewrite Hep in He0. injection He0 as <-. rewrite Hep' in He2. injection He2 as <-.
    eapply begin_existing; try done. split_and!; try done. rewrite (receipt_mode _ _ _ Hm). by destruct (ending_receipt spec e).
  - destruct (fence_ok _ _ _ _ _ _ Hf) as (Hns & Hweq & _). rewrite <- Hweq in Hw.
    pose proof (fenced_key _ _ _ _ _ _ _ Hok Hf Hep) as Hid. rewrite Hid in Hbg, Hep'.
    destruct (begin_wrapup_ok _ _ _ _ _ _ Hw Hbg) as (Hco & Hv & Hw' & (db2 & Hi & Hts) & e0 & e2 & He0 & He2 & Hm & Hend & Hd).
    rewrite Hep in He0. injection He0 as <-. rewrite Hep' in He2. injection He2 as <-.
    pose proof (inserted_report db1 (report_task_of spec e t r now) _ _ eq_refl eq_refl Hi) as Hins.
    assert (task = report_task_of spec e t r now) as ->.
    { unfold store_agent_task in Htask, Hins. rewrite Hts in Htask. cbn [task_operation_id report_task_of] in Hins. rewrite Htask in Hins. by injection Hins. }
    assert (task_operation_id t = ews_continuation_operation_id spec) as Hop.
    { destruct (proj1 (fence_keeps _ _ _ _ _ _ Hf) Hwf) as [Hwf1 _]. unfold store_agent_task in Ht.
      destruct (td_tasks db1 !! _) as [row|] eqn:Hrow; [|done]. injection Ht as <-. rewrite <- (sw_keyed _ Hwf1 _ _ Hrow).
      unfold read_task. by destruct (decide _), (task_history_only _). }
    eapply begin_existing; try done.
    + split_and!; try done; [cbn; by rewrite Hop|rewrite (receipt_mode _ _ _ Hm); by destruct (ending_receipt spec e)].
    + unfold _existing_admission. change (wrap_allocation w) with (Some (report_operation_id (ews_episode_id spec))). cbv iota beta.
      svc_run (unfold ask; by rewrite Htask). svc_run (unfold ask; cbn [task_request report_task_of]; by rewrite (request_round_trip r (binding_request _ _ _ _ _ _ Hbind))). done.
Qed.

(** C27: a fenced ending is stranded when its continuation cannot be named: if the
    task is missing, foreign, hidden or itself a report, but has a session, every
    call of the service raises and changes nothing, so that the episode is never
    reported on and never closed by it. *)
Theorem unusable_continuation_strands_episode spec fence_at now settle_at db e :
  ledger_ok db → td_episodes db !! ews_episode_id spec = Some e → stage_of db (ews_episode_id spec) = Some (StageFenced (ews_ending spec)) →
  epi_ending_diagnostic e = ews_diagnostic spec →
  _never_bound_a_session (store_agent_task db (ews_continuation_operation_id spec)) = false →
  concluding_is_visible db (ews_episode_id spec) (ews_continuation_operation_id spec) = false →
  begin_episode_report_wrapup spec fence_at now settle_at db = (db, Abort StoreValueError).
Proof.
  intros Hok He Hs Hd Hnb Hvis. destruct (stage_known _ _ _ Hok He) as (Hc & s & Hs' & Hspec & Hns).
  rewrite Hs in Hs'. injection Hs' as <-. pose proof Hspec as (Hw & _ & Hend & _).
  assert (ews_ending spec ≠ EndStopped) as Hx by (intros Hx; apply Hns; cbn; congruence).
  destruct (lg_episode _ Hok _ _ He) as (Hkey & _).
  assert (Hnow : episode_now (ews_episode_id spec) db = (db, Commit e)) by by apply episode_now_here.
  assert (Hsw : ask (λ db, store_episode_wrapup db (ews_episode_id spec)) db = (db, Commit None)).
  { unfold ask. rewrite store_wrapup_here, Hw; [done|by rewrite Hw]. }
  unfold begin_episode_report_wrapup.
  svc_run (unfold ask; by rewrite bool_decide_eq_false_2). svc_run (exact Hnow). svc_run (exact Hsw). svc_run reflexivity.
  rewrite Hnb. cbn [is_some negb andb]. svc_run (unfold transact; by erewrite fence_again).
  svc_run (exact Hnow). destruct (ending_receipt spec e) as [json sha]. svc_run (exact Hsw). svc_run reflexivity.
  assert (∃ d, report_binding spec e (store_agent_task db (ews_continuation_operation_id spec)) = inr d) as [d ->].
  { unfold report_binding. unfold concluding_is_visible in Hvis. unfold store_agent_task.
    destruct (td_tasks db !! _) as [row|]; [|by eexists]. cbn [fmap option_fmap option_map].
    unfold _binding_diagnostic. destruct (read_task_columns row) as (-> & -> & -> & ->).
    destruct (negb (str_eqb _ _) || _) eqn:Hl; [by eexists|]. apply orb_false_iff in Hl as [_ Hl%negb_false_iff].
    rewrite <- Hkey, Hl in Hvis. cbn [andb] in Hvis. destruct (negb (task_visible row) || _) eqn:Hv; [by eexists|].
    apply orb_false_iff in Hv as [Hv%negb_false_iff Hr]. rewrite Hv, Hr in Hvis. done. }
  unfold _fail_unlaunchable. unfold mbind at 1, svc_bind, transact, fail_episode_wrapup_unlaunchable.
  set (w := unlaunchable_wrapup _ _ _ _ _). destruct (check_that (restart_fence_is_coherent w && _ && _ && _ && _ && _ && _ && _) _) as [[]|err] eqn:Hchk.
  2:{ cbn. unfold check_that in Hchk. destruct (_ && _) in Hchk; [done|]. by injection Hchk as <-. }
  cbn. unfold load_episode, _episode_record. rewrite He. cbn. rewrite Hc. cbn. rewrite Hw.
  unfold stage_spec in Hspec. destruct Hspec as (_ & _ & _ & _ & ->). cbn. unfold conclusion_ok. cbn. by rewrite Hvis.
Qed.
End laws.
