(* ===== verification/Instances.v ===== *)
(** Reference instances of the interfaces the kernel leaves to libraries: a node
    adapter that parses the documents the kernel writes and obeys
    [NodeAdapterLaws], adapters of nested records, ASCII text functions and a
    digest.  Every theorem stated against the interfaces applies to them.  Then a
    concrete project: a graph, Patches and settings on which the theorems are
    applied and the executable definitions run. *)

From Stdlib Require Import Ascii.
From S2P Require Export Durability.

(** ** Fields of a document *)

Section fields.
Implicit Types (d : pydict) (k : string).

(** A string, with the default of an absent key ([None]: required). *)
Definition str_field d k (default : option string) : option string :=
  match dget d k with Some (PStr s) => Some s | None => default | _ => None end.

Definition opt_str_field d k : option (option string) :=
  match dget d k with Some (PStr s) => Some (Some s) | Some PNone | None => Some None | _ => None end.

Definition literal_field d k (default : string) (legal : list string) : option string :=
  s ← str_field d k (Some default); if mem s legal then Some s else None.

Definition int_field d k (default least : Z) : option Z :=
  match dget d k with
  | Some (PInt z) => if (least <=? z)%Z then Some z else None
  | None => Some default
  | _ => None
  end.

Definition bool_field d k : option bool :=
  match dget d k with Some (PBool b) => Some b | None => Some false | _ => None end.

Definition time_field d k : option (option Z) :=
  match dget d k with Some (PTime t) => Some (Some t) | Some PNone | None => Some None | _ => None end.

Definition list_field {A} (parse : pyval → option A) d k : option (list A) :=
  match dget d k with Some (PList l) => mapM parse l | None => Some [] | _ => None end.

Definition parse_str (v : pyval) : option string :=
  match v with PStr s => Some s | _ => None end.

Definition as_dict (v : pyval) : option pydict :=
  match v with PDict d | PModel _ d => Some d | _ => None end.
End fields.

(** ** Nested records *)

Definition parse_source_ref (v : pyval) : option SourceRef :=
  d ← as_dict v;
  machine ← str_field d "machine" None; repo ← str_field d "truth_repository" None;
  source ← str_field d "source" None; session ← str_field d "session_id" None;
  uuid ← str_field d "record_uuid" None; t ← time_field d "timestamp"; t ← t;
  excerpt ← str_field d "excerpt" None;
  Some {| sr_machine := machine; sr_truth_repository := repo; sr_source := source;
          sr_session_id := session; sr_record_uuid := uuid; sr_timestamp := t;
          sr_excerpt := excerpt |}.

Definition parse_pin (v : pyval) : option ExperimentDecisionPin :=
  d ← as_dict v;
  id ← str_field d "decision_id" None; rev ← int_field d "decision_revision" (-1) 0;
  o ← str_field d "selected_option" None;
  if truthy o then Some {| pin_decision_id := id; pin_decision_revision := rev; pin_selected_option := o |}
  else None.

Definition parse_debug (v : pyval) : option ExperimentAttemptDebug :=
  d ← as_dict v;
  fault ← str_field d "mechanical_fault" None; change ← str_field d "change" None;
  effect ← str_field d "predicted_effect" None;
  Some {| dbg_mechanical_fault := fault; dbg_change := change; dbg_predicted_effect := effect |}.

Definition parse_attempt (v : pyval) : option ExperimentAttempt :=
  d ← as_dict v;
  id ← str_field d "id" None; sequence ← int_field d "sequence" 1 1;
  purpose ← str_field d "purpose" None;
  kind ← literal_field d "attempt_kind" "external_run" ["external_run"; "proposal_only"];
  bundle ← list_field parse_pin d "decision_bundle";
  debug ← match dget d "debug" with
          | None | Some PNone => Some None | Some v => Some <$> parse_debug v end;
  configuration ← str_field d "configuration" (Some "");
  status ← literal_field d "status" "planned"
             ["planned"; "submitted"; "running"; "failed"; "completed"; "cancelled"; "superseded"];
  jobs ← list_field parse_str d "job_refs"; refs ← list_field parse_source_ref d "source_refs";
  outcome ← opt_str_field d "outcome"; failure ← opt_str_field d "failure_reason";
  started ← time_field d "started_at"; finished ← time_field d "finished_at";
  Some {| att_id := id; att_sequence := sequence; att_purpose := purpose; att_kind := kind;
          att_decision_bundle := bundle; att_debug := debug; att_configuration := configuration;
          att_status := status; att_job_refs := jobs; att_source_refs := refs;
          att_outcome := outcome; att_failure_reason := failure; att_started_at := started;
          att_finished_at := finished |}.

(** ** Nodes *)

Definition parse_base (d : pydict) : option BaseNode :=
  id ← str_field d "id" None; title ← str_field d "title" None;
  ext ← opt_str_field d "extension_type";
  fields ← match dget d "extension_fields" with
           | None => Some [] | Some v => as_dict v end;
  standing ← str_field d "standing" (Some "asserted"); standing ← standing_of standing;
  created ← int_field d "created_rev" 0 0; updated ← int_field d "updated_rev" 0 0;
  refs ← list_field parse_source_ref d "source_refs";
  Some {| bn_id := id; bn_title := title; bn_extension_type := ext;
          bn_extension_fields := list_to_map fields; bn_standing := standing;
          bn_created_rev := created; bn_updated_rev := updated; bn_source_refs := refs;
          bn_fields_set := list_to_set (dkeys d) |}.

Definition parse_decision (d : pydict) : option DecisionNode :=
  question ← str_field d "question" None; options ← list_field parse_str d "options";
  selected ← opt_str_field d "selected_option"; rationale ← opt_str_field d "rationale";
  consequences ← list_field parse_str d "consequences";
  status ← literal_field d "status" "open" ["open"; "ready"; "decided"; "revisit"; "superseded"];
  Some {| dec_question := question; dec_options := options; dec_selected_option := selected;
          dec_rationale := rationale; dec_consequences := consequences; dec_status := status |}.

Definition parse_experiment (d : pydict) : option ExperimentNode :=
  objective ← str_field d "objective" None; design ← str_field d "design" (Some "");
  outcomes ← list_field parse_str d "expected_outcomes";
  rules ← list_field parse_str d "interpretation_rules";
  criteria ← list_field parse_str d "completion_criteria";
  ceiling ← int_field d "invocation_ceiling" 5 1;
  status ← literal_field d "status" "proposed"
    ["proposed"; "designing"; "implementing"; "debugging"; "running"; "analyzing"; "completed";
     "unspecified"; "abandoned"; "superseded"];
  attempts ← list_field parse_attempt d "attempts";
  summary ← str_field d "current_summary" (Some ""); action ← opt_str_field d "next_action";
  summary_stale ← bool_field d "current_summary_stale";
  action_stale ← bool_field d "next_action_stale";
  Some {| exp_objective := objective; exp_design := design; exp_expected_outcomes := outcomes;
          exp_interpretation_rules := rules; exp_completion_criteria := criteria;
          exp_invocation_ceiling := ceiling; exp_status := status; exp_attempts := attempts;
          exp_current_summary := summary; exp_next_action := action;
          exp_current_summary_stale := summary_stale; exp_next_action_stale := action_stale |}.

Definition parse_payload (d : pydict) : option NodePayload :=
  type ← str_field d "type" None;
  if decide (type = "research_question") then
    question ← str_field d "question" None; motivation ← str_field d "motivation" (Some "");
    scope ← str_field d "scope" (Some "");
    status ← literal_field d "status" "open" ["open"; "answered"; "abandoned"; "superseded"];
    Some (NResearchQuestion {| rq_question := question; rq_motivation := motivation;
                               rq_scope := scope; rq_status := status |})
  else if decide (type = "hypothesis") then
    statement ← str_field d "statement" None; rationale ← str_field d "rationale" (Some "");
    predictions ← list_field parse_str d "predictions"; scope ← str_field d "scope" (Some "");
    status ← literal_field d "status" "proposed"
      ["proposed"; "active"; "supported"; "weakened"; "rejected"; "superseded"];
    Some (NHypothesis {| hyp_statement := statement; hyp_rationale := rationale;
                         hyp_predictions := predictions; hyp_scope := scope; hyp_status := status |})
  else if decide (type = "decision") then NDecision <$> parse_decision d
  else if decide (type = "experiment") then NExperiment <$> parse_experiment d
  else if decide (type = "evidence") then
    observation ← str_field d "observation" None;
    interpretation ← str_field d "interpretation" (Some "");
    role ← literal_field d "role" "result" ["result"; "diagnostic"];
    strength ← opt_str_field d "legacy_strength";
    validity ← literal_field d "validity" "valid" ["valid"; "qualified"; "invalid"; "superseded"];
    origin ← literal_field d "origin" "unknown"
      ["internal_run"; "external_publication"; "external_instance"; "analytic"; "unknown"];
    artifacts ← list_field parse_str d "artifact_refs";
    Some (NEvidence {| ev_observation := observation; ev_interpretation := interpretation;
                       ev_role := role; ev_legacy_strength := strength; ev_validity := validity;
                       ev_origin := origin; ev_artifact_refs := artifacts |})
  else if decide (type = "blocker") then
    description ← str_field d "description" None;
    kind ← literal_field d "blocker_type" "unknown"
      ["scientific"; "design"; "data"; "implementation"; "infrastructure"; "unknown"];
    status ← literal_field d "status" "open" ["open"; "resolved"; "superseded"];
    condition ← str_field d "resolution_condition" (Some "");
    action ← opt_str_field d "recommended_action";
    Some (NBlocker {| blk_description := description; blk_blocker_type := kind;
                      blk_status := status; blk_resolution_condition := condition;
                      blk_recommended_action := action |})
  else None.

Definition parse_node (d : pydict) : option ProjectNode :=
  b ← parse_base d; p ← parse_payload d; Some {| node_base := b; node_payload := p |}.

(** The checks that make an answer acceptable. *)
Definition int_kept (d : pydict) (k : string) (z : Z) : bool :=
  match dget d k with Some (PInt z') => (z =? z')%Z | _ => true end.

Definition flag_kept (d : pydict) (k : string) (flag : ExperimentNode → bool) (n : ProjectNode) : bool :=
  match dget d k, as_experiment n with
  | Some (PBool b), Some e => eqb (flag e) b
  | _, _ => true
  end.

Definition acceptable (d : pydict) (n : ProjectNode) : bool :=
  get_is (dget d "type") (node_type_str (node_type n)) && get_is (dget d "id") (node_id n) &&
  forallb (λ k, mem k (node_fields (node_type n))) (dkeys d) &&
  match dget d "status" with
  | Some (PStr s) => bool_decide (node_status n = Some s) | Some _ => false | None => true end &&
  match dget d "extension_type" with
  | Some v => bool_decide (v = py_opt_str (node_extension_type n)) | None => true end &&
  int_kept d "created_rev" (node_created_rev n) && int_kept d "updated_rev" (node_updated_rev n) &&
  match dget d "standing" with
  | Some (PStr s) => str_eqb s (standing_str (node_standing n)) | _ => true end &&
  flag_kept d "current_summary_stale" exp_current_summary_stale n &&
  flag_kept d "next_action_stale" exp_next_action_stale n.

Definition reference_validate (d : pydict) : res ProjectNode :=
  match parse_node d with
  | Some n => if acceptable d n then Ok n else Raise ValidationError
  | None => Raise ValidationError
  end.

#[export] Instance reference_adapter : NodeAdapter := {|
  validate_python := reference_validate; validate_python_strict := reference_validate;
  parse_datetime := λ _, Raise ValueError |}.

Lemma dmem_dkeys d k : dmem d k = true → k ∈ dkeys d.
Proof.
  unfold dmem, dkeys. induction d as [|[k' v] d IH]; simpl; [done|].
  case_decide as Hk; [intros _; subst; by left|]. intros Hd. right. by apply IH.
Qed.

Lemma standing_str_inj s t : standing_str s = standing_str t → s = t.
Proof. by destruct s, t. Qed.

Lemma acceptable_accepts d n : acceptable d n = true → accepts d n.
Proof.
  unfold acceptable. rewrite !andb_true_iff.
  intros [[[[[[[[[H1 H2] H3] H4] H5] H6] H7] H8] H9] H10].
  apply get_is_true in H1, H2. rewrite forallb_forall in H3. unfold int_kept, flag_kept in *.
  constructor; try done.
  - intros k Hk%dmem_dkeys. left. apply mem_true, H3, list_elem_of_In, Hk.
  - intros v Hv. rewrite Hv in H4. destruct v as [| | | |s| | | |]; try done. exists s. by apply bool_decide_eq_true in H4.
  - intros v Hv. rewrite Hv in H5. by apply bool_decide_eq_true in H5.
  - intros z Hz. rewrite Hz in H6. by apply Z.eqb_eq in H6.
  - intros z Hz. rewrite Hz in H7. by apply Z.eqb_eq in H7.
  - intros s Hs. rewrite Hs in H8. apply bool_decide_eq_true in H8. symmetry. by apply standing_str_inj.
  - intros b e Hb He. rewrite Hb, He in H9. by apply eqb_prop in H9.
  - intros b e Hb He. rewrite Hb, He in H10. by apply eqb_prop in H10.
Qed.

Lemma reference_validate_accepts d n : reference_validate d = Ok n → accepts d n.
Proof.
  unfold reference_validate. destruct (parse_node d) as [m|]; [|done].
  destruct (acceptable d m) eqn:Ha; [|done]. intros [= <-]. by apply acceptable_accepts.
Qed.

#[export] Instance reference_laws : NodeAdapterLaws.
Proof. split; apply reference_validate_accepts. Qed.

(** ** The other interfaces *)

Definition of_option {A} (o : option A) : res A :=
  match o with Some a => Ok a | None => Raise ValidationError end.

#[export] Instance reference_records : RecordAdapter := {|
  validate_source_ref := λ v, of_option (parse_source_ref v);
  validate_attempt := λ v, of_option (parse_attempt v);
  attempt_json := attempt_dict Dumped |}.

Definition ascii_lower (c : ascii) : ascii :=
  let n := nat_of_ascii c in
  if ((65 <=? n) && (n <=? 90))%nat then ascii_of_nat (n + 32) else c.

Fixpoint string_lower (s : string) : string :=
  match s with EmptyString => "" | String c s => String (ascii_lower c) (string_lower s) end.

#[export] Instance reference_text : TextLib := {|
  nfkc_casefold := string_lower;
  split_words := λ s, bfilter truthy (split_on " " s);
  ratio_at_least_078 := str_eqb;
  find_identifiers := λ _, [];
  is_blank := all_chars (λ c, bool_decide (c = " "%char));
  text_of := λ _, "" |}.

#[export] Instance reference_hash : CanonicalHash := λ d,
  match d with
  | DocOperations _ => "operations" | DocTransition _ _ _ _ _ _ => "transition"
  | DocEvent _ _ _ _ _ _ _ _ => "event"
  | DocBranchMerge id _ _ _ _ => "merge-" +:+ id
  end.

(** ** A small graph *)

Definition base_of (id title : string) (t : NodeType) : BaseNode :=
  {| bn_id := id; bn_title := title; bn_extension_type := None; bn_extension_fields := ∅;
     bn_standing := Asserted; bn_created_rev := 1; bn_updated_rev := 1; bn_source_refs := [];
     bn_fields_set := list_to_set (node_fields t) |}.

Definition question_node : ProjectNode :=
  {| node_base := base_of "rq/transfer" "Transfer" TResearchQuestion;
     node_payload := NResearchQuestion {| rq_question := "Does it transfer?"; rq_motivation := "";
                                          rq_scope := ""; rq_status := "open" |} |}.

Definition hypothesis_node (id status : string) : ProjectNode :=
  {| node_base := base_of id "Hypothesis" THypothesis;
     node_payload := NHypothesis {| hyp_statement := "It transfers."; hyp_rationale := "";
                                    hyp_predictions := []; hyp_scope := ""; hyp_status := status |} |}.

Definition decision_node (id status : string) (selected : option string) : ProjectNode :=
  {| node_base := base_of id "Which model" TDecision;
     node_payload := NDecision {| dec_question := "Which model?"; dec_options := ["small"; "large"];
                                  dec_selected_option := selected; dec_rationale := None;
                                  dec_consequences := []; dec_status := status |} |}.

Definition experiment_node (id summary : string) : ProjectNode :=
  {| node_base := base_of id "Probe" TExperiment;
     node_payload := NExperiment {|
       exp_objective := "Measure transfer"; exp_design := ""; exp_expected_outcomes := [];
       exp_interpretation_rules := []; exp_completion_criteria := []; exp_invocation_ceiling := 3;
       exp_status := "running"; exp_attempts := []; exp_current_summary := summary;
       exp_next_action := Some "Run it"; exp_current_summary_stale := false;
       exp_next_action_stale := false |} |}.

Definition blocker_node (id status : string) : ProjectNode :=
  {| node_base := base_of id "No GPU" TBlocker;
     node_payload := NBlocker {| blk_description := "No GPU"; blk_blocker_type := "infrastructure";
                                 blk_status := status; blk_resolution_condition := "";
                                 blk_recommended_action := None |} |}.

Definition evidence_node (id : string) : ProjectNode :=
  {| node_base := base_of id "Result" TEvidence;
     node_payload := NEvidence {| ev_observation := "It moved"; ev_interpretation := "";
                                  ev_role := "result"; ev_legacy_strength := None;
                                  ev_validity := "valid"; ev_origin := "internal_run";
                                  ev_artifact_refs := [] |} |}.

Definition edge_of (source relation target : string) (layer : RelationLayer) : Edge :=
  {| edge_id := generated_edge_id source relation target; edge_source := source;
     edge_target := target; edge_relation := relation; edge_layer_ := layer;
     edge_explanation := ""; edge_assessment := None; edge_created_rev := 1 |}.

Definition keyed_map {V} (id : V → string) (l : list V) : gmap string V :=
  list_to_map ((λ v, (id v, v)) <$> l).

Definition graph_of (nodes : list ProjectNode) (edges : list Edge) (proposals : list Proposal) :
    GraphState :=
  set_revision 1 (set_nodes (λ _, keyed_map node_id nodes) (set_edges (λ _, keyed_map edge_id edges)
    (set_proposals (λ _, keyed_map prop_id proposals) (initial_state ["repo"])))).

Definition project : GraphState :=
  graph_of
    [question_node; hypothesis_node "hyp/transfer" "active"; decision_node "dec/model" "decided" (Some "small");
     decision_node "dec/data" "ready" None; experiment_node "exp/probe" "Setting up";
     blocker_node "blk/gpu" "resolved"]
    [edge_of "rq/transfer" "has_hypothesis" "hyp/transfer" Epistemic;
     edge_of "exp/probe" "tests" "hyp/transfer" Seam;
     edge_of "exp/probe" "governed_by" "dec/model" Action;
     edge_of "exp/probe" "blocked_by" "blk/gpu" Action] [].

(** ** Patches and settings *)

Definition user : AuthorizedHuman :=
  {| ah_space_id := "space"; ah_user_id := "user"; ah_display_name := "User" |}.

Definition patch_of (kind : PatchKind) (author : Role) (producer : Producer)
    (profile : option AgentProfile) (ops : list GraphOperation) : Patch :=
  {| p_schema_generation := 2; p_revision := 2; p_kind := kind; p_author := Some author;
     p_producer := producer; p_created_at := 100; p_summary := "Work"; p_ops := ops;
     p_run_truth_scope := ["repo"]; p_repositories_read := []; p_processed_cursors := ∅;
     p_change_summary := []; p_source_operation_id := None; p_source_effect_id := None;
     p_source_effect_sha256 := None; p_human_action := None; p_agent_action := None;
     p_admission := AdmissionAccepted; p_admission_messages := [];
     p_experiment_control_node_id := None; p_experiment_decision_bundle := [];
     p_project_identity := None; p_project_home_transfer := None;
     p_authorized_by := Some user; p_profile := profile; p_task_id := Some "task";
     p_episode_id := None; p_branch_merge := None; p_transition := None |}.

Definition settings_of (mode : Mode) : Settings :=
  {| cfg_project_truth_scope := ["repo"]; cfg_repository_aliases := None;
     cfg_machine_aliases := None; cfg_default_run_truth_scope := None;
     cfg_state_repository := None; cfg_mode := mode; cfg_experiment_control_node_id := None;
     cfg_experiment_decision_bundle := None |}.

Definition update_of (id : string) (changes : list (string * pyval)) (cause : option BeliefCause) :
    NodeUpdate :=
  {| nu_id := id; nu_changes := list_to_map changes; nu_cause := cause; nu_base_updated_rev := None |}.

Definition new_edge (source relation target : string) : NewEdge :=
  {| ne_id := None; ne_source := source; ne_target := target; ne_relation := relation;
     ne_explanation := ""; ne_assessment := None |}.

(** An agent adds a blocker and rewrites the Experiment's next step. *)
Definition work_patch : Patch :=
  patch_of KWork RAgent PAgent (Some Ordinary)
    [CreateNodes [blocker_node "blk/quota" "open"]; CreateEdges [new_edge "exp/probe" "blocked_by" "blk/quota"];
     UpdateNodes [update_of "exp/probe" [("next_action", PStr "Ask for quota")] None]].

(** The edge is written before the node it ends at. *)
Definition forward_patch : Patch :=
  patch_of KWork RAgent PAgent (Some Ordinary)
    [CreateEdges [new_edge "exp/probe" "blocked_by" "blk/quota"]; CreateNodes [blocker_node "blk/quota" "open"]].

(** ** Reading results *)

Definition ok_or {A} (d : A) (r : res A) : A := match r with Ok a => a | Raise _ => d end.

Lemma ok_or_ok {A} (d : A) (r : res A) : is_ok r = true → r = Ok (ok_or d r).
Proof. by destruct r. Qed.

(** Evaluates a closed decidable goal or a closed equation of booleans. *)
Ltac evaluate := first [done | by vm_compute | by_decide].

Lemma project_wf : graph_wf project.
Proof. split; unfold keyed; by_decide. Qed.

(** [project] after a Patch. *)
Definition after (p : Patch) : GraphState := ok_or project (apply_valid_patch project p).

Definition applied (p : Patch) : GraphState * list RepositoryDescriptor :=
  ok_or (project, []) (_apply_patch project p [] []).

Lemma applied_ok p : is_ok (_apply_patch project p [] []) = true →
  _apply_patch project p [] [] = Ok ((applied p).1, (applied p).2).
Proof. unfold applied. by destruct (_apply_patch project p [] []) as [[]|]. Qed.

Lemma after_ok p : is_ok (apply_valid_patch project p) = true →
  apply_valid_patch project p = Ok (after p).
Proof. apply ok_or_ok. Qed.
