(* ===== verification/Witnesses.v ===== *)
(** The theorems at work: each lemma applies one theorem of the development to
    the concrete project of [Instances], discharging its hypotheses by
    evaluation. *)

From S2P Require Export Instances Legacy.

(** ** Control and authority *)

Lemma experiment_graph_control_ready_iff_witness : decision_settled project "dec/model".
Proof.
  apply (proj1 (proj1 (experiment_graph_control_ready_iff project "exp/probe"
    {| egc_ready := true; egc_reasons := [] |} ltac:(by vm_compute)) eq_refl)
    (generated_edge_id "exp/probe" "governed_by" "dec/model")
    (edge_of "exp/probe" "governed_by" "dec/model" Action)); evaluate.
Defined.

Lemma fresh_bundle_has_no_drift_witness :
  nodes_keyed project ∧ decision_drift project (governing_decision_bundle project "exp/probe") = [].
Proof.
  split; [exact (wf_nodes _ project_wf)|].
  apply (fresh_bundle_has_no_drift project "exp/probe"), (wf_nodes _ project_wf).
Defined.

Definition control_example : ExperimentControlState :=
  ok_or {| ecs_ready := false; ecs_reasons := []; ecs_graph_reasons := []; ecs_invocations_used := 0;
           ecs_invocation_ceiling := 0; ecs_invocations_remaining := 0; ecs_episode_id := None;
           ecs_paused := false; ecs_active := false; ecs_governing_decisions := [];
           ecs_decision_drift := []; ecs_operational := default_operational |}
    (derive_experiment_control_state project "exp/probe" [] None 0 None false false None None).

Lemma control_state_coherent_witness : ecs_ready control_example = true ↔ ecs_reasons control_example = [].
Proof.
  refine (proj1 (control_state_coherent project "exp/probe" [] None 0 None false false None None
    control_example _ _ eq_refl)).
  apply ok_or_ok. by vm_compute.
Defined.

Lemma active_flow_exact_witness :
  generated_edge_id "exp/probe" "blocked_by" "blk/gpu" ∉ afp_edge_ids (active_flow_projection project false).
Proof.
  rewrite (active_flow_exact project false _ (edge_of "exp/probe" "blocked_by" "blk/gpu" Action));
    [|evaluate].
  intros Hall. destruct (Hall "blk/gpu") as (n & Hn & Hb); [by right|].
  assert (n = blocker_node "blk/gpu" "resolved") as ->.
  { apply (inj Some). rewrite <-Hn. evaluate. }
  by apply (Hb eq_refl _ eq_refl).
Defined.

Lemma attention_exact_witness : ∃ a, project_graph_attention project = Ok a ∧
  "dec/data" ∈ gap_decisions_awaiting_choice_ids a.
Proof.
  destruct (attention_exact project (wf_nodes _ project_wf) (wf_proposals _ project_wf))
    as (a & Ha & _ & Hd & _).
  exists a. split; [done|]. apply Hd. exists (decision_node "dec/data" "ready" None). split; evaluate.
Defined.

Lemma agent_cannot_change_belief_witness : ∃ a,
  a ∈ operation_actions project work_patch (RemoveNodes ["hyp/transfer"]) ∧ permits work_patch a = false.
Proof. apply agent_cannot_change_belief; evaluate. Defined.

Definition chat_dispatch : AgentDispatchAuthority :=
  {| ada_profile := Ordinary; ada_task_contract := WorkAuto;
     ada_scope := {| ads_run_truth_scope := ["repo"]; ads_episode_id := None;
                     ads_chat_scope := Some ScopeProject; ads_chat_id := Some "chat";
                     ads_node_id := None; ads_patch_kind := Some KWork;
                     ads_control_node_id := None; ads_control_episode_id := None |} |}.

Definition chat_authority : AgentTaskAuthority :=
  {| ata_operation_id := "op"; ata_project_id := "project"; ata_apply_target := main_target;
     ata_authorized_by := Some user; ata_dispatch_authority := Some chat_dispatch;
     ata_episode_id := None |}.

Lemma require_apply_sound_witness : require_dispatch chat_dispatch = Ok chat_dispatch.
Proof.
  refine (proj1 (require_apply_sound (λ _ u, str_eqb u "user") chat_authority work_patch chat_dispatch _)).
  by vm_compute.
Defined.

(** The same work in a scope written twice over. *)
Definition rescoped (p : Patch) (scope : list string) : Patch :=
  patch_copy p (p_revision p) (p_created_at p) (p_summary p) (p_ops p) scope (p_repositories_read p)
    (p_processed_cursors p) (p_change_summary p) (p_human_action p) (p_agent_action p)
    (p_admission p) (p_admission_messages p) (p_transition p).

Lemma require_apply_scope_order_witness :
  require_apply (λ _ _, true) chat_authority (rescoped work_patch ["repo"; "repo"]) =
  require_apply (λ _ _, true) chat_authority work_patch.
Proof. apply require_apply_scope_order; evaluate. Defined.

Lemma proposal_dependencies_cover_witness :
  "hyp/transfer" ∈ (proposal_dependencies project [ProposalRemoval false ["hyp/transfer"]]).1.1.
Proof.
  refine (proj1 (proposal_dependencies_cover project [ProposalRemoval false ["hyp/transfer"]]
    _ _ _ (ProposalRemoval false ["hyp/transfer"]) _ _) _ _); [by rewrite <-!surjective_pairing|by left|by left].
Defined.

(** ** Materialization *)

Lemma apply_patch_wf_witness : graph_wf (applied work_patch).1.
Proof.
  eapply (apply_patch_wf work_patch project [] []); [exact project_wf|].
  apply applied_ok. by vm_compute.
Defined.

Lemma apply_patch_identity_witness : ∃ n,
  gs_nodes (applied work_patch).1 !! "exp/probe" = Some n ∧ descends work_patch project "exp/probe" n.
Proof.
  destruct (gs_nodes (applied work_patch).1 !! "exp/probe") as [n|] eqn:Hn; [|vm_compute in Hn; discriminate].
  exists n. split; [done|]. eapply (apply_patch_identity work_patch project [] []);
    [exact project_wf| |exact Hn]. apply applied_ok. by vm_compute.
Defined.

Lemma apply_patch_frame_witness :
  gs_nodes (applied work_patch).1 !! "hyp/transfer" = gs_nodes project !! "hyp/transfer".
Proof.
  eapply (apply_patch_frame work_patch project [] []);
    [exact project_wf|apply applied_ok; by vm_compute|by_decide..].
Defined.

(** A human concludes from the result. *)
Definition conclude_patch : Patch :=
  patch_of KApproval RHuman PHuman None
    [UpdateNodes [update_of "hyp/transfer" [("status", PStr "supported")] (Some HumanEditCause)]].

Lemma apply_patch_belief_log_witness : ∃ new,
  gs_belief_transitions (applied conclude_patch).1 = gs_belief_transitions project ++ new ∧
  Forall (logged conclude_patch) new.
Proof.
  destruct (apply_patch_belief_log conclude_patch project [] [] (applied conclude_patch).1
    (applied conclude_patch).2 project_wf) as (new & Hn & Hl & _); [apply applied_ok; by vm_compute|eauto].
Defined.

Definition forward_edge : Edge :=
  {| edge_id := generated_edge_id "exp/probe" "blocked_by" "blk/quota"; edge_source := "exp/probe";
     edge_target := "blk/quota"; edge_relation := "blocked_by"; edge_layer_ := Action;
     edge_explanation := ""; edge_assessment := None; edge_created_rev := 2 |}.

Definition node_at (st : GraphState) (id : string) : ProjectNode :=
  default question_node (gs_nodes st !! id).

Lemma node_at_some st id : is_some (gs_nodes st !! id) = true → gs_nodes st !! id = Some (node_at st id).
Proof. unfold node_at. by destruct (gs_nodes st !! id). Qed.

Lemma apply_patch_layers_witness :
  edge_layer_ forward_edge = Meta ∨ edge_layer_ forward_edge = Action.
Proof.
  refine (or_ind (or_introl (B := _)) _ (apply_patch_layers forward_patch project [] []
    (applied forward_patch).1 (applied forward_patch).2 (edge_id forward_edge) forward_edge
    (node_at (applied forward_patch).1 "exp/probe") (node_at (applied forward_patch).1 "blk/quota")
    project_wf _ _ _ _ _)).
  - intros ->. right. by vm_compute.
  - apply applied_ok. by vm_compute.
  - by_decide.
  - by vm_compute.
  - apply node_at_some. by vm_compute.
  - apply node_at_some. by vm_compute.
Defined.

Lemma apply_patch_log_witness : gs_revision (applied work_patch).1 = 2%Z.
Proof.
  refine (proj1 (apply_patch_log work_patch project [] [] (applied work_patch).1 (applied work_patch).2
    project_wf _)).
  apply applied_ok. by vm_compute.
Defined.

Lemma batch_is_staged_witness : is_ok (stage_ops forward_patch project (p_ops forward_patch)) = true.
Proof.
  pose proof (batch_is_staged forward_patch project project_wf eq_refl) as Hb.
  destruct (stage_ops _ _ _); [done|]. vm_compute in Hb. discriminate.
Defined.

Lemma batch_is_staged_exactly_witness :
  apply_valid_patch project work_patch =
    Ok (close_patch work_patch (ok_or project (stage_ops work_patch project (p_ops work_patch)))).
Proof.
  apply batch_is_staged_exactly; [exact project_wf|done|done|]. apply ok_or_ok. by vm_compute.
Defined.

(** ** Persisted documents *)

Definition old_document : pydict :=
  [("kind", PStr "approval"); ("campaign_id", PStr "ep");
   ("ops", PList [PDict [("op", PStr "create_nodes");
                         ("nodes", PList [PDict [("type", PStr "evidence"); ("strength", PStr "diagnostic")];
                                          PDict [("type", PStr "experiment"); ("status", PStr "blocked");
                                                 ("next_action", PStr "Wait")]])];
                  PDict [("op", PStr "remove_nodes"); ("intent", PStr "removal")];
                  PDict [("op", PStr "create_proposals");
                         ("proposals", PList [PDict [("ops", PList [PDict [("op", PStr "set_ontology")]])]])]])].

Definition adapted_document : pydict := ok_or [] (adapt_persisted_patch_document old_document).

Lemma adapt_patch_document_idempotent_witness :
  adapted_document ≠ old_document ∧ adapt_persisted_patch_document adapted_document = Ok adapted_document.
Proof.
  split; [by_decide|]. apply (adapt_patch_document_idempotent old_document). apply ok_or_ok. by vm_compute.
Defined.

(** ** The routing manifest is not conservative

    Removing a blocker changes what an Experiment depends on, but no trigger of
    the manifest names the operation. *)

Definition without_blocker : GraphState :=
  ok_or project (apply_valid_operation project work_patch (RemoveNodes ["blk/gpu"])).

Example removal_changes_dependencies :
  dependency_changed project without_blocker "exp/probe" = Ok true ∧
  existsb (λ t, str_eqb (trg_operation t) (op_name (RemoveNodes ["blk/gpu"])))
    (ttm_triggers transition_trigger_manifest) = false.
Proof. split; by vm_compute. Qed.

(** ** Retiring Evidence

    [supersede_nodes] writes a status, and Evidence has none: the operation never
    applies to it. *)

Example evidence_cannot_be_superseded :
  let st := put_node (evidence_node "ev/result") project in
  apply_valid_operation st work_patch
    (SupersedeNodes [{| sn_id := "ev/result"; sn_superseded_by := None; sn_explanation := "Stale";
                        sn_cause := None |}]) = Raise ValidationError.
Proof. by vm_compute. Qed.
