(* ===== verification/WitnessFlows.v ===== *)
(** The theorems on Proposals, approvals, loops, acceptance, transitions and
    replay, applied to the concrete project of [Instances]. *)

From S2P Require Export Instances.

(** ** Proposals and approvals *)

Definition card : GatedCard :=
  {| gc_situation_cold := "The data are in."; gc_why_human_now := "The choice gates the run.";
     gc_consequences := "The run starts."; gc_decision_needed := "Pick the model." |}.

Definition proposal_of (ops : list ProposalOperation) (nodes : list string) : Proposal :=
  {| prop_id := "prop/choose"; prop_title := "Choose"; prop_card := card; prop_ops := ops;
     prop_related_node_ids := nodes; prop_related_edge_ids := []; prop_related_config_keys := [];
     prop_base_rev := 1; prop_status := PPending; prop_created_by := RAgent;
     prop_created_by_operation_id := None; prop_raised_rev := 1; prop_resolved_rev := None;
     prop_resolved_by := None; prop_resolved_by_operation_id := None;
     prop_resolution_reason := None; prop_rejection_reason := None; prop_fields_set := ∅ |}.

(** A pending belief change, and the graph that holds it. *)
Definition belief_update : NodeUpdate :=
  update_of "hyp/transfer" [("status", PStr "supported")] (Some (DecisionCause "dec/model")).
Definition pending : Proposal :=
  proposal_of [ProposalStatusChange false [belief_update]] ["hyp/transfer"; "dec/model"].
Definition proposed : GraphState := set_proposals (λ _, {[prop_id pending := pending]}) project.

Lemma proposed_wf : graph_wf proposed.
Proof. split; unfold keyed; by_decide. Qed.

Definition elsewhere : Patch := work_patch.

Lemma not_stale_unchanged_witness : ∃ n, gs_nodes proposed !! "dec/model" = Some n ∧
  gs_nodes (ok_or (proposed, []) (_apply_patch proposed elsewhere [] [])).1 !! "dec/model" = Some n.
Proof.
  set (r := ok_or (proposed, []) (_apply_patch proposed elsewhere [] [])).
  refine (proj1 (not_stale_unchanged elsewhere pending proposed [] [] r.1 r.2 proposed_wf _ _ _) _ _).
  - rewrite <-surjective_pairing. apply ok_or_ok. by vm_compute.
  - by vm_compute.
  - by vm_compute.
  - by_decide.
Defined.

Definition open_choice : DecisionNode :=
  {| dec_question := "Which data?"; dec_options := ["small"; "large"]; dec_selected_option := None;
     dec_rationale := None; dec_consequences := []; dec_status := "ready" |}.

Lemma decision_transition_coherent_witness :
  let changes : gmap string pyval :=
    list_to_map [("selected_option", PStr "small"); ("status", PStr "decided")] in
  decision_transition_error open_choice changes = None ∧
  in_options (PStr "small") (py_strs (dec_options open_choice)) = true.
Proof.
  split; [by vm_compute|].
  destruct (decision_transition_coherent open_choice
    (list_to_map [("selected_option", PStr "small"); ("status", PStr "decided")])) as (Hd & _).
  { by vm_compute. }
  apply Hd. by vm_compute.
Defined.

(** An option chosen without the status a Decision must take. *)
Definition choice_proposal : Proposal :=
  proposal_of [ProposalContentChange false
    [update_of "dec/data" [("selected_option", PStr "large")] None]] ["dec/data"].

Definition choice_stored : list GraphOperation :=
  ok_or [] (graph_operations_from_proposal (prop_ops choice_proposal)).
Definition choice_normalized : list GraphOperation :=
  ok_or [] (normalized_decision_proposal_ops project choice_proposal).

Lemma normalized_ops_idempotent_witness :
  normalize_op project <$> choice_normalized = choice_normalized ∧ choice_normalized ≠ choice_stored.
Proof.
  split; [|by_decide].
  eapply (normalized_ops_idempotent project choice_proposal choice_stored choice_normalized);
    apply ok_or_ok; by vm_compute.
Defined.

(** The human approves the belief change, and refuses it. *)
Definition approve : ProposalResolution := {| pr_id := "prop/choose"; pr_status := Approved; pr_reason := None |}.
Definition refuse : ProposalResolution :=
  {| pr_id := "prop/choose"; pr_status := Rejected; pr_reason := Some "Not yet." |}.

Definition approval_patch : Patch :=
  patch_of KApproval RHuman PHuman None [UpdateNodes [belief_update]; ResolveProposals [approve]].
Definition refusal_patch : Patch :=
  patch_of KApproval RHuman PHuman None [ResolveProposals [refuse]].

Definition shape_report (p : Patch) : ValidationReport :=
  ok_or [] (validate_approval_shape proposed p ModeAdmission).

Lemma approval_replays_proposal_witness : ∃ q,
  gs_proposals proposed !! "prop/choose" = Some q ∧ prop_status q = PPending.
Proof.
  destruct (approval_replays_proposal proposed approval_patch ModeAdmission approve
    (shape_report approval_patch)) as (q & _ & _ & Hq & Hp & _).
  - done.
  - done.
  - apply ok_or_ok. by vm_compute.
  - by vm_compute.
  - by exists q.
Defined.

Lemma refusal_has_no_effect_witness : semantic_ops refusal_patch = [].
Proof.
  refine (proj1 (refusal_has_no_effect proposed refusal_patch ModeAdmission refuse
    (shape_report refusal_patch) _ _ _ _ _)); [done|done|done| |by vm_compute].
  apply ok_or_ok. by vm_compute.
Defined.

(** ** Experiment loops *)

Definition attempt_of (id status : string) (sequence : Z) (pinned : list ExperimentDecisionPin) :
    ExperimentAttempt :=
  {| att_id := id; att_sequence := sequence; att_purpose := "Probe"; att_kind := "external_run";
     att_decision_bundle := pinned; att_debug := None; att_configuration := ""; att_status := status;
     att_job_refs := []; att_source_refs := []; att_outcome := None; att_failure_reason := None;
     att_started_at := None; att_finished_at := None |}.

Definition pinned_bundle : list ExperimentDecisionPin := governing_decision_bundle project "exp/probe".

Lemma attempts_append_only_witness : ∃ kept appended,
  [attempt_of "a1" "completed" 1 []; attempt_of "a2" "planned" 2 pinned_bundle] = kept ++ appended ∧
  Forall2 (λ before after, attempt_fixed before = attempt_fixed after ∧
    (before = after ∨ terminal before = false ∧ terminal after = true))
    [attempt_of "a1" "running" 1 []] kept.
Proof.
  destruct (attempts_append_only "exp/probe" [attempt_of "a1" "running" 1 []]
    [attempt_of "a1" "completed" 1 []; attempt_of "a2" "planned" 2 pinned_bundle]
    pinned_bundle false (Some 2%Z)) as (kept & appended & Hk & Hf & _); [by vm_compute|eauto].
Defined.

Definition loop_patch : Patch :=
  patch_of KExperimentLoop RAgent PAgent (Some Ordinary)
    [UpdateNodes [update_of "exp/probe" [("current_summary", PStr "First run done")] None];
     CreateNodes [blocker_node "blk/quota" "open"];
     CreateEdges [new_edge "exp/probe" "blocked_by" "blk/quota"]].

Definition loop_report : ValidationReport :=
  ok_or [] (validate_experiment_loop_authority project loop_patch (Some "exp/probe") pinned_bundle
              ModeAdmission).

Lemma loop_authority_bounded_witness : ∃ n,
  gs_nodes project !! "exp/probe" = Some n ∧ is_some (as_experiment n) = true.
Proof.
  destruct (loop_authority_bounded project loop_patch (Some "exp/probe") pinned_bundle ModeAdmission
    loop_report) as (n & Hn & He & _); [apply ok_or_ok; by vm_compute|by vm_compute|].
  exists n. split; [exact Hn|exact He].
Defined.

(** ** Acceptance *)

Lemma operations_depth_irrelevant_example :
  operations_at 2 (initial_context project work_patch (settings_of ModeAdmission)) = Ok ([], None).
Proof. by vm_compute. Qed.

Lemma accepted_patch_applies_witness : ∃ st, apply_valid_patch project work_patch = Ok st ∧ graph_wf st.
Proof.
  apply (accepted_patch_applies project work_patch (settings_of ModeAdmission));
    [exact project_wf|done|by vm_compute].
Defined.

Lemma agent_patch_keeps_beliefs_witness :
  gs_nodes (after work_patch) !! "hyp/transfer" = Some (hypothesis_node "hyp/transfer" "active").
Proof.
  apply (agent_patch_keeps_beliefs project work_patch (settings_of ModeAdmission));
    [exact project_wf|done|done|done|by vm_compute|apply after_ok; by vm_compute|by vm_compute|done].
Defined.

Lemma project_closed : closed project.
Proof.
  assert (map_Forall (λ _ e, is_Some (gs_nodes project !! edge_source e) ∧
    is_Some (gs_nodes project !! edge_target e)) (gs_edges project)) as Hc by by_decide.
  intros k e He. destruct (Hc k e He). by split; left.
Qed.

Lemma accepted_patch_closed_witness : closed (after forward_patch).
Proof.
  apply (accepted_patch_closed project forward_patch (settings_of ModeAdmission));
    [exact project_wf|exact project_closed|done|by vm_compute| |apply after_ok; by vm_compute].
  intros x _. by intros ?%elem_of_nil.
Defined.

(** ** Transitions *)

Definition work_actions : list (Patch * GraphOperation) := source_actions [work_patch].

Definition work_timeline : timeline :=
  (ok_or ([], project) (_apply_timeline project work_actions)).1.
Definition work_causes : gmap string nat := ok_or ∅ (_dependency_change_causes work_timeline).

(** The new blocker edge is what makes the guidance stale. *)
Lemma dependency_cause_is_first_witness : ∃ pre b a post,
  work_timeline = pre ++ (1, b, a) :: post ∧ moved (1, b, a) "exp/probe".
Proof.
  destruct (proj1 (dependency_cause_is_first work_timeline work_causes "exp/probe" 1
    ltac:(apply ok_or_ok; by vm_compute)) ltac:(by vm_compute)) as (pre & b & a & post & Ht & Hm & _).
  eauto 10.
Defined.

Definition work_closure : timeline * timeline * list (GraphOperation * nat) * GraphState :=
  ok_or ([], [], [], project) (transition_closure 128 project work_patch work_actions).

Definition staged_work : GraphState :=
  (ok_or ([], project) (_apply_timeline project work_actions)).2.

Lemma closure_settles_guidance_witness : ∃ e, get_experiment work_closure.2 "exp/probe" = Some e.
Proof.
  destruct (closure_settles_guidance 128 project work_patch work_actions work_closure.1.1.1
    work_closure.1.1.2 work_closure.1.2 work_closure.2 project_wf) as (init & causes & Hi & Hc & _ & He).
  { rewrite <-!surjective_pairing. apply ok_or_ok. by vm_compute. }
  assert (init = staged_work) as -> by (unfold staged_work; by rewrite Hi).
  destruct (get_experiment staged_work "exp/probe") as [e|] eqn:Hx; [|vm_compute in Hx; discriminate].
  destruct (He "exp/probe" e FSummary Hx) as (e' & He' & _). eauto.
Defined.

Lemma work_one_producer : ∀ first, head [work_patch] = Some first → one_producer first [work_patch].
Proof.
  intros first [= <-]. split; [| | | |intros _]; try by_decide; intros p ->%list_elem_of_singleton; done.
Qed.

Definition prepared_work : res PreparedTransition := prepare_validated 128 project [work_patch] None.

Lemma prepared_transition_round_trip_witness : ∃ r, prepared_work = Ok r ∧
  validate_transition_trace project (prt_patch r) = Ok (recovered (prt_patch r) <$> [work_patch]).
Proof.
  destruct prepared_work as [r|] eqn:Hr; [|vm_compute in Hr; discriminate].
  exists r. split; [done|].
  by apply (prepared_transition_round_trip 128 project [work_patch] None r Hr work_one_producer).
Defined.

Definition committed_work : Patch :=
  match prepared_work with Ok r => prt_patch r | Raise _ => work_patch end.

Lemma trace_binds_patch_witness :
  is_ok (validate_transition_trace project committed_work) = true ∧
  ((p_ops committed_work = p_ops committed_work ∧
    producer_envelope committed_work = producer_envelope committed_work) ∨
   ∃ d d', d ≠ d' ∧ _sha256 d = _sha256 d').
Proof.
  split; [by vm_compute|].
  eapply (trace_binds_patch project project committed_work committed_work); [done| |];
    apply (ok_or_ok []); by vm_compute.
Defined.

(** ** Replay *)

Definition replay_cfg : Settings := settings_of ModeReplay.

Definition with_rev (p : Patch) (revision : Z) : Patch :=
  patch_copy p revision (p_created_at p) (p_summary p) (p_ops p) (p_run_truth_scope p)
    (p_repositories_read p) (p_processed_cursors p) (p_change_summary p) (p_human_action p)
    (p_agent_action p) (p_admission p) (p_admission_messages p) (p_transition p).

Definition seed_patch : Patch :=
  with_rev (patch_of KSeed RAgent PAgent (Some Ordinary)
    [CreateNodes [question_node; hypothesis_node "hyp/transfer" "active"; experiment_node "exp/probe" ""];
     CreateEdges [new_edge "rq/transfer" "has_hypothesis" "hyp/transfer"; new_edge "exp/probe" "tests" "hyp/transfer"]]) 1.

(** A Patch that skips a revision degrades the replay. *)
Definition skipping_patch : Patch := with_rev work_patch 7.

Definition replayed (l : list Patch) : GraphState :=
  mat_state (materialize_patches replay_cfg l ["repo"]).

Lemma replay_is_incremental_witness :
  replayed ([seed_patch; skipping_patch] ++ [work_patch]) = replayed [seed_patch; skipping_patch] ∧
  gs_replay_status (replayed [seed_patch; skipping_patch]) = ReplayDegraded.
Proof.
  unfold replayed. split; [|by vm_compute].
  rewrite (replay_is_incremental replay_cfg ["repo"] [seed_patch; skipping_patch] [work_patch]).
  rewrite decide_False; [done|]. by_decide.
Defined.

Lemma replayed_graph_wf_witness : graph_wf (replayed [seed_patch; forward_patch]).
Proof. apply (replayed_graph_wf replay_cfg ["repo"] [seed_patch; forward_patch]). Defined.

Lemma replay_revisions_consecutive_witness :
  p_revision forward_patch = (gs_revision (replayed [seed_patch]) + 1)%Z.
Proof.
  refine (proj2 (replay_revisions_consecutive replay_cfg ["repo"] [seed_patch] forward_patch [] _) _ _);
    [by vm_compute|done|done].
Defined.

Definition loop_start : Materialization :=
  {| mat_state := project; mat_reports := ∅; mat_descriptors := []; mat_cursors := ∅;
     mat_observed := [] |}.

Lemma committed_transition_replays_witness : ∃ r, prepared_work = Ok r ∧
  mat_state (replay_step replay_cfg loop_start (recorded [] (prt_patch r))).1 =
    add_messages [] (ptp_graph (prt_projection r)).
Proof.
  destruct prepared_work as [r|] eqn:Hr; [|vm_compute in Hr; discriminate].
  exists r. split; [done|].
  refine (proj2 (committed_transition_replays replay_cfg 128 [work_patch] None r loop_start
    (validate_sources replay_cfg 1 project [work_patch]).1 [] Hr work_one_producer _ _ eq_refl)).
  - assert ((validate_sources replay_cfg 1 project [work_patch]).2 = false) as Hf by by vm_compute.
    rewrite <-Hf. apply surjective_pairing.
  - by vm_compute.
Defined.

(** ** Replay under other settings *)

(** The settings of [replay_cfg] with one more repository. *)
Definition grown_cfg : Settings :=
  {| cfg_project_truth_scope := ["repo"]; cfg_repository_aliases := Some ["repo"; "extra"];
     cfg_machine_aliases := Some ["local"]; cfg_default_run_truth_scope := Some ["repo"];
     cfg_state_repository := Some "repo"; cfg_mode := ModeReplay;
     cfg_experiment_control_node_id := None; cfg_experiment_decision_bundle := None |}.
Definition registered_cfg (mode : Mode) : Settings :=
  {| cfg_project_truth_scope := ["repo"]; cfg_repository_aliases := Some ["repo"];
     cfg_machine_aliases := Some ["local"]; cfg_default_run_truth_scope := Some ["repo"];
     cfg_state_repository := Some "repo"; cfg_mode := mode;
     cfg_experiment_control_node_id := None; cfg_experiment_decision_bundle := None |}.

Lemma admitted_patch_replays_witness :
  rejected (validate_source_patch project work_patch grown_cfg) = false.
Proof.
  apply (admitted_patch_replays project work_patch (registered_cfg ModeAdmission) grown_cfg); [|by vm_compute].
  by split; try by_decide.
Defined.

Lemma replay_survives_growth_witness :
  mat_state (materialize_patches grown_cfg [seed_patch; forward_patch] ["repo"]) =
  mat_state (materialize_patches (registered_cfg ModeReplay) [seed_patch; forward_patch] ["repo"]).
Proof.
  symmetry. refine (proj1 (replay_survives_growth (registered_cfg ModeReplay) grown_cfg ["repo"]
    [seed_patch; forward_patch] _ _)); [|by vm_compute].
  intros st. by split; try by_decide.
Defined.
