(* ===== verification/WitnessHistory.v ===== *)
(** The theorems on the manifest, on attribution and on the writers of main,
    applied to a concrete project directory. *)

From S2P Require Export Witnesses WitnessFlows.

(** ** A manifest *)

Definition no_profiles : AgentProfiles :=
  {| apr_seed := None; apr_refresh := None; apr_node_chat := None; apr_project_chat := None;
     apr_paper_coach := None; apr_orchestrator := None |}.

(** A manifest with the legacy execution section, and one repository of two in
    its truth scope. *)
Definition document : Manifest :=
  {| mf_name := "Transfer"; mf_machines := ["local"];
     mf_repositories := [{| rc_alias := "repo"; rc_machine := "local"; rc_path := "." |};
                         {| rc_alias := "extra"; rc_machine := "local"; rc_path := "../extra" |}];
     mf_truth_scope := ["repo"]; mf_state_repository := "repo"; mf_default_run_truth_scope := ["repo"];
     mf_auto_research_ceiling := 10; mf_workflow_ids := []; mf_skill_ids := [];
     mf_profiles := no_profiles; mf_execution_run_on := Some "local"; mf_paper_coach := None |}.

Definition manifest : Manifest := ok_or document (load_manifest document).

Lemma manifest_loads : load_manifest document = Ok manifest.
Proof. apply ok_or_ok. by vm_compute. Qed.

Lemma loaded_manifest_coherent_witness : manifest_ok manifest.
Proof. exact (proj1 (loaded_manifest_coherent document manifest manifest_loads)). Defined.

Lemma load_manifest_idempotent_witness : load_manifest manifest = Ok manifest.
Proof. exact (load_manifest_idempotent document manifest manifest_loads). Defined.

(** ** Attribution *)

(** A host that knows one task, and one member. *)
Definition host : HistoryConfig :=
  {| hc_expected_space_id := None; hc_project_id := Some "project"; hc_require_attribution := true;
     hc_agent_authority_resolver := Some (λ _ op, if decide (op = "op") then Ok chat_authority
                                                  else Raise (KeyError op));
     hc_project_membership_check := Some (λ _ u, str_eqb u "user") |}.

(** The work Patch as its agent submits it: it names its operation only. *)
Definition submitted : Patch :=
  {| p_schema_generation := 2; p_revision := 0; p_kind := KWork; p_author := Some RAgent;
     p_producer := PAgent; p_created_at := 100; p_summary := "Work"; p_ops := p_ops work_patch;
     p_run_truth_scope := ["repo"]; p_repositories_read := []; p_processed_cursors := ∅;
     p_change_summary := []; p_source_operation_id := Some "op"; p_source_effect_id := None;
     p_source_effect_sha256 := None; p_human_action := None; p_agent_action := None;
     p_admission := AdmissionAccepted; p_admission_messages := [];
     p_experiment_control_node_id := None; p_experiment_decision_bundle := [];
     p_project_identity := None; p_project_home_transfer := None; p_authorized_by := None;
     p_profile := None; p_task_id := None; p_episode_id := None; p_branch_merge := None;
     p_transition := None |}.

Definition stamped : Patch :=
  ok_or submitted (_stamp_attribution_for_admission host submitted None main_target).

Lemma attribution_is_canonical_witness :
  p_authorized_by stamped = Some user ∧ p_task_id stamped = Some "op".
Proof.
  assert (_stamp_attribution_for_admission host submitted None main_target = Ok stamped) as Hs.
  { apply ok_or_ok. by vm_compute. }
  destruct (attribution_is_canonical host submitted None main_target stamped eq_refl Hs ltac:(done))
    as (_ & _ & Htask). destruct (Htask ltac:(done)) as [_ Ht].
  destruct Ht as (project & operation & resolver & member & auth & d & _ & Hop & Hres & _ & Hauth & _ & _ & _ & _ &
    Hby & _ & _ & Htid & _).
  injection Hop as <-. injection Hres as <-. cbn in Hauth. injection Hauth as <-. by split.
Defined.

(** ** A project directory *)

Definition entry (p : Patch) : LogEntry :=
  {| le_revision := p_revision p; le_mtime := 0; le_document := inl p |}.

(** A project with the seed of [WitnessFlows] in its log. *)
Definition seeded : Store :=
  {| st_log := [entry seed_patch]; st_scope_base := ScopeRecorded ["repo"]; st_document := document;
     st_branches := ∅; st_repair_required := false; st_branch_repairs := ∅;
     st_accepted_revision := None |}.

Definition local_host : HistoryConfig :=
  {| hc_expected_space_id := None; hc_project_id := None; hc_require_attribution := false;
     hc_agent_authority_resolver := None; hc_project_membership_check := None |}.

Definition env_with (publication : Publication) : Env :=
  {| env_now := 200; env_uuid := "6f1c2a34-5b6d-4e7f-8a9b-0c1d2e3f4a5b"; env_publication := publication;
     env_repair_publishes := true |}.

Definition options (expected : option Z) (raise discard : bool) : AppendOptions :=
  {| ao_raise_on_reject := raise; ao_discard_on_reject := discard; ao_expected_revision := expected;
     ao_allow_identity_claim := false; ao_authorized_by := None |}.

Lemma seeded_log : log_at seeded manifest [seed_patch] ["repo"].
Proof.
  split; [exact manifest_loads| |by repeat constructor].
  split; [done..|]. by vm_compute.
Qed.

Lemma seeded_ok : log_ok seeded.
Proof. by exists manifest, [seed_patch], ["repo"]; apply seeded_log. Qed.

Lemma seeded_loads m : load_manifest (st_document seeded) = Ok m → m = manifest.
Proof. cbn [seeded st_document]. rewrite manifest_loads. by intros [= <-]. Qed.

Lemma single_submittable c p : p_ops p ≠ [] → NoDup (p_run_truth_scope p) → NoDup (p_repositories_read p) →
  decodable p → p_branch_merge p = None → submittable c [p].
Proof.
  intros Hne Hs Hr Hd Hm. split.
  - intros first [= <-]. split; try done.
    + by intros q ->%list_elem_of_singleton.
    + by intros q ->%list_elem_of_singleton.
    + by intros _ q ->%list_elem_of_singleton.
  - by repeat constructor.
  - intros first prov [= <-]. by rewrite Hm.
Qed.

Lemma single_submission c p : p_ops p ≠ [] → NoDup (p_run_truth_scope p) → NoDup (p_repositories_read p) →
  decodable p → p_branch_merge p = None → submission c p.
Proof. intros Hne ????. unfold submission. rewrite decide_False by naive_solver. by apply single_submittable. Qed.

Lemma work_submission c : submission c work_patch.
Proof. apply single_submission; try done; by_decide. Qed.

#[local] Opaque _append_locked append_batch_from_state preview_batch_from_state claim_project_identity _replay.

Lemma run_done {A} (run : Store * outcome A) a : run.2 = Done a → run = (run.1, Done a).
Proof. by destruct run; intros [= ->]. Qed.

Definition is_done {A} (o : outcome A) : bool := match o with Done _ => true | Failed _ => false end.

Definition append_work (publication : Publication) : Store * outcome (Patch * MaterializationResult) :=
  _append_locked local_host (env_with publication) work_patch (options (Some 1%Z) true true) seeded.

Lemma append_keeps_log_witness :
  is_done (append_work PublishOk).2 = true ∧
  append_outcome one_patch seeded (append_work PublishOk).1 (append_work PublishOk).2.
Proof.
  split; [by vm_compute|].
  apply (append_keeps_log local_host (env_with PublishOk) work_patch (options (Some 1%Z) true true)).
  - exact seeded_ok.
  - by vm_compute.
  - intros m _. apply work_submission.
  - exact (surjective_pairing (append_work PublishOk)).
Defined.

(** The host cannot tell whether the commit landed. *)
Definition unpublished : Store * outcome (Patch * MaterializationResult) :=
  append_work (PublishRaises true CommitUnknown).


(** ** A batch and its preview *)

Definition draft : GraphState → list Patch := λ _, [work_patch].

Lemma draft_submittable c : submittable c [work_patch].
Proof. apply single_submittable; try done; by_decide. Qed.

Definition batch : Store * outcome (list Patch * MaterializationResult) :=
  append_batch_from_state local_host (env_with PublishOk) draft (Some 1%Z) None seeded.

Lemma batch_keeps_log_witness : is_done batch.2 = true ∧ log_ok batch.1.
Proof.
  split; [by vm_compute|].
  destruct (batch_keeps_log local_host (env_with PublishOk) draft (Some 1%Z) None seeded batch.1 batch.2 seeded_ok eq_refl
    (λ m _, draft_submittable _) (surjective_pairing batch)) as (written & [Ho _ _] & _). exact Ho.
Defined.

Definition previewed : Store * outcome PreparedTransition :=
  preview_batch_from_state local_host draft 1 None seeded.

Lemma preview_is_committed_witness : ∃ prt s' x, previewed.2 = Done prt ∧
  batch = (s', Done ([prt_patch prt], x)) ∧
  mr_state x = add_messages (p_admission_messages (prt_patch prt)) (ptp_graph (prt_projection prt)).
Proof.
  assert (previewed.1 = seeded) as Hs by by vm_compute.
  assert (match previewed.2 with
          | Done r => bool_decide (gs_project_truth_scope (ptp_graph (prt_projection r)) = mf_truth_scope manifest)
          | Failed _ => false end = true) as Hscope by by vm_compute.
  destruct previewed.2 as [prt|] eqn:Hp; [|done]. apply bool_decide_eq_true in Hscope.
  assert (preview_batch_from_state local_host draft 1 None seeded = (seeded, Done prt)) as Hrun.
  { change (previewed = (seeded, Done prt)). by rewrite (surjective_pairing previewed), Hs, Hp. }
  destruct (preview_is_committed local_host (env_with PublishOk) draft None 1 seeded manifest prt seeded_ok
    manifest_loads I eq_refl eq_refl (draft_submittable _) Hrun Hscope eq_refl) as (s' & x & Hb & Hx).
  exists prt, s', x. split; [reflexivity|]. split; [exact Hb|exact Hx].
Defined.

(** ** Refusals *)

Lemma stale_write_refused_witness :
  ∃ s' e, _append_locked local_host (env_with PublishOk) work_patch (options (Some 7%Z) true true) seeded = (s', Failed e) ∧
    st_log s' = st_log seeded.
Proof.
  refine (proj1 (stale_write_refused local_host (env_with PublishOk) work_patch (options (Some 7%Z) true true)
    draft None 7 seeded manifest seeded_ok manifest_loads _ eq_refl)).
  assert (gs_revision (mr_state (_replay manifest seeded)) = 1%Z) as -> by by vm_compute. done.
Defined.

(** A Patch that updates a node that is not there, kept as a rejection. *)
Definition wrong_patch : Patch :=
  patch_of KWork RAgent PAgent (Some Ordinary) [UpdateNodes [update_of "exp/none" [("next_action", PStr "?")] None]].

Lemma messages_keep_nodes ms rev st : gs_nodes (add_messages ms (set_revision rev st)) = gs_nodes st.
Proof. done. Qed.

Lemma wrong_submission c : submission c wrong_patch.
Proof. apply single_submission; try done; by_decide. Qed.

Definition kept_rejection : Store * outcome (Patch * MaterializationResult) :=
  _append_locked local_host (env_with PublishOk) wrong_patch (options None false false) seeded.

Lemma rejected_append_is_inert_witness : ∃ w result,
  kept_rejection.2 = Done (w, result) ∧ p_admission w = AdmissionRejected ∧
  gs_nodes (mr_state result) = gs_nodes (mr_state (_replay manifest seeded)).
Proof.
  assert (match kept_rejection.2 with
          | Done x => bool_decide (p_admission x.1 = AdmissionRejected) | Failed _ => false end = true) as Hrej
    by by vm_compute.
  destruct kept_rejection.2 as [[w result]|] eqn:Hr; [|done]. apply bool_decide_eq_true in Hrej.
  exists w, result. split; [done|]. split; [done|].
  assert (_append_locked local_host (env_with PublishOk) wrong_patch (options None false false) seeded =
    (kept_rejection.1, Done (w, result))) as Hrun.
  { exact (run_done kept_rejection _ Hr). }
  rewrite (rejected_append_is_inert local_host (env_with PublishOk) wrong_patch (options None false false) seeded
    kept_rejection.1 w result manifest seeded_ok manifest_loads eq_refl (wrong_submission _) Hrun Hrej). apply messages_keep_nodes.
Defined.

(** A manager that knows its space, for a project nobody claimed. *)
Definition space_host : HistoryConfig :=
  {| hc_expected_space_id := Some "6f1c2a34-5b6d-4e7f-8a9b-0c1d2e3f4a5b"; hc_project_id := None;
     hc_require_attribution := false; hc_agent_authority_resolver := None; hc_project_membership_check := None |}.

Definition claimed : Store * outcome ProjectIdentity :=
  claim_project_identity space_host (env_with PublishOk) "created" None (set_log_entries [] seeded).

Definition stranger : HistoryConfig :=
  {| hc_expected_space_id := Some "0d0d2a34-5b6d-4e7f-8a9b-0c1d2e3f4a5b"; hc_project_id := None;
     hc_require_attribution := false; hc_agent_authority_resolver := None; hc_project_membership_check := None |}.

Lemma claimed_log : ∃ l, log_at claimed.1 manifest l ["repo"].
Proof.
  exists (decode_log (st_log claimed.1)).1. split; [by vm_compute| |].
  - split; by vm_compute.
  - assert (bool_decide (Sorted Z.le (le_revision <$> st_log claimed.1)) = true) as Hs by by vm_compute.
    by apply bool_decide_eq_true in Hs.
Qed.

Lemma claimed_ok : log_ok claimed.1.
Proof. destruct claimed_log as [l Hl]. by exists manifest, l, ["repo"]. Qed.

Definition home_differs (o : outcome (option ProjectIdentity)) (space : string) : bool :=
  match o with Done (Some i) => negb (str_eqb (pi_home_space_id i) space) | _ => false end.

Lemma home_differs_spec o space : home_differs o space = true →
  ∃ i, o = Done (Some i) ∧ pi_home_space_id i ≠ space.
Proof.
  destruct o as [[i|]|]; [|done..]. intros Hi%negb_true_iff%bool_decide_eq_false. by exists i.
Qed.

Lemma foreign_home_refused_witness :
  _append_locked stranger (env_with PublishOk) work_patch (options None true true) claimed.1 =
    (claimed.1, Failed ProjectIdentityConflict).
Proof.
  destruct (home_differs_spec (_project_identity_from_replay (_replay manifest claimed.1) None)
    "0d0d2a34-5b6d-4e7f-8a9b-0c1d2e3f4a5b") as (i & Hid & Hi); [by vm_compute|].
  assert (load_manifest (st_document claimed.1) = Ok manifest) as Hm by by vm_compute.
  exact (proj1 (foreign_home_refused stranger (env_with PublishOk) work_patch (options None true true) draft None None
    (λ _ d, Ok d) claimed.1 manifest _ (Some i) claimed_ok Hm eq_refl Hid Hi)).
Defined.

(** ** Merges *)

Definition episode : string := "1b9d6bcd-bbfd-4b2d-9b5d-ab8dfbbd4bed".

Definition provenance_of (merge_id : string) (head : GraphHeadRef) : BranchMergeProvenance :=
  {| bmp_merge_id := merge_id; bmp_branch_id := episode; bmp_episode_id := episode;
     bmp_branch_base_head := {| head_target := main_target; head_revision := 1; head_transition_id := None |};
     bmp_branch_head := {| head_target := branch_target episode; head_revision := 2;
                           head_transition_id := Some merge_id |};
     bmp_rebased_main_head := head; bmp_merge_task_id := "merge" |}.

Definition merge_patch (merge_id node : string) (head : GraphHeadRef) : Patch :=
  {| p_schema_generation := 2; p_revision := 0; p_kind := KWork; p_author := Some RAgent;
     p_producer := PAgent; p_created_at := 100; p_summary := "Merge";
     p_ops := [CreateNodes [blocker_node node "open"]; CreateEdges [new_edge "exp/probe" "blocked_by" node]];
     p_run_truth_scope := ["repo"]; p_repositories_read := []; p_processed_cursors := ∅;
     p_change_summary := []; p_source_operation_id := Some "merge"; p_source_effect_id := None;
     p_source_effect_sha256 := None; p_human_action := None; p_agent_action := None;
     p_admission := AdmissionAccepted; p_admission_messages := [];
     p_experiment_control_node_id := None; p_experiment_decision_bundle := [];
     p_project_identity := None; p_project_home_transfer := None; p_authorized_by := Some user;
     p_profile := Some Orchestrator; p_task_id := Some "merge"; p_episode_id := Some episode;
     p_branch_merge := Some (provenance_of merge_id head); p_transition := None |}.

Definition append_merge (merge_id node : string) (s : Store) : Store * outcome (Patch * MaterializationResult) :=
  _append_locked local_host (env_with PublishOk)
    (merge_patch merge_id node (main_pre_head (_replay manifest s))) (options None true true) s.

Definition merged : Store := (append_merge "merge-one" "blk/one" seeded).1.

Lemma merged_ok : log_ok merged.
Proof.
  assert (submission (_replay manifest seeded)
    (merge_patch "merge-one" "blk/one" (main_pre_head (_replay manifest seeded)))) as Hsub.
  { unfold submission. rewrite decide_False by by intros [? _]. split.
    - intros first [= <-]. split; try by intros q ->%list_elem_of_singleton.
      + by_decide.
      + by_decide.
      + by intros _ q ->%list_elem_of_singleton.
    - by repeat constructor.
    - by intros first prov [= <-] [= <-]. }
  destruct (append_run local_host (env_with PublishOk) _ (options None true true) seeded merged _ manifest [seed_patch] ["repo"]
    seeded_log eq_refl Hsub (surjective_pairing _)) as (written & [Ho _ _] & _). exact Ho.
Qed.

Lemma is_done_run {A} (run : Store * outcome A) : is_done run.2 = true → ∃ a, run = (run.1, Done a).
Proof. destruct run as [s [a|]]; [|done]. by exists a. Qed.

Definition second_merge : Patch := merge_patch "merge-two" "blk/two" (main_pre_head (_replay manifest merged)).

Lemma merge_commits_once_witness : ∃ s' w result,
  _append_locked local_host (env_with PublishOk) second_merge (options None true true) merged = (s', Done (w, result)) ∧
  ∀ q provenance, q ∈ mr_patches (_replay manifest merged) → p_admission q = AdmissionAccepted →
    p_branch_merge q = Some provenance → bmp_merge_id provenance ≠ "merge-two".
Proof.
  assert (load_manifest (st_document merged) = Ok manifest) as Hm by by vm_compute.
  destruct (is_done_run (_append_locked local_host (env_with PublishOk) second_merge (options None true true) merged))
    as ([w result] & Hr); [by vm_compute|].
  do 3 eexists. split; [exact Hr|].
  exact (merge_commits_once local_host (env_with PublishOk) second_merge (options None true true) merged _ w result
    manifest (provenance_of "merge-two" (main_pre_head (_replay manifest merged))) merged_ok Hm Hr eq_refl).
Defined.
