(* ===== verification/WitnessMerge.v ===== *)
(** The theorems on the merge of a branch, applied to a branch of the project of
    [WitnessHistory] that records a blocker. *)

From S2P Require Export WitnessHistory MergeCommit MergeLaws.

(** ** A branch and a merge *)

Definition base_graph : GraphState := mr_state (_replay manifest seeded).
Definition base_head : GraphHeadRef := main_pre_head (_replay manifest seeded).

(** The branch records a blocker; its own head is at revision 2. *)
Definition branch_graph : GraphState :=
  ok_or base_graph (apply_valid_patch base_graph (at_revision 2 (merge_patch "merge-one" "blk/one" base_head))).

(** Main after somebody rewrote the next step of the seeded Experiment. *)
Definition moved_graph : GraphState :=
  ok_or base_graph (apply_valid_patch base_graph (at_revision 2
    (patch_of KWork RAgent PAgent (Some Ordinary) [UpdateNodes [update_of "exp/probe" [("next_action", PStr "Wait")] None]]))).

Definition branch_head : GraphHeadRef :=
  {| head_target := branch_target episode; head_revision := gs_revision branch_graph; head_transition_id := Some "t" |}.

Definition metadata : GraphBranchMetadata :=
  {| gbm_branch_id := episode; gbm_episode_id := episode; gbm_project_id := "project"; gbm_base_head := base_head;
     gbm_head := branch_head; gbm_created_at := 100; gbm_authorized_by := user |}.

Definition merge_input : MergeInput :=
  {| mi_merge_task_id := "merge"; mi_authorized_by := user; mi_metadata := metadata;
     mi_eligibility := {| bme_branch_head := branch_head; bme_episode_ending := "complete";
                          bme_active_branch_writer_task_ids := [] |};
     mi_base_graph := base_graph; mi_branch_graph := branch_graph; mi_main_head := base_head;
     mi_main_graph := base_graph; mi_run_truth_scope := ["repo"]; mi_branch_patch_summaries := [] |}.

#[local] Instance one_hash : ContextHash := λ i, mi_merge_task_id i.

Definition empty_context : BranchMergeContext :=
  {| mc_context_id := ""; mc_input := merge_input;
     mc_semantic_delta := {| gd_base_head := base_head; gd_branch_head := branch_head; gd_nodes := []; gd_edges := [];
                             gd_proposals := []; gd_ambiguities := []; gd_glossary := []; gd_globals := [] |};
     mc_deterministic_conflicts := [] |}.
Definition context : BranchMergeContext := ok_or empty_context (create_context merge_input).

Lemma context_created : create_context merge_input = Ok context.
Proof. apply ok_or_ok. by vm_compute. Qed.

(** ** The comparison of graphs *)

Lemma conflicts_exact_witness : everywhere mergeable base_graph branch_graph moved_graph.
Proof.
  apply (conflicts_exact base_graph branch_graph moved_graph); by vm_compute.
Defined.

(** Once main has the branch's changes, its delta is found there. *)
Lemma subsumed_exact_witness :
  everywhere (λ b br m, _branch_changes_are_present b br m = true) base_graph branch_graph branch_graph ∧
  detect_branch_merge_conflicts base_graph branch_graph branch_graph = [].
Proof.
  assert (build_semantic_delta base_graph branch_graph base_head branch_head = Ok (mc_semantic_delta context)) as Hd
    by by vm_compute.
  assert (graphs_ok base_graph branch_graph branch_graph = true) as Hok by by vm_compute.
  assert (semantic_delta_is_subsumed (mc_semantic_delta context) branch_graph = true) as Hs by by vm_compute.
  destruct (subsumed_exact base_graph branch_graph branch_graph base_head branch_head _ Hok Hd) as [Hiff Hnone].
  split; [by apply Hiff|by apply Hnone].
Defined.

(** ** The commit of the merge *)

Definition candidate : Patch := merge_patch "merge-one" "blk/one" base_head.

Definition prepared_merge : Store * merge_result PreparedTransition :=
  prepare_branch_merge_with_history local_host (env_with PublishOk) candidate base_head context seeded.
Definition committed_merge : Store * merge_result CommittedTransition :=
  commit_branch_merge_with_history local_host (env_with PublishOk) candidate base_head seeded.

Definition merge_ok {A} (m : merge_result A) : bool := match m with MergeOk _ => true | Problem _ => false end.

Lemma merge_ok_run {A} (run : Store * merge_result A) : merge_ok run.2 = true → ∃ a, run = (run.1, MergeOk a).
Proof. destruct run as [s [a|]]; [|done]. by exists a. Qed.

Lemma candidate_submission : submission (_replay manifest seeded) candidate.
Proof.
  unfold submission. rewrite decide_False by by intros [? _]. split.
  - intros first [= <-]. split; try by intros q ->%list_elem_of_singleton.
    + by_decide.
    + by_decide.
    + by intros _ q ->%list_elem_of_singleton.
  - by repeat constructor.
  - by intros first prov [= <-] [= <-].
Qed.

#[local] Opaque prepare_branch_merge_with_history commit_branch_merge_with_history _replay.

Definition prepared_patch : Patch :=
  match prepared_merge.2 with MergeOk prt => prt_patch prt | Problem _ => candidate end.

(** The graph after the prepared Patch, before it is written. *)
Definition merged_graph : GraphState := ok_or base_graph (apply_valid_patch base_graph prepared_patch).

Lemma same_value (a b : option pyval) : opt_eqb a b = true → from_option (λ _, true) false a = true → b ≠ None.
Proof. by destruct a, b. Qed.

Lemma conforming_merge_bounded_witness :
  ∃ staged, graph_value staged ["nodes"; "exp/probe"; "next_action"] ≠ None ∧
    opt_eqb (graph_value base_graph ["nodes"; "exp/probe"; "next_action"])
            (graph_value staged ["nodes"; "exp/probe"; "next_action"]) = true.
Proof.
  assert (validate_branch_merge_candidate_conformance context base_graph prepared_patch merged_graph = MergeOk tt) as Hc
    by by vm_compute.
  destruct (conforming_merge_bounded context base_graph prepared_patch merged_graph Hc) as (tr & Htr & Hbound & _);
    [by vm_compute|].
  assert (match p_transition prepared_patch with
          | Some tr => forallb documents_wf (merge_timeline (allowed_paths context) prepared_patch base_graph (initiating_indexes tr))
          | None => false end = true) as Hwf by by vm_compute.
  rewrite Htr in Hwf. destruct Hbound as (staged & _ & Hframe).
  { apply Forall_forall. intros st Hst%list_elem_of_In. rewrite forallb_forall in Hwf. by apply Hwf. }
  exists staged.
  assert (∀ a, a ∈ allowed_paths context → ¬ related a ["nodes"; "exp/probe"; "next_action"]) as Hun.
  { apply Forall_forall. unfold related. by_decide. }
  assert (from_option (λ _, true) false (graph_value base_graph ["nodes"; "exp/probe"; "next_action"]) = true) as Hsome.
  { by vm_compute. }
  exact (conj (same_value _ _ (Hframe _ Hun) Hsome)
              (Hframe _ Hun)).
Defined.

Lemma committed_merge_conforms_witness : ∃ ct, committed_merge.2 = MergeOk ct ∧
  ∃ g, apply_valid_patch base_graph (ct_patch ct) = Ok g ∧
    validate_branch_merge_candidate_conformance context base_graph (ct_patch ct) g = MergeOk tt.
Proof.
  assert (prepared_merge.1 = seeded) as Hs by by vm_compute.
  destruct (merge_ok_run prepared_merge) as [prt Hp]; [by vm_compute|]. rewrite Hs in Hp.
  destruct (merge_ok_run committed_merge) as [ct Hc]; [by vm_compute|].
  exists ct. split; [by rewrite Hc|].
  destruct (committed_merge_conforms local_host (env_with PublishOk) (env_with PublishOk) candidate base_head context
    seeded seeded prt committed_merge.1 ct manifest seeded_ok manifest_loads I eq_refl eq_refl candidate_submission
    eq_refl Hp Hc) as (_ & _ & g & Hg & Hconf & _).
  exists g. exact (conj Hg Hconf).
Defined.
