(* ===== verification/WitnessBranches.v ===== *)
(** The theorems on the writers of branches, at the project of [WitnessHistory]:
    a branch is created, an agent appends to it, and its head is settled without a
    change of main. *)

From S2P Require Export WitnessHistory MergeOnce BranchSnapshots.

Definition mirror (publication : Publication) : BranchEnv :=
  {| be_env := env_with publication; be_refresh := λ s, s |}.

Lemma mirror_refresh publication s : be_refresh (mirror publication) s = s.
Proof. done. Qed.

Lemma mirror_sound publication : refresh_sound (mirror publication).
Proof. intros s Hok Hres. rewrite mirror_refresh. done. Qed.

(** ** A new branch *)

Definition main_head : GraphHeadRef := main_pre_head (_replay manifest seeded).
Definition branch_meta : GraphBranchMetadata :=
  {| gbm_branch_id := episode; gbm_episode_id := episode; gbm_project_id := "project"; gbm_base_head := main_head;
     gbm_head := {| head_target := branch_target episode; head_revision := head_revision main_head;
                    head_transition_id := head_transition_id main_head |};
     gbm_created_at := 100; gbm_authorized_by := user |}.

Definition creation : Store * outcome GraphBranchMetadata :=
  create_auto_research_branch local_host (mirror PublishOk) branch_meta seeded.
Notation started := (creation.1).

Lemma seeded_numbered : numbered 1 (st_log seeded) (mr_patches (_replay manifest seeded)).
Proof. by vm_compute. Qed.

Lemma creation_run : creation = (started, Done branch_meta).
Proof.
  apply run_done. assert (match creation.2 with Done meta => bool_decide (meta = branch_meta) | Failed _ => false end = true) as Hd by by vm_compute.
  destruct creation.2; [|done]. by apply bool_decide_eq_true in Hd as ->.
Qed.

Lemma create_run :
  create_auto_research_branch local_host (mirror PublishOk) branch_meta seeded = (started, Done branch_meta).
Proof. rewrite <-creation_run. unfold creation. reflexivity. Qed.
#[local] Opaque create_auto_research_branch.

Lemma created_branch_is_main_witness :
  branch_ok started branch_meta ∧
  mr_state (_replay_branch manifest branch_meta (branch_dir started episode) started) = mr_state (_replay manifest seeded).
Proof.
  destruct (created_branch_is_main local_host (mirror PublishOk) (mirror PublishOk) branch_meta seeded started branch_meta manifest
    seeded_ok manifest_loads seeded_numbered eq_refl (λ _, mirror_refresh PublishOk) create_run) as (_ & _ & Hok & Hst & _).
  exact (conj Hok Hst).
Defined.

Lemma started_ok : branch_ok started branch_meta.
Proof.
  exists manifest, branch_meta. split_and!; [by vm_compute| |by vm_compute].
  assert (match _read_metadata branch_meta (branch_dir started episode) with
          | Done meta => bool_decide (meta = branch_meta) | Failed _ => false end = true) as Hd by by vm_compute.
  destruct (_read_metadata _ _); [|done]. by apply bool_decide_eq_true in Hd as ->.
Qed.

(** ** An agent appends *)

Lemma work_branch_submittable : branch_submittable [work_patch].
Proof. destruct (draft_submittable (_replay manifest seeded)) as [Hone Hdec _]. by split. Qed.

Definition branch_work (publication : Publication) : Store * outcome (Patch * MaterializationResult) :=
  branch_append_locked local_host (env_with publication) branch_meta work_patch true true (Some 1%Z) None started.

Lemma work_run publication :
  branch_append_locked local_host (env_with publication) branch_meta work_patch true true (Some 1%Z) None started =
    ((branch_work publication).1, (branch_work publication).2).
Proof. unfold branch_work. by destruct (branch_append_locked _ _ _ _ _ _ _ _ _). Qed.
#[local] Opaque branch_append_locked branch_append_batch.

Lemma started_next meta : _read_metadata branch_meta (branch_dir started (gbm_branch_id branch_meta)) = Done meta →
  (branch_next_revision meta (branch_dir started (gbm_branch_id branch_meta)) < 1000000)%Z.
Proof.
  intros Hr. apply read_metadata_done in Hr as (Hm & _ & _).
  assert (bs_metadata (branch_dir started (gbm_branch_id branch_meta)) = Some branch_meta) as Hs.
  { assert (bool_decide (bs_metadata (branch_dir started (gbm_branch_id branch_meta)) = Some branch_meta) = true) as Hb by by vm_compute.
    by apply bool_decide_eq_true in Hb. }
  rewrite Hs in Hm. injection Hm as <-. by vm_compute.
Qed.

(** The commit that the host cannot tell of leaves the branch as it was. *)
Lemma branch_writers_keep_branch_witness :
  is_done (branch_work PublishOk).2 = true ∧
  branch_outcome one_branch_patch started (branch_work PublishOk).1 branch_meta (branch_work PublishOk).2 ∧
  length (bs_log (branch_dir (branch_work PublishOk).1 episode)) = 1 ∧
  bs_log (branch_dir (branch_work (PublishRaises true CommitUnknown)).1 episode) = [].
Proof.
  split; [by vm_compute|]. split; [|by vm_compute].
  pose proof (branch_writers_keep_branch local_host (env_with PublishOk) branch_meta work_patch true true draft (Some 1%Z) None
    started started_ok (λ m meta _ Hr, conj (started_next meta Hr) (conj work_branch_submittable work_branch_submittable))) as [Ha _].
  exact (Ha _ _ (work_run PublishOk)).
Defined.

(** ** A merge without a change *)

Notation worked := ((branch_work PublishOk).1).
Definition worked_meta : GraphBranchMetadata :=
  match bs_metadata (branch_dir worked episode) with Some meta => meta | None => branch_meta end.
Definition settled_receipt : BranchMergeReceipt :=
  {| bmr_outcome := NoChange;
     bmr_provenance :=
       {| bmp_merge_id := _branch_merge_id worked_meta; bmp_branch_id := episode; bmp_episode_id := episode;
          bmp_branch_base_head := main_head; bmp_branch_head := gbm_head worked_meta; bmp_rebased_main_head := main_head;
          bmp_merge_task_id := "merge" |};
     bmr_result_main_head := main_head; bmr_authorized_by := user; bmr_created_at := 300 |}.

Definition settling : Store * outcome BranchMergeReceipt :=
  write_merge_receipt local_host (mirror PublishOk) manifest manifest branch_meta settled_receipt worked.

Lemma settling_done : settling = (settling.1, Done settled_receipt).
Proof.
  apply run_done. assert (match settling.2 with Done r => bool_decide (r = settled_receipt) | Failed _ => false end = true) as Hd by by vm_compute.
  destruct settling.2; [|done]. by apply bool_decide_eq_true in Hd as ->.
Qed.

Lemma settling_run :
  write_merge_receipt local_host (mirror PublishOk) manifest manifest branch_meta settled_receipt worked =
    (settling.1, Done settled_receipt).
Proof. rewrite <-settling_done. unfold settling. reflexivity. Qed.
#[local] Opaque write_merge_receipt.

Lemma receipts_are_final_witness :
  bs_receipts (branch_dir settling.1 episode) !! _branch_merge_id worked_meta = Some settled_receipt.
Proof.
  destruct (receipts_are_final local_host (mirror PublishOk) manifest manifest branch_meta settled_receipt worked settling.1
    (Done settled_receipt) settling_run) as (local & _ & _ & [[_ Hr]|[Hpub _]]); [|discriminate Hpub].
  exact (proj1 (Hr settled_receipt eq_refl)).
Defined.

Lemma seeded_resolved : resolved_once seeded.
Proof. intros e p prov r _ _ _ _ Hr. unfold branch_dir in Hr. cbn in Hr. by rewrite lookup_empty in Hr. Qed.

Lemma worked_loads : load_manifest (st_document worked) = Ok manifest.
Proof. by vm_compute. Qed.

Lemma settled_steps : rtc merge_step seeded settling.1.
Proof.
  eapply rtc_l; [by eapply (step_create local_host (mirror PublishOk)); [apply mirror_sound|exact create_run]|].
  eapply rtc_l.
  { eapply (step_branch local_host (env_with PublishOk) branch_meta work_patch true true (Some 1%Z) None);
      [exact started_ok|exact work_branch_submittable|exact started_next|exact (work_run PublishOk)]. }
  eapply rtc_l; [|apply rtc_refl].
  by eapply (step_receipt local_host (mirror PublishOk)); [exact worked_loads|apply mirror_sound|exact settling_run].
Qed.

(** Main holds no merge of the branch head that was settled. *)
Lemma merge_resolved_once_witness :
  log_ok settling.1 ∧
  ∀ e p prov, e ∈ st_log settling.1 → load_entry e = inl p → p_admission p = AdmissionAccepted → p_branch_merge p = Some prov →
    bmp_branch_id prov = episode → bmp_merge_id prov ≠ _branch_merge_id worked_meta.
Proof.
  destruct (merge_resolved_once seeded settling.1 settled_steps seeded_ok seeded_resolved) as [Hok Hres].
  split; [exact Hok|]. intros e p prov He Hp Ha Hm Hb Hid.
  assert (bool_decide (bs_receipts (branch_dir settling.1 episode) !! _branch_merge_id worked_meta = Some settled_receipt) = true) as Hr
    by by vm_compute. apply bool_decide_eq_true in Hr.
  specialize (Hres e p prov settled_receipt He Hp Ha Hm). rewrite Hb, Hid in Hres. specialize (Hres Hr). discriminate Hres.
Defined.

(** ** The branch in a snapshot *)

Definition reading : Store * outcome (list (string * option BranchReadSnapshot)) :=
  read_branch_snapshots local_host [(episode, episode, "project")] settling.1.

Lemma reading_run :
  read_branch_snapshots local_host [(episode, episode, "project")] settling.1 = (reading.1, reading.2).
Proof. unfold reading. by destruct (read_branch_snapshots _ _ _). Qed.
#[local] Opaque read_branch_snapshots.

Lemma settled_loads : load_manifest (st_document settling.1) = Ok manifest.
Proof. by vm_compute. Qed.

Lemma settled_log_ok : log_ok settling.1.
Proof. exact (proj1 (rtc_ind_l (λ s, log_ok s → resolved_once s → log_ok settling.1 ∧ resolved_once settling.1) _
  (λ a b, conj a b) (λ x y Hxy _ IH Ho Hr, let (a, b) := merge_step_keeps x y Hxy Ho Hr in IH a b) seeded settled_steps seeded_ok seeded_resolved)). Qed.

Lemma read_one (r : outcome (list (string * option BranchReadSnapshot))) id :
  match r with Done [(i, Some _)] => str_eqb i id | _ => false end = true → ∃ snap, r = Done [(id, Some snap)].
Proof.
  destruct r as [[|[i [snap|]] [|]]|]; try discriminate. intros ->%bool_decide_eq_true. by exists snap.
Qed.

Lemma settled_numbered : numbered 1 (st_log settling.1) (mr_patches (_replay manifest settling.1)).
Proof. by vm_compute. Qed.

Lemma reading_done : ∃ snap, reading.2 = Done [(episode, Some snap)].
Proof. apply read_one. by vm_compute. Qed.

