(* ===== verification/WitnessWatchers.v ===== *)
(** The theorems on watchers, applied to the tables of the project of
    [WitnessHistory]: a condition on its Experiment and a group of two external
    observers. *)

From S2P Require Export WitnessMerge MainHistory ReconcileLaws.

#[local] Opaque _append_locked _replay.

#[local] Instance no_jitter : WatcherDigest.
Proof. refine {| watcher_fraction := λ _, 0%Z |}. intros _. by_decide. Defined.
#[local] Instance any_human : HumanAdapter := λ _ _ _, Some user.

(** ** A main log of two revisions *)

(** The Experiment is analyzed at revision 2. *)
Definition analyze_patch : Patch :=
  patch_of KWork RAgent PAgent (Some Ordinary) [UpdateNodes [update_of "exp/probe" [("status", PStr "analyzing")] None]].
Definition analyzed : Store :=
  (_append_locked local_host (env_with PublishOk) analyze_patch (options (Some 1%Z) true true) seeded).1.
Notation history := (_replay manifest analyzed).
#[local] Opaque analyzed.

(** ** Tables *)

Definition work_continuation : WatcherContinuation :=
  {| wc_provider := "codex"; wc_model := None; wc_reasoning := None; wc_run_on := "local";
     wc_run_truth_scope := Some ["repo"]; wc_patch_kind := ContinueWork; wc_control_node_id := None;
     wc_control_revision := None; wc_control_episode_id := None; wc_control_invocation := None;
     wc_control_invocation_ceiling := None; wc_control_decision_bundle := []; wc_control_completion_criteria := [];
     wc_workflow_ids := []; wc_skill_ids := []; wc_invoked_workflow_ids := []; wc_invoked_skill_ids := [];
     wc_resolved_skill_packages := [] |}.
Definition chat_binding : WatcherBinding :=
  {| wb_project_id := "project"; wb_origin_operation_id := "origin"; wb_origin_task_kind := OriginNodeChat;
     wb_chat_id := "chat"; wb_node_id := Some "exp/probe"; wb_episode_id := None; wb_graph_target := main_target;
     wb_execution_host := "local"; wb_continuation := work_continuation |}.
Definition delivery_of (status : WatcherStatus) (completed_at : option Z) : Delivery :=
  {| dl_status := status; dl_completed_at := completed_at; dl_notified := false; dl_notification_operation_id := None;
     dl_stopped_by := None; dl_stop_reason := None; dl_stopped_at := None; dl_stop_operation_id := None |}.

Definition condition : GraphCheck :=
  {| gk_condition := NodeStatusGraphCondition "exp/probe" ["analyzing"; "completed"]; gk_armed_revision := Some 1%Z;
     gk_last_evaluated_at := None |}.
Definition graph_row : StoredWatcherRecord :=
  {| w_watcher_id := "w/graph"; w_binding := chat_binding; w_created_at := 10;
     w_delivery := delivery_of WatchActive None; w_check := GraphWatcher condition |}.
Definition observer (id : string) (status : WatcherStatus) (completed_at : option Z) (errors : Z) : StoredWatcherRecord :=
  {| w_watcher_id := id; w_binding := chat_binding; w_created_at := 20;
     w_delivery := delivery_of status completed_at;
     w_check := ExternalWatcher
       {| xc_check_command := "test -f done"; xc_log_path := "log"; xc_cwd := "."; xc_last_checked_at := None;
          xc_last_exit_code := None; xc_last_error := None; xc_next_check_at := None;
          xc_consecutive_error_count := errors; xc_group_id := Some "g"; xc_group_label := Some "runs" |} |}.

(** The second member of the group is degraded, and failed often enough. *)
Definition tables : WatcherDb :=
  {| db_watchers := {["w/graph" := graph_row; "w/a" := observer "w/a" WatchCompleted (Some 30%Z) 0;
                      "w/b" := observer "w/b" WatchDegraded None 5]};
     db_heads := {[("project", "main") := {| head_target := main_target; head_revision := 1; head_transition_id := None |}]};
     db_runs := []; db_episodes := ∅ |}.

Lemma tables_wf : db_wf tables.
Proof.
  intros id w Hw. cbn in Hw. rewrite !lookup_insert, ?lookup_singleton in Hw. repeat case_decide; simplify_eq; by split.
Qed.

Lemma tables_bound : groups_bound tables.
Proof.
  intros i j w v Hw Hv _ _.
  assert (∀ id u, db_watchers tables !! id = Some u → w_binding u = chat_binding) as Hall; [|by rewrite !(Hall _ _ Hw), !(Hall _ _ Hv)].
  intros id u Hu. cbn in Hu. rewrite !lookup_insert, ?lookup_singleton in Hu. repeat case_decide; by simplify_eq.
Qed.

(** ** Boundaries of main *)

Notation accepted := (accepted_boundary_states history).
Notation boundaries := (boundary_at main_target (main_trace analyzed) <$> accepted).

Lemma history_complete : gs_replay_status (mr_state history) = ReplayComplete.
Proof. by vm_compute. Qed.

Lemma analyzed_named : log_named analyzed.
Proof.
  assert (forallb (λ e, match load_entry e with
                        | inl p => (p_revision p =? le_revision e)%Z && (0 <? le_revision e)%Z
                        | inr _ => true end) (st_log analyzed) = true) as Hall by by vm_compute.
  intros e p He Hp. rewrite forallb_forall in Hall. apply list_elem_of_In in He.
  specialize (Hall e He). rewrite Hp in Hall. lia.
Qed.

Lemma boundary_events : NoDup (boundary_event_ids boundaries).
Proof.
  assert (boundary_event_ids boundaries = ["event"]) as -> by by vm_compute. apply NoDup_singleton.
Qed.

Lemma boundary_states_of st : st ∈ accepted → gs_revision st = 1%Z ∨ gs_revision st = 2%Z.
Proof.
  assert (gs_revision <$> accepted = [1; 2]%Z) as Hrev by by vm_compute. intros Hst.
  assert (gs_revision st ∈ gs_revision <$> accepted) as Hin by by apply list_elem_of_fmap_2.
  rewrite Hrev, !elem_of_cons in Hin.
  destruct Hin as [?|[?|Hin%elem_of_nil]]; [by left|by right|contradiction].
Qed.

Lemma first_trace : main_trace analyzed 1 = None.
Proof. by vm_compute. Qed.

Lemma tables_head : head_ok tables "project" main_target (mr_state history) accepted (main_trace analyzed).
Proof.
  intros stored Hs. cbn in Hs. rewrite lookup_singleton_eq in Hs. injection Hs as <-. cbn [head_target head_revision head_transition_id].
  assert (gs_revision (mr_state history) = 2%Z) as -> by by vm_compute. split; [done|]. split; [done|].
  intros st _ <-. by rewrite first_trace.
Qed.

Lemma main_wake_catches_up_witness : ∃ db',
  wake_target tables "project" main_target (mr_state history) accepted (main_trace analyzed) 300 = (db', None) ∧ db_wf db'.
Proof.
  destruct (main_wake_catches_up manifest analyzed tables "project" 300 history_complete analyzed_named boundary_events
    tables_wf tables_head) as (db' & Hrun & Hwf & _). exists db'. exact (conj Hrun Hwf).
Defined.

Definition completes (r : res GraphResult) : bool := match r with Ok ResultCompleted => true | _ => false end.
Lemma completes_ok r : completes r = true → r = Ok ResultCompleted.
Proof. by destruct r as [[]|]. Qed.

(** The accepted state that satisfies the condition. *)
Lemma fires_at : ∃ st, st ∈ accepted ∧ gs_revision st = 2%Z ∧
  boundary_evaluate (boundary_at main_target (main_trace analyzed) st) condition = Ok ResultCompleted.
Proof.
  assert (existsb (λ st, (gs_revision st =? 2)%Z &&
    completes (boundary_evaluate (boundary_at main_target (main_trace analyzed) st) condition)) accepted = true) as Hex
    by by vm_compute.
  apply existsb_exists in Hex as (st & Hst%list_elem_of_In & [Hrev%Z.eqb_eq Hr%completes_ok]%andb_true_iff).
  exists st. exact (conj Hst (conj Hrev Hr)).
Qed.

Lemma graph_row_waits : waits "project" main_target condition 1 graph_row.
Proof. split; try done. by exists condition. Qed.

Lemma condition_fires_witness : ∃ db' w',
  wake_target tables "project" main_target (mr_state history) accepted (main_trace analyzed) 300 = (db', None) ∧
  db_watchers db' !! "w/graph" = Some w' ∧ w_status w' = WatchCompleted ∧ w_notified w' = false.
Proof.
  destruct fires_at as (st & Hst & Hrev & Hr).
  destruct (main_history_ok manifest analyzed history_complete analyzed_named boundary_events) as [Hho _].
  destruct (condition_fires tables "project" main_target (mr_state history) accepted (main_trace analyzed) 300 "w/graph"
    graph_row condition 1 st tables_wf Hho tables_head eq_refl graph_row_waits Hst) as (db' & w' & Hrun & Hw & Hs & Hn & _).
  - by rewrite Hrev.
  - intros stored Hs. cbn in Hs. rewrite lookup_singleton_eq in Hs. injection Hs as <-. by rewrite Hrev.
  - exact Hr.
  - intros st' _ Hb. rewrite Hrev in Hb. lia.
  - exists db', w'. exact (conj Hrun (conj Hw (conj Hs Hn))).
Defined.

(** ** A crash between two boundaries *)

Definition consumed_first : WatcherDb := (consume_all tables "project" (take 1 boundaries) 300).1.

Lemma reconciliation_restarts_witness :
  consume_all consumed_first "project" (take 1 boundaries ++ drop 1 boundaries) 300 =
  consume_all tables "project" (take 1 boundaries ++ drop 1 boundaries) 300.
Proof.
  assert ((consume_all tables "project" (take 1 boundaries) 300).2 = None) as Hn by by vm_compute.
  assert (consume_all tables "project" (take 1 boundaries) 300 = (consumed_first, None)) as Hrun.
  { unfold consumed_first. destruct (consume_all tables _ _ _) as [d o]. cbn in Hn |- *. by rewrite Hn. }
  exact (reconciliation_restarts tables consumed_first "project" (take 1 boundaries) (drop 1 boundaries) 300 tables_wf Hrun).
Defined.

(** ** Deliveries *)

Definition wake_task : WakeTask :=
  {| wk_operation_id := "wake"; wk_project_id := "project"; wk_parent_operation_id := None; wk_episode_id := None;
     wk_target := main_target; wk_kind := "node_chat"; wk_status := "queued";
     wk_request := [("watcher_ids", PList [PStr "w/b"; PStr "w/a"])]; wk_created_at := 100;
     wk_authorizer := (None, None, None) |}.

Definition group : list StoredWatcherRecord := [observer "w/b" WatchDegraded None 5; observer "w/a" WatchCompleted (Some 30%Z) 0].

Lemma group_is_ready : group ∈ completed_watcher_groups tables.
Proof.
  assert (completed_watcher_groups tables = [group]) as Hg by by vm_compute. rewrite Hg. apply list_elem_of_here.
Qed.

Lemma ready_group_is_claimable_witness : ∃ db',
  create_watcher_notification_task tables wake_task ["w/b"; "w/a"] = Commit (Some db') ∧
  db_watchers db' !! "w/a" = Some (claim_row "wake" (observer "w/a" WatchCompleted (Some 30%Z) 0)) ∧
  db_watchers db' !! "w/graph" = Some graph_row.
Proof.
  destruct (ready_group_is_claimable tables group (observer "w/b" WatchDegraded None 5) wake_task tables_wf tables_bound
    group_is_ready eq_refl eq_refl) as (r & Hr & Hnone & Hrows); [by vm_compute|done|done|set_solver|].
  destruct r as [db'|]; [|by vm_compute in Hr].
  exists db'. split; [exact Hr|]. split.
  - rewrite (Hrows db' eq_refl "w/a" _ eq_refl). by rewrite decide_True by (right; left).
  - rewrite (Hrows db' eq_refl "w/graph" graph_row eq_refl). rewrite decide_False; [done|].
    intros [Hg|[Hg|Hg%elem_of_nil]%elem_of_cons]%elem_of_cons; done.
Defined.

(** The tables after the wake, and after the poll that follows. *)
Definition woken : WatcherDb := claim_rows "wake" ["w/b"; "w/a"] (insert_run wake_task tables).
Definition reconciled : WatcherDb := (consume_all woken "project" (drop 1 boundaries) 300).1.

Lemma woken_op : store_op tables woken.
Proof. apply (op_wake tables woken wake_task ["w/b"; "w/a"]). by vm_compute. Qed.

(** The condition comes true after the task claimed the group. *)
Lemma reconciled_op : store_op woken reconciled.
Proof.
  assert (∃ b, drop 1 boundaries = [b] ∧
    match consume_graph_watcher_boundary woken "project" (boundary_head b) (boundary_evaluate b) 300 with
    | Commit _ => True | Abort _ => False end) as (b & Hb & Hrun).
  { assert (match drop 1 boundaries with
            | [b] => match consume_graph_watcher_boundary woken "project" (boundary_head b) (boundary_evaluate b) 300 with
                     | Commit _ => true | Abort _ => false end
            | _ => false end = true) as Hc by by vm_compute.
    destruct (drop 1 boundaries) as [|b [|]]; [done| |done]. exists b. split; [reflexivity|].
    destruct (consume_graph_watcher_boundary _ _ _ _ _); [exact I|discriminate Hc]. }
  unfold reconciled. rewrite Hb. cbn [consume_all].
  destruct (consume_graph_watcher_boundary woken "project" _ _ _) as [[db' fresh]|] eqn:Hc; [|contradiction].
  exact (op_boundary woken db' "project" _ _ _ fresh Hc).
Qed.

Lemma reconciled_ops : rtc store_op tables reconciled.
Proof. exact (rtc_l _ _ _ _ woken_op (rtc_once _ _ reconciled_op)). Qed.

Lemma claimed_row : db_watchers woken !! "w/a" = Some (claim_row "wake" (observer "w/a" WatchCompleted (Some 30%Z) 0)).
Proof. by vm_compute. Qed.

Lemma woken_wf : db_wf woken.
Proof. exact (proj1 (store_op_steps tables woken woken_op tables_wf)). Qed.

Lemma claimed_by_one_wake_witness : ∃ w, db_watchers reconciled !! "w/a" = Some w ∧ w_claim w = Some "wake".
Proof.
  destruct (claimed_by_one_wake woken reconciled "w/a" _ "wake" woken_wf (rtc_once _ _ reconciled_op) claimed_row eq_refl) as (w & Hw & Hc & _).
  exists w. exact (conj Hw Hc).
Defined.

Lemma store_refines_lifecycle_witness : db_wf reconciled ∧ ∃ w, db_watchers reconciled !! "w/graph" = Some w.
Proof.
  destruct (store_refines_lifecycle tables reconciled tables_wf reconciled_ops) as [Hwf Hrows].
  destruct (Hrows "w/graph" graph_row eq_refl) as (w & Hw & _). split; [exact Hwf|]. exists w. exact Hw.
Defined.

(** ** Schedules *)

(** Six errors in a row: half an hour, less the jitter. *)
Lemma next_check_bounds_witness : ∃ due, watcher_next_check_at "w/a" 0 6 = Ok due ∧
  (1620000000 ≤ due ≤ 1980000000)%Z.
Proof. destruct (next_check_bounds "w/a" 0 6) as (due & Hdue & Hb & _). exists due. exact (conj Hdue Hb). Defined.

(** After the third failure in a row a project waits four polls. *)
Lemma retry_comes_due_witness :
  let r := retry_run retry_empty [RetrySchedule "p"; RetryClear "p"; RetrySchedule "p"; RetryDue; RetrySchedule "p"] in
  "p" ∈ (retry_due (retry_run (retry_schedule "p" r) [RetryDue; RetrySchedule "q"; RetryDue; RetryDue])).2.
Proof.
  apply (retry_comes_due "p" [RetrySchedule "p"; RetryClear "p"; RetrySchedule "p"; RetryDue; RetrySchedule "p"]
    [RetryDue; RetrySchedule "q"; RetryDue; RetryDue]); [by repeat constructor|by vm_compute].
Defined.
