(* ===== verification/WitnessTasks.v ===== *)
(** Tasks and episodes at concrete stores: the theorems of the task store and of
    the ledger of episodes, applied to runs from an empty store; and the wrap-up
    service at the loop of those runs: an ending with a report, the same ending
    again, and an ending whose continuation is lost. *)

From S2P Require Export Instances StoreLaws Lifecycle WrapupLaws.

(** ** An empty store *)

#[local] Instance plain_json : JsonText := {|
  json_object := λ s, if str_eqb s "{}" then Some [] else None;
  json_compact := λ _, "{}";
  json_bytes := λ _, Some 2%Z;
  json_indented_bytes := λ _, Some 2%Z;
  sha256_hex := λ _, "digest";
  uuid5_url := λ s, s;
  parses_uuid := truthy |}.

Definition empty_db : TaskDb :=
  {| td_tasks := ∅; td_order := []; td_events := []; td_event_seq := 0; td_receipts := []; td_receipt_seq := 0;
     td_outputs := ∅; td_episodes := ∅; td_invocations := []; td_wrapups := ∅; td_attempts := ∅; td_reports := ∅;
     td_loops := ∅; td_auto_research := ∅; td_auto_invocations := ∅; td_child_work := ∅; td_child_work_attempts := ∅;
     td_child_experiments := ∅; td_notices := []; td_transfers := []; td_watchers := ∅; td_heads := ∅ |}.

Lemma empty_is_fresh : fresh_ledger empty_db.
Proof. done. Qed.

Lemma empty_wf : store_wf empty_db ∧ trace_ok empty_db.
Proof. apply fresh_store_wf, empty_is_fresh. Qed.

Definition plain_task (id : string) (kind : AgentTaskKind) (request : pydict) (at_ : Z) : AgentTaskRecord :=
  {| task_operation_id := id; task_project_id := "p1"; task_kind := kind; task_status := TaskQueued; task_request := request;
     task_created_at := at_; task_updated_at := at_; task_started_at := None; task_finished_at := None;
     task_status_message := "Queued."; task_error := None; task_applied_revision := None; task_result := None;
     task_attempt := 1; task_parent_operation_id := None; task_episode_id := None; task_runtime_id := "";
     task_native_session_id := None; task_history_only := false; task_stage_host := None; task_stage_root := None;
     task_graph_target := main_target; task_write_scope := None; task_phase := "queued"; task_last_activity_at := None;
     task_authorized_by := Some user; task_authority := None; task_visible := true |}.

(** ** A loop that fails to report *)

Definition loop_request (invocation : Z) (trigger : string) : pydict :=
  [("patch_kind", PStr "experiment_loop"); ("trigger", PStr trigger); ("run_on", PStr "m1"); ("chat_id", PStr "chat");
   ("control_node_id", PStr "n1"); ("control_revision", PInt 4); ("control_episode_id", PStr "ep1");
   ("control_decision_bundle", PList []); ("control_completion_criteria", PList []);
   ("control_invocation", PInt invocation); ("control_invocation_ceiling", PInt 2)].

Definition first_root : AgentTaskRecord :=
  (plain_task "op1" TaskNodeChat (loop_request 1 "experiment_run") 10) <| task_episode_id := Some "ep1" |>.

Definition loop_episode : EpisodeRecord :=
  {| epi_episode_id := "ep1"; epi_project_id := "p1"; epi_mode := ModeExperimentLoop; epi_control_node_id := Some "n1";
     epi_graph_target := main_target; epi_graph_base_head := None; epi_root_operation_id := None; epi_status := EpQueued;
     epi_invocation_ceiling := 2; epi_invocations_used := 0; epi_authorized_by := Some user; epi_stop_requested_at := None;
     epi_stop_settled_at := None; epi_ending := None; epi_ending_diagnostic := None; epi_wrapup_state := WrapNotStarted;
     epi_wrapup_error := None; epi_report_attempts_used := 0; epi_created_at := 10; epi_updated_at := 10; epi_ended_at := None |}.

Definition report_task : AgentTaskRecord :=
  (plain_task "rep1" TaskEpisodeReport
     [("provider", PStr "codex"); ("run_on", PStr "m1"); ("execution_host", PStr "")] 40)
  <| task_episode_id := Some "ep1" |> <| task_parent_operation_id := Some "op1" |> <| task_visible := false |>
  <| task_native_session_id := Some "session" |> <| task_stage_root := Some "/stage" |>.

Definition report_wrapup : EpisodeWrapupRecord :=
  {| wrap_fence :=
       {| wf_episode_id := "ep1"; wf_ending := Some EndCompleted; wf_partial := false;
          wf_concluding_operation_id := Some "op1"; wf_allocation_operation_id := Some "rep1"; wf_provider := Some "codex";
          wf_run_on := Some "m1"; wf_execution_host := Some ""; wf_native_session_id := Some "session";
          wf_stage_host := None; wf_stage_root := Some "/stage"; wf_skill_id := Some "report"; wf_skill_version := Some "1";
          wf_output_name := Some "report.html"; wf_output_path := Some "/stage/report.html"; wf_receipt_json := "{}";
          wf_receipt_sha256 := "digest"; wf_created_at := 40 |};
     wrap_state := WrapPending; wrap_diagnostic := None; wrap_updated_at := 40; wrap_finished_at := None |}.

Definition loop_ops : list (StoreOp * Z) :=
  [(OpCreateWithInvocation loop_episode first_root, 10%Z); (OpRunning "op1", 11%Z);
   (OpComplete "op1" None [], 20%Z); (OpFence "ep1" EndCompleted None, 30%Z);
   (OpBeginWrapup "ep1" report_wrapup report_task, 40%Z)].
Notation awaiting_db := (run_ops empty_db loop_ops).

Example loop_runs :
  stage_of awaiting_db "ep1" = Some (StageReporting EndCompleted) ∧
  task_status <$> td_tasks awaiting_db !! "op1" = Some TaskSucceeded ∧
  task_status <$> td_tasks awaiting_db !! "rep1" = Some TaskQueued.
Proof. vm_compute. done. Qed.

Lemma awaiting_wf : store_wf awaiting_db ∧ trace_ok awaiting_db.
Proof.
  destruct empty_wf as [Hwf Htr]. destruct (run_ops_advances loop_ops empty_db) as [Hk Ht].
  split; [exact (proj1 (Hk Hwf))|exact (Ht Htr)].
Qed.

(** Nothing changes the task that succeeded: not a late failure, not a restore, not
    the ageing out of its trace. *)
Definition late_ops : list (StoreOp * Z) :=
  [(OpFail "op1" "late" false None, 50%Z); (OpInterruptActive ∅, 60%Z); (OpPrune, 9000000000000%Z);
   (OpRestore "moved" "ann", 9000000000001%Z)].

Lemma tasks_follow_their_life_witness :
  (store_wf awaiting_db ∧ trace_ok awaiting_db) ∧
  ∃ t, td_tasks (run_ops awaiting_db late_ops) !! "op1" = Some t ∧ task_status t = TaskSucceeded.
Proof.
  split; [exact awaiting_wf|]. destruct awaiting_wf as [Hwf Htr].
  destruct (tasks_follow_their_life awaiting_db late_ops Hwf Htr) as (_ & _ & _ & _ & Hstay).
  destruct (td_tasks awaiting_db !! "op1") as [t|] eqn:Ht; [|by vm_compute in Ht].
  destruct (Hstay "op1" t Ht) as (t' & Ht' & Hst); [by vm_compute in Ht; injection Ht as <-..|].
  exists t'. split; [exact Ht'|]. rewrite Hst. vm_compute in Ht. by injection Ht as <-.
Defined.

(** ** A continuation *)

Definition seed_authority : AgentDispatchAuthority :=
  {| ada_profile := Ordinary; ada_task_contract := WorkAuto;
     ada_scope := {| ads_run_truth_scope := ["exp"]; ads_episode_id := None; ads_chat_scope := None; ads_chat_id := None;
                     ads_node_id := None; ads_patch_kind := Some KWork; ads_control_node_id := None;
                     ads_control_episode_id := None |} |}.
Definition seed_task : AgentTaskRecord := (plain_task "s1" TaskSeed [] 10) <| task_authority := Some seed_authority |>.
Definition retry_task (id parent : string) (attempt at_ : Z) : AgentTaskRecord :=
  (plain_task id TaskSeed [] at_) <| task_authority := Some seed_authority |> <| task_parent_operation_id := Some parent |>
    <| task_attempt := attempt |>.
(** The same continuation with no authority of its own is refused. *)
Definition bare_task : AgentTaskRecord := (retry_task "s3" "s1" 2 30) <| task_authority := None |>.

Definition seed_ops : list (StoreOp * Z) :=
  [(OpCreateTask seed_task "fresh", 10%Z); (OpRunning "s1", 11%Z); (OpFail "s1" "lost" true None, 12%Z);
   (OpCreateTask bare_task "retry", 30%Z); (OpCreateTask (retry_task "s2" "s1" 2 20) "retry", 20%Z);
   (OpRunning "s2", 21%Z); (OpFail "s2" "lost" true None, 22%Z); (OpCreateTask (retry_task "s4" "s2" 3 40) "resume", 40%Z)].
Notation seeded_db := (run_ops empty_db seed_ops).

Definition task_at (db : TaskDb) (id : string) : AgentTaskRecord :=
  default (plain_task "" TaskSeed [] 0) (td_tasks db !! id).

Lemma continuations_keep_authority_witness :
  fresh_store empty_db ∧ rtc (continues seeded_db) (task_at seeded_db "s4") (task_at seeded_db "s1") ∧
  td_tasks seeded_db !! "s3" = None ∧
  task_authority (task_at seeded_db "s1") = Some seed_authority ∧
  task_authority (task_at seeded_db "s4") = Some seed_authority.
Proof.
  assert (Hc : rtc (continues seeded_db) (task_at seeded_db "s4") (task_at seeded_db "s1")).
  { eapply rtc_l; [exists "s2"; by vm_compute|]. eapply rtc_l; [exists "s1"; by vm_compute|]. apply rtc_refl. }
  split; [apply empty_is_fresh|]. split; [exact Hc|]. split; [by vm_compute|]. split; [by vm_compute|].
  destruct (continuations_keep_authority empty_db seed_ops (task_at seeded_db "s4") (proj1 empty_is_fresh)) as (_ & _ & Hkeep).
  { exists "s4". by vm_compute. }
  apply (Hkeep ltac:(by vm_compute) ltac:(by vm_compute) (task_at seeded_db "s1") Hc). by vm_compute.
Defined.

(** ** A restart *)

(** A task that runs, one whose dispatch failed before it started, and one whose
    attempt has no outcome. *)
Definition dispatch_ops : list (StoreOp * Z) :=
  [(OpCreateTask seed_task "fresh", 10%Z); (OpRunning "s1", 11%Z);
   (OpCreateTask (plain_task "s5" TaskRefresh [] 12) "fresh", 12%Z);
   (OpReceipt "s5" "operation_dispatch_attempt" [("dispatch_attempt_id", PStr "d1")] TierDiagnostic, 13%Z);
   (OpReceipt "s5" "operation_dispatch_failed_before_start" [("dispatch_attempt_id", PStr "d1")] TierDiagnostic, 14%Z);
   (OpCreateTask ((plain_task "s6" TaskRefresh [] 15) <| task_project_id := "p2" |>) "fresh", 15%Z);
   (OpReceipt "s6" "operation_dispatch_attempt" [("dispatch_attempt_id", PStr "d2")] TierDiagnostic, 16%Z)].
Notation dispatched_db := (run_ops empty_db dispatch_ops).
Notation restarted := (interrupt_active_agent_tasks dispatched_db {["s1"; "s5"; "s6"]} 50).

Lemma dispatched_wf : store_wf dispatched_db ∧ trace_ok dispatched_db.
Proof.
  destruct empty_wf as [Hwf Htr]. destruct (run_ops_advances dispatch_ops empty_db) as [Hk Ht].
  split; [exact (proj1 (Hk Hwf))|exact (Ht Htr)].
Qed.

Lemma dispatched_spared id : agent_task_dispatch_was_proven_not_started dispatched_db id = true ↔ spared dispatched_db id.
Proof. apply proven_not_started, dispatched_wf. Qed.


(** ** The rest of the loop *)

Lemma loops_are_sequential_and_bounded_witness :
  fresh_store empty_db ∧ length (loop_requests awaiting_db "p1" "n1" "ep1") = 1 ∧
  (λ d, dget d "control_invocation") <$> loop_requests awaiting_db "p1" "n1" "ep1" = [Some (PInt 1)].
Proof.
  split; [apply empty_is_fresh|]. split; [by vm_compute|].
  exact (proj1 (loops_are_sequential_and_bounded empty_db loop_ops "p1" "n1" "ep1" (proj1 empty_is_fresh))).
Defined.

Lemma loop_ops_disciplined : disciplined_run empty_db loop_ops.
Proof. repeat split. Qed.

Lemma awaiting_ok : ledger_ok awaiting_db.
Proof. apply (run_ops_moves empty_db loop_ops); [apply empty_wf|apply fresh_ledger_ok, empty_is_fresh|apply loop_ops_disciplined]. Qed.

(** The same loop as a child that an Auto-research episode waits for. *)
Definition research_episode : EpisodeRecord :=
  loop_episode <| epi_episode_id := "ar1" |> <| epi_mode := ModeAutoResearch |> <| epi_control_node_id := None |>
    <| epi_graph_target := branch_target "ar1" |>
    <| epi_graph_base_head := Some {| head_target := main_target; head_revision := 1; head_transition_id := None |} |>.
Definition loop_route : AutoResearchChildExperimentRecord :=
  {| route_child_episode_id := "ep1"; route_parent_episode_id := "ar1"; route_project_id := "p1";
     route_control_node_id := "n1"; route_state := RouteRunning; route_terminal_diagnostic := None;
     route_created_at := 5; route_updated_at := 5 |}.
Definition routes_db : TaskDb :=
  empty_db <| td_auto_research := {["ar1"]} |> <| td_child_experiments := {["ep1" := loop_route]} |>.
Definition routed_ops : list (StoreOp * Z) := (OpCreateEpisode research_episode, 5%Z) :: loop_ops.
Notation routed_db := (run_ops routes_db routed_ops).

Lemma routed_report : report_awaited routed_db "ep1" EndCompleted 0.
Proof.
  assert (fresh_ledger routes_db) as Hf by done. destruct (fresh_store_wf routes_db (proj1 Hf)) as [Hwf _].
  split.
  - by apply (proj1 (run_ops_advances routed_ops routes_db)).
  - apply (run_ops_moves routes_db routed_ops); [done|by apply fresh_ledger_ok|repeat split].
  - eexists. by vm_compute.
  - eexists. split; [by vm_compute|]. split; [by vm_compute|]. eexists. by vm_compute.
  - by vm_compute.
  - by vm_compute.
Qed.

Definition failed_attempt (id error : string) (began failed : Z) : FailedAttempt :=
  {| fa_attempt := id; fa_allocated_at := began; fa_error := error; fa_failed_at := failed |}.
Definition first_failures : list FailedAttempt :=
  [failed_attempt "a1" "no answer" 50 51; failed_attempt "a2" "half a report" 52 55].
Definition last_failure : FailedAttempt := failed_attempt "a3" "no answer again" 60 66.


(** A Stop and a fourth attempt that come too late are refused. *)
Definition closing_ops : list (StoreOp * Z) :=
  ((first_failures ++ [last_failure]) ≫= fail_round "ep1") ++ [(OpRequestStop "ep1", 60%Z); (OpAttempt "ep1" "a4", 61%Z)].



(** ** The wrap-up service *)

#[local] Instance first_skill : ReportSkill := {| report_skill_version := "1" |}.

Definition session_root : AgentTaskRecord :=
  first_root <| task_request ::= (.++ [("provider", PStr "codex"); ("model", PStr "m"); ("reasoning", PStr "high")]) |>.
Definition session_ops : list (StoreOp * Z) :=
  [(OpCreateWithInvocation loop_episode session_root, 10%Z); (OpRunning "op1", 11%Z);
   (OpCheckpoint "op1" (Some "session") None (Some "/stage"), 12%Z); (OpComplete "op1" None [], 20%Z)].
Notation session_db := (run_ops empty_db session_ops).

Definition spec_of (continuation : string) : EpisodeWrapupSpec :=
  {| ews_episode_id := "ep1"; ews_ending := EndCompleted; ews_partial := false;
     ews_continuation_operation_id := continuation; ews_receipt := [("done", PBool true)]; ews_diagnostic := None |}.
Notation ending_call := (begin_episode_report_wrapup (spec_of "op1") 30 40 41 session_db).

Lemma session_ok : store_wf session_db ∧ ledger_ok session_db.
Proof.
  split; [apply (proj1 (run_ops_advances session_ops empty_db)), empty_wf|].
  apply (run_ops_moves empty_db session_ops); [apply empty_wf|apply fresh_ledger_ok, empty_is_fresh|repeat split].
Qed.

Lemma endings_reach_their_report_witness :
  match ending_call with
  | (db', Commit a) =>
      launchable a = true ∧ (ewa_wrapup a ≫= λ w, wf_output_path (wrap_fence w)) = Some "/stage/episode-report.html" ∧
      td_wrapups db' !! "ep1" = ewa_wrapup a
  | _ => False
  end.
Proof.
  destruct session_ok as [Hwf Hok].
  pose proof (λ db' r, endings_reach_their_report (spec_of "op1") 30 40 41 session_db db' r Hwf Hok) as Hr.
  destruct ending_call as [db' [a|]] eqn:Hb; [|by vm_compute in Hb].
  assert (launchable a = true ∧ (ewa_wrapup a ≫= λ w, wf_output_path (wrap_fence w)) = Some "/stage/episode-report.html") as [Hl Hp].
  { vm_compute in Hb. by injection Hb as <- <-. }
  split; [exact Hl|]. split; [exact Hp|]. destruct (Hr db' (Commit a) eq_refl) as (_ & _ & Ha).
  by destruct (Ha a eq_refl) as (Hw & _).
Defined.

Lemma ending_can_be_repeated_witness :
  match ending_call with
  | (db', Commit a) => begin_episode_report_wrapup (spec_of "op1") 50 60 61 db' = (db', Commit a)
  | _ => False
  end.
Proof.
  destruct session_ok as [Hwf Hok].
  pose proof (λ db' a, ending_can_be_repeated (spec_of "op1") 30 40 41 50 60 61 session_db db' a Hwf Hok) as Hr.
  destruct ending_call as [db' [a|]] eqn:Hb; [|by vm_compute in Hb]. by apply Hr.
Defined.

Definition lost_ops : list (StoreOp * Z) := session_ops ++ [(OpFence "ep1" EndCompleted None, 30%Z)].
Notation lost_db := (run_ops empty_db lost_ops).

Lemma unusable_continuation_strands_episode_witness :
  begin_episode_report_wrapup (spec_of "gone") 50 60 61 lost_db = (lost_db, Abort StoreValueError).
Proof.
  assert (∃ e, td_episodes lost_db !! "ep1" = Some e ∧ epi_ending_diagnostic e = None) as (e & He & Hd).
  { eexists. split; [vm_compute; reflexivity|done]. }
  assert (Hok : ledger_ok lost_db).
  { apply (run_ops_moves empty_db lost_ops); [apply empty_wf|apply fresh_ledger_ok, empty_is_fresh|repeat split]. }
  assert (Hs : stage_of lost_db "ep1" = Some (StageFenced EndCompleted)) by by vm_compute.
  assert (Hnb : _never_bound_a_session (store_agent_task lost_db "gone") = false) by by vm_compute.
  assert (Hv : concluding_is_visible lost_db "ep1" "gone" = false) by by vm_compute.
  exact (unusable_continuation_strands_episode (spec_of "gone") 50 60 61 lost_db e Hok He Hs Hd Hnb Hv).
Defined.
